(* ===== verification/_CoqProject ===== *)
-Q . S2P
Prelude.v
GoLib.v
Calendar.v
Errors.v
Postgres.v
Sql.v
Jobs.v
JobsFacts.v
Retries.v
Placement.v
PlacementFacts.v
SchedEngine.v
Scheduler.v
ProxyStore.v
RouteEngine.v
RouteFacts.v
Proxy.v
PreviewManager.v
Rbac.v
Process.v
DeployModel.v
Rows.v
Repository.v
RepositoryFacts.v
DeploymentRepo.v
DeploymentFacts.v
DeployStore.v
Outside.v
ControlPlane.v
DeployService.v
DeployRequests.v
Health.v
Pipeline.v
PipelineTrace.v
Deploy.v
OpsModel.v
OpsStore.v
Billing.v
Notify.v
Backups.v
MeteringFacts.v
RedisLock.v
Cron.v
Housekeeping.v
OpsJobs.v
Password.v
BuildModel.v
Detect.v
BuildStore.v
BuildTools.v
BuildPipeline.v
BuildFacts.v
BuildRun.v
BuildSim.v
IdentityModel.v
Slug.v
IdentityStore.v
IdentityService.v
Access.v
IdentityFacts.v
IdentityInvariants.v
AuthFacts.v
IdentitySim.v
CpStore.v
CpService.v
Webhook.v
CpAccess.v
CpFacts.v
CpHistory.v
CpTenants.v
CpSim.v
AgentModel.v
Agent.v
Internal.v
AgentDriver.v
AgentFacts.v
AgentSim.v
EdgeNet.v
Edge.v
EdgeFacts.v
