(* ===== verification/Prelude.v ===== *)
(** * Agnivo: a verification development

    Agnivo (the Go module under src/) is a platform that builds, deploys and
    serves applications.  An API writes deployments and enqueues jobs; builder
    and deployer workers take jobs from a queue in Postgres; the deployer asks
    the scheduler for a server and the container runtime for a container; the
    proxy manager keeps routes, certificates and domain verifications in Postgres
    and pushes routes to Caddy; an agent on each server runs its containers; the
    operations module meters usage, bills, notifies, backs up and cleans up on a
    cron schedule that a Redis lock guards.  This library models the parts that
    decide and keep state, and proves what makes them correct.

    ** How the program is modelled

    - A Go function that may fail returns a [result]; an error is the inductive
      [error] of Errors.v, which keeps the platform's error codes and wrapping.
    - Every statement sent to Postgres runs in the monad [db S] of Postgres.v
      over the tables [S], records whose fields are lists of rows.  A [faults]
      script decides which statements fail, so a theorem about all scripts
      holds for every pattern of failures; [Transact] drops the tables of a body
      that fails, which [Session] of Postgres.v justifies by BEGIN, COMMIT and
      ROLLBACK on a connection.
      Theorems over scripts use [wp] or [preserves]; those about a run without
      failures use [runs].  Lenses ([zoom]) run a component's statements on its
      part of a larger state.
    - Clock readings and fresh identifiers are arguments, or come from a world
      that is part of the state ([World] of the deployer, [Environment] of ops,
      [BuildWorld] of the builder, [IdentityWorld], [CpWorld], [AgentWorld]).  Times and
      durations are nanoseconds in [Z].  What a theorem says of "valid when it was
      used" is pinned by [ClockLaws] and [IdentityClock]: [instant] is the clock
      of a world, a reading lies between the instants around it, and no step sets
      the clock back.
    - float64 is IEEE binary64 (on the Standard Library's SpecFloat);
      [sort.Slice] is the class [Sorter], any sort that sorts, with insertion
      sort as an instance (both in GoLib.v).
    - An HTTP request is a record; a route table is a list of methods, patterns
      and handlers behind their middleware; [dispatch] of Access.v answers with
      what dto.OK or dto.Error would write.  What encoding/json and the validator
      make of a body is the class [Decoder].
    - What lies outside the repository is a class: [Driver] (what pgx calls
      safe to retry, and statements on a busy connection), [CaddyAdmin] (the
      Admin API of Caddy, where PUT only creates and a route the server does not
      accept is refused, with a list-based instance for any acceptance;
      [BuiltAccepted] says that what buildRoute builds is accepted), [Jsonb], [Context] of
      Process.v (timers and contexts), [World] of Outside.v (everything the
      deployer reaches, with a simulated instance in Deploy.v), [Redis] with its
      laws (RedisLock.v, with a memory that satisfies them), [BillingProvider],
      [Mailer], [BackupStorage], [PlatformTables] and [Decimal] (float64 to and
      from NUMERIC) of ops, [BuildWorld] (programs and files of the builder, with
      a simulated host in BuildSim.v), [Documents] (JSON texts), [RowMapping]
      (what pgx does with a column that has no field), [Aead] with [AeadLaws]
      (Password.v), [Argon2], [Digest] (SHA-256), [JwtLibrary] with [JwtLaws],
      [ServerTyping] (how the server types a parameter) and [WebhookWorld] (JSON
      payloads and HMAC), [AgentWorld] and [DriverWorld] (Docker, the network and
      the docker program behind the agent and the deployer's drivers) with
      [DriverJson], [MessageJson] with [MessageLaws] (texts of the streaming hub)
      and the record [Resolver] (what DNS servers answer).  Requests whose number matters are kept in a trace.

    ** Files

    - Prelude.v: results, time, 64-bit integers, tactics.  GoLib.v: strings,
      sorting and floating point of the Go library.  Calendar.v: Go's time.Date,
      AddDate and formats.  Slug.v (platform/strx).
    - Errors.v (platform/errors): the error struct, errors.Is and As,
      classification.
    - Postgres.v (platform/database/postgres): the monad, error translation,
      transactions and their retry, UUID and LIMIT parameters.  Sql.v, Rows.v: tables as lists of rows.
      Repository.v, RepositoryFacts.v (platform/repository): the generic
      repository, the text of its statements, pagination.
    - Jobs.v, JobsFacts.v, Retries.v (platform/jobs): the queue (Enqueue,
      Dequeue, Complete, Fail, Heartbeat, PurgeCompleted, Stats) and the worker.
    - Placement.v, PlacementFacts.v, SchedEngine.v, Scheduler.v
      (application/scheduler): servers and reservations, the placement
      algorithms, the store and the engine.
    - ProxyStore.v, RouteEngine.v, RouteFacts.v, Proxy.v, PreviewManager.v
      (application/proxy): routes, traffic switching, previews and their
      synchronisation with Caddy.  EdgeNet.v (proxy/middleware and streaming,
      cache/redis/ratelimit.go): addresses, middleware, rate limiters and the
      streaming hub; Edge.v (proxy/cert, dns, events, recovery, http, module.go):
      certificates, verifications, the reconciler, the HTTP API and the domain
      worker; EdgeFacts.v has their theorems.
    - AgentModel.v, Agent.v (application/runtimeagent): tables, the Docker client,
      the lifecycle, health, recovery, heartbeats and the internal API;
      AgentDriver.v (deploy/runtime): the deployer's two drivers.  AgentFacts.v
      has their theorems, AgentSim.v runs of an agent.
    - Rbac.v (application/identity/rbac).  Process.v (platform/retry, pool, events,
      lifecycle, resilience and the migration runner of database/postgres): Do, the
      Modules Pool, Migrate, Lifecycle and Bus, and the circuit breaker.
    - Internal.v (scheduler/http, deploy/http, build/http): the internal APIs.
    - DeployModel.v, DeploymentRepo.v, DeploymentFacts.v
      (application/controlplane/deployment): deployments and their timeline.
    - DeployStore.v, Outside.v, Health.v, Pipeline.v (application/deploy):
      executions and containers, the outside world, health verification,
      strategies and rollback, the jobs of the deployer; PipelineTrace.v and
      Deploy.v have their theorems.
    - ControlPlane.v (controlplane/cpjobs, identity/tenant and audit, the state
      the services share), DeployService.v, DeployRequests.v (the service of
      controlplane/deployment and its theorems).
    - RedisLock.v (platform/cache/redis/lock.go): the distributed lock.
    - OpsModel.v, OpsStore.v (application/ops model, schema and store): the
      tables and every statement; Billing.v, Notify.v, Backups.v (billing,
      notification, backup); MeteringFacts.v (metering, quota); Cron.v (cron);
      Housekeeping.v (autosleep, cleanup, audit, events, analytics); OpsJobs.v
      (jobs and the built-in schedule).
    - BuildModel.v, BuildStore.v (application/build model, buildstore, logs,
      events, and the rows of gitrepo and envvar it reads); Detect.v (detect,
      dockerfile); BuildTools.v (git, buildkit, cache, ecr, sbom);
      BuildPipeline.v (executor, worker, cancel).  BuildFacts.v has theorems on
      the parts, BuildRun.v the refinement of the pipeline, BuildSim.v whole
      builds on a simulated host.
    - Password.v (identity/password, and the sealed blobs of platform/cryptox and
      controlplane/crypto); IdentityModel.v (rows of identity, tokens
      of tokencrypto and jwt); IdentityStore.v (repositories), IdentityService.v
      (services), Access.v (identity/http: middleware, handlers, routes; request.go
      of httpx).  IdentityFacts.v, IdentityInvariants.v, AuthFacts.v have their
      theorems, IdentitySim.v an installation they are applied to.
    - CpStore.v (rows and repositories of controlplane/project, envvar, secret,
      domain, gitrepo), CpService.v (their services), Webhook.v
      (controlplane/webhook), CpAccess.v (controlplane/http and the webhook
      routes of apps/api).  CpFacts.v, CpHistory.v, CpTenants.v have their
      theorems, CpSim.v an installation they are applied to.

    ** What is proved

    The main theorems are numbered: their comments begin with C1, C2, and so on.

    - Queue: a running lease excludes other workers; the table stays well
      formed; a poll claims exactly the first eligible jobs; a job that always
      fails is dead-lettered after max_attempts attempts; a worker settles what
      it ran.
    - Scheduler: reserved memory is the sum of the active reservations; no
      over-commitment; placement is sound, complete and optimal for its
      criterion; reserving is idempotent and releasing undoes it; expiry fails
      where pgx refuses statements beside open rows.
    - Proxy: one live route and one certificate per hostname, one live preview
      per deployment and one verification per domain, whatever requests, passes
      and jobs run; reconciliation makes Caddy serve the table; create, switch,
      canary, rollback, delete and preview expiry do what they promise; a domain
      is verified on DNS evidence only; the hub's counters differ from its
      subscribers by the calls under way, and its buffers are bounded, in every
      interleaving; the in-process limiter bounds what an
      address gets through; what certificates, queued domain jobs and targeted
      messages do not do.
    - Agent: why no container is ever recorded as running, and no deployment
      through an agent completes.
    - Database: transactions are all or nothing on their connection and leave
      none open, retried ones take effect once;
      the placeholders of the repository's statements are numbered in the order
      of the arguments; following cursors enumerates a table.
    - Deployer: the order of a run and what its success implies; only built
      deployments are deployed by deploy.run; the timeline tells the status; completion and
      failure are guarded; health verification ends with a justified verdict.
    - Identity: routes of an organization need an active member with the
      permission; organizations are isolated; an owner is kept; refreshing
      rotates tokens; a login is sound; a reset token works once; access tokens
      hold their claims for their lifetime; password hashes verify; what API keys
      and revocations do not do.
    - Control plane: its routes need an active member with the permission;
      organizations are isolated but for domains and repositories of the path's
      project; the versions of variables and secrets are complete; a value is
      sealed for its project; the search of a slug ends; webhooks only record
      deliveries.  Requests on deployments are confined to the organization;
      what a request that succeeds has queued.
    - Ops: the lock excludes; rollups are the sums of the records, and keep the
      totals of records that were purged; accounts stay well typed and invoices
      add up; a delivered notification is not sent
      again; every due cron job is fired; what quotas, backups, analytics and
      the built-in schedule do not do.
    - Builder: the pipeline refines an abstract builder ([observe]) that checks
      out, builds once and pushes only what it built; a deployment is left built
      only for an image that was; credentials are cut from logs; which image tags
      are valid; a Dockerfile is generated once; variables never reach a build.
    - Internal APIs: that of the scheduler keeps its books; those of deployer and
      builder change no table.
    - Process: the worker pool runs what it accepts once, and closing it ends, under
      every schedule; migrations are applied once, in order and atomically; the
      order of start-up and shutdown; how often an event is delivered.
    - Circuit breaker, retry loop, roles, slugs, error classification.

    Examples named after a defect (such as [cancelled_goes_live]) evaluate the
    definitions on a concrete input that shows it.

    ** Bounds and fuel

    The port search of the placement algorithms runs the 100 probes of the code.
    [transact_retry] and [Do_loop] recurse on the number of attempts.
    [wait_loop] has one unit of fuel per second of the startup timeout; since
    every round pauses at least a second this is enough ([wait_fuel_enough]).
    [acquire_wait] has one unit per retry interval of the wait and three more
    ([AcquireWait_ends]).  [pow_loop] halves a 64-bit exponent, 64 times at most.
    [search_slug] has one round for every project and one more
    ([search_slug_ends]).  All other loops recurse on lists.

    ** What is not modelled

    Metrics, logs, tracing, reading of migration files and wiring; the HTTP
    handlers of ops; JSON decoding and the validator;
    keys (PEM files, key loading of the vault); UUID parameters outside proxy and
    agent (there the model has identifiers and the empty text only); Redis beyond
    the lock and the token bucket (pub/sub is part of the hub's steps), bootstrap and
    configuration; overflow of INT and BIGINT
    columns; a commit whose acknowledgement is lost; a request to Redis that is
    sent again or executed late; the readers of a build's output as goroutines of
    their own; Docker, git, the registry and AES behind the interfaces above.  Timestamps keep their nanoseconds and
    text is compared bytewise, where Postgres keeps microseconds and uses its
    collation.  Statements of different processes interleave only as whole
    operations in the reachability theorems. *)

From stdpp Require Export base tactics option list sorting gmap strings.
From Stdlib Require Export ZArith Lia.

#[export] Set Default Goal Selector "!".

(** ** Scope and notations *)

Declare Scope go_scope.
Delimit Scope go_scope with go.
#[global] Open Scope Z_scope.

Infix "=s?" := String.eqb (at level 70, no associativity) : go_scope.
#[global] Open Scope go_scope.

(** ** Results: the pair (value, error) a Go function returns *)

Inductive result (E A : Type) : Type :=
| Ok (a : A)
| Err (e : E).
Arguments Ok {E A} a.
Arguments Err {E A} e.

Definition is_ok {E A} (r : result E A) : bool :=
  match r with Ok _ => true | Err _ => false end.

Definition result_bind {E A B} (r : result E A) (k : A → result E B) : result E B :=
  match r with Ok a => k a | Err e => Err e end.

Notation "x <-! r ;; k" := (result_bind r (λ x, k))
  (at level 100, r at next level, right associativity) : go_scope.

(** ** Time

    A [time.Time] is a number of nanoseconds since the zero time of Go
    (January 1 of year 1, UTC), so that [IsZero] is comparison with 0; a
    [time.Duration] is a number of nanoseconds. *)

Abbreviation Time := Z (only parsing).
Abbreviation Duration := Z (only parsing).

Definition IsZero (t : Time) : bool := t =? 0.
Definition Add (t : Time) (d : Duration) : Time := t + d.
Definition After (t u : Time) : bool := u <? t.
Definition Before (t u : Time) : bool := t <? u.

Definition Nanosecond : Duration := 1.
Definition Millisecond : Duration := 1000000.
Definition Second : Duration := 1000000000.
Definition Minute : Duration := 60 * Second.
Definition Hour : Duration := 60 * Minute.

(** ** Machine integers: Go's [int] and [int64] are 64-bit two's complement *)

Definition int64_min : Z := - 2 ^ 63.
Definition int64_max : Z := 2 ^ 63 - 1.
Definition wrap64 (z : Z) : Z := (z + 2 ^ 63) mod 2 ^ 64 - 2 ^ 63.
Definition in_int64 (z : Z) : Prop := int64_min ≤ z ≤ int64_max.

Lemma wrap64_in_range z : in_int64 z → wrap64 z = z.
Proof.
  unfold in_int64, wrap64, int64_min, int64_max. intros H.
  rewrite Z.mod_small; lia.
Qed.

Lemma wrap64_bounds z : in_int64 (wrap64 z).
Proof.
  unfold in_int64, wrap64, int64_min, int64_max.
  pose proof (Z.mod_pos_bound (z + 2 ^ 63) (2 ^ 64) ltac:(lia)). lia.
Qed.

(** ** Tactics *)

(** Turn boolean tests in hypotheses and goal into propositions. *)
Ltac bool_to_prop :=
  repeat match goal with
  | H : (_ && _)%bool = true |- _ => apply andb_true_iff in H as [? ?]
  | H : (_ || _)%bool = false |- _ => apply orb_false_iff in H as [? ?]
  | H : (_ && _)%bool = false |- _ => apply andb_false_iff in H
  | H : (_ || _)%bool = true |- _ => apply orb_true_iff in H
  | H : negb _ = true |- _ => apply negb_true_iff in H
  | H : negb _ = false |- _ => apply negb_false_iff in H
  | H : (_ <? _) = true |- _ => apply Z.ltb_lt in H
  | H : (_ <? _) = false |- _ => apply Z.ltb_ge in H
  | H : (_ <=? _) = true |- _ => apply Z.leb_le in H
  | H : (_ <=? _) = false |- _ => apply Z.leb_gt in H
  | H : (_ =? _) = true |- _ => apply Z.eqb_eq in H
  | H : (_ =? _) = false |- _ => apply Z.eqb_neq in H
  | H : (_ =s? _) = true |- _ => apply String.eqb_eq in H
  | H : (_ =s? _) = false |- _ => apply String.eqb_neq in H
  | H : bool_decide _ = true |- _ => apply bool_decide_eq_true in H
  | H : bool_decide _ = false |- _ => apply bool_decide_eq_false in H
  end.

(** Case analysis on the tests and matches of the goal. *)
Ltac case_tests :=
  repeat (case_match; simplify_eq/=); bool_to_prop; simplify_eq/=.

Ltac unfold_time := unfold Before, After, Add, IsZero in *.
