(* ===== verification/GoLib.v ===== *)
(** * The Go library: strings, sorting and floating point

    First what the code uses of Go's package strings, on byte strings.  Case and white
    space are those of ASCII. *)

From Stdlib Require Import Ascii.
From Stdlib Require Import SpecFloat.
From stdpp Require Import pretty.
From S2P Require Import Prelude.

(** ** Bytes *)

Definition code_in (lo hi : nat) (c : ascii) : bool :=
  (lo <=? nat_of_ascii c)%nat && (nat_of_ascii c <=? hi)%nat.

Definition lower (c : ascii) : ascii :=
  if code_in 65 90 c then ascii_of_nat (nat_of_ascii c + 32) else c.

Definition is_space (a : ascii) : bool :=
  let n := nat_of_ascii a in (n =? 32)%nat || ((9 <=? n)%nat && (n <=? 13)%nat).

Definition digit (a : ascii) : bool := code_in 48 57 a.

(** No digit follows. *)
Definition plain_head (s : string) : bool := match s with EmptyString => true | String a _ => negb (digit a) end.

(** A double quote and a line feed. *)
Definition quote : string := String (ascii_of_nat 34) "".
Definition newline : string := String (ascii_of_nat 10) "".

(** ** Strings *)

(** [strings.ToLower] *)
Fixpoint ToLower (s : string) : string :=
  match s with EmptyString => EmptyString | String c s' => String (lower c) (ToLower s') end.

(** [strings.TrimSpace(v) == ""] *)
Fixpoint blank (s : string) : bool :=
  match s with EmptyString => true | String a s => is_space a && blank s end.

Fixpoint trim_left (s : string) : string :=
  match s with
  | EmptyString => EmptyString
  | String a s' => if is_space a then trim_left s' else s
  end.

Fixpoint trim_right (s : string) : string :=
  match s with
  | EmptyString => EmptyString
  | String a s' => if blank s then EmptyString else String a (trim_right s')
  end.

Definition TrimSpace (s : string) : string := trim_right (trim_left s).

Fixpoint drop_bytes (n : nat) (s : string) : string :=
  match n, s with
  | O, _ => s
  | S n, String _ s => drop_bytes n s
  | S _, EmptyString => EmptyString
  end.

Fixpoint is_prefix (p s : string) : bool :=
  match p, s with
  | EmptyString, _ => true
  | String a p, String b s => if ascii_dec a b then is_prefix p s else false
  | String _ _, EmptyString => false
  end.

Definition HasPrefix (s p : string) : bool := is_prefix p s.

Definition TrimPrefix (s p : string) : string :=
  if HasPrefix s p then drop_bytes (String.length p) s else s.

(** [strings.Index], [None] for -1. *)
Fixpoint index (s sub : string) : option nat :=
  if is_prefix sub s then Some O
  else match s with EmptyString => None | String _ s => S <$> index s sub end.

Definition Contains (s sub : string) : bool :=
  match index s sub with Some _ => true | None => false end.

(** [s[:n]] *)
Fixpoint take_bytes (n : nat) (s : string) : string :=
  match n, s with
  | S n, String a s => String a (take_bytes n s)
  | _, _ => EmptyString
  end.

(** [strings.Split] at a byte. *)
Fixpoint Split (s : string) (sep : ascii) : list string :=
  match s with
  | EmptyString => [EmptyString]
  | String a s =>
      let parts := Split s sep in
      if bool_decide (a = sep) then EmptyString :: parts
      else match parts with [] => [] | p :: parts => String a p :: parts end
  end.

(** Lines, each ended by a line feed. *)
Definition unlines (l : list string) : string := foldr (λ line s, line +:+ newline +:+ s) "" l.

Fixpoint keep_bytes (p : ascii → bool) (s : string) : string :=
  match s with
  | EmptyString => EmptyString
  | String a s => if p a then String a (keep_bytes p s) else keep_bytes p s
  end.

Fixpoint all_bytes (p : ascii → bool) (s : string) : bool :=
  match s with EmptyString => true | String a s => p a && all_bytes p s end.

(** ** Lemmas *)

#[local] Arguments String.append !_ _ /.

Lemma app_empty_r s : s +:+ "" = s.
Proof. induction s as [|a s IH]; [done|]. cbn. by f_equal. Qed.

Lemma app_assoc_s (s1 s2 s3 : string) : (s1 +:+ s2) +:+ s3 = s1 +:+ s2 +:+ s3.
Proof. induction s1 as [|a s IH]; [done|]. cbn. by f_equal. Qed.

Lemma length_app_s s1 s2 : String.length (s1 +:+ s2) = (String.length s1 + String.length s2)%nat.
Proof. induction s1 as [|a s IH]; [done|]. cbn. by f_equal. Qed.

Lemma prefix_spec p s : is_prefix p s = true ↔ ∃ r, s = p +:+ r.
Proof.
  revert s. induction p as [|a p IH]; intros s; cbn.
  - split; [by exists s|done].
  - destruct s as [|b s]; [split; [done|by intros [r ?]]|].
    destruct (ascii_dec a b) as [->|Hne].
    + rewrite IH. split; intros [r Hr]; exists r; [by rewrite Hr|]. by injection Hr.
    + split; [done|]. intros [r Hr]. by injection Hr.
Qed.

Lemma take_drop_bytes n s : take_bytes n s +:+ drop_bytes n s = s.
Proof. revert s. induction n as [|n IH]; intros [|a s]; try done. cbn. by rewrite IH. Qed.

Lemma take_bytes_app s r n : n = String.length s → take_bytes n (s +:+ r) = s.
Proof. intros ->. induction s as [|a s IH]; cbn; [by destruct r|]. by f_equal. Qed.

Lemma drop_bytes_app s r n : n = String.length s → drop_bytes n (s +:+ r) = r.
Proof. intros ->. induction s as [|a s IH]; [by destruct r|done]. Qed.

Lemma length_take_bytes n s : (String.length (take_bytes n s) ≤ n)%nat.
Proof. revert s. induction n as [|n IH]; intros [|a s]; cbn; [lia..|]. specialize (IH s). lia. Qed.

(** The first occurrence: the bytes before it, and none earlier. *)
Lemma index_spec s sub n :
  index s sub = Some n ↔
  (∃ r, s = take_bytes n s +:+ sub +:+ r) ∧ (n ≤ String.length s)%nat
  ∧ ∀ m, (m < n)%nat → is_prefix sub (drop_bytes m s) = false.
Proof.
  revert n. induction s as [|a s IH]; intros n.
  - cbn [index]. destruct (is_prefix sub "") eqn:E.
    + apply prefix_spec in E as [r Hr]. split.
      * intros [= <-]. split_and!; [by exists r|done|lia].
      * intros (_ & Hn & _). cbn in Hn. by replace n with O by lia.
    + split; [done|]. intros ([r Hr] & Hn & _). cbn in Hn. replace n with O in * by lia.
      assert (is_prefix sub "" = true) by (apply prefix_spec; by exists r). congruence.
  - cbn [index]. destruct (is_prefix sub (String a s)) eqn:E.
    + split.
      * intros [= <-]. apply prefix_spec in E as [r Hr]. split_and!; [by exists r|lia|lia].
      * intros (_ & _ & Hm). destruct n as [|n]; [done|]. specialize (Hm O ltac:(lia)). cbn in Hm.
        cbn in E. congruence.
    + destruct n as [|n].
      * split; [by destruct (index s sub)|]. intros ([r Hr] & _).
        assert (is_prefix sub (String a s) = true) by (apply prefix_spec; by exists r). congruence.
      * transitivity (index s sub = Some n); [by destruct (index s sub) as [k|]; cbn; split; intros [= ->]|].
        rewrite IH. cbn [take_bytes String.length]. split.
        -- intros ([r Hr] & Hn & Hm). split_and!; [exists r; cbn; by f_equal|lia|].
           intros [|m] H; [done|]. apply Hm. lia.
        -- intros ([r Hr] & Hn & Hm). split_and!; [exists r; by injection Hr|lia|].
           intros m H. apply (Hm (S m)). lia.
Qed.

Lemma index_none s sub : index s sub = None ↔ ∀ m, (m ≤ String.length s)%nat → is_prefix sub (drop_bytes m s) = false.
Proof.
  induction s as [|a s IH]; cbn [index].
  - destruct (is_prefix sub "") eqn:E.
    + split; [done|]. intros H. specialize (H O ltac:(cbn; lia)). cbn in *. congruence.
    + split; [|done]. intros _ m Hm. cbn in Hm. by replace m with O by lia.
  - destruct (is_prefix sub (String a s)) eqn:E.
    + split; [done|]. intros H. specialize (H O ltac:(lia)). cbn in H. cbn in E. congruence.
    + transitivity (index s sub = None); [by destruct (index s sub)|]. rewrite IH. split.
      * intros H [|m] Hm; [done|]. apply H. cbn in Hm. lia.
      * intros H m Hm. apply (H (S m)). cbn. lia.
Qed.

Lemma keep_bytes_all p s : all_bytes p (keep_bytes p s) = true.
Proof. induction s as [|a s IH]; [done|]. cbn. destruct (p a) eqn:E; [|done]. cbn. by rewrite E. Qed.

Lemma all_bytes_app p s1 s2 : all_bytes p (s1 +:+ s2) = all_bytes p s1 && all_bytes p s2.
Proof. induction s1 as [|a s IH]; [done|]. cbn. by rewrite IH, andb_assoc. Qed.

Lemma all_bytes_weaken p q s : (∀ a, p a = true → q a = true) → all_bytes p s = true → all_bytes q s = true.
Proof.
  intros H. induction s as [|a s IH]; [done|]. cbn. intros [Ha Hs]%andb_true_iff.
  by rewrite (H a Ha), IH.
Qed.

Lemma all_bytes_take p n s : all_bytes p s = true → all_bytes p (take_bytes n s) = true.
Proof.
  revert s. induction n as [|n IH]; intros [|a s]; try done. cbn.
  intros [Ha Hs]%andb_true_iff. by rewrite Ha, IH.
Qed.

(** ** Decimal numbers *)

Lemma digits_go x s : all_bytes digit s = true → all_bytes digit (pretty_N_go x s) = true.
Proof.
  revert s. induction (N.lt_wf_0 x) as [x _ IH]; intros s Hs.
  destruct (decide (x = 0)%N) as [->|Hne]; [by rewrite pretty_N_go_0|].
  rewrite pretty_N_go_step by lia. apply IH; [apply N.div_lt; lia|].
  cbn. rewrite Hs, andb_true_r.
  assert (x `mod` 10 < 10)%N as Hm by (apply N.mod_lt; lia). revert Hm. generalize (x `mod` 10)%N. intros n Hn.
  assert (n ∈ [0; 1; 2; 3; 4; 5; 6; 7; 8; 9]%N) as Hin.
  { rewrite !elem_of_cons, elem_of_nil. lia. }
  revert n Hn Hin. clear. intros n _ Hin.
  assert (Forall (λ n, digit (pretty_N_char n) = true) [0; 1; 2; 3; 4; 5; 6; 7; 8; 9]%N) as H by (by repeat constructor).
  rewrite Forall_forall in H. by apply H.
Qed.

Lemma pretty_digits n : 0 ≤ n → all_bytes digit (pretty n) = true.
Proof.
  intros Hn. destruct n as [|p|p]; [done| |lia].
  change (all_bytes digit (pretty_N_go (N.pos p) "") = true). by apply digits_go.
Qed.

(** What precedes a separator is the first part. *)
Lemma Split_app p sep r :
  all_bytes (λ a, bool_decide (a ≠ sep)) p = true → Split (p +:+ String sep r) sep = p :: Split r sep.
Proof.
  induction p as [|a p IH]; cbn; [by rewrite bool_decide_eq_true_2|].
  intros [Ha Hp]%andb_true_iff. apply bool_decide_eq_true in Ha. by rewrite IH, bool_decide_eq_false_2.
Qed.

Lemma Split_none p sep : all_bytes (λ a, bool_decide (a ≠ sep)) p = true → Split p sep = [p].
Proof.
  induction p as [|a p IH]; cbn; [done|].
  intros [Ha Hp]%andb_true_iff. apply bool_decide_eq_true in Ha. by rewrite IH, bool_decide_eq_false_2.
Qed.

(** * Sorting: [sort.Slice] and [ORDER BY]

    The source sorts with Go's [sort.Slice] (an unstable sort) and with the
    [ORDER BY] of PostgreSQL (no order among ties).  Neither fixes the result
    when the comparison has ties, so the components are written against the
    interface [Sorter]: a permutation of the input, sorted whenever the
    comparison is a strict weak order on the elements.  [insertion_sorter] is
    Go's own routine for short slices, and makes the components executable. *)

(** [less] is a strict weak order on the elements that satisfy [P]. *)
Record strict_weak_on {A} (P : A → Prop) (less : A → A → bool) : Prop := {
  swo_asym x y : P x → P y → less x y = true → less y x = false;
  swo_ntrans x y z : P x → P y → P z →
    less x y = false → less y z = false → less x z = false;
}.

(** [l] is sorted for [less]: no element is less than an earlier one. *)
Abbreviation sorted_by less := (StronglySorted (λ x y, less y x = false)).

Class Sorter := {
  sort_slice : ∀ {A : Type}, (A → A → bool) → list A → list A;
  sort_slice_perm : ∀ {A} (less : A → A → bool) l, sort_slice less l ≡ₚ l;
  sort_slice_sorted : ∀ {A} (less : A → A → bool) (P : A → Prop) l,
    strict_weak_on P less → Forall P l → sorted_by less (sort_slice less l);
}.

(** ** Strict weak orders *)

Lemma swo_weaken {A} (P Q : A → Prop) less :
  (∀ x, Q x → P x) → strict_weak_on P less → strict_weak_on Q less.
Proof. intros HQ [Ha Hn]. split; eauto. Qed.

(** Comparing through a key. *)
Lemma swo_on {A B} (f : A → B) (P : B → Prop) less :
  strict_weak_on P less → strict_weak_on (P ∘ f) (λ x y, less (f x) (f y)).
Proof. intros [Ha Hn]. split; simpl; eauto. Qed.

Lemma swo_flip {A} (P : A → Prop) less :
  strict_weak_on P less → strict_weak_on P (λ x y, less y x).
Proof. intros [Ha Hn]. split; eauto. Qed.

Lemma swo_Zltb : strict_weak_on (λ _, True) Z.ltb.
Proof. split; intros; bool_to_prop; lia. Qed.

(** Texts, compared bytewise. *)
Lemma text_ltb_asym a b : String.ltb a b = true → String.ltb b a = false.
Proof. unfold String.ltb. rewrite (String.compare_antisym a b). by destruct (String.compare b a). Qed.

Lemma text_ltb_total a b : String.ltb a b = false → String.ltb b a = false → a = b.
Proof.
  unfold String.ltb. rewrite (String.compare_antisym b a). destruct (String.compare a b) eqn:E; try done.
  intros _ _. by apply String.compare_eq_iff.
Qed.

Lemma text_ltb_trans a b c : String.ltb a b = true → String.ltb b c = true → String.ltb a c = true.
Proof.
  unfold String.ltb. revert b c. induction a as [|x a IH]; intros [|y b] [|z c]; cbn; try done.
  unfold Ascii.compare. pose proof (N.compare_spec (Ascii.N_of_ascii x) (Ascii.N_of_ascii y)) as Hxy.
  pose proof (N.compare_spec (Ascii.N_of_ascii y) (Ascii.N_of_ascii z)) as Hyz.
  destruct (Ascii.N_of_ascii x ?= Ascii.N_of_ascii y)%N, (Ascii.N_of_ascii y ?= Ascii.N_of_ascii z)%N; try done;
    inversion Hxy as [Hx|Hx|Hx]; inversion Hyz as [Hy|Hy|Hy]; intros H1 H2.
  - rewrite Hx, Hy, N.compare_refl. by apply (IH b).
  - rewrite Hx, (proj2 (N.compare_lt_iff _ _) Hy). done.
  - rewrite <- Hy, (proj2 (N.compare_lt_iff _ _) Hx). done.
  - by rewrite (proj2 (N.compare_lt_iff _ _) (N.lt_trans _ _ _ Hx Hy)).
Qed.

Lemma swo_text : strict_weak_on (λ _, True) String.ltb.
Proof.
  split; [by intros; apply text_ltb_asym|]. intros a b c _ _ _ H1 H2.
  destruct (String.ltb a c) eqn:E; [|done]. exfalso.
  destruct (String.ltb b a) eqn:E1; [by rewrite (text_ltb_trans b a c) in H2|].
  rewrite (text_ltb_total a b) in E by done. congruence.
Qed.

(** Lexicographic composition: [less1], then [less2] where [less1] ties. *)
Definition lex {A} (less1 less2 : A → A → bool) (x y : A) : bool :=
  if less1 x y then true else if less1 y x then false else less2 x y.

Lemma swo_lex {A} (P : A → Prop) less1 less2 :
  strict_weak_on P less1 → strict_weak_on P less2 → strict_weak_on P (lex less1 less2).
Proof.
  intros [Ha1 Hn1] [Ha2 Hn2]. unfold lex. split.
  - intros x y Hx Hy. destruct (less1 x y) eqn:E1.
    + by rewrite (Ha1 _ _ Hx Hy E1).
    + destruct (less1 y x) eqn:E2; [done|]. apply Ha2; done.
  - intros x y z Hx Hy Hz.
    destruct (less1 x y) eqn:E1; [done|]. destruct (less1 y z) eqn:E2.
    { by destruct (less1 y x). }
    rewrite (Hn1 x y z Hx Hy Hz E1 E2).
    destruct (less1 z x) eqn:E3; [done|].
    destruct (less1 y x) eqn:E4.
    { assert (less1 y x = false); [|congruence]. by apply (Hn1 y z x). }
    destruct (less1 z y) eqn:E5.
    { assert (less1 z y = false); [|congruence]. by apply (Hn1 z x y). }
    apply Hn2; done.
Qed.

(** ** Insertion sort, as [sort.Slice] runs it on at most 12 elements

    Each element moves left past the elements it is less than, starting from
    its right neighbour; the sorted prefix is kept last element first. *)

Fixpoint insert_left {A} (less : A → A → bool) (x : A) (acc : list A) : list A :=
  match acc with
  | [] => [x]
  | y :: acc' => if less x y then y :: insert_left less x acc' else x :: acc
  end.

Definition insertion_sort {A} (less : A → A → bool) (l : list A) : list A :=
  reverse (foldl (λ acc x, insert_left less x acc) [] l).

Section insertion.
Context {A : Type} (less : A → A → bool).

Lemma insert_left_perm x acc : insert_left less x acc ≡ₚ x :: acc.
Proof.
  induction acc as [|y acc IH]; simpl; [done|].
  case_match; [|done]. rewrite IH. apply Permutation_swap.
Qed.

Lemma foldl_insert_perm l acc :
  foldl (λ acc x, insert_left less x acc) acc l ≡ₚ l ++ acc.
Proof.
  revert acc. induction l as [|x l IH]; intros acc; simpl; [done|].
  rewrite IH, insert_left_perm. by rewrite Permutation_middle.
Qed.

Lemma insertion_sort_perm l : insertion_sort less l ≡ₚ l.
Proof.
  unfold insertion_sort. rewrite reverse_Permutation, foldl_insert_perm.
  by rewrite app_nil_r.
Qed.

Context (P : A → Prop) (Hswo : strict_weak_on P less).

(** The prefix, last element first: each element is not less than those after it. *)
Abbreviation down := (StronglySorted (λ x y, less x y = false)).

Lemma insert_left_down x acc :
  P x → Forall P acc → down acc → down (insert_left less x acc).
Proof using Hswo.
  intros Hx. induction acc as [|y acc IH]; intros HP Hs; simpl.
  { repeat constructor. }
  inversion HP; subst. inversion Hs as [|? ? Hs' Hy]; subst.
  case_match eqn:E.
  - constructor; [by apply IH|].
    rewrite insert_left_perm. constructor; [|done].
    by apply (swo_asym P less Hswo).
  - constructor; [done|]. constructor; [done|].
    rewrite Forall_forall in Hy |- *. intros z Hz.
    rewrite Forall_forall in H2. apply (swo_ntrans P less Hswo x y z); auto.
Qed.

Lemma foldl_insert_down l acc :
  Forall P l → Forall P acc → down acc →
  down (foldl (λ acc x, insert_left less x acc) acc l).
Proof using Hswo.
  revert acc. induction l as [|x l IH]; intros acc Hl HP Hs; simpl; [done|].
  inversion Hl; subst. apply IH; [done| |by apply insert_left_down].
  rewrite insert_left_perm. by constructor.
Qed.

Lemma StronglySorted_reverse (R : relation A) l :
  StronglySorted R l → StronglySorted (flip R) (reverse l).
Proof.
  induction 1 as [|x l Hs IH Hall]; [constructor|].
  rewrite reverse_cons. apply StronglySorted_app_2.
  { intros y z Hy Hz. apply list_elem_of_singleton in Hz as ->.
    rewrite elem_of_reverse in Hy. rewrite Forall_forall in Hall. by apply Hall. }
  { done. }
  repeat constructor.
Qed.

Lemma insertion_sort_sorted l : Forall P l → sorted_by less (insertion_sort less l).
Proof using Hswo.
  intros HP. unfold insertion_sort.
  exact (StronglySorted_reverse _ _ (foldl_insert_down l [] HP (Forall_nil_2 _) (SSorted_nil _))).
Qed.
End insertion.

#[export] Instance insertion_sorter : Sorter := {
  sort_slice := @insertion_sort;
  sort_slice_perm := @insertion_sort_perm;
  sort_slice_sorted := λ A less P l H, insertion_sort_sorted less P H l;
}.

(** ** Consequences of the interface *)

Section sorter.
Context `{S : Sorter} {A : Type} (less : A → A → bool).

Lemma elem_of_sort_slice x l : x ∈ sort_slice less l ↔ x ∈ l.
Proof. by rewrite (sort_slice_perm less l). Qed.

Lemma Forall_sort_slice (P : A → Prop) l : Forall P (sort_slice less l) ↔ Forall P l.
Proof. by rewrite (sort_slice_perm less l). Qed.

Lemma length_sort_slice l : length (sort_slice less l) = length l.
Proof. by rewrite (sort_slice_perm less l). Qed.

(** The first [n] elements come no later than the others. *)
Lemma sort_slice_take_drop (P : A → Prop) n l x y :
  strict_weak_on P less → Forall P l →
  x ∈ take n (sort_slice less l) → y ∈ drop n (sort_slice less l) → less y x = false.
Proof.
  intros Hswo HP Hx Hy.
  pose proof (sort_slice_sorted less P l Hswo HP) as Hs.
  rewrite <- (take_drop n (sort_slice less l)) in Hs.
  by eapply StronglySorted_app_1_elem_of in Hs.
Qed.
End sorter.

Create HintDb sorting.
#[export] Hint Resolve swo_Zltb swo_lex swo_flip : sorting.

(** * Go's [float64]: IEEE 754 binary64

    The arithmetic is the Standard Library's executable specification
    [SpecFloat] at precision 53 and exponent bound 1024, so that every score
    the program computes is the rounded one.  The order lemmas go through a
    lexicographic key. *)

Abbreviation f64 := spec_float.

Definition fadd : f64 → f64 → f64 := SFadd 53 1024.
Definition fsub : f64 → f64 → f64 := SFsub 53 1024.
Definition fmul : f64 → f64 → f64 := SFmul 53 1024.
Definition fdiv : f64 → f64 → f64 := SFdiv 53 1024.
Definition fltb : f64 → f64 → bool := SFltb.
Definition fleb : f64 → f64 → bool := SFleb.
Definition fgtb (x y : f64) : bool := SFltb y x.
Definition fgeb (x y : f64) : bool := SFleb y x.

(** The conversion [float64(n)] of an integer, rounded to nearest even. *)
Definition f64_of_Z (z : Z) : f64 := binary_normalize 53 1024 z 0 false.

(** The conversion [int64(x)], which truncates toward zero; where the value
    does not fit the result is the one of amd64. *)
Definition int64_of_f64 (x : f64) : Z :=
  match x with
  | S754_zero _ => 0
  | S754_finite s m e =>
      let a := if 0 <=? e then Zpos m * 2 ^ e else Zpos m / 2 ^ (- e) in
      let v := if s then - a else a in
      if (int64_min <=? v) && (v <=? int64_max) then v else int64_min
  | S754_infinity _ | S754_nan => int64_min
  end.

(** [d.Seconds()] *)
Definition Seconds (d : Duration) : f64 :=
  fadd (f64_of_Z (Z.quot d Second)) (fdiv (f64_of_Z (Z.rem d Second)) (f64_of_Z 1000000000)).

Definition f0 : f64 := S754_zero false.
Definition f1 : f64 := f64_of_Z 1.
Definition f3 : f64 := f64_of_Z 3.
Definition f80 : f64 := f64_of_Z 80.
Definition f100 : f64 := f64_of_Z 100.
Definition f1000 : f64 := f64_of_Z 1000.
Definition fm1 : f64 := f64_of_Z (-1).
Definition MaxFloat64 : f64 := S754_finite false 9007199254740991 971.

Declare Scope f64_scope.
Delimit Scope f64_scope with f64.
Infix "+" := fadd : f64_scope.
Infix "-" := fsub : f64_scope.
Infix "*" := fmul : f64_scope.
Infix "/" := fdiv : f64_scope.
Infix "<?" := fltb : f64_scope.
Infix "<=?" := fleb : f64_scope.
Infix ">?" := fgtb : f64_scope.
Infix ">=?" := fgeb : f64_scope.

Definition is_nan (x : f64) : bool := match x with S754_nan => true | _ => false end.
Definition num (x : f64) : Prop := is_nan x = false.

(** ** The order of the numbers *)

(** Class of the value (from minus infinity to plus infinity), then exponent
    and mantissa with the sign of the value. *)
Definition fkey (x : f64) : Z * Z * Z :=
  match x with
  | S754_infinity true => (-2, 0, 0)
  | S754_finite true m e => (-1, - e, Zneg m)
  | S754_zero _ | S754_nan => (0, 0, 0)
  | S754_finite false m e => (1, e, Zpos m)
  | S754_infinity false => (2, 0, 0)
  end.

Definition key_ltb (a b : Z * Z * Z) : bool :=
  lex (λ p q, p.1.1 <? q.1.1) (lex (λ p q, p.1.2 <? q.1.2) (λ p q, p.2 <? q.2)) a b.

Lemma fltb_key x y : num x → num y → fltb x y = key_ltb (fkey x) (fkey y).
Proof.
  unfold num, fltb, SFltb, key_ltb, lex.
  destruct x as [[]|[]| |[] m e], y as [[]|[]| |[] n f]; intros; simplify_eq/=; try done;
    change (Pos.compare_cont Eq m n) with (m ?= n)%positive;
    destruct (Z.compare_spec e f), (Pos.compare_spec m n); simplify_eq/=;
    repeat match goal with
    | |- context [?a <? ?b] => destruct (Z.ltb_spec a b)
    end; try done; lia.
Qed.

Lemma swo_key_ltb : strict_weak_on (λ _, True) key_ltb.
Proof.
  apply swo_lex.
  { apply (swo_on (λ p : Z * Z * Z, p.1.1) (λ _, True)), swo_Zltb. }
  apply swo_lex.
  - apply (swo_on (λ p : Z * Z * Z, p.1.2) (λ _, True)), swo_Zltb.
  - apply (swo_on (λ p : Z * Z * Z, p.2) (λ _, True)), swo_Zltb.
Qed.

(** [<] is a strict weak order on the numbers (not on the NaNs). *)
Lemma swo_fltb : strict_weak_on num fltb.
Proof.
  destruct swo_key_ltb as [Ha Hn]. split.
  - intros x y Hx Hy. rewrite !fltb_key by done. auto.
  - intros x y z Hx Hy Hz. rewrite !fltb_key by done. eauto.
Qed.

Lemma fltb_nan_l x : fltb S754_nan x = false.
Proof. done. Qed.
Lemma fltb_nan_r x : fltb x S754_nan = false.
Proof. by destruct x as [[]|[]| |[]]. Qed.

Lemma fltb_irrefl x : fltb x x = false.
Proof.
  destruct (fltb x x) eqn:E; [|done]. destruct (is_nan x) eqn:Hn.
  - destruct x; try done.
  - by rewrite (swo_asym num fltb swo_fltb x x Hn Hn E) in E.
Qed.

(** On numbers, not less is greater or equal. *)
Lemma fltb_ge x y : num x → num y → fltb x y = false → fgeb x y = true.
Proof.
  unfold num, fltb, fgeb, SFltb, SFleb.
  destruct x as [[]|[]| |[] m e], y as [[]|[]| |[] n f]; intros; simplify_eq/=; try done;
  change (Pos.compare_cont Eq m n) with (m ?= n)%positive in *;
  change (Pos.compare_cont Eq n m) with (n ?= m)%positive in *;
  rewrite (Z.compare_antisym e f), (Pos.compare_antisym m n);
  destruct (e ?= f), (m ?= n)%positive; done.
Qed.

#[export] Hint Resolve swo_fltb : sorting.

(** ** Conversions *)

Example f64_of_Z_250_1000 : (f64_of_Z 250 / f1000)%f64 = S754_finite false 4503599627370496 (-54).
Proof. vm_compute. reflexivity. Qed.

Example int64_of_f64_trunc : int64_of_f64 (f64_of_Z 7 / f64_of_Z 2)%f64 = 3
  ∧ int64_of_f64 (f64_of_Z (-7) / f64_of_Z 2)%f64 = -3.
Proof. vm_compute. done. Qed.
