(* ===== verification/Calendar.v ===== *)
(** * Dates of Go's time package

    The proleptic Gregorian calendar on [Time] (nanoseconds since January 1 of
    year 1, UTC): [time.Date] with its normalisation of months and days,
    [AddDate], [Truncate], and the layouts the program prints.  Days are
    computed by the rule of leap years; the two directions are inverse
    ([date_of_day_spec], [date_of_day_number]). *)

From stdpp Require Import pretty.
From S2P Require Import Prelude.

Definition Day : Duration := 24 * Hour.

(** ** Days *)

Definition leap (y : Z) : bool :=
  (y mod 4 =? 0) && (negb (y mod 100 =? 0) || (y mod 400 =? 0)).

Definition days_in_month (y m : Z) : Z :=
  if m =? 2 then if leap y then 29 else 28
  else if (m =? 4) || (m =? 6) || (m =? 9) || (m =? 11) then 30 else 31.

(** Days from January 1 of year 1 to January 1 of year [y]. *)
Definition days_before_year (y : Z) : Z :=
  let p := y - 1 in 365 * p + p / 4 - p / 100 + p / 400.

(** Days of year [y] before its month [m]. *)
Definition days_before_month (y m : Z) : Z :=
  nth (Z.to_nat (m - 1)) [0; 31; 59; 90; 120; 151; 181; 212; 243; 273; 304; 334] 0
  + (if leap y && (2 <? m) then 1 else 0).

Definition civil : Type := Z * Z * Z.

Definition valid_date (d : civil) : bool :=
  let '(y, m, d) := d in (1 <=? m) && (m <=? 12) && (1 <=? d) && (d <=? days_in_month y m).

(** The day number of a date; [time.Date] accepts any month and day and carries
    the excess over. *)
Definition day_number (y m d : Z) : Z :=
  let y' := y + (m - 1) / 12 in
  let m' := (m - 1) mod 12 + 1 in
  days_before_year y' + days_before_month y' m' + (d - 1).

(** The month of the [n]-th day of a year, and the day in it. *)
Fixpoint month_of (fuel : nat) (y m n : Z) : Z * Z :=
  match fuel with
  | O => (m, n + 1)
  | S fuel => if n <? days_in_month y m then (m, n + 1) else month_of fuel y (m + 1) (n - days_in_month y m)
  end.

Definition days_per_400 : Z := 146097.
Definition days_per_100 : Z := 36524.
Definition days_per_4 : Z := 1461.

(** [Time.Date]: cycles of 400, 100, 4 and 1 years are cut off in turn. *)
Definition date_of_day (n : Z) : civil :=
  let n400 := n / days_per_400 in
  let n := n mod days_per_400 in
  let n100 := Z.min 3 (n / days_per_100) in
  let n := n - n100 * days_per_100 in
  let n4 := n / days_per_4 in
  let n := n - n4 * days_per_4 in
  let n1 := Z.min 3 (n / 365) in
  let n := n - n1 * 365 in
  let y := 400 * n400 + 100 * n100 + 4 * n4 + n1 + 1 in
  let '(m, d) := month_of 12 y 1 n in (y, m, d).

(** ** Times *)

Definition date_of (t : Time) : civil := date_of_day (t / Day).
Definition clock_of (t : Time) : Duration := t mod Day.

(** [time.Date(y, m, d, 0, 0, 0, clock, time.UTC)] *)
Definition Date (y m d : Z) (clock : Duration) : Time := day_number y m d * Day + clock.

Definition AddDate (t : Time) (years months days : Z) : Time :=
  let '(y, m, d) := date_of t in Date (y + years) (m + months) (d + days) (clock_of t).

(** [Truncate]: to a multiple of [d] since the zero time; [d <= 0] changes nothing. *)
Definition Truncate (t : Time) (d : Duration) : Time := if d <=? 0 then t else t - t mod d.

(** ** Layouts *)

Definition pad (width : nat) (z : Z) : string :=
  let s := pretty z in String.append (String.concat "" (replicate (width - String.length s) "0")) s.

(** ["2006-01-02"] *)
Definition format_date (t : Time) : string :=
  let '(y, m, d) := date_of t in pad 4 y +:+ "-" +:+ pad 2 m +:+ "-" +:+ pad 2 d.

(** ["2006-01-02T15:04"] *)
Definition format_minute (t : Time) : string :=
  format_date t +:+ "T" +:+ pad 2 (clock_of t / Hour) +:+ ":" +:+ pad 2 (clock_of t mod Hour / Minute).

(** ["20060102-150405"] *)
Definition format_stamp (t : Time) : string :=
  let '(y, m, d) := date_of t in
  pad 4 y +:+ pad 2 m +:+ pad 2 d +:+ "-" +:+ pad 2 (clock_of t / Hour)
  +:+ pad 2 (clock_of t mod Hour / Minute) +:+ pad 2 (clock_of t mod Minute / Second).

(** ** Years *)

Definition year_length (y : Z) : Z := 365 + (if leap y then 1 else 0).

Lemma leap_spec y :
  leap y = true ↔ y mod 4 = 0 ∧ (y mod 100 ≠ 0 ∨ y mod 400 = 0).
Proof. unfold leap. rewrite andb_true_iff, orb_true_iff, negb_true_iff, !Z.eqb_eq, Z.eqb_neq. done. Qed.

Lemma days_before_year_S y : days_before_year (y + 1) = days_before_year y + year_length y.
Proof.
  unfold days_before_year, year_length. destruct (leap y) eqn:E.
  - apply leap_spec in E. Z.to_euclidean_division_equations. lia.
  - assert (¬ (y mod 4 = 0 ∧ (y mod 100 ≠ 0 ∨ y mod 400 = 0))) as Hn.
    { rewrite <- leap_spec. congruence. }
    Z.to_euclidean_division_equations. lia.
Qed.

Lemma days_before_year_mono y y' : y < y' → days_before_year y + year_length y ≤ days_before_year y'.
Proof.
  intros H. rewrite <- days_before_year_S. unfold days_before_year.
  Z.to_euclidean_division_equations. lia.
Qed.

(** The year and the day in it that [date_of_day] finds. *)
Definition year_of_day (n : Z) : Z * Z :=
  let n400 := n / days_per_400 in
  let n := n mod days_per_400 in
  let n100 := Z.min 3 (n / days_per_100) in
  let n := n - n100 * days_per_100 in
  let n4 := n / days_per_4 in
  let n := n - n4 * days_per_4 in
  let n1 := Z.min 3 (n / 365) in
  (400 * n400 + 100 * n100 + 4 * n4 + n1 + 1, n - n1 * 365).

Lemma year_of_day_spec n :
  let '(y, r) := year_of_day n in n = days_before_year y + r ∧ 0 ≤ r < year_length y.
Proof.
  unfold year_of_day, year_length, days_before_year, days_per_400, days_per_100, days_per_4.
  set (q := n / 146097). set (n1 := n mod 146097).
  assert (n = 146097 * q + n1 ∧ 0 ≤ n1 < 146097) as [Hn Hn1].
  { unfold q, n1. Z.to_euclidean_division_equations. lia. }
  clearbody q n1. set (a := Z.min 3 (n1 / 36524)). set (n2 := n1 - a * 36524).
  assert (0 ≤ a ≤ 3 ∧ 0 ≤ n2 ∧ (n2 < 36524 ∨ a = 3 ∧ n2 < 36525)) as (Ha & Hn2 & Hn2').
  { unfold n2, a. Z.to_euclidean_division_equations. lia. }
  set (b := n2 / 1461). set (n3 := n2 - b * 1461).
  assert (0 ≤ b ≤ 24 ∧ 0 ≤ n3 < 1461 ∧ (n3 < 1460 ∨ b < 24 ∨ a = 3)) as (Hb & Hn3 & Hn3').
  { unfold n3, b. Z.to_euclidean_division_equations. lia. }
  assert (n1 = 36524 * a + n2) as E1 by lia. assert (n2 = 1461 * b + n3) as E2 by lia.
  clearbody a b n2 n3. set (c := Z.min 3 (n3 / 365)). set (r := n3 - c * 365).
  assert (0 ≤ c ≤ 3 ∧ 0 ≤ r ∧ (r < 365 ∨ c = 3 ∧ r < 366)) as (Hc & Hr & Hr').
  { unfold r, c. Z.to_euclidean_division_equations. lia. }
  assert (n3 = 365 * c + r) as E3 by lia. clearbody c r.
  set (y := 400 * q + 100 * a + 4 * b + c + 1).
  split.
  - replace (y - 1) with (400 * q + 100 * a + 4 * b + c) by lia.
    Z.to_euclidean_division_equations. lia.
  - destruct (leap y) eqn:E; [lia|]. split; [lia|].
    destruct (decide (r < 365)) as [|Hbig]; [lia|]. destruct (not_true_iff_false (leap y)) as [_ Hl].
    destruct (Hl E). apply leap_spec. unfold y.
    Z.to_euclidean_division_equations. lia.
Qed.

(** ** Months *)

Lemma month_cases m : 1 ≤ m ≤ 12 →
  m = 1 ∨ m = 2 ∨ m = 3 ∨ m = 4 ∨ m = 5 ∨ m = 6 ∨ m = 7 ∨ m = 8 ∨ m = 9 ∨ m = 10 ∨ m = 11 ∨ m = 12.
Proof. lia. Qed.

(** The months fill the year. *)
Lemma days_before_month_next y m : 1 ≤ m ≤ 12 →
  days_before_month y m + days_in_month y m
  = if m =? 12 then year_length y else days_before_month y (m + 1).
Proof.
  intros H%month_cases. unfold days_before_month, days_in_month, year_length.
  destruct_or! H; subst; by destruct (leap y).
Qed.

Lemma days_in_month_pos y m : 28 ≤ days_in_month y m ≤ 31.
Proof. unfold days_in_month. repeat case_match; lia. Qed.

Lemma month_of_spec fuel : ∀ y m n, 1 ≤ m → Z.of_nat fuel + m = 13 →
  0 ≤ n < year_length y - days_before_month y m → 0 < Z.of_nat fuel →
  let '(m', d) := month_of fuel y m n in
  valid_date (y, m', d) = true ∧ days_before_month y m' + (d - 1) = days_before_month y m + n.
Proof.
  induction fuel as [|fuel IH]; intros y m n Hm Hf Hn Hpos; [lia|]. simpl.
  pose proof (days_before_month_next y m ltac:(lia)) as Hnext.
  destruct (Z.ltb_spec n (days_in_month y m)) as [Hlt|Hge].
  - split; [|lia]. unfold valid_date. rewrite !andb_true_iff, !Z.leb_le. lia.
  - destruct (Z.eqb_spec m 12) as [->|]; [lia|].
    specialize (IH y (m + 1) (n - days_in_month y m) ltac:(lia) ltac:(lia) ltac:(lia) ltac:(lia)).
    destruct (month_of fuel y (m + 1) _) as [m' d]. destruct IH as [IH1 IH2]. split; [done|lia].
Qed.

Lemma days_before_month_bounds y m d : valid_date (y, m, d) = true →
  0 ≤ days_before_month y m ∧ days_before_month y m + (d - 1) < year_length y.
Proof.
  unfold valid_date. rewrite !andb_true_iff, !Z.leb_le. intros [[[H1 H2] H3] H4].
  assert (1 ≤ m ≤ 12) as H%month_cases by lia. revert H4.
  unfold days_before_month, days_in_month, year_length.
  destruct_or! H; subst; destruct (leap y); simpl; lia.
Qed.

Lemma days_before_month_mono y m m' : 1 ≤ m → m < m' → m' ≤ 12 →
  days_before_month y m + days_in_month y m ≤ days_before_month y m'.
Proof.
  intros H1 H2 H3. replace m' with (m + 1 + Z.of_nat (Z.to_nat (m' - m - 1))) by lia.
  assert (m + 1 + Z.of_nat (Z.to_nat (m' - m - 1)) ≤ 12) as H4 by lia. revert H4.
  induction (Z.to_nat (m' - m - 1)) as [|k IH]; intros H4.
  - rewrite days_before_month_next by lia. destruct (Z.eqb_spec m 12); [lia|].
    replace (m + 1 + Z.of_nat 0) with (m + 1) by lia. done.
  - specialize (IH ltac:(lia)). set (j := m + 1 + Z.of_nat k) in *.
    replace (m + 1 + Z.of_nat (S k)) with (j + 1) in * by lia.
    pose proof (days_before_month_next y j ltac:(lia)) as Hn.
    destruct (Z.eqb_spec j 12); [lia|]. pose proof (days_in_month_pos y j). lia.
Qed.

(** ** Dates and day numbers *)

Lemma day_number_valid y m d : valid_date (y, m, d) = true →
  day_number y m d = days_before_year y + days_before_month y m + (d - 1).
Proof.
  unfold valid_date, day_number. rewrite !andb_true_iff, !Z.leb_le. intros H.
  rewrite (Z.div_small (m - 1) 12), (Z.mod_small (m - 1) 12) by lia.
  by rewrite Z.add_0_r, Z.sub_add.
Qed.

Lemma date_of_day_year n :
  date_of_day n = (let '(y, r) := year_of_day n in let '(m, d) := month_of 12 y 1 r in (y, m, d)).
Proof. unfold date_of_day, year_of_day. done. Qed.

Lemma date_of_day_spec n :
  let '(y, m, d) := date_of_day n in valid_date (y, m, d) = true ∧ day_number y m d = n.
Proof.
  rewrite date_of_day_year. pose proof (year_of_day_spec n) as H.
  destruct (year_of_day n) as [y r]. destruct H as [Hn Hr].
  assert (days_before_month y 1 = 0) as E1 by (unfold days_before_month; by destruct (leap y)).
  pose proof (month_of_spec 12 y 1 r ltac:(lia) ltac:(lia) ltac:(lia) ltac:(lia)) as H.
  destruct (month_of 12 y 1 r) as [m d]. destruct H as [Hv Hd]. split; [done|].
  rewrite day_number_valid by done. lia.
Qed.

Lemma day_number_inj y m d y' m' d' :
  valid_date (y, m, d) = true → valid_date (y', m', d') = true →
  day_number y m d = day_number y' m' d' → (y, m, d) = (y', m', d').
Proof.
  intros H H'. rewrite !day_number_valid by done. intros E.
  pose proof (days_before_month_bounds _ _ _ H). pose proof (days_before_month_bounds _ _ _ H').
  unfold valid_date in H, H'. rewrite !andb_true_iff, !Z.leb_le in H, H'.
  assert (y = y') as <-.
  { destruct (Z.lt_trichotomy y y') as [Hlt|[?|Hlt]]; [|done|];
      apply days_before_year_mono in Hlt; lia. }
  assert (m = m') as <-.
  { destruct (Z.lt_trichotomy m m') as [Hlt|[?|Hlt]]; [|done|];
      apply (days_before_month_mono y) in Hlt; lia. }
  f_equal. lia.
Qed.

Lemma date_of_day_number y m d : valid_date (y, m, d) = true → date_of_day (day_number y m d) = (y, m, d).
Proof.
  intros H. pose proof (date_of_day_spec (day_number y m d)) as Hs.
  destruct (date_of_day (day_number y m d)) as [[y' m'] d']. destruct Hs. by apply day_number_inj.
Qed.

(** ** Moving in time *)

Lemma date_of_Date y m d clock : valid_date (y, m, d) = true → 0 ≤ clock < Day →
  date_of (Date y m d clock) = (y, m, d) ∧ clock_of (Date y m d clock) = clock.
Proof.
  intros Hv Hc. unfold date_of, clock_of, Date. unfold Day, Hour, Minute, Second in *.
  rewrite Z.div_add_l by lia. rewrite Z.div_small by lia. rewrite Z.add_0_r.
  rewrite Z.add_comm, Z.mod_add by lia. rewrite Z.mod_small by lia.
  split; [by apply date_of_day_number|done].
Qed.

Lemma Date_of t : let '(y, m, d) := date_of t in Date y m d (clock_of t) = t.
Proof.
  unfold date_of. pose proof (date_of_day_spec (t / Day)) as H.
  destruct (date_of_day (t / Day)) as [[y m] d]. destruct H as [_ H].
  unfold Date, clock_of. rewrite H. unfold Day, Hour, Minute, Second. Z.to_euclidean_division_equations. lia.
Qed.

Lemma clock_of_bounds t : 0 ≤ clock_of t < Day.
Proof. unfold clock_of. apply Z.mod_pos_bound. unfold Day, Hour, Minute, Second. lia. Qed.

(** The first day of a later month lies after every day of this month. *)
Lemma day_number_next_month y m d k : valid_date (y, m, d) = true → 1 ≤ k →
  day_number y m d < day_number y (m + k) 1.
Proof.
  intros Hv Hk. pose proof (days_before_month_bounds _ _ _ Hv) as Hb. rewrite day_number_valid by done.
  unfold day_number. unfold valid_date in Hv. rewrite !andb_true_iff, !Z.leb_le in Hv.
  destruct (decide (m + k ≤ 12)) as [Hle|Hgt].
  - rewrite (Z.div_small (m + k - 1) 12), (Z.mod_small (m + k - 1) 12) by lia.
    rewrite !Z.add_0_r, Z.sub_add.
    pose proof (days_before_month_mono y m (m + k) ltac:(lia) ltac:(lia) ltac:(lia)). lia.
  - set (y' := y + (m + k - 1) / 12).
    assert (y < y') as Hy by (unfold y'; Z.to_euclidean_division_equations; lia).
    apply days_before_year_mono in Hy.
    assert (valid_date (y', (m + k - 1) mod 12 + 1, 1) = true) as Hv'.
    { unfold valid_date. pose proof (Z.mod_pos_bound (m + k - 1) 12 ltac:(lia)).
      pose proof (days_in_month_pos y' ((m + k - 1) mod 12 + 1)).
      rewrite !andb_true_iff, !Z.leb_le. lia. }
    apply days_before_month_bounds in Hv' as [??]. lia.
Qed.

(** A month later is 28 to 31 days later, a year later 365 or 366. *)
Lemma day_number_month y m d :
  day_number y (m + 1) d
  = day_number y m d + days_in_month (y + (m - 1) / 12) ((m - 1) mod 12 + 1).
Proof.
  unfold day_number. rewrite !Z.add_simpl_r.
  set (y' := y + (m - 1) / 12). set (k := (m - 1) mod 12).
  pose proof (days_before_month_next y' (k + 1) ltac:(unfold k; Z.to_euclidean_division_equations; lia)) as Hn.
  destruct (Z.eqb_spec (k + 1) 12) as [E|E].
  - replace (y + m / 12) with (y' + 1) by (unfold y', k in *; Z.to_euclidean_division_equations; lia).
    replace (m mod 12) with 0 by (unfold k in *; Z.to_euclidean_division_equations; lia).
    rewrite days_before_year_S. replace (days_before_month (y' + 1) (0 + 1)) with 0; [lia|].
    unfold days_before_month. simpl. by rewrite andb_false_r.
  - replace (y + m / 12) with y' by (unfold y', k in *; Z.to_euclidean_division_equations; lia).
    replace (m mod 12) with (k + 1) by (unfold k in *; Z.to_euclidean_division_equations; lia). lia.
Qed.

Lemma day_number_year y m d : ∃ n, 365 ≤ n ≤ 366 ∧ day_number (y + 1) m d = day_number y m d + n.
Proof.
  unfold day_number. replace (y + 1 + (m - 1) / 12) with (y + (m - 1) / 12 + 1) by lia.
  set (y' := y + (m - 1) / 12). set (m' := (m - 1) mod 12 + 1). rewrite days_before_year_S.
  exists (365 + (if leap (if 2 <? m' then y' + 1 else y') then 1 else 0)).
  unfold year_length, days_before_month. split; [by case_match|].
  destruct (2 <? m'); rewrite ?andb_true_r, ?andb_false_r; lia.
Qed.

Lemma AddDate_month t : ∃ n, 28 ≤ n ≤ 31 ∧ AddDate t 0 1 0 = t + n * Day.
Proof.
  unfold AddDate. pose proof (Date_of t) as H. destruct (date_of t) as [[y m] d].
  exists (days_in_month (y + (m - 1) / 12) ((m - 1) mod 12 + 1)). split; [apply days_in_month_pos|].
  rewrite <- H at 2. unfold Date. rewrite Z.add_0_r, Z.add_0_r, day_number_month. lia.
Qed.

Lemma AddDate_year t : ∃ n, 365 ≤ n ≤ 366 ∧ AddDate t 1 0 0 = t + n * Day.
Proof.
  unfold AddDate. pose proof (Date_of t) as H. destruct (date_of t) as [[y m] d].
  destruct (day_number_year y m d) as (n & Hn & E). exists n. split; [done|].
  rewrite <- H at 2. unfold Date. rewrite !Z.add_0_r, E. lia.
Qed.

Lemma AddDate_days t n : AddDate t 0 0 n = t + n * Day.
Proof.
  unfold AddDate. pose proof (Date_of t) as H. destruct (date_of t) as [[y m] d].
  rewrite <- H at 2. unfold Date, day_number. rewrite !Z.add_0_r. lia.
Qed.
