(* ===== verification/Errors.v ===== *)
(** * The error framework (packages/platform/errors)

    [error] is the Go interface value (nil is the [None] of an [option]);
    [Error] is the platform's own struct.  Errors of other packages that the
    code compares by identity are [Sentinel]s, the driver's [*pgconn.PgError]
    carries its SQLSTATE, and [Wrapped] / [Joined] are the two ways of the
    standard library to wrap. *)

From S2P Require Import Prelude.

#[local] Set Warnings "-register-all".

(** Values attached to an error for logging ([map[string]any]). *)
Inductive value := VString (s : string) | VInt (z : Z) | VBool (b : bool) | VRaw (json : string).

Abbreviation Code := string.

Definition CodeInternal : Code := "internal".
Definition CodeUnknown : Code := "unknown".
Definition CodeInvalidArgument : Code := "invalid_argument".
Definition CodeValidation : Code := "validation".
Definition CodeNotFound : Code := "not_found".
Definition CodeAlreadyExists : Code := "already_exists".
Definition CodeConflict : Code := "conflict".
Definition CodeUnauthenticated : Code := "unauthenticated".
Definition CodePermission : Code := "permission_denied".
Definition CodeRateLimited : Code := "rate_limited".
Definition CodeTimeout : Code := "timeout".
Definition CodeUnavailable : Code := "unavailable".
Definition CodeCanceled : Code := "canceled".
Definition CodeNotImplemented : Code := "not_implemented".
Definition CodeFailedPrecond : Code := "failed_precondition".
Definition CodeExhausted : Code := "resource_exhausted".

Definition AllCodes : list Code :=
  [CodeInternal; CodeUnknown; CodeInvalidArgument; CodeValidation; CodeNotFound;
   CodeAlreadyExists; CodeConflict; CodeUnauthenticated; CodePermission;
   CodeRateLimited; CodeTimeout; CodeUnavailable; CodeCanceled;
   CodeNotImplemented; CodeFailedPrecond; CodeExhausted].

Record meta := { status : Z; meta_retryable : bool }.

(** [codeMeta]: code to HTTP status and default retryability. *)
Definition codeMeta : gmap Code meta := list_to_map
  [(CodeInternal, {| status := 500; meta_retryable := false |});
   (CodeUnknown, {| status := 500; meta_retryable := false |});
   (CodeInvalidArgument, {| status := 400; meta_retryable := false |});
   (CodeValidation, {| status := 422; meta_retryable := false |});
   (CodeNotFound, {| status := 404; meta_retryable := false |});
   (CodeAlreadyExists, {| status := 409; meta_retryable := false |});
   (CodeConflict, {| status := 409; meta_retryable := false |});
   (CodeUnauthenticated, {| status := 401; meta_retryable := false |});
   (CodePermission, {| status := 403; meta_retryable := false |});
   (CodeRateLimited, {| status := 429; meta_retryable := true |});
   (CodeTimeout, {| status := 504; meta_retryable := true |});
   (CodeUnavailable, {| status := 503; meta_retryable := true |});
   (CodeCanceled, {| status := 499; meta_retryable := false |});
   (CodeNotImplemented, {| status := 501; meta_retryable := false |});
   (CodeFailedPrecond, {| status := 412; meta_retryable := false |});
   (CodeExhausted, {| status := 429; meta_retryable := true |})].

(** The struct, over the type of the wrapped cause. *)
Record ErrorOf (E : Type) := mkError {
  code : Code;
  message : string;
  cause : option E;
  fields : option (gmap string value);
  op : string;
  retryableSet : bool;
  retryable : bool;
  fatal : bool;
}.
Arguments mkError {E}.
Arguments code {E}. Arguments message {E}. Arguments cause {E}.
Arguments fields {E}. Arguments op {E}. Arguments retryableSet {E}.
Arguments retryable {E}. Arguments fatal {E}.

Inductive error : Type :=
| Platform (e : ErrorOf error)
| Sentinel (name : string)
| PgError (sqlstate msg : string)
| Plain (msg : string)
| Wrapped (msg : string) (inner : error)
| Joined (errs : list error).

Abbreviation Error := (ErrorOf error).

(** Sentinels of the standard library and of the driver that the code names. *)
Definition Canceled : error := Sentinel "context canceled".
Definition DeadlineExceeded : error := Sentinel "context deadline exceeded".
Definition ErrNoRows : error := Sentinel "no rows in result set".

(** ** [stderrors.As], [stderrors.Is] *)

(** The first [*Error] of the chain. *)
Fixpoint As (err : error) : option Error :=
  match err with
  | Platform e => Some e
  | Wrapped _ inner => As inner
  | Joined errs =>
      (fix first (l : list error) : option Error :=
         match l with
         | [] => None
         | x :: l' => match As x with Some e => Some e | None => first l' end
         end) errs
  | Sentinel _ | PgError _ _ | Plain _ => None
  end.

(** The first [*pgconn.PgError] of the chain. *)
Fixpoint AsPg (err : error) : option string :=
  match err with
  | PgError s _ => Some s
  | Platform e => match cause e with Some c => AsPg c | None => None end
  | Wrapped _ inner => AsPg inner
  | Joined errs =>
      (fix first (l : list error) : option string :=
         match l with
         | [] => None
         | x :: l' => match AsPg x with Some s => Some s | None => first l' end
         end) errs
  | Sentinel _ | Plain _ => None
  end.

(** Method [Is] of the struct: equal codes. *)
Definition Error_Is (e : Error) (target : error) : bool :=
  match As target with Some t => code e =s? code t | None => false end.

(** [stderrors.Is]: identity of sentinels, or the [Is] method, along the chain. *)
Fixpoint Is (err target : error) : bool :=
  match err with
  | Platform e =>
      Error_Is e target || match cause e with Some c => Is c target | None => false end
  | Sentinel n => match target with Sentinel m => n =s? m | _ => false end
  | Wrapped _ inner => Is inner target
  | Joined errs =>
      (fix any (l : list error) : bool :=
         match l with [] => false | x :: l' => Is x target || any l' end) errs
  | PgError _ _ | Plain _ => false
  end.

(** ** Methods of [*Error] *)

Fixpoint ErrorString (err : error) : string :=
  match err with
  | Platform e =>
      (if op e =s? "" then "" else op e +:+ ": ") +:+ code e
      +:+ (if message e =s? "" then "" else ": " +:+ message e)
      +:+ match cause e with Some c => ": " +:+ ErrorString c | None => "" end
  | Sentinel n => n
  | PgError _ m => m
  | Plain m => m
  | Wrapped m inner => m +:+ ": " +:+ ErrorString inner
  | Joined errs =>
      (fix lines (l : list error) : string :=
         match l with
         | [] => ""
         | [x] => ErrorString x
         | x :: l' => ErrorString x +:+ String (Ascii.ascii_of_nat 10) "" +:+ lines l'
         end) errs
  end.

Definition Unwrap (e : Error) : option error := cause e.

Definition HTTPStatus (e : Error) : Z :=
  match codeMeta !! code e with Some m => status m | None => 500 end.

Definition Retryable (e : Error) : bool :=
  if retryableSet e then retryable e
  else match codeMeta !! code e with Some m => meta_retryable m | None => false end.

Definition Fields (e : Error) : gmap string value :=
  let out := default ∅ (fields e) in
  let out := <["error_code" := VString (code e)]> out in
  if op e =s? "" then out else <["op" := VString (op e)]> out.

(** The builders work on a copy ([clone]), which is the value itself here. *)
Definition WithField (e : Error) (key : string) (v : value) : Error :=
  mkError (code e) (message e) (cause e) (Some (<[key := v]> (default ∅ (fields e))))
    (op e) (retryableSet e) (retryable e) (fatal e).

Definition WithFields (e : Error) (fs : gmap string value) : Error :=
  mkError (code e) (message e) (cause e) (Some (fs ∪ default ∅ (fields e)))
    (op e) (retryableSet e) (retryable e) (fatal e).

Definition WithOp (e : Error) (o : string) : Error :=
  mkError (code e) (message e) (cause e) (fields e) o
    (retryableSet e) (retryable e) (fatal e).

Definition WithRetryable (e : Error) (b : bool) : Error :=
  mkError (code e) (message e) (cause e) (fields e) (op e) true b (fatal e).

Definition AsFatal (e : Error) : Error :=
  mkError (code e) (message e) (cause e) (fields e) (op e)
    (retryableSet e) (retryable e) true.

(** ** Constructors *)

Definition New (c : Code) (m : string) : Error :=
  mkError c m None None "" false false false.

Definition Wrap (cause : option error) (c : Code) (m : string) : option Error :=
  match cause with
  | None => None
  | Some e => Some (mkError c m (Some e) None "" false false false)
  end.

Definition From (err : option error) : option Error :=
  match err with
  | None => None
  | Some err =>
      match As err with
      | Some e => Some e
      | None => Some (mkError CodeInternal "internal error" (Some err) None "" false false false)
      end
  end.

Definition Internal (m : string) : Error := New CodeInternal m.
Definition InvalidArgument (m : string) : Error := New CodeInvalidArgument m.
Definition Validation (m : string) : Error := New CodeValidation m.
Definition NotFound (m : string) : Error := New CodeNotFound m.
Definition AlreadyExists (m : string) : Error := New CodeAlreadyExists m.
Definition Conflict (m : string) : Error := New CodeConflict m.
Definition Unauthenticated (m : string) : Error := New CodeUnauthenticated m.
Definition PermissionDenied (m : string) : Error := New CodePermission m.
Definition RateLimited (m : string) : Error := New CodeRateLimited m.
Definition TimeoutError (m : string) : Error := New CodeTimeout m.
Definition Unavailable (m : string) : Error := New CodeUnavailable m.
Definition NotImplemented (m : string) : Error := New CodeNotImplemented m.
Definition FailedPrecondition (m : string) : Error := New CodeFailedPrecond m.

(** ** Helpers over any error *)

Definition CodeOf (err : option error) : Code :=
  match err with
  | None => ""
  | Some err => match As err with Some e => code e | None => CodeInternal end
  end.

(** [None]: the call dereferences a nil pointer and panics. *)
Definition HTTPStatusOf (err : option error) : option Z :=
  HTTPStatus <$> From err.

Definition IsCode (err : option error) (c : Code) : bool :=
  match err ≫= As with Some e => code e =s? c | None => false end.

Definition IsRetryable (err : option error) : bool :=
  match err ≫= As with Some e => Retryable e | None => false end.

Definition IsFatal (err : option error) : bool :=
  match err ≫= As with Some e => fatal e | None => false end.

(** The severity [Log] writes an error at. *)
Inductive severity := LogError | LogWarn | LogInfo.

Definition LogLevel (err : option error) : option severity :=
  match From err with
  | None => None
  | Some e =>
      Some (if fatal e || (500 <=? HTTPStatus e) then LogError
            else if Retryable e then LogWarn else LogInfo)
  end.

(** ** Induction over the chains *)

Section error_ind.
Context (P : error → Prop).
Context (HP : ∀ e, (∀ c, cause e = Some c → P c) → P (Platform e)).
Context (HS : ∀ n, P (Sentinel n)) (HG : ∀ s m, P (PgError s m)) (HT : ∀ m, P (Plain m)).
Context (HW : ∀ m x, P x → P (Wrapped m x)) (HJ : ∀ l, Forall P l → P (Joined l)).

Fixpoint error_ind' (err : error) : P err :=
  match err with
  | Platform e =>
      HP e (match cause e as o return (∀ c, o = Some c → P c) with
            | Some c => λ c' H, eq_ind c P (error_ind' c) c' (f_equal (default c) H)
            | None => λ c' H, False_ind _ (eq_ind None (λ o, match o with None => True | _ => False end) I _ H)
            end)
  | Sentinel n => HS n
  | PgError s m => HG s m
  | Plain m => HT m
  | Wrapped m x => HW m x (error_ind' x)
  | Joined l =>
      HJ l ((fix go (l : list error) : Forall P l :=
               match l with
               | [] => Forall_nil_2 P
               | x :: l' => Forall_cons_2 P x l' (error_ind' x) (go l')
               end) l)
  end.
End error_ind.

(** The platform errors of a chain, outermost first. *)
Fixpoint chain (err : error) : list Error :=
  match err with
  | Platform e => e :: match cause e with Some c => chain c | None => [] end
  | Wrapped _ inner => chain inner
  | Joined errs =>
      (fix go (l : list error) : list Error :=
         match l with [] => [] | x :: l' => chain x ++ go l' end) errs
  | Sentinel _ | PgError _ _ | Plain _ => []
  end.

(** [As] finds the outermost platform error. *)
Lemma As_chain err : As err = head (chain err).
Proof.
  induction err as [e IH|n|s m|m|m x IH|l IH] using error_ind'; simpl; try done.
  induction IH as [|x l Hx IH' IH]; simpl; [done|].
  rewrite Hx. destruct (chain x); simpl; [apply IH|done].
Qed.

(** A platform target is matched through codes alone. *)
Lemma Is_platform err (t : Error) :
  Is err (Platform t) = existsb (λ e, code e =s? code t) (chain err).
Proof.
  induction err as [e IH|n|s m|m|m x IH|l IH] using error_ind'; simpl; try done.
  - unfold Error_Is; simpl. f_equal.
    destruct (cause e) as [c|]; [by apply IH|done].
  - induction IH as [|x l Hx IH' IH]; simpl; [done|].
    by rewrite Hx, IH, existsb_app.
Qed.

Lemma codeMeta_bounds c m : codeMeta !! c = Some m → 400 ≤ status m < 600.
Proof.
  intros H. assert (map_Forall (λ _ m, 400 ≤ status m < 600) codeMeta) as Hall.
  { unfold codeMeta. apply map_Forall_lookup. intros k v Hk. apply elem_of_list_to_map_2 in Hk.
    repeat (apply elem_of_cons in Hk as [Hk|Hk]; [inversion Hk; simpl; lia|]).
    by apply elem_of_nil in Hk. }
  by apply (map_Forall_lookup_1 _ _ _ _ Hall H).
Qed.

Lemma HTTPStatus_bounds e : 400 ≤ HTTPStatus e < 600.
Proof.
  unfold HTTPStatus. destruct (codeMeta !! code e) eqn:E; [|lia].
  by eapply codeMeta_bounds.
Qed.

(** ** Properties *)

(** [errors.Is] against a platform error succeeds exactly when some
    platform error anywhere in the wrapping chain (wrapped causes, [%w] and
    [Join] included) carries the target's code. *)
Theorem Is_matches_chain (err : error) (t : Error) :
  Is err (Platform t) = true ↔ ∃ e, e ∈ chain err ∧ code e = code t.
Proof.
  rewrite Is_platform, existsb_exists. split.
  - intros (e & He & Hc). bool_to_prop. exists e. by rewrite list_elem_of_In.
  - intros (e & He & Hc). exists e. rewrite <- list_elem_of_In. split; [done|].
    by apply String.eqb_eq.
Qed.

(** Every error has one canonical platform form: [From] succeeds on it, is
    idempotent, and the helpers [CodeOf], [HTTPStatusOf], [IsRetryable] and
    [IsFatal] read their answers off that form; the HTTP status is always a
    4xx or 5xx. *)
Theorem From_canonical (err : error) :
  ∃ e, From (Some err) = Some e ∧ From (Some (Platform e)) = Some e
     ∧ CodeOf (Some err) = code e ∧ HTTPStatusOf (Some err) = Some (HTTPStatus e)
     ∧ IsRetryable (Some err) = Retryable e ∧ IsFatal (Some err) = fatal e
     ∧ 400 ≤ HTTPStatus e < 600.
Proof.
  unfold HTTPStatusOf, CodeOf, IsRetryable, IsFatal, From; simpl.
  destruct (As err) as [e|] eqn:E; simpl; eexists; repeat split; try done;
    apply HTTPStatus_bounds.
Qed.
