(* ===== verification/Postgres.v ===== *)
(** * Statements and transactions (packages/platform/database/postgres)

    [db S A] is a computation over the tables [S] that returns a Go
    [(A, error)].  Every statement sent to the server (a query, BEGIN, COMMIT
    or ROLLBACK) first reads one entry of the fault script: [None] and it runs,
    [Some e] and the driver reports the raw error [e] with the tables
    untouched.  Past the end of the script no statement fails.  Theorems
    quantify over the script, hence over every pattern of failures.  A failed
    COMMIT leaves nothing committed (a connection lost after the server
    committed is not modelled). *)

From S2P Require Import Prelude Errors.

Abbreviation faults := (list (option error)).

Definition db (S A : Type) : Type := S * faults → result error A * (S * faults).

#[export] Instance db_ret {S} : MRet (db S) := λ A a st, (Ok a, st).
#[export] Instance db_bind {S} : MBind (db S) := λ A B k m st,
  match m st with
  | (Ok a, st') => k a st'
  | (Err e, st') => (Err e, st')
  end.

Definition fail {S A} (e : error) : db S A := λ st, (Err e, st).
Definition fail_with {S A} (e : Error) : db S A := fail (Platform e).
Definition of_result {S A} (r : result error A) : db S A := λ st, (r, st).

(** [x, err := m]: the error is a value the caller examines. *)
Definition attempt {S A} (m : db S A) : db S (result error A) := λ st,
  let '(r, st') := m st in (Ok r, st').

(** [_ = m]: the error is dropped. *)
Definition ignore {S A} (m : db S A) : db S unit := λ st,
  let '(_, st') := m st in (Ok tt, st').

(** [if err := m; err != nil { return g(err) }] *)
Definition on_error {S A} (g : error → error) (m : db S A) : db S A := λ st,
  match m st with
  | (Err e, st') => (Err (g e), st')
  | r => r
  end.

(** [errors.Wrap(err, code, message)] of an error that is not nil. *)
Definition wrap_with (c : Code) (message : string) (e : error) : error :=
  default e (Platform <$> Wrap (Some e) c message).

(** One statement on the tables; a [query] may itself report an error
    ([ErrNoRows], a constraint violation). *)
Definition query {S A} (f : S → result error A * S) : db S A := λ '(s, fs),
  match fs with
  | Some e :: fs' => (Err e, (s, fs'))
  | _ => let '(r, s') := f s in (r, (s', tail fs))
  end.

Definition exec {S A} (f : S → A * S) : db S A :=
  query (λ s, let '(a, s') := f s in (Ok a, s')).

(** The tables after a computation, and whether it succeeded. *)
Definition tables_of {S A} (r : result error A * (S * faults)) : S := r.2.1.

(** ** Error translation *)

Definition sqlStateUniqueViolation : string := "23505".
Definition sqlStateForeignKeyViolation : string := "23503".
Definition sqlStateCheckViolation : string := "23514".
Definition sqlStateNotNullViolation : string := "23502".
Definition sqlStateSerializationFail : string := "40001".
Definition sqlStateDeadlockDetected : string := "40P01".
Definition sqlStateLockNotAvailable : string := "55P03".
Definition sqlStateTooManyConnections : string := "53300".

(** What the driver decides: [pgconn.SafeToRetry], and what a statement on the
    connection of a transaction reports while the rows of a query on that
    connection are still open ([None]: it runs; pgx says that the connection
    is busy). *)
Class Driver := {
  SafeToRetry : error → bool;
  OpenRows : option error;
}.

(** A driver that never calls an error safe to retry, and one that besides
    interleaves the statements of a connection. *)
Definition strict_driver : Driver :=
  {| SafeToRetry := λ _, false; OpenRows := Some (Plain "conn busy") |}.
Definition lenient_driver : Driver := {| SafeToRetry := λ _, false; OpenRows := None |}.

Definition classify (err : option error) : Code :=
  match err with
  | None => ""
  | Some err =>
      if Is err ErrNoRows then CodeNotFound
      else match AsPg err with
      | Some c =>
          if c =s? sqlStateUniqueViolation then CodeAlreadyExists
          else if (c =s? sqlStateForeignKeyViolation) || (c =s? sqlStateCheckViolation)
                  || (c =s? sqlStateNotNullViolation) then CodeFailedPrecond
          else if (c =s? sqlStateSerializationFail) || (c =s? sqlStateDeadlockDetected)
                  || (c =s? sqlStateLockNotAvailable) then CodeConflict
          else if c =s? sqlStateTooManyConnections then CodeExhausted
          else CodeInternal
      | None => CodeInternal
      end
  end.

Section with_driver.
Context `{D : Driver}.

Definition isTransient (err : error) : bool :=
  match AsPg err with
  | Some c =>
      (c =s? sqlStateSerializationFail) || (c =s? sqlStateDeadlockDetected)
      || (c =s? sqlStateLockNotAvailable) || (c =s? sqlStateTooManyConnections)
  | None => SafeToRetry err
  end.

Definition Translate (err : option error) (message : string) : option error :=
  match err with
  | None => None
  | Some e =>
      let wrapped := mkError (classify err) message (Some e) None "" false false false in
      Some (Platform (if isTransient e then WithRetryable wrapped true else wrapped))
  end.

(** [return x, postgres.Translate(err, msg)] *)
Definition translate {S A} (message : string) (m : db S A) : db S A := λ st,
  match m st with
  | (Err e, st') => (Err (default e (Translate (Some e) message)), st')
  | r => r
  end.

Definition IsNotFound (err : error) : bool := IsCode (Some err) CodeNotFound.
Definition IsUniqueViolation (err : error) : bool := IsCode (Some err) CodeAlreadyExists.
End with_driver.

(** ** Transactions *)

(** BEGIN, COMMIT and ROLLBACK: statements that leave the tables to the caller. *)
Definition control {S} (s : S) (fs : faults) : option error * (S * faults) :=
  match fs with
  | Some e :: fs' => (Some e, (s, fs'))
  | _ => (None, (s, tail fs))
  end.

Definition ErrTxClosed : error := Sentinel "tx is closed".

(** [Transact] (and [TransactWithOptions], whose options the model does not
    distinguish); nested, it is a savepoint with the same effect. *)
Definition Transact {S A} (fn : db S A) : db S A := λ '(s, fs),
  match control s fs with
  | (Some e, st) =>
      (Err (default e (Platform <$> Wrap (Some e) CodeUnavailable "postgres: begin transaction")), st)
  | (None, (_, fs)) =>
      match fn (s, fs) with
      | (Err ferr, (_, fs)) =>
          match control s fs with
          | (Some rb, st) =>
              if Is rb ErrTxClosed then (Err ferr, st)
              else (Err (default ferr (Platform <$> Wrap (Some ferr) (CodeOf (Some ferr))
                     ("postgres: rollback failed after error: " +:+ ErrorString rb))), st)
          | (None, st) => (Err ferr, st)
          end
      | (Ok a, (s', fs)) =>
          match control s fs with
          | (Some c, st) =>
              (Err (default c (Platform <$> Wrap (Some c) (classify (Some c))
                     "postgres: commit transaction")), st)
          | (None, (_, fs)) => (Ok a, (s', fs))
          end
      end
  end.

#[global] Arguments Transact : simpl never.
#[global] Arguments translate : simpl never.
#[global] Arguments on_error : simpl never.

(** [TransactWithRetry]: [n] attempts remain after this one; [ctxErr] is what
    [ctx.Err()] returns at each of the remaining attempts. *)
Fixpoint transact_retry {S A} (n : nat) (ctxErr : list (option error)) (fn : db S A) : db S A :=
  λ st,
  match Transact fn st with
  | (Ok a, st') => (Ok a, st')
  | (Err last, st') =>
      match n with
      | O => (Err last, st')
      | Datatypes.S n' =>
          if negb (IsRetryable (Some last)) then (Err last, st')
          else match ctxErr with
          | Some e :: _ =>
              (Err (default e (Platform <$> Wrap (Some e) CodeCanceled
                     "postgres: context canceled during retry")), st')
          | _ => transact_retry n' (tail ctxErr) fn st'
          end
      end
  end.

Definition TransactWithRetry {S A} (MaxRetries : Z) (ctxErr : list (option error))
    (fn : db S A) : db S A :=
  let attempts := if MaxRetries + 1 <? 1 then 1 else MaxRetries + 1 in
  transact_retry (Z.to_nat (attempts - 1)) ctxErr fn.

(** ** Lemmas *)

Lemma control_tables {S} (s : S) fs : (control s fs).2.1 = s.
Proof. by destruct fs as [|[]]. Qed.

Lemma Transact_Err_tables {S A} (fn : db S A) s fs e st :
  Transact fn (s, fs) = (Err e, st) → st.1 = s.
Proof.
  unfold Transact. intros H.
  destruct (control s fs) as [[e1|] [s1 fs1]] eqn:E1.
  { pose proof (control_tables s fs). rewrite E1 in *. by simplify_eq/=. }
  destruct (fn (s, fs1)) as [[a|ferr] [s2 fs2]].
  - pose proof (control_tables s fs2).
    destruct (control s fs2) as [[c|] [s3 fs3]]; by simplify_eq/=.
  - pose proof (control_tables s fs2).
    destruct (control s fs2) as [[c|] [s3 fs3]]; [destruct (Is c ErrTxClosed)|]; by simplify_eq/=.
Qed.

(** A successful transaction has run its body to success. *)
Lemma Transact_Ok_inv {S A} (fn : db S A) s fs a st :
  Transact fn (s, fs) = (Ok a, st) →
  ∃ fs1 fs2, fn (s, fs1) = (Ok a, (st.1, fs2)).
Proof.
  unfold Transact. intros H.
  destruct (control s fs) as [[e1|] [s1 fs1]]; [done|].
  destruct (fn (s, fs1)) as [[a'|ferr] [s2 fs2]] eqn:E.
  - exists fs1, fs2. destruct (control s fs2) as [[c|] [s3 fs3]]; by simplify_eq/=.
  - destruct (control s fs2) as [[c|] [s3 fs3]]; [destruct (Is c ErrTxClosed)|]; done.
Qed.

(** With no fault, [Transact] runs the body and keeps its effect exactly when
    it succeeds. *)
Lemma Transact_no_faults {S A} (fn : db S A) s r s' :
  fn (s, []) = (r, (s', [])) →
  Transact fn (s, []) = (r, (if is_ok r then s' else s, [])).
Proof. intros H. unfold Transact; simpl. rewrite H. by destruct r. Qed.

Lemma Transact_cases {S A} (fn : db S A) (s : S) (fs : faults) :
  match Transact fn (s, fs) with
  | (Err _, (s', _)) => s' = s
  | (Ok a, (s', _)) => ∃ fs1 fs2, fn (s, fs1) = (Ok a, (s', fs2))
  end.
Proof.
  destruct (Transact fn (s, fs)) as [[a|e] [s' fs']] eqn:E.
  - by apply Transact_Ok_inv in E.
  - by apply Transact_Err_tables in E.
Qed.

Lemma attempt_tables {S A} (m : db S A) st : (attempt m st).2 = (m st).2.
Proof. unfold attempt. by destruct (m st). Qed.

Lemma ignore_tables {S A} (m : db S A) st : (ignore m st).2 = (m st).2.
Proof. unfold ignore. by destruct (m st). Qed.

Lemma tables_of_ignore {S A} (m : db S A) st : tables_of (ignore m st) = tables_of (m st).
Proof. unfold tables_of. by rewrite ignore_tables. Qed.

Lemma translate_tables `{Driver} {S A} msg (m : db S A) st :
  (translate msg m st).2 = (m st).2.
Proof. unfold translate. by destruct (m st) as [[] ?]. Qed.

Lemma translate_ok `{Driver} {S A} msg (m : db S A) st a st' :
  translate msg m st = (Ok a, st') ↔ m st = (Ok a, st').
Proof. unfold translate. by destruct (m st) as [[] ?]. Qed.

(** One statement: it fails and leaves the tables alone, or it runs. *)
Lemma query_elim {S A} (P : result error A * (S * faults) → Prop) f (s : S) fs :
  (∀ e fs', P (Err e, (s, fs'))) → P ((f s).1, ((f s).2, tail fs)) → P (query f (s, fs)).
Proof.
  intros He Hq. unfold query. destruct fs as [|[e|] fs]; [|done|]; by destruct (f s).
Qed.

Lemma translate_query_elim `{Driver} {S A} (P : result error A * (S * faults) → Prop) msg f (s : S) fs :
  (∀ e fs', P (Err e, (s, fs'))) →
  P (match (f s).1 with
     | Ok a => Ok a
     | Err e => Err (default e (Translate (Some e) msg))
     end, ((f s).2, tail fs)) → P (translate msg (query f) (s, fs)).
Proof.
  intros He Hq. unfold translate. apply (query_elim (λ r, P match r with (Err e, st') => _ | _ => _ end)); [by intros|]. by destruct (f s) as [[] s'].
Qed.

Lemma translate_exec_elim `{Driver} {S A} (P : result error A * (S * faults) → Prop) msg f (s : S) fs :
  (∀ e fs', P (Err e, (s, fs'))) → P (Ok (f s).1, ((f s).2, tail fs)) →
  P (translate msg (exec f) (s, fs)).
Proof.
  intros He Hq. unfold exec. apply (translate_query_elim P); [done|]. by destruct (f s).
Qed.

(** ** Invariants of computations

    [preserves I m]: whatever statements fail, [m] takes tables satisfying [I]
    to tables satisfying [I]. *)

Definition preserves {S A} (I : S → Prop) (m : db S A) : Prop :=
  ∀ s fs, I s → I (tables_of (m (s, fs))).

Section preserves.
Context {S : Type} (I : S → Prop).

Lemma preserves_ret {A} (a : A) : preserves I (mret a).
Proof. by intros s fs. Qed.

Lemma preserves_fail {A} e : preserves I (fail (A := A) e).
Proof. by intros s fs. Qed.

Lemma preserves_fail_with {A} e : preserves I (fail_with (A := A) e).
Proof. by intros s fs. Qed.

Lemma preserves_query {A} (f : S → result error A * S) :
  (∀ s, I s → I (f s).2) → preserves I (query f).
Proof.
  intros Hf s fs HI. unfold tables_of, query.
  destruct fs as [|[e|] fs]; simpl; [|done|]; specialize (Hf s HI);
    by destruct (f s) as [r s'].
Qed.

Lemma preserves_exec {A} (f : S → A * S) : (∀ s, I s → I (f s).2) → preserves I (exec f).
Proof.
  intros Hf. apply preserves_query. intros s HI. specialize (Hf s HI). by destruct (f s).
Qed.

Lemma preserves_bind {A B} (m : db S A) (k : A → db S B) :
  preserves I m → (∀ a, preserves I (k a)) → preserves I (m ≫= k).
Proof.
  intros Hm Hk s fs HI. specialize (Hm s fs HI). unfold tables_of, mbind, db_bind in *.
  destruct (m (s, fs)) as [[a|e] [s' fs']]; [by apply Hk|done].
Qed.

Lemma preserves_attempt {A} (m : db S A) : preserves I m → preserves I (attempt m).
Proof. intros Hm s fs HI. unfold tables_of. rewrite attempt_tables. by apply Hm. Qed.

Lemma preserves_ignore {A} (m : db S A) : preserves I m → preserves I (ignore m).
Proof. intros Hm s fs HI. unfold tables_of. rewrite ignore_tables. by apply Hm. Qed.

Lemma preserves_translate `{Driver} {A} msg (m : db S A) :
  preserves I m → preserves I (translate msg m).
Proof. intros Hm s fs HI. unfold tables_of. rewrite translate_tables. by apply Hm. Qed.

Lemma preserves_on_error {A} g (m : db S A) : preserves I m → preserves I (on_error g m).
Proof.
  intros Hm s fs HI. specialize (Hm s fs HI). unfold tables_of, on_error in *.
  by destruct (m (s, fs)) as [[a|e] st].
Qed.

Lemma preserves_Transact {A} (m : db S A) : preserves I m → preserves I (Transact m).
Proof.
  intros Hm s fs HI. pose proof (Transact_cases m s fs) as H. unfold tables_of.
  destruct (Transact m (s, fs)) as [[a|e] [s' fs']]; simpl; [|by subst].
  destruct H as (fs1 & fs2 & H). specialize (Hm s fs1 HI). by rewrite H in Hm.
Qed.
End preserves.

Lemma preserves_and {S A} (I1 I2 : S → Prop) (m : db S A) :
  preserves I1 m → preserves I2 m → preserves (λ s, I1 s ∧ I2 s) m.
Proof. intros H1 H2 s fs [Hs1 Hs2]. split; auto. Qed.

Create HintDb db.
#[export] Hint Resolve preserves_ret preserves_fail preserves_fail_with preserves_query preserves_exec
  preserves_bind preserves_attempt preserves_ignore preserves_on_error preserves_translate
  preserves_Transact : db.

(** ** Weakest preconditions

    [wp m Q E s]: from the tables [s], whatever statements fail, [m] ends with a
    value and tables satisfying [Q] or with an error and tables satisfying
    [E]. *)

Definition wp {S A} (m : db S A) (Q : A → S → Prop) (E : error → S → Prop) (s : S) : Prop :=
  ∀ fs, match m (s, fs) with
        | (Ok a, (s', _)) => Q a s'
        | (Err e, (s', _)) => E e s'
        end.

Section wp.
Context {S : Type}.
Implicit Types (s : S) (E : error → S → Prop).

Lemma wp_ret {A} (a : A) (Q : A → S → Prop) E s : Q a s → wp (mret a) Q E s.
Proof. by intros H fs. Qed.

Lemma wp_fail {A} e (Q : A → S → Prop) E s : E e s → wp (fail e) Q E s.
Proof. by intros H fs. Qed.

Lemma wp_fail_with {A} e (Q : A → S → Prop) E s : E (Platform e) s → wp (fail_with e) Q E s.
Proof. by intros H fs. Qed.

Lemma wp_bind {A B} (m : db S A) (k : A → db S B) (Q : B → S → Prop) E s :
  wp m (λ a, wp (k a) Q E) E s → wp (m ≫= k) Q E s.
Proof.
  intros H fs. specialize (H fs). unfold mbind, db_bind.
  destruct (m (s, fs)) as [[a|e] [s' fs']]; [by apply H|done].
Qed.

Lemma wp_query {A} (f : S → result error A * S) (Q : A → S → Prop) E s :
  (∀ e, E e s) →
  match f s with (Ok a, s') => Q a s' | (Err e, s') => E e s' end → wp (query f) Q E s.
Proof.
  intros He Hq fs. apply query_elim; [done|]. by destruct (f s) as [[a|e] s'].
Qed.

Lemma wp_exec {A} (f : S → A * S) (Q : A → S → Prop) E s :
  (∀ e, E e s) → Q (f s).1 (f s).2 → wp (exec f) Q E s.
Proof. intros He Hq. apply wp_query; [done|]. by destruct (f s). Qed.

Lemma wp_translate `{Driver} {A} msg (m : db S A) (Q : A → S → Prop) E s :
  wp m Q (λ e, E (default e (Translate (Some e) msg))) s → wp (translate msg m) Q E s.
Proof.
  intros Hm fs. specialize (Hm fs). unfold translate.
  by destruct (m (s, fs)) as [[a|e] [s' fs']].
Qed.

Lemma wp_on_error {A} g (m : db S A) (Q : A → S → Prop) E s :
  wp m Q (λ e, E (g e)) s → wp (on_error g m) Q E s.
Proof.
  intros Hm fs. specialize (Hm fs). unfold on_error.
  by destruct (m (s, fs)) as [[a|e] [s' fs']].
Qed.

Lemma wp_of_result {A} (r : result error A) (Q : A → S → Prop) E s :
  match r with Ok a => Q a s | Err e => E e s end → wp (of_result r) Q E s.
Proof. intros H fs. unfold of_result. by destruct r. Qed.

Lemma wp_attempt {A} (m : db S A) (Q : result error A → S → Prop) E s :
  wp m (λ a, Q (Ok a)) (λ e, Q (Err e)) s → wp (attempt m) Q E s.
Proof.
  intros Hm fs. specialize (Hm fs). unfold attempt.
  by destruct (m (s, fs)) as [[a|e] [s' fs']].
Qed.

Lemma wp_ignore {A} (m : db S A) (Q : unit → S → Prop) E s :
  wp m (λ _, Q tt) (λ _, Q tt) s → wp (ignore m) Q E s.
Proof.
  intros Hm fs. specialize (Hm fs). unfold ignore.
  by destruct (m (s, fs)) as [[a|e] [s' fs']].
Qed.

(** A transaction only has to be right when its body succeeds. *)
Lemma wp_Transact {A} (m : db S A) (Q : A → S → Prop) E s :
  (∀ e, E e s) → wp m Q (λ _ _, True) s → wp (Transact m) Q E s.
Proof.
  intros He Hm fs. pose proof (Transact_cases m s fs) as H.
  destruct (Transact m (s, fs)) as [[a|e] [s' fs']]; [|by subst].
  destruct H as (fs1 & fs2 & H). specialize (Hm fs1). by rewrite H in Hm.
Qed.

Lemma wp_mono {A} (m : db S A) (Q Q' : A → S → Prop) E E' s :
  wp m Q E s → (∀ a s', Q a s' → Q' a s') → (∀ e s', E e s' → E' e s') → wp m Q' E' s.
Proof.
  intros Hm HQ HE fs. specialize (Hm fs). destruct (m (s, fs)) as [[a|e] [s' fs']]; auto.
Qed.

Lemma wp_and {A} (m : db S A) (Q1 Q2 : A → S → Prop) (E1 E2 : error → S → Prop) s :
  wp m Q1 E1 s → wp m Q2 E2 s → wp m (λ a s', Q1 a s' ∧ Q2 a s') (λ e s', E1 e s' ∧ E2 e s') s.
Proof. intros H1 H2 fs. specialize (H1 fs). specialize (H2 fs). by destruct (m (s, fs)) as [[] []]. Qed.

Lemma preserves_wp {A} (I : S → Prop) (m : db S A) :
  (∀ s, I s → wp m (λ _, I) (λ _, I) s) → preserves I m.
Proof.
  intros H s fs HI. specialize (H s HI fs). unfold tables_of.
  by destruct (m (s, fs)) as [[a|e] [s' fs']].
Qed.

Lemma wp_tables {A} (I : S → Prop) (m : db S A) s fs :
  wp m (λ _, I) (λ _, I) s → I (tables_of (m (s, fs))).
Proof.
  intros H. specialize (H fs). unfold tables_of. by destruct (m (s, fs)) as [[a|e] [s' fs']].
Qed.

Lemma wp_ok {A} (m : db S A) (Q : A → S → Prop) s fs :
  wp m Q (λ _ _, True) s → match m (s, fs) with (Ok a, (s', _)) => Q a s' | (Err _, _) => True end.
Proof. intros H. specialize (H fs). by destruct (m (s, fs)) as [[] []]. Qed.

Lemma wp_preserves {A} (I : S → Prop) (m : db S A) s :
  preserves I m → I s → wp m (λ _, I) (λ _, I) s.
Proof.
  intros H HI fs. specialize (H s fs HI). unfold tables_of in H.
  by destruct (m (s, fs)) as [[a|e] [s' fs']].
Qed.

(** What a computation preserves may be used of its outcome. *)
Lemma wp_knowing {A} (I : S → Prop) (m : db S A) (Q : A → S → Prop) E s :
  preserves I m → I s → wp m (λ a s', I s' → Q a s') E s → wp m Q E s.
Proof.
  intros H HI Hm fs. specialize (H s fs HI). specialize (Hm fs). unfold tables_of in H.
  destruct (m (s, fs)) as [[a|e] [s' fs']]; [by apply Hm|done].
Qed.
End wp.

(** One step of a computation. *)
Ltac wp_step :=
  cbn beta iota;
  lazymatch goal with
  | |- wp (mbind _ _) _ _ _ => apply wp_bind
  | |- wp (mret _) _ _ _ => apply wp_ret
  | |- wp (fail _) _ _ _ => apply wp_fail
  | |- wp (fail_with _) _ _ _ => apply wp_fail_with
  | |- wp (translate _ _) _ _ _ => apply wp_translate
  | |- wp (on_error _ _) _ _ _ => apply wp_on_error
  | |- wp (of_result _) _ _ _ => apply wp_of_result
  | |- wp (attempt _) _ _ _ => apply wp_attempt
  | |- wp (ignore _) _ _ _ => apply wp_ignore
  | |- wp (exec _) _ _ _ => apply wp_exec; simpl
  | |- wp (query _) _ _ _ => apply wp_query; simpl
  | |- wp (Transact _) _ _ _ => apply wp_Transact
  end.

(** ** Runs without failures

    [runs m s r s']: when no statement fails, [m] takes the tables [s] to [s']
    and gives [r]. *)

Definition runs {S A} (m : db S A) (s : S) (r : result error A) (s' : S) : Prop :=
  m (s, []) = (r, (s', [])).

Section runs.
Context {S : Type}.
Implicit Types (s : S).

Lemma runs_ret {A} (a : A) s : runs (mret a) s (Ok a) s.
Proof. done. Qed.
Lemma runs_fail {A} e s : runs (fail (A := A) e) s (Err e) s.
Proof. done. Qed.

Lemma runs_bind {A B} (m : db S A) (k : A → db S B) s a s1 r s2 :
  runs m s (Ok a) s1 → runs (k a) s1 r s2 → runs (m ≫= k) s r s2.
Proof. unfold runs, mbind, db_bind. by intros ->. Qed.

Lemma runs_bind_err {A B} (m : db S A) (k : A → db S B) s e s1 :
  runs m s (Err e) s1 → runs (m ≫= k) s (Err e) s1.
Proof. unfold runs, mbind, db_bind. by intros ->. Qed.

Lemma runs_query {A} (f : S → result error A * S) s : runs (query f) s (f s).1 (f s).2.
Proof. unfold runs, query. by destruct (f s). Qed.

Lemma runs_exec {A} (f : S → A * S) s : runs (exec f) s (Ok (f s).1) (f s).2.
Proof. unfold runs, exec, query. by destruct (f s). Qed.

Lemma runs_translate `{Driver} {A} msg (m : db S A) s r s' :
  runs m s r s' →
  runs (translate msg m) s
    match r with Ok a => Ok a | Err e => Err (default e (Translate (Some e) msg)) end s'.
Proof. unfold runs, translate. intros ->. by destruct r. Qed.

Lemma runs_on_error {A} g (m : db S A) s r s' :
  runs m s r s' → runs (on_error g m) s match r with Ok a => Ok a | Err e => Err (g e) end s'.
Proof. unfold runs, on_error. intros ->. by destruct r. Qed.

Lemma runs_attempt {A} (m : db S A) s r s' : runs m s r s' → runs (attempt m) s (Ok r) s'.
Proof. unfold runs, attempt. by intros ->. Qed.

Lemma runs_ignore {A} (m : db S A) s r s' : runs m s r s' → runs (ignore m) s (Ok tt) s'.
Proof. unfold runs, ignore. by intros ->. Qed.

Lemma runs_of_result {A} (r : result error A) s : runs (of_result r) s r s.
Proof. done. Qed.
End runs.

(** ** Components of a larger state

    A [Lens] names the tables [S] of one component inside the state [T];
    [zoom] runs a computation of the component on them. *)

Record Lens (T S : Type) := {
  view : T → S;
  put : S → T → T;
  view_put s t : view (put s t) = s;
  put_view t : put (view t) t = t;
}.
Arguments view {T S}.
Arguments put {T S}.
Arguments view_put {T S}.
Arguments put_view {T S}.

Section zoom.
Context {T S : Type} (l : Lens T S).

Definition zoom {A} (m : db S A) : db T A := λ '(t, fs),
  let '(r, (s, fs)) := m (view l t, fs) in (r, (put l s t, fs)).

Lemma wp_zoom {A} (m : db S A) (Q : A → T → Prop) E t :
  wp m (λ a s, Q a (put l s t)) (λ e s, E e (put l s t)) (view l t) → wp (zoom m) Q E t.
Proof.
  intros H fs. specialize (H fs). unfold zoom. by destruct (m (view l t, fs)) as [[a|e] [s fs']].
Qed.

Lemma preserves_zoom {A} (I : T → Prop) (m : db S A) :
  (∀ t, preserves (λ s, I (put l s t)) m) → preserves I (zoom m).
Proof.
  intros H t fs HI. specialize (H t (view l t) fs). cbn beta in H. rewrite put_view in H. specialize (H HI).
  unfold tables_of, zoom in *. by destruct (m (view l t, fs)) as [r [s fs']].
Qed.

Lemma runs_zoom {A} (m : db S A) t r s :
  runs m (view l t) r s → runs (zoom m) t r (put l s t).
Proof. unfold runs, zoom. by intros ->. Qed.
End zoom.

(** [if err := check; err != nil { return err }] *)
Definition refuse {S} (e : option error) : db S unit :=
  match e with Some e => fail e | None => mret tt end.

(** ** Parameters

    An identifier is a valid UUID or empty; the empty text is no UUID. *)

Definition invalid_uuid : error := PgError "22P02" "invalid input syntax for type uuid".

(** A statement with UUID parameters. *)
Definition with_uuids {T A} (ids : list string) (f : T → result error A * T) : T → result error A * T :=
  λ t, if forallb (λ id, negb (id =s? "")) ids then f t else (Err invalid_uuid, t).

(** A parameter that is no UUID is refused like any error of the statement. *)
Lemma wp_with_uuids {T A} (ids : list string) (f : T → result error A * T) (t : T)
    (P : result error A * T → Prop) :
  P (Err invalid_uuid, t) → ((∀ id, id ∈ ids → id ≠ "") → P (f t)) → P (with_uuids ids f t).
Proof.
  intros He Hf. unfold with_uuids. destruct (forallb _ ids) eqn:E; [|done]. apply Hf.
  intros id Hid ->. rewrite forallb_forall in E.
  specialize (E "" ltac:(by apply list_elem_of_In)). done.
Qed.

Definition negative_limit : error := PgError "2201W" "LIMIT must not be negative".

(** [LIMIT $n] *)
Definition limit_rows {R} (n : Z) (rows : list R) : result error (list R) :=
  if n <? 0 then Err negative_limit else Ok (take (Z.to_nat n) rows).

(** ** The session of a transaction

    [Transact] above hands the body the tables and drops what an unsuccessful
    body made of them.  The code has no such copy: the body writes to the
    connection, and it is BEGIN, COMMIT and ROLLBACK that decide what stays.
    [Session] is that account, with transactions inside transactions
    (savepoints) and bodies that panic; [Transact_atomic] shows that it comes
    to the same. *)
Module Session.

(** A connection: the tables its statements see and, for each open transaction
    or savepoint, innermost first, the tables its ROLLBACK returns to. *)
Record conn (S : Type) := mkConn { tables : S; undo : list S }.
Arguments mkConn {S}.
Arguments tables {S}.
Arguments undo {S}.

Definition idle {S} (s : S) : conn S := mkConn s [].

(** The tables the other connections see. *)
Definition committed {S} (c : conn S) : S := default (tables c) (last (undo c)).

(** How a Go function ends. *)
Inductive outcome (A : Type) :=
  | Returned (r : result error A)
  | Panicked (p : string).
Arguments Returned {A}.
Arguments Panicked {A}.

(** A function that runs statements on the connection. *)
Definition body (S A : Type) : Type := conn S * faults → outcome A * (conn S * faults).

Definition opened {S} (c : conn S) : conn S := mkConn (tables c) (tables c :: undo c).
Definition kept {S} (c : conn S) : conn S := mkConn (tables c) (tail (undo c)).
Definition restored {S} (c : conn S) : conn S :=
  match undo c with [] => c | s :: older => mkConn s older end.

(** What is left when COMMIT or ROLLBACK (of a savepoint: RELEASE or ROLLBACK
    TO) itself fails.  pgx gives the transaction up: the outermost one by
    closing its connection, and then the server undoes it. *)
Class GivenUp (S : Type) := {
  given_up : conn S → conn S;
  given_up_undo c : undo (given_up c) = tail (undo c);
  given_up_outermost c s : undo c = [s] → tables (given_up c) = s;
}.

(** pgx closes the connection of the outermost transaction; a savepoint is
    left to the transaction around it. *)
#[refine, global] Instance pgx_given_up {S} : GivenUp S :=
  {| given_up c := match undo c with [_] => restored c | _ => kept c end |}.
Proof.
  - intros [t [|s [|]]]; done.
  - intros [t u] s. simpl. by intros ->.
Defined.

Section session.
Context {S : Type} `{GivenUp S}.

Definition Begin (c : conn S) (fs : faults) : option error * (conn S * faults) :=
  match fs with
  | Some e :: fs => (Some e, (c, fs))
  | _ => (None, (opened c, tail fs))
  end.

Definition Commit (c : conn S) (fs : faults) : option error * (conn S * faults) :=
  match fs with
  | Some e :: fs => (Some e, (given_up c, fs))
  | _ => (None, (kept c, tail fs))
  end.

Definition Rollback (c : conn S) (fs : faults) : option error * (conn S * faults) :=
  match fs with
  | Some e :: fs => (Some e, (given_up c, fs))
  | _ => (None, (restored c, tail fs))
  end.

(** What [TransactWithOptions] does when its function has ended. *)
Definition finish {A} (o : outcome A) : body S A := λ '(c, fs),
  match o with
  | Panicked p => let '(_, st) := Rollback c fs in (Panicked p, st)
  | Returned (Err ferr) =>
      match Rollback c fs with
      | (Some rb, st) =>
          if Is rb ErrTxClosed then (Returned (Err ferr), st)
          else (Returned (Err (default ferr (Platform <$> Wrap (Some ferr) (CodeOf (Some ferr))
                 ("postgres: rollback failed after error: " +:+ ErrorString rb)))), st)
      | (None, st) => (Returned (Err ferr), st)
      end
  | Returned (Ok a) =>
      match Commit c fs with
      | (Some ce, st) =>
          (Returned (Err (default ce (Platform <$> Wrap (Some ce) (classify (Some ce))
                 "postgres: commit transaction"))), st)
      | (None, st) => (Returned (Ok a), st)
      end
  end.

(** [TransactWithOptions]: [parent.Begin] inside a transaction, [db.BeginTx]
    outside; the options are not distinguished. *)
Definition TransactWithOptions {A} (fn : body S A) : body S A := λ '(c, fs),
  match Begin c fs with
  | (Some e, st) =>
      (Returned (Err (default e (Platform <$> Wrap (Some e) CodeUnavailable
         "postgres: begin transaction"))), st)
  | (None, st) => let '(o, st) := fn st in finish o st
  end.

(** The statements of [m] on the connection. *)
Definition on_connection {A} (m : db S A) : body S A := λ '(c, fs),
  let '(r, (s, fs)) := m (tables c, fs) in (Returned r, (mkConn s (undo c), fs)).

(** A body that ends the transactions it begins, and reads the script in
    order. *)
Definition balanced {A} (fn : body S A) : Prop :=
  ∀ c fs, undo (fn (c, fs)).2.1 = undo c ∧ (fn (c, fs)).2.2 `suffix_of` fs.

Lemma tail_suffix (fs fs' : faults) : fs' `suffix_of` fs → tail fs' `suffix_of` fs.
Proof. intros [k ->]. destruct fs' as [|f fs']; [by exists k|]. exists (k ++ [f]). by rewrite <- app_assoc. Qed.

(** A closing statement that runs, or fails. *)
Lemma Rollback_cases (c : conn S) fs s older :
  undo c = s :: older →
  let '(e, (c', fs')) := Rollback c fs in
  undo c' = older ∧ fs' `suffix_of` fs ∧
  (tables c' = s ∨ older ≠ [] ∧ Exists is_Some fs).
Proof.
  intros Hu. destruct fs as [|[e|] fs]; simpl.
  - unfold restored. rewrite Hu. split_and!; auto.
  - rewrite given_up_undo, Hu. split_and!; [done|by apply suffix_cons_r|].
    destruct older as [|]; [left; by apply given_up_outermost|]. right. split; [done|]. by left.
  - unfold restored. rewrite Hu. split_and!; [done|by apply suffix_cons_r|by left].
Qed.

Lemma Commit_cases (c : conn S) fs s older :
  undo c = s :: older →
  let '(e, (c', fs')) := Commit c fs in
  undo c' = older ∧ fs' `suffix_of` fs ∧
  if e is Some _ then tables c' = s ∨ older ≠ [] ∧ Exists is_Some fs else tables c' = tables c.
Proof.
  intros Hu. destruct fs as [|[e|] fs]; simpl.
  - rewrite Hu. done.
  - rewrite given_up_undo, Hu. split_and!; [done|by apply suffix_cons_r|].
    destruct older as [|]; [left; by apply given_up_outermost|]. right. split; [done|]. by left.
  - rewrite Hu. split_and!; [done|by apply suffix_cons_r|done].
Qed.

(** What became of the tables: they are back, or a statement failed inside an
    enclosing transaction, which decides. *)
Definition undone (s : S) (older : list S) (fs : faults) (c' : conn S) : Prop :=
  tables c' = s ∨ older ≠ [] ∧ Exists is_Some fs.

Lemma undone_mono s older fs fs' c' :
  fs' `suffix_of` fs → undone s older fs' c' → undone s older fs c'.
Proof.
  intros [k ->] [|[Hu Hf]]; [by left|]. right. split; [done|]. apply Exists_app. by right.
Qed.

(** The outcome of a transaction by the outcome of its function. *)
Definition finished {A} (s : S) (older : list S) (fs : faults) (c1 : conn S) (o o' : outcome A)
    (c' : conn S) : Prop :=
  match o with
  | Returned (Ok a) =>
      o' = Returned (Ok a) ∧ tables c' = tables c1
      ∨ (∃ e, o' = Returned (Err e)) ∧ undone s older fs c'
  | Returned (Err _) => (∃ e, o' = Returned (Err e)) ∧ undone s older fs c'
  | Panicked p => o' = Panicked p ∧ undone s older fs c'
  end.

Lemma finish_finished {A} (o : outcome A) c1 fs1 s older :
  undo c1 = s :: older →
  let '(o', (c', fs')) := finish o (c1, fs1) in
  undo c' = older ∧ fs' `suffix_of` fs1 ∧ finished s older fs1 c1 o o' c'.
Proof.
  intros Hu. pose proof (Rollback_cases c1 fs1 s older Hu) as HR.
  pose proof (Commit_cases c1 fs1 s older Hu) as HC. unfold finish, finished, undone.
  destruct o as [[a|ferr]|p].
  - destruct (Commit c1 fs1) as [[ce|] [c' fs']]; destruct HC as (-> & ? & ?); split_and!; eauto 10.
  - destruct (Rollback c1 fs1) as [[rb|] [c' fs']]; [destruct (Is rb ErrTxClosed)|];
      destruct HR as (-> & ? & ?); split_and!; eauto.
  - destruct (Rollback c1 fs1) as [rb [c' fs']]. destruct HR as (-> & ? & ?). split_and!; eauto.
Qed.

(** The outcome of a transaction: BEGIN fails and nothing has happened, or its
    function runs. *)
Definition ended {A} (fn : body S A) (c : conn S) (fs : faults) (o : outcome A) (c' : conn S) : Prop :=
  match fs with
  | Some _ :: _ => (∃ e, o = Returned (Err e)) ∧ c' = c
  | _ =>
      let '(o1, (c1, _)) := fn (opened c, tail fs) in
      finished (tables c) (undo c) fs c1 o1 o c'
  end.

Lemma finished_mono {A} s older fs fs' c1 (o o' : outcome A) c' :
  fs' `suffix_of` fs → finished s older fs' c1 o o' c' → finished s older fs c1 o o' c'.
Proof.
  intros Hfs. assert (undone s older fs' c' → undone s older fs c') by (by apply undone_mono).
  unfold finished. destruct o as [[]|]; naive_solver.
Qed.

Lemma Transact_ended {A} (fn : body S A) c fs :
  balanced fn →
  let '(o, (c', fs')) := TransactWithOptions fn (c, fs) in
  undo c' = undo c ∧ fs' `suffix_of` fs ∧ ended fn c fs o c'.
Proof.
  intros Hfn. unfold TransactWithOptions, ended, Begin.
  assert (Hstart : let '(o, (c', fs')) := (let '(o, st) := fn (opened c, tail fs) in finish o st) in
    undo c' = undo c ∧ fs' `suffix_of` fs ∧
    let '(o1, (c1, _)) := fn (opened c, tail fs) in finished (tables c) (undo c) fs c1 o1 o c').
  { destruct (Hfn (opened c) (tail fs)) as [Hu Hs].
    destruct (fn (opened c, tail fs)) as [o1 [c1 fs1]]. simpl in Hu, Hs.
    assert (Hs' : fs1 `suffix_of` fs) by (etrans; [done|]; by apply tail_suffix).
    pose proof (finish_finished o1 c1 fs1 _ _ Hu) as Hf.
    destruct (finish o1 (c1, fs1)) as [o [c' fs']]. destruct Hf as (? & ? & Hf). split_and!; [done|by etrans|].
    by eapply finished_mono. }
  destruct fs as [|[e|] fs]; [done| |done].
  split_and!; [done|by apply suffix_cons_r|eauto|done].
Qed.

(** So a transaction may itself be part of a function. *)
Lemma Transact_balanced {A} (fn : body S A) : balanced fn → balanced (TransactWithOptions fn).
Proof.
  intros Hfn c fs. pose proof (Transact_ended fn c fs Hfn) as H'.
  destruct (TransactWithOptions fn (c, fs)) as [o [c' fs']]. naive_solver.
Qed.

(** Outside of any transaction, and without panics, the session does what
    [Transact] says. *)
Lemma Transact_on_connection {A} (m : db S A) s fs :
  TransactWithOptions (on_connection m) (idle s, fs) =
  let '(r, (s', fs')) := Transact m (s, fs) in (Returned r, (idle s', fs')).
Proof.
  assert (Hgone : ∀ s', given_up (mkConn s' [s]) = idle s).
  { intros s'. pose proof (given_up_undo (mkConn s' [s])) as Hu.
    pose proof (given_up_outermost (mkConn s' [s]) s eq_refl) as Ht.
    destruct (given_up _) as [t u]. simpl in *. by subst. }
  unfold TransactWithOptions, Transact, Begin, on_connection, opened, idle, finish, Rollback, Commit.
  destruct fs as [|[e|] fs]; simpl; [|done|];
    (destruct (m (s, _)) as [[a|e] [s1 [|[f|] fs1]]]; simpl; rewrite ?Hgone; try done; by destruct (Is f ErrTxClosed)).
Qed.
End session.
End Session.

(** ** Properties *)

(** C37: a transaction is all or nothing on its connection, whichever
    statements fail and however its function ends, be it by a value, an error
    or a panic.  [TransactWithOptions] always leaves open exactly the
    transactions it found open: none is left behind for the next statement of
    the connection, and nothing is committed before the outermost transaction
    ends.  A failed BEGIN changes nothing.  If the function succeeds,
    the call succeeds and the tables are those the function produced, or
    COMMIT failed, the call reports an error and the tables are those at BEGIN;
    if the function returns an error, so does the call, and if it panics, so
    does the call, with the tables back to those at BEGIN.  (In a nested
    transaction they may stay when a statement failed: then the enclosing one
    decides.)  The function may itself run transactions; it ends those it
    begins.  So on an idle connection the call does what [Transact] says, which
    the rest of the development uses. *)
Theorem Transact_atomic {S A} `{Session.GivenUp S} :
  (∀ (fn : Session.body S A) c fs, Session.balanced fn →
     let '(o, (c', _)) := Session.TransactWithOptions fn (c, fs) in
     Session.undo c' = Session.undo c
     ∧ (Session.undo c ≠ [] → Session.committed c' = Session.committed c)
     ∧ Session.ended fn c fs o c')
  ∧ (∀ fn : Session.body S A, Session.balanced fn → Session.balanced (Session.TransactWithOptions fn))
  ∧ (∀ (m : db S A) s fs,
     Session.TransactWithOptions (Session.on_connection m) (Session.idle s, fs) =
     let '(r, (s', fs')) := Transact m (s, fs) in (Session.Returned r, (Session.idle s', fs'))).
Proof.
  split_and!; [|apply Session.Transact_balanced|apply Session.Transact_on_connection].
  intros fn c fs Hfn. pose proof (Session.Transact_ended fn c fs Hfn) as He.
  destruct (Session.TransactWithOptions fn (c, fs)) as [o [c' fs']]. destruct He as (Hu & _ & He).
  split_and!; [done| |done]. intros Hne. unfold Session.committed. rewrite Hu.
  destruct (last (Session.undo c)) eqn:E; [done|]. by apply last_None in E.
Qed.

(** A transaction that inserts a row, and inside it one that inserts another
    and panics; the caller recovers. *)
Definition insert_row (n : nat) : Session.body (list nat) unit :=
  Session.on_connection (exec (λ rows, (tt, n :: rows))).

Definition panicking : Session.body (list nat) unit := λ st,
  let '(_, st) := insert_row 2 st in (Session.Panicked "index out of range", st).

Definition recovering : Session.body (list nat) unit := λ st,
  let '(_, st) := insert_row 1 st in
  let '(_, st) := Session.TransactWithOptions panicking st in (Session.Returned (Ok tt), st).

Lemma insert_row_balanced n : Session.balanced (insert_row n).
Proof.
  intros [t u] [|[e|] fs]; simpl; (split; [done|]); [done|by apply suffix_cons_r|by apply suffix_cons_r].
Qed.

Lemma panicking_balanced : Session.balanced panicking.
Proof.
  intros c fs. unfold panicking. pose proof (insert_row_balanced 2 c fs) as H.
  by destruct (insert_row 2 (c, fs)) as [o st].
Qed.

Lemma recovering_balanced : Session.balanced recovering.
Proof.
  intros c fs. unfold recovering. destruct (insert_row_balanced 1 c fs) as [Hu Hs].
  destruct (insert_row 1 (c, fs)) as [o [c1 fs1]]. simpl in Hu, Hs.
  destruct (Session.Transact_balanced panicking panicking_balanced c1 fs1) as [Hu2 Hs2].
  destruct (Session.TransactWithOptions panicking (c1, fs1)) as [o2 [c2 fs2]]. simpl in *.
  split; [congruence|by etrans].
Qed.

(** The inner row is gone and the outer one is committed; when COMMIT fails
    both are gone; a ROLLBACK TO that fails leaves the inner row to the outer
    transaction. *)
Lemma Transact_atomic_witness :
  Session.TransactWithOptions recovering (Session.idle [], []) =
    (Session.Returned (Ok tt), (Session.idle [1%nat], []))
  ∧ (Session.TransactWithOptions recovering (Session.idle [0%nat], replicate 5 None ++ [Some (Plain "eof")])).2.1
    = Session.idle [0%nat]
  ∧ Session.tables (Session.TransactWithOptions recovering (Session.idle [], replicate 4 None ++ [Some (Plain "eof")])).2.1
    = [2%nat; 1%nat]
  ∧ Session.ended recovering (Session.idle []) [] (Session.Returned (Ok tt)) (Session.idle [1%nat]).
Proof.
  split_and!; [reflexivity..|].
  exact (proj2 (proj2 (proj1 Transact_atomic recovering (Session.idle []) [] recovering_balanced))).
Defined.

Lemma transact_retry_atomic {S A} n ctxErr (fn : db S A) s fs :
  match transact_retry n ctxErr fn (s, fs) with
  | (Err _, (s', _)) => s' = s
  | (Ok a, (s', _)) => ∃ fs1 fs2, fn (s, fs1) = (Ok a, (s', fs2))
  end.
Proof.
  revert ctxErr fs. induction n as [|n IH]; intros ctxErr fs; simpl;
    pose proof (Transact_cases fn s fs) as Hat;
    destruct (Transact fn (s, fs)) as [[a|last] [s1 fs1]]; try done; subst s1.
  destruct (negb _); [done|]. destruct ctxErr as [|[]]; simpl; done || apply IH.
Qed.

(** a retried transaction takes effect at most once: however many attempts
    [TransactWithRetry] makes and whichever statements fail, on an error the
    tables are unchanged, and on success they are the result of one run of the
    body from the original tables. *)
Theorem TransactWithRetry_atomic {S A} MaxRetries ctxErr (fn : db S A) (s : S) fs :
  match TransactWithRetry MaxRetries ctxErr fn (s, fs) with
  | (Err _, (s', _)) => s' = s
  | (Ok a, (s', _)) => ∃ fs1 fs2, fn (s, fs1) = (Ok a, (s', fs2))
  end.
Proof. apply transact_retry_atomic. Qed.
