(* ===== verification/Sql.v ===== *)
(** * Tables and statements

    A table is the list of its rows; [UPDATE .. WHERE], [DELETE .. WHERE],
    [SELECT .. WHERE] and [INSERT .. ON CONFLICT] are the list functions below,
    with the lemmas that every repository uses: which rows change, how many,
    and which keys stay unique. *)

From S2P Require Import Prelude.

Section tables.
Context {R : Type}.
Implicit Types (p : R → bool) (f : R → R) (t : list R) (r : R).

Definition update_where p f t : list R := (λ r, if p r then f r else r) <$> t.

Definition select p t : list R := filter (λ r, p r = true) t.

Definition delete_where p t : list R := filter (λ r, p r = false) t.

(** The number of rows a statement matched. *)
Definition matched p t : Z := Z.of_nat (length (select p t)).

Lemma elem_of_select p t r : r ∈ select p t ↔ p r = true ∧ r ∈ t.
Proof. unfold select. apply (list_elem_of_filter (λ r, p r = true)). Qed.

Lemma elem_of_update_where p f t r' :
  r' ∈ update_where p f t ↔ ∃ r, r ∈ t ∧ r' = if p r then f r else r.
Proof. unfold update_where. rewrite list_elem_of_fmap. split; intros (r & ? & ?); eauto. Qed.

Lemma length_update_where p f t : length (update_where p f t) = length t.
Proof. apply length_fmap. Qed.

Lemma update_where_none p f t : (∀ r, r ∈ t → p r = false) → update_where p f t = t.
Proof.
  unfold update_where. induction t as [|x t IH]; intros H; simpl; [done|].
  rewrite (H x) by set_solver. f_equal. apply IH. set_solver.
Qed.

Lemma select_none p t : (∀ r, r ∈ t → p r = false) → select p t = [].
Proof.
  unfold select. induction t as [|x t IH]; intros H; [done|]. rewrite filter_cons_False.
  - apply IH. set_solver.
  - rewrite H by set_solver. done.
Qed.

Lemma select_all p t : (∀ r, r ∈ t → p r = true) → select p t = t.
Proof.
  unfold select. induction t as [|x t IH]; intros H; [done|]. rewrite filter_cons_True by (apply H; set_solver).
  f_equal. apply IH. set_solver.
Qed.

Lemma select_select p q t : select p (select q t) = select (λ r, p r && q r) t.
Proof.
  unfold select. rewrite list_filter_filter. apply list_filter_iff. intros r. by rewrite andb_true_iff.
Qed.

Lemma select_perm p t1 t2 : t1 ≡ₚ t2 → select p t1 ≡ₚ select p t2.
Proof. unfold select. by intros ->. Qed.

Lemma select_snoc p t r : (∀ r', r' ∈ t → p r' = false) → p r = true → select p (t ++ [r]) = [r].
Proof.
  intros Ht Hr. unfold select. rewrite filter_app. fold (select p t). rewrite select_none by done.
  by rewrite filter_cons_True.
Qed.

(** An update of rows outside a selection does not change the selection. *)
Lemma select_update_outside p q f t :
  (∀ r, p r = true → q r = false ∧ q (f r) = false) → select q (update_where p f t) = select q t.
Proof.
  intros H. unfold select, update_where. induction t as [|x t IH]; [done|].
  rewrite fmap_cons, !filter_cons, IH. destruct (p x) eqn:E; [|done].
  destruct (H x E) as [H1 H2]. rewrite !decide_False by congruence. done.
Qed.

Lemma select_ext p q t : (∀ r, r ∈ t → p r = q r) → select p t = select q t.
Proof.
  unfold select. induction t as [|x t IH]; intros H; [done|]. rewrite !filter_cons, IH by set_solver.
  rewrite (H x) by set_solver. done.
Qed.

Lemma select_app q t1 t2 : select q (t1 ++ t2) = select q t1 ++ select q t2.
Proof. apply filter_app. Qed.

Lemma matched_zero p t : matched p t = 0 ↔ ∀ r, r ∈ t → p r = false.
Proof.
  unfold matched. split.
  - intros H r Hr. destruct (p r) eqn:E; [|done].
    assert (r ∈ select p t) as Hs by (apply elem_of_select; done).
    destruct (select p t); [by apply elem_of_nil in Hs|simpl in H; lia].
  - intros H. destruct (select p t) as [|x l] eqn:E; [done|].
    assert (x ∈ select p t) as [Hx Ht]%elem_of_select by (rewrite E; set_solver).
    by rewrite (H x Ht) in Hx.
Qed.

Lemma matched_some p t : matched p t ≠ 0 → ∃ r, r ∈ t ∧ p r = true.
Proof.
  unfold matched. intros H. destruct (select p t) as [|r l] eqn:E; [done|]. exists r.
  assert (r ∈ select p t) as []%elem_of_select by (rewrite E; by left). done.
Qed.

Lemma matched_nonneg p t : 0 ≤ matched p t.
Proof. unfold matched. lia. Qed.

Lemma Forall_update_where (P : R → Prop) p f t :
  (∀ r, r ∈ t → p r = true → P r → P (f r)) → Forall P t → Forall P (update_where p f t).
Proof.
  intros Hf HP. apply Forall_forall. intros r' (r & Hr & ->)%elem_of_update_where.
  rewrite Forall_forall in HP. case_match; eauto.
Qed.

Lemma Forall_delete_where (P : R → Prop) p t : Forall P t → Forall P (delete_where p t).
Proof.
  rewrite !Forall_forall. intros H r Hr.
  by apply list_elem_of_filter in Hr as [_ Hr%H].
Qed.

Lemma elem_of_delete_where p t r : r ∈ delete_where p t ↔ p r = false ∧ r ∈ t.
Proof. apply (list_elem_of_filter (λ r, p r = false)). Qed.

(** ** Sums *)

Definition total (g : R → Z) t : Z := foldr (λ r n, g r + n) 0 t.

Lemma total_cons g x t : total g (x :: t) = g x + total g t.
Proof. done. Qed.

Lemma update_where_cons p f x t :
  update_where p f (x :: t) = (if p x then f x else x) :: update_where p f t.
Proof. done. Qed.

Lemma total_app g t1 t2 : total g (t1 ++ t2) = total g t1 + total g t2.
Proof. unfold total. induction t1 as [|x t1 IH]; simpl; [done|]. rewrite IH. lia. Qed.

Lemma total_ext g g' t : (∀ r, r ∈ t → g r = g' r) → total g t = total g' t.
Proof.
  unfold total. induction t as [|x t IH]; intros H; simpl; [done|].
  rewrite IH by set_solver. rewrite H by set_solver. done.
Qed.

Lemma total_zero g t : (∀ r, r ∈ t → g r = 0) → total g t = 0.
Proof.
  induction t as [|x t IH]; intros H; [done|].
  rewrite total_cons, IH by set_solver. rewrite H by set_solver. done.
Qed.

Lemma total_nonneg g t : (∀ r, r ∈ t → 0 ≤ g r) → 0 ≤ total g t.
Proof.
  unfold total. induction t as [|x t IH]; intros H; simpl; [lia|].
  pose proof (H x ltac:(set_solver)). pose proof (IH ltac:(set_solver)). lia.
Qed.

Lemma total_elem g t r : (∀ r, r ∈ t → 0 ≤ g r) → r ∈ t → g r ≤ total g t.
Proof.
  unfold total. induction t as [|x t IH]; intros H Hr; simpl; [by apply elem_of_nil in Hr|].
  pose proof (H x ltac:(set_solver)).
  pose proof (total_nonneg g t ltac:(set_solver)) as Hn. unfold total in Hn.
  apply elem_of_cons in Hr as [->|Hr]; [lia|]. pose proof (IH ltac:(set_solver) Hr). lia.
Qed.

Lemma total_update_none g p f t :
  (∀ r, r ∈ t → p r = true → g (f r) = g r) → total g (update_where p f t) = total g t.
Proof.
  induction t as [|x t IH]; intros H; [done|].
  rewrite update_where_cons, !total_cons, IH by set_solver.
  destruct (p x) eqn:E; [|done]. by rewrite H by set_solver.
Qed.

(** ** Keys *)
Section keys.
Context {K : Type} (key : R → K).

Lemma map_key_update_where p f t :
  (∀ r, key (f r) = key r) → key <$> update_where p f t = key <$> t.
Proof.
  intros Hk. unfold update_where. rewrite <- list_fmap_compose. apply list_fmap_ext.
  intros i r _. simpl. by case_match.
Qed.

Lemma NoDup_key_eq t r1 r2 :
  NoDup (key <$> t) → r1 ∈ t → r2 ∈ t → key r1 = key r2 → r1 = r2.
Proof.
  induction t as [|x t IH]; simpl; intros Hn H1 H2 E; [by apply elem_of_nil in H1|].
  apply NoDup_cons in Hn as [Hx Hn].
  apply elem_of_cons in H1 as [->|H1], H2 as [->|H2]; try done.
  - destruct Hx. rewrite E. by apply (list_elem_of_fmap_2 key).
  - destruct Hx. rewrite <- E. by apply (list_elem_of_fmap_2 key).
  - auto.
Qed.

Lemma NoDup_key_delete p t : NoDup (key <$> t) → NoDup (key <$> delete_where p t).
Proof.
  unfold delete_where. induction t as [|x t IH]; simpl; [done|].
  intros [Hx Hn]%NoDup_cons. rewrite filter_cons. case_decide; simpl; [|auto].
  apply NoDup_cons. split; [|auto]. intros (y & E & Hy)%list_elem_of_fmap.
  apply list_elem_of_filter in Hy as [_ Hy]. destruct Hx. rewrite E. by apply (list_elem_of_fmap_2 key).
Qed.

Lemma NoDup_key_select p t : NoDup (key <$> t) → NoDup (key <$> select p t).
Proof.
  unfold select. induction t as [|x t IH]; simpl; [done|].
  intros [Hx Hn]%NoDup_cons. rewrite filter_cons. case_decide; simpl; [|auto].
  apply NoDup_cons. split; [|auto]. intros (y & E & Hy)%list_elem_of_fmap.
  apply list_elem_of_filter in Hy as [_ Hy]. destruct Hx. rewrite E. by apply (list_elem_of_fmap_2 key).
Qed.
End keys.

(** Updating the one row that [p] matches changes a sum by its difference. *)
Lemma total_update_unique {K} (key : R → K) g p f t r :
  NoDup (key <$> t) → r ∈ t → p r = true → (∀ r', r' ∈ t → p r' = true → key r' = key r) →
  total g (update_where p f t) = total g t - g r + g (f r).
Proof.
  induction t as [|x t IH]; intros Hn Hr Hp Hk; [by apply elem_of_nil in Hr|].
  rewrite update_where_cons, !total_cons.
  apply NoDup_cons in Hn as [Hx Hn].
  apply elem_of_cons in Hr as [->|Hr].
  - rewrite Hp. assert (update_where p f t = t) as Hu.
    { apply update_where_none. intros r Hr. destruct (p r) eqn:E; [|done].
      destruct Hx. rewrite <- (Hk r) by (done || by apply elem_of_cons; right).
      by apply (list_elem_of_fmap_2 key). }
    rewrite Hu. lia.
  - rewrite IH by (done || (intros; apply Hk; [by apply elem_of_cons; right|done])).
    destruct (p x) eqn:E; [|lia]. destruct Hx. rewrite (Hk x) by (done || by apply elem_of_cons; left).
    by apply (list_elem_of_fmap_2 key).
Qed.

(** The row a unique key selects. *)
Lemma select_unique {K} `{EqDecision K} (key : R → K) p t r :
  NoDup (key <$> t) → r ∈ t → p r = true →
  (∀ r', p r' = true → key r' = key r) → select p t = [r].
Proof.
  unfold select. induction t as [|x t IH]; simpl; intros Hn Hr Hp Hk; [by apply elem_of_nil in Hr|].
  apply NoDup_cons in Hn as [Hx Hn]. rewrite filter_cons.
  apply elem_of_cons in Hr as [->|Hr].
  - rewrite decide_True by done. f_equal.
    assert (filter (λ r, p r = true) t ⊆ []) as Hs; [|by destruct (filter _ t); [|set_solver]].
    intros y Hy. apply list_elem_of_filter in Hy as [Hy1 Hy2]. destruct Hx.
    rewrite <- (Hk y Hy1). by apply (list_elem_of_fmap_2 key).
  - rewrite decide_False; [auto|]. intros Hx'. destruct Hx. rewrite (Hk x Hx').
    by apply (list_elem_of_fmap_2 key).
Qed.
End tables.
