(* ===== verification/Jobs.v ===== *)
(** * The durable job queue (packages/platform/jobs)

    The table is the list of its rows.  [Queue] has the statements of
    queue.go, [Worker] the processing of one job (worker.go).  The identifiers
    drawn by [idx.NewUUID], the clock readings and the ids locked by other
    transactions are arguments; the Prometheus counters are not modelled. *)

From S2P Require Import Prelude GoLib Errors Postgres Sql.

Inductive JobStatus := StatusPending | StatusRunning | StatusSucceeded | StatusDead.

#[export] Instance JobStatus_eq_dec : EqDecision JobStatus.
Proof. solve_decision. Defined.

Definition status_eqb (a b : JobStatus) : bool := bool_decide (a = b).

Module Job.
Record t := mk {
  ID : string;
  Queue : string;
  Type_ : string;
  Payload : string;
  Priority : Z;
  Status : JobStatus;
  Attempts : Z;
  MaxAttempts : Z;
  AvailableAt : Time;
  LeasedUntil : option Time;
  LeasedBy : option string;
  LastError : option string;
  IdempotencyKey : option string;
  CreatedAt : Time;
  UpdatedAt : Time;
}.

#[global] Instance eq_dec : EqDecision t.
Proof. solve_decision. Defined.
End Job.
Abbreviation Job := Job.t.

(** ** Enqueue options (job.go) *)

Record EnqueueOptions := {
  Priority : Z;
  Delay : Duration;
  RunAt : Time;
  MaxAttempts : Z;
  IdempotencyKey : string;
}.

Definition maxAttempts (o : EnqueueOptions) : Z :=
  if MaxAttempts o <=? 0 then 25 else MaxAttempts o.

Definition availableAt (o : EnqueueOptions) (now : Time) : Time :=
  if negb (IsZero (RunAt o)) then RunAt o
  else if 0 <? Delay o then Add now (Delay o)
  else now.

(** [visibilityInterval]: the interval the statement adds to [now()]. *)
Definition visibilityInterval (d : Duration) : Duration := if d <=? 0 then 0 else d.

(** ** Queue operations (queue.go) *)

Section queue.
Context `{D : Driver} `{So : Sorter}.

(** The unique index [(queue, idempotency_key) WHERE idempotency_key IS NOT NULL]. *)
Definition conflicts (queue : string) (key : option string) (j : Job) : bool :=
  match key, Job.IdempotencyKey j with
  | Some k, Some k' => (Job.Queue j =s? queue) && (k =s? k')
  | _, _ => false
  end.

Definition new_row (id queue jobType raw : string) (opts : EnqueueOptions)
    (key : option string) (now : Time) : Job :=
  {| Job.ID := id; Job.Queue := queue; Job.Type_ := jobType; Job.Payload := raw;
     Job.Priority := Priority opts; Job.Status := StatusPending; Job.Attempts := 0;
     Job.MaxAttempts := maxAttempts opts; Job.AvailableAt := availableAt opts now;
     Job.LeasedUntil := None; Job.LeasedBy := None; Job.LastError := None;
     Job.IdempotencyKey := key; Job.CreatedAt := now; Job.UpdatedAt := now |}.

(** The statement [INSERT .. ON CONFLICT .. DO UPDATE .. RETURNING]. *)
Definition insert_job (row : Job) (t : list Job) : result error Job * list Job :=
  match select (conflicts (Job.Queue row) (Job.IdempotencyKey row)) t with
  | j :: _ => (Ok j, t)
  | [] =>
      if matched (λ j, Job.ID j =s? Job.ID row) t =? 0 then (Ok row, t ++ [row])
      else (Err (PgError sqlStateUniqueViolation "duplicate key"), t)
  end.

(** [raw] is the result of [json.Marshal(payload)]. *)
Definition Enqueue (id queue jobType : string) (raw : result error string)
    (opts : EnqueueOptions) (now : Time) : db (list Job) Job :=
  match raw with
  | Err e => fail (Platform (mkError CodeInvalidArgument "jobs: marshal payload" (Some e)
                               None "" false false false))
  | Ok raw =>
      let key := if IdempotencyKey opts =s? "" then None else Some (IdempotencyKey opts) in
      translate "jobs: enqueue" (query (insert_job (new_row id queue jobType raw opts key now)))
  end.

(** The [WHERE] of the claim; a NULL lease compares as unknown. *)
Definition eligible (queue : string) (now : Time) (j : Job) : bool :=
  (Job.Queue j =s? queue) &&
  ((status_eqb (Job.Status j) StatusPending && (Job.AvailableAt j <=? now))
   || (status_eqb (Job.Status j) StatusRunning &&
       match Job.LeasedUntil j with Some u => u <? now | None => false end)).

(** [ORDER BY priority DESC, available_at] *)
Definition claim_before : Job → Job → bool :=
  lex (λ x y, Job.Priority y <? Job.Priority x) (λ x y, Job.AvailableAt x <? Job.AvailableAt y).

Definition claim (workerID : string) (until now : Time) (j : Job) : Job :=
  {| Job.ID := Job.ID j; Job.Queue := Job.Queue j; Job.Type_ := Job.Type_ j;
     Job.Payload := Job.Payload j; Job.Priority := Job.Priority j;
     Job.Status := StatusRunning; Job.Attempts := Job.Attempts j + 1;
     Job.MaxAttempts := Job.MaxAttempts j; Job.AvailableAt := Job.AvailableAt j;
     Job.LeasedUntil := Some until; Job.LeasedBy := Some workerID;
     Job.LastError := Job.LastError j; Job.IdempotencyKey := Job.IdempotencyKey j;
     Job.CreatedAt := Job.CreatedAt j; Job.UpdatedAt := now |}.

(** The ids the sub-select of the claim returns; [locked] are the rows other
    transactions hold ([FOR UPDATE SKIP LOCKED]). *)
Definition claim_ids (locked : string → bool) (queue : string) (limit : Z) (now : Time)
    (t : list Job) : list string :=
  Job.ID <$> take (Z.to_nat limit)
    (sort_slice claim_before (select (λ j, eligible queue now j && negb (locked (Job.ID j))) t)).

Definition claimed (ids : list string) (j : Job) : bool := bool_decide (Job.ID j ∈ ids).

(** [scanJobs]: the rows have been updated when they are read. *)
Definition scanJobs (jobs : list Job) : db (list Job) (list Job) :=
  translate "jobs: scan dequeued" (exec (λ t, (jobs, t))).

Definition Dequeue (locked : string → bool) (queue workerID : string) (limit : Z)
    (visibility : Duration) (now : Time) : db (list Job) (list Job) :=
  let limit := if limit <=? 0 then 1 else limit in
  jobs ← translate "jobs: dequeue" (exec (λ t,
    let ids := claim_ids locked queue limit now t in
    let t' := update_where (claimed ids) (claim workerID (now + visibilityInterval visibility) now) t in
    (select (claimed ids) t', t')));
  scanJobs jobs.

Definition complete (now : Time) (j : Job) : Job :=
  {| Job.ID := Job.ID j; Job.Queue := Job.Queue j; Job.Type_ := Job.Type_ j;
     Job.Payload := Job.Payload j; Job.Priority := Job.Priority j;
     Job.Status := StatusSucceeded; Job.Attempts := Job.Attempts j;
     Job.MaxAttempts := Job.MaxAttempts j; Job.AvailableAt := Job.AvailableAt j;
     Job.LeasedUntil := None; Job.LeasedBy := None;
     Job.LastError := None; Job.IdempotencyKey := Job.IdempotencyKey j;
     Job.CreatedAt := Job.CreatedAt j; Job.UpdatedAt := now |}.

Definition has_id (id : string) (j : Job) : bool := Job.ID j =s? id.

Definition Complete (jobID : string) (now : Time) : db (list Job) unit :=
  n ← translate "jobs: complete"
        (exec (λ t, (matched (has_id jobID) t, update_where (has_id jobID) (complete now) t)));
  if n =? 0 then fail_with (NotFound "jobs: job not found") else mret tt.

Definition failed (msg : string) (backoff : Duration) (now : Time) (j : Job) : Job :=
  let dead := Job.MaxAttempts j <=? Job.Attempts j in
  {| Job.ID := Job.ID j; Job.Queue := Job.Queue j; Job.Type_ := Job.Type_ j;
     Job.Payload := Job.Payload j; Job.Priority := Job.Priority j;
     Job.Status := if dead then StatusDead else StatusPending;
     Job.Attempts := Job.Attempts j; Job.MaxAttempts := Job.MaxAttempts j;
     Job.AvailableAt := if dead then Job.AvailableAt j else now + visibilityInterval backoff;
     Job.LeasedUntil := None; Job.LeasedBy := None; Job.LastError := Some msg;
     Job.IdempotencyKey := Job.IdempotencyKey j;
     Job.CreatedAt := Job.CreatedAt j; Job.UpdatedAt := now |}.

Definition Fail (jobID : string) (cause : option error) (backoff : Duration) (now : Time)
    : db (list Job) JobStatus :=
  let msg := match cause with None => "" | Some e => ErrorString e end in
  translate "jobs: fail" (query (λ t,
    let t' := update_where (has_id jobID) (failed msg backoff now) t in
    match select (has_id jobID) t' with
    | j :: _ => (Ok (Job.Status j), t')
    | [] => (Err ErrNoRows, t')
    end)).

Definition extend (until now : Time) (j : Job) : Job :=
  {| Job.ID := Job.ID j; Job.Queue := Job.Queue j; Job.Type_ := Job.Type_ j;
     Job.Payload := Job.Payload j; Job.Priority := Job.Priority j;
     Job.Status := Job.Status j; Job.Attempts := Job.Attempts j;
     Job.MaxAttempts := Job.MaxAttempts j; Job.AvailableAt := Job.AvailableAt j;
     Job.LeasedUntil := Some until; Job.LeasedBy := Job.LeasedBy j;
     Job.LastError := Job.LastError j; Job.IdempotencyKey := Job.IdempotencyKey j;
     Job.CreatedAt := Job.CreatedAt j; Job.UpdatedAt := now |}.

Definition leased_to (jobID workerID : string) (j : Job) : bool :=
  has_id jobID j
  && match Job.LeasedBy j with Some w => w =s? workerID | None => false end
  && status_eqb (Job.Status j) StatusRunning.

Definition Heartbeat (jobID workerID : string) (ext : Duration) (now : Time)
    : db (list Job) unit :=
  n ← translate "jobs: heartbeat"
        (exec (λ t, (matched (leased_to jobID workerID) t,
           update_where (leased_to jobID workerID) (extend (now + visibilityInterval ext) now) t)));
  if n =? 0 then fail_with (New CodeConflict "jobs: lease lost") else mret tt.

Definition purgeable (olderThan : Duration) (now : Time) (j : Job) : bool :=
  status_eqb (Job.Status j) StatusSucceeded
  && (Job.UpdatedAt j <? now - visibilityInterval olderThan).

Definition PurgeCompleted (olderThan : Duration) (now : Time) : db (list Job) Z :=
  translate "jobs: purge"
    (exec (λ t, (matched (purgeable olderThan now) t, delete_where (purgeable olderThan now) t))).

(** [SELECT status, count( * ) .. GROUP BY status]: a status without rows is absent. *)
Definition Stats (queue : string) : db (list Job) (list (JobStatus * Z)) :=
  translate "jobs: stats" (exec (λ t,
    let count s := matched (λ j, (Job.Queue j =s? queue) && status_eqb (Job.Status j) s) t in
    (filter (λ p, (p.2 =? 0) = false)
       ((λ s, (s, count s)) <$> [StatusPending; StatusRunning; StatusSucceeded; StatusDead]), t))).
End queue.

(** ** Workers (worker.go) *)

Record WorkerConfig := {
  WQueue : string;
  Concurrency : Z;
  BatchSize : Z;
  PollInterval : Duration;
  Visibility : Duration;
  HeartbeatInterval : Duration;
}.

Definition withDefaults (c : WorkerConfig) : WorkerConfig :=
  let concurrency := if Concurrency c <? 1 then 1 else Concurrency c in
  let batch := if BatchSize c <? 1 then concurrency else BatchSize c in
  let poll := if PollInterval c <=? 0 then Second else PollInterval c in
  let visibility := if Visibility c <=? 0 then 30 * Second else Visibility c in
  let heartbeat := if HeartbeatInterval c =? 0 then Z.quot visibility 3 else HeartbeatInterval c in
  {| WQueue := WQueue c; Concurrency := concurrency; BatchSize := batch;
     PollInterval := poll; Visibility := visibility; HeartbeatInterval := heartbeat |}.

(** What a handler does with a job. *)
Inductive outcome := Returns (err : option error) | Panics (v : string).

(** The error [safeInvoke] gives back. *)
Definition safeInvoke (o : outcome) : option error :=
  match o with
  | Returns err => err
  | Panics v => Some (Platform (New CodeInternal ("jobs: handler panic: " +:+ v)))
  end.

(** [fmt]'s [%q] on a string without special characters. *)
Definition quote (s : string) : string :=
  let q := String (Ascii.ascii_of_nat 34) EmptyString in q +:+ s +:+ q.

Section worker.
Context `{D : Driver}.
Context (handlers : gmap string (Job → outcome)) (backoff : Z → Duration).

(** [process], at the time [now] its handler returns; its heartbeats are the
    separate operation [Heartbeat]. *)
Definition process (job : Job) (now : Time) : db (list Job) unit :=
  match handlers !! Job.Type_ job with
  | None =>
      ignore (Fail (Job.ID job)
        (Some (Platform (New CodeFailedPrecond
           ("jobs: no handler for type " +:+ quote (Job.Type_ job)))))
        (backoff (Job.Attempts job)) now)
  | Some handler =>
      match safeInvoke (handler job) with
      | Some err => ignore (Fail (Job.ID job) (Some err) (backoff (Job.Attempts job)) now)
      | None => ignore (Complete (Job.ID job) now)
      end
  end.

(** The goroutines of a batch: each ends in one statement, so the batch is the
    sequence of its jobs in the order their handlers return. *)
Fixpoint work (done : list (Job * Time)) : db (list Job) unit :=
  match done with
  | [] => mret tt
  | (job, now) :: rest => process job now ≫= λ _, work rest
  end.
End worker.

(** One turn of the loop of [Run]: a failed poll is logged and retried later;
    [schedule] is the order and the times in which the handlers return. *)
Definition RunOnce `{D : Driver} `{So : Sorter} (handlers : gmap string (Job → outcome))
    (backoff : Z → Duration) (locked : string → bool) (cfg : WorkerConfig) (id : string)
    (schedule : list Job → list (Job * Time)) (now : Time) : db (list Job) unit :=
  batch ← attempt (Dequeue locked (WQueue cfg) id (BatchSize cfg) (Visibility cfg) now);
  match batch with
  | Err _ => mret tt
  | Ok batch => work handlers backoff (schedule batch)
  end.

(** ** The queue as a state machine

    Producers, workers and the cron call the operations in any order, at any
    time, with any arguments, and any of their statements may fail. *)

Inductive op :=
| OpEnqueue (id queue jobType : string) (raw : result error string) (opts : EnqueueOptions)
| OpDequeue (locked : string → bool) (queue workerID : string) (limit : Z) (visibility : Duration)
| OpComplete (jobID : string)
| OpFail (jobID : string) (cause : option error) (backoff : Duration)
| OpHeartbeat (jobID workerID : string) (ext : Duration)
| OpPurge (olderThan : Duration).

Section machine.
Context `{D : Driver} `{So : Sorter}.

Definition run_op (o : op) (now : Time) : db (list Job) unit :=
  match o with
  | OpEnqueue id queue jobType raw opts => ignore (Enqueue id queue jobType raw opts now)
  | OpDequeue locked queue w limit vis => ignore (Dequeue locked queue w limit vis now)
  | OpComplete id => ignore (Complete id now)
  | OpFail id cause backoff => ignore (Fail id cause backoff now)
  | OpHeartbeat id w ext => ignore (Heartbeat id w ext now)
  | OpPurge d => ignore (PurgeCompleted d now)
  end.

Inductive step : Time * list Job → Time * list Job → Prop :=
| step_tick now now' t : now ≤ now' → step (now, t) (now', t)
| step_op o now t fs : step (now, t) (now, tables_of (run_op o now (t, fs))).

(** A sequence of operations, each at its time and with its faults. *)
Definition run (l : list (op * Time * faults)) (t : list Job) : list Job :=
  foldl (λ t '(o, now, fs), tables_of (run_op o now (t, fs))) t l.

Definition reachable (st : Time * list Job) : Prop := ∃ now, rtc step (now, []) st.
End machine.
