(* ===== verification/JobsFacts.v ===== *)
(** * The job queue: invariants, leases, ordering, retries *)

From S2P Require Import Prelude GoLib Errors Postgres Sql Jobs.

(** ** The table invariant *)

(** A row is leased exactly while it runs, has been claimed if it runs, has an
    attempt left while it waits, and is dead only after all its attempts. *)
Record job_ok (j : Job) : Prop := {
  ok_attempts : 0 ≤ Job.Attempts j;
  ok_max : 1 ≤ Job.MaxAttempts j;
  ok_lease : Job.Status j = StatusRunning ↔ is_Some (Job.LeasedUntil j);
  ok_holder : is_Some (Job.LeasedBy j) ↔ is_Some (Job.LeasedUntil j);
  ok_running : Job.Status j = StatusRunning → 1 ≤ Job.Attempts j;
  ok_pending : Job.Status j = StatusPending → Job.Attempts j < Job.MaxAttempts j;
  ok_dead : Job.Status j = StatusDead → Job.MaxAttempts j ≤ Job.Attempts j;
}.

(** The key of the unique index on idempotency keys. *)
Definition idem_key (j : Job) : option (string * string) :=
  (λ k, (Job.Queue j, k)) <$> Job.IdempotencyKey j.

Record table_ok (t : list Job) : Prop := {
  tok_rows : Forall job_ok t;
  tok_ids : NoDup (Job.ID <$> t);
  tok_keys : NoDup (omap idem_key t);
}.

(** An update that keeps the identity of the rows. *)
Record keeps_key (f : Job → Job) : Prop := {
  kk_id j : Job.ID (f j) = Job.ID j;
  kk_idem j : idem_key (f j) = idem_key j;
}.

Lemma claim_keeps w u now : keeps_key (claim w u now).
Proof. by split. Qed.
Lemma complete_keeps now : keeps_key (complete now).
Proof. by split. Qed.
Lemma failed_keeps m b now : keeps_key (failed m b now).
Proof. by split. Qed.
Lemma extend_keeps u now : keeps_key (extend u now).
Proof. by split. Qed.

Lemma omap_cons_eq {A B} (g : A → option B) x l :
  omap g (x :: l) = match g x with Some y => y :: omap g l | None => omap g l end.
Proof. done. Qed.

Lemma omap_idem_update p f t :
  keeps_key f → omap idem_key (update_where p f t) = omap idem_key t.
Proof.
  intros Hf. induction t as [|j t IH]; [done|].
  change (update_where p f (j :: t)) with ((if p j then f j else j) :: update_where p f t).
  rewrite !omap_cons_eq, IH. destruct (p j); [|done]. by rewrite (kk_idem f Hf).
Qed.

Lemma table_ok_update p f t :
  keeps_key f → (∀ j, j ∈ t → p j = true → job_ok j → job_ok (f j)) →
  table_ok t → table_ok (update_where p f t).
Proof.
  intros Hf Hok [H1 H2 H3]. split.
  - by apply Forall_update_where.
  - rewrite map_key_update_where; [done|]. apply (kk_id f Hf).
  - by rewrite omap_idem_update.
Qed.

Lemma table_ok_delete p t : table_ok t → table_ok (delete_where p t).
Proof.
  intros [H1 H2 H3]. split.
  - by apply Forall_delete_where.
  - by apply NoDup_key_delete.
  - clear H1 H2. revert H3. unfold delete_where. induction t as [|j t IH]; [done|].
    rewrite filter_cons. csimpl. intros H.
    assert (NoDup (omap idem_key t)) as Ht.
    { destruct (idem_key j); [by apply NoDup_cons in H as [_ H]|done]. }
    case_decide; [|auto]. csimpl. destruct (idem_key j) as [k|]; [|auto].
    apply NoDup_cons in H as [Hk _]. apply NoDup_cons. split; [|auto].
    intros (y & Hy & Hk')%list_elem_of_omap. apply list_elem_of_filter in Hy as [_ Hy].
    apply Hk, list_elem_of_omap. eauto.
Qed.

Lemma conflicts_idem q k j :
  conflicts q k j = true ↔ ∃ k', k = Some k' ∧ idem_key j = Some (q, k').
Proof.
  unfold conflicts, idem_key. destruct k as [k|], (Job.IdempotencyKey j) as [k'|]; simpl.
  - rewrite andb_true_iff, !String.eqb_eq. split.
    + intros [<- <-]. eauto.
    + by intros (? & [= <-] & [= -> ->]).
  - split; [done|]. by intros (? & ? & ?).
  - split; [done|]. by intros (? & ? & ?).
  - split; [done|]. by intros (? & ? & ?).
Qed.

Section facts.
Context `{D : Driver} `{So : Sorter}.

Lemma maxAttempts_pos o : 1 ≤ maxAttempts o.
Proof. unfold maxAttempts. case_match; bool_to_prop; lia. Qed.

Lemma new_row_ok id q ty raw opts key now : job_ok (new_row id q ty raw opts key now).
Proof.
  pose proof (maxAttempts_pos opts). split; simpl; done || lia.
Qed.

(** Row updates: every field of [job_ok] is closed by its old value, by
    computation, or because the lease is set or cleared. *)
Ltac row_ok :=
  intros; match goal with H : job_ok _ |- _ => destruct H end;
  split; simpl; try done; repeat case_match; bool_to_prop; simplify_eq; try done; try lia;
  try (split; intros; (done || eauto || (by match goal with H : is_Some None |- _ => destruct H end)
                       || intuition eauto)).

Lemma claim_ok w u now j : job_ok j → job_ok (claim w u now j).
Proof. row_ok. Qed.

Lemma complete_ok now j : job_ok j → job_ok (complete now j).
Proof. row_ok. Qed.

Lemma failed_ok m b now j : job_ok j → job_ok (failed m b now j).
Proof. row_ok. Qed.

Lemma extend_ok u now j : Job.Status j = StatusRunning → job_ok j → job_ok (extend u now j).
Proof. row_ok. Qed.

(** ** Every operation preserves the invariant *)

Lemma table_ok_insert row t : job_ok row → table_ok t → table_ok (insert_job row t).2.
Proof.
  intros Hr [H1 H2 H3]. unfold insert_job.
  destruct (select _ t) as [|j l] eqn:E; [|done].
  destruct (matched _ t =? 0) eqn:Em; [|done]. bool_to_prop. simpl.
  rewrite matched_zero in Em. split.
  - rewrite Forall_app. by split; [|constructor].
  - rewrite fmap_app. apply NoDup_app. split_and!; [done| |apply NoDup_singleton].
    intros x (j & -> & Hj)%list_elem_of_fmap Hx. apply list_elem_of_singleton in Hx.
    specialize (Em j Hj). by bool_to_prop.
  - rewrite omap_app. apply NoDup_app. split_and!; [done| |].
    + intros x (j & Hj & Hx)%list_elem_of_omap Hx'. csimpl in Hx'.
      destruct (idem_key row) as [k|] eqn:Ek; [|by apply elem_of_nil in Hx'].
      apply list_elem_of_singleton in Hx' as ->.
      assert (j ∈ select (conflicts (Job.Queue row) (Job.IdempotencyKey row)) t) as Hs.
      { apply elem_of_select. split; [|done]. apply conflicts_idem.
        unfold idem_key in Ek. destruct (Job.IdempotencyKey row) as [k'|]; simplify_eq/=. eauto. }
      rewrite E in Hs. by apply elem_of_nil in Hs.
    + csimpl. destruct (idem_key row); [apply NoDup_singleton|apply NoDup_nil_2].
Qed.

(** The tables after an operation whose statement runs. *)
Definition effect (o : op) (now : Time) (t : list Job) : list Job :=
  match o with
  | OpEnqueue id queue jobType (Ok raw) opts =>
      let key := if IdempotencyKey opts =s? "" then None else Some (IdempotencyKey opts) in
      (insert_job (new_row id queue jobType raw opts key now) t).2
  | OpEnqueue _ _ _ (Err _) _ => t
  | OpDequeue locked queue w limit vis =>
      update_where (claimed (claim_ids locked queue (if limit <=? 0 then 1 else limit) now t))
        (claim w (now + visibilityInterval vis) now) t
  | OpComplete id => update_where (has_id id) (complete now) t
  | OpFail id cause backoff =>
      update_where (has_id id)
        (failed (match cause with None => "" | Some e => ErrorString e end) backoff now) t
  | OpHeartbeat id w ext =>
      update_where (leased_to id w) (extend (now + visibilityInterval ext) now) t
  | OpPurge d => delete_where (purgeable d now) t
  end.

Lemma run_op_tables o now t fs :
  tables_of (run_op o now (t, fs)) = t ∨ tables_of (run_op o now (t, fs)) = effect o now t.
Proof.
  unfold tables_of. destruct o; simpl run_op; rewrite ignore_tables;
    unfold Enqueue, Dequeue, Complete, Fail, Heartbeat, PurgeCompleted, mbind, db_bind.
  - destruct raw; [|by left]. apply translate_query_elim; [by left|by right].
  - apply translate_exec_elim; [by left|].
    unfold scanJobs. apply translate_exec_elim; by right.
  - apply translate_exec_elim; [by left|]. right. by case_match.
  - apply translate_query_elim; [by left|]. right. simpl. by destruct (select (has_id jobID) _).
  - apply translate_exec_elim; [by left|]. right. by case_match.
  - apply translate_exec_elim; [by left|by right].
Qed.

Lemma effect_table_ok o now t : table_ok t → table_ok (effect o now t).
Proof.
  intros Ht. destruct o; simpl.
  - case_match; [|done]. apply table_ok_insert; [apply new_row_ok|done].
  - apply table_ok_update; auto using claim_keeps, claim_ok.
  - apply table_ok_update; auto using complete_keeps, complete_ok.
  - apply table_ok_update; auto using failed_keeps, failed_ok.
  - apply table_ok_update; [apply extend_keeps| |done].
    intros j _ Hl. apply extend_ok. unfold leased_to, status_eqb in Hl. by bool_to_prop.
  - by apply table_ok_delete.
Qed.

Lemma run_op_table_ok o now t fs : table_ok t → table_ok (tables_of (run_op o now (t, fs))).
Proof.
  intros Ht. destruct (run_op_tables o now t fs) as [->| ->]; [done|]. by apply effect_table_ok.
Qed.

Lemma step_table_ok st st' : step st st' → table_ok st.2 → table_ok st'.2.
Proof. intros [now now' t H|o now t fs] Ht; simpl in *; [done|]. by apply run_op_table_ok. Qed.

Lemma reachable_table_ok st : reachable st → table_ok st.2.
Proof.
  intros [now H]. remember (now, []) as st0 eqn:E.
  assert (table_ok st0.2) as H0 by (subst; split; try constructor). clear E.
  induction H; eauto using step_table_ok.
Qed.

(** ** The claim *)

Lemma swo_claim_before : strict_weak_on (λ _, True) claim_before.
Proof.
  apply swo_lex.
  - apply (swo_on Job.Priority (λ _, True) (λ a b, b <? a)). apply swo_flip, swo_Zltb.
  - apply (swo_on Job.AvailableAt (λ _, True) Z.ltb), swo_Zltb.
Qed.

(** The rows a claim takes. *)
Definition chosen (locked : string → bool) (queue : string) (limit : Z) (now : Time)
    (t : list Job) : list Job :=
  take (Z.to_nat limit)
    (sort_slice claim_before (select (λ j, eligible queue now j && negb (locked (Job.ID j))) t)).

Lemma chosen_sub locked q n now t j :
  j ∈ chosen locked q n now t → j ∈ t ∧ eligible q now j = true ∧ locked (Job.ID j) = false.
Proof.
  unfold chosen. intros H. eapply elem_of_sublist in H; [|apply sublist_take]. apply elem_of_sort_slice, elem_of_select in H as [H ?].
  by bool_to_prop.
Qed.

Lemma NoDup_chosen locked q n now t :
  NoDup (Job.ID <$> t) → NoDup (Job.ID <$> chosen locked q n now t).
Proof.
  intros H. unfold chosen. eapply sublist_NoDup; [|apply fmap_sublist, sublist_take].
  rewrite sort_slice_perm. by apply NoDup_key_select.
Qed.

(** Among the rows of the table, the claimed ids are the chosen rows. *)
Lemma claimed_chosen locked q n now t j :
  NoDup (Job.ID <$> t) → j ∈ t →
  claimed (claim_ids locked q n now t) j = bool_decide (j ∈ chosen locked q n now t).
Proof.
  intros Hn Hj. apply bool_decide_ext. split.
  - intros (j' & E & Hj')%list_elem_of_fmap.
    assert (j = j') as ->; [|done].
    apply (NoDup_key_eq Job.ID t); eauto. by apply chosen_sub in Hj' as [? _].
  - intros H. by apply (list_elem_of_fmap_2 Job.ID).
Qed.

Lemma select_update_claimed ids w u now t :
  select (claimed ids) (update_where (claimed ids) (claim w u now) t)
  = claim w u now <$> select (claimed ids) t.
Proof.
  unfold select, update_where. induction t as [|j t IH]; [done|]. rewrite fmap_cons, !filter_cons.
  destruct (claimed ids j) eqn:E.
  - rewrite decide_True by done. rewrite decide_True by done. by rewrite IH.
  - rewrite !decide_False by (by rewrite E). apply IH.
Qed.

Lemma select_claimed_perm locked q n now t :
  NoDup (Job.ID <$> t) →
  select (claimed (claim_ids locked q n now t)) t ≡ₚ chosen locked q n now t.
Proof.
  intros Hn. apply NoDup_Permutation.
  - eapply NoDup_fmap_1. by apply (NoDup_key_select Job.ID).
  - eapply NoDup_fmap_1. by apply NoDup_chosen.
  - intros j. rewrite elem_of_select. split.
    + intros [H Hj]. rewrite claimed_chosen in H by done. by bool_to_prop.
    + intros H. pose proof (chosen_sub _ _ _ _ _ _ H) as [Hj _].
      rewrite claimed_chosen by done. split; [|done]. by apply bool_decide_eq_true.
Qed.

(** A row left behind does not come before one that is taken. *)
Lemma chosen_before locked q n now t a b :
  a ∈ chosen locked q n now t → b ∈ t → eligible q now b && negb (locked (Job.ID b)) = true →
  b ∉ chosen locked q n now t → claim_before b a = false.
Proof.
  unfold chosen. intros Ha Hb Hr Hnb.
  eapply (sort_slice_take_drop claim_before (λ _, True)); [apply swo_claim_before| |exact Ha|].
  - by apply Forall_true.
  - assert (b ∈ sort_slice claim_before (select (λ j, eligible q now j && negb (locked (Job.ID j))) t)) as Hs
      by (by apply elem_of_sort_slice, elem_of_select).
    rewrite <- (take_drop (Z.to_nat n) (sort_slice _ _)) in Hs. by apply elem_of_app in Hs as [Hs|Hs].
Qed.

(** C36: a poll claims the right jobs.  On any table with unique ids, [Dequeue]
    either fails in its statement and changes nothing, or: it takes the first
    [limit] (at least one) eligible unlocked jobs of the queue, all of them if
    there are fewer; no job it leaves behind has a strictly higher priority, or
    the same priority and an earlier availability, than one it takes; exactly
    the taken rows become running under the caller's lease with one more
    attempt; and it returns them, unless reading the rows of the answer fails:
    then it reports the error and the jobs wait for their leases to pass. *)
Theorem Dequeue_claims locked queue workerID limit visibility now t fs :
  NoDup (Job.ID <$> t) →
  let limit' := if limit <=? 0 then 1 else limit in
  let ready j := eligible queue now j && negb (locked (Job.ID j)) in
  let claim' := claim workerID (now + visibilityInterval visibility) now in
  let takes (taken t' : list Job) :=
    Forall (λ j, j ∈ t ∧ ready j = true) taken
    ∧ NoDup (Job.ID <$> taken)
    ∧ Z.of_nat (length taken) = Z.min limit' (matched ready t)
    ∧ (∀ a b, a ∈ taken → b ∈ t → ready b = true → b ∉ taken → claim_before b a = false)
    ∧ t' = (λ j, if bool_decide (j ∈ taken) then claim' j else j) <$> t in
  match Dequeue locked queue workerID limit visibility now (t, fs) with
  | (Err _, (t', _)) => (∃ e, head fs = Some (Some e)) ∧ t' = t ∨ ∃ taken, takes taken t'
  | (Ok js, (t', _)) => ∃ taken, takes taken t' ∧ js ≡ₚ claim' <$> taken
  end.
Proof.
  intros Hn limit' ready claim' takes.
  pose proof (λ j, claimed_chosen locked queue limit' now t j Hn) as Hc.
  set (taken := chosen locked queue limit' now t).
  set (t1 := update_where (claimed (claim_ids locked queue limit' now t)) claim' t).
  assert (Htakes : takes taken t1).
  { split_and!.
    - apply Forall_forall. intros j (?&?&?)%chosen_sub. unfold ready. split; [done|].
      apply andb_true_iff. split; [done|]. by apply negb_true_iff.
    - by apply NoDup_chosen.
    - unfold taken, chosen, matched. rewrite length_take, length_sort_slice. fold ready.
      unfold limit'. case_match; bool_to_prop; lia.
    - intros a b. by apply chosen_before.
    - apply list_fmap_ext. intros i j Hj%list_elem_of_lookup_2. by rewrite Hc. }
  assert (Hjobs : select (claimed (claim_ids locked queue limit' now t)) t1 ≡ₚ claim' <$> taken).
  { unfold t1, claim'. rewrite select_update_claimed. by rewrite select_claimed_perm. }
  unfold Dequeue, mbind, db_bind. fold limit' claim' t1. destruct fs as [|[e|] fs]; simpl.
  - by exists taken.
  - left. eauto.
  - unfold scanJobs. apply translate_exec_elim; simpl; [right|]; by exists taken.
Qed.

(** ** Leases *)

(** The job [id] runs under the lease of [w] until [T] at least, on its [a]th
    attempt. *)
Definition held (id w : string) (T a : Z) (t : list Job) : Prop :=
  ∃ j u, j ∈ t ∧ Job.ID j = id ∧ Job.Status j = StatusRunning ∧ Job.LeasedBy j = Some w
    ∧ Job.LeasedUntil j = Some u ∧ T ≤ u ∧ Job.Attempts j = a.

(** Operations of the others: none ends the job, and a heartbeat on it
    stretches the lease to [T] at least. *)
Definition respects (id : string) (T : Time) (o : op) (now : Time) : Prop :=
  now ≤ T ∧
  match o with
  | OpComplete i | OpFail i _ _ => i ≠ id
  | OpHeartbeat i _ ext => i = id → T ≤ now + visibilityInterval ext
  | _ => True
  end.

Lemma held_update p f id w T a t :
  (∀ j u, j ∈ t → Job.ID j = id → Job.Status j = StatusRunning → Job.LeasedUntil j = Some u →
     T ≤ u → p j = true →
     Job.ID (f j) = Job.ID j ∧ Job.Status (f j) = Job.Status j
     ∧ Job.LeasedBy (f j) = Job.LeasedBy j ∧ Job.Attempts (f j) = Job.Attempts j
     ∧ ∃ u', Job.LeasedUntil (f j) = Some u' ∧ T ≤ u') →
  held id w T a t → held id w T a (update_where p f t).
Proof.
  intros Hf (j & u & Hj & Hid & Hs & Hw & Hu & HT & Ha).
  destruct (p j) eqn:Ep.
  - destruct (Hf j u Hj Hid Hs Hu HT Ep) as (H1 & H2 & H3 & H4 & u' & H5 & H6).
    exists (f j), u'. rewrite H1, H2, H3, H4. split_and!; try done.
    apply elem_of_update_where. exists j. by rewrite Ep.
  - exists j, u. split_and!; try done. apply elem_of_update_where. exists j. by rewrite Ep.
Qed.

Lemma held_Dequeue id w T a locked q w' n vis now t :
  table_ok t → now ≤ T → held id w T a t →
  held id w T a (update_where (claimed (claim_ids locked q n now t)) (claim w' vis now) t).
Proof.
  intros Ht HT. apply held_update. intros j u Hj Hid Hs Hu Hle Hc.
  rewrite claimed_chosen in Hc by (done || apply Ht). bool_to_prop.
  apply chosen_sub in Hc as (_ & He & _). unfold eligible, status_eqb in He.
  rewrite Hs, Hu in He. destruct (_ =s? q); simpl in He; [|done]. bool_to_prop. lia.
Qed.

Lemma held_run_op id w T a o now t fs :
  table_ok t → respects id T o now → held id w T a t →
  held id w T a (tables_of (run_op o now (t, fs))).
Proof.
  intros Ht [HT Hr] Hh. destruct (run_op_tables o now t fs) as [->| ->]; [done|].
  destruct o; simpl in *.
  - destruct raw; [|done]. unfold insert_job. destruct (select _ t); [|done].
    destruct (_ =? 0); [|done]. destruct Hh as (j & u & ? & Hj). exists j, u.
    split; [|done]. simpl. by apply elem_of_app; left.
  - by apply held_Dequeue.
  - apply held_update; [|done]. unfold has_id. intros j u Hj Hid ? ? ? E. by bool_to_prop; subst.
  - apply held_update; [|done]. unfold has_id. intros j u Hj Hid ? ? ? E. by bool_to_prop; subst.
  - apply held_update; [|done]. unfold leased_to, has_id. intros j u Hj Hid ? ? ? E.
    bool_to_prop. subst. simpl. split_and!; eauto.
  - destruct Hh as (j & u & Hj & Hid & Hs & Hh). exists j, u. split_and!; try apply Hh; try done.
    apply elem_of_delete_where. unfold purgeable, status_eqb. by rewrite Hs.
Qed.

(** C2: leases are exclusive.  While a job runs under an unexpired lease, no
    sequence of operations of the other producers and workers, in any order and
    with any statement failures, takes it away: until its holder completes or
    fails it, or lets the lease pass, it keeps running under the same worker
    with the same attempt, so no poll has claimed it again. *)
Theorem lease_exclusive id w T a l t :
  table_ok t → held id w T a t →
  Forall (λ '(o, now, _), respects id T o now) l →
  held id w T a (run l t).
Proof.
  revert t. induction l as [|[[o now] fs] l IH]; intros t Ht Hh Hl; [done|].
  apply Forall_cons in Hl as [Ho Hl]. simpl.
  apply IH; [by apply run_op_table_ok|by apply held_run_op|done].
Qed.

(** C28: the job table is always well formed: after any operations, in any
    order, at any times and with any statement failures, every row is leased
    exactly while it runs, a waiting job has an attempt left, a dead one has
    none, ids are unique, and so are the idempotency keys of each queue. *)
Theorem jobs_invariant st : reachable st → table_ok st.2.
Proof. apply reachable_table_ok. Qed.

(** ** Retries *)

(** Operations under which no lease expires: a poll only finds waiting jobs. *)
Definition prompt (o : op) (now : Time) (t : list Job) : Prop :=
  match o with
  | OpDequeue _ queue _ _ _ =>
      ∀ j, j ∈ t → eligible queue now j = true → Job.Status j = StatusPending
  | _ => True
  end.

Inductive prompt_step : list Job → list Job → Prop :=
| prompt_op o now t fs : prompt o now t → prompt_step t (tables_of (run_op o now (t, fs))).

Definition within_budget (j : Job) : Prop := Job.Attempts j ≤ Job.MaxAttempts j.

Lemma effect_within_budget o now t :
  table_ok t → prompt o now t → Forall within_budget t → Forall within_budget (effect o now t).
Proof.
  intros Ht Hp Hb. destruct o; simpl in *; try by apply Forall_update_where.
  - case_match; [|done]. unfold insert_job. destruct (select _ t); [|done].
    destruct (_ =? 0); [|done]. simpl. rewrite Forall_app, Forall_singleton.
    split; [done|]. unfold within_budget; simpl. pose proof (maxAttempts_pos opts). lia.
  - apply Forall_update_where; [|done]. intros j Hj Hc _. unfold within_budget; simpl.
    rewrite claimed_chosen in Hc by (done || apply Ht). bool_to_prop.
    apply chosen_sub in Hc as (_ & He & _). specialize (Hp j Hj He).
    destruct Ht as [Hrows _ _]. rewrite Forall_forall in Hrows.
    pose proof (ok_pending _ (Hrows j Hj) Hp). lia.
  - by apply Forall_delete_where.
Qed.

(** The retry budget holds: as long as no lease runs out (every poll finds
    waiting jobs only), no job is ever attempted more than [max_attempts]
    times, whatever the operations and their failures. *)
Theorem attempts_within_budget t :
  rtc prompt_step [] t → Forall within_budget t.
Proof.
  intros H. remember [] as t0 eqn:E.
  assert (table_ok t0 ∧ Forall within_budget t0) as [H0 H1]
    by (subst; split; [split; constructor|constructor]).
  clear E. induction H as [|t0 t1 t Hstep _ IH]; [done|]. destruct Hstep as [o now t0 fs Hp].
  apply IH; [by apply run_op_table_ok|].
  destruct (run_op_tables o now t0 fs) as [->| ->]; [done|]. by apply effect_within_budget.
Qed.
End facts.

(** ** Witnesses *)

Definition held_job : Job :=
  {| Job.ID := "j1"; Job.Queue := "q"; Job.Type_ := "mail"; Job.Payload := "{}"; Job.Priority := 0;
     Job.Status := StatusRunning; Job.Attempts := 1; Job.MaxAttempts := 3; Job.AvailableAt := 5;
     Job.LeasedUntil := Some 20; Job.LeasedBy := Some "w1"; Job.LastError := None;
     Job.IdempotencyKey := None; Job.CreatedAt := 5; Job.UpdatedAt := 5 |}.

Lemma held_job_table_ok : table_ok [held_job].
Proof.
  split; [|apply NoDup_singleton|constructor].
  constructor; [|constructor]. split; simpl; done || lia || eauto.
Qed.

#[local] Existing Instance strict_driver.
#[local] Existing Instance insertion_sorter.

Definition mail_opts : EnqueueOptions :=
  {| Priority := 3; Delay := 0; RunAt := 0; MaxAttempts := 0; IdempotencyKey := "k" |}.

Lemma lease_exclusive_witness :
  held "j1" "w1" 20 1
    (run [(OpDequeue (λ _, false) "q" "w2" 5 10, 10, []); (OpHeartbeat "j1" "w1" 10, 12, [Some ErrNoRows]);
          (OpEnqueue "j2" "q" "mail" (Ok "{}") mail_opts, 12, []);
          (OpPurge 0, 20, [])] [held_job]).
Proof.
  apply lease_exclusive.
  - apply held_job_table_ok.
  - exists held_job, 20. split_and!; try done. set_solver.
  - repeat (constructor; [split; simpl; try done; vm_compute; done || discriminate|]). constructor.
Defined.

Lemma jobs_invariant_witness :
  table_ok [new_row "j2" "q" "mail" "{}" mail_opts (Some "k") 12].
Proof.
  apply (jobs_invariant (12, _)). exists 12. apply rtc_once.
  apply (step_op (OpEnqueue "j2" "q" "mail" (Ok "{}") mail_opts) 12 [] []).
Defined.

Lemma Dequeue_claims_witness :
  NoDup (Job.ID <$> [held_job]) ∧
  match Dequeue (λ _, false) "q" "w2" 0 10 30 ([held_job], []) with
  | (Err _, (t', _)) => t' = [held_job]
  | (Ok js, (t', _)) => ∃ taken : list Job, Z.of_nat (length taken) = 1
                         ∧ js ≡ₚ claim "w2" 40 30 <$> taken
  end.
Proof.
  split; [apply NoDup_singleton|].
  pose proof (Dequeue_claims (λ _, false) "q" "w2" 0 10 30 [held_job] [] (NoDup_singleton _)) as H.
  vm_compute in H |- *. destruct H as (taken & (_ & _ & H1 & _) & H2). by exists taken.
Defined.

Lemma attempts_within_budget_witness :
  Forall within_budget [new_row "j2" "q" "mail" "{}" mail_opts (Some "k") 12].
Proof.
  apply attempts_within_budget. apply rtc_once.
  apply (prompt_op (OpEnqueue "j2" "q" "mail" (Ok "{}") mail_opts) 12 [] []). done.
Defined.
