(* ===== verification/Retries.v ===== *)
(** * The job queue: what happens to a failing job

    Rounds of the worker's loop over a table with no statement failures, and
    the behaviours of the queue that its comments do not promise. *)

From S2P Require Import Prelude GoLib Errors Postgres Sql Jobs JobsFacts.

Section facts.
Context `{D : Driver} `{So : Sorter}.
Context (handlers : gmap string (Job → outcome)) (backoff : Z → Duration).

(** The error a worker reports for a job, if any. *)
Definition report (job : Job) : option error :=
  match handlers !! Job.Type_ job with
  | None => Some (Platform (New CodeFailedPrecond
              ("jobs: no handler for type " +:+ quote (Job.Type_ job))))
  | Some handler => safeInvoke (handler job)
  end.

(** What a worker does to the row of the job. *)
Definition settle (job : Job) (now : Time) (j : Job) : Job :=
  match report job with
  | Some err => failed (ErrorString err) (backoff (Job.Attempts job)) now j
  | None => complete now j
  end.

Lemma process_tables job now t :
  process handlers backoff job now (t, [])
  = (Ok tt, (update_where (has_id (Job.ID job)) (settle job now) t, [])).
Proof.
  unfold process, settle, report. destruct (handlers !! _) as [h|].
  - destruct (safeInvoke (h job)) as [err|]; unfold ignore.
    + unfold Fail, translate; simpl. by destruct (select (has_id (Job.ID job)) _).
    + unfold Complete, translate, mbind, db_bind; simpl. by destruct (_ =? 0).
  - unfold ignore, Fail, translate; simpl. by destruct (select (has_id (Job.ID job)) _).
Qed.

Lemma work_tables l t :
  work handlers backoff l (t, [])
  = (Ok tt, (foldl (λ t '(job, now), update_where (has_id (Job.ID job)) (settle job now) t) t l, [])).
Proof.
  revert t. induction l as [|[job now] l IH]; intros t; [done|].
  simpl. unfold mbind, db_bind. by rewrite process_tables, IH.
Qed.

(** a worker always settles a job it ran, whatever the handler did: return,
    fail, panic, or not exist.  The bookkeeping reports no error to the loop,
    no other row changes, and the row of the job leaves the running state: it
    succeeded, or waits after the backoff, or is dead if that was its last
    attempt; the lease is given up in every case and the error recorded. *)
Theorem process_settles job now t :
  ∃ t', process handlers backoff job now (t, []) = (Ok tt, (t', []))
  ∧ length t' = length t
  ∧ ∀ i j, t !! i = Some j → ∃ j', t' !! i = Some j'
      ∧ (Job.ID j ≠ Job.ID job → j' = j)
      ∧ (Job.ID j = Job.ID job →
           Job.LeasedBy j' = None ∧ Job.LeasedUntil j' = None
           ∧ Job.LastError j' = ErrorString <$> report job
           ∧ match report job with
             | None => Job.Status j' = StatusSucceeded
             | Some _ =>
                 if Job.MaxAttempts j <=? Job.Attempts j then Job.Status j' = StatusDead
                 else Job.Status j' = StatusPending
                      ∧ Job.AvailableAt j' = now + Z.max 0 (backoff (Job.Attempts job))
             end).
Proof.
  eexists. split; [apply process_tables|]. split; [apply length_update_where|].
  intros i j Hj. exists (if has_id (Job.ID job) j then settle job now j else j).
  split; [unfold update_where; by rewrite list_lookup_fmap, Hj|].
  unfold has_id. destruct (_ =s? _) eqn:E; bool_to_prop; (split; [done|]); [intros _|done].
  unfold settle. destruct (report job); simpl; [|done].
  split_and!; try done. case_match; [done|]. split; [done|].
  unfold visibilityInterval. case_match; bool_to_prop; lia.
Qed.

(** ** Rounds of one worker on one job *)

Context (locked : string → bool) (cfg : WorkerConfig) (id : string).
(** The times of the polls and of the handlers' returns. *)
Context (T F : nat → Time).

Definition turn (i : nat) (t : list Job) : list Job :=
  tables_of (RunOnce handlers backoff locked cfg id (λ batch, (λ j, (j, F i)) <$> batch) (T i) (t, [])).

Fixpoint turns (n : nat) (t : list Job) : list Job :=
  match n with O => t | S n' => turn n' (turns n' t) end.

Lemma sort_slice_singleton {A} (less : A → A → bool) x : sort_slice less [x] = [x].
Proof. apply Permutation_singleton_r, sort_slice_perm. Qed.

Lemma claim_ids_one q n now j :
  locked (Job.ID j) = false →
  claim_ids locked q (if n <=? 0 then 1 else n) now [j]
  = if eligible q now j then [Job.ID j] else [].
Proof.
  intros Hl. unfold claim_ids, select. rewrite filter_cons, filter_nil, Hl, andb_true_r.
  destruct (eligible q now j) eqn:E.
  - rewrite decide_True by done. rewrite sort_slice_singleton.
    assert (∃ k, Z.to_nat (if n <=? 0 then 1 else n) = S k) as [k ->]; [|by simpl; rewrite take_nil].
    case_match; bool_to_prop; [by exists 0%nat|]. exists (Z.to_nat (n - 1)). lia.
  - rewrite decide_False by done.
    assert (sort_slice claim_before [] = []) as ->; [|by rewrite take_nil].
    apply Permutation_nil_r, sort_slice_perm.
Qed.

Lemma Dequeue_one q w n vis now j :
  locked (Job.ID j) = false →
  Dequeue locked q w n vis now ([j], [])
  = let j' := claim w (now + visibilityInterval vis) now j in
    if eligible q now j then (Ok [j'], ([j'], [])) else (Ok [], ([j], [])).
Proof.
  intros Hl. unfold Dequeue, scanJobs, mbind, db_bind, translate, exec, query. simpl. rewrite (claim_ids_one _ _ _ _ Hl).
  destruct (eligible q now j); unfold update_where, select, claimed; simpl.
  - rewrite !bool_decide_true by set_solver. rewrite filter_cons_True; [done|].
    apply bool_decide_true. set_solver.
  - done.
Qed.

Lemma turn_eligible i j :
  locked (Job.ID j) = false → eligible (WQueue cfg) (T i) j = true →
  let j' := claim id (T i + visibilityInterval (Visibility cfg)) (T i) j in
  turn i [j] = [settle j' (F i) j'].
Proof.
  intros Hl He j'. unfold turn, RunOnce, mbind, db_bind, attempt.
  rewrite (Dequeue_one _ _ _ _ _ _ Hl), He. cbv beta iota zeta. rewrite work_tables; simpl.
  unfold tables_of; simpl. unfold update_where, has_id; simpl. by rewrite String.eqb_refl.
Qed.

Lemma turn_idle i j :
  locked (Job.ID j) = false → eligible (WQueue cfg) (T i) j = false → turn i [j] = [j].
Proof.
  intros Hl He. unfold turn, RunOnce, mbind, db_bind, attempt.
  by rewrite (Dequeue_one _ _ _ _ _ _ Hl), He.
Qed.

(** After [n] turns: the row is [j'], attempted at most [MaxAttempts] times. *)
Record retried (j : Job) (n : nat) (j' : Job) : Prop := {
  rt_turns : turns n [j] = [j'];
  rt_id : Job.ID j' = Job.ID j;
  rt_attempts : Job.Attempts j' = Z.min (Job.Attempts j + Z.of_nat n) (Job.MaxAttempts j);
  rt_status : Job.Status j' = if Job.MaxAttempts j <=? Job.Attempts j + Z.of_nat n
                              then StatusDead else StatusPending;
  rt_max : Job.MaxAttempts j' = Job.MaxAttempts j;
  rt_type : Job.Type_ j' = Job.Type_ j;
  rt_queue : Job.Queue j' = Job.Queue j;
  rt_available : Job.Status j' = StatusPending → Job.AvailableAt j' ≤ T n;
}.

Section failing.
Context (j : Job) (Hl : locked (Job.ID j) = false) (Hq : Job.Queue j = WQueue cfg).
Context (Hp : Job.Status j = StatusPending) (Ha : Job.Attempts j < Job.MaxAttempts j).
Context (Hf : ∀ j', Job.Type_ j' = Job.Type_ j → report j' ≠ None).
Context (H0 : Job.AvailableAt j ≤ T 0).
Context (HT : ∀ i, F i + visibilityInterval (backoff (Job.Attempts j + Z.of_nat i + 1)) ≤ T (S i)).

Lemma retried_dead n j' :
  Job.MaxAttempts j ≤ Job.Attempts j + Z.of_nat n → retried j n j' → retried j (S n) j'.
Proof.
  intros E [Ht Hid Hat Hst Hmax Hty Hqu Hav].
  assert (Job.Status j' = StatusDead) as Hd by (rewrite Hst; case_match; bool_to_prop; done || lia).
  split; try done; [|lia| |by rewrite Hd].
  - simpl turns. rewrite Ht, turn_idle; [done|by rewrite Hid|].
    unfold eligible, status_eqb. rewrite Hd. by rewrite andb_false_r.
  - rewrite Hd. destruct (Z.leb_spec (Job.MaxAttempts j) (Job.Attempts j + Z.of_nat (S n))); [done|lia].
Qed.

Lemma retried_again n j' :
  Job.Attempts j + Z.of_nat n < Job.MaxAttempts j → retried j n j' → ∃ j'', retried j (S n) j''.
Proof.
  intros E [Ht Hid Hat Hst Hmax Hty Hqu Hav].
  assert (Job.Status j' = StatusPending) as Hd by (rewrite Hst; case_match; bool_to_prop; done || lia).
  set (jc := claim id (T n + visibilityInterval (Visibility cfg)) (T n) j').
  destruct (report jc) as [err|] eqn:Er; [|by destruct (Hf jc)].
  exists (settle jc (F n) jc). unfold settle. rewrite Er.
  split; simpl; rewrite ?Hat, ?Hmax; try done; try lia.
  - rewrite Ht, turn_eligible; [|by rewrite Hid|].
    + fold jc. unfold settle. rewrite Er. simpl. by rewrite Hat.
    + unfold eligible, status_eqb. rewrite Hd, Hqu, Hq, String.eqb_refl. simpl.
      specialize (Hav Hd). rewrite orb_true_iff, Z.leb_le. by left.
  - replace (Z.min _ _ + 1) with (Job.Attempts j + Z.of_nat (S n)) by lia. done.
  - replace (Z.min _ _ + 1) with (Job.Attempts j + Z.of_nat (S n)) by lia.
    destruct (Z.leb_spec (Job.MaxAttempts j) (Job.Attempts j + Z.of_nat (S n))); [done|].
    intros _.
    etrans; [|apply (HT n)]. apply Z.eq_le_incl. do 3 f_equal. lia.
Qed.

Lemma retried_turns n : ∃ j', retried j n j'.
Proof.
  induction n as [|n [j' IH]].
  - exists j. split; try done; rewrite ?Z.add_0_r; [lia|]. case_match; bool_to_prop; [lia|done].
  - destruct (Z.le_gt_cases (Job.MaxAttempts j) (Job.Attempts j + Z.of_nat n)).
    + exists j'. by apply retried_dead.
    + eapply retried_again; [lia|done].
Qed.
End failing.

(** C17: a job that always fails is retried exactly [max_attempts] times and
    then dead-lettered.  The table holds one job, waiting, not locked, with an
    attempt left and due at the first turn; its handler always fails (it
    returns an error, panics, or no handler is registered); one worker polls its
    queue, turn after turn, no statement fails, and each poll comes when the
    backoff of the last failure has passed.  Then after [n] turns the job has
    been attempted [n] times, or [max_attempts] times if that is less; it waits
    for a retry as long as an attempt is left, and is dead from the last one
    on.  A job of an unregistered type is thus retried like any other, though
    [process] says that it is dead-lettered quickly. *)
Theorem failing_job_dead (j : Job) (n : nat) :
  locked (Job.ID j) = false → Job.Queue j = WQueue cfg →
  Job.Status j = StatusPending → Job.Attempts j < Job.MaxAttempts j →
  (∀ j', Job.Type_ j' = Job.Type_ j → report j' ≠ None) →
  Job.AvailableAt j ≤ T 0 →
  (∀ i, F i + visibilityInterval (backoff (Job.Attempts j + Z.of_nat i + 1)) ≤ T (S i)) →
  ∃ j', turns n [j] = [j'] ∧ Job.ID j' = Job.ID j
    ∧ Job.Attempts j' = Z.min (Job.Attempts j + Z.of_nat n) (Job.MaxAttempts j)
    ∧ Job.Status j' = if Job.MaxAttempts j <=? Job.Attempts j + Z.of_nat n
                      then StatusDead else StatusPending.
Proof.
  intros Hl Hq Hp Ha Hf H0 HT.
  destruct (retried_turns j Hl Hq Hp Ha Hf H0 HT n) as [j' []]. by exists j'.
Qed.
End facts.

(** ** Witnesses and what the comments do not say *)

Definition some_job : Job :=
  {| Job.ID := "j1"; Job.Queue := "q"; Job.Type_ := "mail"; Job.Payload := "{}"; Job.Priority := 0;
     Job.Status := StatusPending; Job.Attempts := 0; Job.MaxAttempts := 2; Job.AvailableAt := 5;
     Job.LeasedUntil := None; Job.LeasedBy := None; Job.LastError := None;
     Job.IdempotencyKey := None; Job.CreatedAt := 5; Job.UpdatedAt := 5 |}.

Definition some_cfg : WorkerConfig := withDefaults
  {| WQueue := "q"; Concurrency := 0; BatchSize := 0; PollInterval := 0; Visibility := 10;
     HeartbeatInterval := 0 |}.

Lemma failing_job_dead_witness :
  ∃ j', @turns strict_driver insertion_sorter ∅ (λ _, 1) (λ _, false) some_cfg "w"
          (λ i, 10 + 5 * Z.of_nat i) (λ i, 12 + 5 * Z.of_nat i) 3 [some_job] = [j']
    ∧ Job.ID j' = "j1" ∧ Job.Attempts j' = 2 ∧ Job.Status j' = StatusDead.
Proof.
  apply (@failing_job_dead strict_driver insertion_sorter ∅ (λ _, 1) (λ _, false) some_cfg "w"
           (λ i, 10 + 5 * Z.of_nat i) (λ i, 12 + 5 * Z.of_nat i) some_job 3);
    [done|done|done|done|done|vm_compute; discriminate|].
  intros i. unfold visibilityInterval. simpl. lia.
Defined.

#[local] Existing Instance strict_driver.
#[local] Existing Instance insertion_sorter.

(** [Complete] and [Fail] do not look at the lease or the status: a worker that
    lost its lease undoes the success of the one that took over, and the job
    runs again. *)
Example stale_failure_revives :
  Job.Status <$> run
    [(OpDequeue (λ _, false) "q" "w1" 1 10, 10, []); (OpDequeue (λ _, false) "q" "w2" 1 10, 30, []);
     (OpComplete "j1", 35, []); (OpFail "j1" None 0, 36, [])]
    [{| Job.ID := "j1"; Job.Queue := "q"; Job.Type_ := "mail"; Job.Payload := "{}"; Job.Priority := 0;
        Job.Status := StatusPending; Job.Attempts := 0; Job.MaxAttempts := 3; Job.AvailableAt := 5;
        Job.LeasedUntil := None; Job.LeasedBy := None; Job.LastError := None;
        Job.IdempotencyKey := None; Job.CreatedAt := 5; Job.UpdatedAt := 5 |}] = [StatusPending].
Proof. vm_compute. reflexivity. Qed.

(** A poll takes over an expired lease whatever the attempts: a job whose
    workers keep dying is attempted more than [max_attempts] times. *)
Example expired_lease_exceeds_budget :
  (λ j, (Job.Attempts j, Job.MaxAttempts j)) <$> run
    [(OpDequeue (λ _, false) "q" "w1" 1 10, 10, []); (OpDequeue (λ _, false) "q" "w2" 1 10, 30, []);
     (OpDequeue (λ _, false) "q" "w3" 1 10, 50, [])] [some_job] = [(3, 2)].
Proof. vm_compute. reflexivity. Qed.
