(* ===== verification/Placement.v ===== *)
(** * Scheduler data (packages/application/scheduler/model)

    JSON documents are the texts [encoding/json] gives; a heartbeat carries its
    maps already encoded. *)

From stdpp Require Import pretty.
From S2P Require Import Prelude GoLib.

Abbreviation HealthStatus := string.
Definition HealthHealthy : HealthStatus := "healthy".
Definition HealthDegraded : HealthStatus := "degraded".
Definition HealthOffline : HealthStatus := "offline".

Abbreviation ReservationStatus := string.
Definition ReservationActive : ReservationStatus := "active".
Definition ReservationReleased : ReservationStatus := "released".
Definition ReservationExpired : ReservationStatus := "expired".

Module Server.
Record t := mk {
  ID : string;
  NodeID : string;
  Hostname : string;
  AdvertiseHost : string;
  AgentURL : string;
  Region : string;
  AvailabilityZone : string;
  InstanceType : string;
  Architecture : string;
  OS : string;
  KernelVersion : string;
  DockerVersion : string;
  CPUCores : f64;
  MemoryMB : Z;
  DiskGB : Z;
  GPUCount : Z;
  MaxContainers : Z;
  ContainerCount : Z;
  ReservedCPU : f64;
  ReservedMemoryMB : Z;
  ReservedDiskGB : Z;
  Health : HealthStatus;
  Labels : string;
  Metadata : string;
  LastHeartbeat : option Time;
  MissedBeats : Z;
  CreatedAt : Time;
  UpdatedAt : Time;
}.
End Server.
Abbreviation Server := Server.t.

(** Capacity left on a server. *)
Definition AvailableCPU (s : Server) (overcommit : f64) : f64 :=
  let capacity := (Server.CPUCores s * overcommit)%f64 in
  let avail := (capacity - Server.ReservedCPU s)%f64 in
  if (avail <? f0)%f64 then f0 else avail.

Definition memory_capacity (s : Server) (overcommit : f64) : Z :=
  int64_of_f64 (f64_of_Z (Server.MemoryMB s) * overcommit)%f64.

Definition AvailableMemoryMB (s : Server) (overcommit : f64) : Z :=
  let avail := wrap64 (memory_capacity s overcommit - Server.ReservedMemoryMB s) in
  if avail <? 0 then 0 else avail.

Definition AvailableSlots (s : Server) : Z :=
  let avail := wrap64 (Server.MaxContainers s - Server.ContainerCount s) in
  if avail <? 0 then 0 else avail.

Module Reservation.
Record t := mk {
  ID : string;
  OrgID : string;
  ProjectID : string;
  DeploymentID : string;
  ServerID : string;
  NodeID : string;
  Host : string;
  Port : Z;
  CPUMillicores : Z;
  MemoryMB : Z;
  Algorithm : string;
  Status : ReservationStatus;
  ExpiresAt : Time;
  CorrelationID : string;
  Metadata : string;
  CreatedAt : Time;
  UpdatedAt : Time;
}.
End Reservation.
Abbreviation Reservation := Reservation.t.

Module PlacementRequest.
Record t := mk {
  OrgID : string;
  ProjectID : string;
  DeploymentID : string;
  Region : string;
  AvailabilityZone : string;
  CPUMillicores : Z;
  MemoryMB : Z;
  PortMin : Z;
  PortMax : Z;
  GPURequired : bool;
  Algorithm : string;
  Labels : gmap string string;
  CorrelationID : string;
}.
End PlacementRequest.
Abbreviation PlacementRequest := PlacementRequest.t.

Module PlacementResult.
Record t := mk {
  Host : string;
  Port : Z;
  NodeID : string;
  Region : string;
  AgentURL : string;
  Reserved : bool;
}.
End PlacementResult.
Abbreviation PlacementResult := PlacementResult.t.

Module HeartbeatPayload.
Record t := mk {
  NodeID : string;
  Hostname : string;
  AdvertiseHost : string;
  AgentURL : string;
  Region : string;
  AvailabilityZone : string;
  InstanceType : string;
  Architecture : string;
  OS : string;
  KernelVersion : string;
  DockerVersion : string;
  CPUCores : f64;
  MemoryMB : Z;
  DiskGB : Z;
  GPUCount : Z;
  MaxContainers : Z;
  ContainerCount : Z;
  Health : HealthStatus;
  Labels : string;
  Metadata : string;
}.
End HeartbeatPayload.
Abbreviation HeartbeatPayload := HeartbeatPayload.t.

(** * Placement algorithms (packages/application/scheduler/placement)

    The interface [Placer] is a record of a name and a selection; [Registry]
    is the table of the fifteen placers.  Scores are binary64.  Port numbers
    are far from the bounds of [int], so port arithmetic is on [Z]; Go's [%]
    on a non-negative length is [mod]. *)

Import PlacementRequest.

Definition FirstFit := "first_fit".
Definition BestFit := "best_fit".
Definition WorstFit := "worst_fit".
Definition FirstFitDecreasing := "first_fit_decreasing".
Definition BestFitDecreasing := "best_fit_decreasing".
Definition LeastLoaded := "least_loaded".
Definition MostLoaded := "most_loaded".
Definition Balanced := "balanced".
Definition Affinity := "affinity".
Definition AntiAffinity := "anti_affinity".
Definition RegionAware := "region_aware".
Definition AZAware := "az_aware".
Definition GPU := "gpu".
Definition WarmNode := "warm_node".
Definition ColdNode := "cold_node".

Definition cpuNeed (req : PlacementRequest) : f64 := (f64_of_Z (CPUMillicores req) / f1000)%f64.

Definition fits (s : Server) (req : PlacementRequest) (overcommit : f64) : bool :=
  if (AvailableCPU s overcommit <? cpuNeed req)%f64 then false
  else if AvailableMemoryMB s overcommit <? MemoryMB req then false
  else if AvailableSlots s <=? 0 then false
  else if GPURequired req && (Server.GPUCount s <=? 0) then false
  else (Server.Health s =s? HealthHealthy) || (Server.Health s =s? HealthDegraded).

(** The bounds [pickPort] settles on. *)
Definition port_range (req : PlacementRequest) : Z * Z :=
  let min := if PortMin req <=? 0 then 30000 else PortMin req in
  let max := if PortMax req <=? min then min + 10000 else PortMax req in
  (min, max).

Definition port_key (s : Server) (port : Z) : string :=
  Server.NodeID s +:+ ":" +:+ pretty port.

(** The loop, [fuel] iterations from the [i]th on. *)
Fixpoint pickPort_loop (s : Server) (used : gmap string bool) (min max base i : Z) (fuel : nat) : Z :=
  match fuel with
  | O => base
  | S fuel' =>
      let port := base + i in
      let port := if max <? port then min + (port - max) else port in
      if negb (default false (used !! port_key s port)) then port
      else pickPort_loop s used min max base (i + 1) fuel'
  end.

Definition pickPort (s : Server) (req : PlacementRequest) (used : gmap string bool) : Z :=
  let '(min, max) := port_range req in
  let base := min + Z.of_nat (String.length (DeploymentID req)) mod (max - min + 1) in
  pickPort_loop s used min max base 0 100.

(** The interface: a name, and [Select]'s [(server, port, ok)]. *)
Record Placer := {
  Name : string;
  Select : list Server → PlacementRequest → f64 → option (Server * Z);
}.

Definition found (req : PlacementRequest) (s : Server) : Server * Z := (s, pickPort s req ∅).

Fixpoint first_fit (servers : list Server) (req : PlacementRequest) (overcommit : f64)
    : option (Server * Z) :=
  match servers with
  | [] => None
  | s :: rest =>
      if negb (fits s req overcommit) then first_fit rest req overcommit
      else Some (found req s)
  end.

Definition FirstFitPlacer : Placer := {| Name := FirstFit; Select := first_fit |}.

Definition waste (req : PlacementRequest) (overcommit : f64) (s : Server) : f64 :=
  (AvailableCPU s overcommit - cpuNeed req)%f64.

(** The loops of best and worst fit; the accumulator is [best], [bestWaste]. *)
Definition fit_step (better : f64 → f64 → bool) (req : PlacementRequest) (overcommit : f64)
    (acc : option Server * f64) (s : Server) : option Server * f64 :=
  let '(best, bestWaste) := acc in
  if negb (fits s req overcommit) then (best, bestWaste)
  else
    let w := waste req overcommit s in
    if better w bestWaste then (Some s, w) else (best, bestWaste).

Definition best_fit (servers : list Server) (req : PlacementRequest) (overcommit : f64)
    : option (Server * Z) :=
  let '(best, _) := foldl (fit_step fltb req overcommit) (None, MaxFloat64) servers in
  found req <$> best.

Definition BestFitPlacer : Placer := {| Name := BestFit; Select := best_fit |}.

Definition WorstFitPlacer : Placer := {|
  Name := WorstFit;
  Select servers req overcommit :=
    let '(best, _) := foldl (fit_step fgtb req overcommit) (None, fm1) servers in
    found req <$> best |}.

Definition loadScore (s : Server) (overcommit : f64) : f64 :=
  let cpuCap := (Server.CPUCores s * overcommit)%f64 in
  if (cpuCap <=? f0)%f64 then f1
  else
    let cpuLoad := (Server.ReservedCPU s / cpuCap)%f64 in
    let memCap := (f64_of_Z (Server.MemoryMB s) * overcommit)%f64 in
    let memLoad := if (memCap >? f0)%f64
                   then (f64_of_Z (Server.ReservedMemoryMB s) / memCap)%f64 else f0 in
    let slotLoad := if 0 <? Server.MaxContainers s
                    then (f64_of_Z (Server.ContainerCount s) / f64_of_Z (Server.MaxContainers s))%f64
                    else f0 in
    ((cpuLoad + memLoad + slotLoad) / f3)%f64.

(** [filtered], used when it is not empty. *)
Definition prefer (p : Server → bool) (servers : list Server) : list Server :=
  let filtered := filter (λ s, p s = true) servers in
  if 0 <? Z.of_nat (length filtered) then filtered else servers.

Section placers.
Context `{So : Sorter}.

Definition more_cpu (overcommit : f64) (a b : Server) : bool :=
  (AvailableCPU a overcommit >? AvailableCPU b overcommit)%f64.

Definition FirstFitDecreasingPlacer : Placer := {|
  Name := FirstFitDecreasing;
  Select servers req overcommit :=
    Select FirstFitPlacer (sort_slice (more_cpu overcommit) servers) req overcommit |}.

Definition BestFitDecreasingPlacer : Placer := {|
  Name := BestFitDecreasing;
  Select servers req overcommit :=
    Select BestFitPlacer (sort_slice (more_cpu overcommit) servers) req overcommit |}.

Definition less_loaded (overcommit : f64) (a b : Server) : bool :=
  (loadScore a overcommit <? loadScore b overcommit)%f64.

Definition LeastLoadedPlacer : Placer := {|
  Name := LeastLoaded;
  Select servers req overcommit :=
    Select FirstFitPlacer (sort_slice (less_loaded overcommit) servers) req overcommit |}.

Definition MostLoadedPlacer : Placer := {|
  Name := MostLoaded;
  Select servers req overcommit :=
    Select FirstFitPlacer (sort_slice (λ a b, less_loaded overcommit b a) servers) req overcommit |}.

Definition BalancedPlacer : Placer := {| Name := Balanced; Select := Select LeastLoadedPlacer |}.

Definition AffinityPlacer : Placer := {|
  Name := Affinity;
  Select servers req overcommit :=
    let servers :=
      match Labels req !! "affinity" with
      | Some label =>
          if negb (label =s? "")
          then prefer (λ s, (Server.Region s =s? label) || (Server.NodeID s =s? label)) servers
          else servers
      | None => servers
      end in
    Select FirstFitPlacer servers req overcommit |}.

Definition AntiAffinityPlacer : Placer := {|
  Name := AntiAffinity;
  Select servers req overcommit :=
    let servers :=
      match Labels req !! "anti_affinity" with
      | Some label =>
          if negb (label =s? "")
          then prefer (λ s, negb (Server.Region s =s? label) && negb (Server.NodeID s =s? label)) servers
          else servers
      | None => servers
      end in
    Select FirstFitPlacer servers req overcommit |}.

Definition RegionAwarePlacer : Placer := {|
  Name := RegionAware;
  Select servers req overcommit :=
    let servers := if negb (Region req =s? "")
                   then prefer (λ s, Server.Region s =s? Region req) servers else servers in
    Select FirstFitPlacer servers req overcommit |}.

Definition AZAwarePlacer : Placer := {|
  Name := AZAware;
  Select servers req overcommit :=
    let servers := if negb (AvailabilityZone req =s? "")
                   then prefer (λ s, Server.AvailabilityZone s =s? AvailabilityZone req) servers
                   else servers in
    Select RegionAwarePlacer servers req overcommit |}.

Definition require_gpu (req : PlacementRequest) : PlacementRequest :=
  {| OrgID := OrgID req; ProjectID := ProjectID req; DeploymentID := DeploymentID req;
     Region := Region req; AvailabilityZone := AvailabilityZone req;
     CPUMillicores := CPUMillicores req; MemoryMB := MemoryMB req; PortMin := PortMin req;
     PortMax := PortMax req; GPURequired := true; Algorithm := Algorithm req;
     Labels := Labels req; CorrelationID := CorrelationID req |}.

Definition GPUPlacer : Placer := {|
  Name := GPU;
  Select servers req overcommit :=
    let filtered := filter (λ s, (0 <? Server.GPUCount s) = true) servers in
    if Z.of_nat (length filtered) =? 0 then None
    else Select FirstFitPlacer filtered (require_gpu req) overcommit |}.

Definition WarmNodePlacer : Placer := {|
  Name := WarmNode;
  Select servers req overcommit :=
    Select FirstFitPlacer
      (sort_slice (λ a b, Server.ContainerCount b <? Server.ContainerCount a) servers) req overcommit |}.

Definition ColdNodePlacer : Placer := {|
  Name := ColdNode;
  Select servers req overcommit :=
    Select FirstFitPlacer
      (sort_slice (λ a b, Server.ContainerCount a <? Server.ContainerCount b) servers) req overcommit |}.

(** ** The registry *)

Record Registry := { placers : gmap string Placer; defaultPlacer : Placer }.

Definition base_placers : list Placer :=
  [FirstFitPlacer; BestFitPlacer; WorstFitPlacer; FirstFitDecreasingPlacer;
   BestFitDecreasingPlacer; LeastLoadedPlacer; MostLoadedPlacer; BalancedPlacer;
   AffinityPlacer; AntiAffinityPlacer; RegionAwarePlacer; AZAwarePlacer; GPUPlacer;
   WarmNodePlacer; ColdNodePlacer].

Definition NewRegistry (defaultName : string) : Registry :=
  let m := foldl (λ m p, <[Name p := p]> m) ∅ base_placers in
  let def := default LeastLoadedPlacer (m !! LeastLoaded) in
  {| placers := m; defaultPlacer := match m !! defaultName with Some p => p | None => def end |}.

Definition Get (r : Registry) (name : string) : Placer :=
  match placers r !! name with Some p => p | None => defaultPlacer r end.
End placers.
