(* ===== verification/PlacementFacts.v ===== *)
(** * Placement: soundness, completeness and optimality of the placers *)

From S2P Require Import Prelude GoLib Placement.

Import PlacementRequest.

(** ** Ports *)

Lemma port_range_lt req : (port_range req).1 < (port_range req).2.
Proof. unfold port_range; simpl. repeat case_match; bool_to_prop; lia. Qed.

Lemma port_base_range req :
  let '(min, max) := port_range req in
  min ≤ min + Z.of_nat (String.length (DeploymentID req)) mod (max - min + 1) ≤ max.
Proof.
  pose proof (port_range_lt req) as H. destruct (port_range req) as [min max]; simpl in *.
  pose proof (Z.mod_pos_bound (Z.of_nat (String.length (DeploymentID req))) (max - min + 1)). lia.
Qed.

(** With no port known to be in use, the base port is picked. *)
Lemma pickPort_empty s req :
  pickPort s req ∅
  = let '(min, max) := port_range req in
    min + Z.of_nat (String.length (DeploymentID req)) mod (max - min + 1).
Proof.
  pose proof (port_base_range req) as H. unfold pickPort.
  destruct (port_range req) as [min max]. cbn [pickPort_loop]. rewrite Z.add_0_r.
  destruct (max <? _) eqn:E; bool_to_prop; [lia|]. by rewrite lookup_empty.
Qed.

Lemma pickPort_loop_range s used min max base i fuel :
  min ≤ base ≤ max → 0 ≤ i → i + Z.of_nat fuel ≤ max - min + 1 →
  min ≤ pickPort_loop s used min max base i fuel ≤ max.
Proof.
  revert i. induction fuel as [|fuel IH]; intros i Hb Hi Hf; [done|]. simpl.
  destruct (negb _); [|apply IH; lia]. case_match; bool_to_prop; lia.
Qed.

(** A port the loop settles on is free, unless all tries found a used one. *)
Lemma pickPort_loop_free s used min max base i fuel :
  let port k := if max <? base + k then min + (base + k - max) else base + k in
  let free p := negb (default false (used !! port_key s p)) in
  match pickPort_loop s used min max base i fuel with
  | p => free p = true ∨ ∀ k, i ≤ k < i + Z.of_nat fuel → free (port k) = false
  end.
Proof.
  intros port free. revert i. induction fuel as [|fuel IH]; intros i; [right; lia|]. simpl.
  fold (port i). destruct (negb (default false (used !! port_key s (port i)))) eqn:E; [by left|].
  destruct (IH (i + 1)) as [H|H]; [by left|]. right. intros k Hk.
  destruct (decide (k = i)) as [->|]; [done|]. apply H. lia.
Qed.

(** ** First fit *)

Lemma first_fit_Some l req oc s p :
  first_fit l req oc = Some (s, p) ↔
  p = pickPort s req ∅ ∧ fits s req oc = true ∧
  ∃ l1 l2, l = l1 ++ s :: l2 ∧ Forall (λ s', fits s' req oc = false) l1.
Proof.
  induction l as [|x l IH]; simpl.
  - split; [done|]. by intros (_ & _ & [] & ? & ? & _).
  - destruct (fits x req oc) eqn:E; simpl.
    + split.
      * unfold found. intros [= -> <-]. split_and!; try done. by exists [], l.
      * intros (-> & Hs & l1 & l2 & Hl & H1). destruct l1 as [|y l1]; simplify_eq/=; [done|].
        apply Forall_cons in H1 as [H1 _]. by rewrite H1 in E.
    + rewrite IH. split; intros (-> & Hs & l1 & l2 & Hl & H1); (split_and!; [done|done|]).
      * exists (x :: l1), l2. by split; [subst|constructor].
      * destruct l1 as [|y l1]; simplify_eq/=; [congruence|].
        apply Forall_cons in H1 as [_ H1]. by exists l1, l2.
Qed.

Lemma first_fit_None l req oc :
  first_fit l req oc = None ↔ ∀ s, s ∈ l → fits s req oc = false.
Proof.
  induction l as [|x l IH]; simpl; [split; [set_solver|done]|].
  destruct (fits x req oc) eqn:E; simpl.
  - split; [done|]. intros H. rewrite H in E; [done|set_solver].
  - rewrite IH. split.
    + intros H s [->|Hs]%elem_of_cons; [done|auto].
    + intros H s Hs. apply H. set_solver.
Qed.

(** ** Best and worst fit *)

Section fold.
Context (better : f64 → f64 → bool) (req : PlacementRequest) (oc init : f64).
Context (swo_better : strict_weak_on num better).

Lemma better_irrefl w : num w → better w w = false.
Proof.
  intros Hw. destruct (better w w) eqn:E; [|done].
  by rewrite (swo_asym _ _ swo_better w w Hw Hw E) in E.
Qed.

(** What the loop has established after [l]. *)
Definition fold_inv (l : list Server) (acc : option Server * f64) : Prop :=
  num acc.2
  ∧ (∀ s, s ∈ l → fits s req oc = true → better (waste req oc s) acc.2 = false)
  ∧ better init acc.2 = false
  ∧ match acc.1 with
    | Some b => b ∈ l ∧ fits b req oc = true ∧ acc.2 = waste req oc b
    | None => acc.2 = init
    end.

Lemma fold_inv_snoc l acc s :
  num init → (fits s req oc = true → num (waste req oc s)) →
  Forall (λ s, fits s req oc = true → num (waste req oc s)) l →
  fold_inv l acc → fold_inv (l ++ [s]) (fit_step better req oc acc s).
Proof.
  intros Hi Hs Hl (Hn & Hall & Hinit & Hacc). destruct acc as [b w]. simpl in *.
  unfold fold_inv. rewrite Forall_forall in Hl.
  destruct (fits s req oc) eqn:Ef; simpl; [destruct (better (waste req oc s) w) eqn:Eb; simpl|].
  - pose proof (swo_asym _ _ swo_better _ _ (Hs eq_refl) Hn Eb) as Hws.
    split_and!; [by apply Hs| | | by apply elem_of_app; right; left|done|done].
    + intros s' [Hs'| ->%list_elem_of_singleton]%elem_of_app Hf'; [|by apply better_irrefl, Hs].
      apply (swo_ntrans _ _ swo_better _ w); auto.
    + apply (swo_ntrans _ _ swo_better _ w); auto.
  - split_and!; [done| |done|].
    + intros s' [Hs'| ->%list_elem_of_singleton]%elem_of_app Hf'; auto.
    + destruct b; [|done]. destruct Hacc as (? & ? & ?). split; [by apply elem_of_app; left|done].
  - split_and!; [done| |done|].
    + intros s' [Hs'| ->%list_elem_of_singleton]%elem_of_app Hf'; [auto|congruence].
    + destruct b; [|done]. destruct Hacc as (? & ? & ?). split; [by apply elem_of_app; left|done].
Qed.

Lemma fold_inv_all l :
  num init → Forall (λ s, fits s req oc = true → num (waste req oc s)) l →
  fold_inv l (foldl (fit_step better req oc) (None, init) l).
Proof.
  intros Hi. induction l as [|s l IH] using rev_ind; intros Hl.
  - unfold fold_inv. simpl. split_and!; [done|set_solver|by apply better_irrefl|done].
  - apply Forall_app in Hl as [Hl Hs]. apply Forall_inv in Hs.
    rewrite foldl_snoc. apply fold_inv_snoc; [exact Hi|exact Hs|exact Hl|exact (IH Hl)].
Qed.
End fold.

(** The server the loop ends with is one of those that fit, even with NaNs. *)
Lemma fold_sound better req oc init l b w :
  foldl (fit_step better req oc) (None, init) l = (Some b, w) →
  b ∈ l ∧ fits b req oc = true.
Proof.
  revert b w. induction l as [|s l IH] using rev_ind; intros b w; [done|].
  rewrite foldl_snoc. destruct (foldl _ _ l) as [b' w'] eqn:E. simpl.
  destruct (fits s req oc) eqn:Ef; simpl.
  - destruct (better _ _); intros [= -> <-]; [set_solver|]. destruct (IH b w' eq_refl). set_solver.
  - intros [= -> <-]. destruct (IH b w' eq_refl). set_solver.
Qed.

(** ** The placers *)

(** What every placer promises to the engine: the server it selects is one it
    was given, fits the request under the overcommit ratio, and the port is the
    deterministic one. *)
Class SoundPlacer (p : Placer) :=
  select_sound l req oc s port :
    Select p l req oc = Some (s, port) →
    s ∈ l ∧ fits s req oc = true ∧ port = pickPort s req ∅.

(** What a placer without a filter also promises: it selects if it can. *)
Class CompletePlacer (p : Placer) :=
  select_complete l req oc :
    Select p l req oc = None → ∀ s, s ∈ l → fits s req oc = false.

#[export] Instance FirstFit_sound : SoundPlacer FirstFitPlacer.
Proof.
  intros l req oc s port (-> & Hf & l1 & l2 & -> & _)%first_fit_Some.
  split_and!; try done. apply elem_of_app. right. apply elem_of_cons. by left.
Qed.

#[export] Instance FirstFit_complete : CompletePlacer FirstFitPlacer.
Proof. intros l req oc H. by apply first_fit_None. Qed.

(** Selecting from part of the list is sound. *)
Lemma sound_sub p (f : list Server → list Server) l req oc s port :
  SoundPlacer p → (∀ x, x ∈ f l → x ∈ l) →
  Select p (f l) req oc = Some (s, port) →
  s ∈ l ∧ fits s req oc = true ∧ port = pickPort s req ∅.
Proof. intros Hp Hf H. apply Hp in H as (? & ? & ?). auto. Qed.

Lemma elem_of_prefer p l s : s ∈ prefer p l → s ∈ l.
Proof. unfold prefer. case_match; [|done]. by intros [_ ?]%(list_elem_of_filter (λ s, p s = true)). Qed.

Lemma fits_require_gpu s req oc : fits s (require_gpu req) oc = true → fits s req oc = true.
Proof.
  unfold fits, cpuNeed, require_gpu; simpl. repeat case_match; try done; by bool_to_prop.
Qed.

#[export] Instance BestFit_sound : SoundPlacer BestFitPlacer.
Proof.
  intros l req oc s port. simpl. unfold best_fit.
  destruct (foldl _ _ l) as [[b|] w] eqn:E; [|done]. intros [= <- <-].
  by apply fold_sound in E as [? ?].
Qed.

#[export] Instance WorstFit_sound : SoundPlacer WorstFitPlacer.
Proof.
  intros l req oc s port. simpl.
  destruct (foldl _ _ l) as [[b|] w] eqn:E; [|done]. intros [= <- <-].
  by apply fold_sound in E as [? ?].
Qed.

#[export] Instance GPU_sound : SoundPlacer GPUPlacer.
Proof.
  intros l req oc s port. unfold GPUPlacer. cbn -[FirstFitPlacer]. case_match; [done|].
  intros (Hs & Hf & ->)%FirstFit_sound.
  apply (list_elem_of_filter (λ s, (0 <? Server.GPUCount s) = true)) in Hs as [_ Hs].
  split_and!; [done|by apply fits_require_gpu|done].
Qed.

Section facts.
Context `{So : Sorter}.

(** A placer that sorts and then selects. *)
Lemma sort_sound less p l req oc s port :
  SoundPlacer p → Select p (sort_slice less l) req oc = Some (s, port) →
  s ∈ l ∧ fits s req oc = true ∧ port = pickPort s req ∅.
Proof. intros Hp (H & ? & ?)%Hp. by apply elem_of_sort_slice in H. Qed.

Lemma sort_complete less p l req oc :
  CompletePlacer p → Select p (sort_slice less l) req oc = None →
  ∀ s, s ∈ l → fits s req oc = false.
Proof. intros Hp H s Hs. eapply Hp; [exact H|]. by apply elem_of_sort_slice. Qed.

#[export] Instance FirstFitDecreasing_sound : SoundPlacer FirstFitDecreasingPlacer.
Proof. intros l req oc s port. apply sort_sound, _. Qed.
#[export] Instance BestFitDecreasing_sound : SoundPlacer BestFitDecreasingPlacer.
Proof. intros l req oc s port. apply sort_sound, _. Qed.
#[export] Instance LeastLoaded_sound : SoundPlacer LeastLoadedPlacer.
Proof. intros l req oc s port. apply sort_sound, _. Qed.
#[export] Instance MostLoaded_sound : SoundPlacer MostLoadedPlacer.
Proof. intros l req oc s port. apply sort_sound, _. Qed.
#[export] Instance Balanced_sound : SoundPlacer BalancedPlacer.
Proof. intros l req oc s port. apply LeastLoaded_sound. Qed.
#[export] Instance WarmNode_sound : SoundPlacer WarmNodePlacer.
Proof. intros l req oc s port. apply sort_sound, _. Qed.
#[export] Instance ColdNode_sound : SoundPlacer ColdNodePlacer.
Proof. intros l req oc s port. apply sort_sound, _. Qed.

#[export] Instance FirstFitDecreasing_complete : CompletePlacer FirstFitDecreasingPlacer.
Proof. intros l req oc. apply sort_complete, _. Qed.
#[export] Instance LeastLoaded_complete : CompletePlacer LeastLoadedPlacer.
Proof. intros l req oc. apply sort_complete, _. Qed.
#[export] Instance MostLoaded_complete : CompletePlacer MostLoadedPlacer.
Proof. intros l req oc. apply sort_complete, _. Qed.
#[export] Instance Balanced_complete : CompletePlacer BalancedPlacer.
Proof. intros l req oc. apply LeastLoaded_complete. Qed.
#[export] Instance WarmNode_complete : CompletePlacer WarmNodePlacer.
Proof. intros l req oc. apply sort_complete, _. Qed.
#[export] Instance ColdNode_complete : CompletePlacer ColdNodePlacer.
Proof. intros l req oc. apply sort_complete, _. Qed.

#[export] Instance Affinity_sound : SoundPlacer AffinityPlacer.
Proof.
  intros l req oc s port. unfold AffinityPlacer. cbn -[FirstFitPlacer]. intros (H & ? & ?)%FirstFit_sound.
  split; [|done]. repeat case_match; eauto using elem_of_prefer.
Qed.
#[export] Instance AntiAffinity_sound : SoundPlacer AntiAffinityPlacer.
Proof.
  intros l req oc s port. unfold AntiAffinityPlacer. cbn -[FirstFitPlacer]. intros (H & ? & ?)%FirstFit_sound.
  split; [|done]. repeat case_match; eauto using elem_of_prefer.
Qed.
#[export] Instance RegionAware_sound : SoundPlacer RegionAwarePlacer.
Proof.
  intros l req oc s port. unfold RegionAwarePlacer. cbn -[FirstFitPlacer]. intros (H & ? & ?)%FirstFit_sound.
  split; [|done]. repeat case_match; eauto using elem_of_prefer.
Qed.
#[export] Instance AZAware_sound : SoundPlacer AZAwarePlacer.
Proof.
  intros l req oc s port. unfold AZAwarePlacer. cbn -[RegionAwarePlacer]. intros (H & ? & ?)%RegionAware_sound.
  split; [|done]. repeat case_match; eauto using elem_of_prefer.
Qed.

(** ** The registry *)

Lemma registry_lookup (l : list Placer) (m : gmap string Placer) k p :
  foldl (λ m p, <[Name p := p]> m) m l !! k = Some p → p ∈ l ∨ m !! k = Some p.
Proof.
  revert m. induction l as [|x l IH]; intros m; simpl; [by right|].
  intros [H|H]%IH; [left; by apply elem_of_cons; right|].
  apply lookup_insert_Some in H as [[_ ->]|[_ H]]; [|by right].
  left. apply elem_of_cons. by left.
Qed.

Lemma Get_base d name : Get (NewRegistry d) name ∈ base_placers.
Proof.
  unfold Get, NewRegistry; simpl.
  assert (∀ k p, foldl (λ m p, <[Name p := p]> m) (∅ : gmap string Placer) base_placers !! k = Some p → p ∈ base_placers) as H.
  { intros k p [?|?]%registry_lookup; [done|]. by rewrite lookup_empty in *. }
  destruct (_ !! name) as [p|] eqn:E; [by apply (H name)|].
  destruct (_ !! d) as [p|] eqn:E2; [by apply (H d)|].
  destruct (_ !! LeastLoaded) as [p|] eqn:E3; [by apply (H LeastLoaded)|].
  simpl. unfold base_placers. do 5 (apply elem_of_cons; right). apply elem_of_cons. by left.
Qed.

Lemma base_placers_sound p : p ∈ base_placers → SoundPlacer p.
Proof.
  unfold base_placers. intros H.
  repeat (apply elem_of_cons in H as [->|H]; [apply _|]). by apply elem_of_nil in H.
Qed.

(** No placement algorithm overcommits.  Whatever the algorithm the request
    or the configuration names (known or not), the servers, the request and the
    overcommit ratio: a server that the engine's placer selects is one of those
    offered, has the CPU, memory, container slot and GPU the request needs, is
    healthy or degraded, and the port lies in the requested range. *)
Theorem placement_sound d name l req oc :
  match Select (Get (NewRegistry d) name) l req oc with
  | None => True
  | Some (s, port) =>
      s ∈ l ∧ fits s req oc = true
      ∧ (port_range req).1 ≤ port ≤ (port_range req).2
  end.
Proof.
  destruct (Select _ _ _ _) as [[s port]|] eqn:E; [|done].
  apply (base_placers_sound _ (Get_base d name)) in E as (Hs & Hf & ->).
  split_and!; try done; rewrite pickPort_empty; pose proof (port_base_range req);
    destruct (port_range req); simpl; lia.
Qed.

(** The algorithms without a location or GPU filter never refuse a request
    that fits: they fail exactly when no offered server fits. *)
Theorem placement_complete l req oc :
  Forall (λ p, Select p l req oc = None ↔ ∀ s, s ∈ l → fits s req oc = false)
    [FirstFitPlacer; FirstFitDecreasingPlacer; LeastLoadedPlacer; MostLoadedPlacer;
     BalancedPlacer; WarmNodePlacer; ColdNodePlacer].
Proof.
  assert (∀ p, SoundPlacer p → CompletePlacer p →
    (Select p l req oc = None ↔ ∀ s, s ∈ l → fits s req oc = false)) as H.
  { intros p Hs Hc. split; [by apply Hc|]. intros Hno.
    destruct (Select p l req oc) as [[s port]|] eqn:E; [|done].
    apply Hs in E as (Hl & Hf & _). by rewrite (Hno s Hl) in Hf. }
  repeat (constructor; [by apply H; apply _|]). constructor.
Qed.

(** The first that fits of a sorted list is a best one. *)
Lemma first_fit_sorted less (P : Server → Prop) l req oc s port :
  strict_weak_on P less → Forall P l →
  first_fit (sort_slice less l) req oc = Some (s, port) →
  ∀ s', s' ∈ l → fits s' req oc = true → less s' s = false.
Proof.
  intros Hswo HP (-> & Hf & l1 & l2 & El & H1)%first_fit_Some s' Hs' Hf'.
  pose proof (sort_slice_sorted less P l Hswo HP) as Hsort. rewrite El in Hsort.
  apply (elem_of_sort_slice less) in Hs'. rewrite El in Hs'.
  apply elem_of_app in Hs' as [Hs'|Hs'].
  { rewrite Forall_forall in H1. by rewrite (H1 s' Hs') in Hf'. }
  apply StronglySorted_app_1_r, StronglySorted_inv in Hsort as [_ Hall].
  apply elem_of_cons in Hs' as [->|Hs'].
  - rewrite Forall_forall in HP.
    assert (P s) as Hp. { apply HP, (elem_of_sort_slice less). rewrite El. set_solver. }
    destruct (less s s) eqn:E; [|done]. by rewrite (swo_asym _ _ Hswo s s Hp Hp E) in E.
  - rewrite Forall_forall in Hall. by apply Hall.
Qed.

Lemma first_fit_best less (P : Server → Prop) (worse : Server → Server → Prop) l req oc :
  strict_weak_on P less → Forall P l →
  (∀ s s', s ∈ l → s' ∈ l → less s' s = false → worse s' s) →
  match first_fit (sort_slice less l) req oc with
  | None => ∀ s, s ∈ l → fits s req oc = false
  | Some (s, _) => ∀ s', s' ∈ l → fits s' req oc = true → worse s' s
  end.
Proof.
  intros Hswo HP Hw. destruct (first_fit _ _ _) as [[s port]|] eqn:E.
  - intros s' Hs' Hf'. apply Hw; [|done|by eapply first_fit_sorted].
    apply first_fit_Some in E as (_ & _ & l1 & l2 & E & _).
    apply (elem_of_sort_slice less). rewrite E. set_solver.
  - intros s Hs. rewrite first_fit_None in E. apply E. by apply elem_of_sort_slice.
Qed.

(** the load-balancing algorithms keep their promise.  Where the load scores
    are numbers, [least_loaded] and [balanced] select a server of the lowest
    score among those that fit and [most_loaded] one of the highest;
    [warm_node] selects one with the most containers and [cold_node] one with
    the fewest. *)
Theorem placement_optimal l req oc :
  Forall (λ s, num (loadScore s oc)) l →
  let best p (worse : Server → Server → Prop) :=
    match Select p l req oc with
    | None => ∀ s, s ∈ l → fits s req oc = false
    | Some (s, _) => ∀ s', s' ∈ l → fits s' req oc = true → worse s' s
    end in
  best LeastLoadedPlacer (λ s' s, fgeb (loadScore s' oc) (loadScore s oc) = true)
  ∧ best BalancedPlacer (λ s' s, fgeb (loadScore s' oc) (loadScore s oc) = true)
  ∧ best MostLoadedPlacer (λ s' s, fgeb (loadScore s oc) (loadScore s' oc) = true)
  ∧ best WarmNodePlacer (λ s' s, Server.ContainerCount s' ≤ Server.ContainerCount s)
  ∧ best ColdNodePlacer (λ s' s, Server.ContainerCount s ≤ Server.ContainerCount s').
Proof.
  intros Hn best. pose proof Hn as Hn'. rewrite Forall_forall in Hn'.
  pose proof (λ less P worse, first_fit_best less P worse l req oc) as H.
  pose proof (swo_on (λ s, loadScore s oc) num fltb swo_fltb) as Hswo.
  assert (best LeastLoadedPlacer (λ s' s, fgeb (loadScore s' oc) (loadScore s oc) = true)) as Hl.
  { apply (H _ _ _ Hswo Hn). intros s s' Hs Hs' Hlt. apply fltb_ge; auto. }
  split_and!; [done|done|..].
  - apply (H _ _ _ (swo_flip _ _ Hswo) Hn). intros s s' Hs Hs' Hlt. apply fltb_ge; auto.
  - apply (H _ (λ _, True) _ (swo_on Server.ContainerCount (λ _, True) _ (swo_flip _ _ swo_Zltb))).
    + by apply Forall_true.
    + intros. by bool_to_prop.
  - apply (H _ (λ _, True) _ (swo_on Server.ContainerCount (λ _, True) _ swo_Zltb)).
    + by apply Forall_true.
    + intros. by bool_to_prop.
Qed.
End facts.

(** best fit wastes the least and worst fit the most.  Where the waste of the
    servers that fit is a number, [best_fit] selects one of them with the
    smallest waste of CPU and [worst_fit] one with the largest; they refuse
    only if every waste is beyond the sentinel their loop starts from. *)
Theorem best_worst_fit_optimal l req oc :
  Forall (λ s, fits s req oc = true → num (waste req oc s)) l →
  match Select BestFitPlacer l req oc with
  | Some (s, _) => ∀ s', s' ∈ l → fits s' req oc = true → fgeb (waste req oc s') (waste req oc s) = true
  | None => ∀ s, s ∈ l → fits s req oc = true → fgeb (waste req oc s) MaxFloat64 = true
  end
  ∧ match Select WorstFitPlacer l req oc with
    | Some (s, _) => ∀ s', s' ∈ l → fits s' req oc = true → fgeb (waste req oc s) (waste req oc s') = true
    | None => ∀ s, s ∈ l → fits s req oc = true → fgeb fm1 (waste req oc s) = true
    end.
Proof.
  intros Hn. pose proof Hn as Hn'. rewrite Forall_forall in Hn'. split.
  - destruct (fold_inv_all fltb req oc MaxFloat64 swo_fltb l eq_refl Hn) as (Hw & Hall & _ & Hacc).
    simpl. unfold best_fit. destruct (foldl _ _ l) as [[b|] w]; simpl in *.
    + destruct Hacc as (Hb & Hf & ->). intros s' Hs' Hf'. apply fltb_ge; auto.
    + subst w. intros s Hs Hf. apply fltb_ge; auto.
  - destruct (fold_inv_all fgtb req oc fm1 (swo_flip _ _ swo_fltb) l eq_refl Hn) as (Hw & Hall & _ & Hacc).
    simpl. destruct (foldl _ _ l) as [[b|] w]; simpl in *.
    + destruct Hacc as (Hb & Hf & ->). intros s' Hs' Hf'. apply fltb_ge; auto. by apply Hall.
    + subst w. intros s Hs Hf. apply fltb_ge; auto. by apply Hall.
Qed.

(** ** Witnesses *)

Definition some_server (node : string) (reserved : f64) (mem count : Z) : Server :=
  {| Server.ID := node; Server.NodeID := node; Server.Hostname := node; Server.AdvertiseHost := "";
     Server.AgentURL := ""; Server.Region := "eu"; Server.AvailabilityZone := "a";
     Server.InstanceType := ""; Server.Architecture := "amd64"; Server.OS := "linux";
     Server.KernelVersion := ""; Server.DockerVersion := ""; Server.CPUCores := f64_of_Z 8;
     Server.MemoryMB := 16384; Server.DiskGB := 100; Server.GPUCount := 0;
     Server.MaxContainers := 50; Server.ContainerCount := count; Server.ReservedCPU := reserved;
     Server.ReservedMemoryMB := mem; Server.ReservedDiskGB := 0; Server.Health := HealthHealthy;
     Server.Labels := "{}"; Server.Metadata := "{}"; Server.LastHeartbeat := Some 10;
     Server.MissedBeats := 0; Server.CreatedAt := 1; Server.UpdatedAt := 1 |}.

Definition some_request (deployment : string) : PlacementRequest :=
  {| OrgID := "o"; ProjectID := "p"; DeploymentID := deployment; Region := "";
     AvailabilityZone := ""; CPUMillicores := 250; MemoryMB := 512; PortMin := 30000;
     PortMax := 32000; GPURequired := false; Algorithm := ""; Labels := ∅; CorrelationID := "" |}.

Definition busy := some_server "n1" (f64_of_Z 6) 8192 30.
Definition idle := some_server "n2" f1 1024 3.

Lemma placement_optimal_witness :
  match @Select (@LeastLoadedPlacer insertion_sorter) [busy; idle] (some_request "d1") f1 with
  | Some (s, _) => ∀ s', s' ∈ [busy; idle] → fits s' (some_request "d1") f1 = true →
      fgeb (loadScore s' f1) (loadScore s f1) = true
  | None => False
  end.
Proof.
  assert (Forall (λ s, num (loadScore s f1)) [busy; idle]) as H
    by (constructor; [vm_compute; reflexivity|constructor; [vm_compute; reflexivity|constructor]]).
  pose proof (@placement_optimal insertion_sorter [busy; idle] (some_request "d1") f1 H) as [Hb _].
  destruct (Select _ _ _ _) as [[s port]|]; [exact Hb|].
  specialize (Hb idle ltac:(set_solver)). vm_compute in Hb. discriminate.
Defined.

Lemma best_worst_fit_optimal_witness :
  match Select BestFitPlacer [busy; idle] (some_request "d1") f1 with
  | Some (s, _) => ∀ s', s' ∈ [busy; idle] → fits s' (some_request "d1") f1 = true →
      fgeb (waste (some_request "d1") f1 s') (waste (some_request "d1") f1 s) = true
  | None => ∀ s, s ∈ [busy; idle] → fits s (some_request "d1") f1 = true →
      fgeb (waste (some_request "d1") f1 s) MaxFloat64 = true
  end.
Proof.
  refine (proj1 (best_worst_fit_optimal [busy; idle] (some_request "d1") f1 _)).
  constructor; [intros _; vm_compute; reflexivity|].
  constructor; [intros _; vm_compute; reflexivity|constructor].
Defined.

Example least_loaded_selects_idle :
  fst <$> @Select (@LeastLoadedPlacer insertion_sorter) [busy; idle] (some_request "d1") f1 = Some idle.
Proof. vm_compute. reflexivity. Qed.

Example best_fit_selects_busy :
  fst <$> Select BestFitPlacer [idle; busy] (some_request "d1") f1 = Some busy.
Proof. vm_compute. reflexivity. Qed.

(** The wrap-around of the port search skips the first port of the range, and
    leaves a range of less than a hundred ports. *)
Example pickPort_wrap_skips_min :
  pickPort_loop busy {[port_key busy 105 := true]} 100 105 105 0 100 = 101.
Proof. vm_compute. reflexivity. Qed.

Example pickPort_wrap_leaves_range :
  pickPort_loop busy (list_to_map ((λ p, (port_key busy p, true)) <$> [100; 101; 102])) 100 102 100 0 100
  = 103.
Proof. vm_compute. reflexivity. Qed.
