(* ===== verification/SchedEngine.v ===== *)
(** * The scheduler's tables (packages/application/scheduler/store)

    The tables and the statements of the repository.  [reserved_cpu] is
    binary64; [BIGINT] sums stay far from their bounds and are on [Z]. *)

From S2P Require Import Prelude GoLib Errors Postgres Sql Placement.

(** A row of [scheduler_events], without its id and its JSON data. *)
Record sched_event := {
  event_type : string; ev_org : string; ev_project : string; ev_deployment : string;
  ev_server : string; ev_correlation : string;
}.

Record sched := {
  servers : list Server; reservations : list Reservation; sevents : list sched_event;
}.

Definition set_servers (l : list Server) (st : sched) : sched :=
  {| servers := l; reservations := reservations st; sevents := sevents st |}.
Definition set_reservations (l : list Reservation) (st : sched) : sched :=
  {| servers := servers st; reservations := l; sevents := sevents st |}.

(** ** Row updates *)

(** [reserved_cpu], [reserved_memory_mb], [container_count], [updated_at]. *)
Definition with_accounting (cpu : f64) (mem count : Z) (now : Time) (s : Server) : Server :=
  {| Server.ID := Server.ID s; Server.NodeID := Server.NodeID s; Server.Hostname := Server.Hostname s;
     Server.AdvertiseHost := Server.AdvertiseHost s; Server.AgentURL := Server.AgentURL s;
     Server.Region := Server.Region s; Server.AvailabilityZone := Server.AvailabilityZone s;
     Server.InstanceType := Server.InstanceType s; Server.Architecture := Server.Architecture s;
     Server.OS := Server.OS s; Server.KernelVersion := Server.KernelVersion s;
     Server.DockerVersion := Server.DockerVersion s; Server.CPUCores := Server.CPUCores s;
     Server.MemoryMB := Server.MemoryMB s; Server.DiskGB := Server.DiskGB s;
     Server.GPUCount := Server.GPUCount s; Server.MaxContainers := Server.MaxContainers s;
     Server.ContainerCount := count; Server.ReservedCPU := cpu; Server.ReservedMemoryMB := mem;
     Server.ReservedDiskGB := Server.ReservedDiskGB s; Server.Health := Server.Health s;
     Server.Labels := Server.Labels s; Server.Metadata := Server.Metadata s;
     Server.LastHeartbeat := Server.LastHeartbeat s; Server.MissedBeats := Server.MissedBeats s;
     Server.CreatedAt := Server.CreatedAt s; Server.UpdatedAt := now |}.

(** [health_status], [missed_beats], [updated_at]. *)
Definition with_health (h : HealthStatus) (missed : Z) (now : Time) (s : Server) : Server :=
  {| Server.ID := Server.ID s; Server.NodeID := Server.NodeID s; Server.Hostname := Server.Hostname s;
     Server.AdvertiseHost := Server.AdvertiseHost s; Server.AgentURL := Server.AgentURL s;
     Server.Region := Server.Region s; Server.AvailabilityZone := Server.AvailabilityZone s;
     Server.InstanceType := Server.InstanceType s; Server.Architecture := Server.Architecture s;
     Server.OS := Server.OS s; Server.KernelVersion := Server.KernelVersion s;
     Server.DockerVersion := Server.DockerVersion s; Server.CPUCores := Server.CPUCores s;
     Server.MemoryMB := Server.MemoryMB s; Server.DiskGB := Server.DiskGB s;
     Server.GPUCount := Server.GPUCount s; Server.MaxContainers := Server.MaxContainers s;
     Server.ContainerCount := Server.ContainerCount s; Server.ReservedCPU := Server.ReservedCPU s;
     Server.ReservedMemoryMB := Server.ReservedMemoryMB s;
     Server.ReservedDiskGB := Server.ReservedDiskGB s; Server.Health := h;
     Server.Labels := Server.Labels s; Server.Metadata := Server.Metadata s;
     Server.LastHeartbeat := Server.LastHeartbeat s; Server.MissedBeats := missed;
     Server.CreatedAt := Server.CreatedAt s; Server.UpdatedAt := now |}.

(** The columns a heartbeat sets, over the row's identity and accounting. *)
Definition heartbeat_row (hb : HeartbeatPayload) (now : Time) (id : string) (cpu : f64)
    (mem disk : Z) (created : Time) : Server :=
  {| Server.ID := id; Server.NodeID := HeartbeatPayload.NodeID hb;
     Server.Hostname := HeartbeatPayload.Hostname hb;
     Server.AdvertiseHost := HeartbeatPayload.AdvertiseHost hb;
     Server.AgentURL := HeartbeatPayload.AgentURL hb; Server.Region := HeartbeatPayload.Region hb;
     Server.AvailabilityZone := HeartbeatPayload.AvailabilityZone hb;
     Server.InstanceType := HeartbeatPayload.InstanceType hb;
     Server.Architecture := HeartbeatPayload.Architecture hb; Server.OS := HeartbeatPayload.OS hb;
     Server.KernelVersion := HeartbeatPayload.KernelVersion hb;
     Server.DockerVersion := HeartbeatPayload.DockerVersion hb;
     Server.CPUCores := HeartbeatPayload.CPUCores hb; Server.MemoryMB := HeartbeatPayload.MemoryMB hb;
     Server.DiskGB := HeartbeatPayload.DiskGB hb; Server.GPUCount := HeartbeatPayload.GPUCount hb;
     Server.MaxContainers := HeartbeatPayload.MaxContainers hb;
     Server.ContainerCount := HeartbeatPayload.ContainerCount hb;
     Server.ReservedCPU := cpu; Server.ReservedMemoryMB := mem; Server.ReservedDiskGB := disk;
     Server.Health := HeartbeatPayload.Health hb; Server.Labels := HeartbeatPayload.Labels hb;
     Server.Metadata := HeartbeatPayload.Metadata hb; Server.LastHeartbeat := Some now;
     Server.MissedBeats := 0; Server.CreatedAt := created; Server.UpdatedAt := now |}.

Definition refresh (hb : HeartbeatPayload) (now : Time) (s : Server) : Server :=
  heartbeat_row hb now (Server.ID s) (Server.ReservedCPU s) (Server.ReservedMemoryMB s)
    (Server.ReservedDiskGB s) (Server.CreatedAt s).

Definition with_status (st : ReservationStatus) (now : Time) (r : Reservation) : Reservation :=
  {| Reservation.ID := Reservation.ID r; Reservation.OrgID := Reservation.OrgID r;
     Reservation.ProjectID := Reservation.ProjectID r;
     Reservation.DeploymentID := Reservation.DeploymentID r;
     Reservation.ServerID := Reservation.ServerID r; Reservation.NodeID := Reservation.NodeID r;
     Reservation.Host := Reservation.Host r; Reservation.Port := Reservation.Port r;
     Reservation.CPUMillicores := Reservation.CPUMillicores r;
     Reservation.MemoryMB := Reservation.MemoryMB r; Reservation.Algorithm := Reservation.Algorithm r;
     Reservation.Status := st; Reservation.ExpiresAt := Reservation.ExpiresAt r;
     Reservation.CorrelationID := Reservation.CorrelationID r;
     Reservation.Metadata := Reservation.Metadata r; Reservation.CreatedAt := Reservation.CreatedAt r;
     Reservation.UpdatedAt := now |}.

(** The [DO UPDATE] of the reservation upsert. *)
Definition reactivate (res : Reservation) (now : Time) (r : Reservation) : Reservation :=
  {| Reservation.ID := Reservation.ID r; Reservation.OrgID := Reservation.OrgID r;
     Reservation.ProjectID := Reservation.ProjectID r;
     Reservation.DeploymentID := Reservation.DeploymentID r;
     Reservation.ServerID := Reservation.ServerID res; Reservation.NodeID := Reservation.NodeID r;
     Reservation.Host := Reservation.Host res; Reservation.Port := Reservation.Port res;
     Reservation.CPUMillicores := Reservation.CPUMillicores r;
     Reservation.MemoryMB := Reservation.MemoryMB r; Reservation.Algorithm := Reservation.Algorithm r;
     Reservation.Status := ReservationActive; Reservation.ExpiresAt := Reservation.ExpiresAt res;
     Reservation.CorrelationID := Reservation.CorrelationID r;
     Reservation.Metadata := Reservation.Metadata r; Reservation.CreatedAt := Reservation.CreatedAt r;
     Reservation.UpdatedAt := now |}.

(** A reservation as the [INSERT] stores it. *)
Definition stored (res : Reservation) (id meta : string) (now : Time) : Reservation :=
  {| Reservation.ID := id; Reservation.OrgID := Reservation.OrgID res;
     Reservation.ProjectID := Reservation.ProjectID res;
     Reservation.DeploymentID := Reservation.DeploymentID res;
     Reservation.ServerID := Reservation.ServerID res; Reservation.NodeID := Reservation.NodeID res;
     Reservation.Host := Reservation.Host res; Reservation.Port := Reservation.Port res;
     Reservation.CPUMillicores := Reservation.CPUMillicores res;
     Reservation.MemoryMB := Reservation.MemoryMB res; Reservation.Algorithm := Reservation.Algorithm res;
     Reservation.Status := Reservation.Status res; Reservation.ExpiresAt := Reservation.ExpiresAt res;
     Reservation.CorrelationID := Reservation.CorrelationID res;
     Reservation.Metadata := meta; Reservation.CreatedAt := now;
     Reservation.UpdatedAt := now |}.

Definition with_id (id : string) (res : Reservation) : Reservation :=
  {| Reservation.ID := id; Reservation.OrgID := Reservation.OrgID res;
     Reservation.ProjectID := Reservation.ProjectID res;
     Reservation.DeploymentID := Reservation.DeploymentID res;
     Reservation.ServerID := Reservation.ServerID res; Reservation.NodeID := Reservation.NodeID res;
     Reservation.Host := Reservation.Host res; Reservation.Port := Reservation.Port res;
     Reservation.CPUMillicores := Reservation.CPUMillicores res;
     Reservation.MemoryMB := Reservation.MemoryMB res; Reservation.Algorithm := Reservation.Algorithm res;
     Reservation.Status := Reservation.Status res; Reservation.ExpiresAt := Reservation.ExpiresAt res;
     Reservation.CorrelationID := Reservation.CorrelationID res;
     Reservation.Metadata := Reservation.Metadata res; Reservation.CreatedAt := Reservation.CreatedAt res;
     Reservation.UpdatedAt := Reservation.UpdatedAt res |}.

Definition online (s : Server) : bool :=
  (Server.Health s =s? HealthHealthy) || (Server.Health s =s? HealthDegraded).

Definition server_id (id : string) (s : Server) : bool := Server.ID s =s? id.
Definition node_id (id : string) (s : Server) : bool := Server.NodeID s =s? id.
Definition active (r : Reservation) : bool := Reservation.Status r =s? ReservationActive.
Definition for_deployment (id : string) (r : Reservation) : bool := Reservation.DeploymentID r =s? id.

(** [float64(cpuMilli) / 1000.0] *)
Definition cores (milli : Z) : f64 := (f64_of_Z milli / f1000)%f64.

(** [reserved_x + $n], [container_count + 1]; [GREATEST(0, reserved_x - $n)]. *)
Definition reserve (milli mem : Z) (now : Time) (s : Server) : Server :=
  with_accounting (Server.ReservedCPU s + cores milli)%f64 (Server.ReservedMemoryMB s + mem)
    (Server.ContainerCount s + 1) now s.

Definition greatest0 (x : f64) : f64 := if (x <? f0)%f64 then f0 else x.

Definition unreserve (milli mem : Z) (now : Time) (s : Server) : Server :=
  with_accounting (greatest0 (Server.ReservedCPU s - cores milli)%f64)
    (Z.max 0 (Server.ReservedMemoryMB s - mem)) (Z.max 0 (Server.ContainerCount s - 1)) now s.

Section repository.
Context `{D : Driver} `{So : Sorter}.

(** A statement on the servers, one on the reservations. *)
Definition update_servers (p : Server → bool) (f : Server → Server) : db sched Z :=
  exec (λ st, (matched p (servers st),
    set_servers (update_where p f (servers st)) st)).

Definition update_reservations (p : Reservation → bool) (f : Reservation → Reservation) : db sched Z :=
  exec (λ st, (matched p (reservations st),
    set_reservations (update_where p f (reservations st)) st)).

(** ** Servers *)

Definition upsert_server (row : Server) (hb : HeartbeatPayload) (now : Time) (st : sched)
    : result error Server * sched :=
  match select (node_id (Server.NodeID row)) (servers st) with
  | s :: _ =>
      (Ok (refresh hb now s),
       set_servers (update_where (node_id (Server.NodeID row)) (refresh hb now) (servers st)) st)
  | [] =>
      if matched (server_id (Server.ID row)) (servers st) =? 0
      then (Ok row, set_servers (servers st ++ [row]) st)
      else (Err (PgError sqlStateUniqueViolation "duplicate key"), st)
  end.

(** [id] is the fresh identifier. *)
Definition UpsertServer (id : string) (hb : HeartbeatPayload) (now : Time) : db sched Server :=
  translate "scheduler: scan server" (query (upsert_server (heartbeat_row hb now id f0 0 0 now) hb now)).

Definition RemoveServer (nodeID : string) (now : Time) : db sched unit :=
  _ ← translate "scheduler: remove server"
        (update_servers (node_id nodeID) (λ s, with_health HealthOffline (Server.MissedBeats s) now s));
  mret tt.

(** [ORDER BY container_count ASC, reserved_cpu ASC] *)
Definition less_used : Server → Server → bool :=
  lex (λ a b, Server.ContainerCount a <? Server.ContainerCount b)
      (λ a b, (Server.ReservedCPU a <? Server.ReservedCPU b)%f64).

Definition ListHealthyServers (region : string) : db sched (list Server) :=
  translate "scheduler: list servers" (exec (λ st,
    (sort_slice less_used
       (select (λ s, online s && ((region =s? "") || (Server.Region s =s? region))) (servers st)), st))).

Definition GetServerByNodeID (nodeID : string) : db sched Server :=
  translate "scheduler: scan server" (query (λ st,
    (match select (node_id nodeID) (servers st) with s :: _ => Ok s | [] => Err ErrNoRows end, st))).

(** ** Reservations *)

Definition upsert_reservation (row : Reservation) (now : Time) (st : sched)
    : result error string * sched :=
  match select (for_deployment (Reservation.DeploymentID row)) (reservations st) with
  | r :: _ =>
      if matched (server_id (Reservation.ServerID row)) (servers st) =? 0
      then (Err (PgError sqlStateForeignKeyViolation "server_id"), st)
      else (Ok (Reservation.ID r),
            set_reservations (update_where (for_deployment (Reservation.DeploymentID row))
                                 (reactivate row now) (reservations st)) st)
  | [] =>
      if matched (server_id (Reservation.ServerID row)) (servers st) =? 0
      then (Err (PgError sqlStateForeignKeyViolation "server_id"), st)
      else if matched (λ r, Reservation.ID r =s? Reservation.ID row) (reservations st) =? 0
      then (Ok (Reservation.ID row),
            set_reservations (reservations st ++ [row]) st)
      else (Err (PgError sqlStateUniqueViolation "duplicate key"), st)
  end.

(** [fresh] is the identifier drawn when the reservation has none. *)
Definition CreateReservation (fresh : string) (res : Reservation) (now : Time)
    : db sched Reservation :=
  let meta := if Reservation.Metadata res =s? "" then "{}" else Reservation.Metadata res in
  let id := if Reservation.ID res =s? "" then fresh else Reservation.ID res in
  Transact (
    id ← translate "scheduler: create reservation"
           (query (upsert_reservation (stored res id meta now) now));
    _ ← translate "scheduler: reserve resources"
          (update_servers (server_id (Reservation.ServerID res))
             (reserve (Reservation.CPUMillicores res) (Reservation.MemoryMB res) now));
    mret (with_id id res)).

Definition ReleaseReservation (orgID projectID deploymentID : string) (now : Time) : db sched unit :=
  Transact (
    found ← attempt (query (λ st,
      (match select (λ r, for_deployment deploymentID r && (Reservation.OrgID r =s? orgID)
                          && (Reservation.ProjectID r =s? projectID) && active r) (reservations st) with
       | r :: _ => Ok (Reservation.ServerID r, Reservation.CPUMillicores r, Reservation.MemoryMB r)
       | [] => Err ErrNoRows
       end, st)));
    match found with
    | Err err =>
        if IsNotFound err then mret tt
        else fail (default err (Translate (Some err) "scheduler: find reservation"))
    | Ok (serverID, cpuMilli, mem) =>
        _ ← translate "scheduler: release reservation"
              (update_reservations (λ r, for_deployment deploymentID r && active r)
                 (with_status ReservationReleased now));
        _ ← translate "scheduler: release resources"
              (update_servers (server_id serverID) (unreserve cpuMilli mem now));
        mret tt
    end).

Definition GetReservation (deploymentID : string) : db sched Reservation :=
  translate "scheduler: get reservation" (query (λ st,
    (match select (λ r, for_deployment deploymentID r && active r) (reservations st) with
     | r :: _ => Ok r
     | [] => Err ErrNoRows
     end, st))).

(** A statement on the transaction's connection while rows are open. *)
Definition with_rows_open {A} (m : db sched A) : db sched A :=
  match OpenRows with Some e => fail e | None => m end.

Fixpoint expire_rows (rows : list Reservation) (now : Time) (count : Z) : db sched Z :=
  match rows with
  | [] => mret count
  | r :: rows =>
      _ ← with_rows_open (update_reservations (λ r', Reservation.ID r' =s? Reservation.ID r)
            (with_status ReservationExpired now));
      _ ← with_rows_open (update_servers (server_id (Reservation.ServerID r))
            (unreserve (Reservation.CPUMillicores r) (Reservation.MemoryMB r) now));
      expire_rows rows now (count + 1)
  end.

Definition expired (now : Time) (r : Reservation) : bool :=
  active r && (Reservation.ExpiresAt r <? now).

Definition ExpireStaleReservations (now : Time) : db sched Z :=
  Transact (
    rows ← translate "scheduler: list expired" (exec (λ st, (select (expired now) (reservations st), st)));
    expire_rows rows now 0).

Definition silent (threshold : Duration) (now : Time) (s : Server) : bool :=
  online s
  && match Server.LastHeartbeat s with
     | None => true
     | Some t => t <? now - Z.quot threshold Second * Second
     end.

Definition MarkMissedHeartbeats (threshold : Duration) (maxMissed : Z) (now : Time) : db sched Z :=
  n1 ← translate "scheduler: mark missed"
         (update_servers (silent threshold now)
            (λ s, with_health (Server.Health s) (Server.MissedBeats s + 1) now s));
  n2 ← translate "scheduler: mark offline"
         (update_servers (λ s, (maxMissed <=? Server.MissedBeats s)
                               && negb (Server.Health s =s? HealthOffline))
            (λ s, with_health HealthOffline (Server.MissedBeats s) now s));
  mret (n1 + n2).

Record capacity := {
  healthy_servers : Z; offline_servers : Z; total_cpu_cores : f64; reserved_cpu_cores : f64;
  total_memory_mb : Z; reserved_memory_mb : Z; container_count : Z;
}.

Definition fsum_of (f : Server → f64) (l : list Server) : f64 := foldl (λ x s, (x + f s)%f64) f0 l.

Definition CapacitySummary : db sched capacity :=
  translate "scheduler: capacity" (exec (λ st,
    let l := servers st in
    ({| healthy_servers := matched (λ s, Server.Health s =s? HealthHealthy) l;
        offline_servers := matched (λ s, Server.Health s =s? HealthOffline) l;
        total_cpu_cores := fsum_of Server.CPUCores l;
        reserved_cpu_cores := fsum_of Server.ReservedCPU l;
        total_memory_mb := total Server.MemoryMB l;
        reserved_memory_mb := total Server.ReservedMemoryMB l;
        container_count := total Server.ContainerCount l |}, st))).
End repository.

(** * The scheduling engine (packages/application/scheduler/engine)

    Events are the rows the publisher inserts; delivery on the bus and the
    metrics are not modelled.  Identifiers and clock readings are arguments. *)

(** [config.Scheduler] *)
Record SchedConfig := {
  DefaultAlgorithm : string;
  ReservationTTL : Duration;
  HeartbeatInterval : Duration;
  MissedHeartbeats : Z;
  OvercommitRatio : f64;
  DefaultCPUMillicores : Z;
  DefaultMemoryMB : Z;
}.

Definition PlacementRequested := "scheduler.placement_requested".
Definition PlacementSucceeded := "scheduler.placement_succeeded".
Definition PlacementFailed := "scheduler.placement_failed".
Definition ReservationCreated := "scheduler.reservation_created".
Definition ReservationReleasedEvent := "scheduler.reservation_released".
Definition CapacityUpdated := "scheduler.capacity_updated".
Definition ServerRecovered := "scheduler.server_recovered".
Definition HeartbeatReceived := "scheduler.heartbeat_received".

Section engine.
Context `{D : Driver} `{So : Sorter} (cfg : SchedConfig).

(** [Publish]: the insert of the event repository. *)
Definition Publish (ev : sched_event) : db sched unit :=
  translate "scheduler events: insert" (exec (λ st,
    (tt, {| servers := servers st; reservations := reservations st; sevents := sevents st ++ [ev] |}))).

Definition event (ty org project deployment server correlation : string) : sched_event :=
  {| event_type := ty; ev_org := org; ev_project := project; ev_deployment := deployment;
     ev_server := server; ev_correlation := correlation |}.

Definition RegisterHeartbeat (id : string) (hb : HeartbeatPayload) (now : Time) : db sched Server :=
  srv ← UpsertServer id hb now;
  _ ← ignore (Publish (event HeartbeatReceived "" "" "" (Server.ID srv) (HeartbeatPayload.NodeID hb)));
  _ ← (if (HeartbeatPayload.Health hb =s? HealthHealthy) && (0 <? Server.MissedBeats srv)
       then ignore (Publish (event ServerRecovered "" "" "" (Server.ID srv) ""))
       else mret tt);
  mret srv.

(** The request with the configured defaults; the algorithm. *)
Definition with_defaults (req : PlacementRequest) : PlacementRequest :=
  {| PlacementRequest.OrgID := PlacementRequest.OrgID req;
     PlacementRequest.ProjectID := PlacementRequest.ProjectID req;
     PlacementRequest.DeploymentID := PlacementRequest.DeploymentID req;
     PlacementRequest.Region := PlacementRequest.Region req;
     PlacementRequest.AvailabilityZone := PlacementRequest.AvailabilityZone req;
     PlacementRequest.CPUMillicores := if PlacementRequest.CPUMillicores req <=? 0
       then DefaultCPUMillicores cfg else PlacementRequest.CPUMillicores req;
     PlacementRequest.MemoryMB := if PlacementRequest.MemoryMB req <=? 0
       then DefaultMemoryMB cfg else PlacementRequest.MemoryMB req;
     PlacementRequest.PortMin := PlacementRequest.PortMin req;
     PlacementRequest.PortMax := PlacementRequest.PortMax req;
     PlacementRequest.GPURequired := PlacementRequest.GPURequired req;
     PlacementRequest.Algorithm := PlacementRequest.Algorithm req;
     PlacementRequest.Labels := PlacementRequest.Labels req;
     PlacementRequest.CorrelationID := PlacementRequest.CorrelationID req |}.

Definition algorithm (req : PlacementRequest) : string :=
  if PlacementRequest.Algorithm req =s? "" then DefaultAlgorithm cfg else PlacementRequest.Algorithm req.

Definition host_of (srv : Server) : string :=
  if Server.AdvertiseHost srv =s? "" then Server.Hostname srv else Server.AdvertiseHost srv.

Definition request_event (ty : string) (req : PlacementRequest) (server correlation : string) : sched_event :=
  event ty (PlacementRequest.OrgID req) (PlacementRequest.ProjectID req)
    (PlacementRequest.DeploymentID req) server correlation.

Definition the_placer (req : PlacementRequest) : Placer :=
  Get (NewRegistry (DefaultAlgorithm cfg)) (algorithm req).

(** The row [Reserve] creates. *)
Definition new_reservation (req : PlacementRequest) (srv : Server) (host : string) (port : Z)
    (now : Time) : Reservation :=
  {| Reservation.ID := ""; Reservation.OrgID := PlacementRequest.OrgID req;
     Reservation.ProjectID := PlacementRequest.ProjectID req;
     Reservation.DeploymentID := PlacementRequest.DeploymentID req;
     Reservation.ServerID := Server.ID srv; Reservation.NodeID := Server.NodeID srv;
     Reservation.Host := host; Reservation.Port := port;
     Reservation.CPUMillicores := PlacementRequest.CPUMillicores req;
     Reservation.MemoryMB := PlacementRequest.MemoryMB req; Reservation.Algorithm := algorithm req;
     Reservation.Status := ReservationActive;
     Reservation.ExpiresAt :=
       now + (if ReservationTTL cfg <=? 0 then 30 * Minute else ReservationTTL cfg);
     Reservation.CorrelationID := PlacementRequest.CorrelationID req; Reservation.Metadata := "";
     Reservation.CreatedAt := 0; Reservation.UpdatedAt := 0 |}.

(** [Reserve] after the lookup found nothing. *)
Definition place (fresh : string) (req : PlacementRequest) (now : Time) : db sched PlacementResult :=
  _ ← ignore (Publish (request_event PlacementRequested req "" (PlacementRequest.CorrelationID req)));
  let req := with_defaults req in
  servers ← ListHealthyServers (PlacementRequest.Region req);
  if Z.of_nat (length servers) =? 0 then
    _ ← ignore (Publish (request_event PlacementFailed req "" ""));
    fail_with (New CodeUnavailable "scheduler: no capacity")
  else
    match Select (the_placer req) servers req (OvercommitRatio cfg) with
    | None =>
        _ ← ignore (Publish (request_event PlacementFailed req "" ""));
        fail_with (New CodeFailedPrecond "scheduler: placement failed")
    | Some (srv, port) =>
        let host := host_of srv in
        let host := if host =s? "" then "127.0.0.1" else host in
        _ ← CreateReservation fresh (new_reservation req srv host port now) now;
        _ ← ignore (Publish (request_event ReservationCreated req (Server.ID srv)
                               (PlacementRequest.CorrelationID req)));
        _ ← ignore (Publish (request_event PlacementSucceeded req (Server.ID srv)
                               (PlacementRequest.CorrelationID req)));
        mret {| PlacementResult.Host := host; PlacementResult.Port := port;
                PlacementResult.NodeID := Server.NodeID srv; PlacementResult.Region := Server.Region srv;
                PlacementResult.AgentURL := Server.AgentURL srv; PlacementResult.Reserved := true |}
    end.

Definition existing_result (r : Reservation) : PlacementResult :=
  {| PlacementResult.Host := Reservation.Host r; PlacementResult.Port := Reservation.Port r;
     PlacementResult.NodeID := Reservation.NodeID r; PlacementResult.Region := "";
     PlacementResult.AgentURL := ""; PlacementResult.Reserved := true |}.

Definition Reserve (fresh : string) (req : PlacementRequest) (now : Time) : db sched PlacementResult :=
  if PlacementRequest.DeploymentID req =s? "" then
    fail_with (New CodeInvalidArgument "scheduler: missing deployment_id")
  else
    existing ← attempt (GetReservation (PlacementRequest.DeploymentID req));
    match existing with
    | Ok r => if Reservation.Status r =s? ReservationActive then mret (existing_result r)
              else place fresh req now
    | Err _ => place fresh req now
    end.

Definition Release (orgID projectID deploymentID correlationID : string) (now : Time) : db sched unit :=
  _ ← ReleaseReservation orgID projectID deploymentID now;
  ignore (Publish (event ReservationReleasedEvent orgID projectID deploymentID "" correlationID)).

Definition Simulate (req : PlacementRequest) : db sched PlacementResult :=
  servers ← ListHealthyServers (PlacementRequest.Region req);
  let req := with_defaults req in
  match Select (the_placer req) servers req (OvercommitRatio cfg) with
  | None => fail_with (New CodeFailedPrecond "scheduler: simulation failed")
  | Some (srv, port) =>
      mret {| PlacementResult.Host := host_of srv; PlacementResult.Port := port;
              PlacementResult.NodeID := Server.NodeID srv; PlacementResult.Region := Server.Region srv;
              PlacementResult.AgentURL := Server.AgentURL srv; PlacementResult.Reserved := false |}
  end.

Definition Reconcile (now : Time) : db sched unit :=
  _ ← ExpireStaleReservations now;
  let threshold := HeartbeatInterval cfg * MissedHeartbeats cfg in
  let threshold := if threshold <=? 0 then 45 * Second else threshold in
  _ ← MarkMissedHeartbeats threshold (MissedHeartbeats cfg) now;
  _ ← CapacitySummary;
  ignore (Publish (event CapacityUpdated "" "" "" "" "")).
End engine.
