(* ===== verification/Scheduler.v ===== *)
(** * The scheduler: accounting, capacity, idempotence *)

From S2P Require Import Prelude GoLib Errors Postgres Sql Placement PlacementFacts SchedEngine.

(** ** The accounting invariant *)

(** What a reservation holds on the server [id]. *)
Definition holds (id : string) (r : Reservation) : Z :=
  if active r && (Reservation.ServerID r =s? id) then Reservation.MemoryMB r else 0.

(** The reserved memory of every server is the sum of its active reservations. *)
Record acc_ok (st : sched) : Prop := {
  acc_servers : NoDup (Server.ID <$> servers st);
  acc_ids : NoDup (Reservation.ID <$> reservations st);
  acc_deployments : NoDup (Reservation.DeploymentID <$> reservations st);
  acc_pos r : r ∈ reservations st → 0 ≤ Reservation.MemoryMB r;
  acc_ref r : r ∈ reservations st → Reservation.ServerID r ∈ Server.ID <$> servers st;
  acc_sum s : s ∈ servers st → Server.ReservedMemoryMB s = total (holds (Server.ID s)) (reservations st);
}.

Lemma holds_nonneg st id r : acc_ok st → r ∈ reservations st → 0 ≤ holds id r.
Proof. intros H Hr. unfold holds. case_match; [by eapply acc_pos|done]. Qed.

(** Server updates that keep the identity and the reserved memory. *)
Lemma acc_ok_servers f p st :
  (∀ s, Server.ID (f s) = Server.ID s) →
  (∀ s, Server.ReservedMemoryMB (f s) = Server.ReservedMemoryMB s) →
  acc_ok st → acc_ok (set_servers (update_where p f (servers st)) st).
Proof.
  intros Hid Hmem [H1 H2 H3 H4 H5 H6]. split; simpl; try done.
  - by rewrite map_key_update_where.
  - intros r Hr. rewrite map_key_update_where by done. auto.
  - intros s' (s & Hs & ->)%elem_of_update_where.
    case_match; rewrite ?Hid, ?Hmem; auto.
Qed.

Lemma acc_ok_new_server s st :
  (∀ s', s' ∈ servers st → Server.ID s' ≠ Server.ID s) → Server.ReservedMemoryMB s = 0 →
  acc_ok st → acc_ok (set_servers (servers st ++ [s]) st).
Proof.
  intros Hnew H0 [H1 H2 H3 H4 H5 H6].
  assert (Server.ID s ∉ Server.ID <$> servers st) as Hfresh.
  { intros (s' & E & Hs')%list_elem_of_fmap. by apply (Hnew s'). }
  split; simpl; try done.
  - rewrite fmap_app. apply NoDup_app. split_and!; [done| |apply NoDup_singleton].
    intros x Hx ->%list_elem_of_singleton. done.
  - intros r Hr. rewrite fmap_app. apply elem_of_app. left. auto.
  - intros s' [Hs'| ->%list_elem_of_singleton]%elem_of_app; [auto|].
    rewrite H0. symmetry. apply total_zero. intros r Hr. unfold holds.
    destruct (Reservation.ServerID r =s? Server.ID s) eqn:E; [|by rewrite andb_false_r].
    bool_to_prop. specialize (H5 r Hr). by rewrite E in H5.
Qed.

(** Moving [delta] in the reservations and on the one server concerned. *)
Lemma acc_ok_move g l id st :
  (∀ s, Server.ID (g s) = Server.ID s) →
  NoDup (Reservation.ID <$> l) → NoDup (Reservation.DeploymentID <$> l) →
  (∀ r, r ∈ l → 0 ≤ Reservation.MemoryMB r) →
  (∀ r, r ∈ l → Reservation.ServerID r ∈ Server.ID <$> servers st) →
  (∀ s, s ∈ servers st → Server.ID s = id → Server.ReservedMemoryMB (g s) = total (holds id) l) →
  (∀ id', id' ≠ id → total (holds id') l = total (holds id') (reservations st)) →
  acc_ok st →
  acc_ok (set_servers (update_where (server_id id) g (servers st)) (set_reservations l st)).
Proof.
  intros Hg Hl1 Hl2 Hl3 Hl4 Hs Ho [H1 H2 H3 H4 H5 H6]. split; simpl; try done.
  - by rewrite map_key_update_where.
  - intros r Hr. rewrite map_key_update_where by done. auto.
  - intros s' (s & Hin & ->)%elem_of_update_where. unfold server_id.
    destruct (Server.ID s =s? id) eqn:E; bool_to_prop.
    + rewrite Hg, E. auto.
    + rewrite Ho by done. auto.
Qed.

Section facts.
Context `{D : Driver} `{So : Sorter}.

(** ** Creating a reservation *)

(** An earlier reservation of the deployment is closed and of the same size. *)
Definition reservable (dep : string) (mem : Z) (st : sched) : Prop :=
  ∀ r, r ∈ reservations st → Reservation.DeploymentID r = dep →
       active r = false ∧ Reservation.MemoryMB r = mem.

Lemma acc_ok_create_new row st now :
  Reservation.Status row = ReservationActive → 0 ≤ Reservation.MemoryMB row →
  (∀ r, r ∈ reservations st → Reservation.DeploymentID r ≠ Reservation.DeploymentID row) →
  (∀ r, r ∈ reservations st → Reservation.ID r ≠ Reservation.ID row) →
  Reservation.ServerID row ∈ Server.ID <$> servers st →
  acc_ok st →
  acc_ok (set_servers (update_where (server_id (Reservation.ServerID row))
            (reserve (Reservation.CPUMillicores row) (Reservation.MemoryMB row) now) (servers st))
            (set_reservations (reservations st ++ [row]) st)).
Proof.
  intros Hst Hpos Hdep Hid Hsrv Hok. pose proof Hok as [H1 H2 H3 H4 H5 H6].
  apply acc_ok_move; try done.
  - rewrite fmap_app. apply NoDup_app. split_and!; [done| |apply NoDup_singleton].
    intros x (r & -> & Hr)%list_elem_of_fmap Hx%list_elem_of_singleton. by apply (Hid r).
  - rewrite fmap_app. apply NoDup_app. split_and!; [done| |apply NoDup_singleton].
    intros x (r & -> & Hr)%list_elem_of_fmap Hx%list_elem_of_singleton. by apply (Hdep r).
  - intros r [Hr| ->%list_elem_of_singleton]%elem_of_app; auto.
  - intros r [Hr| ->%list_elem_of_singleton]%elem_of_app; auto.
  - intros s Hs Es. simpl. rewrite H6, total_app, total_cons by done. rewrite Es.
    assert (holds (Reservation.ServerID row) row = Reservation.MemoryMB row) as ->
      by (unfold holds, active; by rewrite Hst, !String.eqb_refl).
    change (total _ []) with 0. lia.
  - intros id' Hne. rewrite total_app, total_cons. unfold holds at 2.
    destruct (Reservation.ServerID row =s? id') eqn:E; bool_to_prop; [done|].
    rewrite andb_false_r. simpl. lia.
Qed.

Lemma acc_ok_create_again row r st now :
  r ∈ reservations st → Reservation.DeploymentID r = Reservation.DeploymentID row →
  active r = false → Reservation.MemoryMB r = Reservation.MemoryMB row →
  Reservation.ServerID row ∈ Server.ID <$> servers st →
  acc_ok st →
  acc_ok (set_servers (update_where (server_id (Reservation.ServerID row))
            (reserve (Reservation.CPUMillicores row) (Reservation.MemoryMB row) now) (servers st))
            (set_reservations (update_where (for_deployment (Reservation.DeploymentID row))
               (reactivate row now) (reservations st)) st)).
Proof.
  intros Hr Hdep Hact Hmem Hsrv Hok. pose proof Hok as [H1 H2 H3 H4 H5 H6].
  assert (∀ id, total (holds id) (update_where (for_deployment (Reservation.DeploymentID row))
    (reactivate row now) (reservations st))
    = total (holds id) (reservations st)
      + if Reservation.ServerID row =s? id then Reservation.MemoryMB row else 0) as Ht.
  { intros id. rewrite (total_update_unique Reservation.DeploymentID _ _ _ _ r); try done.
    - assert (holds id r = 0) as -> by (unfold holds; by rewrite Hact).
      assert (holds id (reactivate row now r)
        = if Reservation.ServerID row =s? id then Reservation.MemoryMB r else 0) as -> by done.
      rewrite Hmem. lia.
    - unfold for_deployment. by apply String.eqb_eq.
    - unfold for_deployment. intros r' _ E. bool_to_prop. congruence. }
  apply acc_ok_move; try done.
  - by rewrite map_key_update_where.
  - by rewrite map_key_update_where.
  - intros r' (r0 & Hr0 & ->)%elem_of_update_where. case_match; simpl; auto.
  - intros r' (r0 & Hr0 & ->)%elem_of_update_where. case_match; simpl; auto.
  - intros s Hs Es. simpl. rewrite Ht, H6, Es, String.eqb_refl by done. done.
  - intros id' Hne. rewrite Ht. destruct (_ =s? id') eqn:E; bool_to_prop; [done|lia].
Qed.

Lemma matched_server id st :
  matched (server_id id) (servers st) ≠ 0 → id ∈ Server.ID <$> servers st.
Proof.
  intros H. destruct (decide (id ∈ Server.ID <$> servers st)) as [?|Hn]; [done|]. destruct H.
  apply matched_zero. intros s Hs. unfold server_id. apply String.eqb_neq. intros <-.
  apply Hn. by apply (list_elem_of_fmap_2 Server.ID).
Qed.

Lemma CreateReservation_acc fresh res now st :
  Reservation.Status res = ReservationActive → 0 ≤ Reservation.MemoryMB res →
  reservable (Reservation.DeploymentID res) (Reservation.MemoryMB res) st →
  acc_ok st → wp (CreateReservation fresh res now) (λ _, acc_ok) (λ _, acc_ok) st.
Proof.
  intros Hst Hpos Hres Hok. unfold CreateReservation, update_servers.
  wp_step; [done|].
  set (row := stored _ _ _ now). do 2 wp_step. wp_step; [done|]. unfold upsert_reservation.
  change (Reservation.DeploymentID row) with (Reservation.DeploymentID res).
  change (Reservation.ServerID row) with (Reservation.ServerID res).
  destruct (select (for_deployment (Reservation.DeploymentID res)) (reservations st)) as [|r l] eqn:E.
  - destruct (matched (server_id _) _ =? 0) eqn:Es; [done|].
    destruct (matched (λ r, Reservation.ID r =s? Reservation.ID row) (reservations st) =? 0) eqn:Ei;
      [|done].
    bool_to_prop.
    do 3 wp_step; [done|]. wp_step.
    apply (acc_ok_create_new row st now); try done.
    + intros r Hr Hd. assert (r ∈ select (for_deployment (Reservation.DeploymentID res)) (reservations st)) as Hs.
      { apply elem_of_select. split; [by apply String.eqb_eq|done]. }
      rewrite E in Hs. by apply elem_of_nil in Hs.
    + rewrite matched_zero in Ei. intros r Hr Hd. specialize (Ei r Hr). by bool_to_prop.
    + by apply matched_server.
  - destruct (matched (server_id _) _ =? 0) eqn:Es; [done|]. bool_to_prop.
    do 3 wp_step; [done|]. wp_step.
    assert (r ∈ select (for_deployment (Reservation.DeploymentID res)) (reservations st)) as Hs
      by (rewrite E; by apply elem_of_cons; left).
    apply elem_of_select in Hs as [Hd Hr]. unfold for_deployment in Hd. bool_to_prop.
    destruct (Hres r Hr Hd) as [Hact Hm].
    apply (acc_ok_create_again row r st now); try done. by apply matched_server.
Qed.

(** ** Closing one *)

Lemma acc_ok_close {K} (key : Reservation → K) p status r st now :
  NoDup (key <$> reservations st) → r ∈ reservations st → p r = true →
  (∀ r', r' ∈ reservations st → p r' = true → key r' = key r) →
  active r = true → status ≠ ReservationActive → acc_ok st →
  acc_ok (set_servers (update_where (server_id (Reservation.ServerID r))
            (unreserve (Reservation.CPUMillicores r) (Reservation.MemoryMB r) now) (servers st))
            (set_reservations (update_where p (with_status status now) (reservations st)) st)).
Proof.
  intros Hn Hr Hp Hk Hact Hstat Hok. pose proof Hok as [H1 H2 H3 H4 H5 H6].
  assert (∀ id, total (holds id) (update_where p (with_status status now) (reservations st))
    = total (holds id) (reservations st) - holds id r) as Ht.
  { intros id. rewrite (total_update_unique key _ _ _ _ r) by done.
    assert (holds id (with_status status now r) = 0) as ->; [|lia].
    unfold holds, active. simpl. apply String.eqb_neq in Hstat. by rewrite Hstat. }
  apply acc_ok_move; try done.
  - by rewrite map_key_update_where.
  - by rewrite map_key_update_where.
  - intros r' (r0 & Hr0 & ->)%elem_of_update_where. case_match; simpl; auto.
  - intros r' (r0 & Hr0 & ->)%elem_of_update_where. case_match; simpl; auto.
  - intros s Hs Es. simpl. rewrite Ht, H6, Es by done.
    pose proof (total_elem (holds (Reservation.ServerID r)) (reservations st) r) as Hle.
    assert (holds (Reservation.ServerID r) r = Reservation.MemoryMB r) as Hh
      by (unfold holds; by rewrite Hact, String.eqb_refl).
    rewrite Hh in *. specialize (Hle ltac:(intros; by eapply holds_nonneg) Hr). lia.
  - intros id' Hne. rewrite Ht. unfold holds at 2. rewrite Hact. simpl.
    destruct (_ =s? id') eqn:E; bool_to_prop; [done|lia].
Qed.

Lemma ReleaseReservation_acc org project dep now st :
  acc_ok st → wp (ReleaseReservation org project dep now) (λ _, acc_ok) (λ _, acc_ok) st.
Proof.
  intros Hok. unfold ReleaseReservation, update_servers, update_reservations. wp_step; [done|].
  set (mine := λ r, for_deployment dep r && (Reservation.OrgID r =s? org)
                    && (Reservation.ProjectID r =s? project) && active r).
  do 2 wp_step. wp_step.
  { intros e. case_match; [by wp_step|by wp_step]. }
  destruct (select mine (reservations st)) as [|r l] eqn:E; [cbn; by wp_step|].
  assert (r ∈ select mine (reservations st)) as Hs by (rewrite E; by apply elem_of_cons; left).
  apply elem_of_select in Hs as [Hm Hr]. unfold mine in Hm. bool_to_prop.
  unfold for_deployment in *. bool_to_prop. subst dep.
  do 3 wp_step; [done|]. do 3 wp_step; [done|]. wp_step.
  apply (acc_ok_close Reservation.DeploymentID); try done; try apply Hok.
  - apply andb_true_iff. split; [by apply String.eqb_eq|done].
  - intros r' _ Hr'. by bool_to_prop.
Qed.

Lemma expire_rows_acc rows now n st :
  NoDup (Reservation.ID <$> rows) →
  (∀ r, r ∈ rows → r ∈ reservations st ∧ active r = true) →
  acc_ok st → wp (expire_rows rows now n) (λ _, acc_ok) (λ _ _, True) st.
Proof.
  revert n st. induction rows as [|r rows IH]; intros n st Hn Hr Hok; simpl; [by wp_step|].
  apply NoDup_cons in Hn as [Hnr Hn]. unfold with_rows_open.
  destruct OpenRows as [e|]; [by do 2 wp_step|].
  unfold update_servers, update_reservations.
  wp_step. wp_step; [done|]. do 2 wp_step; [done|].
  destruct (Hr r) as [Hin Hact]; [by apply elem_of_cons; left|].
  apply IH; [done| |].
  - intros r' Hr'. destruct (Hr r') as [Hin' Hact']; [by apply elem_of_cons; right|].
    split; [|done]. simpl. apply elem_of_update_where. exists r'. split; [done|].
    destruct (_ =s? _) eqn:E; bool_to_prop; [|done]. destruct Hnr. rewrite <- E.
    by apply (list_elem_of_fmap_2 Reservation.ID).
  - apply (acc_ok_close Reservation.ID); try done; try apply Hok; [by apply String.eqb_eq|].
    intros r' _ E. by bool_to_prop.
Qed.

Lemma ExpireStaleReservations_acc now st :
  acc_ok st → wp (ExpireStaleReservations now) (λ _, acc_ok) (λ _, acc_ok) st.
Proof.
  intros Hok. unfold ExpireStaleReservations. wp_step; [done|]. do 3 wp_step; [done|].
  apply expire_rows_acc; [|intros r Hr|done].
  - apply NoDup_key_select, Hok.
  - apply elem_of_select in Hr as [He Hr]. unfold expired in He. by bool_to_prop.
Qed.

(** ** The other operations *)

Lemma UpsertServer_acc id hb now st :
  acc_ok st → wp (UpsertServer id hb now) (λ _, acc_ok) (λ _, acc_ok) st.
Proof.
  intros Hok. unfold UpsertServer. wp_step. wp_step; [done|]. unfold upsert_server.
  destruct (select _ (servers st)) as [|s l] eqn:E; [|by apply acc_ok_servers].
  destruct (matched (server_id _) _ =? 0) eqn:Em; [|done]. bool_to_prop. rewrite matched_zero in Em.
  apply acc_ok_new_server; [|done|done].
  intros s Hs. specialize (Em s Hs). unfold server_id in Em. by bool_to_prop.
Qed.

Lemma Publish_acc ev st : acc_ok st → wp (Publish ev) (λ _, acc_ok) (λ _, acc_ok) st.
Proof. intros [H1 H2 H3 H4 H5 H6]. unfold Publish. wp_step. wp_step; intros; by split. Qed.

Lemma ignore_Publish_acc ev st E : acc_ok st → wp (ignore (Publish ev)) (λ _, acc_ok) E st.
Proof. intros H. wp_step. by apply Publish_acc. Qed.

Lemma MarkMissedHeartbeats_acc threshold n now st :
  acc_ok st → wp (MarkMissedHeartbeats threshold n now) (λ _, acc_ok) (λ _, acc_ok) st.
Proof.
  intros Hok. unfold MarkMissedHeartbeats, update_servers. do 3 wp_step; [done|].
  assert (acc_ok (set_servers (update_where (silent threshold now)
    (λ s, with_health (Server.Health s) (Server.MissedBeats s + 1) now s) (servers st)) st)) as Hok'
    by (by apply acc_ok_servers).
  do 3 wp_step; [done|]. wp_step. exact (acc_ok_servers (λ s, with_health HealthOffline (Server.MissedBeats s) now s) _ _
           (λ _, eq_refl) (λ _, eq_refl) Hok').
Qed.

(** ** Placing: what the engine does between its lookup and its answer *)

Context (cfg : SchedConfig).

Definition same (st st' : sched) : Prop :=
  servers st' = servers st ∧ reservations st' = reservations st.

Lemma same_acc st st' : same st st' → acc_ok st → acc_ok st'.
Proof. intros [E1 E2] [H1 H2 H3 H4 H5 H6]. split; by rewrite ?E1, ?E2. Qed.

Lemma wp_Publish ev (Q : unit → sched → Prop) E st :
  (∀ st', same st st' → Q tt st') → wp (ignore (Publish ev)) Q E st.
Proof.
  intros HQ. wp_step. unfold Publish. wp_step. wp_step; intros; by apply HQ.
Qed.

Lemma wp_ListHealthyServers region (Q : list Server → sched → Prop) E st :
  (∀ e, E e st) →
  (∀ l, (∀ s, s ∈ l → s ∈ servers st) → Q l st) → wp (ListHealthyServers region) Q E st.
Proof.
  intros HE HQ. unfold ListHealthyServers. wp_step. wp_step; [done|]. apply HQ.
  by intros s [_ Hs]%elem_of_sort_slice%elem_of_select.
Qed.

Definition reserve_host (s : Server) : string :=
  if host_of s =s? "" then "127.0.0.1" else host_of s.

Definition reserve_result (s : Server) (port : Z) : PlacementResult :=
  {| PlacementResult.Host := reserve_host s; PlacementResult.Port := port;
     PlacementResult.NodeID := Server.NodeID s; PlacementResult.Region := Server.Region s;
     PlacementResult.AgentURL := Server.AgentURL s; PlacementResult.Reserved := true |}.

Lemma wp_place fresh req now (Q : PlacementResult → sched → Prop) E st :
  (∀ e st', same st st' → E e st') →
  (∀ s st', s ∈ servers st → fits s (with_defaults cfg req) (OvercommitRatio cfg) = true → same st st' →
     let port := pickPort s (with_defaults cfg req) ∅ in
     wp (CreateReservation fresh (new_reservation cfg (with_defaults cfg req) s (reserve_host s) port now) now)
        (λ _ st2, ∀ st3, same st2 st3 → Q (reserve_result s port) st3) E st') →
  wp (place cfg fresh req now) Q E st.
Proof.
  intros HE HQ. unfold place. wp_step. apply wp_Publish. intros st1 H1. wp_step.
  apply wp_ListHealthyServers; [by auto|]. intros l Hl.
  destruct (Z.of_nat (length l) =? 0).
  { wp_step. apply wp_Publish. intros st2 H2. wp_step. apply HE. destruct H1, H2. split; congruence. }
  destruct (Select _ _ _ _) as [[s port]|] eqn:Es.
  - apply (base_placers_sound _ (Get_base _ _)) in Es as (Hs & Hf & ->).
    wp_step. eapply wp_mono; [apply (HQ s st1)| |].
    + destruct H1 as [<- _]. auto.
    + done.
    + done.
    + intros r st2 H2. cbn beta in H2. wp_step. apply wp_Publish. intros st3 H3. wp_step. apply wp_Publish.
      intros st4 H4. wp_step. apply H2. destruct H3, H4. split; congruence.
    + done.
  - wp_step. apply wp_Publish. intros st2 H2. wp_step. apply HE. destruct H1, H2. split; congruence.
Qed.

Lemma place_acc fresh req now st :
  0 ≤ DefaultMemoryMB cfg →
  reservable (PlacementRequest.DeploymentID req)
    (PlacementRequest.MemoryMB (with_defaults cfg req)) st →
  acc_ok st → wp (place cfg fresh req now) (λ _, acc_ok) (λ _, acc_ok) st.
Proof.
  intros Hd Hres Hok. apply wp_place; [by eauto using same_acc|].
  intros s st' Hs Hf Hsame port. eapply wp_mono; [apply CreateReservation_acc| |].
  - done.
  - simpl. case_match; bool_to_prop; lia.
  - intros r. rewrite (proj2 Hsame). apply Hres.
  - by eapply same_acc.
  - simpl. eauto using same_acc.
  - done.
Qed.

(** ** What a successful creation does *)

Lemma wp_CreateReservation fresh res now (Q : Reservation → sched → Prop) E st :
  (∀ e, E e st) →
  (∀ l r, Q r (set_servers (update_where (server_id (Reservation.ServerID res))
                   (reserve (Reservation.CPUMillicores res) (Reservation.MemoryMB res) now) (servers st))
                 (set_reservations l st))) →
  wp (CreateReservation fresh res now) Q E st.
Proof.
  intros HE HQ. unfold CreateReservation, update_servers. wp_step; [done|].
  wp_step. wp_step. wp_step; [done|]. unfold upsert_reservation.
  destruct (select _ _) as [|r l].
  - destruct (matched (server_id _) _ =? 0); [done|].
    destruct (matched (λ r, Reservation.ID r =s? _) _ =? 0); [|done].
    do 3 wp_step; [done|]. wp_step. apply HQ.
  - destruct (matched (server_id _) _ =? 0); [done|].
    do 3 wp_step; [done|]. wp_step. apply HQ.
Qed.

(** The same when the deployment has no reservation yet. *)
Lemma wp_CreateReservation_new fresh res now (Q : Reservation → sched → Prop) E st :
  Reservation.ID res = "" → Reservation.Metadata res = "" →
  (∀ r, r ∈ reservations st → Reservation.DeploymentID r ≠ Reservation.DeploymentID res) →
  (∀ e, E e st) →
  (∀ r, Q r (set_servers (update_where (server_id (Reservation.ServerID res))
                   (reserve (Reservation.CPUMillicores res) (Reservation.MemoryMB res) now) (servers st))
                 (set_reservations (reservations st ++ [stored res fresh "{}" now]) st))) →
  wp (CreateReservation fresh res now) Q E st.
Proof.
  intros Hid Hmeta Hnew HE HQ. unfold CreateReservation, update_servers. rewrite Hid, Hmeta.
  wp_step; [done|]. wp_step. wp_step. wp_step; [done|]. unfold upsert_reservation.
  destruct (select _ _) as [|r l] eqn:E'.
  - destruct (matched (server_id _) _ =? 0); [done|].
    destruct (matched (λ r, Reservation.ID r =s? _) _ =? 0); [|done].
    do 3 wp_step; [done|]. wp_step. apply HQ.
  - simpl in E'. assert (r ∈ r :: l) as Hr by (apply elem_of_cons; by left). rewrite <- E' in Hr.
    apply elem_of_select in Hr as [Hd Hr]. unfold for_deployment in Hd. bool_to_prop. by destruct (Hnew r).
Qed.

(** A deployment without a reservation is placed, whatever the lookup says. *)
Lemma wp_Reserve_unknown fresh req now (Q : PlacementResult → sched → Prop) E st :
  (∀ r, r ∈ reservations st → Reservation.DeploymentID r ≠ PlacementRequest.DeploymentID req) →
  (∀ e, E e st) → wp (place cfg fresh req now) Q E st → wp (Reserve cfg fresh req now) Q E st.
Proof.
  intros Hnew HE Hp. unfold Reserve. destruct (_ =s? ""); [by wp_step|]. wp_step. wp_step.
  unfold GetReservation. wp_step. wp_step; [done|].
  destruct (select _ _) as [|r l] eqn:E'; [done|].
  assert (r ∈ r :: l) as Hr by (apply elem_of_cons; by left). rewrite <- E' in Hr.
  apply elem_of_select in Hr as [Hd Hr]. unfold for_deployment in Hd. bool_to_prop. by destruct (Hnew r).
Qed.

Lemma Reserve_new fresh req now st :
  (∀ r, r ∈ reservations st → Reservation.DeploymentID r ≠ PlacementRequest.DeploymentID req) →
  wp (Reserve cfg fresh req now)
    (λ res st', ∃ s, s ∈ servers st ∧ let req' := with_defaults cfg req in
       let port := pickPort s req' ∅ in
       let row := new_reservation cfg req' s (reserve_host s) port now in
       res = reserve_result s port
       ∧ servers st' = update_where (server_id (Server.ID s))
           (reserve (PlacementRequest.CPUMillicores req') (PlacementRequest.MemoryMB req') now) (servers st)
       ∧ reservations st' = reservations st ++ [stored row fresh "{}" now])
    (λ _, same st) st.
Proof.
  intros Hnew. apply wp_Reserve_unknown; [done|by intros|]. apply wp_place; [done|].
  intros s st1 Hs _ [E1 E2] port.
  apply wp_CreateReservation_new; [done|done|by rewrite E2|by split|].
  intros _ st3 [E3 E4]. exists s. split; [done|]. simpl. split_and!; [done| |].
  - rewrite E3. simpl. by rewrite E1.
  - rewrite E4. simpl. by rewrite E2.
Qed.

(** ** Capacity *)

Definition within (s : Server) : Prop :=
  0 ≤ Server.ReservedMemoryMB s ≤ memory_capacity s (OvercommitRatio cfg)
  ∧ 0 ≤ Server.ContainerCount s ≤ Server.MaxContainers s ≤ int64_max.

Lemma int64_of_f64_range x : in_int64 (int64_of_f64 x).
Proof.
  unfold in_int64, int64_of_f64, int64_min, int64_max. destruct x; try lia.
  case_match; bool_to_prop; lia.
Qed.

Lemma fits_capacity s req :
  within s → fits s req (OvercommitRatio cfg) = true → 0 ≤ PlacementRequest.MemoryMB req →
  Server.ReservedMemoryMB s + PlacementRequest.MemoryMB req ≤ memory_capacity s (OvercommitRatio cfg)
  ∧ Server.ContainerCount s + 1 ≤ Server.MaxContainers s.
Proof.
  intros [Hm Hc] Hf Hreq. unfold fits, AvailableMemoryMB, AvailableSlots in Hf.
  pose proof (int64_of_f64_range (f64_of_Z (Server.MemoryMB s) * OvercommitRatio cfg)%f64) as Hr.
  fold (memory_capacity s (OvercommitRatio cfg)) in Hr. unfold in_int64 in Hr.
  destruct (_ <? cpuNeed req)%f64; [done|].
  rewrite !wrap64_in_range in Hf by (unfold in_int64, int64_min, int64_max in *; lia).
  repeat (case_match; try done); bool_to_prop; lia.
Qed.
End facts.

(** * The scheduler as a whole: properties of the engine over its tables *)

(** ** The engine as a state machine *)

Inductive sched_op :=
| SHeartbeat (id : string) (hb : HeartbeatPayload)
| SReserve (fresh : string) (req : PlacementRequest)
| SRelease (org project deployment correlation : string)
| SReconcile
| SRemove (node : string).

Section machine.
Context `{D : Driver} `{So : Sorter} (cfg : SchedConfig).

Definition run_sched (o : sched_op) (now : Time) : db sched unit :=
  match o with
  | SHeartbeat id hb => ignore (RegisterHeartbeat id hb now)
  | SReserve fresh req => ignore (Reserve cfg fresh req now)
  | SRelease org project dep corr => ignore (Release org project dep corr now)
  | SReconcile => ignore (Reconcile cfg now)
  | SRemove node => ignore (RemoveServer node now)
  end.

(** A deployment is reserved again only with the size of its earlier
    reservation, and the lookup of the earlier one does not fail. *)
Definition allowed (o : sched_op) (st : sched) (fs : faults) : Prop :=
  match o with
  | SReserve _ req =>
      (∀ e fs', fs ≠ Some e :: fs')
      ∧ ∀ r, r ∈ reservations st → Reservation.DeploymentID r = PlacementRequest.DeploymentID req →
             Reservation.MemoryMB r = PlacementRequest.MemoryMB (with_defaults cfg req)
  | _ => True
  end.

Inductive sstep : sched → sched → Prop :=
| sstep_op o now st fs : allowed o st fs → sstep st (tables_of (run_sched o now (st, fs))).

Lemma closed_size req st mem :
  (∀ r, r ∈ reservations st → Reservation.DeploymentID r = PlacementRequest.DeploymentID req →
        Reservation.MemoryMB r = mem) →
  select (λ r, for_deployment (PlacementRequest.DeploymentID req) r && active r) (reservations st) = [] →
  reservable (PlacementRequest.DeploymentID req) mem st.
Proof.
  intros Hs E r Hr Hd. split; [|by apply Hs]. destruct (active r) eqn:Ea; [|done].
  assert (r ∈ select (λ r, for_deployment (PlacementRequest.DeploymentID req) r && active r)
    (reservations st)) as Hin.
  { apply elem_of_select. split; [|done]. rewrite Ea, andb_true_r. by apply String.eqb_eq. }
  rewrite E in Hin. by apply elem_of_nil in Hin.
Qed.

Lemma Reserve_acc fresh req now st fs :
  0 ≤ DefaultMemoryMB cfg → allowed (SReserve fresh req) st fs →
  acc_ok st → acc_ok (tables_of (Reserve cfg fresh req now (st, fs))).
Proof.
  intros Hd [Hfs Hsize] Hok. unfold Reserve. destruct (_ =s? ""); [done|].
  unfold mbind, db_bind, attempt, GetReservation, translate, query, tables_of.
  destruct fs as [|[e|] fs]; [|by destruct (Hfs e fs)|].
  all: destruct (select _ (reservations st)) as [|r l] eqn:E.
  1, 3: by apply (wp_tables acc_ok (place cfg fresh req now)), place_acc; [|eauto using closed_size|].
  all: assert (r ∈ r :: l) as Hr by (apply elem_of_cons; by left); rewrite <- E in Hr;
    apply elem_of_select in Hr as [Ha _]; bool_to_prop; unfold active in *; by case_match.
Qed.

Lemma run_sched_acc o now st fs :
  0 ≤ DefaultMemoryMB cfg → allowed o st fs → acc_ok st → acc_ok (tables_of (run_sched o now (st, fs))).
Proof.
  intros Hd Ha Hok. destruct o; simpl; rewrite tables_of_ignore.
  - apply wp_tables. unfold RegisterHeartbeat. wp_step.
    eapply wp_mono; [by apply UpsertServer_acc| |done]. intros srv st1 H1. cbn beta in *.
    wp_step. apply wp_Publish. intros st2 H2. wp_step.
    assert (acc_ok st2) by (by eapply same_acc).
    case_match; [apply wp_Publish; intros st3 H3; wp_step; by eapply same_acc|].
    by do 2 wp_step.
  - by apply Reserve_acc.
  - apply wp_tables. unfold Release. wp_step.
    eapply wp_mono; [by apply ReleaseReservation_acc| |done]. intros ? st1 H1.
    apply wp_Publish. intros st2 H2. by eapply same_acc.
  - apply wp_tables. unfold Reconcile. wp_step.
    eapply wp_mono; [by apply ExpireStaleReservations_acc| |done]. intros ? st1 H1. cbn beta in *. wp_step.
    eapply wp_mono; [by apply MarkMissedHeartbeats_acc| |done]. intros ? st2 H2. cbn beta in *. wp_step.
    unfold CapacitySummary. wp_step. wp_step; [done|].
    apply wp_Publish. intros st3 H3. by eapply same_acc.
  - apply wp_tables. unfold RemoveServer, update_servers. wp_step. wp_step. wp_step; [done|].
    wp_step. by apply acc_ok_servers.
Qed.

(** C1: the scheduler's books balance.  After any heartbeats, reservations,
    releases, reconciliations and removals, with any statement failures, the
    reserved memory of every server is exactly the sum of its active
    reservations, reservation and deployment ids are unique, and every
    reservation names a known server; provided that a deployment is reserved
    again only with the size it had and that the lookup before it answers. *)
Theorem accounting_exact st :
  0 ≤ DefaultMemoryMB cfg →
  rtc sstep {| servers := []; reservations := []; sevents := [] |} st → acc_ok st.
Proof.
  intros Hd. remember {| servers := [] |} as st0 eqn:E0. intros H.
  assert (acc_ok st0) as H0.
  { subst. split; simpl; try constructor; intros x Hx; by apply elem_of_nil in Hx. }
  clear E0. induction H as [|st0 st1 st2 Hstep _ IH]; [done|].
  apply IH. destruct Hstep. by apply run_sched_acc.
Qed.

(** C13: a reservation never overcommits a server.  If every server is within its
    memory capacity (under the overcommit ratio) and its container slots, it
    still is after [Reserve], whatever the request, the algorithm and the
    statement failures. *)
Theorem Reserve_no_overcommit fresh req now st fs :
  0 ≤ DefaultMemoryMB cfg → NoDup (Server.ID <$> servers st) →
  Forall (within cfg) (servers st) →
  Forall (within cfg) (servers (tables_of (Reserve cfg fresh req now (st, fs)))).
Proof.
  intros Hd Hn Hw. apply (wp_tables (λ st', Forall (within cfg) (servers st'))).
  assert (wp (place cfg fresh req now) (λ _ st', Forall (within cfg) (servers st'))
            (λ _ st', Forall (within cfg) (servers st')) st) as Hp.
  { apply wp_place; [by intros e st' [-> _]|]. intros s st' Hs Hf [E1 E2] port.
    apply wp_CreateReservation; [intros; by rewrite E1|]. intros l r st3 [-> _]. simpl. rewrite E1.
    apply Forall_update_where; [|done]. intros s' Hs' Es [Hm Hc].
    unfold server_id in Es. bool_to_prop. simpl in Es.
    assert (s' = s) as -> by (by apply (NoDup_key_eq Server.ID (servers st))).
    assert (0 ≤ PlacementRequest.MemoryMB (with_defaults cfg req))
      by (simpl; case_match; bool_to_prop; lia).
    destruct (fits_capacity cfg s (with_defaults cfg req)); [done..|].
    unfold within; simpl in *. change (memory_capacity (reserve _ _ _ s)) with (memory_capacity s). lia. }
  unfold Reserve. destruct (_ =s? ""); [by wp_step|]. wp_step. wp_step.
  unfold GetReservation. wp_step. wp_step; [done|].
  destruct (select _ _) as [|r l]; [done|]. by destruct (_ =s? ReservationActive); [wp_step|].
Qed.

(** The lookup of a live reservation answers without touching anything. *)
Lemma Reserve_found fresh req now st r l :
  PlacementRequest.DeploymentID req ≠ "" →
  select (λ r, for_deployment (PlacementRequest.DeploymentID req) r && active r) (reservations st) = r :: l →
  Reserve cfg fresh req now (st, []) = (Ok (existing_result r), (st, [])).
Proof.
  intros Hne E. unfold Reserve. apply String.eqb_neq in Hne. rewrite Hne.
  unfold mbind, db_bind, attempt, GetReservation, translate, query. rewrite E.
  assert (r ∈ r :: l) as Hr by (apply elem_of_cons; by left). rewrite <- E in Hr.
  apply elem_of_select in Hr as [Ha _]. bool_to_prop. unfold active in *. by case_match.
Qed.

Lemma select_new dep row l :
  (∀ r, r ∈ l → Reservation.DeploymentID r ≠ dep) → Reservation.DeploymentID row = dep →
  active row = true → select (λ r, for_deployment dep r && active r) (l ++ [row]) = [row].
Proof.
  intros Hl Hd Ha. apply select_snoc; unfold for_deployment.
  - intros r Hr. apply andb_false_iff. left. apply String.eqb_neq. auto.
  - by rewrite Hd, Ha, String.eqb_refl.
Qed.

(** reserving is idempotent.  Once a deployment that had no reservation is
    placed, a further request for it, whatever it asks for, is answered with
    the same host, port and node, and changes nothing; if the placement fails,
    no reservation and no accounting is left behind. *)
Theorem Reserve_idempotent fresh req now st fs :
  (∀ r, r ∈ reservations st → Reservation.DeploymentID r ≠ PlacementRequest.DeploymentID req) →
  PlacementRequest.DeploymentID req ≠ "" →
  match Reserve cfg fresh req now (st, fs) with
  | (Err _, (st', _)) => servers st' = servers st ∧ reservations st' = reservations st
  | (Ok res, (st', _)) =>
      ∀ fresh2 req2 now2,
        PlacementRequest.DeploymentID req2 = PlacementRequest.DeploymentID req →
        Reserve cfg fresh2 req2 now2 (st', [])
        = (Ok {| PlacementResult.Host := PlacementResult.Host res;
                 PlacementResult.Port := PlacementResult.Port res;
                 PlacementResult.NodeID := PlacementResult.NodeID res;
                 PlacementResult.Region := ""; PlacementResult.AgentURL := "";
                 PlacementResult.Reserved := true |}, (st', []))
  end.
Proof.
  intros Hnew Hne. pose proof (Reserve_new cfg fresh req now st Hnew fs) as H.
  destruct (Reserve cfg fresh req now (st, fs)) as [[res|e] [st' fs']]; [|done].
  destruct H as (s & _ & -> & _ & Hr). intros fresh2 req2 now2 E.
  rewrite <- E in Hne, Hnew. erewrite Reserve_found; [| |rewrite Hr; apply select_new]; done.
Qed.

Lemma Release_found org project dep corr now st r l :
  select (λ r, for_deployment dep r && (Reservation.OrgID r =s? org)
               && (Reservation.ProjectID r =s? project) && active r) (reservations st) = r :: l →
  ∃ st', Release org project dep corr now (st, []) = (Ok tt, (st', []))
    ∧ servers st' = update_where (server_id (Reservation.ServerID r))
        (unreserve (Reservation.CPUMillicores r) (Reservation.MemoryMB r) now) (servers st).
Proof.
  intros E. eexists. unfold Release, ReleaseReservation, Transact, mbind, db_bind, attempt, ignore, translate.
  cbn -[update_where matched select]. rewrite E. cbn -[update_where matched select]. split; [done|]. done.
Qed.

(** Releasing undoes reserving.  When a deployment that had no reservation is
    placed and then released, the memory and the container slots held on every
    server are those from before, so nothing leaks; the release succeeds. *)
Theorem Reserve_Release_roundtrip fresh req now now2 corr st fs :
  (∀ r, r ∈ reservations st → Reservation.DeploymentID r ≠ PlacementRequest.DeploymentID req) →
  0 ≤ DefaultMemoryMB cfg → NoDup (Server.ID <$> servers st) →
  Forall (λ s, 0 ≤ Server.ReservedMemoryMB s ∧ 0 ≤ Server.ContainerCount s) (servers st) →
  let view s := (Server.ID s, Server.ReservedMemoryMB s, Server.ContainerCount s) in
  match Reserve cfg fresh req now (st, fs) with
  | (Err _, (st', _)) => view <$> servers st' = view <$> servers st
  | (Ok _, (st', _)) =>
      match Release (PlacementRequest.OrgID req) (PlacementRequest.ProjectID req)
              (PlacementRequest.DeploymentID req) corr now2 (st', []) with
      | (Ok _, (st'', _)) => view <$> servers st'' = view <$> servers st
      | (Err _, _) => False
      end
  end.
Proof.
  intros Hnew Hd Hn Hpos view. pose proof (Reserve_new cfg fresh req now st Hnew fs) as H.
  destruct (Reserve cfg fresh req now (st, fs)) as [[res|e] [st' fs']]; [|by destruct H as [-> _]].
  destruct H as (s & Hs & -> & Hsrv & Hr).
  set (row := stored _ fresh _ now) in Hr.
  destruct (Release_found (PlacementRequest.OrgID req) (PlacementRequest.ProjectID req)
    (PlacementRequest.DeploymentID req) corr now2 st' row []) as (st'' & -> & ->).
  { rewrite Hr. apply select_snoc; unfold for_deployment.
    - intros r Hin. destruct (Reservation.DeploymentID r =s? _) eqn:E; [|done].
      bool_to_prop. by destruct (Hnew r).
    - unfold active. simpl. by rewrite !String.eqb_refl. }
  rewrite Hsrv. unfold update_where. rewrite <- !list_fmap_compose. apply list_fmap_ext.
  intros i s' Hs'%list_elem_of_lookup_2. rewrite Forall_forall in Hpos. specialize (Hpos s' Hs').
  simpl. unfold view, server_id. destruct (Server.ID s' =s? Server.ID s) eqn:E; simpl.
  - change (Reservation.ServerID row) with (Server.ID s). rewrite E. simpl. do 2 f_equal; [f_equal|]; lia.
  - change (Reservation.ServerID row) with (Server.ID s). by rewrite E.
Qed.

(** where the driver refuses statements on a connection whose rows are still
    open, expiry is stuck: as soon as one reservation has run out,
    [ExpireStaleReservations] fails under every pattern of faults and frees
    nothing. *)
Theorem expiry_blocked e now st fs :
  OpenRows = Some e → (∃ r, r ∈ reservations st ∧ expired now r = true) →
  match ExpireStaleReservations now (st, fs) with
  | (Ok _, _) => False
  | (Err _, (st', _)) => st' = st
  end.
Proof.
  intros Ho (r & Hr & He).
  assert (wp (ExpireStaleReservations now) (λ _ _, False) (λ _ st', st' = st) st) as H;
    [|specialize (H fs); by destruct (ExpireStaleReservations now (st, fs)) as [[?|?] [? ?]]].
  unfold ExpireStaleReservations. wp_step; [done|]. do 3 wp_step; [done|].
  destruct (select (expired now) (reservations st)) as [|r' l] eqn:E.
  - assert (r ∈ select (expired now) (reservations st)) as Hs by by apply elem_of_select.
    rewrite E in Hs. by apply elem_of_nil in Hs.
  - simpl. unfold with_rows_open. rewrite Ho. by do 2 wp_step.
Qed.
End machine.

(** ** Witnesses *)

#[local] Existing Instance strict_driver.
#[local] Existing Instance insertion_sorter.

Definition some_sched_cfg : SchedConfig :=
  {| DefaultAlgorithm := "least_loaded"; ReservationTTL := 30 * Minute; HeartbeatInterval := 15 * Second;
     MissedHeartbeats := 3; OvercommitRatio := f1; DefaultCPUMillicores := 250; DefaultMemoryMB := 512 |}.

Definition some_heartbeat : HeartbeatPayload :=
  {| HeartbeatPayload.NodeID := "n1"; HeartbeatPayload.Hostname := "h1";
     HeartbeatPayload.AdvertiseHost := ""; HeartbeatPayload.AgentURL := "";
     HeartbeatPayload.Region := "eu"; HeartbeatPayload.AvailabilityZone := "a";
     HeartbeatPayload.InstanceType := ""; HeartbeatPayload.Architecture := "amd64";
     HeartbeatPayload.OS := "linux"; HeartbeatPayload.KernelVersion := "";
     HeartbeatPayload.DockerVersion := ""; HeartbeatPayload.CPUCores := f64_of_Z 8;
     HeartbeatPayload.MemoryMB := 2048; HeartbeatPayload.DiskGB := 100; HeartbeatPayload.GPUCount := 0;
     HeartbeatPayload.MaxContainers := 3; HeartbeatPayload.ContainerCount := 0;
     HeartbeatPayload.Health := HealthHealthy; HeartbeatPayload.Labels := "{}";
     HeartbeatPayload.Metadata := "{}" |}.

Definition with_memory (mem : Z) (req : PlacementRequest) : PlacementRequest :=
  {| PlacementRequest.OrgID := PlacementRequest.OrgID req;
     PlacementRequest.ProjectID := PlacementRequest.ProjectID req;
     PlacementRequest.DeploymentID := PlacementRequest.DeploymentID req;
     PlacementRequest.Region := PlacementRequest.Region req;
     PlacementRequest.AvailabilityZone := PlacementRequest.AvailabilityZone req;
     PlacementRequest.CPUMillicores := PlacementRequest.CPUMillicores req;
     PlacementRequest.MemoryMB := mem; PlacementRequest.PortMin := PlacementRequest.PortMin req;
     PlacementRequest.PortMax := PlacementRequest.PortMax req;
     PlacementRequest.GPURequired := PlacementRequest.GPURequired req;
     PlacementRequest.Algorithm := PlacementRequest.Algorithm req;
     PlacementRequest.Labels := PlacementRequest.Labels req;
     PlacementRequest.CorrelationID := PlacementRequest.CorrelationID req |}.

Definition empty_sched : sched := {| servers := []; reservations := []; sevents := [] |}.

Definition run_all (l : list (sched_op * Time)) (st : sched) : sched :=
  foldl (λ st '(o, now), tables_of (run_sched some_sched_cfg o now (st, []))) st l.

Definition one_server : sched := run_all [(SHeartbeat "s1" some_heartbeat, 10)] empty_sched.
Definition one_reserved : sched := run_all [(SReserve "r1" (some_request "d1"), 11)] one_server.

(** A reservation, and one that fails in the middle. *)
Definition half_failed : sched :=
  tables_of (run_sched some_sched_cfg (SReserve "r2" (some_request "d2")) 12
    (one_reserved, [None; None; None; Some (Plain "timeout")])).

Lemma accounting_exact_witness :
  acc_ok half_failed ∧ Server.ReservedMemoryMB <$> servers half_failed = [512]
  ∧ Reservation.DeploymentID <$> reservations half_failed = ["d1"].
Proof.
  split; [|by vm_compute]. apply (accounting_exact some_sched_cfg); [vm_compute; discriminate|].
  eapply rtc_l; [by apply (sstep_op some_sched_cfg (SHeartbeat "s1" some_heartbeat) 10 empty_sched [])|].
  eapply rtc_l; [apply (sstep_op some_sched_cfg (SReserve "r1" (some_request "d1")) 11 one_server [])|].
  { split; [by intros e fs|]. intros r Hr. vm_compute in Hr. by apply elem_of_nil in Hr. }
  apply rtc_once. apply (sstep_op some_sched_cfg (SReserve "r2" (some_request "d2")) 12 one_reserved).
  split; [by intros e fs|]. intros r Hr Hd.
  assert (Forall (λ r, Reservation.DeploymentID r ≠ "d2") (reservations one_reserved)) as H
    by (apply (bool_decide_unpack _); vm_compute; exact I).
  by apply (proj1 (Forall_forall _ _) H r Hr) in Hd.
Defined.

Lemma one_server_unique : NoDup (Server.ID <$> servers one_server).
Proof. vm_compute. apply NoDup_singleton. Qed.

Lemma one_server_within : Forall (within some_sched_cfg) (servers one_server).
Proof. constructor; [|constructor]. split; split; vm_compute; try split; discriminate. Qed.

Lemma Reserve_no_overcommit_witness :
  Forall (within some_sched_cfg)
    (servers (tables_of (Reserve some_sched_cfg "r1" (some_request "d1") 11 (one_server, [])))).
Proof.
  apply Reserve_no_overcommit;
    [vm_compute; discriminate|apply one_server_unique|apply one_server_within].
Defined.

Lemma Reserve_idempotent_witness :
  match Reserve some_sched_cfg "r1" (some_request "d1") 11 (one_server, []) with
  | (Err _, _) => False
  | (Ok res, (st', _)) =>
      fst (Reserve some_sched_cfg "r2" (with_memory 1024 (some_request "d1")) 20 (st', []))
      = Ok {| PlacementResult.Host := PlacementResult.Host res;
              PlacementResult.Port := PlacementResult.Port res;
              PlacementResult.NodeID := PlacementResult.NodeID res;
              PlacementResult.Region := ""; PlacementResult.AgentURL := "";
              PlacementResult.Reserved := true |}
  end.
Proof.
  pose proof (Reserve_idempotent some_sched_cfg "r1" (some_request "d1") 11 one_server []
    ltac:(vm_compute; intros r Hr; by apply elem_of_nil in Hr) ltac:(done)) as H.
  destruct (Reserve some_sched_cfg "r1" (some_request "d1") 11 (one_server, [])) as [[res|e] [st' fs']] eqn:E.
  - by rewrite H.
  - vm_compute in E. discriminate.
Defined.

Lemma Reserve_Release_roundtrip_witness :
  let view s := (Server.ID s, Server.ReservedMemoryMB s, Server.ContainerCount s) in
  match Release "o" "p" "d1" "" 20 (one_reserved, []) with
  | (Ok _, (st'', _)) => view <$> servers st'' = view <$> servers one_server
  | (Err _, _) => False
  end.
Proof.
  assert (Forall (λ s, 0 ≤ Server.ReservedMemoryMB s ∧ 0 ≤ Server.ContainerCount s) (servers one_server)) as Hp.
  { constructor; [|constructor]. split; vm_compute; discriminate. }
  pose proof (Reserve_Release_roundtrip some_sched_cfg "r1" (some_request "d1") 11 20 "" one_server []
    ltac:(vm_compute; intros r Hr; by apply elem_of_nil in Hr) ltac:(vm_compute; discriminate)
    one_server_unique Hp) as H.
  vm_compute in H |- *. exact H.
Defined.

Lemma expiry_blocked_witness :
  match ExpireStaleReservations (Hour + 20) (one_reserved, []) with
  | (Ok _, _) => False
  | (Err _, (st', _)) => st' = one_reserved
  end.
Proof.
  apply (expiry_blocked (Plain "conn busy")); [done|].
  eexists. split; [vm_compute; by apply elem_of_cons; left|]. vm_compute. reflexivity.
Defined.

(** ** What the engine does not promise *)

(** The search for a port never learns which ports are in use and starts from
    the length of the deployment id: two deployments on a server get the same
    port whenever their ids are equally long, as UUIDs are. *)
Example same_port_for_all :
  (λ r, (Reservation.DeploymentID r, Reservation.NodeID r, Reservation.Port r))
    <$> reservations (run_all [(SReserve "r2" (some_request "d2"), 12)] one_reserved)
  = [("d1", "n1", 30002); ("d2", "n1", 30002)].
Proof. vm_compute. reflexivity. Qed.

(** Reserving again with another size keeps the old size in the reservation and
    adds the new one to the server: the difference is never released. *)
Example resized_reservation_leaks :
  let st := run_all [(SRelease "o" "p" "d1" "", 12);
                     (SReserve "r2" (with_memory 1024 (some_request "d1")), 13);
                     (SRelease "o" "p" "d1" "", 14)] one_reserved in
  (Server.ReservedMemoryMB <$> servers st, Reservation.Status <$> reservations st)
  = ([512], [ReservationReleased]).
Proof. vm_compute. reflexivity. Qed.

(** A failing lookup counts as no reservation: the deployment is booked twice. *)
Example failed_lookup_books_twice :
  Server.ReservedMemoryMB <$> servers
    (tables_of (Reserve some_sched_cfg "r2" (some_request "d1") 12
                  (one_reserved, [Some (Plain "timeout")]))) = [1024].
Proof. vm_compute. reflexivity. Qed.

(** The repository compares the driver's own error with the platform code: a
    release without an active reservation is an error, not a no-op. *)
Example release_twice_fails :
  match Release "o" "p" "d2" "" 12 (one_reserved, []) with
  | (Err e, _) => CodeOf (Some e) = CodeNotFound
  | (Ok _, _) => False
  end.
Proof. vm_compute. reflexivity. Qed.

(** The upsert returns the row after it reset the missed beats, so a server
    that comes back is never announced as recovered. *)
Example recovery_never_announced :
  let st := {| servers := with_health HealthOffline 5 30 <$> servers one_server;
               reservations := []; sevents := [] |} in
  event_type <$> sevents (run_all [(SHeartbeat "s2" some_heartbeat, 40)] st) = [HeartbeatReceived].
Proof. vm_compute. reflexivity. Qed.
