(* ===== verification/ProxyStore.v ===== *)
(** * Proxy data (packages/application/proxy/model, and the statements of
    store/repository.go on routes, versions and previews)

    Header maps are kept decoded: the repository stores their JSON text, which
    [encoding/json] reads back. *)

From S2P Require Import Prelude GoLib Errors Postgres Sql.

Abbreviation RouteStatus := string.
Definition RouteStatusPending : RouteStatus := "pending".
Definition RouteStatusActive : RouteStatus := "active".
Definition RouteStatusDraining : RouteStatus := "draining".
Definition RouteStatusRemoved : RouteStatus := "removed".
Definition RouteStatusError : RouteStatus := "error".

Abbreviation RouteKind := string.
Definition RouteKindPlatform : RouteKind := "platform".

Abbreviation TrafficMode := string.
Definition TrafficModeActive : TrafficMode := "active".
Definition TrafficModeGreen : TrafficMode := "green".
Definition TrafficModeCanary : TrafficMode := "canary".

Abbreviation PreviewStatus := string.
Definition PreviewStatusActive : PreviewStatus := "active".
Definition PreviewStatusDeleted : PreviewStatus := "deleted".

Module Route.
Record t := mk {
  ID : string;
  OrgID : string;
  ProjectID : string;
  DeploymentID : string;
  DomainID : string;
  Hostname : string;
  Upstream : string;
  Kind : RouteKind;
  Status : RouteStatus;
  Mode : TrafficMode;
  CanaryWeight : Z;
  PreviousUpstream : string;
  TLSEnabled : bool;
  HTTPSRedirect : bool;
  StripPrefix : string;
  AddHeaders : gmap string string;
  TimeoutSeconds : Z;
  MaxRetries : Z;
  Version : Z;
  CorrelationID : string;
  Metadata : string;
  CreatedAt : Time;
  UpdatedAt : Time;
  DeletedAt : option Time;
}.
End Route.
Abbreviation Route := Route.t.

Definition IsActive (r : Route) : bool := Route.Status r =s? RouteStatusActive.

Module Preview.
Record t := mk {
  ID : string;
  OrgID : string;
  ProjectID : string;
  DeploymentID : string;
  Hostname : string;
  Upstream : string;
  Branch : string;
  CommitSHA : string;
  Status : PreviewStatus;
  ExpiresAt : option Time;
  CorrelationID : string;
  Metadata : string;
  CreatedAt : Time;
  UpdatedAt : Time;
  DeletedAt : option Time;
}.
End Preview.
Abbreviation Preview := Preview.t.

Definition Preview_IsExpired (p : Preview) (now : Time) : bool :=
  match Preview.ExpiresAt p with None => false | Some t => After now t end.

(** A row of the version history, without its metadata. *)
Module RouteVersion.
Record t := mk {
  ID : string;
  RouteID : string;
  OrgID : string;
  ProjectID : string;
  DeploymentID : string;
  Hostname : string;
  Upstream : string;
  Version : Z;
  CorrelationID : string;
  CreatedAt : Time;
}.
End RouteVersion.
Abbreviation RouteVersion := RouteVersion.t.

Module TrafficSwitchRequest.
Record t := mk {
  OrgID : string;
  ProjectID : string;
  DeploymentID : string;
  Hostname : string;
  NewUpstream : string;
  PreviousUpstream : string;
  Mode : TrafficMode;
  CanaryWeight : Z;
  CorrelationID : string;
}.
End TrafficSwitchRequest.
Abbreviation TrafficSwitchRequest := TrafficSwitchRequest.t.

Module CaddyRouteConfig.
Record t := mk {
  RouteID : string;
  Hostname : string;
  Upstream : string;
  TLSEnabled : bool;
  HTTPSRedirect : bool;
  StripPrefix : string;
  AddHeaders : gmap string string;
  TimeoutSeconds : Z;
  MaxRetries : Z;
  CanaryWeight : Z;
  CanaryUpstream : string;
}.
End CaddyRouteConfig.
Abbreviation CaddyRouteConfig := CaddyRouteConfig.t.

(** * The proxy's tables (packages/application/proxy/store)

    Routes with their version history, and previews.  The identifiers of rows are
    valid; those that come from a request are checked as UUIDs.  The state carries the
    edge server's configuration [C] beside the tables, so that the engine can
    change both. *)

Record proxy (C : Type) := mkProxy {
  routes : list Route;
  versions : list RouteVersion;
  previews : list Preview;
  edge : C;
}.
Arguments mkProxy {C}.
Arguments routes {C}. Arguments versions {C}. Arguments previews {C}. Arguments edge {C}.

Section setters.
Context {C : Type}.
Definition set_routes (l : list Route) (st : proxy C) : proxy C :=
  mkProxy l (versions st) (previews st) (edge st).
Definition set_versions (l : list RouteVersion) (st : proxy C) : proxy C :=
  mkProxy (routes st) l (previews st) (edge st).
Definition set_previews (l : list Preview) (st : proxy C) : proxy C :=
  mkProxy (routes st) (versions st) l (edge st).
Definition set_edge (c : C) (st : proxy C) : proxy C :=
  mkProxy (routes st) (versions st) (previews st) c.
End setters.

(** ** Row updates *)

Definition route_status (status : RouteStatus) (now : Time) (r : Route) : Route :=
  {| Route.ID := Route.ID r; Route.OrgID := Route.OrgID r; Route.ProjectID := Route.ProjectID r;
     Route.DeploymentID := Route.DeploymentID r; Route.DomainID := Route.DomainID r;
     Route.Hostname := Route.Hostname r; Route.Upstream := Route.Upstream r;
     Route.Kind := Route.Kind r; Route.Status := status; Route.Mode := Route.Mode r;
     Route.CanaryWeight := Route.CanaryWeight r;
     Route.PreviousUpstream := Route.PreviousUpstream r; Route.TLSEnabled := Route.TLSEnabled r;
     Route.HTTPSRedirect := Route.HTTPSRedirect r; Route.StripPrefix := Route.StripPrefix r;
     Route.AddHeaders := Route.AddHeaders r; Route.TimeoutSeconds := Route.TimeoutSeconds r;
     Route.MaxRetries := Route.MaxRetries r; Route.Version := Route.Version r;
     Route.CorrelationID := Route.CorrelationID r; Route.Metadata := Route.Metadata r;
     Route.CreatedAt := Route.CreatedAt r; Route.UpdatedAt := now;
     Route.DeletedAt := Route.DeletedAt r |}.

Definition route_traffic (upstream previous : string) (mode : TrafficMode) (weight : Z) (now : Time)
    (r : Route) : Route :=
  {| Route.ID := Route.ID r; Route.OrgID := Route.OrgID r; Route.ProjectID := Route.ProjectID r;
     Route.DeploymentID := Route.DeploymentID r; Route.DomainID := Route.DomainID r;
     Route.Hostname := Route.Hostname r; Route.Upstream := upstream; Route.Kind := Route.Kind r;
     Route.Status := Route.Status r; Route.Mode := mode; Route.CanaryWeight := weight;
     Route.PreviousUpstream := previous; Route.TLSEnabled := Route.TLSEnabled r;
     Route.HTTPSRedirect := Route.HTTPSRedirect r; Route.StripPrefix := Route.StripPrefix r;
     Route.AddHeaders := Route.AddHeaders r; Route.TimeoutSeconds := Route.TimeoutSeconds r;
     Route.MaxRetries := Route.MaxRetries r; Route.Version := Route.Version r + 1;
     Route.CorrelationID := Route.CorrelationID r; Route.Metadata := Route.Metadata r;
     Route.CreatedAt := Route.CreatedAt r; Route.UpdatedAt := now;
     Route.DeletedAt := Route.DeletedAt r |}.

Definition route_removed (now : Time) (r : Route) : Route :=
  {| Route.ID := Route.ID r; Route.OrgID := Route.OrgID r; Route.ProjectID := Route.ProjectID r;
     Route.DeploymentID := Route.DeploymentID r; Route.DomainID := Route.DomainID r;
     Route.Hostname := Route.Hostname r; Route.Upstream := Route.Upstream r;
     Route.Kind := Route.Kind r; Route.Status := RouteStatusRemoved; Route.Mode := Route.Mode r;
     Route.CanaryWeight := Route.CanaryWeight r;
     Route.PreviousUpstream := Route.PreviousUpstream r; Route.TLSEnabled := Route.TLSEnabled r;
     Route.HTTPSRedirect := Route.HTTPSRedirect r; Route.StripPrefix := Route.StripPrefix r;
     Route.AddHeaders := Route.AddHeaders r; Route.TimeoutSeconds := Route.TimeoutSeconds r;
     Route.MaxRetries := Route.MaxRetries r; Route.Version := Route.Version r;
     Route.CorrelationID := Route.CorrelationID r; Route.Metadata := Route.Metadata r;
     Route.CreatedAt := Route.CreatedAt r; Route.UpdatedAt := now; Route.DeletedAt := Some now |}.

(** The [DO UPDATE] of the route upsert: [rt] over the existing row [r]. *)
Definition route_merge (rt : Route) (now : Time) (r : Route) : Route :=
  {| Route.ID := Route.ID r; Route.OrgID := Route.OrgID r; Route.ProjectID := Route.ProjectID r;
     Route.DeploymentID := Route.DeploymentID rt; Route.DomainID := Route.DomainID r;
     Route.Hostname := Route.Hostname r; Route.Upstream := Route.Upstream rt;
     Route.Kind := Route.Kind r; Route.Status := Route.Status rt; Route.Mode := Route.Mode rt;
     Route.CanaryWeight := Route.CanaryWeight rt;
     Route.PreviousUpstream := Route.PreviousUpstream rt;
     Route.TLSEnabled := Route.TLSEnabled rt; Route.HTTPSRedirect := Route.HTTPSRedirect rt;
     Route.StripPrefix := Route.StripPrefix rt; Route.AddHeaders := Route.AddHeaders rt;
     Route.TimeoutSeconds := Route.TimeoutSeconds rt; Route.MaxRetries := Route.MaxRetries rt;
     Route.Version := Route.Version r + 1; Route.CorrelationID := Route.CorrelationID rt;
     Route.Metadata := Route.Metadata rt; Route.CreatedAt := Route.CreatedAt r;
     Route.UpdatedAt := now; Route.DeletedAt := Route.DeletedAt r |}.

(** The row the [INSERT] adds. *)
Definition route_insert (rt : Route) (id : string) (now : Time) : Route :=
  {| Route.ID := id; Route.OrgID := Route.OrgID rt; Route.ProjectID := Route.ProjectID rt;
     Route.DeploymentID := Route.DeploymentID rt; Route.DomainID := Route.DomainID rt;
     Route.Hostname := Route.Hostname rt; Route.Upstream := Route.Upstream rt;
     Route.Kind := Route.Kind rt; Route.Status := Route.Status rt; Route.Mode := Route.Mode rt;
     Route.CanaryWeight := Route.CanaryWeight rt;
     Route.PreviousUpstream := Route.PreviousUpstream rt;
     Route.TLSEnabled := Route.TLSEnabled rt; Route.HTTPSRedirect := Route.HTTPSRedirect rt;
     Route.StripPrefix := Route.StripPrefix rt; Route.AddHeaders := Route.AddHeaders rt;
     Route.TimeoutSeconds := Route.TimeoutSeconds rt; Route.MaxRetries := Route.MaxRetries rt;
     Route.Version := Route.Version rt; Route.CorrelationID := Route.CorrelationID rt;
     Route.Metadata := Route.Metadata rt; Route.CreatedAt := now; Route.UpdatedAt := now;
     Route.DeletedAt := None |}.

Definition preview_merge (p : Preview) (now : Time) (r : Preview) : Preview :=
  {| Preview.ID := Preview.ID r; Preview.OrgID := Preview.OrgID r;
     Preview.ProjectID := Preview.ProjectID r; Preview.DeploymentID := Preview.DeploymentID r;
     Preview.Hostname := Preview.Hostname p; Preview.Upstream := Preview.Upstream p;
     Preview.Branch := Preview.Branch p; Preview.CommitSHA := Preview.CommitSHA p;
     Preview.Status := Preview.Status p; Preview.ExpiresAt := Preview.ExpiresAt p;
     Preview.CorrelationID := Preview.CorrelationID p; Preview.Metadata := Preview.Metadata p;
     Preview.CreatedAt := Preview.CreatedAt r; Preview.UpdatedAt := now;
     Preview.DeletedAt := Preview.DeletedAt r |}.

Definition preview_insert (p : Preview) (id : string) (now : Time) : Preview :=
  {| Preview.ID := id; Preview.OrgID := Preview.OrgID p;
     Preview.ProjectID := Preview.ProjectID p; Preview.DeploymentID := Preview.DeploymentID p;
     Preview.Hostname := Preview.Hostname p; Preview.Upstream := Preview.Upstream p;
     Preview.Branch := Preview.Branch p; Preview.CommitSHA := Preview.CommitSHA p;
     Preview.Status := Preview.Status p; Preview.ExpiresAt := Preview.ExpiresAt p;
     Preview.CorrelationID := Preview.CorrelationID p; Preview.Metadata := Preview.Metadata p;
     Preview.CreatedAt := now; Preview.UpdatedAt := now; Preview.DeletedAt := None |}.

Definition preview_removed (now : Time) (p : Preview) : Preview :=
  {| Preview.ID := Preview.ID p; Preview.OrgID := Preview.OrgID p;
     Preview.ProjectID := Preview.ProjectID p; Preview.DeploymentID := Preview.DeploymentID p;
     Preview.Hostname := Preview.Hostname p; Preview.Upstream := Preview.Upstream p;
     Preview.Branch := Preview.Branch p; Preview.CommitSHA := Preview.CommitSHA p;
     Preview.Status := PreviewStatusDeleted; Preview.ExpiresAt := Preview.ExpiresAt p;
     Preview.CorrelationID := Preview.CorrelationID p; Preview.Metadata := Preview.Metadata p;
     Preview.CreatedAt := Preview.CreatedAt p; Preview.UpdatedAt := now;
     Preview.DeletedAt := Some now |}.

(** ** Conditions *)

Definition live (r : Route) : bool := match Route.DeletedAt r with None => true | Some _ => false end.
Definition on_host (hostname : string) (r : Route) : bool := (Route.Hostname r =s? hostname) && live r.
Definition on_deployment (dep : string) (r : Route) : bool := (Route.DeploymentID r =s? dep) && live r.
Definition route_id (id : string) (r : Route) : bool := Route.ID r =s? id.
Definition preview_live (p : Preview) : bool :=
  match Preview.DeletedAt p with None => true | Some _ => false end.
Definition preview_of (dep : string) (p : Preview) : bool :=
  (Preview.DeploymentID p =s? dep) && preview_live p.

Section repository.
Context `{D : Driver} `{So : Sorter} {C : Type}.

Definition update_routes (p : Route → bool) (f : Route → Route) : db (proxy C) unit :=
  exec (λ st, (tt, set_routes (update_where p f (routes st)) st)).

(** ** Routes *)

Definition upsert_route (rt : Route) (id : string) (now : Time) (st : proxy C)
    : result error Route * proxy C :=
  match select (on_host (Route.Hostname rt)) (routes st) with
  | r :: _ =>
      (Ok (route_merge rt now r),
       set_routes (update_where (on_host (Route.Hostname rt)) (route_merge rt now) (routes st)) st)
  | [] =>
      if matched (route_id id) (routes st) =? 0
      then (Ok (route_insert rt id now), set_routes (routes st ++ [route_insert rt id now]) st)
      else (Err (PgError sqlStateUniqueViolation "duplicate key"), st)
  end.

(** [fresh] is the identifier drawn when the route has none. *)
Definition UpsertRoute (fresh : string) (rt : Route) (now : Time) : db (proxy C) Route :=
  let id := if Route.ID rt =s? "" then fresh else Route.ID rt in
  translate "proxy: scan route" (query
    (with_uuids [id; Route.OrgID rt; Route.ProjectID rt; Route.DeploymentID rt; Route.DomainID rt] (upsert_route rt id now))).

Definition one_route (p : Route → bool) : db (proxy C) Route :=
  translate "proxy: scan route" (query (λ st,
    (match select p (routes st) with r :: _ => Ok r | [] => Err ErrNoRows end, st))).

Definition GetRouteByHostname (hostname : string) : db (proxy C) Route := one_route (on_host hostname).

(** [ORDER BY created_at DESC LIMIT 1] *)
Definition GetRouteByDeployment (dep : string) : db (proxy C) Route :=
  translate "proxy: scan route" (query (with_uuids [dep] (λ st,
    (match sort_slice (λ a b, Route.CreatedAt b <? Route.CreatedAt a)
             (select (on_deployment dep) (routes st)) with
     | r :: _ => Ok r
     | [] => Err ErrNoRows
     end, st)))).

(** The order of the collation is a parameter of the listing queries. *)
Definition by_hostname (host_lt : string → string → bool) (a b : Route) : bool :=
  host_lt (Route.Hostname a) (Route.Hostname b).

Definition ListRoutesByProject (host_lt : string → string → bool) (orgID projectID : string)
    : db (proxy C) (list Route) :=
  translate "proxy: list routes" (query (with_uuids [orgID; projectID] (λ st,
    (Ok (sort_slice (by_hostname host_lt)
       (select (λ r, (Route.OrgID r =s? orgID) && (Route.ProjectID r =s? projectID) && live r)
          (routes st))), st)))).

Definition in_service (r : Route) : bool :=
  ((Route.Status r =s? RouteStatusActive) || (Route.Status r =s? RouteStatusDraining)) && live r.

Definition ListActiveRoutes (host_lt : string → string → bool) : db (proxy C) (list Route) :=
  translate "proxy: list active routes" (exec (λ st,
    (sort_slice (by_hostname host_lt) (select in_service (routes st)), st))).

Definition SetRouteStatus (id : string) (status : RouteStatus) (now : Time) : db (proxy C) unit :=
  translate "proxy: set route status" (update_routes (route_id id) (route_status status now)).

Definition UpdateRouteTraffic (id upstream previous : string) (mode : TrafficMode) (weight : Z)
    (now : Time) : db (proxy C) unit :=
  translate "proxy: update route traffic"
    (update_routes (route_id id) (route_traffic upstream previous mode weight now)).

Definition SoftDeleteRoute (id : string) (now : Time) : db (proxy C) unit :=
  translate "proxy: delete route" (update_routes (route_id id) (route_removed now)).

Definition RecordRouteVersion (fresh : string) (rt : Route) (now : Time) : db (proxy C) unit :=
  translate "proxy: record route version" (exec (λ st,
    (tt, set_versions (versions st ++
      [{| RouteVersion.ID := fresh; RouteVersion.RouteID := Route.ID rt;
          RouteVersion.OrgID := Route.OrgID rt; RouteVersion.ProjectID := Route.ProjectID rt;
          RouteVersion.DeploymentID := Route.DeploymentID rt;
          RouteVersion.Hostname := Route.Hostname rt; RouteVersion.Upstream := Route.Upstream rt;
          RouteVersion.Version := Route.Version rt;
          RouteVersion.CorrelationID := Route.CorrelationID rt; RouteVersion.CreatedAt := now |}]) st))).

(** [ORDER BY version DESC LIMIT $2] *)
Definition ListRouteVersions (routeID : string) (limit : Z) : db (proxy C) (list RouteVersion) :=
  translate "proxy: list route versions" (query (with_uuids [routeID] (λ st,
    (limit_rows limit (sort_slice (λ a b, RouteVersion.Version b <? RouteVersion.Version a)
       (select (λ v, RouteVersion.RouteID v =s? routeID) (versions st))), st)))).

(** ** Previews *)

Definition upsert_preview (p : Preview) (id : string) (now : Time) (st : proxy C)
    : result error Preview * proxy C :=
  match select (preview_of (Preview.DeploymentID p)) (previews st) with
  | r :: _ =>
      (Ok (preview_merge p now r),
       set_previews (update_where (preview_of (Preview.DeploymentID p)) (preview_merge p now)
                       (previews st)) st)
  | [] =>
      if matched (λ r, Preview.ID r =s? id) (previews st) =? 0
      then (Ok (preview_insert p id now), set_previews (previews st ++ [preview_insert p id now]) st)
      else (Err (PgError sqlStateUniqueViolation "duplicate key"), st)
  end.

Definition UpsertPreview (fresh : string) (p : Preview) (now : Time) : db (proxy C) Preview :=
  let id := if Preview.ID p =s? "" then fresh else Preview.ID p in
  translate "proxy: scan preview" (query
    (with_uuids [id; Preview.OrgID p; Preview.ProjectID p; Preview.DeploymentID p] (upsert_preview p id now))).

Definition GetPreviewByDeployment (dep : string) : db (proxy C) Preview :=
  translate "proxy: scan preview" (query (with_uuids [dep] (λ st,
    (match select (preview_of dep) (previews st) with p :: _ => Ok p | [] => Err ErrNoRows end, st)))).

(** [ORDER BY created_at DESC] *)
Definition ListActivePreviewsByProject (orgID projectID : string) : db (proxy C) (list Preview) :=
  translate "proxy: list previews" (query (with_uuids [orgID; projectID] (λ st,
    (Ok (sort_slice (λ a b, Preview.CreatedAt b <? Preview.CreatedAt a)
       (select (λ p, (Preview.OrgID p =s? orgID) && (Preview.ProjectID p =s? projectID)
                     && (Preview.Status p =s? PreviewStatusActive) && preview_live p)
          (previews st))), st)))).

Definition preview_due (now : Time) (p : Preview) : bool :=
  (Preview.Status p =s? PreviewStatusActive)
  && match Preview.ExpiresAt p with Some t => t <=? now | None => false end
  && preview_live p.

Definition ListExpiredPreviews (now : Time) : db (proxy C) (list Preview) :=
  translate "proxy: list expired previews" (exec (λ st, (select (preview_due now) (previews st), st))).

Definition SoftDeletePreview (id : string) (now : Time) : db (proxy C) unit :=
  translate "proxy: delete preview" (exec (λ st,
    (tt, set_previews (update_where (λ p, Preview.ID p =s? id) (preview_removed now) (previews st)) st))).
End repository.
