(* ===== verification/RouteEngine.v ===== *)
(** * The Caddy client (packages/application/proxy/caddy)

    Caddy itself is a parameter: a class of the requests that the client sends
    to its Admin API, with what its documentation says of them.  A request is a
    step of the fault script like a statement: it may fail in transport and
    then leaves the server alone. *)

From Stdlib Require Import Ascii.
From stdpp Require Import pretty.
From S2P Require Import Prelude GoLib Errors Postgres Sql ProxyStore.

(** A route object: [@id], host matcher, and what of [reverse_proxy] varies
    (upstreams with their weight, 0 when omitted). *)
Record caddyRoute := {
  route_tag : string;
  route_hosts : list string;
  route_upstreams : list (string * Z);
  route_timeout : string;
  route_retries : Z;
  route_headers : gmap string string;
}.

(** ** The Admin API *)

(** An answer: done, 404, or 400 with its body. *)
Inductive CaddyAnswer (C : Type) := Done (c : C) | NotFound | Refused (body : string).
Arguments Done {C}.
Arguments NotFound {C}.
Arguments Refused {C}.

(** A running Caddy whose configuration has the HTTP server [main].  It checks
    what it is sent: [accepts] says which routes it takes, and it answers 400 to
    the others. *)
Class CaddyAdmin (C : Type) := {
  accepts : caddyRoute → bool;
  (* the route object with an @id *)
  served : C → string → option caddyRoute;
  (* PATCH /id/<id>, POST .../routes, DELETE /id/<id> (None is a 404) *)
  patch_id : string → caddyRoute → C → CaddyAnswer C;
  post_route : caddyRoute → C → CaddyAnswer C;
  delete_id : string → C → option C;
  (* GET and PUT of the hostnames under TLS automation; an Err is the body of a
     409: PUT only creates *)
  get_automate : C → option (list string);
  put_automate : list string → C → result string C;
  (* GET .../routes, and POST /load of routes and hostnames; an Err is the body of a 400 *)
  all_routes : C → option (list caddyRoute);
  load : list caddyRoute → list string → C → result string C;
  served_patch id r c : route_tag r = id →
    match patch_id id r c with
    | NotFound => served c id = None
    | Refused _ => accepts r = false
    | Done c' => accepts r = true ∧ is_Some (served c id) ∧
        ∀ id', served c' id' = if decide (id' = id) then Some r else served c id'
    end;
  served_post r c : served c (route_tag r) = None →
    match post_route r c with
    | NotFound => False
    | Refused _ => accepts r = false
    | Done c' => accepts r = true ∧
        ∀ id', served c' id' = if decide (id' = route_tag r) then Some r else served c id'
    end;
  refused_post r c : accepts r = false → ∃ body, post_route r c = Refused body;
  served_delete id c :
    match delete_id id c with
    | None => served c id = None
    | Some c' => ∀ id', served c' id' = if decide (id' = id) then None else served c id'
    end;
  served_automate l c :
    match put_automate l c with
    | Err _ => is_Some (get_automate c)
    | Ok c' => get_automate c = None ∧ get_automate c' = Some l ∧ ∀ id, served c' id = served c id
    end;
  served_load rs l c :
    match load rs l c with
    | Err _ => ∃ r, r ∈ rs ∧ accepts r = false
    | Ok c' => (∀ id, served c' id = head (filter (λ r, route_tag r = id) rs))
               ∧ get_automate c' = match l with [] => None | _ => Some l end
    end;
}.

(** ** Building a route *)

Definition is_tag_char (c : Ascii.ascii) : bool :=
  let n := Ascii.nat_of_ascii c in
  ((97 <=? n)%nat && (n <=? 122)%nat) || ((48 <=? n)%nat && (n <=? 57)%nat) || (n =? 45)%nat.

Fixpoint sanitizeTag (s : string) : string :=
  match s with
  | EmptyString => EmptyString
  | String c s' =>
      if is_tag_char c then String c (sanitizeTag s')
      else if (Ascii.nat_of_ascii c =? 46)%nat then String "-"%char (sanitizeTag s')
      else sanitizeTag s'
  end.

Definition routeTagID (hostname : string) : string := "route-" +:+ sanitizeTag hostname.

Definition forwarded_headers : gmap string string := list_to_map
  [("X-Forwarded-For", "{http.request.remote.host}");
   ("X-Forwarded-Proto", "{http.request.scheme}");
   ("X-Real-IP", "{http.request.remote.host}");
   ("X-Forwarded-Host", "{http.request.host}")].

Import CaddyRouteConfig.

Definition buildRoute (cfg : CaddyRouteConfig) : caddyRoute :=
  let upstreams :=
    if (0 <? CanaryWeight cfg) && negb (CanaryUpstream cfg =s? "")
    then [(Upstream cfg, 100 - CanaryWeight cfg); (CanaryUpstream cfg, CanaryWeight cfg)]
    else [(Upstream cfg, 0)] in
  let timeout := if TimeoutSeconds cfg <=? 0 then 30 else TimeoutSeconds cfg in
  let retries := if MaxRetries cfg <? 0 then 3 else MaxRetries cfg in
  {| route_tag := routeTagID (Hostname cfg);
     route_hosts := [Hostname cfg];
     route_upstreams := upstreams;
     route_timeout := pretty timeout +:+ "s";
     route_retries := retries;
     route_headers := AddHeaders cfg ∪ forwarded_headers |}.

(** ** Requests *)

Section client.
Context {C : Type} `{CA : CaddyAdmin C}.

Definition caddyNotFound : error := Platform (New CodeNotFound "caddy: not found").

(** [do] and [get]: a request that the server answers with [f]. *)
Definition do_ {A} (f : C → result error A * C) : db (proxy C) A :=
  resp ← on_error (wrap_with CodeUnavailable "caddy: request failed")
    (exec (λ st, let '(r, c) := f (edge st) in (r, set_edge c st)));
  of_result resp.

Definition refusal (status body : string) : error :=
  Platform (New CodeInternal ("caddy: api error " +:+ status +:+ ": " +:+ body)).

Definition answer (c : C) (a : CaddyAnswer C) : result error unit * C :=
  match a with
  | Done c' => (Ok tt, c')
  | NotFound => (Err caddyNotFound, c)
  | Refused body => (Err (refusal "400" body), c)
  end.

Definition found (c : C) (r : option C) : result error unit * C :=
  match r with Some c' => (Ok tt, c') | None => (Err caddyNotFound, c) end.

Definition read_automate : db (proxy C) (list string) :=
  do_ (λ c, (match get_automate c with Some l => Ok l | None => Err caddyNotFound end, c)).

Definition write_automate (l : list string) : db (proxy C) unit :=
  do_ (λ c, match put_automate l c with
            | Ok c' => (Ok tt, c')
            | Err body => (Err (refusal "409" body), c)
            end).

Definition AutomateCert (hostname : string) : db (proxy C) unit :=
  current ← attempt read_automate;
  let current := match current with Ok l => l | Err _ => [] end in
  if bool_decide (hostname ∈ current) then mret tt
  else write_automate (current ++ [hostname]).

Definition RevokeCert (hostname : string) : db (proxy C) unit :=
  current ← attempt read_automate;
  match current with
  | Err _ => mret tt
  | Ok current =>
      let filtered := filter (λ h, h ≠ hostname) current in
      if (length filtered =? length current)%nat then mret tt
      else write_automate filtered
  end.

Definition Caddy_UpsertRoute (cfg : CaddyRouteConfig) : db (proxy C) unit :=
  let route := buildRoute cfg in
  patched ← attempt (do_ (λ c, answer c (patch_id (routeTagID (Hostname cfg)) route c)));
  _ ← match patched with
      | Ok _ => mret tt
      | Err _ => on_error (wrap_with CodeInternal ("caddy: append route for " +:+ Hostname cfg))
                   (do_ (λ c, answer c (post_route route c)))
      end;
  if TLSEnabled cfg then ignore (AutomateCert (Hostname cfg)) else mret tt.

Definition Caddy_DeleteRoute (hostname : string) : db (proxy C) unit :=
  deleted ← attempt (do_ (λ c, found c (delete_id (routeTagID hostname) c)));
  match deleted with
  | Ok _ => mret tt
  | Err e => if IsCode (Some e) CodeNotFound then mret tt
             else fail (wrap_with CodeInternal ("caddy: delete route for " +:+ hostname) e)
  end.

Definition Caddy_ListRoutes : db (proxy C) (list caddyRoute) :=
  do_ (λ c, (match all_routes c with Some l => Ok l | None => Err caddyNotFound end, c)).

Definition LoadConfig (routes : list CaddyRouteConfig) (tlsHostnames : list string) : db (proxy C) unit :=
  do_ (λ c, match load (buildRoute <$> routes) tlsHostnames c with
            | Ok c' => (Ok tt, c')
            | Err body => (Err (refusal "400" body), c)
            end).

Definition Ping : db (proxy C) unit := do_ (λ c, (Ok tt, c)).
End client.

(** ** A server of the documented interface

    It keeps a list of routes; which ones it takes is a parameter. *)

Record list_caddy := { lc_routes : list caddyRoute; lc_automate : option (list string) }.

Definition has_tag (id : string) (r : caddyRoute) : bool := route_tag r =s? id.

Definition lc_served (c : list_caddy) (id : string) : option caddyRoute :=
  head (select (has_tag id) (lc_routes c)).

Lemma select_update_tag id id' r l :
  route_tag r = id →
  head (select (has_tag id') (update_where (has_tag id) (λ _, r) l))
  = if decide (id' = id) then (λ _, r) <$> head (select (has_tag id) l) else head (select (has_tag id') l).
Proof.
  intros Hr. induction l as [|x l IH]; [by case_decide|].
  rewrite update_where_cons. unfold select in *. rewrite !filter_cons.
  unfold has_tag in *. destruct (route_tag x =s? id) eqn:Ex; bool_to_prop.
  - rewrite Hr. destruct (decide (id' = id)) as [->|Hne].
    + rewrite !decide_True by (try done; by apply String.eqb_eq). done.
    + rewrite decide_False by (by apply not_true_iff_false, String.eqb_neq; congruence).
      rewrite IH. rewrite decide_False by (apply not_true_iff_false, String.eqb_neq; congruence). done.
  - destruct (decide (id' = id)) as [->|Hne].
    + assert ((route_tag x =s? id) ≠ true) by (by apply not_true_iff_false, String.eqb_neq).
      rewrite !decide_False by done. done.
    + by repeat case_decide.
Qed.

Definition lc_load (rs : list caddyRoute) (l : list string) (c : list_caddy) : list_caddy :=
  {| lc_routes := rs; lc_automate := match l with [] => None | _ => Some l end |}.

Program Definition admin_of (takes : caddyRoute → bool) : CaddyAdmin list_caddy := {|
  accepts := takes;
  served := lc_served;
  patch_id id r c :=
    if negb (takes r) then Refused "invalid route"
    else match lc_served c id with
    | Some _ => Done {| lc_routes := update_where (has_tag id) (λ _, r) (lc_routes c);
                        lc_automate := lc_automate c |}
    | None => NotFound
    end;
  post_route r c :=
    if negb (takes r) then Refused "invalid route"
    else Done {| lc_routes := lc_routes c ++ [r]; lc_automate := lc_automate c |};
  delete_id id c :=
    match lc_served c id with
    | Some _ => Some {| lc_routes := delete_where (has_tag id) (lc_routes c);
                        lc_automate := lc_automate c |}
    | None => None
    end;
  get_automate := lc_automate;
  put_automate l c :=
    match lc_automate c with
    | Some _ => Err "key already exists: automate"
    | None => Ok {| lc_routes := lc_routes c; lc_automate := Some l |}
    end;
  all_routes c := Some (lc_routes c);
  load rs l c := if forallb takes rs then Ok (lc_load rs l c) else Err "invalid route";
|}.
Next Obligation.
  intros takes id r c Hr. cbn beta. destruct (takes r) eqn:Et; [|done]. cbn [negb].
  destruct (lc_served c id) as [x|] eqn:E; [|done].
  split; [done|]. split; [done|]. intros id'. unfold lc_served in *. simpl. rewrite select_update_tag by done.
  case_decide; [by rewrite E|done].
Qed.
Next Obligation.
  intros takes r c Hr. cbn beta. destruct (takes r) eqn:Et; [|done]. cbn [negb]. split; [done|]. intros id'.
  unfold lc_served in *. simpl. unfold select. rewrite filter_app. fold (select (has_tag id') (lc_routes c)).
  destruct (decide (id' = route_tag r)) as [->|Hne].
  - destruct (select _ (lc_routes c)); [|done]. simpl.
    rewrite filter_cons_True; [done|]. by apply String.eqb_eq.
  - rewrite filter_cons_False; [by rewrite app_nil_r|]. unfold has_tag. by apply not_true_iff_false, String.eqb_neq.
Qed.
Next Obligation. intros takes r c Hr. cbn beta. rewrite Hr. by eexists. Qed.
Next Obligation.
  intros takes id c. simpl. destruct (lc_served c id) as [x|] eqn:E; [|done].
  intros id'. unfold lc_served in *. simpl. clear E. induction (lc_routes c) as [|y l IH]; [by case_decide|].
  unfold delete_where, select in *. rewrite !filter_cons. unfold has_tag in *.
  destruct (route_tag y =s? id) eqn:Ey; bool_to_prop; simpl.
  - rewrite IH. case_decide; [done|]. rewrite decide_False; [done|].
    apply not_true_iff_false, String.eqb_neq. congruence.
  - rewrite filter_cons. destruct (decide (id' = id)) as [->|Hne].
    + rewrite decide_False; [exact IH|]. by apply not_true_iff_false, String.eqb_neq.
    + by case_decide.
Qed.
Next Obligation. intros takes l c. simpl. by destruct (lc_automate c) eqn:E. Qed.
Next Obligation.
  intros takes rs l c. cbn beta. destruct (forallb takes rs) eqn:Et.
  - split; [|done]. intros id. unfold lc_served, select. simpl. f_equal. apply list_filter_iff. intros r.
    apply String.eqb_eq.
  - induction rs as [|r rs IH]; [done|]. simpl in Et. apply andb_false_iff in Et as [Et|Et].
    + exists r. split; [by left|done].
    + destruct (IH Et) as (x & Hx & ?). exists x. split; [by right|done].
Qed.

(** One that takes every route, and one as strict as the documentation, whose
    header operations hold lists of values, and whose upstreams have no weight. *)
#[export] Instance list_admin : CaddyAdmin list_caddy := admin_of (λ _, true).

Definition documented_admin : CaddyAdmin list_caddy :=
  admin_of (λ r, bool_decide (route_headers r = ∅) && forallb (λ u, u.2 =? 0) (route_upstreams r)).

(** What the client builds is accepted. *)
Class BuiltAccepted {C} `{CA : CaddyAdmin C} : Prop := built_accepted cfg : accepts (buildRoute cfg) = true.

#[export] Instance list_admin_accepts : BuiltAccepted (CA := list_admin).
Proof. done. Qed.

(** * Routes and traffic (packages/application/proxy/route and traffic)

    The engine changes the tables and then Caddy; log lines are not modelled.
    Identifiers, the clock and the correlation id of the context are
    arguments. *)

Record CreateInput := {
  OrgID : string; ProjectID : string; DeploymentID : string; DomainID : string;
  Hostname : string; Upstream : string; Kind : RouteKind; TLSEnabled : bool;
  HTTPSRedirect : bool; StripPrefix : string; AddHeaders : gmap string string;
  TimeoutSecs : Z; MaxRetries : Z; CorrelationID : string;
}.

(** [toCaddyConfig(rt, nil)] *)
Definition toCaddyConfig (rt : Route) : CaddyRouteConfig :=
  {| CaddyRouteConfig.RouteID := Route.ID rt;
     CaddyRouteConfig.Hostname := Route.Hostname rt;
     CaddyRouteConfig.Upstream := Route.Upstream rt;
     CaddyRouteConfig.TLSEnabled := Route.TLSEnabled rt;
     CaddyRouteConfig.HTTPSRedirect := Route.HTTPSRedirect rt;
     CaddyRouteConfig.StripPrefix := Route.StripPrefix rt;
     CaddyRouteConfig.AddHeaders := Route.AddHeaders rt;
     CaddyRouteConfig.TimeoutSeconds := Route.TimeoutSeconds rt;
     CaddyRouteConfig.MaxRetries := Route.MaxRetries rt;
     CaddyRouteConfig.CanaryWeight := Route.CanaryWeight rt;
     CaddyRouteConfig.CanaryUpstream := Route.PreviousUpstream rt |}.

(** The route [Create] stores. *)
Definition new_route (id ctxCorrelation : string) (inp : CreateInput) : Route :=
  {| Route.ID := id; Route.OrgID := OrgID inp; Route.ProjectID := ProjectID inp;
     Route.DeploymentID := DeploymentID inp; Route.DomainID := DomainID inp;
     Route.Hostname := Hostname inp; Route.Upstream := Upstream inp;
     Route.Kind := if Kind inp =s? "" then RouteKindPlatform else Kind inp;
     Route.Status := RouteStatusPending; Route.Mode := TrafficModeActive;
     Route.CanaryWeight := 0; Route.PreviousUpstream := "";
     Route.TLSEnabled := TLSEnabled inp; Route.HTTPSRedirect := HTTPSRedirect inp;
     Route.StripPrefix := StripPrefix inp; Route.AddHeaders := AddHeaders inp;
     Route.TimeoutSeconds := if TimeoutSecs inp <=? 0 then 30 else TimeoutSecs inp;
     Route.MaxRetries := if MaxRetries inp <=? 0 then 3 else MaxRetries inp;
     Route.Version := 1;
     Route.CorrelationID := if CorrelationID inp =s? "" then ctxCorrelation else CorrelationID inp;
     Route.Metadata := "{}"; Route.CreatedAt := 0; Route.UpdatedAt := 0; Route.DeletedAt := None |}.

(** The fields [Update] overwrites. *)
Definition updated_route (upstream : string) (headers : option (gmap string string))
    (timeoutSecs maxRetries : Z) (correlationID : string) (r : Route) : Route :=
  {| Route.ID := Route.ID r; Route.OrgID := Route.OrgID r; Route.ProjectID := Route.ProjectID r;
     Route.DeploymentID := Route.DeploymentID r; Route.DomainID := Route.DomainID r;
     Route.Hostname := Route.Hostname r;
     Route.Upstream := if upstream =s? "" then Route.Upstream r else upstream;
     Route.Kind := Route.Kind r; Route.Status := Route.Status r; Route.Mode := Route.Mode r;
     Route.CanaryWeight := Route.CanaryWeight r;
     Route.PreviousUpstream := Route.PreviousUpstream r; Route.TLSEnabled := Route.TLSEnabled r;
     Route.HTTPSRedirect := Route.HTTPSRedirect r; Route.StripPrefix := Route.StripPrefix r;
     Route.AddHeaders := default (Route.AddHeaders r) headers;
     Route.TimeoutSeconds := if 0 <? timeoutSecs then timeoutSecs else Route.TimeoutSeconds r;
     Route.MaxRetries := if 0 <=? maxRetries then maxRetries else Route.MaxRetries r;
     Route.Version := Route.Version r;
     Route.CorrelationID := if correlationID =s? "" then Route.CorrelationID r else correlationID;
     Route.Metadata := Route.Metadata r; Route.CreatedAt := Route.CreatedAt r;
     Route.UpdatedAt := Route.UpdatedAt r; Route.DeletedAt := Route.DeletedAt r |}.

(** The copy of the route that [Create] and [Switch] hand back. *)
Definition with_route_status (status : RouteStatus) (r : Route) : Route :=
  {| Route.ID := Route.ID r; Route.OrgID := Route.OrgID r; Route.ProjectID := Route.ProjectID r;
     Route.DeploymentID := Route.DeploymentID r; Route.DomainID := Route.DomainID r;
     Route.Hostname := Route.Hostname r; Route.Upstream := Route.Upstream r;
     Route.Kind := Route.Kind r; Route.Status := status; Route.Mode := Route.Mode r;
     Route.CanaryWeight := Route.CanaryWeight r;
     Route.PreviousUpstream := Route.PreviousUpstream r; Route.TLSEnabled := Route.TLSEnabled r;
     Route.HTTPSRedirect := Route.HTTPSRedirect r; Route.StripPrefix := Route.StripPrefix r;
     Route.AddHeaders := Route.AddHeaders r; Route.TimeoutSeconds := Route.TimeoutSeconds r;
     Route.MaxRetries := Route.MaxRetries r; Route.Version := Route.Version r;
     Route.CorrelationID := Route.CorrelationID r; Route.Metadata := Route.Metadata r;
     Route.CreatedAt := Route.CreatedAt r; Route.UpdatedAt := Route.UpdatedAt r;
     Route.DeletedAt := Route.DeletedAt r |}.

Definition switched (upstream previous : string) (mode : TrafficMode) (weight : Z) (r : Route) : Route :=
  {| Route.ID := Route.ID r; Route.OrgID := Route.OrgID r; Route.ProjectID := Route.ProjectID r;
     Route.DeploymentID := Route.DeploymentID r; Route.DomainID := Route.DomainID r;
     Route.Hostname := Route.Hostname r; Route.Upstream := upstream; Route.Kind := Route.Kind r;
     Route.Status := Route.Status r; Route.Mode := mode; Route.CanaryWeight := weight;
     Route.PreviousUpstream := previous; Route.TLSEnabled := Route.TLSEnabled r;
     Route.HTTPSRedirect := Route.HTTPSRedirect r; Route.StripPrefix := Route.StripPrefix r;
     Route.AddHeaders := Route.AddHeaders r; Route.TimeoutSeconds := Route.TimeoutSeconds r;
     Route.MaxRetries := Route.MaxRetries r; Route.Version := Route.Version r;
     Route.CorrelationID := Route.CorrelationID r; Route.Metadata := Route.Metadata r;
     Route.CreatedAt := Route.CreatedAt r; Route.UpdatedAt := Route.UpdatedAt r;
     Route.DeletedAt := Route.DeletedAt r |}.

Section engine.
Context `{D : Driver} `{So : Sorter} {C : Type} `{CA : CaddyAdmin C}.

(** ** The route engine *)

Definition Create (id version_id ctxCorrelation : string) (inp : CreateInput) (now : Time)
    : db (proxy C) Route :=
  if Hostname inp =s? "" then fail_with (New CodeInvalidArgument "route: hostname required")
  else if Upstream inp =s? "" then fail_with (New CodeInvalidArgument "route: upstream required")
  else
    rt ← UpsertRoute id (new_route id ctxCorrelation inp) now;
    synced ← attempt (Caddy_UpsertRoute (toCaddyConfig rt));
    match synced with
    | Err err =>
        _ ← ignore (SetRouteStatus (Route.ID rt) RouteStatusError now);
        fail (wrap_with CodeInternal ("route: caddy sync for " +:+ Route.Hostname rt) err)
    | Ok _ =>
        _ ← ignore (SetRouteStatus (Route.ID rt) RouteStatusActive now);
        let rt := with_route_status RouteStatusActive rt in
        _ ← ignore (RecordRouteVersion version_id rt now);
        mret rt
    end.

Definition Update (fresh version_id hostname upstream : string)
    (headers : option (gmap string string)) (timeoutSecs maxRetries : Z) (correlationID : string)
    (now : Time) : db (proxy C) Route :=
  rt ← GetRouteByHostname hostname;
  rt ← UpsertRoute fresh (updated_route upstream headers timeoutSecs maxRetries correlationID rt) now;
  _ ← on_error (wrap_with CodeInternal ("route: caddy sync for " +:+ hostname))
        (Caddy_UpsertRoute (toCaddyConfig rt));
  _ ← ignore (RecordRouteVersion version_id rt now);
  mret rt.

Definition Delete (hostname : string) (now : Time) : db (proxy C) unit :=
  got ← attempt (GetRouteByHostname hostname);
  match got with
  | Err err => if IsCode (Some err) CodeNotFound then mret tt else fail err
  | Ok rt =>
      _ ← SetRouteStatus (Route.ID rt) RouteStatusDraining now;
      _ ← ignore (Caddy_DeleteRoute hostname);
      SoftDeleteRoute (Route.ID rt) now
  end.

(** The loop pushes every route; failures are counted. *)
Fixpoint push_all (routes : list Route) (errs : Z) : db (proxy C) Z :=
  match routes with
  | [] => mret errs
  | rt :: rest =>
      pushed ← attempt (Caddy_UpsertRoute (toCaddyConfig rt));
      push_all rest (match pushed with Ok _ => errs | Err _ => errs + 1 end)
  end.

Definition ReconcileAll (host_lt : string → string → bool) : db (proxy C) unit :=
  routes ← ListActiveRoutes host_lt;
  _ ← push_all routes 0;
  mret tt.

(** ** Traffic switching *)

Definition Switch (req : TrafficSwitchRequest) (now : Time) : db (proxy C) Route :=
  if (TrafficSwitchRequest.Hostname req =s? "") && (TrafficSwitchRequest.DeploymentID req =s? "")
  then fail_with (New CodeInvalidArgument "traffic: hostname or deployment_id required")
  else
    rt ← (if TrafficSwitchRequest.Hostname req =s? ""
          then GetRouteByDeployment (TrafficSwitchRequest.DeploymentID req)
          else GetRouteByHostname (TrafficSwitchRequest.Hostname req));
    let mode := if TrafficSwitchRequest.Mode req =s? "" then TrafficModeActive
                else TrafficSwitchRequest.Mode req in
    let weight := if mode =s? TrafficModeCanary then TrafficSwitchRequest.CanaryWeight req else 0 in
    let previous := if TrafficSwitchRequest.PreviousUpstream req =s? "" then Route.Upstream rt
                    else TrafficSwitchRequest.PreviousUpstream req in
    _ ← UpdateRouteTraffic (Route.ID rt) (TrafficSwitchRequest.NewUpstream req) previous mode weight now;
    let rt := switched (TrafficSwitchRequest.NewUpstream req) previous mode weight rt in
    _ ← on_error (wrap_with CodeInternal ("traffic: caddy switch for " +:+ Route.Hostname rt))
          (Caddy_UpsertRoute
             {| CaddyRouteConfig.RouteID := Route.ID rt;
                CaddyRouteConfig.Hostname := Route.Hostname rt;
                CaddyRouteConfig.Upstream := Route.Upstream rt;
                CaddyRouteConfig.TLSEnabled := Route.TLSEnabled rt;
                CaddyRouteConfig.HTTPSRedirect := Route.HTTPSRedirect rt;
                CaddyRouteConfig.StripPrefix := ""; CaddyRouteConfig.AddHeaders := ∅;
                CaddyRouteConfig.TimeoutSeconds := Route.TimeoutSeconds rt;
                CaddyRouteConfig.MaxRetries := Route.MaxRetries rt;
                CaddyRouteConfig.CanaryWeight := Route.CanaryWeight rt;
                CaddyRouteConfig.CanaryUpstream := Route.PreviousUpstream rt |});
    mret rt.

(** The request the strategies build for a route. *)
Definition switch_request (rt : Route) (hostname new previous : string) (mode : TrafficMode)
    (weight : Z) (correlationID : string) : TrafficSwitchRequest :=
  {| TrafficSwitchRequest.OrgID := Route.OrgID rt; TrafficSwitchRequest.ProjectID := Route.ProjectID rt;
     TrafficSwitchRequest.DeploymentID := Route.DeploymentID rt;
     TrafficSwitchRequest.Hostname := hostname; TrafficSwitchRequest.NewUpstream := new;
     TrafficSwitchRequest.PreviousUpstream := previous; TrafficSwitchRequest.Mode := mode;
     TrafficSwitchRequest.CanaryWeight := weight; TrafficSwitchRequest.CorrelationID := correlationID |}.

Definition BlueGreen (hostname newUpstream correlationID : string) (now : Time) : db (proxy C) Route :=
  rt ← GetRouteByHostname hostname;
  Switch (switch_request rt hostname newUpstream (Route.Upstream rt) TrafficModeGreen 0 correlationID) now.

Definition Canary (hostname canaryUpstream : string) (weight : Z) (correlationID : string) (now : Time)
    : db (proxy C) Route :=
  if (weight <? 1) || (99 <? weight)
  then fail_with (New CodeInvalidArgument "traffic: canary weight must be 1–99")
  else
    rt ← GetRouteByHostname hostname;
    Switch (switch_request rt hostname (Route.Upstream rt) canaryUpstream TrafficModeCanary weight
              correlationID) now.

Definition Rollback (hostname correlationID : string) (now : Time) : db (proxy C) Route :=
  rt ← GetRouteByHostname hostname;
  if Route.PreviousUpstream rt =s? ""
  then fail_with (New CodeFailedPrecond "traffic: no previous upstream to roll back to")
  else
    Switch (switch_request rt hostname (Route.PreviousUpstream rt) (Route.Upstream rt)
              TrafficModeActive 0 correlationID) now.

Definition Drain (hostname : string) (now : Time) : db (proxy C) unit :=
  rt ← GetRouteByHostname hostname;
  SetRouteStatus (Route.ID rt) RouteStatusDraining now.
End engine.
