(* ===== verification/RouteFacts.v ===== *)
(** * Routes and traffic: the tables and Caddy agree *)

From S2P Require Import Prelude GoLib Errors Postgres Sql ProxyStore RouteEngine.

(** ** Well-formed route tables *)

Definition live_hosts (l : list Route) : list string := Route.Hostname <$> select live l.

(** The primary key and the partial unique index on live hostnames. *)
Record routes_ok (l : list Route) : Prop := {
  rok_ids : NoDup (Route.ID <$> l);
  rok_hosts : NoDup (live_hosts l);
}.

(** Updates that keep ids and hostnames and revive no row. *)
Record keeps_host (f : Route → Route) : Prop := {
  kh_id r : Route.ID (f r) = Route.ID r;
  kh_host r : Route.Hostname (f r) = Route.Hostname r;
  kh_live r : live (f r) = true → live r = true;
}.

Lemma live_hosts_update p f l :
  keeps_host f → live_hosts (update_where p f l) `sublist_of` live_hosts l.
Proof.
  intros Hf. unfold live_hosts, select. induction l as [|x l IH]; [done|].
  rewrite update_where_cons, !filter_cons. destruct (p x).
  - case_decide as H1; [rewrite decide_True by by apply (kh_live f Hf)|case_decide].
    + rewrite !fmap_cons, (kh_host f Hf). by constructor.
    + rewrite fmap_cons. by constructor.
    + done.
  - case_decide; [rewrite !fmap_cons; by constructor|done].
Qed.

Lemma routes_ok_update p f l : keeps_host f → routes_ok l → routes_ok (update_where p f l).
Proof.
  intros Hf [H1 H2]. split.
  - rewrite map_key_update_where; [done|apply (kh_id f Hf)].
  - eapply sublist_NoDup; [done|by apply live_hosts_update].
Qed.

Lemma select_on_host_nil h l r : select (on_host h) l = [] → r ∈ l → live r = true → Route.Hostname r ≠ h.
Proof.
  intros E Hr Hl <-. assert (r ∈ select (on_host (Route.Hostname r)) l) as Hs.
  { apply elem_of_select. split; [|done]. unfold on_host. by rewrite String.eqb_refl. }
  rewrite E in Hs. by apply elem_of_nil in Hs.
Qed.

Lemma routes_ok_insert r l :
  (∀ r', r' ∈ l → Route.ID r' ≠ Route.ID r) → select (on_host (Route.Hostname r)) l = [] →
  routes_ok l → routes_ok (l ++ [r]).
Proof.
  intros Hid Hh [H1 H2]. split.
  - rewrite fmap_app. apply NoDup_app. split_and!; [done| |apply NoDup_singleton].
    intros x (r' & -> & Hr')%list_elem_of_fmap Hx%list_elem_of_singleton. by apply (Hid r').
  - unfold live_hosts, select. rewrite filter_app, fmap_app. apply NoDup_app. split_and!; [done| |].
    + intros x (r' & -> & Hr')%list_elem_of_fmap Hx.
      apply elem_of_select in Hr' as [Hl Hr']. rewrite filter_cons in Hx.
      case_decide; [|by apply elem_of_nil in Hx]. apply list_elem_of_singleton in Hx.
      by apply (select_on_host_nil _ _ r' Hh Hr' Hl).
    + rewrite filter_cons. case_decide; [apply NoDup_singleton|apply NoDup_nil_2].
Qed.

Lemma status_keeps s now : keeps_host (route_status s now).
Proof. by split. Qed.
Lemma traffic_keeps u p m w now : keeps_host (route_traffic u p m w now).
Proof. by split. Qed.
Lemma removed_keeps now : keeps_host (route_removed now).
Proof. by split. Qed.
Lemma merge_keeps rt now : keeps_host (route_merge rt now).
Proof. by split. Qed.

Create HintDb routes.
#[export] Hint Resolve status_keeps traffic_keeps removed_keeps merge_keeps routes_ok_update : routes.

(** The one live row of a hostname. *)
Lemma select_on_host l r :
  routes_ok l → r ∈ l → live r = true → select (on_host (Route.Hostname r)) l = [r].
Proof.
  intros [_ H2] Hr Hl. unfold live_hosts in H2.
  assert (select (on_host (Route.Hostname r)) l
          = select (λ r', Route.Hostname r' =s? Route.Hostname r) (select live l)) as ->.
  { unfold select, on_host. clear. induction l as [|x l IH]; [done|].
    rewrite !filter_cons. destruct (live x) eqn:E.
    - rewrite (decide_True (P := true = true)) by done. rewrite filter_cons, andb_true_r.
      by rewrite IH.
    - rewrite andb_false_r. rewrite !decide_False by done. done. }
  apply (select_unique Route.Hostname); [done| | |].
  - by apply elem_of_select.
  - by rewrite String.eqb_refl.
  - intros r' E. by bool_to_prop.
Qed.

Section facts.
Context `{D : Driver} `{So : Sorter} {C : Type} `{CA : CaddyAdmin C}.

(** ** The client, without failures *)

Lemma set_edge_same (st : proxy C) : set_edge (edge st) st = st.
Proof. by destruct st. Qed.

Lemma runs_do {A} (f : C → result error A * C) (st : proxy C) :
  runs (do_ f) st (f (edge st)).1 (set_edge (f (edge st)).2 st).
Proof.
  unfold do_. eapply runs_bind; [|apply runs_of_result].
  unfold runs, on_error, exec, query. by destruct (f (edge st)) as [r c].
Qed.

Lemma runs_AutomateCert h (st : proxy C) :
  ∃ r c, runs (AutomateCert h) st r (set_edge c st) ∧ ∀ id, served c id = served (edge st) id.
Proof.
  unfold AutomateCert, read_automate, write_automate.
  pose proof (runs_do (λ c, (match get_automate c with
                             | Some l => Ok l | None => Err caddyNotFound end, c)) st) as H1.
  apply runs_attempt in H1. cbn [fst snd] in H1. rewrite set_edge_same in H1.
  set (l := match get_automate (edge st) with Some l => Ok l | None => Err caddyNotFound end) in H1.
  set (current := match l with Ok l => l | Err _ => [] end).
  destruct (bool_decide (h ∈ current)) eqn:E.
  - exists (Ok tt), (edge st). split; [|done]. rewrite set_edge_same.
    eapply runs_bind; [exact H1|]. cbv beta zeta. fold current. by rewrite E.
  - pose proof (served_automate (current ++ [h]) (edge st)) as Hs.
    pose proof (runs_do (λ c, match put_automate (current ++ [h]) c with
       | Ok c' => (Ok tt, c')
       | Err body => (Err (refusal "409" body), c) end) st) as H2.
    cbv beta in H2. destruct (put_automate (current ++ [h]) (edge st)) as [c'|body]; cbn [fst snd] in H2;
      eexists _, _; (split; [eapply runs_bind; [exact H1|]; cbv beta zeta; fold current; rewrite E; exact H2|]).
    + apply (proj2 (proj2 Hs)).
    + done.
Qed.

(** The push of a route: PATCH, and POST where that is not answered with success. *)
Lemma runs_push cfg (st : proxy C) :
  let tag := routeTagID (CaddyRouteConfig.Hostname cfg) in
  ∃ r c, (if accepts (buildRoute cfg)
          then r = Ok tt ∧ ∀ id, served c id = if decide (id = tag) then Some (buildRoute cfg) else served (edge st) id
          else is_ok r = false ∧ c = edge st)
    ∧ runs (patched ← attempt (do_ (λ c, answer c (patch_id tag (buildRoute cfg) c)));
            match patched with
            | Ok _ => mret tt
            | Err _ => on_error (wrap_with CodeInternal
                 ("caddy: append route for " +:+ CaddyRouteConfig.Hostname cfg))
                 (do_ (λ c, answer c (post_route (buildRoute cfg) c)))
            end) st r (set_edge c st).
Proof.
  intros tag. pose proof (served_patch tag (buildRoute cfg) (edge st) eq_refl) as Hp.
  pose proof (runs_do (λ c, answer c (patch_id tag (buildRoute cfg) c)) st) as H1. apply runs_attempt in H1.
  pose proof (runs_on_error (wrap_with CodeInternal ("caddy: append route for " +:+ CaddyRouteConfig.Hostname cfg))
                _ _ _ _ (runs_do (λ c, answer c (post_route (buildRoute cfg) c)) st)) as H2. cbn beta in H1, H2.
  destruct (patch_id tag (buildRoute cfg) (edge st)) as [c| |body] eqn:E; cbn [fst snd answer] in H1.
  - destruct Hp as (-> & _ & Hp). exists (Ok tt), c. split; [by split|].
    eapply runs_bind; [exact H1|]. apply runs_ret.
  - pose proof (served_post (buildRoute cfg) (edge st) Hp) as Hpost. rewrite set_edge_same in H1.
    destruct (post_route (buildRoute cfg) (edge st)) as [c| |body] eqn:E2; [|done|]; cbn [fst snd answer] in H2.
    + destruct Hpost as [-> Hc]. exists (Ok tt), c. split; [by split|]. eapply runs_bind; [exact H1|exact H2].
    + rewrite Hpost. eexists _, (edge st). split; [|eapply runs_bind; [exact H1|exact H2]]. by split.
  - destruct (refused_post (buildRoute cfg) (edge st) Hp) as [body2 E2]. rewrite E2 in H2. cbn [fst snd answer] in H2.
    rewrite Hp. eexists _, (edge st). rewrite set_edge_same in H1.
    split; [|eapply runs_bind; [exact H1|exact H2]]. by split.
Qed.

(** After an upsert Caddy serves the configuration under the tag of the
    hostname, and every other tag as before; a route it refuses is an error and
    changes nothing. *)
Lemma runs_Caddy_UpsertRoute cfg (st : proxy C) :
  ∃ r c, runs (Caddy_UpsertRoute cfg) st r (set_edge c st)
    ∧ is_ok r = accepts (buildRoute cfg)
    ∧ ∀ id, served c id = if decide (id = routeTagID (CaddyRouteConfig.Hostname cfg) ∧ accepts (buildRoute cfg) = true)
                          then Some (buildRoute cfg) else served (edge st) id.
Proof.
  destruct (runs_push cfg st) as (r & c & Hc & Hrun). destruct (accepts (buildRoute cfg)).
  - destruct Hc as [-> Hc]. assert (∀ id, served c id = if decide (id = routeTagID (CaddyRouteConfig.Hostname cfg) ∧ true = true)
      then Some (buildRoute cfg) else served (edge st) id) as Hc'.
    { intros id. rewrite Hc. repeat case_decide; naive_solver. }
    assert (∀ (k : db (proxy C) unit) st', runs k (set_edge c st) (Ok tt) st' → runs
      (patched ← attempt (do_ (λ c, answer c (patch_id (routeTagID (CaddyRouteConfig.Hostname cfg)) (buildRoute cfg) c)));
       _ ← match patched with
           | Ok _ => mret tt
           | Err _ => on_error (wrap_with CodeInternal
                ("caddy: append route for " +:+ CaddyRouteConfig.Hostname cfg))
                (do_ (λ c, answer c (post_route (buildRoute cfg) c)))
           end; k) st (Ok tt) st') as Hk.
    { intros k st' Hk. unfold runs in *. unfold mbind, db_bind in *. destruct (attempt _ _) as [[p|e] [s1 fs1]]; [|done].
      by rewrite Hrun. }
    unfold Caddy_UpsertRoute. destruct (CaddyRouteConfig.TLSEnabled cfg).
    + destruct (runs_AutomateCert (CaddyRouteConfig.Hostname cfg) (set_edge c st)) as (r1 & c' & H1 & H2).
      exists (Ok tt), c'. split; [|split; [done|]; intros id; rewrite H2; apply Hc'].
      apply Hk. by apply (runs_ignore _ _ _ _ H1).
    + exists (Ok tt), c. split; [|done]. apply Hk, runs_ret.
  - destruct Hc as [Hr ->]. destruct r as [|e]; [done|]. exists (Err e), (edge st). split; [|split; [done|]].
    + unfold Caddy_UpsertRoute. unfold runs in *. unfold mbind, db_bind in *.
      destruct (attempt _ _) as [[p|e'] [s1 fs1]]; [|exact Hrun]. by rewrite Hrun.
    + intros id. rewrite decide_False; [done|]. by intros [_ ?].
Qed.

Lemma runs_accepted `{BA : !BuiltAccepted} cfg (st : proxy C) :
  ∃ c, runs (Caddy_UpsertRoute cfg) st (Ok tt) (set_edge c st)
    ∧ ∀ id, served c id = if decide (id = routeTagID (CaddyRouteConfig.Hostname cfg))
                          then Some (buildRoute cfg) else served (edge st) id.
Proof.
  destruct (runs_Caddy_UpsertRoute cfg st) as (r & c & Hrun & Hr & Hc). rewrite built_accepted in Hr, Hc.
  destruct r as [[]|]; [|done]. exists c. split; [done|]. intros id. rewrite Hc. repeat case_decide; naive_solver.
Qed.

Lemma runs_Caddy_DeleteRoute h (st : proxy C) :
  ∃ c, runs (Caddy_DeleteRoute h) st (Ok tt) (set_edge c st)
    ∧ ∀ id, served c id = if decide (id = routeTagID h) then None else served (edge st) id.
Proof.
  pose proof (served_delete (routeTagID h) (edge st)) as Hd.
  pose proof (runs_do (λ c, found c (delete_id (routeTagID h) c)) st) as H1.
  apply runs_attempt in H1. unfold found in H1.
  destruct (delete_id (routeTagID h) (edge st)) as [c|] eqn:E; cbn [fst snd] in H1.
  - exists c. split; [|done]. eapply runs_bind; [exact H1|]. apply runs_ret.
  - exists (edge st). split.
    + eapply runs_bind; [exact H1|]. apply runs_ret.
    + intros id. case_decide; [by subst|done].
Qed.

(** ** Every operation keeps the table well formed, whatever fails *)

Definition ok (st : proxy C) : Prop := routes_ok (routes st).

Lemma wp_do {A} (f : C → result error A * C) (Q : A → proxy C → Prop) E st :
  (∀ e c, E e (set_edge c st)) → (∀ a c, Q a (set_edge c st)) → wp (do_ f) Q E st.
Proof.
  intros HE HQ. unfold do_. wp_step. wp_step. wp_step.
  - intros e. rewrite <- (set_edge_same st). apply HE.
  - destruct (f (edge st)) as [[a|e] c]; apply wp_of_result; [apply HQ|apply HE].
Qed.

(** The client only changes the edge. *)
Lemma wp_AutomateCert h (Q : unit → proxy C → Prop) E st :
  (∀ e c, E e (set_edge c st)) → (∀ c, Q tt (set_edge c st)) → wp (AutomateCert h) Q E st.
Proof.
  intros HE HQ. unfold AutomateCert. wp_step. wp_step.
  apply wp_do; intros; (case_match; [wp_step; apply HQ|]);
    (apply wp_do; [intros; apply HE|intros []; apply HQ]).
Qed.

Lemma wp_Caddy_UpsertRoute cfg (Q : unit → proxy C → Prop) E st :
  (∀ e c, E e (set_edge c st)) → (∀ c, Q tt (set_edge c st)) → wp (Caddy_UpsertRoute cfg) Q E st.
Proof.
  intros HE HQ. unfold Caddy_UpsertRoute.
  assert (∀ c, wp (if CaddyRouteConfig.TLSEnabled cfg
                   then ignore (AutomateCert (CaddyRouteConfig.Hostname cfg)) else mret tt)
              Q E (set_edge c st)) as Htls.
  { intros c. case_match; [|by wp_step]. wp_step. apply wp_AutomateCert; intros; apply HQ. }
  wp_step. wp_step. apply wp_do; intros; wp_step.
  - wp_step. apply wp_do; [intros; apply HE|intros; apply Htls].
  - wp_step. apply Htls.
Qed.

Lemma wp_Caddy_DeleteRoute h (Q : unit → proxy C → Prop) E st :
  (∀ e c, E e (set_edge c st)) → (∀ c, Q tt (set_edge c st)) → wp (Caddy_DeleteRoute h) Q E st.
Proof.
  intros HE HQ. unfold Caddy_DeleteRoute. wp_step. wp_step. apply wp_do; intros.
  - case_match; wp_step; [apply HQ|apply HE].
  - wp_step. apply HQ.
Qed.

Lemma preserves_Caddy_UpsertRoute cfg : preserves ok (Caddy_UpsertRoute cfg).
Proof. apply preserves_wp. intros st Hst. by apply wp_Caddy_UpsertRoute. Qed.

Lemma preserves_Caddy_DeleteRoute h : preserves ok (Caddy_DeleteRoute h).
Proof. apply preserves_wp. intros st Hst. by apply wp_Caddy_DeleteRoute. Qed.

Lemma preserves_update_routes msg p f :
  keeps_host f → preserves ok (translate (S := proxy C) msg (update_routes p f)).
Proof. intros Hf. apply preserves_translate, preserves_exec. intros st. by apply routes_ok_update. Qed.

Lemma preserves_read {A} msg (f : proxy C → result error A) :
  preserves ok (translate msg (query (λ st, (f st, st)))).
Proof. by apply preserves_translate, preserves_query. Qed.

Lemma preserves_read_by {A} msg ids (f : proxy C → result error A) :
  preserves ok (translate msg (query (with_uuids ids (λ st, (f st, st))))).
Proof. apply preserves_translate, preserves_query. intros st Hst. by apply wp_with_uuids. Qed.

Lemma preserves_read_all {A} msg (f : proxy C → A) :
  preserves ok (translate msg (exec (λ st, (f st, st)))).
Proof. by apply preserves_translate, preserves_exec. Qed.

Lemma preserves_RecordRouteVersion vid rt now :
  preserves ok (RecordRouteVersion (C := C) vid rt now).
Proof. by apply preserves_translate, preserves_exec. Qed.

Lemma preserves_UpsertRoute fresh rt now :
  Route.DeletedAt rt = None → preserves ok (UpsertRoute (C := C) fresh rt now).
Proof.
  intros Hl. apply preserves_translate, preserves_query. intros st Hst. apply wp_with_uuids; [done|].
  intros _. unfold upsert_route.
  destruct (select _ (routes st)) as [|r l] eqn:E.
  - destruct (matched _ _ =? 0) eqn:Em; [|done]. bool_to_prop. rewrite matched_zero in Em.
    apply routes_ok_insert; [|done|done]. intros r' Hr'. specialize (Em r' Hr').
    unfold route_id in Em. by bool_to_prop.
  - by apply routes_ok_update; [apply merge_keeps|].
Qed.

(** One layer of a computation that has to preserve [ok]. *)
Ltac preserve :=
  match goal with
  | |- preserves _ (mbind _ _) => apply preserves_bind; [|intros]
  | |- preserves _ (mret _) => apply preserves_ret
  | |- preserves _ (fail _) => apply preserves_fail
  | |- preserves _ (fail_with _) => apply preserves_fail_with
  | |- preserves _ (ignore _) => apply preserves_ignore
  | |- preserves _ (attempt _) => apply preserves_attempt
  | |- preserves _ (on_error _ _) => apply preserves_on_error
  | |- preserves _ (Caddy_UpsertRoute _) => apply preserves_Caddy_UpsertRoute
  | |- preserves _ (Caddy_DeleteRoute _) => apply preserves_Caddy_DeleteRoute
  | |- preserves _ (RecordRouteVersion _ _ _) => apply preserves_RecordRouteVersion
  | |- preserves _ (SetRouteStatus _ _ _) => apply preserves_update_routes, status_keeps
  | |- preserves _ (SoftDeleteRoute _ _) => apply preserves_update_routes, removed_keeps
  | |- preserves _ (UpdateRouteTraffic _ _ _ _ _ _) => apply preserves_update_routes, traffic_keeps
  | |- preserves _ (GetRouteByHostname _) => apply preserves_read
  | |- preserves _ (GetRouteByDeployment _) => apply preserves_read_by
  | |- preserves _ (ListActiveRoutes _) => apply preserves_read_all
  | |- preserves _ match ?x with _ => _ end => destruct x
  end.

Lemma preserves_push_all l n : preserves ok (push_all l n).
Proof. revert n. induction l as [|rt l IH]; intros n; simpl; repeat preserve. apply IH. Qed.

Lemma preserves_Switch req now : preserves ok (Switch req now).
Proof. unfold Switch. repeat preserve. Qed.

(** The route a lookup by hostname returns is live. *)
Lemma preserves_Update fresh vid h u hd ts mr corr now :
  preserves ok (Update fresh vid h u hd ts mr corr now).
Proof.
  apply preserves_wp. intros st Hst. unfold Update. wp_step. unfold GetRouteByHostname, one_route.
  do 2 wp_step; [done|]. destruct (select _ (routes st)) as [|r l] eqn:E; [done|].
  assert (r ∈ r :: l) as Hr by (apply elem_of_cons; by left). rewrite <- E in Hr.
  apply elem_of_select in Hr as [Hr _]. unfold on_host, live in Hr. bool_to_prop.
  apply wp_preserves; [|done]. repeat preserve. apply preserves_UpsertRoute. simpl. by case_match.
Qed.

Inductive proxy_op :=
| PCreate (id version_id ctxCorrelation : string) (inp : CreateInput)
| PUpdate (fresh version_id hostname upstream : string) (headers : option (gmap string string))
    (timeoutSecs maxRetries : Z) (correlationID : string)
| PDelete (hostname : string)
| PReconcile (host_lt : string → string → bool)
| PSwitch (req : TrafficSwitchRequest)
| PBlueGreen (hostname newUpstream correlationID : string)
| PCanary (hostname canaryUpstream : string) (weight : Z) (correlationID : string)
| PRollback (hostname correlationID : string)
| PDrain (hostname : string).

Definition run_proxy (o : proxy_op) (now : Time) : db (proxy C) unit :=
  match o with
  | PCreate id vid ctx inp => ignore (Create id vid ctx inp now)
  | PUpdate fresh vid h u hd ts mr corr => ignore (Update fresh vid h u hd ts mr corr now)
  | PDelete h => ignore (Delete h now)
  | PReconcile lt => ignore (ReconcileAll lt)
  | PSwitch req => ignore (Switch req now)
  | PBlueGreen h u corr => ignore (BlueGreen h u corr now)
  | PCanary h u w corr => ignore (Canary h u w corr now)
  | PRollback h corr => ignore (Rollback h corr now)
  | PDrain h => ignore (Drain h now)
  end.

Inductive pstep : proxy C → proxy C → Prop :=
| pstep_op o now st fs : pstep st (tables_of (run_proxy o now (st, fs))).

Lemma run_proxy_preserves o now : preserves ok (run_proxy o now).
Proof.
  destruct o; simpl; apply preserves_ignore;
    try (unfold Create, Delete, ReconcileAll, BlueGreen, Canary, Rollback, Drain;
         repeat (preserve || apply preserves_Switch || apply preserves_push_all); fail).
  - unfold Create. repeat preserve. by apply preserves_UpsertRoute.
  - apply preserves_Update.
Qed.
End facts.
