(* ===== verification/Proxy.v ===== *)
(** * The proxy manager: properties of routes and traffic *)

From S2P Require Import Prelude GoLib Errors Postgres Sql ProxyStore RouteEngine RouteFacts.

Section facts.
Context `{D : Driver} `{So : Sorter} {C : Type} `{CA : CaddyAdmin C}.

(** Caddy serves the configuration of the row. *)
Definition synced (st : proxy C) (r : Route) : Prop :=
  served (edge st) (routeTagID (Route.Hostname r)) = Some (buildRoute (toCaddyConfig r)).

(** One live route per hostname, always: after any route and traffic
    operations, with any failures of statements and of requests to Caddy, route
    ids are unique and no two live routes share a hostname. *)
Theorem proxy_invariant (st0 st : proxy C) :
  routes_ok (routes st0) → rtc pstep st0 st → routes_ok (routes st).
Proof.
  intros H0 H. induction H as [|st0 st1 st Hstep _ IH]; [done|].
  apply IH. destruct Hstep. by apply run_proxy_preserves.
Qed.

(** ** Runs of the statements *)

Lemma runs_GetRouteByHostname h (st : proxy C) r l :
  select (on_host h) (routes st) = r :: l → runs (GetRouteByHostname h) st (Ok r) st.
Proof. intros E. unfold runs, GetRouteByHostname, one_route, translate, query. by rewrite E. Qed.

Lemma runs_GetRouteByHostname_none h (st : proxy C) :
  select (on_host h) (routes st) = [] →
  ∃ e, runs (GetRouteByHostname h) st (Err e) st ∧ IsCode (Some e) CodeNotFound = true.
Proof.
  intros E. unfold runs, GetRouteByHostname, one_route, translate, query. rewrite E.
  eexists. split; [done|]. simpl. by case_match.
Qed.

Lemma runs_update_routes msg p f (st : proxy C) :
  runs (translate msg (update_routes p f)) st (Ok tt) (set_routes (update_where p f (routes st)) st).
Proof. done. Qed.

(** ** Switching

    These theorems are about a Caddy that accepts what the client builds. *)

Section accepted.
Context `{BA : !BuiltAccepted (CA := CA)}.

Definition switch_mode (req : TrafficSwitchRequest) : TrafficMode :=
  if TrafficSwitchRequest.Mode req =s? "" then TrafficModeActive else TrafficSwitchRequest.Mode req.
Definition switch_weight (req : TrafficSwitchRequest) : Z :=
  if switch_mode req =s? TrafficModeCanary then TrafficSwitchRequest.CanaryWeight req else 0.
Definition switch_previous (req : TrafficSwitchRequest) (r : Route) : string :=
  if TrafficSwitchRequest.PreviousUpstream req =s? "" then Route.Upstream r
  else TrafficSwitchRequest.PreviousUpstream req.

(** The row after the switch. *)
Definition after_switch (req : TrafficSwitchRequest) (now : Time) (r : Route) : Route :=
  route_traffic (TrafficSwitchRequest.NewUpstream req) (switch_previous req r) (switch_mode req)
    (switch_weight req) now r.

(** The configuration [Switch] pushes: that of the row, without its headers. *)
Definition without_headers (cfg : CaddyRouteConfig) : CaddyRouteConfig :=
  {| CaddyRouteConfig.RouteID := CaddyRouteConfig.RouteID cfg;
     CaddyRouteConfig.Hostname := CaddyRouteConfig.Hostname cfg;
     CaddyRouteConfig.Upstream := CaddyRouteConfig.Upstream cfg;
     CaddyRouteConfig.TLSEnabled := CaddyRouteConfig.TLSEnabled cfg;
     CaddyRouteConfig.HTTPSRedirect := CaddyRouteConfig.HTTPSRedirect cfg;
     CaddyRouteConfig.StripPrefix := ""; CaddyRouteConfig.AddHeaders := ∅;
     CaddyRouteConfig.TimeoutSeconds := CaddyRouteConfig.TimeoutSeconds cfg;
     CaddyRouteConfig.MaxRetries := CaddyRouteConfig.MaxRetries cfg;
     CaddyRouteConfig.CanaryWeight := CaddyRouteConfig.CanaryWeight cfg;
     CaddyRouteConfig.CanaryUpstream := CaddyRouteConfig.CanaryUpstream cfg |}.

Lemma runs_Switch req now (st : proxy C) r :
  TrafficSwitchRequest.Hostname req = Route.Hostname r → Route.Hostname r ≠ "" →
  routes_ok (routes st) → r ∈ routes st → live r = true →
  let r' := after_switch req now r in
  ∃ rt st', runs (Switch req now) st (Ok rt) st'
    ∧ routes_ok (routes st') ∧ r' ∈ routes st' ∧ live r' = true
    ∧ (∀ id, served (edge st') id = if decide (id = routeTagID (Route.Hostname r))
             then Some (buildRoute (without_headers (toCaddyConfig r'))) else served (edge st) id)
    ∧ (∀ x, x ∈ routes st → Route.ID x ≠ Route.ID r → x ∈ routes st').
Proof.
  intros Hh Hne Hok Hr Hl r'.
  set (st2 := set_routes (update_where (route_id (Route.ID r))
    (route_traffic (TrafficSwitchRequest.NewUpstream req) (switch_previous req r) (switch_mode req)
       (switch_weight req) now) (routes st)) st).
  set (rt := switched (TrafficSwitchRequest.NewUpstream req) (switch_previous req r) (switch_mode req)
               (switch_weight req) r).
  destruct (runs_accepted (without_headers (toCaddyConfig r')) st2) as (c & Hrun & Hc).
  exists rt, (set_edge c st2). split_and!.
  - unfold Switch. rewrite Hh. apply String.eqb_neq in Hne as Hne'. rewrite Hne'. simpl andb. cbn match.
    eapply runs_bind; [by eapply runs_GetRouteByHostname, select_on_host|].
    eapply runs_bind; [apply runs_update_routes|].
    eapply runs_bind; [|apply runs_ret]. apply (runs_on_error _ _ _ _ _ Hrun).
  - apply routes_ok_update; [apply traffic_keeps|done].
  - apply elem_of_update_where. exists r. split; [done|]. unfold route_id. by rewrite String.eqb_refl.
  - done.
  - exact Hc.
  - intros x Hx Hid. apply elem_of_update_where. exists x. split; [done|].
    unfold route_id. apply String.eqb_neq in Hid. by rewrite Hid.
Qed.

Lemma runs_with_route {A} h (k : Route → db (proxy C) A) st r res st' :
  routes_ok (routes st) → r ∈ routes st → live r = true → Route.Hostname r = h →
  runs (k r) st res st' → runs (GetRouteByHostname h ≫= k) st res st'.
Proof.
  intros Hok Hr Hl <- Hk. eapply runs_bind; [by eapply runs_GetRouteByHostname, select_on_host|done].
Qed.

(** a blue-green switch moves all traffic at once and can be undone.  For a
    live route, [BlueGreen] makes the new upstream the only one Caddy sends
    traffic to; [Rollback] then restores the old upstream in the row and in
    Caddy, keeps the new one as the next rollback target, and both steps bump
    the version and leave every other route alone. *)
Theorem BlueGreen_Rollback (st : proxy C) r newUpstream corr now now2 :
  routes_ok (routes st) → r ∈ routes st → live r = true → Route.Hostname r ≠ "" →
  Route.Upstream r ≠ "" → newUpstream ≠ "" →
  let h := Route.Hostname r in
  let upstreams c := route_upstreams <$> served c (routeTagID h) in
  ∃ rt1 st1 rt2 st2 r2,
    runs (BlueGreen h newUpstream corr now) st (Ok rt1) st1
    ∧ upstreams (edge st1) = Some [(newUpstream, 0)]
    ∧ runs (Rollback h corr now2) st1 (Ok rt2) st2
    ∧ select (on_host h) (routes st2) = [r2]
    ∧ Route.Upstream r2 = Route.Upstream r ∧ Route.PreviousUpstream r2 = newUpstream
    ∧ Route.Version r2 = Route.Version r + 2 ∧ Route.CanaryWeight r2 = 0
    ∧ upstreams (edge st2) = Some [(Route.Upstream r, 0)]
    ∧ (∀ x, x ∈ routes st → Route.ID x ≠ Route.ID r → x ∈ routes st2).
Proof.
  intros Hok Hr Hl Hne Hu Hn h upstreams.
  apply String.eqb_neq in Hu as Hu'. apply String.eqb_neq in Hn as Hn'.
  set (req1 := switch_request r h newUpstream (Route.Upstream r) TrafficModeGreen 0 corr).
  destruct (runs_Switch req1 now st r eq_refl Hne Hok Hr Hl)
    as (rt1 & st1 & Hrun1 & Hok1 & Hr1 & Hl1 & Hc1 & Ho1).
  set (r1 := after_switch req1 now r) in *.
  assert (Route.PreviousUpstream r1 = Route.Upstream r) as Hp1 by (simpl; unfold switch_previous; simpl; by rewrite Hu').
  set (req2 := switch_request r1 h (Route.Upstream r) newUpstream TrafficModeActive 0 corr).
  destruct (runs_Switch req2 now2 st1 r1 eq_refl Hne Hok1 Hr1 Hl1)
    as (rt2 & st2 & Hrun2 & Hok2 & Hr2 & Hl2 & Hc2 & Ho2).
  exists rt1, st1, rt2, st2, (after_switch req2 now2 r1). split_and!; try done.
  - unfold BlueGreen. by apply (runs_with_route _ _ st r).
  - unfold upstreams. rewrite Hc1, decide_True by done. simpl. done.
  - unfold Rollback. apply (runs_with_route _ _ st1 r1); try done.
    rewrite Hp1, Hu'. exact Hrun2.
  - by apply (select_on_host _ (after_switch req2 now2 r1)).
  - simpl. unfold switch_previous. simpl. by rewrite Hn'.
  - simpl. lia.
  - unfold upstreams. rewrite Hc2, decide_True by done. done.
  - intros x Hx Hid. apply Ho2; [by apply Ho1|done].
Qed.

(** a canary takes exactly its share.  A weight outside 1..99 is refused and
    changes nothing; otherwise the primary upstream stays and Caddy splits the
    traffic between it and the canary with weights that are positive and add up
    to 100. *)
Theorem Canary_split (st : proxy C) r canary weight corr now fs :
  routes_ok (routes st) → r ∈ routes st → live r = true → Route.Hostname r ≠ "" → canary ≠ "" →
  let h := Route.Hostname r in
  if bool_decide (1 ≤ weight ≤ 99)
  then ∃ rt st', runs (Canary h canary weight corr now) st (Ok rt) st'
    ∧ route_upstreams <$> served (edge st') (routeTagID h)
      = Some [(Route.Upstream r, 100 - weight); (canary, weight)]
    ∧ 0 < weight ∧ 0 < 100 - weight
  else ∃ e, Canary h canary weight corr now (st, fs) = (Err e, (st, fs)) ∧ CodeOf (Some e) = CodeInvalidArgument.
Proof.
  intros Hok Hr Hl Hne Hca h. apply String.eqb_neq in Hca as Hca'. case_bool_decide as Hw.
  - set (req := switch_request r h (Route.Upstream r) canary TrafficModeCanary weight corr).
    destruct (runs_Switch req now st r eq_refl Hne Hok Hr Hl) as (rt & st' & Hrun & _ & _ & _ & Hc & _).
    exists rt, st'. split_and!; try lia.
    + unfold Canary. destruct ((weight <? 1) || (99 <? weight)) eqn:E; [bool_to_prop; lia|].
      by apply (runs_with_route _ _ st r).
    + rewrite Hc, decide_True by done. cbn -[Z.ltb Z.sub after_switch].
      assert (Route.CanaryWeight (after_switch req now r) = weight) as -> by done.
      assert (Route.PreviousUpstream (after_switch req now r) = canary) as ->
        by (simpl; unfold switch_previous; simpl; by rewrite Hca').
      rewrite Hca'. assert ((0 <? weight) = true) as -> by (apply Z.ltb_lt; lia). done.
  - unfold Canary. destruct ((weight <? 1) || (99 <? weight)) eqn:E; [by eexists|]. bool_to_prop. lia.
Qed.

(** ** Creating *)

(** The row [Create] leaves for the hostname: a new one, or the live one with
    the input merged in. *)
Definition created (id corr : string) (inp : CreateInput) (now : Time) (l : list Route) : Route :=
  let rt := new_route id corr inp in
  match select (on_host (Hostname inp)) l with
  | r :: _ => route_merge rt now r
  | [] => route_insert rt id now
  end.

Lemma created_host id corr inp now l : Route.Hostname (created id corr inp now l) = Hostname inp.
Proof.
  unfold created. destruct (select _ _) as [|r l'] eqn:E; [done|]. simpl.
  assert (r ∈ r :: l') as Hr by (apply elem_of_cons; by left). rewrite <- E in Hr.
  apply elem_of_select in Hr as [Hr _]. unfold on_host in Hr. by bool_to_prop.
Qed.

(** Organization, project, deployment and domain are named. *)
Definition identified (inp : CreateInput) : bool :=
  forallb (λ id, negb (id =s? "")) [OrgID inp; ProjectID inp; DeploymentID inp; DomainID inp].

Lemma runs_UpsertRoute_created id corr inp now (st : proxy C) :
  routes_ok (routes st) → identified inp = true → id ≠ "" → (∀ r, r ∈ routes st → Route.ID r ≠ id) →
  let rt := created id corr inp now (routes st) in
  ∃ l, runs (UpsertRoute id (new_route id corr inp) now) st (Ok rt) (set_routes l st)
    ∧ routes_ok l ∧ rt ∈ l ∧ live rt = true.
Proof.
  intros Hok Hi Hid Hfresh rt. unfold UpsertRoute. apply String.eqb_neq in Hid as Hid'.
  cbn [Route.ID new_route]. rewrite Hid'.
  unfold runs, translate, query, with_uuids. unfold identified in Hi. cbn [forallb] in Hi |- *.
  cbn [Route.OrgID Route.ProjectID Route.DeploymentID Route.DomainID new_route]. rewrite Hid', Hi.
  unfold upsert_route, rt, created. cbn [negb andb Route.Hostname new_route].
  destruct (select (on_host (Hostname inp)) (routes st)) as [|r l] eqn:E.
  - assert (matched (route_id id) (routes st) = 0) as ->.
    { apply matched_zero. intros r Hr. apply String.eqb_neq. auto. }
    eexists. split; [done|]. split_and!; [by apply routes_ok_insert| |done].
    apply elem_of_app. right. by apply list_elem_of_singleton.
  - assert (r ∈ r :: l) as Hr by (apply elem_of_cons; by left). rewrite <- E in Hr.
    apply elem_of_select in Hr as [Hr1 Hr2].
    eexists. split; [done|]. split_and!; [apply routes_ok_update; [apply merge_keeps|done]| |].
    + apply elem_of_update_where. exists r. by rewrite Hr1.
    + unfold on_host in Hr1. by bool_to_prop.
Qed.

(** Creating a route takes effect in both places.  With a hostname, an
    upstream, identifiers and a fresh id, and no failures, [Create] succeeds: the hostname
    has exactly one live route, active, with the requested upstream; Caddy
    serves that route's configuration under the hostname's tag; a version is
    recorded; and no tag but the hostname's changes. *)
Theorem Create_synced (st : proxy C) id vid corr inp now :
  routes_ok (routes st) → identified inp = true → Hostname inp ≠ "" → Upstream inp ≠ "" →
  id ≠ "" → (∀ r, r ∈ routes st → Route.ID r ≠ id) →
  ∃ rt st' row, runs (Create id vid corr inp now) st (Ok rt) st'
    ∧ routes_ok (routes st')
    ∧ select (on_host (Hostname inp)) (routes st') = [row]
    ∧ Route.Status row = RouteStatusActive ∧ Route.Upstream row = Upstream inp
    ∧ synced st' row
    ∧ (∃ v, versions st' = versions st ++ [v] ∧ RouteVersion.Upstream v = Upstream inp)
    ∧ ∀ tag, tag ≠ routeTagID (Hostname inp) → served (edge st') tag = served (edge st) tag.
Proof.
  intros Hok Hi Hh Hu Hid Hfresh. set (rt := created id corr inp now (routes st)).
  pose proof (created_host id corr inp now (routes st)) as Hhost. fold rt in Hhost.
  destruct (runs_UpsertRoute_created id corr inp now st Hok Hi Hid Hfresh) as (l1 & Hup & Hok1 & Hin & Hlive).
  fold rt in Hup, Hin, Hlive.
  destruct (runs_accepted (toCaddyConfig rt) (set_routes l1 st)) as (c & Hrun & Hc).
  set (row := route_status RouteStatusActive now rt).
  set (l2 := update_where (route_id (Route.ID rt)) (route_status RouteStatusActive now) l1).
  assert (row ∈ l2) as Hrow.
  { apply elem_of_update_where. exists rt. split; [done|]. unfold route_id. by rewrite String.eqb_refl. }
  assert (routes_ok l2) as Hok2 by (apply routes_ok_update; [apply status_keeps|done]).
  eexists _, _, row. split_and!.
  - unfold Create. apply String.eqb_neq in Hh as Hh'. apply String.eqb_neq in Hu as Hu'.
    rewrite Hh', Hu'. eapply runs_bind; [exact Hup|].
    eapply runs_bind; [apply (runs_attempt _ _ _ _ Hrun)|].
    eapply runs_bind; [eapply runs_ignore, runs_update_routes|].
    eapply runs_bind; [eapply runs_ignore; done|]. apply runs_ret.
  - done.
  - rewrite <- Hhost. by apply (select_on_host l2 row).
  - done.
  - simpl. unfold rt, created. by destruct (select _ _).
  - unfold synced. simpl. rewrite Hc. simpl. by rewrite decide_True.
  - eexists. split; [done|]. simpl. unfold rt, created. by destruct (select _ _).
  - intros tag Ht. simpl. rewrite Hc. simpl. rewrite decide_False; [done|congruence].
Qed.

End accepted.

(** deleting is complete and idempotent.  Without failures [Delete] succeeds
    whether or not the hostname has a route; afterwards the hostname has no
    live route, and if it had one Caddy serves nothing under its tag. *)
Theorem Delete_complete (st : proxy C) hostname now :
  routes_ok (routes st) →
  ∃ st', runs (Delete hostname now) st (Ok tt) st'
    ∧ select (on_host hostname) (routes st') = []
    ∧ match select (on_host hostname) (routes st) with
      | [] => st' = st
      | _ :: _ => served (edge st') (routeTagID hostname) = None
      end.
Proof.
  intros Hok. destruct (select (on_host hostname) (routes st)) as [|r l] eqn:E.
  - destruct (runs_GetRouteByHostname_none hostname st E) as (e & Hg & He).
    exists st. split_and!; try done. unfold Delete.
    eapply runs_bind; [apply (runs_attempt _ _ _ _ Hg)|]. cbn beta iota. by rewrite He.
  - set (st1 := set_routes (update_where (route_id (Route.ID r)) (route_status RouteStatusDraining now)
                              (routes st)) st).
    destruct (runs_Caddy_DeleteRoute hostname st1) as (c & Hrun & Hc).
    exists (set_routes (update_where (route_id (Route.ID r)) (route_removed now) (routes st1))
              (set_edge c st1)).
    split_and!.
    + unfold Delete. eapply runs_bind; [apply runs_attempt; by eapply runs_GetRouteByHostname|].
      cbn beta iota. eapply runs_bind; [apply runs_update_routes|].
      eapply runs_bind; [apply (runs_ignore _ _ _ _ Hrun)|].
      exact (runs_update_routes _ _ _ (set_edge c st1)).
    + assert (r ∈ r :: l) as Hr by (apply elem_of_cons; by left). rewrite <- E in Hr.
      apply elem_of_select in Hr as [Hr1 Hr2]. unfold on_host in Hr1. bool_to_prop. subst hostname.
      apply select_none. simpl. intros x' (x & Hx & ->)%elem_of_update_where.
      apply elem_of_update_where in Hx as (y & Hy & ->).
      destruct (route_id (Route.ID r) y) eqn:Ey; simpl.
      * unfold route_id in *. simpl. rewrite Ey. unfold on_host. simpl. by rewrite andb_false_r.
      * rewrite Ey. unfold on_host. destruct (Route.Hostname y =s? _) eqn:Eh; [|done]. simpl.
        destruct (live y) eqn:El; [|done]. bool_to_prop.
        assert (y ∈ select (on_host (Route.Hostname r)) (routes st)) as Hin.
        { apply elem_of_select. split; [|done]. unfold on_host. rewrite El, Eh. by rewrite String.eqb_refl. }
        rewrite (select_on_host (routes st) r Hok Hr2) in Hin by done.
        apply list_elem_of_singleton in Hin. subst y. unfold route_id in Ey. by rewrite String.eqb_refl in Ey.
    + simpl. rewrite Hc. by rewrite decide_True.
Qed.

(** ** Reconciliation *)

Definition tag_of (r : Route) : string := routeTagID (Route.Hostname r).

(** What Caddy serves for a row after a push: its configuration where it accepts
    that, and what it served before where it does not. *)
Definition pushed (c c' : C) (r : Route) : Prop :=
  served c' (tag_of r) = if accepts (buildRoute (toCaddyConfig r)) then Some (buildRoute (toCaddyConfig r))
                         else served c (tag_of r).

Lemma runs_push_all l n (st : proxy C) :
  NoDup (tag_of <$> l) →
  ∃ n' c, runs (push_all l n) st (Ok n') (set_edge c st)
    ∧ (∀ r, r ∈ l → pushed (edge st) c r)
    ∧ ∀ tag, tag ∉ tag_of <$> l → served c tag = served (edge st) tag.
Proof.
  revert n st. induction l as [|r l IH]; intros n st Hn.
  - exists n, (edge st). rewrite set_edge_same. split_and!; [apply runs_ret| |done].
    intros r Hr. by apply elem_of_nil in Hr.
  - apply NoDup_cons in Hn as [Hr Hn].
    destruct (runs_Caddy_UpsertRoute (toCaddyConfig r) st) as (res & c1 & Hrun & _ & Hc1).
    assert (∀ tag, tag ≠ tag_of r → served c1 tag = served (edge st) tag) as Hother.
    { intros tag Ht. rewrite Hc1. rewrite decide_False; [done|]. by intros [? _]. }
    destruct (IH (match res with Ok _ => n | Err _ => n + 1 end) (set_edge c1 st) Hn) as (n' & c & Hrest & Hc & Ho).
    exists n', c. split_and!.
    + simpl. eapply runs_bind; [apply (runs_attempt _ _ _ _ Hrun)|exact Hrest].
    + intros x [->|Hx]%elem_of_cons.
      * unfold pushed. rewrite Ho by done. simpl. rewrite Hc1. change (routeTagID _) with (tag_of r).
        destruct (accepts _); [by rewrite decide_True|]. rewrite decide_False; [done|]. by intros [_ ?].
      * unfold pushed. rewrite (Hc x Hx). simpl. rewrite Hother; [done|]. intros E. apply Hr. rewrite <- E.
        by apply list_elem_of_fmap_2.
    + intros tag Ht. rewrite fmap_cons, not_elem_of_cons in Ht. destruct Ht as [Ht1 Ht2].
      rewrite Ho by done. by apply Hother.
Qed.

(** C22: reconciliation converges as far as Caddy accepts the routes.  When the
    tags of the routes in service are distinct and no statement and no request
    fails in transport, a pass of [ReconcileAll] makes Caddy serve the stored
    configuration of every route in service whose configuration it accepts, whatever it served
    before; the tag of a route it refuses, and every other tag, is served as
    before, no table changes, and the pass reports success in either case. *)
Theorem ReconcileAll_converges (st : proxy C) host_lt :
  NoDup (tag_of <$> select in_service (routes st)) →
  ∃ c, runs (ReconcileAll host_lt) st (Ok tt) (set_edge c st)
    ∧ (∀ r, r ∈ routes st → in_service r = true →
         if accepts (buildRoute (toCaddyConfig r)) then synced (set_edge c st) r
         else served c (tag_of r) = served (edge st) (tag_of r))
    ∧ ∀ tag, (∀ r, r ∈ routes st → in_service r = true → tag_of r ≠ tag) →
        served c tag = served (edge st) tag.
Proof.
  intros Hn. set (l := sort_slice (by_hostname host_lt) (select in_service (routes st))).
  assert (∀ r, r ∈ l ↔ in_service r = true ∧ r ∈ routes st) as Hl
    by (intros r; unfold l; by rewrite elem_of_sort_slice, elem_of_select).
  destruct (runs_push_all l 0 st) as (n & c & Hrun & Hc & Ho).
  { unfold l. by rewrite sort_slice_perm. }
  exists c. split_and!.
  - unfold ReconcileAll. eapply runs_bind; [done|]. eapply runs_bind; [exact Hrun|]. apply runs_ret.
  - intros r Hr Hs. assert (pushed (edge st) c r) as Hp by (apply Hc; by apply Hl).
    unfold pushed in Hp. by destruct (accepts _).
  - intros tag Ht. apply Ho. intros (r & -> & [Hs Hr]%Hl)%list_elem_of_fmap. by apply (Ht r).
Qed.
End facts.

(** ** Witnesses *)

#[local] Existing Instance strict_driver.
#[local] Existing Instance insertion_sorter.

Definition no_routes : proxy list_caddy :=
  mkProxy [] [] [] {| lc_routes := []; lc_automate := None |}.

Definition some_input (org hostname upstream : string) : CreateInput :=
  {| OrgID := org; ProjectID := "p"; DeploymentID := "d"; DomainID := "dom";
     Hostname := hostname; Upstream := upstream; Kind := ""; TLSEnabled := true; HTTPSRedirect := true;
     StripPrefix := ""; AddHeaders := {["X-Org" := org]}; TimeoutSecs := 0; MaxRetries := 0;
     CorrelationID := "c" |}.

Definition string_lt (a b : string) : bool := String.ltb a b.

Definition play (l : list (proxy_op * faults)) (st : proxy list_caddy) : proxy list_caddy :=
  foldl (λ st '(o, fs), tables_of (run_proxy o 10 (st, fs))) st l.

Definition one_route_up : proxy list_caddy :=
  play [(PCreate "r1" "v1" "" (some_input "a" "my-app.io" "10.0.0.1:80"), [])] no_routes.

Definition the_route : Route :=
  route_status RouteStatusActive 10
    (created "r1" "" (some_input "a" "my-app.io" "10.0.0.1:80") 10 []).

Lemma one_route_up_routes : routes one_route_up = [the_route].
Proof. vm_compute. reflexivity. Qed.

Lemma one_route_up_ok : routes_ok (routes one_route_up).
Proof. rewrite one_route_up_routes. split; vm_compute; apply NoDup_singleton. Qed.

Lemma the_route_in : the_route ∈ routes one_route_up.
Proof. rewrite one_route_up_routes. by apply list_elem_of_singleton. Qed.

Lemma proxy_invariant_witness : routes_ok (routes one_route_up).
Proof.
  apply (proxy_invariant no_routes); [split; constructor|].
  apply rtc_once. apply (pstep_op (PCreate "r1" "v1" "" (some_input "a" "my-app.io" "10.0.0.1:80")) 10 no_routes []).
Defined.

Lemma BlueGreen_Rollback_witness :
  ∃ rt1 st1, runs (BlueGreen "my-app.io" "10.0.0.2:80" "" 20) one_route_up (Ok rt1) st1
    ∧ route_upstreams <$> served (edge st1) (routeTagID "my-app.io") = Some [("10.0.0.2:80", 0)].
Proof.
  destruct (BlueGreen_Rollback one_route_up the_route "10.0.0.2:80" "" 20 30 one_route_up_ok the_route_in
    eq_refl ltac:(done) ltac:(done) ltac:(done)) as (rt1 & st1 & _ & _ & _ & H1 & H2 & _).
  by exists rt1, st1.
Defined.

Lemma Canary_split_witness :
  ∃ rt st', runs (Canary "my-app.io" "10.0.0.2:80" 10 "" 20) one_route_up (Ok rt) st'
    ∧ route_upstreams <$> served (edge st') (routeTagID "my-app.io")
      = Some [("10.0.0.1:80", 90); ("10.0.0.2:80", 10)].
Proof.
  destruct (Canary_split one_route_up the_route "10.0.0.2:80" 10 "" 20 [] one_route_up_ok the_route_in
    eq_refl ltac:(done) ltac:(done)) as (rt & st' & H1 & H2 & _). by exists rt, st'.
Defined.

Lemma Create_synced_witness :
  ∃ rt st', runs (Create "r1" "v1" "" (some_input "a" "my-app.io" "10.0.0.1:80") 10) no_routes (Ok rt) st'
    ∧ routes_ok (routes st').
Proof.
  destruct (Create_synced no_routes "r1" "v1" "" (some_input "a" "my-app.io" "10.0.0.1:80") 10
    ltac:(split; constructor) eq_refl ltac:(done) ltac:(done) ltac:(done)
    ltac:(intros r Hr; by apply elem_of_nil in Hr)) as (rt & st' & _ & H1 & H2 & _).
  by exists rt, st'.
Defined.

Lemma Delete_complete_witness :
  ∃ st', runs (Delete "my-app.io" 20) one_route_up (Ok tt) st'
    ∧ select (on_host "my-app.io") (routes st') = [].
Proof.
  destruct (Delete_complete one_route_up "my-app.io" 20 one_route_up_ok) as (st' & H1 & H2 & _).
  by exists st'.
Defined.

(** A Caddy that refuses routes with headers of their own. *)
Definition plain_admin : CaddyAdmin list_caddy := admin_of (λ r, bool_decide (route_headers r = forwarded_headers)).

Lemma ReconcileAll_converges_witness :
  (∃ c, runs (ReconcileAll string_lt) (set_edge (edge no_routes) one_route_up) (Ok tt) (set_edge c one_route_up)
    ∧ synced (set_edge c one_route_up) the_route)
  ∧ (∃ c, runs (ReconcileAll (CA := plain_admin) string_lt) (set_edge (edge no_routes) one_route_up) (Ok tt) (set_edge c one_route_up)
    ∧ lc_served c (tag_of the_route) = None).
Proof.
  assert (NoDup (tag_of <$> select in_service (routes (set_edge (edge no_routes) one_route_up)))) as Hn
    by (vm_compute; apply NoDup_singleton).
  split.
  - destruct (ReconcileAll_converges (set_edge (edge no_routes) one_route_up) string_lt Hn) as (c & H1 & H2 & _).
    exists c. split; [exact H1|]. apply (H2 the_route the_route_in). vm_compute. reflexivity.
  - destruct (ReconcileAll_converges (CA := plain_admin) (set_edge (edge no_routes) one_route_up) string_lt Hn) as (c & H1 & H2 & _).
    exists c. split; [exact H1|]. specialize (H2 the_route the_route_in ltac:(vm_compute; reflexivity)).
    assert (accepts (CaddyAdmin := plain_admin) (buildRoute (toCaddyConfig the_route)) = false) as E by (vm_compute; reflexivity).
    rewrite E in H2. etrans; [exact H2|]. vm_compute. reflexivity.
Defined.

(** ** What the proxy does not promise *)

(** Tags forget the difference between a dot and a dash: a route of another
    tenant replaces the one Caddy serves. *)
Example tags_collide :
  let st := play [(PCreate "r2" "v2" "" (some_input "b" "my.app.io" "10.0.0.9:80"), [])] one_route_up in
  (length (select in_service (routes st)), route_hosts <$> lc_routes (edge st)) = (2%nat, [["my.app.io"]]).
Proof. vm_compute. reflexivity. Qed.

(** As strict as its documentation, Caddy accepts nothing that the client builds:
    the forwarded headers are sent as texts and not as lists of texts.  A created
    route ends in the state [error] and Caddy serves nothing. *)
Lemma buildRoute_undocumented cfg : accepts (CaddyAdmin := documented_admin) (buildRoute cfg) = false.
Proof.
  change (bool_decide (route_headers (buildRoute cfg) = ∅)
          && forallb (λ u, u.2 =? 0) (route_upstreams (buildRoute cfg)) = false).
  rewrite bool_decide_false; [done|]. intros H.
  assert (route_headers (buildRoute cfg) !! "X-Real-IP" = None) as E by (by rewrite H).
  apply lookup_union_None in E as [_ E]. vm_compute in E. done.
Qed.

Example documented_caddy_serves_nothing :
  let st := tables_of (run_proxy (CA := documented_admin)
    (PCreate "r1" "v1" "" (some_input "a" "my-app.io" "10.0.0.1:80")) 10 (no_routes, [])) in
  (Route.Status <$> routes st, lc_routes (edge st)) = ([RouteStatusError], []).
Proof. vm_compute. reflexivity. Qed.

(** [Rollback] during a canary sends all traffic to the canary. *)
Example rollback_promotes_canary :
  let st := play [(PCanary "my-app.io" "10.0.0.2:80" 5 "", []); (PRollback "my-app.io" "", [])] one_route_up in
  route_upstreams <$> lc_routes (edge st) = [[("10.0.0.2:80", 0)]].
Proof. vm_compute. reflexivity. Qed.

(** A switch forgets the route's headers until the next reconciliation. *)
Example switch_drops_headers :
  let st := play [(PBlueGreen "my-app.io" "10.0.0.2:80" "", [])] one_route_up in
  ((λ r, route_headers r !! "X-Org") <$> lc_routes (edge one_route_up),
   (λ r, route_headers r !! "X-Org") <$> lc_routes (edge st)) = ([Some "a"], [None]).
Proof. vm_compute. reflexivity. Qed.

(** When the request to Caddy fails during [Delete], the row is removed all the
    same and reconciliation never removes the route from Caddy. *)
Example deleted_route_stays_in_caddy :
  let st := play [(PDelete "my-app.io", [None; None; Some (Plain "connection refused")]);
                  (PReconcile string_lt, [])] one_route_up in
  (select live (routes st), route_hosts <$> lc_routes (edge st)) = ([], [["my-app.io"]]).
Proof. vm_compute. reflexivity. Qed.

(** A route whose first push failed is in the state [error], which
    reconciliation does not look at. *)
Example errored_route_never_healed :
  let st := play [(PCreate "r1" "v1" "" (some_input "a" "my-app.io" "10.0.0.1:80"),
                   [None; Some (Plain "refused"); Some (Plain "refused")]);
                  (PReconcile string_lt, [])] no_routes in
  (Route.Status <$> routes st, lc_routes (edge st)) = ([RouteStatusError], []).
Proof. vm_compute. reflexivity. Qed.

(** A failed push leaves [Update] done in the table: nothing is rolled back. *)
Example failed_update_not_rolled_back :
  let st := play [(PUpdate "x" "v" "my-app.io" "10.0.0.7:80" None 0 (-1) "",
                   [None; None; Some (Plain "refused"); Some (Plain "refused")])] one_route_up in
  (Route.Upstream <$> routes st, route_upstreams <$> lc_routes (edge st))
  = (["10.0.0.7:80"], [[("10.0.0.1:80", 0)]]).
Proof. vm_compute. reflexivity. Qed.
