(* ===== verification/PreviewManager.v ===== *)
(** * Preview environments (packages/application/proxy/preview)

    Hostname generation, creation, deletion and expiry. *)

From Stdlib Require Import Ascii.
From S2P Require Import Prelude GoLib Errors Postgres Sql ProxyStore RouteEngine RouteFacts.

(** ** Hostnames *)

Definition slug_char (c : ascii) : bool := code_in 97 122 c || code_in 48 57 c.
Definition is_separator (c : ascii) : bool :=
  let n := nat_of_ascii c in (n =? 47)%nat || (n =? 95)%nat || (n =? 46)%nat.
Definition dash : ascii := "-"%char.

(** The loop; [out] is the output so far, last byte first. *)
Fixpoint slug_loop (s : string) (out : list ascii) : list ascii :=
  match s with
  | EmptyString => out
  | String c s' =>
      if slug_char c then slug_loop s' (c :: out)
      else if is_separator c then
        match out with
        | [] => slug_loop s' out
        | last :: _ => if bool_decide (last ≠ dash) then slug_loop s' (dash :: out) else slug_loop s' out
        end
      else slug_loop s' out
  end.

Fixpoint trim_dashes (out : list ascii) : list ascii :=
  match out with
  | [] => []
  | c :: out' => if bool_decide (c = dash) then trim_dashes out' else out
  end.

Definition slug_bytes (s : string) : list ascii := rev (trim_dashes (slug_loop (ToLower s) [])).
Definition slugify (s : string) : string := String.string_of_list_ascii (slug_bytes s).

(** [fmt.Sprintf("%s-%s.%s", ..)] *)
Definition generateHostname (previewDomain branch projectID : string) : string :=
  let branchSlug := slugify branch in
  let branchSlug := if branchSlug =s? "" then "preview" else branchSlug in
  let projShort := if (8 <? String.length projectID)%nat then String.substring 0 8 projectID else projectID in
  branchSlug +:+ "-" +:+ projShort +:+ "." +:+ previewDomain.

(** ** The manager *)

Record Manager := { previewDomain : string; ttl : Duration }.

Definition NewManager (domain : string) (t : Duration) : Manager :=
  {| previewDomain := if domain =s? "" then "preview.agnivo.app" else domain;
     ttl := if t <=? 0 then 7 * 24 * Hour else t |}.

Module PreviewInput.
Record t := mk {
  OrgID : string; ProjectID : string; DeploymentID : string; Upstream : string; Branch : string;
  CommitSHA : string; CustomHostname : string; TTL : Duration; CorrelationID : string;
}.
End PreviewInput.
Abbreviation PreviewInput := PreviewInput.t.
Import PreviewInput.

Definition preview_hostname (m : Manager) (inp : PreviewInput) : string :=
  if CustomHostname inp =s? "" then generateHostname (previewDomain m) (Branch inp) (ProjectID inp)
  else CustomHostname inp.

Definition preview_row (m : Manager) (id : string) (inp : PreviewInput) (now : Time) : Preview :=
  {| Preview.ID := id; Preview.OrgID := OrgID inp; Preview.ProjectID := ProjectID inp;
     Preview.DeploymentID := DeploymentID inp; Preview.Hostname := preview_hostname m inp;
     Preview.Upstream := Upstream inp; Preview.Branch := Branch inp; Preview.CommitSHA := CommitSHA inp;
     Preview.Status := PreviewStatusActive;
     Preview.ExpiresAt := Some (Add now (if TTL inp <=? 0 then ttl m else TTL inp));
     Preview.CorrelationID := CorrelationID inp; Preview.Metadata := "{}"; Preview.CreatedAt := 0;
     Preview.UpdatedAt := 0; Preview.DeletedAt := None |}.

Definition preview_config (hostname upstream : string) : CaddyRouteConfig :=
  {| CaddyRouteConfig.RouteID := ""; CaddyRouteConfig.Hostname := hostname;
     CaddyRouteConfig.Upstream := upstream; CaddyRouteConfig.TLSEnabled := true;
     CaddyRouteConfig.HTTPSRedirect := true; CaddyRouteConfig.StripPrefix := "";
     CaddyRouteConfig.AddHeaders := ∅; CaddyRouteConfig.TimeoutSeconds := 30;
     CaddyRouteConfig.MaxRetries := 2; CaddyRouteConfig.CanaryWeight := 0;
     CaddyRouteConfig.CanaryUpstream := "" |}.

Section manager.
Context `{D : Driver} {C : Type} `{CA : CaddyAdmin C} (m : Manager).

Definition CreatePreview (id : string) (inp : PreviewInput) (now : Time) : db (proxy C) Preview :=
  if Upstream inp =s? "" then fail_with (New CodeInvalidArgument "preview: upstream required")
  else if DeploymentID inp =s? "" then
    fail_with (New CodeInvalidArgument "preview: deployment_id required")
  else
    preview ← UpsertPreview id (preview_row m id inp now) now;
    _ ← ignore (Caddy_UpsertRoute (preview_config (preview_hostname m inp) (Upstream inp)));
    _ ← ignore (AutomateCert (preview_hostname m inp));
    mret preview.

Definition DeletePreview (deploymentID : string) (now : Time) : db (proxy C) unit :=
  got ← attempt (GetPreviewByDeployment deploymentID);
  match got with
  | Err err => if IsCode (Some err) CodeNotFound then mret tt else fail err
  | Ok preview =>
      _ ← ignore (Caddy_DeleteRoute (Preview.Hostname preview));
      SoftDeletePreview (Preview.ID preview) now
  end.

Fixpoint cleanup_rows (l : list Preview) (now : Time) (removed : Z) : db (proxy C) Z :=
  match l with
  | [] => mret removed
  | p :: rest =>
      _ ← ignore (Caddy_DeleteRoute (Preview.Hostname p));
      deleted ← attempt (SoftDeletePreview (Preview.ID p) now);
      match deleted with
      | Err _ => cleanup_rows rest now removed
      | Ok _ => cleanup_rows rest now (removed + 1)
      end
  end.

Definition CleanupExpired (now : Time) : db (proxy C) Z :=
  l ← ListExpiredPreviews now;
  cleanup_rows l now 0.
End manager.

(** ** Slugs *)

(** Read from the end: slug characters and dashes, no two dashes in a row, and
    no dash first. *)
Fixpoint slug_ok (out : list ascii) : Prop :=
  match out with
  | [] => True
  | c :: out' =>
      (slug_char c = true ∨ (c = dash ∧ match out' with [] => False | d :: _ => d ≠ dash end))
      ∧ slug_ok out'
  end.

Lemma slug_loop_ok s out : slug_ok out → slug_ok (slug_loop s out).
Proof.
  revert out. induction s as [|c s IH]; intros out Ho; simpl; [done|].
  destruct (slug_char c) eqn:E; [apply IH; simpl; eauto|].
  destruct (is_separator c); [|by apply IH].
  destruct out as [|d out]; [by apply IH|]. case_bool_decide; apply IH; [|done]. split; eauto.
Qed.

Lemma trim_dashes_ok out :
  slug_ok out → slug_ok (trim_dashes out) ∧ match trim_dashes out with [] => True | c :: _ => c ≠ dash end.
Proof.
  induction out as [|c out IH]; simpl; [done|]. intros [Hc Ho].
  case_bool_decide as E; [by apply IH|]. by repeat split.
Qed.

Lemma slug_ok_suffix l1 l2 : slug_ok (l1 ++ l2) → slug_ok l2.
Proof. induction l1 as [|c l1 IH]; simpl; [done|]. intros [_ H]. auto. Qed.

Lemma dash_not_slug : slug_char dash = false.
Proof. reflexivity. Qed.

(** preview slugs are valid DNS label fragments: for every branch name, the
    slug has only lower-case letters, digits and dashes, starts and ends with a
    letter or digit, and never has two dashes in a row. *)
Theorem slugify_label s :
  let l := slug_bytes s in
  Forall (λ c, slug_char c = true ∨ c = dash) l
  ∧ match l with [] => True | c :: _ => slug_char c = true end
  ∧ match rev l with [] => True | c :: _ => slug_char c = true end
  ∧ ∀ l1 l2, l ≠ l1 ++ dash :: dash :: l2.
Proof.
  intros l. set (out := trim_dashes (slug_loop (ToLower s) [])).
  destruct (trim_dashes_ok (slug_loop (ToLower s) [])) as [Hok Hlast]; [by apply slug_loop_ok|].
  fold out in Hok, Hlast. assert (l = rev out) as Hl by done. clearbody l out. subst l.
  split_and!.
  - apply Forall_rev. revert Hok. clear. induction out as [|c out IH]; [done|].
    intros [Hc Ho]. constructor; [naive_solver|auto].
  - destruct (rev out) as [|c l] eqn:E; [done|].
    assert (out = rev l ++ [c]) as -> by (rewrite <- (rev_involutive out), E; done).
    clear -Hok. induction (rev l) as [|d r IH]; simpl in *; [naive_solver|]. apply IH, Hok.
  - rewrite rev_involutive. destruct out as [|c out]; [done|]. destruct Hok as [[?|[? _]] _]; done.
  - intros l1 l2 E. assert (out = rev l2 ++ dash :: dash :: rev l1) as ->.
    { rewrite <- (rev_involutive out), E, rev_app_distr. simpl. by rewrite <- !app_assoc. }
    apply slug_ok_suffix in Hok. destruct Hok as [[H|[_ H]] _]; [|done].
    by rewrite dash_not_slug in H.
Qed.

(** ** Expiry *)

Section facts.
Context `{D : Driver} {C : Type} `{CA : CaddyAdmin C}.

Definition removed_by (now : Time) (ids : list string) (l : list Preview) : list Preview :=
  update_where (λ p, bool_decide (Preview.ID p ∈ ids)) (preview_removed now) l.

Lemma removed_by_nil now l : removed_by now [] l = l.
Proof. apply update_where_none. intros p _. by apply bool_decide_eq_false, not_elem_of_nil. Qed.

Lemma removed_by_cons now id ids l :
  removed_by now ids (update_where (λ p, Preview.ID p =s? id) (preview_removed now) l)
  = removed_by now (id :: ids) l.
Proof.
  unfold removed_by, update_where. rewrite <- list_fmap_compose. apply list_fmap_ext.
  intros i p _. simpl. destruct (Preview.ID p =s? id) eqn:E; bool_to_prop; simpl.
  - rewrite (bool_decide_true (Preview.ID p ∈ id :: ids)) by (rewrite E; by apply elem_of_cons; left).
    by case_match.
  - destruct (bool_decide (Preview.ID p ∈ ids)) eqn:E2; bool_to_prop.
    + rewrite bool_decide_true; [done|]. by apply elem_of_cons; right.
    + rewrite bool_decide_false; [done|]. rewrite elem_of_cons. naive_solver.
Qed.

Lemma runs_cleanup_rows l now n (st : proxy C) :
  ∃ st', runs (cleanup_rows l now n) st (Ok (n + Z.of_nat (length l))) st'
    ∧ previews st' = removed_by now (Preview.ID <$> l) (previews st) ∧ routes st' = routes st
    ∧ (∀ tag, served (edge st) tag = None → served (edge st') tag = None)
    ∧ ∀ p, p ∈ l → served (edge st') (routeTagID (Preview.Hostname p)) = None.
Proof.
  revert n st. induction l as [|p l IH]; intros n st.
  - exists st. simpl. rewrite Z.add_0_r, removed_by_nil. split_and!; try done. intros p Hp. by apply elem_of_nil in Hp.
  - destruct (runs_Caddy_DeleteRoute (Preview.Hostname p) st) as (c & Hrun & Hc).
    set (st1 := set_previews (update_where (λ r, Preview.ID r =s? Preview.ID p) (preview_removed now)
                                (previews st)) (set_edge c st)).
    destruct (IH (n + 1) st1) as (st' & Hrest & Hp & Hr & Hkeep & Hs). exists st'. split_and!.
    + simpl. eapply runs_bind; [apply (runs_ignore _ _ _ _ Hrun)|].
      eapply runs_bind; [apply (runs_attempt _ _ (Ok tt) st1); done|]. cbn beta iota.
      replace (n + Z.of_nat (S (length l))) with (n + 1 + Z.of_nat (length l)) by lia. exact Hrest.
    + rewrite Hp. apply removed_by_cons.
    + by rewrite Hr.
    + intros tag Ht. apply Hkeep. simpl. rewrite Hc. by case_decide.
    + intros q [->|Hq]%elem_of_cons; [|by apply Hs]. apply Hkeep. simpl. rewrite Hc. by rewrite decide_True.
Qed.

(** Expiry removes exactly the expired previews.  Without failures
    [CleanupExpired] reports their number, marks exactly the active previews
    past their time as deleted, leaves every other preview and every route as
    it is, and Caddy serves none of the expired hostnames any more. *)
Theorem CleanupExpired_exact (st : proxy C) now :
  NoDup (Preview.ID <$> previews st) →
  ∃ st', runs (CleanupExpired now) st (Ok (matched (preview_due now) (previews st))) st'
    ∧ previews st' = update_where (preview_due now) (preview_removed now) (previews st)
    ∧ routes st' = routes st
    ∧ (∀ p, p ∈ previews st → preview_due now p = true →
         served (edge st') (routeTagID (Preview.Hostname p)) = None)
    ∧ matched (preview_due now) (previews st') = 0.
Proof.
  intros Hn. set (l := select (preview_due now) (previews st)).
  destruct (runs_cleanup_rows l now 0 st) as (st' & Hrun & Hp & Hr & _ & Hs).
  assert (previews st' = update_where (preview_due now) (preview_removed now) (previews st)) as Hp'.
  { rewrite Hp. unfold removed_by, update_where. apply list_fmap_ext.
    intros i p Hi%list_elem_of_lookup_2.
    assert (bool_decide (Preview.ID p ∈ Preview.ID <$> l) = preview_due now p) as ->; [|done].
    destruct (preview_due now p) eqn:E.
    - apply bool_decide_eq_true, (list_elem_of_fmap_2 Preview.ID). by apply elem_of_select.
    - apply bool_decide_eq_false. intros (q & Eq & [Hd Hq]%elem_of_select)%list_elem_of_fmap.
      rewrite (NoDup_key_eq Preview.ID (previews st) p q Hn Hi Hq Eq) in E. congruence. }
  exists st'. split_and!; try done.
  - intros p Hin Hd. apply Hs. by apply elem_of_select.
  - rewrite Hp'. apply matched_zero. intros p' (p & _ & ->)%elem_of_update_where.
    destruct (preview_due now p) eqn:E; [|done]. done.
Qed.
End facts.

Definition some_preview (id host : string) (expires : Time) : Preview :=
  {| Preview.ID := id; Preview.OrgID := "o"; Preview.ProjectID := "p"; Preview.DeploymentID := id;
     Preview.Hostname := host; Preview.Upstream := "10.0.0.1:80"; Preview.Branch := "main";
     Preview.CommitSHA := ""; Preview.Status := PreviewStatusActive; Preview.ExpiresAt := Some expires;
     Preview.CorrelationID := ""; Preview.Metadata := "{}"; Preview.CreatedAt := 1;
     Preview.UpdatedAt := 1; Preview.DeletedAt := None |}.

Definition two_previews : proxy list_caddy :=
  mkProxy [] [] [some_preview "a" "x.dev" 10; some_preview "b" "y.dev" 30]
    {| lc_routes := []; lc_automate := None |}.

Lemma CleanupExpired_exact_witness :
  ∃ st', @runs _ _ (@CleanupExpired strict_driver list_caddy list_admin 20) two_previews (Ok 1) st'
    ∧ Preview.Status <$> previews st' = [PreviewStatusDeleted; PreviewStatusActive].
Proof.
  assert (NoDup (Preview.ID <$> previews two_previews)) as Hn by (apply (bool_decide_unpack _); vm_compute; exact I).
  destruct (@CleanupExpired_exact strict_driver list_caddy list_admin two_previews 20 Hn) as (st' & H1 & H2 & _).
  exists st'. split; [exact H1|]. rewrite H2. vm_compute. reflexivity.
Defined.

(** A dash in a branch name is dropped, so two branches get one hostname. *)
Example slugs_collide :
  generateHostname "preview.agnivo.app" "fix-1" "12345678-9abc"
  = generateHostname "preview.agnivo.app" "fix1" "12345678-9abc".
Proof. vm_compute. reflexivity. Qed.
