(* ===== verification/Rbac.v ===== *)
(** * Role-based access control (packages/application/identity/rbac/role.go) *)

From S2P Require Import Prelude Errors.

Abbreviation Role := string.
Definition RoleOwner : Role := "owner".
Definition RoleAdmin : Role := "admin".
Definition RoleDeveloper : Role := "developer".
Definition RoleOperator : Role := "operator".
Definition RoleBilling : Role := "billing".
Definition RoleViewer : Role := "viewer".

Definition AllRoles : list Role :=
  [RoleOwner; RoleAdmin; RoleDeveloper; RoleOperator; RoleBilling; RoleViewer].

Abbreviation Permission := string.
Definition PermOrgRead : Permission := "org:read".
Definition PermOrgWrite : Permission := "org:write".
Definition PermOrgDelete : Permission := "org:delete".
Definition PermMemberRead : Permission := "member:read".
Definition PermMemberInvite : Permission := "member:invite".
Definition PermMemberManage : Permission := "member:manage".
Definition PermMemberRemove : Permission := "member:remove".
Definition PermAPIKeyRead : Permission := "apikey:read".
Definition PermAPIKeyManage : Permission := "apikey:manage".
Definition PermSessionRead : Permission := "session:read".
Definition PermSessionRevoke : Permission := "session:revoke".
Definition PermBillingRead : Permission := "billing:read".
Definition PermBillingManage : Permission := "billing:manage".
Definition PermDeployRead : Permission := "deploy:read".
Definition PermDeployWrite : Permission := "deploy:write".
Definition PermProjectRead : Permission := "project:read".
Definition PermProjectWrite : Permission := "project:write".

Definition allPermissions : list Permission :=
  [PermOrgRead; PermOrgWrite; PermOrgDelete;
   PermMemberRead; PermMemberInvite; PermMemberManage; PermMemberRemove;
   PermAPIKeyRead; PermAPIKeyManage;
   PermSessionRead; PermSessionRevoke;
   PermBillingRead; PermBillingManage;
   PermDeployRead; PermDeployWrite; PermProjectRead; PermProjectWrite].

Definition permSet (perms : list Permission) : gset Permission := list_to_set perms.

Definition rolePermissions : gmap Role (gset Permission) := list_to_map
  [(RoleOwner, permSet allPermissions);
   (RoleAdmin, permSet
      [PermOrgRead; PermOrgWrite;
       PermMemberRead; PermMemberInvite; PermMemberManage; PermMemberRemove;
       PermAPIKeyRead; PermAPIKeyManage;
       PermSessionRead; PermSessionRevoke;
       PermDeployRead; PermDeployWrite; PermProjectRead; PermProjectWrite]);
   (RoleDeveloper, permSet
      [PermOrgRead; PermMemberRead;
       PermAPIKeyRead;
       PermSessionRead; PermSessionRevoke;
       PermDeployRead; PermDeployWrite; PermProjectRead; PermProjectWrite]);
   (RoleOperator, permSet
      [PermOrgRead; PermMemberRead;
       PermDeployRead; PermDeployWrite; PermProjectRead]);
   (RoleBilling, permSet [PermOrgRead; PermBillingRead; PermBillingManage]);
   (RoleViewer, permSet [PermOrgRead; PermMemberRead; PermDeployRead; PermProjectRead])].

Definition ParseRole (s : string) : result error Role :=
  match rolePermissions !! s with
  | None => Err (Platform (InvalidArgument ("invalid role: " +:+ s)))
  | Some _ => Ok s
  end.

Definition HasPermission (role : Role) (perm : Permission) : bool :=
  match rolePermissions !! role with
  | None => false
  | Some perms => bool_decide (perm ∈ perms)
  end.

Definition CanManageRole (actor targetRole : Role) : bool :=
  if actor =s? RoleOwner then true
  else if actor =s? RoleAdmin then negb (targetRole =s? RoleOwner)
  else false.

Definition RequirePermission (role : Role) (perm : Permission) : option error :=
  if negb (HasPermission role perm)
  then Some (Platform (PermissionDenied "insufficient permissions"))
  else None.

(** ** Facts: the table is small enough to be checked row by row *)

Definition row_ok (row : Role * gset Permission) : bool :=
  bool_decide (row.1 ∈ AllRoles) && forallb (λ p, bool_decide (p ∈ allPermissions)) (elements row.2).

Lemma table_rows : forallb row_ok (map_to_list rolePermissions) = true.
Proof. vm_compute. reflexivity. Qed.

Lemma table_lookup role perms :
  rolePermissions !! role = Some perms → role ∈ AllRoles ∧ ∀ p, p ∈ perms → p ∈ allPermissions.
Proof.
  intros E%elem_of_map_to_list%list_elem_of_In. pose proof table_rows as H.
  rewrite forallb_forall in H. specialize (H _ E). unfold row_ok in H; simpl in H.
  apply andb_true_iff in H as [H1 H2]. split; [by apply bool_decide_eq_true in H1|].
  intros p Hp%elem_of_elements%list_elem_of_In. rewrite forallb_forall in H2.
  by specialize (H2 p Hp) as ?%bool_decide_eq_true.
Qed.

Lemma granted_in_table role perm :
  HasPermission role perm = true → role ∈ AllRoles ∧ perm ∈ allPermissions.
Proof.
  unfold HasPermission. case_match eqn:E; [|done]. intros Hp%bool_decide_eq_true.
  destruct (table_lookup _ _ E) as [? H]. auto.
Qed.

Lemma ParseRole_spec s : ParseRole s = Ok s ↔ s ∈ AllRoles.
Proof.
  unfold ParseRole. split.
  - case_match eqn:E; [|done]. intros _. by destruct (table_lookup _ _ E).
  - intros H. assert (forallb (λ r, bool_decide (is_Some (rolePermissions !! r))) AllRoles = true) as Ha
      by (vm_compute; reflexivity).
    rewrite forallb_forall in Ha. specialize (Ha s (proj1 (list_elem_of_In _ _) H)).
    apply bool_decide_eq_true in Ha as [perms ->]. done.
Qed.

(** Decidable inclusion of the permissions of roles. *)
Definition includes (r1 r2 : Role) : bool :=
  forallb (λ p, negb (HasPermission r2 p) || HasPermission r1 p) allPermissions.

Lemma includes_spec r1 r2 :
  includes r1 r2 = true → ∀ p, HasPermission r2 p = true → HasPermission r1 p = true.
Proof.
  unfold includes. intros H p Hp. pose proof (granted_in_table r2 p Hp) as [_ Hin].
  rewrite forallb_forall in H. specialize (H p (proj1 (list_elem_of_In _ _) Hin)).
  by rewrite Hp in H.
Qed.

(** ** Properties *)

(** Only the six roles of the table hold permissions and only they parse; owner
    holds all permissions and each of the roles owner, admin, developer,
    operator, viewer has every permission of the next; whoever may assign some
    role also holds the permission to manage members, and nobody but an owner
    may assign the role owner; a request is let through exactly when its role
    holds the permission, and refused with a permission error otherwise. *)
Theorem role_table :
  (∀ s, ParseRole s = Ok s ↔ s ∈ AllRoles)
  ∧ (∀ role perm, HasPermission role perm = true → role ∈ AllRoles ∧ perm ∈ allPermissions)
  ∧ (∀ perm, HasPermission RoleOwner perm = true ↔ perm ∈ allPermissions)
  ∧ (∀ perm, (HasPermission RoleAdmin perm = true → HasPermission RoleOwner perm = true)
       ∧ (HasPermission RoleDeveloper perm = true → HasPermission RoleAdmin perm = true)
       ∧ (HasPermission RoleOperator perm = true → HasPermission RoleDeveloper perm = true)
       ∧ (HasPermission RoleViewer perm = true → HasPermission RoleOperator perm = true))
  ∧ (∀ actor target, CanManageRole actor target = true →
       HasPermission actor PermMemberManage = true ∧ (target = RoleOwner → actor = RoleOwner))
  ∧ (∀ role perm, match RequirePermission role perm with
       | None => HasPermission role perm = true
       | Some e => HasPermission role perm = false ∧ CodeOf (Some e) = CodePermission
       end).
Proof.
  split; [apply ParseRole_spec|]. split; [apply granted_in_table|]. split.
  { intros perm. split; [apply granted_in_table|].
    intros H. assert (forallb (HasPermission RoleOwner) allPermissions = true) as Ho by (vm_compute; reflexivity).
    rewrite forallb_forall in Ho. apply Ho. by apply list_elem_of_In. }
  split.
  { intros perm. repeat split; apply includes_spec; vm_compute; reflexivity. }
  split.
  - intros actor target. unfold CanManageRole.
    destruct (String.eqb_spec actor RoleOwner) as [->|]; [by intros _|].
    destruct (String.eqb_spec actor RoleAdmin) as [->|]; [|done].
    destruct (String.eqb_spec target RoleOwner); [done|]. by intros _.
  - intros role perm. unfold RequirePermission. by destruct (HasPermission role perm).
Qed.

(** An admin may hand out the billing role, whose permissions admins lack. *)
Example admin_grants_billing :
  CanManageRole RoleAdmin RoleBilling = true
  ∧ HasPermission RoleBilling PermBillingManage = true
  ∧ HasPermission RoleAdmin PermBillingManage = false.
Proof. vm_compute. done. Qed.
