(* ===== verification/Process.v ===== *)
(** * The process: retries, worker pool, migrations, start-up and shutdown, event
    bus, circuit breaker (packages/platform/retry, pool, events, lifecycle, resilience,
    database/postgres/migrate.go)

    [Do] acts on a world [W] that carries the clock, the state of the context
    and whatever the function touches.  The class [Context] says what the code
    needs of a [context.Context] and of timers: when the wait of [sleep] ends
    because the context is done, the context reports an error.  The pool is a state
    machine: its steps are what submitters, workers and [Close] do between two points
    where the scheduler can stop them. *)

From Stdlib Require Import SpecFloat.
From S2P Require Import Prelude GoLib Errors Postgres Jobs.

(** ** Retries with backoff (retry/retry.go) *)

Class Context (W : Type) := {
  CtxErr : W → option error;
  (** Wait for a timer or for the context: did the timer fire? *)
  Wait : Duration → W → bool * W;
  (** [rand.Float64] *)
  RandFloat64 : W → f64 * W;
  Wait_done : ∀ d w, (Wait d w).1 = false → is_Some (CtxErr (Wait d w).2);
}.

(** ** [math.Pow] at an integer exponent, for a base above 1

    The algorithm of the standard library: square-and-multiply on the
    fraction, with the binary exponent kept apart. *)

Fixpoint pow_loop (fuel : nat) (i : Z) (a1 : f64) (ae : Z) (x1 : f64) (xe : Z) : f64 * Z :=
  match fuel with
  | O => (a1, ae)
  | S fuel =>
      if i =? 0 then (a1, ae)
      else if (xe <? - 2 ^ 12) || (2 ^ 12 <? xe) then (a1, ae + xe)
      else
        let '(a1, ae) := if Z.odd i then ((a1 * x1)%f64, ae + xe) else (a1, ae) in
        let x1 := (x1 * x1)%f64 in
        let xe := 2 * xe in
        let '(x1, xe) := if (x1 <? S754_finite false 4503599627370496 (-53))%f64
                         then ((x1 + x1)%f64, xe - 1) else (x1, xe) in
        pow_loop fuel (Z.div2 i) a1 ae x1 xe
  end.

Definition Pow (x : f64) (y : Z) : f64 :=
  if y =? 0 then f1
  else if y =? 1 then x
  else match x with
  | S754_nan => S754_nan
  | S754_infinity _ => x
  | _ =>
      let '(x1, xe) := SFfrexp 53 1024 x in
      let '(a1, ae) := pow_loop 64 y f1 0 x1 xe in
      SFldexp 53 1024 a1 ae
  end.

Section retry.
Context {W : Type} `{Ctx : !Context W}.

(** ** Backoff *)

(** The interface: the wait before another attempt, given the number of the
    attempt that failed. *)
Definition Backoff : Type := Z → W → Duration * W.

Record Exponential := { Base : Duration; Max : Duration; Factor : f64; Jitter : bool }.

Definition Exponential_Delay (e : Exponential) : Backoff := λ attempt w,
  let attempt := if attempt <? 1 then 1 else attempt in
  let factor := if (Factor e <=? f1)%f64 then f64_of_Z 2 else Factor e in
  let base := if Base e <=? 0 then 50 * Millisecond else Base e in
  let d := (f64_of_Z base * Pow factor (attempt - 1))%f64 in
  let d := if (0 <? Max e) && (d >? f64_of_Z (Max e))%f64 then f64_of_Z (Max e) else d in
  let '(d, w) := if Jitter e then let '(r, w) := RandFloat64 w in ((r * d)%f64, w) else (d, w) in
  (int64_of_f64 d, w).

Definition Constant_Delay (Interval : Duration) : Backoff := λ _ w, (Interval, w).

(** ** [Do] *)

Record Options := {
  MaxAttempts : Z;
  backoff : option Backoff;
  retryable : option (error → bool);
}.

Definition canceled (err : option error) : option error :=
  Platform <$> Wrap err CodeCanceled "retry: context canceled".

Definition sleep (d : Duration) (w : W) : option error * W :=
  if d <=? 0 then (None, w)
  else let '(fired, w) := Wait d w in
       if fired then (None, w) else (canceled (CtxErr w), w).

(** The loop, with [n] attempts left, the next having number [attempt]. *)
Fixpoint Do_loop (n : nat) (attempts : Z) (delay : Backoff) (again : error → bool)
    (fn : W → option error * W) (attempt : Z) (last : option error) (w : W) : option error * W :=
  match n with
  | O => (last, w)
  | S n =>
      match CtxErr w with
      | Some e => (canceled (Some e), w)
      | None =>
          match fn w with
          | (None, w) => (None, w)
          | (Some last, w) =>
              if (attempt =? attempts) || negb (again last) then (Some last, w)
              else
                let '(d, w) := delay attempt w in
                match sleep d w with
                | (Some e, w) => (Some e, w)
                | (None, w) => Do_loop n attempts delay again fn (attempt + 1) (Some last) w
                end
          end
      end
  end.

Definition attempts_of (opts : Options) : Z :=
  if MaxAttempts opts <? 1 then 3 else MaxAttempts opts.

Definition default_backoff : Backoff :=
  Exponential_Delay {| Base := 50 * Millisecond; Max := 5 * Second;
                       Factor := f64_of_Z 2; Jitter := true |}.

Definition predicate (opts : Options) : error → bool :=
  default (λ e, IsRetryable (Some e)) (retryable opts).

Definition Do (opts : Options) (fn : W → option error * W) (w : W) : option error * W :=
  Do_loop (Z.to_nat (attempts_of opts)) (attempts_of opts)
    (default default_backoff (backoff opts)) (predicate opts) fn 1 None w.

End retry.
#[global] Arguments Backoff W : clear implicits.
#[global] Arguments Options W : clear implicits.

(** ** A log of the calls

    The world extended with the results [fn] has given, latest first; the
    context and the backoff do not see the log. *)

Abbreviation logging W := (W * list (option error))%type.

#[export] Instance logging_context {W} `{Context W} : Context (logging W).
Proof.
  refine {| CtxErr := λ w, CtxErr w.1;
            Wait := λ d w, let '(b, w1) := Wait d w.1 in (b, (w1, w.2));
            RandFloat64 := λ w, let '(r, w1) := RandFloat64 w.1 in (r, (w1, w.2)) |}.
  intros d [w l]; simpl. pose proof (Wait_done d w). by destruct (Wait d w).
Defined.

Definition logged {W} (fn : W → option error * W) : logging W → option error * logging W :=
  λ w, let '(r, w1) := fn w.1 in (r, (w1, r :: w.2)).

(** The backoff waits on the world and leaves the log. *)
Definition keeps_log {W} (b : Backoff (logging W)) : Prop := ∀ n w, (b n w).2.2 = w.2.

Section facts.
Context {W : Type} `{Ctx : !Context W}.

(** Failures after which the loop goes on. *)
Definition all_retried (again : error → bool) (log : list (option error)) : Prop :=
  Forall (λ r, ∃ e, r = Some e ∧ again e = true) log.

(** How the loop may end: [log] are the results of the calls, latest first. *)
Definition ended (attempts : Z) (again : error → bool) (r : option error)
    (log : list (option error)) : Prop :=
  Z.of_nat (length log) ≤ attempts ∧
  ((∃ before, log = None :: before ∧ all_retried again before ∧ r = None)
   ∨ (∃ e before, log = Some e :: before ∧ all_retried again before ∧ r = Some e
        ∧ (Z.of_nat (length log) = attempts ∨ again e = false))
   ∨ (all_retried again log ∧ Z.of_nat (length log) < attempts
        ∧ (∃ (v : W) e, CtxErr v = Some e ∧ r = canceled (Some e)))).

Lemma sleep_keeps_log d (w : logging W) :
  let '(r, w') := sleep d w in
  w'.2 = w.2 ∧ ∀ e, r = Some e → ∃ (v : W) e0, CtxErr v = Some e0 ∧ r = canceled (Some e0).
Proof.
  unfold sleep. destruct (d <=? 0); [done|]. destruct w as [w l]; simpl.
  pose proof (Wait_done d w) as Hd. destruct (Wait d w) as [[] w1]; [done|]. simpl in *.
  split; [done|]. intros e He. destruct (Hd eq_refl) as [e0 E0]. exists w1, e0. by rewrite E0.
Qed.

Lemma Do_loop_ended attempts (delay : Backoff (logging W)) again fn n :
  keeps_log delay →
  ∀ attempt last (w : logging W),
  Z.of_nat n = attempts - attempt + 1 → Z.of_nat (length w.2) = attempt - 1 → attempt ≤ attempts →
  all_retried again w.2 →
  let '(r, w') := Do_loop n attempts delay again (logged fn) attempt last w in
  ended attempts again r w'.2.
Proof.
  intros Hb. induction n as [|n IH]; intros attempt last [w l] Hn Hl Ha Hr; [lia|].
  simpl in *. destruct (CtxErr w) as [e|] eqn:Ec.
  { split; [simpl; lia|]. right; right. split; [done|]. split; [simpl; lia|]. by exists w, e. }
  unfold logged at 1; simpl. destruct (fn w) as [[last'|] w1]; simpl.
  2:{ split; [simpl; lia|]. left. by exists l. }
  destruct ((attempt =? attempts) || negb (again last')) eqn:Et.
  { split; [simpl; lia|]. right; left. exists last', l. do 3 (split; [done|]).
    bool_to_prop. destruct Et; bool_to_prop; [left; simpl; lia|by right]. }
  bool_to_prop.
  pose proof (Hb attempt (w1, Some last' :: l)) as Hk.
  destruct (delay attempt (w1, Some last' :: l)) as [d w2]. simpl in Hk.
  pose proof (sleep_keeps_log d w2) as Hs. destruct (sleep d w2) as [[e|] w3].
  - destruct Hs as [Hs1 Hs2]. rewrite Hs1, Hk. split; [simpl; lia|]. right; right.
    split; [constructor; [by exists last'|done]|]. split; [simpl; lia|]. by apply (Hs2 e).
  - destruct Hs as [Hs1 _]. apply IH; rewrite ?Hs1, ?Hk; simpl; try lia.
    constructor; [by exists last'|done].
Qed.

Lemma Exponential_keeps_log e : keeps_log (Exponential_Delay (W := logging W) e).
Proof.
  intros n [w l]. unfold Exponential_Delay. cbv zeta. destruct (Jitter e); [|done].
  change (RandFloat64 (w, l)) with (let '(r, w1) := RandFloat64 w in (r, (w1, l))).
  by destruct (RandFloat64 w).
Qed.
End facts.

(** Do calls its function at most MaxAttempts times (3 when the option is
    below 1) and goes on only after failures the predicate accepts.  It returns
    nil exactly when the last call succeeded; an error is that of the last
    call, which then was the last one allowed or not retryable, or reports the
    cancellation of the context. *)
Theorem Do_spec {W} `{Context W} (opts : Options (logging W)) fn (w : W) :
  (∀ b, backoff opts = Some b → keeps_log b) →
  let '(r, w') := Do opts (logged fn) (w, []) in
  ended (W := W) (attempts_of opts) (predicate opts) r w'.2.
Proof.
  intros Hb. unfold Do. apply Do_loop_ended.
  - destruct (backoff opts) as [b|]; [by apply Hb|apply Exponential_keeps_log].
  - unfold attempts_of. destruct (Z.ltb_spec (MaxAttempts opts) 1); lia.
  - done.
  - unfold attempts_of. destruct (Z.ltb_spec (MaxAttempts opts) 1); lia.
  - constructor.
Qed.

(** ** A clock with a deadline *)

Record clock := { time : Time; deadline : Time }.

#[export] Instance clock_context : Context clock.
Proof.
  refine {| CtxErr := λ c, if deadline c <=? time c then Some DeadlineExceeded else None;
            Wait := λ d c, if time c + d <? deadline c
                           then (true, {| time := time c + d; deadline := deadline c |})
                           else (false, {| time := deadline c; deadline := deadline c |});
            RandFloat64 := λ c, (f64_of_Z 0, c) |}.
  intros d c. destruct (_ <? _); [done|]. intros _. simpl. rewrite Z.leb_refl. by eexists.
Defined.

(** A dependency that answers [Unavailable] before time [t]. *)
Definition down_until (t : Time) (c : clock) : option error * clock :=
  (if time c <? t then Some (Platform (Unavailable "down")) else None, c).

Definition every (d : Duration) (n : Z) : Options (logging clock) :=
  {| MaxAttempts := n; backoff := Some (Constant_Delay d); retryable := None |}.

Lemma Do_spec_witness :
  Do (every 10 5) (logged (down_until 25)) ({| time := 0; deadline := 1000 |}, [])
  = (None, ({| time := 30; deadline := 1000 |},
      [None; Some (Platform (Unavailable "down")); Some (Platform (Unavailable "down"));
       Some (Platform (Unavailable "down"))]))
  ∧ ended (W := clock) 5 (predicate (every 10 5)) None
      [None; Some (Platform (Unavailable "down")); Some (Platform (Unavailable "down"));
       Some (Platform (Unavailable "down"))].
Proof.
  split; [reflexivity|].
  pose proof (Do_spec (every 10 5) (down_until 25) {| time := 0; deadline := 1000 |}) as H.
  vm_compute in H. vm_compute. apply H. intros b [= <-]. intros n v. reflexivity.
Defined.

(** The waits of the default backoff without jitter. *)
Example default_schedule :
  (λ n, (Exponential_Delay {| Base := 50 * Millisecond; Max := 5 * Second;
                            Factor := f64_of_Z 2; Jitter := false |} n
         {| time := 0; deadline := 1 |}).1) <$> [1; 2; 3; 7; 8; 100]
  = [50000000; 100000000; 200000000; 3200000000; 5000000000; 5000000000].
Proof. reflexivity. Qed.

(** On every way to go on, [P] holds at some point; and there is a way to go on
    until then. *)
Inductive inevitably {S} (R : S → S → Prop) (P : S → Prop) (s : S) : Prop :=
| inevitably_now : P s → inevitably R P s
| inevitably_later : (∃ s', R s s') → (∀ s', R s s' → inevitably R P s') → inevitably R P s.

(** ** The worker pool (pool/pool.go) *)

Module Pool.
Inductive worker := Idle | Running (t : nat) | Exited.

#[export] Instance worker_eq_dec : EqDecision worker.
Proof. solve_decision. Defined.

(** A [Submit] past its read lock is in [submitting], with the worker whose task
    called it, if any; a worker in [at_lock] waits for the read lock inside its
    task.  [wanting] counts the calls of [Close] that wait for the write lock,
    during which no read lock is given.  [closed] is the flag and the closed
    channel, [stopped] the end of the context, [returned] that the [Close] that
    closed the channel came back (it cancels the context then). *)
Record pool := mkPool {
  pool_cap : nat;
  workers : list worker;
  queue : list nat;
  submitting : list (nat * option nat);
  at_lock : list nat;
  accepted : list nat;
  finished : list nat;
  wanting : nat;
  closed : bool;
  stopped : bool;
  returned : bool;
  panicked : bool;
}.

(** [Options]; a queue size below zero would panic. *)
Definition New (n size : Z) : pool :=
  mkPool (Z.to_nat size) (replicate (Z.to_nat (if n <? 1 then 1 else n)) Idle) [] [] [] [] [] 0
    false false false false.

Definition running (l : list worker) : list nat :=
  omap (λ w, match w with Running t => Some t | _ => None end) l.

(** The tasks the pool has seen and not refused. *)
Definition tasks (p : pool) : list nat :=
  (submitting p).*1 ++ queue p ++ running (workers p) ++ finished p.

Definition cancelled (p : pool) : bool := stopped p || returned p.

Definition set_workers (ws : list worker) (p : pool) : pool :=
  mkPool (pool_cap p) ws (queue p) (submitting p) (at_lock p) (accepted p) (finished p) (wanting p) (closed p) (stopped p)
    (returned p) (panicked p).
Definition set_queue (q : list nat) (p : pool) : pool :=
  mkPool (pool_cap p) (workers p) q (submitting p) (at_lock p) (accepted p) (finished p) (wanting p) (closed p) (stopped p)
    (returned p) (panicked p).
Definition set_submitting (l : list (nat * option nat)) (p : pool) : pool :=
  mkPool (pool_cap p) (workers p) (queue p) l (at_lock p) (accepted p) (finished p) (wanting p) (closed p) (stopped p)
    (returned p) (panicked p).
Definition set_at_lock (l : list nat) (p : pool) : pool :=
  mkPool (pool_cap p) (workers p) (queue p) (submitting p) l (accepted p) (finished p) (wanting p) (closed p) (stopped p)
    (returned p) (panicked p).
Definition accept (t : nat) (p : pool) : pool :=
  mkPool (pool_cap p) (workers p) (queue p) (submitting p) (at_lock p) (accepted p ++ [t]) (finished p) (wanting p)
    (closed p) (stopped p) (returned p) (panicked p).
Definition finish (t : nat) (p : pool) : pool :=
  mkPool (pool_cap p) (workers p) (queue p) (submitting p) (at_lock p) (accepted p) (finished p ++ [t]) (wanting p)
    (closed p) (stopped p) (returned p) (panicked p).
Definition set_closing (n : nat) (c r : bool) (p : pool) : pool :=
  mkPool (pool_cap p) (workers p) (queue p) (submitting p) (at_lock p) (accepted p) (finished p) n c (stopped p) r
    (panicked p).
Definition stop (p : pool) : pool :=
  mkPool (pool_cap p) (workers p) (queue p) (submitting p) (at_lock p) (accepted p) (finished p) (wanting p) (closed p) true
    (returned p) (panicked p).
Definition panic (p : pool) : pool :=
  mkPool (pool_cap p) (workers p) (queue p) (submitting p) (at_lock p) (accepted p) (finished p) (wanting p) (closed p)
    (stopped p) (returned p) true.

(** Worker [i] is inside a call of [Submit] that its task made. *)
Definition publishing (i : nat) (p : pool) : Prop := i ∈ at_lock p ∨ Some i ∈ (submitting p).*2.

Section pool.
(** The tasks that submit tasks themselves, as a handler does that publishes. *)
Context (submits : nat → Prop).

(** What the goroutines of the pool and those inside its functions do. *)
Inductive pool_step : pool → pool → Prop :=
(* Submit *)
| step_nested i t p :
    workers p !! i = Some (Running t) → submits t → ¬ publishing i p →
    pool_step p (set_at_lock (at_lock p ++ [i]) p)
| step_nested_submit i t l1 l2 p :
    at_lock p = l1 ++ i :: l2 → wanting p = 0%nat → closed p = false → t ∉ tasks p →
    pool_step p (set_at_lock (l1 ++ l2) (set_submitting (submitting p ++ [(t, Some i)]) p))
| step_nested_refused i l1 l2 p :
    at_lock p = l1 ++ i :: l2 → wanting p = 0%nat → closed p = true →
    pool_step p (set_at_lock (l1 ++ l2) p)
| step_send t from l1 l2 p :
    submitting p = l1 ++ (t, from) :: l2 → closed p = false → (length (queue p) < pool_cap p)%nat →
    pool_step p (accept t (set_queue (queue p ++ [t]) (set_submitting (l1 ++ l2) p)))
| step_hand_over j t from l1 l2 p :
    submitting p = l1 ++ (t, from) :: l2 → closed p = false → queue p = [] → workers p !! j = Some Idle →
    pool_step p (accept t (set_workers (<[j := Running t]> (workers p)) (set_submitting (l1 ++ l2) p)))
| step_send_closed t from l1 l2 p :
    submitting p = l1 ++ (t, from) :: l2 → closed p = true →
    pool_step p (panic (set_submitting (l1 ++ l2) p))
| step_send_cancelled t from l1 l2 p :
    submitting p = l1 ++ (t, from) :: l2 → cancelled p = true →
    pool_step p (set_submitting (l1 ++ l2) p)
(* worker *)
| step_take j t q p :
    workers p !! j = Some Idle → queue p = t :: q →
    pool_step p (set_workers (<[j := Running t]> (workers p)) (set_queue q p))
| step_finish j t p :
    workers p !! j = Some (Running t) → ¬ publishing j p →
    pool_step p (finish t (set_workers (<[j := Idle]> (workers p)) p))
| step_exit_cancelled j p :
    workers p !! j = Some Idle → cancelled p = true → pool_step p (set_workers (<[j := Exited]> (workers p)) p)
| step_exit_closed j p :
    workers p !! j = Some Idle → closed p = true → queue p = [] →
    pool_step p (set_workers (<[j := Exited]> (workers p)) p)
(* Close: the lock, the flag and the channel, then the wait for the workers *)
| step_closed n p :
    wanting p = S n → submitting p = [] → pool_step p (set_closing n true (returned p) p)
| step_returned p :
    closed p = true → returned p = false → Forall (eq Exited) (workers p) →
    pool_step p (set_closing (wanting p) true true p).

(** What comes from outside: a call of [Submit] or [Close]; the end of the context,
    or [Stop]. *)
Inductive pool_call : pool → pool → Prop :=
| call_submit t p :
    wanting p = 0%nat → closed p = false → t ∉ tasks p →
    pool_call p (set_submitting (submitting p ++ [(t, None)]) p)
| call_close p : pool_call p (set_closing (S (wanting p)) (closed p) (returned p) p)
| call_stop p : pool_call p (stop p).

Definition pool_run (p p' : pool) : Prop := pool_step p p' ∨ pool_call p p'.
End pool.

(** *** What the pool keeps *)

Section pool_facts.
Context (submits : nat → Prop).
#[local] Abbreviation step := (pool_step submits).
#[local] Abbreviation run := (pool_run submits).

Lemma split_insert {A} (l : list A) j x y :
  l !! j = Some x → ∃ l1 l2, l = l1 ++ x :: l2 ∧ <[j := y]> l = l1 ++ y :: l2.
Proof.
  intros H. exists (take j l), (drop (S j) l). split; [by rewrite take_drop_middle|].
  apply insert_take_drop. by eapply lookup_lt_Some.
Qed.

Lemma running_insert (l : list worker) j w w' :
  l !! j = Some w → ∃ l1 l2, running l ≡ₚ running [w] ++ l1 ++ l2 ∧ running (<[j := w']> l) ≡ₚ running [w'] ++ l1 ++ l2.
Proof.
  intros (l1 & l2 & -> & ->)%(split_insert _ _ _ w'). exists (running l1), (running l2).
  unfold running. rewrite !omap_app. split.
  - change (w :: l2) with ([w] ++ l2). rewrite omap_app. solve_Permutation.
  - change (w' :: l2) with ([w'] ++ l2). rewrite omap_app. solve_Permutation.
Qed.

Record pool_ok p : Prop := {
  po_tasks : NoDup (tasks p);
  po_cap : (length (queue p) ≤ pool_cap p)%nat;
  po_closed : closed p = true → submitting p = [];
  po_accepted : accepted p ≡ₚ queue p ++ running (workers p) ++ finished p;
  po_panicked : panicked p = false;
  po_workers : workers p ≠ [];
  po_exited : Exited ∈ workers p → stopped p = true ∨ (closed p = true ∧ queue p = []);
  po_returned : returned p = true → closed p = true ∧ Forall (eq Exited) (workers p);
}.

Lemma Exited_insert (l : list worker) j w w' : l !! j = Some w → w' ≠ Exited → Exited ∈ <[j := w']> l → Exited ∈ l.
Proof.
  intros Hj Hw (k & Hk)%list_elem_of_lookup. apply list_lookup_insert_Some in Hk as [(_ & E & _)|[_ Hk]]; [congruence|].
  by eapply list_elem_of_lookup_2.
Qed.

Lemma insert_nonempty (l : list worker) j w : l ≠ [] → <[j := w]> l ≠ [].
Proof. by destruct l, j. Qed.

Lemma all_exited (l : list worker) j w : Forall (eq Exited) l → l !! j = Some w → w = Exited.
Proof. intros Hl Hj. by rewrite Forall_lookup in Hl; rewrite (Hl _ _ Hj). Qed.

(** The tasks a submission carries with it. *)
Lemma tasks_split p t from l1 l2 :
  submitting p = l1 ++ (t, from) :: l2 → tasks p ≡ₚ t :: ((l1 ++ l2).*1 ++ queue p ++ running (workers p) ++ finished p).
Proof. intros E. unfold tasks. rewrite E, !fmap_app, fmap_cons. simpl. solve_Permutation. Qed.

Lemma pool_ok_call p p' : pool_ok p → pool_call p p' → pool_ok p'.
Proof.
  intros [] Hc. destruct Hc; split; simpl; try done.
  - rewrite (tasks_split _ t None (submitting p) []) by done. rewrite app_nil_r. by constructor.
  - congruence.
  - by left.
Qed.

Lemma pool_ok_step p p' : pool_ok p → step p p' → pool_ok p'.
Proof.
  intros [Ht Hcap Hcl Hacc Hp Hw Hex Hret] Hs.
  destruct Hs as [i t p Hi _ _|i t l1 l2 p E Hwa Hc Hf|i l1 l2 p E Hwa Hc|t from l1 l2 p E Hc Hlen|j t from l1 l2 p E Hc Hq Hj
    |t from l1 l2 p E Hc|t from l1 l2 p E Hc|j t q p Hj Hq|j t p Hj Hn|j p Hj Hc|j p Hj Hc Hq|n p E Es|p Hc Hr Hall].
  all: try (destruct (running_insert _ _ _ (Running t) Hj) as (r1 & r2 & R1 & R2)).
  all: try (destruct (running_insert _ _ _ Idle Hj) as (s1 & s2 & S1 & S2)).
  all: try (destruct (running_insert _ _ _ Exited Hj) as (u1 & u2 & U1 & U2)).
  all: try (assert (submitting p = []) as Es by auto; rewrite Es in E; by destruct l1).
  all: try (assert (returned p = true → False) as Hnr
    by (intros H; destruct (Hret H) as [_ Ha]; by discriminate (all_exited _ _ _ Ha Hj))).
  all: split; simpl in *; try done; try (by apply insert_nonempty); try congruence; try tauto.
  all: try (intros H; apply (Exited_insert _ _ _ _ Hj) in H; [|done]; destruct (Hex H) as [?|[? ?]]; [by left|right; split; congruence]).
  - rewrite (tasks_split _ t (Some i) (submitting p) []) by done. rewrite app_nil_r. by constructor.
  - rewrite (tasks_split _ _ _ _ _ E) in Ht. unfold tasks. simpl. revert Ht. apply NoDup_Permutation_proper. solve_Permutation.
  - rewrite length_app. simpl. lia.
  - rewrite Hacc. solve_Permutation.
  - intros H. destruct (Hex H) as [?|[? ?]]; [by left|congruence].
  - rewrite (tasks_split _ _ _ _ _ E) in Ht. unfold tasks. simpl. rewrite R2. rewrite R1 in Ht. revert Ht.
    apply NoDup_Permutation_proper. simpl. solve_Permutation.
  - rewrite Hacc, R1, R2. simpl. solve_Permutation.
  - rewrite (tasks_split _ _ _ _ _ E) in Ht. by apply NoDup_cons in Ht as [_ Ht].
  - intros H. rewrite (Hcl H) in E. by destruct l1.
  - revert Ht. unfold tasks. simpl. rewrite R1, R2, Hq. apply NoDup_Permutation_proper. simpl. solve_Permutation.
  - rewrite Hq in Hcap. simpl in Hcap. lia.
  - rewrite Hacc, R1, R2, Hq. simpl. solve_Permutation.
  - revert Ht. unfold tasks. simpl. rewrite S1, S2. apply NoDup_Permutation_proper. simpl. solve_Permutation.
  - rewrite Hacc, S1, S2. simpl. solve_Permutation.
  - revert Ht. unfold tasks. simpl. by rewrite U1, U2.
  - by rewrite Hacc, U1, U2.
  - intros _. unfold cancelled in Hc. destruct (stopped p); [by left|]. by destruct (Hnr Hc).
  - revert Ht. unfold tasks. simpl. by rewrite U1, U2.
  - by rewrite Hacc, U1, U2.
Qed.

Lemma pool_ok_new n size : pool_ok (New n size).
Proof.
  assert (running (replicate (Z.to_nat (if n <? 1 then 1 else n)) Idle) = []) as E by by (induction (Z.to_nat _)).
  split; simpl; try done.
  - unfold tasks. simpl. rewrite E. constructor.
  - lia.
  - by rewrite E.
  - destruct (Z.ltb_spec n 1); [done|]. by destruct (Z.to_nat n) eqn:?; [lia|].
  - intros (i & H)%list_elem_of_lookup. by apply lookup_replicate in H as [? _].
Qed.

Lemma pool_ok_run n size p : rtc run (New n size) p → pool_ok p.
Proof.
  pose proof (pool_ok_new n size) as H. intros Hr. revert H.
  induction Hr as [|p1 p2 p3 [?|?] _ IH]; eauto using pool_ok_step, pool_ok_call.
Qed.

Lemma length_workers p p' : run p p' → length (workers p') = length (workers p) ∧ pool_cap p' = pool_cap p.
Proof. intros [[]|[]]; simpl; by rewrite ?length_insert. Qed.

Lemma length_running (l : list worker) : (length (running l) ≤ length l)%nat.
Proof. induction l as [|[] l IH]; simpl in *; unfold running in *; simpl; lia. Qed.

Lemma accepted_done p :
  pool_ok p → returned p = true → stopped p = false → accepted p ≡ₚ finished p.
Proof.
  intros [Ht Hcap Hcl Hacc Hp Hw Hex Hret] H1 H2. destruct (Hret H1) as [Hc Hall]. rewrite Hacc.
  destruct Hex as [H3|[_ ->]]; [|congruence|].
  - destruct (workers p) as [|w ws]; [done|]. apply Forall_cons in Hall as [<- _]. by left.
  - simpl. assert (running (workers p) = []) as ->; [|done]. clear -Hall. by induction Hall as [|? ? <- _ IH].
Qed.

(** C24: the worker pool runs what it accepts, once, and nothing it refused, in
    every interleaving of submitters, workers and [Close].  At most [Workers]
    tasks run at a time and at most [QueueSize] wait; no task is queued, running or
    done twice; what was accepted is queued, running or done; nothing is ever
    sent on the closed channel; and when [Close] has returned and the context has
    not ended, everything accepted is done. *)
Theorem pool_safe (n size : Z) p :
  1 ≤ n → 0 ≤ size → rtc run (New n size) p →
  Z.of_nat (length (running (workers p))) ≤ n ∧ Z.of_nat (length (queue p)) ≤ size
  ∧ NoDup (queue p ++ running (workers p) ++ finished p)
  ∧ accepted p ≡ₚ queue p ++ running (workers p) ++ finished p
  ∧ panicked p = false
  ∧ (returned p = true → stopped p = false → accepted p ≡ₚ finished p).
Proof.
  intros Hn Hsize Hr. pose proof (pool_ok_run _ _ _ Hr) as Hok.
  pose proof Hok as [Ht Hcap Hcl Hacc Hp Hw Hex Hret]. assert (length (workers p) = Z.to_nat n ∧ pool_cap p = Z.to_nat size) as [L1 L2].
  { clear -Hr Hn. assert (length (workers (New n size)) = Z.to_nat n) as H.
    { simpl. rewrite length_replicate. by destruct (Z.ltb_spec n 1); [lia|]. }
    assert (pool_cap (New n size) = Z.to_nat size) as H2 by done.
    revert H H2. induction Hr as [|p1 p2 p3 Hs _ IH]; [done|]. intros H1 H2. apply length_workers in Hs as [? ?].
    apply IH; congruence. }
  pose proof (length_running (workers p)). split_and!; [lia|lia| |done|done|].
  - unfold tasks in Ht. by apply NoDup_app in Ht as (_ & _ & Ht).
  - intros H1 H2. by apply accepted_done.
Qed.
End pool_facts.

(** *** Closing ends *)

Section closing.
Context (submits : nat → Prop) (no_submits : ∀ t, ¬ submits t).
#[local] Abbreviation step := (pool_step submits).
#[local] Abbreviation run := (pool_run submits).

(** No task is inside a call of [Submit]. *)
Definition unnested (p : pool) : Prop := at_lock p = [] ∧ Forall (eq None) (submitting p).*2.

Definition weight (w : worker) : nat := match w with Idle => 1 | Running _ => 2 | Exited => 0 end.

Definition remaining (p : pool) : nat :=
  3 * length (submitting p) + 2 * length (queue p) + sum_list (weight <$> workers p) + wanting p
  + (if returned p then 0 else 1).

Lemma weight_insert (l : list worker) j w w' :
  l !! j = Some w → (sum_list (weight <$> <[j := w']> l) + weight w = sum_list (weight <$> l) + weight w')%nat.
Proof.
  intros (l1 & l2 & -> & ->)%(split_insert _ _ _ w'). rewrite !fmap_app, !fmap_cons.
  rewrite !sum_list_with_app. simpl. unfold id. lia.
Qed.

Lemma unnested_run p p' : run p p' → unnested p → unnested p'.
Proof.
  intros [[]|[]] [U1 U2]; try (by destruct (no_submits t)); unfold unnested; simpl; try done.
  all: try (match goal with E : at_lock _ = _ |- _ => rewrite U1 in E; by destruct l1 end).
  all: try (match goal with E : submitting _ = _ |- _ => rewrite E, fmap_app, fmap_cons in U2 end;
            apply Forall_app in U2 as [? [_ ?]%Forall_cons]; split; [done|]; rewrite fmap_app; by apply Forall_app).
  split; [done|]. rewrite fmap_app. apply Forall_app. split; [done|]. by constructor.
Qed.

Lemma not_publishing j p : unnested p → ¬ publishing j p.
Proof.
  intros [H1 H2] [H|H]; [rewrite H1 in H; by apply elem_of_nil in H|].
  rewrite Forall_forall in H2. by discriminate (H2 _ H).
Qed.

Lemma step_remaining p p' : unnested p → step p p' → (remaining p' < remaining p)%nat.
Proof.
  intros [Hl _] Hs. unfold remaining.
  destruct Hs as [i t p Hi Hsub _|i t l1 l2 p E Hwa Hc Hf|i l1 l2 p E Hwa Hc|t from l1 l2 p E Hc Hlen|j t from l1 l2 p E Hc Hq Hj
    |t from l1 l2 p E Hc|t from l1 l2 p E Hc|j t q p Hj Hq|j t p Hj Hn|j p Hj Hc|j p Hj Hc Hq|n p E Es|p Hc Hr Hall]; simpl.
  all: try (by destruct (no_submits t)).
  all: try (rewrite Hl in E; by destruct l1).
  all: try (pose proof (weight_insert _ _ _ (Running t) Hj)); try (pose proof (weight_insert _ _ _ Idle Hj));
    try (pose proof (weight_insert _ _ _ Exited Hj)); simpl in *.
  all: try rewrite E; try rewrite Hq; try rewrite Hr; rewrite ?length_app; simpl; lia.
Qed.

Lemma step_requested p p' :
  step p p' → (0 < wanting p)%nat ∨ closed p = true → (0 < wanting p')%nat ∨ closed p' = true.
Proof. intros []; simpl; auto. Qed.

Lemma worker_cases (l : list worker) :
  Forall (eq Exited) l ∨ (∃ j t, l !! j = Some (Running t)) ∨ (∃ j, l !! j = Some Idle).
Proof.
  induction l as [|w l [IH|[(j & t & H)|(j & H)]]]; [by left| | |].
  - destruct w; [right; right; by exists 0%nat|right; left; by exists 0%nat, t|left; by constructor].
  - right; left. by exists (S j), t.
  - right; right. by exists (S j).
Qed.

Lemma closing_moves p :
  pool_ok p → unnested p → (0 < wanting p)%nat ∨ closed p = true →
  ¬ (wanting p = 0%nat ∧ returned p = true) → ∃ p', step p p'.
Proof.
  intros Hok Hu Hreq Hnd. pose proof Hok as [Ht Hcap Hcl Hacc Hp Hw Hex Hret].
  assert (submitting p = [] → (0 < wanting p)%nat → ∃ p', step p p') as Hclose.
  { intros E H. destruct (wanting p) as [|k] eqn:Ek; [lia|]. eexists. by apply (step_closed _ k). }
  destruct (worker_cases (workers p)) as [Hall|[(j & t & Hj)|(j & Hj)]].
  - destruct (submitting p) as [|[t from] l] eqn:Es.
    + destruct (wanting p) as [|k] eqn:Ek; [|apply Hclose; [done|lia]].
      destruct Hreq as [?|Hc]; [lia|]. destruct (returned p) eqn:Er; [by destruct Hnd|].
      eexists. by apply step_returned.
    + assert (stopped p = true) as Hst.
      { destruct Hex as [?|[Hc _]]; [|done|by discriminate (Hcl Hc)].
        destruct (workers p) as [|w ws]; [done|]. apply Forall_cons in Hall as [<- _]. by left. }
      eexists. apply (step_send_cancelled _ t from [] l); [done|]. unfold cancelled. by rewrite Hst.
  - eexists. apply (step_finish _ j t); [done|]. by apply not_publishing.
  - destruct (queue p) as [|t q] eqn:Eq; [|eexists; by apply (step_take _ j t q)].
    destruct (submitting p) as [|[t from] l] eqn:Es.
    + destruct Hreq as [?|Hc]; [by apply Hclose|]. eexists. by apply (step_exit_closed _ j).
    + destruct (closed p) eqn:Ec; [by discriminate (Hcl eq_refl)|]. eexists. by apply (step_hand_over _ j t from [] l).
Qed.

(** C25: closing the pool ends, when no task submits tasks.  From any reachable
    state in which [Close] was called, however the submitters that are under way,
    the workers and the calls of [Close] are scheduled, all calls of [Close] come back;
    and if the context has not ended by then, all that was accepted is done. *)
Theorem Close_returns (n size : Z) p :
  rtc run (New n size) p → (0 < wanting p)%nat ∨ closed p = true →
  inevitably step (λ p', wanting p' = 0%nat ∧ returned p' = true
                         ∧ (stopped p' = false → accepted p' ≡ₚ finished p')) p.
Proof.
  intros Hr Hreq. pose proof (pool_ok_run _ _ _ _ Hr) as Hok.
  assert (unnested p) as Hu.
  { assert (unnested (New n size)) as H by (split; [done|constructor]). revert H. clear -Hr no_submits.
    induction Hr as [|p1 p2 p3 Hs _ IH]; eauto using unnested_run. }
  clear Hr. induction (well_founded_ltof _ remaining p) as [p _ IH].
  destruct (decide (wanting p = 0%nat ∧ returned p = true)) as [[H1 H2]|H].
  - apply inevitably_now. split_and!; auto using accepted_done.
  - apply inevitably_later; [by apply closing_moves|]. intros p' Hs.
    apply IH; [by apply step_remaining|by eapply step_requested|by eapply pool_ok_step|].
    eapply unnested_run; [by left|done].
Qed.
End closing.

(** *** Runs of a pool with one worker and room for one task *)

Ltac fresh_task := cbv; set_solver.

Definition none (_ : nat) : Prop := False.

Definition drained : pool := mkPool 1 [Exited] [] [] [] [0%nat] [0%nat] 0 true false true false.

Definition closing : pool := mkPool 1 [Running 0] [] [] [] [0%nat] [] 1 false false false false.

Lemma closing_reached : rtc (pool_run none) (New 1 1) closing.
Proof.
  eapply rtc_l; [right; apply (call_submit 0); [done..|]; fresh_task|].
  eapply rtc_l; [left; by eapply (step_hand_over _ 0 0 None [] [])|].
  apply rtc_once. right. apply call_close.
Qed.

Lemma drained_reached : rtc (pool_run none) (New 1 1) drained.
Proof.
  etrans; [apply closing_reached|].
  eapply rtc_l; [left; apply (step_finish _ 0 0); [done|]|].
  { by intros [H|H]; apply elem_of_nil in H. }
  eapply rtc_l; [left; by apply (step_closed _ 0)|].
  eapply rtc_l; [left; by apply (step_exit_closed _ 0)|].
  apply rtc_once. left. apply step_returned; [done..|]. repeat constructor.
Qed.

Lemma pool_safe_witness : rtc (pool_run none) (New 1 1) drained ∧ accepted drained ≡ₚ finished drained.
Proof.
  split; [apply drained_reached|].
  by apply (pool_safe none 1 1 drained ltac:(lia) ltac:(lia) drained_reached).
Defined.

Lemma Close_returns_witness :
  rtc (pool_run none) (New 1 1) closing
  ∧ inevitably (pool_step none) (λ p', wanting p' = 0%nat ∧ returned p' = true
      ∧ (stopped p' = false → accepted p' ≡ₚ finished p')) closing.
Proof.
  split; [apply closing_reached|].
  apply (Close_returns none (λ _ f, f) 1 1 closing closing_reached). left. simpl. lia.
Defined.

(** A task that submits a task, a submitter waiting for room, and [Close]: the
    task waits for the lock that [Close] is about to take, [Close] for the submitter,
    the submitter for the worker that runs the task. *)
Definition all (_ : nat) : Prop := True.

Definition blocked (calls : nat) : pool := mkPool 1 [Running 0] [1%nat] [(2%nat, None)] [0%nat] [0%nat; 1%nat] [] (S calls)
  false false false false.

Lemma blocked_reached : rtc (pool_run all) (New 1 1) (blocked 0).
Proof.
  eapply rtc_l; [right; apply (call_submit 0); [done..|]; fresh_task|].
  eapply rtc_l; [left; by eapply (step_hand_over _ 0 0 None [] [])|].
  eapply rtc_l; [right; apply (call_submit 1); [done..|]; fresh_task|].
  eapply rtc_l; [left; eapply (step_send _ 1 None [] []); [done..|simpl; lia]|].
  eapply rtc_l; [right; apply (call_submit 2); [done..|]; fresh_task|].
  eapply rtc_l; [left; apply (step_nested _ 0 0); [done..|]|].
  { intros [H|H]; simpl in H; [by apply elem_of_nil in H|]. set_solver. }
  apply rtc_once. right. apply call_close.
Qed.

(** Unless the context ends, no call of [Close] ever comes back. *)
Example close_blocks p :
  rtc (λ p1 p2, pool_run all p1 p2 ∧ stopped p2 = false) (blocked 0) p → returned p = false ∧ finished p = [].
Proof.
  intros Hr. assert (∃ k, p = blocked k) as [k ->]; [|done].
  remember (blocked 0) as p0 eqn:E. assert (∃ k, p0 = blocked k) as H by (by exists 0%nat). clear E.
  induction Hr as [|p1 p2 p3 [Hs Hst] _ IH]; [done|]. apply IH. clear IH. destruct H as [k ->].
  destruct Hs as [Hs|Hs]; inversion Hs; subst; simpl in *; try done.
  - destruct i as [|[|i]]; [|done..]. match goal with H : ¬ publishing _ _ |- _ => destruct H end. left. by left.
  - lia.
  - by destruct j as [|[|j]].
  - destruct j as [|[|j]]; [|done..]. match goal with H : ¬ publishing _ _ |- _ => destruct H end. left. by left.
  - by exists (S k).
Qed.
End Pool.

(** ** Migrations (database/postgres/migrate.go) *)

Module Migrate.
Record Migration := { Version : string; SQL : string }.

(** What the scripts define, and the bookkeeping table; [None]: it does not exist. *)
Record database (S : Type) := mkDatabase {
  schema : S;
  schema_migrations : option (list string);
}.
#[global] Arguments mkDatabase {S}.
#[global] Arguments schema {S}.
#[global] Arguments schema_migrations {S}.

Definition undefined_table : error := PgError "42P01" "relation does not exist".
Definition duplicate_version : error := PgError sqlStateUniqueViolation "duplicate key".

Section migrate.
(** [run_sql] is what the server does with a script. *)
Context `{So : Sorter} {S : Type} (run_sql : string → S → result error S).

#[local] Abbreviation migration := (db (database S)).

Definition version_less (a b : Migration) : bool := String.ltb (Version a) (Version b).

(** [errors.Wrap(err, classify(err), msg)] *)
Definition classified (msg : string) (e : error) : error := wrap_with (classify (Some e)) msg e.

(** A statement that asks for the connection or the lock, or gives it back. *)
Definition statement : migration unit := exec (λ s, (tt, s)).

Definition migrationsTableDDL : migration unit :=
  exec (λ s, (tt, mkDatabase (schema s) (Some (default [] (schema_migrations s))))).

Definition loadApplied : migration (list string) :=
  on_error (classified "postgres: query applied migrations") (query (λ s,
    (match schema_migrations s with Some l => Ok l | None => Err undefined_table end, s))).

Definition exec_sql (m : Migration) : migration unit := query (λ s,
  match run_sql (SQL m) (schema s) with
  | Ok x => (Ok tt, mkDatabase x (schema_migrations s))
  | Err e => (Err e, s)
  end).

Definition record_version (v : string) : migration unit := query (λ s,
  match schema_migrations s with
  | None => (Err undefined_table, s)
  | Some l => if bool_decide (v ∈ l) then (Err duplicate_version, s)
              else (Ok tt, mkDatabase (schema s) (Some (l ++ [v])))
  end).

Definition migration_body (m : Migration) : migration unit :=
  _ ← on_error (classified ("postgres: apply migration " +:+ Version m)) (exec_sql m);
  on_error (classified ("postgres: record migration " +:+ Version m)) (record_version (Version m)).

Definition applyOne (m : Migration) : migration unit := λ '(s, fs),
  match control s fs with
  | (Some e, st) => (Err (wrap_with CodeUnavailable ("postgres: begin migration " +:+ Version m) e), st)
  | (None, (_, fs)) =>
      match migration_body m (s, fs) with
      | (Err e, (_, fs)) => (Err e, (control s fs).2)
      | (Ok _, (s', fs)) =>
          match control s fs with
          | (Some c, st) => (Err (classified ("postgres: commit migration " +:+ Version m) c), st)
          | (None, (_, fs)) => (Ok tt, (s', fs))
          end
      end
  end.

Fixpoint apply_pending (applied : list string) (ms : list Migration) : migration unit :=
  match ms with
  | [] => mret tt
  | m :: ms =>
      if bool_decide (Version m ∈ applied) then apply_pending applied ms
      else _ ← applyOne m; apply_pending applied ms
  end.

(** The lock is given back whatever happens in between. *)
Definition Migrate (migrations : list Migration) : migration unit :=
  let migrations := sort_slice version_less migrations in
  _ ← on_error (wrap_with CodeUnavailable "postgres: acquire migrate conn") statement;
  _ ← on_error (wrap_with CodeUnavailable "postgres: acquire advisory lock") statement;
  r ← attempt (
    _ ← on_error (classified "postgres: create migrations table") migrationsTableDDL;
    applied ← loadApplied;
    apply_pending applied migrations);
  _ ← ignore statement;
  of_result r.

(** *** What a run leaves behind *)

(** The scripts one after the other. *)
Fixpoint run_scripts (ms : list Migration) (x : S) : option S :=
  match ms with
  | [] => Some x
  | m :: ms => match run_sql (SQL m) x with Ok x => run_scripts ms x | Err _ => None end
  end.

Definition versions (s : database S) : list string := default [] (schema_migrations s).

(** What is left to do, in ascending order. *)
Definition pending (s : database S) (ms : list Migration) : list Migration :=
  filter (λ m, Version m ∉ versions s) (sort_slice version_less ms).

(** The tables after the migrations [l]. *)
Definition migrated (s : database S) (l : list Migration) (s' : database S) : Prop :=
  run_scripts l (schema s) = Some (schema s') ∧ schema_migrations s' = Some (versions s ++ (Version <$> l)).

Lemma applyOne_spec m s l fs :
  schema_migrations s = Some l → Version m ∉ l →
  match applyOne m (s, fs) with
  | (Err _, (s', _)) => s' = s
  | (Ok _, (s', _)) => migrated s [m] s'
  end.
Proof.
  intros Hl Hv. unfold applyOne. destruct (control s fs) as [[e|] [s1 fs1]] eqn:E1.
  { pose proof (control_tables s fs). by rewrite E1 in *. }
  destruct (migration_body m (s, fs1)) as [[u|e] [s2 fs2]] eqn:Em.
  2:{ pose proof (control_tables s fs2). by destruct (control s fs2) as [? [? ?]]. }
  destruct (control s fs2) as [[e|] [s3 fs3]] eqn:E3.
  { pose proof (control_tables s fs2). by rewrite E3 in *. }
  revert Em. unfold migration_body, exec_sql, record_version, on_error, query, mbind, db_bind, migrated.
  destruct fs1 as [|[e|] fs1]; simpl; try done; destruct (run_sql (SQL m) (schema s)) as [x|e] eqn:Er; try done; simpl.
  - rewrite Hl, bool_decide_eq_false_2 by done. intros [= _ <- _]. simpl. unfold versions. by rewrite Hl.
  - destruct fs1 as [|[e|] fs1]; try done; simpl; rewrite Hl, bool_decide_eq_false_2 by done;
      intros [= _ <- _]; simpl; unfold versions; by rewrite Hl.
Qed.

Lemma migrated_app s l1 s1 l2 s2 : migrated s l1 s1 → migrated s1 l2 s2 → migrated s (l1 ++ l2) s2.
Proof.
  intros [H1 H2] [H3 H4]. unfold migrated, versions in *. rewrite H2 in H4. simpl in H4. split.
  - clear H2 H4. revert H1. generalize (schema s) as x. induction l1 as [|m l1 IH]; intros x H1; simpl in *; [congruence|].
    destruct (run_sql (SQL m) x) as [y|e]; [|done]. by apply IH.
  - by rewrite H4, fmap_app, (assoc_L (++)).
Qed.

Lemma apply_pending_spec applied ms s fs :
  NoDup (Version <$> ms) → is_Some (schema_migrations s) →
  (∀ m, m ∈ ms → Version m ∈ versions s ↔ Version m ∈ applied) →
  let '(r, (s', _)) := apply_pending applied ms (s, fs) in
  ∃ l rest, filter (λ m, Version m ∉ applied) ms = l ++ rest ∧ migrated s l s' ∧ (r = Ok tt → rest = []).
Proof.
  revert s fs. induction ms as [|m ms IH]; intros s fs Hn [vs Hvs] Ha; simpl in *.
  { exists [], []. split_and!; [done| |done]. unfold migrated, versions. by rewrite Hvs, app_nil_r. }
  apply NoDup_cons in Hn as [Hm Hn].
  case_bool_decide as Hd.
  { rewrite filter_cons, decide_False by tauto. apply IH; [done|done|]. intros x Hx. apply Ha. by right. }
  rewrite filter_cons, decide_True by done. unfold mbind, db_bind.
  assert (Version m ∉ versions s) as Hv by (rewrite Ha; [done|by left]).
  pose proof (applyOne_spec m s vs fs Hvs) as H1. unfold versions in Hv. rewrite Hvs in Hv. specialize (H1 Hv).
  destruct (applyOne m (s, fs)) as [[u|e] [s1 fs1]].
  2:{ subst. exists [], (m :: filter (λ m, Version m ∉ applied) ms). split_and!; [done| |done].
      unfold migrated, versions. by rewrite Hvs, app_nil_r. }
  assert (schema_migrations s1 = Some (versions s ++ [Version m])) as Hs1 by apply H1.
  specialize (IH s1 fs1 Hn ltac:(by eexists)).
  destruct (apply_pending applied ms (s1, fs1)) as [r [s2 fs2]].
  destruct IH as (l & rest & E & Hmig & Hr).
  { intros x Hx. rewrite <- (Ha x) by by right. unfold versions at 1. rewrite Hs1. simpl.
    rewrite elem_of_app, list_elem_of_singleton. split; [|tauto]. intros [?|E]; [done|].
    destruct Hm. rewrite <- E. by apply list_elem_of_fmap_2. }
  exists (m :: l), rest. split_and!; [by rewrite E| |done]. by apply (migrated_app s [m] s1).
Qed.

Lemma NoDup_sorted ms : NoDup (Version <$> ms) → NoDup (Version <$> sort_slice version_less ms).
Proof. by rewrite (sort_slice_perm version_less ms). Qed.

(** Nothing pending: whatever fails, a run changes at most that the table exists. *)
Lemma apply_pending_none applied ms s fs :
  (∀ m, m ∈ ms → Version m ∈ applied) → apply_pending applied ms (s, fs) = (Ok tt, (s, fs)).
Proof.
  induction ms as [|m ms IH]; intros H; [done|]. simpl. rewrite bool_decide_eq_true_2 by (apply H; by left).
  apply IH. intros x Hx. apply H. by right.
Qed.

(** The tables once the bookkeeping table exists. *)
Definition with_table (s : database S) : database S := mkDatabase (schema s) (Some (versions s)).

Lemma wp_Migrate ms s (Q : unit → database S → Prop) E :
  (∀ e, E e s) → (∀ e, E e (with_table s)) →
  wp (apply_pending (versions s) (sort_slice version_less ms)) Q E (with_table s) → wp (Migrate ms) Q E s.
Proof.
  intros He Ht H. unfold Migrate, statement, migrationsTableDDL, loadApplied.
  do 3 wp_step; [done|]. do 3 wp_step; [done|]. do 5 wp_step.
  { intros e. do 3 wp_step; [intros _|]; by wp_step. }
  do 3 wp_step.
  { intros e. do 3 wp_step; [intros _|]; by wp_step. }
  eapply wp_mono; [exact H| |].
  - intros [] s' Hs. do 3 wp_step; [intros _|]; by wp_step.
  - intros e s' Hs. do 3 wp_step; [intros _|]; by wp_step.
Qed.

(** An initial part of what was pending is there and recorded; all of it if [all]. *)
Definition progressed (all : Prop) ms (s s' : database S) : Prop :=
  ∃ l rest, pending s ms = l ++ rest ∧ migrated s l s' ∧ (all → rest = []).

Lemma progressed_pending ms s : progressed False ms s (with_table s).
Proof. exists [], (pending s ms). split_and!; [done| |done]. by split; [|simpl; rewrite app_nil_r]. Qed.

Lemma Migrate_progress ms s :
  NoDup (Version <$> ms) →
  wp (Migrate ms) (λ _ s', progressed True ms s s') (λ _ s', s' = s ∨ progressed False ms s s') s.
Proof.
  intros Hn. apply wp_Migrate; [by left|right; apply progressed_pending|].
  intros fs. pose proof (apply_pending_spec (versions s) (sort_slice version_less ms) (with_table s) fs
    (NoDup_sorted _ Hn) ltac:(by eexists) ltac:(done)) as H.
  destruct (apply_pending _ _ _) as [[[]|e] [s' fs']]; destruct H as (l & rest & H1 & H2 & H3).
  - exists l, rest. split_and!; [done|done|auto].
  - right. by exists l, rest.
Qed.

Lemma Migrate_again ms s : pending s ms = [] → is_Some (schema_migrations s) → ∀ fs, tables_of (Migrate ms (s, fs)) = s.
Proof.
  intros Hp [vs Hvs] fs. apply (wp_tables (λ s', s' = s)).
  assert (with_table s = s) as Ht by (destruct s; unfold with_table, versions; simpl in *; by rewrite Hvs).
  apply wp_Migrate; [done|done|]. intros fs'. rewrite Ht, apply_pending_none; [done|].
  intros m Hm. destruct (decide (Version m ∈ versions s)) as [|H]; [done|].
  assert (m ∈ pending s ms) as Hin by (by apply list_elem_of_filter). rewrite Hp in Hin. by apply elem_of_nil in Hin.
Qed.

(** C38: migrations are applied once and in order, and each of them completely or not
    at all.  Whatever statements fail, a run leaves the tables as they were, or as an initial
    part of what was pending, in ascending order, makes them, and records just
    that part; a run that succeeds has applied all of it, and after it no run of
    the same list, whatever fails in it, changes anything. *)
Theorem Migrate_prefix ms (s : database S) fs :
  NoDup (Version <$> ms) →
  match Migrate ms (s, fs) with
  | (Ok _, (s', _)) => migrated s (pending s ms) s' ∧ ∀ fs', tables_of (Migrate ms (s', fs')) = s'
  | (Err _, (s', _)) => s' = s ∨ ∃ l rest, pending s ms = l ++ rest ∧ migrated s l s'
  end.
Proof.
  intros Hn. pose proof (Migrate_progress ms s Hn fs) as H.
  destruct (Migrate ms (s, fs)) as [[[]|e] [s' fs1]].
  - destruct H as (l & rest & H1 & H2 & H3). rewrite H3, app_nil_r in H1 by done. subst l. split; [done|].
    apply Migrate_again; [|destruct H2 as [_ ->]; by eexists]. destruct H2 as [_ H2].
    assert (versions s' = versions s ++ (Version <$> pending s ms)) as Hv by (unfold versions at 1; by rewrite H2).
    destruct (pending s' ms) as [|m k] eqn:Ek; [done|].
    assert (m ∈ pending s' ms) as Hm by (rewrite Ek; by left). apply list_elem_of_filter in Hm as [Hm Hin].
    rewrite Hv in Hm. destruct Hm. apply elem_of_app. destruct (decide (Version m ∈ versions s)); [by left|right].
    apply list_elem_of_fmap_2. by apply list_elem_of_filter.
  - destruct H as [H|(l & rest & H1 & H2 & _)]; [by left|right]. by exists l, rest.
Qed.
End migrate.

(** A server that knows scripts which create a table of their name. *)
Definition create_table (sql : string) (tables : list string) : result error (list string) :=
  if bool_decide (sql ∈ tables) then Err (PgError "42P07" "relation already exists") else Ok (tables ++ [sql]).

Definition two : list Migration := [{| Version := "0002_b"; SQL := "b" |}; {| Version := "0001_a"; SQL := "a" |}].
Definition fresh : database (list string) := mkDatabase [] None.

(** The second COMMIT fails: the first migration stays; the next run does the other. *)
Definition commit_fails : faults := replicate 11 None ++ [Some (Plain "connection reset")].

Lemma Migrate_prefix_witness :
  let '(r, (s, _)) := Migrate (So := insertion_sorter) create_table two (fresh, commit_fails) in
  is_ok r = false ∧ s = mkDatabase ["a"] (Some ["0001_a"])
  ∧ (∃ l rest, pending (So := insertion_sorter) fresh two = l ++ rest ∧ migrated create_table fresh l s)
  ∧ tables_of (Migrate (So := insertion_sorter) create_table two (s, [])) = mkDatabase ["a"; "b"] (Some ["0001_a"; "0002_b"]).
Proof.
  pose proof (Migrate_prefix (So := insertion_sorter) create_table two fresh commit_fails) as H.
  assert (NoDup (Version <$> two)) as Hn by (apply (bool_decide_unpack _); vm_compute; exact I).
  specialize (H Hn). revert H.
  destruct (Migrate _ _ _) as [r [s fs]] eqn:E. vm_compute in E. injection E as <- <- <-.
  intros [H|H]; [done|]. split_and!; [done..|exact H|by vm_compute].
Defined.

(** The same version twice: the second is not skipped, and fails. *)
Example repeated_version_fails :
  is_ok (Migrate (So := insertion_sorter) create_table
    [{| Version := "0001_a"; SQL := "a" |}; {| Version := "0001_a"; SQL := "b" |}] (fresh, [])).1 = false.
Proof. vm_compute. reflexivity. Qed.
End Migrate.

(** ** Start-up and shutdown (lifecycle/manager.go) *)

Module Lifecycle.
(** What the log says the manager does. *)
Inductive entry := Starting (hook : string) | StartFailed (hook : string) | Stopping (hook : string).

Section lifecycle.
Context {W : Type}.

(** [Start] and [Stop] may be nil. *)
Record Hook := {
  Name : string;
  Start : option (W → option error * W);
  Stop : option (W → option error * W);
}.

(** The hooks started, the error of the one that failed, the log. *)
Fixpoint start_hooks (hooks : list Hook) (w : W) : list Hook * option error * list entry * W :=
  match hooks with
  | [] => ([], None, [], w)
  | h :: hooks =>
      match Start h with
      | None => let '(started, e, log, w) := start_hooks hooks w in (h :: started, e, log, w)
      | Some f =>
          match f w with
          | (Some e, w) => ([], Some e, [Starting (Name h); StartFailed (Name h)], w)
          | (None, w) =>
              let '(started, e, log, w) := start_hooks hooks w in (h :: started, e, Starting (Name h) :: log, w)
          end
      end
  end.

(** [stop], whose loop runs backwards; errors are logged only. *)
Fixpoint stop_each (hooks : list Hook) (w : W) : list entry * W :=
  match hooks with
  | [] => ([], w)
  | h :: hooks =>
      match Stop h with
      | None => stop_each hooks w
      | Some f => let '(log, w) := stop_each hooks (f w).2 in (Stopping (Name h) :: log, w)
      end
  end.

Definition stop_hooks (hooks : list Hook) (w : W) : list entry * W := stop_each (reverse hooks) w.

(** How the wait ends: a signal or the end of the context, or the first runner
    that returns. *)
Inductive wake := Signal | ContextDone | RunnerExited (err : option error).

(** [Run]; the runners run inside [wait] and are told to stop, but not waited for. *)
Definition Run (hooks : list Hook) (wait : W → wake * W) (w : W) : option error * list entry * W :=
  let '(started, e, log, w) := start_hooks hooks w in
  match e with
  | Some e => let '(stops, w) := stop_hooks started w in (Some e, log ++ stops, w)
  | None =>
      let '(k, w) := wait w in
      let runErr := match k with
                    | RunnerExited (Some err) => if Is err Canceled then None else Some err
                    | _ => None
                    end in
      let '(stops, w) := stop_hooks started w in (runErr, log ++ stops, w)
  end.

Lemma start_hooks_prefix hooks w :
  let '(started, e, log, _) := start_hooks hooks w in
  ∃ rest, hooks = started ++ rest ∧ (e = None → rest = [])
  ∧ log = (Starting ∘ Name <$> filter (λ h, is_Some (Start h)) started)
          ++ match e, rest with Some _, h :: _ => [Starting (Name h); StartFailed (Name h)] | _, _ => [] end
  ∧ (is_Some e → rest ≠ []).
Proof.
  revert w. induction hooks as [|h hooks IH]; intros w; simpl.
  { exists []. split_and!; [done..|]. by intros [? ?]. }
  destruct (Start h) as [f|] eqn:Ef.
  - destruct (f w) as [[e|] w1].
    { exists (h :: hooks). split_and!; done. }
    specialize (IH w1). destruct (start_hooks hooks w1) as [[[started e] log] w2].
    destruct IH as (rest & -> & H1 & -> & H2). exists rest. rewrite filter_cons, decide_True by (rewrite Ef; by eexists).
    by split_and!.
  - specialize (IH w). destruct (start_hooks hooks w) as [[[started e] log] w2].
    destruct IH as (rest & -> & H1 & -> & H2). exists rest.
    rewrite filter_cons, decide_False by (rewrite Ef; by intros [? ?]). by split_and!.
Qed.

Lemma stop_each_log hooks w : (stop_each hooks w).1 = Stopping ∘ Name <$> filter (λ h, is_Some (Stop h)) hooks.
Proof.
  revert w. induction hooks as [|h hooks IH]; intros w; [done|]. simpl. rewrite filter_cons.
  destruct (Stop h) as [f|].
  - rewrite decide_True by by eexists. specialize (IH (f w).2). destruct (stop_each hooks _) as [log w']. simpl in *. by rewrite IH.
  - rewrite decide_False by (by intros [? ?]). apply IH.
Qed.

(** Start-up runs the hooks in order until one fails; whatever happened, the hooks
    before that one, and no others, are stopped, each once and in reverse
    order, whether or not stopping fails.  The result is the error of the hook that
    failed, or that of the first runner that returned, unless it says that the context
    was cancelled. *)
Theorem Run_unwinds hooks wait w :
  let '(e, log, _) := Run hooks wait w in
  ∃ started rest, hooks = started ++ rest
  ∧ log = (Starting ∘ Name <$> filter (λ h, is_Some (Start h)) started)
          ++ match rest with [] => [] | h :: _ => [Starting (Name h); StartFailed (Name h)] end
          ++ (Stopping ∘ Name <$> filter (λ h, is_Some (Stop h)) (reverse started))
  ∧ (rest ≠ [] → is_Some e).
Proof.
  unfold Run. pose proof (start_hooks_prefix hooks w) as H.
  destruct (start_hooks hooks w) as [[[started [e|]] log] w1].
  - pose proof (stop_each_log (reverse started) w1) as Hs. unfold stop_hooks.
    destruct (stop_each (reverse started) w1) as [stops w2]. simpl in Hs.
    destruct H as (rest & -> & _ & -> & Hr). exists started, rest. split_and!; [done| |by eexists].
    destruct rest; [by destruct Hr|]. by rewrite Hs, <- (assoc_L (++)).
  - destruct (wait w1) as [k w2]. unfold stop_hooks. pose proof (stop_each_log (reverse started) w2) as Hs.
    destruct (stop_each (reverse started) w2) as [stops w3]. simpl in Hs.
    destruct H as (rest & -> & Hr & -> & _). rewrite (Hr eq_refl). exists started, [].
    split_and!; [done| |done]. by rewrite Hs, app_nil_r.
Qed.
End lifecycle.
#[global] Arguments Hook W : clear implicits.
End Lifecycle.

(** ** The event bus (events/bus.go, event.go) *)

Module Bus.
Definition Wildcard : string := "*".

Record Event := {
  ID : string; Name : string; Version : Z; OccurredAt : Time; CorrelationID : string; Source : string;
  Payload : string; Metadata : gmap string string;
}.

(** [WithMetadata] and the other options of [New]. *)
Inductive Option_ :=
  | WithVersion (v : Z) | WithSource (s : string) | WithCorrelationID (id : string) | WithMetadata (md : gmap string string).

Definition apply_option (e : Event) (o : Option_) : Event :=
  match o with
  | WithVersion v => {| ID := ID e; Name := Name e; Version := v; OccurredAt := OccurredAt e; CorrelationID := CorrelationID e;
                        Source := Source e; Payload := Payload e; Metadata := Metadata e |}
  | WithSource s => {| ID := ID e; Name := Name e; Version := Version e; OccurredAt := OccurredAt e;
                       CorrelationID := CorrelationID e; Source := s; Payload := Payload e; Metadata := Metadata e |}
  | WithCorrelationID id => {| ID := ID e; Name := Name e; Version := Version e; OccurredAt := OccurredAt e;
                               CorrelationID := id; Source := Source e; Payload := Payload e; Metadata := Metadata e |}
  | WithMetadata md => {| ID := ID e; Name := Name e; Version := Version e; OccurredAt := OccurredAt e;
                          CorrelationID := CorrelationID e; Source := Source e; Payload := Payload e;
                          Metadata := md ∪ Metadata e |}
  end.

(** [payload] is the text [json.Marshal] made, or its error; [id], [now] and
    [correlation] are drawn, read and taken from the context. *)
Definition New (id : string) (now : Time) (correlation : string) (name : string) (payload : result error string)
    (opts : list Option_) : result error Event :=
  match payload with
  | Err e => Err (wrap_with CodeInvalidArgument "events: marshal payload" e)
  | Ok raw =>
      Ok (foldl apply_option {| ID := id; Name := name; Version := 1; OccurredAt := now; CorrelationID := correlation;
                                Source := ""; Payload := raw; Metadata := ∅ |} opts)
  end.

(** [Decode] with what [json.Unmarshal] makes of the payload. *)
Definition Decode {A} (unmarshal : string → result error A) (e : Event) : result error A :=
  if Payload e =s? "" then Err (Platform (Errors.New CodeInvalidArgument "events: empty payload"))
  else match unmarshal (Payload e) with
       | Err err => Err (wrap_with CodeInvalidArgument "events: decode payload" err)
       | Ok a => Ok a
       end.

Section bus.
Context {W : Type} `{Ctx : !Context W}.

Record namedHandler := { name : string; handler : Event → W → option error * W }.

Record Config := {
  Workers : Z; QueueSize : Z; MaxAttempts_ : Z; Backoff_ : option (Backoff W); AsyncTimeout : Duration;
  (* DeadLetter; nil is the sink that logs *)
  DeadLetter : Event → string → error → W → W;
}.

Definition withDefaults (c : Config) : Config := {|
  Workers := if Workers c <? 1 then 8 else Workers c;
  QueueSize := if QueueSize c <? 1 then 1024 else QueueSize c;
  MaxAttempts_ := if MaxAttempts_ c <? 1 then 3 else MaxAttempts_ c;
  Backoff_ := Some (default (Exponential_Delay {| Base := 20 * Millisecond; Max := Second; Factor := f64_of_Z 2;
                                                  Jitter := true |}) (Backoff_ c));
  AsyncTimeout := if AsyncTimeout c <=? 0 then 30 * Second else AsyncTimeout c;
  DeadLetter := DeadLetter c |}.

(** [InMemory]: handlers by event name, in the order they came. *)
Definition subscriptions : Type := gmap string (list namedHandler).

Definition Subscribe (event : string) (h : namedHandler) (subs : subscriptions) : subscriptions :=
  <[event := default [] (subs !! event) ++ [h]]> subs.

Definition matching (subs : subscriptions) (event : string) : list namedHandler :=
  default [] (subs !! event) ++ default [] (subs !! Wildcard).

Definition retried (err : error) : bool := negb (IsCode (Some err) CodeInvalidArgument).

Definition deliver_options (cfg : Config) : Options W :=
  {| MaxAttempts := MaxAttempts_ cfg; backoff := Backoff_ cfg; retryable := Some retried |}.

Definition deliver (cfg : Config) (h : namedHandler) (e : Event) (w : W) : option error * W :=
  match Do (deliver_options cfg) (handler h e) w with
  | (None, w) => (None, w)
  | (Some err, w) =>
      (Platform <$> Wrap (Some err) (CodeOf (Some err))
         ("events: handler " +:+ quote (name h) +:+ " failed for " +:+ quote (Name e)),
       DeadLetter cfg e (name h) err w)
  end.

Fixpoint deliver_each (cfg : Config) (e : Event) (hs : list namedHandler) (w : W) : list error * W :=
  match hs with
  | [] => ([], w)
  | h :: hs =>
      let '(r, w) := deliver cfg h e w in
      let '(errs, w) := deliver_each cfg e hs w in
      (match r with Some err => err :: errs | None => errs end, w)
  end.

Definition Publish (cfg : Config) (subs : subscriptions) (e : Event) (w : W) : option error * W :=
  let '(errs, w) := deliver_each cfg e (matching subs (Name e)) w in
  (match errs with [] => None | _ => Some (Joined errs) end, w).

(** [PublishAsync]: [Submit] of the pool takes the delivery, or reports an error. *)
Fixpoint submit_each (submit : namedHandler → W → option error * W) (hs : list namedHandler) (w : W) : option error * W :=
  match hs with
  | [] => (None, w)
  | h :: hs =>
      match submit h w with
      | (Some err, w) => (Platform <$> Wrap (Some err) CodeUnavailable "events: enqueue async delivery", w)
      | (None, w) => submit_each submit hs w
      end
  end.

Definition PublishAsync (submit : namedHandler → W → option error * W) (subs : subscriptions) (e : Event) (w : W)
    : option error * W := submit_each submit (matching subs (Name e)) w.

End bus.
#[global] Arguments namedHandler W : clear implicits.
#[global] Arguments Config W : clear implicits.

(** A delivery calls its handler at most [MaxAttempts] times and goes on only after
    failures that are not invalid arguments; it succeeds when the last call did,
    and otherwise hands the event to the dead-letter sink, once. *)
Theorem deliver_spec {W} `{Context W} (cfg : Config (logging W)) (dead : W → W) h fn e (w : W) :
  (∀ b, Backoff_ cfg = Some b → keeps_log b) → handler h e = logged fn →
  (∀ err w, DeadLetter cfg e (name h) err w = (dead w.1, w.2)) →
  let attempts := if MaxAttempts_ cfg <? 1 then 3 else MaxAttempts_ cfg in
  ∃ r last log, Do (deliver_options cfg) (logged fn) (w, []) = (r, (last, log))
    ∧ ended (W := W) attempts retried r log
    ∧ match r with
      | None => deliver cfg h e (w, []) = (None, (last, log))
      | Some err => ∃ err', deliver cfg h e (w, []) = (Some err', (dead last, log)) ∧ CodeOf (Some err') = CodeOf (Some err)
      end.
Proof.
  intros Hb Hh Hd attempts. unfold deliver. rewrite Hh.
  destruct (Do (deliver_options cfg) (logged fn) (w, [])) as [r [last log]] eqn:E.
  exists r, last, log. split; [done|]. split.
  - pose proof (Do_loop_ended (W := W) (attempts_of (deliver_options cfg))
      (default default_backoff (backoff (deliver_options cfg))) (predicate (deliver_options cfg)) fn
      (Z.to_nat (attempts_of (deliver_options cfg)))) as Hl.
    unfold Do in E. assert (1 ≤ attempts_of (deliver_options cfg)) as Ha
      by (unfold attempts_of; destruct (Z.ltb_spec (MaxAttempts (deliver_options cfg)) 1); lia).
    assert (keeps_log (default default_backoff (backoff (deliver_options cfg)))) as Hk.
    { simpl. destruct (Backoff_ cfg) as [b|] eqn:Eb; [by apply Hb|apply Exponential_keeps_log]. }
    specialize (Hl Hk 1 None (w, [])). rewrite E in Hl. apply Hl; simpl; try lia; constructor.
  - destruct r as [err|]; [|done]. eexists. rewrite Hd. by split.
Qed.

(** Whoever listens to everything hears an event named [*] twice. *)
Example star_delivered_twice :
  let h := {| name := "h"; handler := λ _ w, (None, w) |} : namedHandler clock in
  length (matching (Subscribe Wildcard h ∅) Wildcard) = 2%nat.
Proof. reflexivity. Qed.
End Bus.

(** ** The circuit breaker (resilience/circuitbreaker.go)

    The breaker is a record; [beforeCall] and [afterCall] each run under the
    mutex, so concurrent callers are interleavings of these two steps
    ([step]).  [Call] composes them around a function that acts on a world of
    the caller; the two clock readings of a call are arguments. *)

(** [State] *)
Inductive State := StateClosed | StateOpen | StateHalfOpen.

#[export] Instance State_eq_dec : EqDecision State.
Proof. solve_decision. Defined.

Module CircuitBreaker.
Record t := mk {
  name : string;
  maxFailures : Z;
  openDuration : Duration;
  halfOpenMax : Z;
  state : State;
  failures : Z;
  halfOpenTries : Z;
  openUntil : Time;
}.
End CircuitBreaker.
Abbreviation CircuitBreaker := CircuitBreaker.t.
Import CircuitBreaker.

Record CircuitBreakerConfig := {
  Name : string;
  MaxFailures : Z;
  OpenDuration : Duration;
  HalfOpenMax : Z;
}.

Definition NewCircuitBreaker (cfg : CircuitBreakerConfig) : CircuitBreaker :=
  {| name := Name cfg;
     maxFailures := if MaxFailures cfg <=? 0 then 5 else MaxFailures cfg;
     openDuration := if OpenDuration cfg <=? 0 then 30 * Second else OpenDuration cfg;
     halfOpenMax := if HalfOpenMax cfg <=? 0 then 1 else HalfOpenMax cfg;
     state := StateClosed; failures := 0; halfOpenTries := 0; openUntil := 0 |}.

(** The breaker with its variable fields set. *)
Definition put (cb : CircuitBreaker) (s : State) (f tries : Z) (until : Time) : CircuitBreaker :=
  {| name := name cb; maxFailures := maxFailures cb; openDuration := openDuration cb;
     halfOpenMax := halfOpenMax cb; state := s; failures := f; halfOpenTries := tries;
     openUntil := until |}.

(** [beforeCall]: the error of a refusal, and the breaker. *)
Definition beforeCall (now : Time) (cb : CircuitBreaker) : option error * CircuitBreaker :=
  match state cb with
  | StateOpen =>
      if Before now (openUntil cb)
      then (Some (Platform (New CodeUnavailable ("circuit breaker open: " +:+ name cb))), cb)
      else (None, put cb StateHalfOpen (failures cb) 0 (openUntil cb))
  | StateHalfOpen =>
      if halfOpenMax cb <=? halfOpenTries cb
      then (Some (Platform (New CodeUnavailable ("circuit breaker half-open limit: " +:+ name cb))), cb)
      else (None, put cb StateHalfOpen (failures cb) (halfOpenTries cb + 1) (openUntil cb))
  | StateClosed => (None, cb)
  end.

Definition afterCall (now : Time) (err : option error) (cb : CircuitBreaker) : CircuitBreaker :=
  match err with
  | None => put cb StateClosed 0 (halfOpenTries cb) (openUntil cb)
  | Some _ =>
      let f := failures cb + 1 in
      if bool_decide (state cb = StateHalfOpen) || (maxFailures cb <=? f)
      then put cb StateOpen 0 (halfOpenTries cb) (Add now (openDuration cb))
      else put cb (state cb) f (halfOpenTries cb) (openUntil cb)
  end.

(** [Call], for a function [fn] acting on a world [W]. *)
Definition Call {W} (t1 t2 : Time) (fn : W → option error * W) (cb : CircuitBreaker) (w : W)
    : option error * (CircuitBreaker * W) :=
  match beforeCall t1 cb with
  | (Some e, cb) => (Some e, (cb, w))
  | (None, cb) => let '(err, w) := fn w in (err, (afterCall t2 err cb, w))
  end.

(** ** Concurrent callers

    A configuration is the breaker, the number of calls admitted and not yet
    finished, and (for the theorems only) the number of calls admitted since
    the circuit last became half-open. *)

Record config := { breaker : CircuitBreaker; running : nat; probes : Z }.

Definition probes_after (cb : CircuitBreaker) (n : Z) : Z :=
  match state cb with StateOpen => 1 | StateHalfOpen => n + 1 | StateClosed => n end.

Inductive step : config → config → Prop :=
| step_admit c now cb' :
    beforeCall now (breaker c) = (None, cb') →
    step c {| breaker := cb'; running := S (running c); probes := probes_after (breaker c) (probes c) |}
| step_refuse c now e cb' :
    beforeCall now (breaker c) = (Some e, cb') →
    step c {| breaker := cb'; running := running c; probes := probes c |}
| step_finish c n now err :
    running c = S n →
    step c {| breaker := afterCall now err (breaker c); running := n; probes := probes c |}.

Definition start (cfg : CircuitBreakerConfig) : config :=
  {| breaker := NewCircuitBreaker cfg; running := 0; probes := 0 |}.

Definition reachable (cfg : CircuitBreakerConfig) : config → Prop := rtc step (start cfg).

(** [n] calls in a row that all fail, each given its own clock readings. *)
Fixpoint fail_calls {W} (calls : list (Time * Time * (W → option error * W)))
    (cb : CircuitBreaker) (w : W) : CircuitBreaker * W :=
  match calls with
  | [] => (cb, w)
  | (t1, t2, fn) :: calls => let '(cb, w) := (Call t1 t2 fn cb w).2 in fail_calls calls cb w
  end.

(** ** Facts *)

(** What the counters of a breaker may be. *)
Definition counters_ok (c : config) : Prop :=
  let cb := breaker c in
  0 ≤ failures cb < maxFailures cb ∧ 0 < halfOpenMax cb ∧ 0 < openDuration cb
  ∧ 0 ≤ halfOpenTries cb ≤ halfOpenMax cb
  ∧ (state cb = StateHalfOpen → probes c = halfOpenTries cb + 1)
  ∧ probes c ≤ halfOpenMax cb + 1.

Lemma counters_start cfg : counters_ok (start cfg).
Proof.
  unfold counters_ok, start, NewCircuitBreaker, Second. destruct cfg; simpl.
  repeat case_match; bool_to_prop; split_and!; solve [done | lia].
Qed.

Lemma counters_step c c' : step c c' → counters_ok c → counters_ok c'.
Proof.
  intros Hs (H1 & H2 & H3 & H4 & H5 & H6). destruct Hs as [c now cb' E|c now e cb' E|c n now err E].
  - unfold beforeCall in E. unfold counters_ok, probes_after; simpl.
    destruct (state (breaker c)) eqn:Es; repeat case_match; simplify_eq/=; bool_to_prop;
      rewrite ?Es; split_and!; try solve [done | lia]; specialize (H5 eq_refl); lia.
  - unfold beforeCall in E. unfold counters_ok; simpl.
    destruct (state (breaker c)) eqn:Es; repeat case_match; simplify_eq/=; bool_to_prop;
      rewrite ?Es; split_and!; solve [done | lia].
  - unfold counters_ok, afterCall, put; simpl. destruct err as [e|]; [|split_and!; simpl; solve [done | lia]].
    case_match eqn:Et; simpl; [split_and!; solve [done | lia]|]. bool_to_prop.
    split_and!; solve [done | lia].
Qed.

Lemma counters_reachable cfg c : reachable cfg c → counters_ok c.
Proof.
  unfold reachable. intros H. cut (counters_ok (start cfg)); [|apply counters_start].
  induction H as [|x y z Hs _ IH]; [done|]. intros Hx. by apply IH, (counters_step x).
Qed.

(** A failing call on a closed circuit counts, and the last one allowed opens it. *)
Lemma failing_call {W} t1 t2 (fn : W → option error * W) cb w e :
  state cb = StateClosed → (fn w).1 = Some e →
  Call t1 t2 fn cb w =
    (Some e, (if maxFailures cb <=? failures cb + 1
              then put cb StateOpen 0 (halfOpenTries cb) (Add t2 (openDuration cb))
              else put cb StateClosed (failures cb + 1) (halfOpenTries cb) (openUntil cb),
              (fn w).2)).
Proof.
  intros Hs He. unfold Call, beforeCall. rewrite Hs. destruct (fn w) as [? w']; simplify_eq/=.
  unfold afterCall. rewrite Hs, bool_decide_false by done. simpl.
  by destruct (maxFailures cb <=? failures cb + 1).
Qed.

Lemma fail_calls_counts {W} (calls : list (Time * Time * (W → option error * W))) :
  ∀ cb w, state cb = StateClosed →
  (∀ t1 t2 fn w, (t1, t2, fn) ∈ calls → is_Some (fn w).1) →
  failures cb + Z.of_nat (length calls) < maxFailures cb →
  (fail_calls calls cb w).1
  = put cb StateClosed (failures cb + Z.of_nat (length calls)) (halfOpenTries cb) (openUntil cb).
Proof.
  induction calls as [|[[t1 t2] fn] calls IH]; intros cb w Hs Hf Hn; simpl in *.
  { destruct cb; simpl in *; subst. unfold put; simpl. f_equal; lia. }
  destruct (Hf t1 t2 fn w) as [e He]; [by left|].
  rewrite (failing_call t1 t2 fn cb w e) by done.
  destruct (Z.leb_spec (maxFailures cb) (failures cb + 1)); [lia|]. simpl.
  rewrite IH; simpl; [|done|intros; eapply Hf; by right|lia].
  unfold put; simpl. f_equal; lia.
Qed.

(** ** Properties *)

(** In every state that concurrent callers can reach, through any
    interleaving of admissions, refusals and completions at any times, the
    failure count stays below the threshold, the half-open counter stays within
    its limit, and at most HalfOpenMax + 1 calls have been let through since
    the circuit became half-open (the call that makes it half-open is not
    counted by the code). *)
Theorem breaker_invariant cfg c :
  reachable cfg c →
  0 ≤ failures (breaker c) < maxFailures (breaker c)
  ∧ 0 ≤ halfOpenTries (breaker c) ≤ halfOpenMax (breaker c)
  ∧ probes c ≤ halfOpenMax (breaker c) + 1.
Proof. intros H. destruct (counters_reachable cfg c H) as (?&?&?&?&?&?). done. Qed.

(** Two calls fill the half-open circuit of the default configuration. *)
Definition dflt : CircuitBreakerConfig :=
  {| Name := "db"; MaxFailures := 1; OpenDuration := Minute; HalfOpenMax := 0 |}.

Lemma breaker_invariant_witness :
  ∃ c, reachable dflt c ∧ probes c = 2 ∧ state (breaker c) = StateHalfOpen
  ∧ 0 ≤ failures (breaker c) < maxFailures (breaker c)
  ∧ 0 ≤ halfOpenTries (breaker c) ≤ halfOpenMax (breaker c)
  ∧ probes c ≤ halfOpenMax (breaker c) + 1.
Proof.
  assert (∃ c, reachable dflt c ∧ probes c = 2 ∧ state (breaker c) = StateHalfOpen) as (c & H & E1 & E2).
  { eexists. split.
    - unfold reachable.
      eapply rtc_l; [eapply (step_admit _ 0); reflexivity|].
      eapply rtc_l; [eapply (step_finish _ 0 0 (Some Canceled)); reflexivity|].
      eapply rtc_l; [eapply (step_admit _ (2 * Minute)); reflexivity|].
      eapply rtc_l; [eapply (step_admit _ (2 * Minute)); reflexivity|].
      apply rtc_refl.
    - split; reflexivity. }
  exists c. split; [done|]. split; [done|]. split; [done|]. exact (breaker_invariant dflt c H).
Defined.

(** a new breaker trips on the MaxFailures-th consecutive failure and not
    earlier, whatever the failing calls do.  Until OpenDuration has passed
    every call is then refused as unavailable without running its function;
    after it the next call runs, and the circuit closes if it succeeds and
    opens again for a full OpenDuration if it fails. *)
Theorem trips_and_recovers {W} cfg (calls : list (Time * Time * (W → option error * W)))
    last (fn : W → option error * W) t1 t2 t3 t4 w :
  let cb0 := NewCircuitBreaker cfg in
  let cb1 := (fail_calls calls cb0 w).1 in
  let '(_, (cb2, w2)) := Call t1 t2 last cb1 w in
  Z.of_nat (length calls) + 1 = maxFailures cb0 →
  (∀ s1 s2 f v, (s1, s2, f) ∈ calls → is_Some (f v).1) → (∀ v, is_Some (last v).1) →
  state cb1 = StateClosed ∧ state cb2 = StateOpen
  ∧ (t3 < t2 + openDuration cb0 →
     ∃ e, Call t3 t4 fn cb2 w2 = (Some (Platform e), (cb2, w2)) ∧ code e = CodeUnavailable)
  ∧ (t2 + openDuration cb0 ≤ t3 →
     let '(err, (cb3, w3)) := Call t3 t4 fn cb2 w2 in
     (err, w3) = fn w2 ∧
     match err with
     | None => state cb3 = StateClosed ∧ failures cb3 = 0
     | Some _ => state cb3 = StateOpen ∧ openUntil cb3 = t4 + openDuration cb0
     end).
Proof.
  intros cb0 cb1. destruct (Call t1 t2 last cb1 w) as [r [cb2 w2]] eqn:EC. intros Hn Hc Hl.
  assert (cb1 = put cb0 StateClosed (Z.of_nat (length calls)) 0 0) as E1.
  { unfold cb1. rewrite fail_calls_counts; [done..|].
    unfold cb0 in *; simpl in *. lia. }
  clearbody cb0 cb1. subst cb1. destruct (Hl w) as [e He].
  rewrite (failing_call t1 t2 last _ w e) in EC by done. simpl in EC.
  destruct (Z.leb_spec (maxFailures cb0) (Z.of_nat (length calls) + 1)); [|lia].
  simplify_eq/=. split; [done|]. split; [done|]. split.
  - intros Ht. unfold Call, beforeCall, Before, Add; simpl.
    destruct (Z.ltb_spec t3 (t2 + openDuration cb0)); [|lia]. eexists. split; [done|]. done.
  - intros Ht. unfold Call, beforeCall, Before, Add; simpl.
    destruct (Z.ltb_spec t3 (t2 + openDuration cb0)); [lia|]. simpl.
    by destruct (fn (last w).2) as [[e'|] w3].
Qed.

Definition failing : unit → option error * unit := λ w, (Some DeadlineExceeded, w).

Lemma trips_and_recovers_witness :
  let cfg := {| Name := "db"; MaxFailures := 2; OpenDuration := Minute; HalfOpenMax := 1 |} in
  let cb1 := (fail_calls [(0, 0, failing)] (NewCircuitBreaker cfg) ()).1 in
  state cb1 = StateClosed ∧ state (Call 1 1 failing cb1 ()).2.1 = StateOpen.
Proof.
  pose proof (trips_and_recovers {| Name := "db"; MaxFailures := 2; OpenDuration := Minute; HalfOpenMax := 1 |}
    [(0, 0, failing)] failing failing 1 1 2 2 ()) as H.
  cbv zeta in *. simpl in H. destruct H as (H1 & H2 & _).
  - reflexivity.
  - intros s1 s2 f v [= -> -> ->]%list_elem_of_singleton. by eexists.
  - intros v. by eexists.
  - split; [exact H1|reflexivity].
Defined.

(** A call admitted before the circuit tripped closes it again when it
    succeeds, although the cool-down has only begun: [afterCall] does not look
    at the state. *)
Example late_success_closes_open_circuit :
  let cb := NewCircuitBreaker dflt in
  let cb := (beforeCall 0 cb).2 in
  let cb := (beforeCall 0 cb).2 in
  let tripped := afterCall 1 (Some Canceled) cb in
  state tripped = StateOpen ∧ (beforeCall 2 tripped).1 ≠ None
  ∧ (beforeCall 2 (afterCall 2 None tripped)).1 = None.
Proof. vm_compute. repeat split; discriminate. Qed.
