(* ===== verification/DeployModel.v ===== *)
(** * Deployments and their executions: data

    The rows of the control plane
    (packages/application/controlplane/deployment/model.go) and of the deployer
    (packages/application/deploy/model/model.go), and the database that holds
    them.  Identifiers are taken to be valid UUID texts, apart from the empty
    string where the code passes one; JSON documents are their texts, and the
    class [Jsonb] has what the code does with them.

    Beside the tables the state has the cancellation registry of the deployer
    process (deployment to cancel function), the world outside the database
    (clock, container runtime, scheduler, image registry) and the trace of the
    requests made to that world; changing these sends no statement. *)

From S2P Require Import Prelude Errors Postgres.

(** [json.Marshal] of a map, from its entries, and [jsonb || jsonb] of Postgres. *)
Class Jsonb := {
  json_object : list (string * value) → string;
  jsonb_merge : string → string → string;
}.

(** A UUID parameter that may be null. *)
Definition uuid_or_null (id : option string) : bool :=
  match id with Some s => negb (s =s? "") | None => true end.

(** ** The control plane's deployments *)

Abbreviation Status := string.
Definition StatusPending : Status := "pending".
Definition StatusQueued : Status := "queued".
Definition StatusBuilding : Status := "building".
Definition StatusBuilt : Status := "built".
Definition StatusScheduling : Status := "scheduling".
Definition StatusDeploying : Status := "deploying".
Definition StatusLive : Status := "live".
Definition StatusFailed : Status := "failed".
Definition StatusCancelled : Status := "cancelled".
Definition StatusRollingBack : Status := "rolling_back".
Definition StatusRolledBack : Status := "rolled_back".

Module Deployment.
Record t := mk {
  ID : string;
  OrgID : string;
  ProjectID : string;
  Status : Status;
  CommitSHA : string;
  CommitMessage : string;
  Branch : string;
  Author : string;
  ImageTag : string;
  Runtime : string;
  BuildDurationMs : option Z;
  DeployDurationMs : option Z;
  FailureReason : string;
  TriggerSource : string;
  TriggerUserID : option string;
  Environment : string;
  CorrelationID : string;
  Metadata : string;
  CreatedAt : Time;
  UpdatedAt : Time;
  StartedAt : option Time;
  FinishedAt : option Time;
}.
End Deployment.
Abbreviation Deployment := Deployment.t.

Module Event.
Record t := mk {
  ID : string;
  DeploymentID : string;
  Status : Status;
  Message : string;
  Metadata : string;
  CreatedAt : Time;
}.
End Event.
Abbreviation Event := Event.t.

Definition IsTerminal (d : Deployment) : bool :=
  let s := Deployment.Status d in
  (s =s? StatusLive) || (s =s? StatusFailed) || (s =s? StatusCancelled) || (s =s? StatusRolledBack).

Definition IsActive (d : Deployment) : bool :=
  negb (IsTerminal d) && negb (Deployment.Status d =s? StatusPending).

(** What a finished deploy or build reports. *)
Record DeployResult := {
  res_ImageTag : string; res_ImageDigest : string; res_DeployDurationMs : Z;
  res_Strategy : string; res_ContainerID : string; res_Metadata : option string;
}.

Record BuildResult := {
  built_ImageTag : string; built_ImageDigest : string; built_Runtime : string;
  built_Framework : string; built_DurationMs : Z; built_Metadata : option string;
}.

(** ** The deployer's executions *)

Abbreviation ExecutionStatus := string.
Definition ExecQueued : ExecutionStatus := "queued".
Definition ExecRunning : ExecutionStatus := "running".
Definition ExecSucceeded : ExecutionStatus := "succeeded".
Definition ExecFailed : ExecutionStatus := "failed".
Definition ExecCancelled : ExecutionStatus := "cancelled".

Abbreviation Phase := string.
Definition PhasePending : Phase := "pending".
Definition PhaseQueued : Phase := "queued".
Definition PhaseScheduling : Phase := "scheduling".
Definition PhaseResourcesReserved : Phase := "resources_reserved".
Definition PhasePreparingRuntime : Phase := "preparing_runtime".
Definition PhasePullingImage : Phase := "pulling_image".
Definition PhaseCreatingContainer : Phase := "creating_container".
Definition PhaseWaitingHealth : Phase := "waiting_for_health".
Definition PhaseSwitchingTraffic : Phase := "switching_traffic".
Definition PhaseComplete : Phase := "deployment_complete".
Definition PhaseCleanup : Phase := "cleanup".
Definition PhaseFailed : Phase := "deployment_failed".
Definition PhaseCancelled : Phase := "cancelled".

Definition StrategyRolling := "rolling".
Definition StrategyBlueGreen := "blue_green".
Definition StrategyCanary := "canary".
Definition StrategyPreview := "preview".
Definition StrategyImmediate := "immediate".

Module Execution.
Record t := mk {
  ID : string;
  OrgID : string;
  ProjectID : string;
  DeploymentID : string;
  JobID : option string;
  Status : ExecutionStatus;
  Phase : Phase;
  Strategy : string;
  Environment : string;
  ImageTag : string;
  ImageDigest : string;
  BuildID : option string;
  ContainerID : string;
  Host : string;
  Port : Z;
  CorrelationID : string;
  WorkerID : string;
  FailureReason : string;
  RollbackOf : option string;
  StartedAt : option Time;
  FinishedAt : option Time;
  DeployDurationMs : option Z;
  Metadata : string;
  CreatedAt : Time;
  UpdatedAt : Time;
}.
End Execution.
Abbreviation Execution := Execution.t.

Module ContainerRecord.
Record t := mk {
  ID : string;
  ExecutionID : string;
  DeploymentID : string;
  ContainerID : string;
  Image : string;
  Host : string;
  Port : Z;
  Status : string;
  Role : string;
  CreatedAt : Time;
  StoppedAt : option Time;
  RemovedAt : option Time;
}.
End ContainerRecord.
Abbreviation ContainerRecord := ContainerRecord.t.

Module HealthRecord.
Record t := mk {
  ID : string;
  ExecutionID : string;
  DeploymentID : string;
  CheckType : string;
  Success : bool;
  LatencyMs : Z;
  Message : string;
  CreatedAt : Time;
}.
End HealthRecord.
Abbreviation HealthRecord := HealthRecord.t.

Module PhaseTransition.
Record t := mk {
  ID : string;
  ExecutionID : string;
  DeploymentID : string;
  FromPhase : string;
  ToPhase : string;
  Message : string;
  Metadata : string;
  CreatedAt : Time;
}.
End PhaseTransition.
Abbreviation PhaseTransition := PhaseTransition.t.

Module DeployEvent.
Record t := mk {
  ID : string;
  ExecutionID : string;
  DeploymentID : string;
  OrgID : string;
  ProjectID : string;
  EventType : string;
  CorrelationID : string;
  Metadata : string;
  CreatedAt : Time;
}.
End DeployEvent.
Abbreviation DeployEvent := DeployEvent.t.

Module RuntimeConfig.
Record t := mk {
  Image : string;
  Env : gmap string string;
  Secrets : gmap string string;
  Labels : gmap string string;
  Annotations : gmap string string;
  Port : Z;
  Network : string;
  HostPort : Z;
}.
End RuntimeConfig.
Abbreviation RuntimeConfig := RuntimeConfig.t.

(** The columns the deployer reads of a build artifact. *)
Record Artifact := {
  art_BuildID : string; art_DeploymentID : string; art_ImageDigest : string; art_ImageTag : string;
}.

(** ** Projects (packages/application/controlplane/project/model.go) *)

Module Project.
Definition StatusActive := "active".
Definition StatusArchived := "archived".
Definition StatusDeleted := "deleted".

Record t := mk {
  ID : string;
  OrgID : string;
  Name : string;
  Slug : string;
  Description : string;
  RepoURL : string;
  RepoProvider : string;
  Branch : string;
  DefaultRuntime : string;
  Framework : string;
  BuildMethod : string;
  Region : string;
  SleepConfig : string;
  Visibility : string;
  Status : string;
  Labels : string;
  Tags : list string;
  Metadata : string;
  CreatedBy : string;
  CreatedAt : Time;
  UpdatedAt : Time;
  ArchivedAt : option Time;
  DeletedAt : option Time;
}.

(** [DeletedAt == nil]; the repository's [deleted_at IS NULL] *)
Definition kept (p : t) : bool := match DeletedAt p with None => true | Some _ => false end.

Definition IsLive (p : t) : bool := (Status p =s? StatusActive) && kept p.
End Project.
Abbreviation Project := Project.t.

(** ** The world outside *)

(** Requests, with what they answered where a theorem looks at it. *)
Inductive request :=
| RReserve (deploymentID : string) (placed : option (string * Z))
| RRelease (deploymentID : string)
| RPull (image : string) (ok : bool)
| RCreate (deploymentID image : string) (container : option string)
| RStart (container : string) (ok : bool)
| RStop (container : string)
| RRemove (container : string) (ok : bool)
| RCheck (host : string) (port : Z) (healthy : bool).

(** ** The database *)

Record deploydb (W : Type) := mkDb {
  deployments : list Deployment;
  timeline : list Event;
  artifacts : list Artifact;
  projects : list Project;
  executions : list Execution;
  transitions : list PhaseTransition;
  containers : list ContainerRecord;
  health_checks : list HealthRecord;
  devents : list DeployEvent;
  active : gmap string nat;
  outside : W;
  trace : list request;
}.
Arguments mkDb {W}.
Arguments deployments {W}.
Arguments timeline {W}.
Arguments artifacts {W}.
Arguments projects {W}.
Arguments executions {W}.
Arguments transitions {W}.
Arguments containers {W}.
Arguments health_checks {W}.
Arguments devents {W}.
Arguments active {W}.
Arguments outside {W}.
Arguments trace {W}.

Section setters.
Context {W : Type}.
Definition set_deployments (l : list Deployment) (st : deploydb W) : deploydb W :=
  mkDb l (timeline st) (artifacts st) (projects st) (executions st) (transitions st) (containers st)
    (health_checks st) (devents st) (active st) (outside st) (trace st).
Definition set_timeline (l : list Event) (st : deploydb W) : deploydb W :=
  mkDb (deployments st) l (artifacts st) (projects st) (executions st) (transitions st) (containers
    st) (health_checks st) (devents st) (active st) (outside st) (trace st).
Definition set_executions (l : list Execution) (st : deploydb W) : deploydb W :=
  mkDb (deployments st) (timeline st) (artifacts st) (projects st) l (transitions st) (containers
    st) (health_checks st) (devents st) (active st) (outside st) (trace st).
Definition set_transitions (l : list PhaseTransition) (st : deploydb W) : deploydb W :=
  mkDb (deployments st) (timeline st) (artifacts st) (projects st) (executions st) l (containers st)
    (health_checks st) (devents st) (active st) (outside st) (trace st).
Definition set_containers (l : list ContainerRecord) (st : deploydb W) : deploydb W :=
  mkDb (deployments st) (timeline st) (artifacts st) (projects st) (executions st) (transitions st)
    l (health_checks st) (devents st) (active st) (outside st) (trace st).
Definition set_health_checks (l : list HealthRecord) (st : deploydb W) : deploydb W :=
  mkDb (deployments st) (timeline st) (artifacts st) (projects st) (executions st) (transitions st)
    (containers st) l (devents st) (active st) (outside st) (trace st).
Definition set_devents (l : list DeployEvent) (st : deploydb W) : deploydb W :=
  mkDb (deployments st) (timeline st) (artifacts st) (projects st) (executions st) (transitions st)
    (containers st) (health_checks st) l (active st) (outside st) (trace st).
Definition set_active (l : gmap string nat) (st : deploydb W) : deploydb W :=
  mkDb (deployments st) (timeline st) (artifacts st) (projects st) (executions st) (transitions st)
    (containers st) (health_checks st) (devents st) l (outside st) (trace st).
Definition set_world (w : W) (l : list request) (st : deploydb W) : deploydb W :=
  mkDb (deployments st) (timeline st) (artifacts st) (projects st) (executions st) (transitions st)
    (containers st) (health_checks st) (devents st) (active st) w l.
End setters.
