(* ===== verification/Rows.v ===== *)
(** * Statements on tables

    What the repositories of several components share: a statement on one table
    of a state ([stmt]), UUID parameters, the errors of constraints, the usual
    statements on rows with an identifier, and the readings of a world that is
    part of the state ([draw]). *)

From S2P Require Import Prelude Errors Postgres Sql DeployModel.

(** ** The world outside the database

    The clock and the identifiers every service draws; reading the clock may
    move the world on. *)
Class Environment (W : Type) := {
  read_clock : W → Time * W;
  fresh_id : W → string * W;
}.

(** A clock that does not go back: every reading lies between the instant of the
    world it is made in and the instant of the world it leaves, and time does not
    go back while an identifier is drawn. *)
Class ClockLaws (W : Type) `{En : Environment W} := {
  instant : W → Time;
  read_between w : instant w ≤ (read_clock w).1 ≤ instant (read_clock w).2;
  fresh_later w : instant w ≤ instant (fresh_id w).2;
}.

(** A reading of the world that is the part [l] of the state. *)
Definition draw {S W A} (l : Lens S W) (op : W → A * W) : db S A := λ '(s, fs),
  let '(a, w) := op (view l s) in (Ok a, (put l w s, fs)).

(** A transaction: the world [l] does not go back when the tables do. *)
Definition Transact_in {S W A} (l : Lens S W) (fn : db S A) : db S A := λ '(s, fs),
  match fs with
  | Some _ :: _ => Transact fn (s, fs)
  | _ => let '(r, (s', fs')) := Transact fn (s, fs) in
         (r, (match r with Ok _ => s' | Err _ => put l (view l (fn (s, tail fs)).2.1) s' end, fs'))
  end.

(** ** Statements *)

Definition duplicate_key : error := PgError sqlStateUniqueViolation "duplicate key".
Definition foreign_key : error := PgError sqlStateForeignKeyViolation "foreign key".

(** One statement on a table; [f] may look at the others. *)
Definition stmt {S T A} (l : Lens S T) (f : S → T → result error A * T) : db S A :=
  query (λ s, let '(r, t) := f s (view l s) in (r, put l t s)).

(** [QueryRow] of the first row that matches. *)
Definition select_row {R} (p : R → bool) (t : list R) : result error R * list R :=
  match select p t with r :: _ => (Ok r, t) | [] => (Err ErrNoRows, t) end.

(** [INSERT] of a row with a primary key. *)
Definition insert_row {R} (id_of : R → string) (row : R) (t : list R) : result error R * list R :=
  if matched (λ r, id_of r =s? id_of row) t =? 0 then (Ok row, t ++ [row]) else (Err duplicate_key, t).

(** [UPDATE .. WHERE id=$1] *)
Definition update_row {R} (id_of : R → string) (id : string) (f : R → R) (t : list R)
    : result error unit * list R :=
  with_uuids [id] (λ t, (Ok tt, update_where (λ r, id_of r =s? id) f t)) t.

(** An INSERT: the primary key and the unique indexes, then the references. *)
Definition insert_checked {R} (id_of : R → string) (clash : R → R → bool) (refs : bool) (row : R) (t : list R)
    : result error R * list R :=
  if existsb (λ r, (id_of r =s? id_of row) || clash row r) t then (Err duplicate_key, t)
  else if refs then (Ok row, t ++ [row]) else (Err foreign_key, t).

Definition update_rows {R} (p : R → bool) (f : R → R) (t : list R) : result error Z * list R :=
  (Ok (matched p t), update_where p f t).

(** UPDATE .. RETURNING and SELECT read with [QueryRow]. *)
Definition update_returning {R} (p : R → bool) (f : R → R) (t : list R) : result error R * list R :=
  match select p t with r :: _ => (Ok (f r), update_where p f t) | [] => (Err ErrNoRows, t) end.

(** An UPDATE or DELETE by [Exec] that must find its row. *)
Definition found {S} (message : string) (n : Z) : db S unit :=
  if n =? 0 then fail_with (NotFound message) else mret tt.

(** The value is dropped, the error is not. *)
Definition done_ {S A} (m : db S A) : db S unit := _ ← m; mret tt.

(** A statement of the generic repository with UUID parameters. *)
Definition uuid_args `{D : Driver} {S A} (message : string) (ids : list string) (m : db S A) : db S A :=
  if forallb (λ id, negb (id =s? "")) ids then m else translate message (query (λ s, (Err invalid_uuid, s))).

(** ** Lemmas *)

Lemma wp_stmt {S T A} (l : Lens S T) (f : S → T → result error A * T) Q E s :
  (∀ e, E e s) →
  match f s (view l s) with (Ok a, t) => Q a (put l t s) | (Err e, t) => E e (put l t s) end →
  wp (stmt l f) Q E s.
Proof.
  intros He Hq. apply wp_query; [done|]. by destruct (f s (view l s)) as [[a|e] t].
Qed.

Lemma wp_draw {S W A} (l : Lens S W) (op : W → A * W) (Q : A → S → Prop) E s :
  (∀ a w, Q a (put l w s)) → wp (draw l op) Q E s.
Proof. intros H fs. unfold draw. destruct (op (view l s)) as [a w]. apply H. Qed.

Lemma wp_read_clock {S W} `{CL : ClockLaws W} (l : Lens S W) (Q : Time → S → Prop) E s :
  (∀ t w, instant (view l s) ≤ t ≤ instant w → Q t (put l w s)) → wp (draw l read_clock) Q E s.
Proof.
  intros H fs. unfold draw. pose proof (read_between (view l s)) as Hr. destruct (read_clock (view l s)) as [t w].
  by apply H.
Qed.

Lemma wp_Transact_in {S W A} (l : Lens S W) (m : db S A) (Q : A → S → Prop) E s :
  (∀ e w, E e (put l w s)) → wp m Q (λ _ _, True) s → wp (Transact_in l m) Q E s.
Proof.
  intros He Hm fs.
  assert (∀ e, E e s) as He' by (intros e; rewrite <- (put_view l s); apply He).
  pose proof (wp_Transact m Q (λ e s', s' = s ∧ E e s) s (λ e, conj eq_refl (He' e))) as Ht.
  specialize (Ht ltac:(eapply wp_mono; [exact Hm|done|done]) fs).
  unfold Transact_in. destruct fs as [|[f|] fs]; destruct (Transact _ _) as [[a|e] [s' fs']]; cbn; try done;
    by destruct Ht as [-> ?].
Qed.

Lemma preserves_stmt {S T A} (I : S → Prop) (l : Lens S T) (f : S → T → result error A * T) :
  (∀ s, I s → I (put l (f s (view l s)).2 s)) → preserves I (stmt l f).
Proof.
  intros H. apply preserves_query. intros s Hs. specialize (H s Hs).
  by destruct (f s (view l s)).
Qed.

Lemma preserves_draw {S W A} (I : S → Prop) (l : Lens S W) (op : W → A * W) :
  (∀ s w, I s → I (put l w s)) → preserves I (draw l op).
Proof. intros HI s fs Hs. unfold tables_of, draw. destruct (op (view l s)). by apply HI. Qed.

Lemma preserves_of_result {S A} (I : S → Prop) (r : result error A) : preserves I (of_result r).
Proof. by intros s fs Hs. Qed.

Lemma preserves_Transact_in {S W A} (I : S → Prop) (l : Lens S W) (m : db S A) :
  (∀ s w, I s → I (put l w s)) → preserves I m → preserves I (Transact_in l m).
Proof.
  intros HI Hm s fs Hs. pose proof (preserves_Transact I m Hm s fs Hs) as Ht.
  unfold Transact_in, tables_of in *. destruct fs as [|[e|] fs]; [|done|];
    destruct (Transact m _) as [[a|e] [s' fs']]; cbn in *; try done; by apply HI.
Qed.

(** Rows that a change takes out of a selection. *)
Lemma select_after_bury {R} (p q : R → bool) f t :
  (∀ u, q u = true → p u = true) → (∀ u, p u = true → q (f u) = false) → select q (update_where p f t) = [].
Proof.
  intros Hq Hf. apply select_none. intros u (v & _ & ->)%elem_of_update_where.
  destruct (p v) eqn:E; [by apply Hf|]. destruct (q v) eqn:Eq; [|done]. apply Hq in Eq. congruence.
Qed.

Section rows.
Context {R : Type} (id_of : R → string).
Implicit Types (t : list R) (r : R).

Lemma insert_row_elim row t (P : result error R * list R → Prop) :
  (∀ e, P (Err e, t)) → ((∀ r, r ∈ t → id_of r ≠ id_of row) → P (Ok row, t ++ [row])) →
  P (insert_row id_of row t).
Proof.
  intros He Hi. unfold insert_row. destruct (Z.eqb_spec (matched (λ r, id_of r =s? id_of row) t) 0) as [E|]; [|done].
  apply Hi. intros r Hr. apply String.eqb_neq. by apply (proj1 (matched_zero _ _) E).
Qed.

Lemma update_row_elim id f t (P : result error unit * list R → Prop) :
  P (Err invalid_uuid, t) → P (Ok tt, update_where (λ r, id_of r =s? id) f t) → P (update_row id_of id f t).
Proof. intros He Hu. unfold update_row. by apply wp_with_uuids. Qed.

Lemma select_row_elim (p : R → bool) t (P : result error R * list R → Prop) :
  (∀ e, P (Err e, t)) → (∀ r, r ∈ t → p r = true → P (Ok r, t)) → P (select_row p t).
Proof.
  intros He Hr. unfold select_row. destruct (select p t) as [|r l] eqn:E; [done|].
  assert (r ∈ select p t) as []%elem_of_select by (rewrite E; by left). auto.
Qed.
End rows.
