(* ===== verification/Repository.v ===== *)
(** * The generic repository (packages/platform/repository)

    Its two sides: the text of the statements it sends, with their arguments
    ([Statement]), and what those statements do to a table ([Table]), which the
    repositories of users and organizations use.  A condition is in the second
    half the predicate it means, a map of values the change it makes to a row.
    The bulk operations are modelled as texts. *)

From Stdlib Require Import Ascii.
From stdpp Require Import pretty.
From S2P Require Import Prelude GoLib Errors Postgres Sql DeployModel Rows.

Abbreviation Itoa := (pretty (A := Z)).

(** [strings.Join], [strings.Repeat], [strings.TrimSuffix] *)
Fixpoint join (sep : string) (l : list string) : string :=
  match l with
  | [] => ""
  | [s] => s
  | s :: l => s +:+ sep +:+ join sep l
  end.

Fixpoint repeat_text (s : string) (n : nat) : string :=
  match n with O => "" | S n => s +:+ repeat_text s n end.

Definition HasSuffix (s p : string) : bool :=
  (String.length p <=? String.length s)%nat && (drop_bytes (String.length s - String.length p) s =s? p).

Definition TrimSuffix (s p : string) : string :=
  if HasSuffix s p then take_bytes (String.length s - String.length p) s else s.

(** ** Conditions (condition.go) *)

Record Condition (V : Type) := mkCondition { clause : string; args : list V }.
Arguments mkCondition {V}.
Arguments clause {V}.
Arguments args {V}.

(** A statement and its arguments. *)
Abbreviation Statement V := (string * list V)%type.

Section text.
Context {V : Type} `{So : Sorter}.
Implicit Types (c : Condition V) (values : gmap string V).

Definition Raw (text : string) (args : list V) : Condition V := mkCondition text args.
Definition Eq (col : string) (val : V) : Condition V := mkCondition (col +:+ " = ?") [val].
Definition Neq (col : string) (val : V) : Condition V := mkCondition (col +:+ " <> ?") [val].
Definition Gt (col : string) (val : V) : Condition V := mkCondition (col +:+ " > ?") [val].
Definition Lt (col : string) (val : V) : Condition V := mkCondition (col +:+ " < ?") [val].

Definition In_ (col : string) (vals : list V) : Condition V :=
  match vals with
  | [] => mkCondition "FALSE" []
  | _ => let ph := TrimSuffix (repeat_text "?, " (length vals)) ", " in
         mkCondition (col +:+ " IN (" +:+ ph +:+ ")") vals
  end.

Definition empty_condition c : bool := blank (clause c).

Definition combine (op : string) (conds : list (Condition V)) : Condition V :=
  let conds := filter (λ c, empty_condition c = false) conds in
  match conds with
  | [] => mkCondition "" []
  | _ => mkCondition (join (" " +:+ op +:+ " ") ((λ c, "(" +:+ clause c +:+ ")") <$> conds)) (conds ≫= args)
  end.

Definition And (conds : list (Condition V)) : Condition V := combine "AND" conds.
Definition Or (conds : list (Condition V)) : Condition V := combine "OR" conds.

(** The loop of [build]: question marks become numbered parameters. *)
Fixpoint number (n : Z) (s : string) : string :=
  match s with
  | EmptyString => ""
  | String a s => if bool_decide (a = "?"%char) then "$" +:+ Itoa n +:+ number (n + 1) s else String a (number n s)
  end.

Definition build c (start : Z) : Statement V :=
  if empty_condition c then ("", []) else (number start (clause c), args c).

(** ** Statements (repository.go, pagination.go, bulk.go) *)

Record RepoConfig := {
  table : string; pk : string; columns : string; softDeleteCol : string; versionCol : string;
}.

Definition liveClause (r : RepoConfig) : string :=
  if softDeleteCol r =s? "" then "" else softDeleteCol r +:+ " IS NULL".

Definition withLive (r : RepoConfig) c : Condition V :=
  let live := liveClause r in
  if live =s? "" then c
  else if empty_condition c then Raw live [] else And [c; Raw live []].

Definition where_clause (where_ : string) : string := if where_ =s? "" then "" else " WHERE " +:+ where_.

Definition sorted_values values : list (string * V) :=
  sort_slice (λ x y, String.ltb x.1 y.1) (map_to_list values).

(** [parts[i] = f(cols[i], "$" + strconv.Itoa(offset+i+1))] *)
Fixpoint numbered (f : string → string → string) (n : Z) (cols : list string) : list string :=
  match cols with
  | [] => []
  | c :: cols => f c ("$" +:+ Itoa n) :: numbered f (n + 1) cols
  end.

Definition splitValues values (offset : Z) : list string * list string * list V :=
  let kvs := sorted_values values in
  (kvs.*1, numbered (λ _ p, p) (offset + 1) kvs.*1, kvs.*2).

Definition buildSet values (offset : Z) : Statement V :=
  let kvs := sorted_values values in
  (join ", " (numbered (λ col p, col +:+ " = " +:+ p) (offset + 1) kvs.*1), kvs.*2).

Definition zlength {A} (l : list A) : Z := Z.of_nat (length l).

Definition get_by_id_sql (r : RepoConfig) (id : V) : Statement V :=
  let cond := Eq (pk r) id in
  let cond := if liveClause r =s? "" then cond else And [cond; Raw (liveClause r) []] in
  let w := build cond 1 in
  ("SELECT " +:+ columns r +:+ " FROM " +:+ table r +:+ " WHERE " +:+ w.1 +:+ " LIMIT 1", w.2).

Definition find_sql (r : RepoConfig) c (orderBy : string) : Statement V :=
  let w := build (withLive r c) 1 in
  ("SELECT " +:+ columns r +:+ " FROM " +:+ table r +:+ where_clause w.1
   +:+ (if orderBy =s? "" then "" else " ORDER BY " +:+ orderBy), w.2).

Definition count_sql (r : RepoConfig) c : Statement V :=
  let w := build (withLive r c) 1 in
  ("SELECT count(*) FROM " +:+ table r +:+ where_clause w.1, w.2).

Definition exists_sql (r : RepoConfig) c : Statement V :=
  let w := build (withLive r c) 1 in
  ("SELECT EXISTS(SELECT 1 FROM " +:+ table r +:+ where_clause w.1 +:+ ")", w.2).

Definition insert_sql (r : RepoConfig) values : Statement V :=
  let '(cols, placeholders, args) := splitValues values 0 in
  ("INSERT INTO " +:+ table r +:+ " (" +:+ join ", " cols +:+ ") VALUES (" +:+ join ", " placeholders
   +:+ ") RETURNING " +:+ columns r, args).

Definition and_live (r : RepoConfig) : string := if liveClause r =s? "" then "" else " AND " +:+ liveClause r.

Definition update_sql (r : RepoConfig) (id : V) values : Statement V :=
  let s := buildSet values 0 in
  let next := zlength s.2 + 1 in
  ("UPDATE " +:+ table r +:+ " SET " +:+ s.1 +:+ " WHERE " +:+ pk r +:+ " = $" +:+ Itoa next
   +:+ and_live r +:+ " RETURNING " +:+ columns r, s.2 ++ [id]).

Definition update_optimistic_sql (r : RepoConfig) (id version : V) values : Statement V :=
  let s := buildSet values 0 in
  let next := zlength s.2 + 1 in
  ("UPDATE " +:+ table r +:+ " SET " +:+ s.1 +:+ ", " +:+ versionCol r +:+ " = " +:+ versionCol r +:+ " + 1"
   +:+ " WHERE " +:+ pk r +:+ " = $" +:+ Itoa next +:+ " AND " +:+ versionCol r +:+ " = $" +:+ Itoa (next + 1)
   +:+ and_live r +:+ " RETURNING " +:+ columns r, s.2 ++ [id; version]).

Definition paginate_sql (r : RepoConfig) c (orderBy : string) (limit offset : V) : Statement V :=
  let w := build (withLive r c) 1 in
  let limitPos := zlength w.2 + 1 in
  ("SELECT " +:+ columns r +:+ " FROM " +:+ table r +:+ where_clause w.1
   +:+ (if orderBy =s? "" then "" else " ORDER BY " +:+ orderBy)
   +:+ " LIMIT $" +:+ Itoa limitPos +:+ " OFFSET $" +:+ Itoa (limitPos + 1), w.2 ++ [limit; offset]).

(** [After] is [None] for nil and the empty text. *)
Definition cursor_sql (r : RepoConfig) c (column : string) (after : option V) (limit : V) (descending : bool)
    : Statement V :=
  let op := if descending then "<" else ">" in
  let order := if descending then "DESC" else "ASC" in
  let c := match after with Some v => And [c; Raw (column +:+ " " +:+ op +:+ " ?") [v]] | None => c end in
  let w := build (withLive r c) 1 in
  ("SELECT " +:+ columns r +:+ " FROM " +:+ table r +:+ where_clause w.1 +:+ " ORDER BY " +:+ column +:+ " "
   +:+ order +:+ " LIMIT $" +:+ Itoa (zlength w.2 + 1), w.2 ++ [limit]).

Definition bulk_update_sql (r : RepoConfig) (ids : list V) values : Statement V :=
  let s := buildSet values 0 in
  let w := build (In_ (pk r) ids) (zlength s.2 + 1) in
  ("UPDATE " +:+ table r +:+ " SET " +:+ s.1 +:+ " WHERE " +:+ w.1 +:+ and_live r, s.2 ++ w.2).

(** The rows of a VALUES list, numbered on from [pos]. *)
Fixpoint value_rows (columns : list string) (pos : Z) (n : nat) : list string :=
  match n with
  | O => []
  | S n => ("(" +:+ join ", " (numbered (λ _ p, p) pos columns) +:+ ")")
             :: value_rows columns (pos + zlength columns) n
  end.

(** Each row must have as many values as there are columns. *)
Definition bulk_upsert_sql (r : RepoConfig) (cols : list string) (rows : list (list V))
    (conflictTarget : string) (updateColumns : list string) : Statement V :=
  ("INSERT INTO " +:+ table r +:+ " (" +:+ join ", " cols +:+ ") VALUES " +:+ join ", " (value_rows cols 1 (length rows))
   +:+ " ON CONFLICT " +:+ conflictTarget
   +:+ match updateColumns with
       | [] => " DO NOTHING"
       | _ => " DO UPDATE SET " +:+ join ", " ((λ col, col +:+ " = EXCLUDED." +:+ col) <$> updateColumns)
       end, rows ≫= take (length cols)).
End text.

(** ** What the statements do

    [fetch] is LIMIT and OFFSET; [Page] and [CursorPage] are the results. *)

(** A table: its key, its soft-delete and version columns ([None] where the
    repository has none) and the constraints of its schema. *)
Record Table (S R : Type) := mkTable {
  row_id : R → string;
  deleted_at : option (R → option Time);
  bury : Time → R → R;
  version : option (R → Z);
  bump : R → R;
  conflicts : R → R → bool;
  referenced : S → R → bool;
}.
Arguments row_id {S R}.
Arguments deleted_at {S R}.
Arguments bury {S R}.
Arguments version {S R}.
Arguments bump {S R}.
Arguments conflicts {S R}.
Arguments referenced {S R}.

Module Page.
Record t (R : Type) := mk { Items : list R; Total : Z; Page : Z; PageSize : Z; TotalPages : Z }.
Arguments mk {R}.
Arguments Items {R}.
Arguments Total {R}.
Arguments Page {R}.
Arguments PageSize {R}.
Arguments TotalPages {R}.
End Page.

Module PageParams.
Record t (R : Type) := mk { Page : Z; PageSize : Z; OrderBy : option (R → R → bool) }.
Arguments mk {R}.
Arguments Page {R}.
Arguments PageSize {R}.
Arguments OrderBy {R}.

Definition offset {R} (p : t R) : Z := wrap64 (wrap64 (Page p - 1) * PageSize p).
End PageParams.

Module CursorPage.
Record t (R : Type) := mk { Items : list R; NextCursor : string; HasMore : bool }.
Arguments mk {R}.
Arguments Items {R}.
Arguments NextCursor {R}.
Arguments HasMore {R}.
End CursorPage.

Definition ErrOptimisticLock : Error := WithRetryable (New CodeConflict "repository: optimistic lock conflict") true.

(** pgx.ErrTooManyRows *)
Definition too_many_rows : error := Plain "too many rows in result set".

Section table.
Context {S R : Type} `{D : Driver} `{So : Sorter} (T : Table S R) (l : Lens S (list R)).
Implicit Types (p : R → bool) (f : R → R) (t : list R) (less : option (R → R → bool)).

Definition live (r : R) : bool :=
  match deleted_at T with Some d => match d r with None => true | Some _ => false end | None => true end.

Definition is_row (id : string) (r : R) : bool := row_id T r =s? id.

(** [pgx.CollectExactlyOneRow] *)
Definition exactly_one t : result error R :=
  match t with [] => Err ErrNoRows | [r] => Ok r | _ => Err too_many_rows end.

(** Rows in the order of an ORDER BY, if there is one. *)
Definition ordered less t : list R := match less with Some less => sort_slice less t | None => t end.

Definition get_by_id (id : string) : list R → result error R * list R :=
  with_uuids [id] (λ t, (exactly_one (take 1 (select (λ r, is_row id r && live r) t)), t)).

Definition GetByID (id : string) : db S R :=
  translate "repository: get by id" (stmt l (λ _, get_by_id id)).

Definition Find (p : R → bool) less : db S (list R) :=
  translate "repository: find" (stmt l (λ _ t, (Ok (ordered less (select (λ r, p r && live r) t)), t))).

Definition Count (p : R → bool) : db S Z :=
  translate "repository: count" (stmt l (λ _ t, (Ok (matched (λ r, p r && live r) t), t))).

Definition Exists_ (p : R → bool) : db S bool :=
  translate "repository: exists" (stmt l (λ _ t, (Ok (existsb (λ r, p r && live r) t), t))).

Definition insert (s : S) (row : R) t : result error R * list R :=
  if existsb (λ r, is_row (row_id T row) r || conflicts T row r) t then (Err duplicate_key, t)
  else if referenced T s row then (Ok row, t ++ [row]) else (Err foreign_key, t).

Definition Insert (row : R) : db S R := translate "repository: insert" (stmt l (λ s, insert s row)).

(** An UPDATE of rows that keeps their key, with its RETURNING list. *)
Definition returning (s : S) p f t : result error (list R) * list R :=
  let new := f <$> select p t in
  let others := delete_where p t in
  if existsb (λ r, existsb (conflicts T r) others) new then (Err duplicate_key, t)
  else if forallb (referenced T s) new then (Ok new, update_where p f t) else (Err foreign_key, t).

Definition update_one (s : S) p f t : result error R * list R :=
  match returning s p f t with
  | (Ok new, t') => (exactly_one new, t')
  | (Err e, t') => (Err e, t')
  end.

Definition Update (id : string) f : db S R :=
  translate "repository: update" (stmt l (λ s, with_uuids [id] (update_one s (λ r, is_row id r && live r) f))).

Definition UpdateOptimistic (id : string) (expectedVersion : Z) f : db S R :=
  match version T with
  | None => fail_with (New CodeInternal "repository: optimistic lock not configured")
  | Some v =>
      on_error (λ e, if IsCode (Translate (Some e) "") CodeNotFound then Platform ErrOptimisticLock
                     else default e (Translate (Some e) "repository: update optimistic"))
        (stmt l (λ s, with_uuids [id] (update_one s (λ r, is_row id r && (v r =? expectedVersion) && live r)
           (λ r, bump T (f r)))))
  end.

Definition Delete (id : string) : db S bool :=
  translate "repository: delete" (stmt l (λ _, with_uuids [id] (λ t,
    (Ok (0 <? matched (is_row id) t), delete_where (is_row id) t)))).

(** [now()] is the reading the caller made. *)
Definition SoftDelete (id : string) (now : Time) : db S bool :=
  match deleted_at T with
  | None => fail_with (New CodeInternal "repository: soft delete not configured")
  | Some _ =>
      translate "repository: soft delete" (stmt l (λ _, with_uuids [id] (λ t,
        (Ok (0 <? matched (λ r, is_row id r && live r) t),
         update_where (λ r, is_row id r && live r) (bury T now) t))))
  end.

Definition negative_offset : error := PgError "2201X" "OFFSET must not be negative".

Definition fetch (limit offset : Z) t : result error (list R) :=
  if offset <? 0 then Err negative_offset else limit_rows limit (drop (Z.to_nat offset) t).

Definition Paginate (p : R → bool) (params : PageParams.t R) : db S (Page.t R) :=
  total ← Count p;
  items ← translate "repository: paginate" (stmt l (λ _ t,
    (fetch (PageParams.PageSize params) (PageParams.offset params)
       (ordered (PageParams.OrderBy params) (select (λ r, p r && live r) t)), t)));
  mret (Page.mk items total (PageParams.Page params) (PageParams.PageSize params)
    (if 0 <? PageParams.PageSize params
     then Z.quot (wrap64 (wrap64 (total + PageParams.PageSize params) - 1)) (PageParams.PageSize params) else 0)).

(** A slice bound or an index out of range, for limits below 1. *)
Definition panicked : error := Plain "runtime error".

(** The column of a cursor: a text, compared bytewise.  [After] is empty or nil
    on the first page. *)
Definition follows (descending : bool) (column : R → string) (after : string) (r : R) : bool :=
  (after =s? "") || (if descending then String.ltb (column r) after else String.ltb after (column r)).

Definition column_order (descending : bool) (column : R → string) : R → R → bool :=
  λ x y, if descending then String.ltb (column y) (column x) else String.ltb (column x) (column y).

Definition PaginateCursor (p : R → bool) (column : R → string) (after : string) (limit : Z) (descending : bool)
    (nextCursor : option (R → string)) : db S (CursorPage.t R) :=
  items ← translate "repository: cursor paginate" (stmt l (λ _ t,
    (limit_rows (wrap64 (limit + 1)) (sort_slice (column_order descending column)
       (select (λ r, p r && follows descending column after r && live r) t)), t)));
  if negb (limit <? Z.of_nat (length items)) then mret (CursorPage.mk items "" false)
  else if limit <? 0 then fail panicked
  else let page := take (Z.to_nat limit) items in
    match nextCursor with
    | None => mret (CursorPage.mk page "" true)
    | Some f => match last page with Some r => mret (CursorPage.mk page (f r) true) | None => fail panicked end
    end.
End table.
