(* ===== verification/RepositoryFacts.v ===== *)
(** * The parameters of the generic repository's statements

    Every statement has its parameters numbered from 1 in the order of its
    arguments, as many as there are arguments. *)

From Stdlib Require Import Ascii.
From stdpp Require Import pretty.
From S2P Require Import Prelude GoLib Errors Postgres Sql DeployModel Rows Repository.

(** ** The parameters of a text *)

Fixpoint leading_digits (s : string) : string :=
  match s with
  | EmptyString => ""
  | String a s => if digit a then String a (leading_digits s) else ""
  end.

Fixpoint params (s : string) : list string :=
  match s with
  | EmptyString => []
  | String a s => if bool_decide (a = "$"%char) then leading_digits s :: params s else params s
  end.

(** The parameters are $1, $2, .. in the order of the arguments. *)
Definition numbered_ok {V} (st : Statement V) : Prop := params st.1 = Itoa <$> seqZ 1 (zlength st.2).

(** Texts of the program: no parameter and no placeholder in them. *)
Definition plain (s : string) : bool := all_bytes (λ a, bool_decide (a ≠ "$"%char) && bool_decide (a ≠ "?"%char)) s.

(** A clause: no parameter, and no digit behind a placeholder. *)
Fixpoint checked (s : string) : bool :=
  match s with
  | EmptyString => true
  | String a s => bool_decide (a ≠ "$"%char) && (bool_decide (a ≠ "?"%char) || plain_head s) && checked s
  end.

Fixpoint marks (s : string) : nat :=
  match s with
  | EmptyString => O
  | String a s => (if bool_decide (a = "?"%char) then 1 else 0) + marks s
  end.

(** What conditions are made of. *)
Definition condition_ok {V} (c : Condition V) : Prop :=
  checked (clause c) = true ∧ marks (clause c) = length (args c).

#[local] Arguments String.append !_ _ /.

Lemma params_plain s r : all_bytes (λ a, bool_decide (a ≠ "$"%char)) s = true → params (s +:+ r) = params r.
Proof.
  induction s as [|a s IH]; [done|]. cbn. intros [Ha Hs]%andb_true_iff. apply bool_decide_eq_true in Ha.
  rewrite bool_decide_eq_false_2 by done. auto.
Qed.

Lemma plain_no_dollar s : plain s = true → all_bytes (λ a, bool_decide (a ≠ "$"%char)) s = true.
Proof. apply all_bytes_weaken. intros a [? _]%andb_true_iff. done. Qed.

Lemma digits_no_dollar s : all_bytes digit s = true → all_bytes (λ a, bool_decide (a ≠ "$"%char)) s = true.
Proof.
  apply all_bytes_weaken. intros a Ha. apply bool_decide_eq_true. by intros ->.
Qed.

Lemma leading_digits_app u r : all_bytes digit u = true → plain_head r = true → leading_digits (u +:+ r) = u.
Proof.
  intros Hu Hr. induction u as [|a u IH]; cbn in *.
  - destruct r as [|a r]; [done|]. cbn in *. by destruct (digit a).
  - apply andb_true_iff in Hu as [-> Hu]. by rewrite IH.
Qed.

(** A parameter, and what follows. *)
Lemma params_param n r : 0 ≤ n → plain_head r = true → params ("$" +:+ Itoa n +:+ r) = Itoa n :: params r.
Proof.
  intros Hn Hr. pose proof (pretty_digits n Hn) as Hd. cbn.
  rewrite leading_digits_app by done. f_equal. apply params_plain. by apply digits_no_dollar.
Qed.

Lemma number_head n s r : plain_head s = true → plain_head r = true → plain_head (number n s +:+ r) = true.
Proof. destruct s as [|a s]; [done|]. cbn. intros Ha _. case_bool_decide; [done|]. done. Qed.

Lemma params_number n s r :
  checked s = true → plain_head r = true → 0 ≤ n →
  params (number n s +:+ r) = (Itoa <$> seqZ n (Z.of_nat (marks s))) ++ params r.
Proof.
  revert n. induction s as [|a s IH]; intros n Hs Hr Hn; [done|].
  cbn [number marks]. cbn [checked] in Hs. apply andb_true_iff in Hs as [[Ha Hq]%andb_true_iff Hs].
  apply bool_decide_eq_true in Ha. destruct (bool_decide_reflect (a = "?"%char)) as [->|Hne].
  - apply orb_true_iff in Hq as [Hq|Hq]; [by apply bool_decide_eq_true in Hq|].
    change (("$" +:+ Itoa n +:+ number (n + 1) s) +:+ r) with ("$" +:+ ((Itoa n +:+ number (n + 1) s) +:+ r)).
    rewrite app_assoc_s, params_param by (done || by apply number_head). rewrite IH by (done || lia).
    rewrite (seqZ_cons n) by lia. cbn [fmap list_fmap app]. do 3 f_equal. f_equal; lia.
  - change (String a (number n s) +:+ r) with (String a (number n s +:+ r)). cbn [params].
    rewrite bool_decide_eq_false_2 by done. rewrite IH by done. by rewrite Nat.add_0_l.
Qed.

(** ** Conditions *)

Lemma checked_app s1 s2 : checked s1 = true → checked s2 = true → plain_head s2 = true → checked (s1 +:+ s2) = true.
Proof.
  intros H1 H2 Hh. induction s1 as [|a s1 IH]; [done|]. cbn in *.
  apply andb_true_iff in H1 as [[-> Hq]%andb_true_iff H1]. rewrite IH by done. rewrite andb_true_r. cbn.
  apply orb_true_iff in Hq as [->|Hq]; [done|]. apply orb_true_iff. right. by destruct s1.
Qed.

Lemma plain_checked s : plain s = true → checked s = true.
Proof.
  induction s as [|a s IH]; [done|]. cbn. intros [[-> ->]%andb_true_iff Hs]%andb_true_iff. by rewrite IH.
Qed.

Lemma checked_plain s1 s2 : plain s1 = true → checked s2 = true → checked (s1 +:+ s2) = true.
Proof.
  intros H1 H2. induction s1 as [|a s1 IH]; [done|]. cbn in *.
  apply andb_true_iff in H1 as [[-> ->]%andb_true_iff H1]. by rewrite IH.
Qed.

Lemma marks_app s1 s2 : marks (s1 +:+ s2) = (marks s1 + marks s2)%nat.
Proof. induction s1 as [|a s1 IH]; [done|]. cbn. rewrite IH. lia. Qed.

Lemma plain_marks s : plain s = true → marks s = 0%nat.
Proof.
  induction s as [|a s IH]; [done|]. cbn. intros [[_ Ha]%andb_true_iff Hs]%andb_true_iff.
  apply bool_decide_eq_true in Ha. rewrite bool_decide_eq_false_2 by done. by rewrite IH.
Qed.

Lemma blank_marks s : blank s = true → marks s = 0%nat.
Proof.
  induction s as [|a s IH]; [done|]. cbn. intros [Ha Hs]%andb_true_iff. rewrite IH by done.
  rewrite bool_decide_eq_false_2; [done|]. by intros ->.
Qed.

Section conditions.
Context {V : Type}.
Implicit Types (c : Condition V).

Lemma one_placeholder col op (v : V) :
  plain col = true → checked op = true → plain_head op = true → marks op = 1%nat →
  condition_ok (mkCondition (col +:+ op) [v]).
Proof.
  intros Hc Ho Hh Hm. split; cbn [clause args].
  - apply checked_app; [by apply plain_checked|done..].
  - by rewrite marks_app, plain_marks, Hm.
Qed.

Lemma Eq_ok col (v : V) : plain col = true → condition_ok (Eq col v).
Proof. intros. by apply one_placeholder. Qed.
Lemma Neq_ok col (v : V) : plain col = true → condition_ok (Neq col v).
Proof. intros. by apply one_placeholder. Qed.
Lemma Gt_ok col (v : V) : plain col = true → condition_ok (Gt col v).
Proof. intros. by apply one_placeholder. Qed.
Lemma Lt_ok col (v : V) : plain col = true → condition_ok (Lt col v).
Proof. intros. by apply one_placeholder. Qed.

Lemma Raw_plain_ok s : plain s = true → condition_ok (Raw (V := V) s []).
Proof. intros. split; [by apply plain_checked|by apply plain_marks]. Qed.

Lemma TrimSuffix_app s p : TrimSuffix (s +:+ p) p = s.
Proof.
  unfold TrimSuffix, HasSuffix. rewrite length_app_s.
  replace (String.length s + String.length p - String.length p)%nat with (String.length s) by lia.
  rewrite drop_bytes_app, String.eqb_refl, take_bytes_app by done.
  by replace (String.length p <=? String.length s + String.length p)%nat with true by (symmetry; apply Nat.leb_le; lia).
Qed.

Lemma repeat_marks n :
  TrimSuffix (repeat_text "?, " (S n)) ", " = repeat_text "?, " n +:+ "?".
Proof.
  replace (repeat_text "?, " (S n)) with ((repeat_text "?, " n +:+ "?") +:+ ", "); [apply TrimSuffix_app|].
  induction n as [|n IH]; [done|]. cbn [repeat_text] in *. rewrite !app_assoc_s in *. by rewrite IH.
Qed.

Lemma In_ok col (vals : list V) : plain col = true → condition_ok (In_ col vals).
Proof.
  intros Hc. destruct vals as [|v vals]; [done|]. unfold In_. cbn [length]. rewrite repeat_marks.
  set (n := length vals). assert (checked (repeat_text "?, " n +:+ "?") = true
    ∧ marks (repeat_text "?, " n +:+ "?") = S n ∧ plain_head (repeat_text "?, " n +:+ "?") = true) as (H1 & H2 & H3).
  { clear. induction n as [|n (IH1 & IH2 & IH3)]; [done|]. cbn [repeat_text]. rewrite app_assoc_s. split_and!.
    - by apply checked_app.
    - rewrite marks_app, IH2. done.
    - done. }
  split; cbn [clause args].
  - apply checked_app; [by apply plain_checked| |done]. apply checked_app; [done| |by destruct n]. by apply checked_app.
  - rewrite (marks_app col), (marks_app " IN ("), (marks_app (_ +:+ "?")), H2, plain_marks by done.
    change (marks " IN (") with 0%nat. change (marks ")") with 0%nat. cbn [length]. lia.
Qed.

Lemma join_cons sep s s' l : join sep (s :: s' :: l) = s +:+ sep +:+ join sep (s' :: l).
Proof. done. Qed.

Lemma combine_ok op (conds : list (Condition V)) :
  plain op = true → Forall condition_ok conds → condition_ok (combine op conds).
Proof.
  intros Hop Hc. unfold combine.
  assert (Forall condition_ok (filter (λ c, empty_condition c = false) conds)) as Hf.
  { rewrite Forall_forall in *. intros c [_ Hin]%list_elem_of_filter. auto. }
  revert Hf. generalize (filter (λ c, empty_condition c = false) conds). clear conds Hc.
  intros conds Hf. destruct conds as [|c0 conds]; [done|].
  set (sep := " " +:+ op +:+ " ").
  assert (checked sep = true ∧ marks sep = 0%nat) as [Hs1 Hs2].
  { unfold sep. split; [by repeat apply checked_plain|]. by rewrite !marks_app, (plain_marks op) by done. }
  unfold condition_ok. cbn [clause args].
  enough (∀ c l, Forall condition_ok (c :: l) →
    let text := join sep ((λ c, "(" +:+ clause c +:+ ")") <$> c :: l) in
    checked text = true ∧ marks text = length ((c :: l) ≫= args) ∧ plain_head text = true) as H.
  { destruct (H c0 conds Hf) as (? & ? & _). done. }
  intros c l. revert c. induction l as [|c' l IH]; intros c [[Hc Hm] Hl]%Forall_cons.
  - cbn [fmap list_fmap join mbind list_bind]. rewrite app_nil_r. rewrite !marks_app, Hm. change (marks "(") with 0%nat. change (marks ")") with 0%nat.
    split_and!; [|lia|done]. apply checked_plain; [done|]. by apply checked_app.
  - destruct (IH c' Hl) as (H1 & H2 & H3). cbn [fmap list_fmap] in *. rewrite join_cons.
    set (rest := join sep _) in *. split_and!; [| |done].
    + apply checked_app; [|by apply checked_app|done]. apply checked_plain; [done|]. by apply checked_app.
    + change ((c :: c' :: l) ≫= args) with (args c ++ ((c' :: l) ≫= args)). rewrite length_app, <- H2, <- Hm.
      rewrite !marks_app, Hs2. change (marks "(") with 0%nat. change (marks ")") with 0%nat. lia.
Qed.
End conditions.

(** ** Statements *)

Lemma params_build {V} (c : Condition V) start rest :
  condition_ok c → 0 ≤ start → plain_head rest = true →
  params ((build c start).1 +:+ rest) = (Itoa <$> seqZ start (zlength (build c start).2)) ++ params rest.
Proof.
  intros [Hc Hm] Hs Hr. unfold build. case_match eqn:He; [done|]. cbn [fst snd].
  rewrite params_number by done. by rewrite Hm.
Qed.

Lemma params_end {V} s (l : list V) : params s = Itoa <$> seqZ 1 (zlength l) → numbered_ok (s, l).
Proof. done. Qed.

Lemma params_where w rest : params (where_clause w +:+ rest) = params (w +:+ rest).
Proof.
  unfold where_clause. destruct (String.eqb_spec w "") as [->|Hne]; [done|].
  rewrite app_assoc_s. by rewrite params_plain.
Qed.

Lemma numbered_params (f : string → string → string) n cols rest :
  (∀ col p rest, plain col = true → params (f col p +:+ rest) = params (p +:+ rest)) →
  plain_head rest = true → forallb plain cols = true → 0 ≤ n →
  params (join ", " (numbered f n cols) +:+ rest) = (Itoa <$> seqZ n (zlength cols)) ++ params rest.
Proof.
  intros Hf Hr Hcols Hn. revert n Hn Hcols.
  induction cols as [|c cols IH]; intros n Hn Hcols; [done|].
  cbn in Hcols. apply andb_true_iff in Hcols as [Hc Hcols].
  replace (zlength (c :: cols)) with (Z.succ (zlength cols)) by (unfold zlength; cbn [length]; lia).
  rewrite seqZ_cons by (unfold zlength; lia). rewrite Z.pred_succ. cbn [fmap list_fmap app].
  destruct cols as [|c' cols].
  - cbn [numbered join]. rewrite Hf, app_assoc_s, params_param by done. done.
  - cbn [numbered]. rewrite join_cons, !app_assoc_s, Hf by done.
    rewrite app_assoc_s, params_param by done. f_equal.
    rewrite params_plain by done. specialize (IH (n + 1) ltac:(lia) Hcols).
    cbn [numbered] in IH. rewrite IH. by rewrite Z.add_1_r.
Qed.

Section statements.
Context {V : Type} `{So : Sorter}.
Implicit Types (c : Condition V) (values : gmap string V).

Definition columns_ok values : Prop := ∀ col, is_Some (values !! col) → plain col = true.

Lemma sorted_values_plain values : columns_ok values → forallb plain (sorted_values values).*1 = true.
Proof.
  intros Hv. apply forallb_forall. intros col Hin%list_elem_of_In.
  apply list_elem_of_fmap in Hin as ([k v] & -> & Hin). unfold sorted_values in Hin.
  apply elem_of_sort_slice, elem_of_map_to_list in Hin. apply Hv. by exists v.
Qed.

Lemma zlength_fmap {A B} (f : A → B) l : zlength (f <$> l) = zlength l.
Proof. unfold zlength. by rewrite length_fmap. Qed.

Lemma zlength_app {A} (l k : list A) : zlength (l ++ k) = zlength l + zlength k.
Proof. unfold zlength. rewrite length_app. lia. Qed.

Lemma zlength_nonneg {A} (l : list A) : 0 ≤ zlength l.
Proof. unfold zlength. lia. Qed.

(** One more parameter. *)
Lemma seqZ_more n (l k : list V) :
  seqZ n (zlength (l ++ k)) = seqZ n (zlength l) ++ seqZ (n + zlength l) (zlength k).
Proof. rewrite zlength_app. apply seqZ_app; apply zlength_nonneg. Qed.

Lemma params_set values rest :
  columns_ok values → plain_head rest = true →
  params ((buildSet values 0).1 +:+ rest) = (Itoa <$> seqZ 1 (zlength (buildSet values 0).2)) ++ params rest.
Proof.
  intros Hv Hr. unfold buildSet. cbn [fst snd]. rewrite numbered_params; try done.
  - by rewrite !zlength_fmap.
  - intros col p r Hcol. rewrite app_assoc_s, params_plain by by apply plain_no_dollar. by rewrite app_assoc_s, params_plain.
  - by apply sorted_values_plain.
Qed.

Lemma plain_app s1 s2 : plain (s1 +:+ s2) = plain s1 && plain s2.
Proof. apply all_bytes_app. Qed.

#[local] Ltac plain_text := apply plain_no_dollar; rewrite ?plain_app; repeat (apply andb_true_iff; split); done.
#[local] Ltac skip_text := repeat (rewrite params_plain by plain_text).

(** The parameter behind a text. *)
Lemma params_dollar s n rest :
  plain s = true → 0 ≤ n → plain_head rest = true → params ((s +:+ "$") +:+ Itoa n +:+ rest) = Itoa n :: params rest.
Proof. intros. rewrite app_assoc_s. skip_text. by apply params_param. Qed.

Lemma params_dollar_end s n : plain s = true → 0 ≤ n → params ((s +:+ "$") +:+ Itoa n) = [Itoa n].
Proof. intros. pose proof (params_dollar s n "") as H'. rewrite app_empty_r in H'. by apply H'. Qed.

Record config_ok (r : RepoConfig) : Prop := {
  table_ok : plain (table r) = true;
  pk_ok : plain (pk r) = true;
  columns_plain : plain (columns r) = true;
  softDelete_ok : plain (softDeleteCol r) = true;
  version_ok : plain (versionCol r) = true;
}.

Section config.
Context (r : RepoConfig) (Hr : config_ok r).

Lemma live_plain : plain (liveClause r) = true.
Proof using Hr. unfold liveClause. case_match; [done|]. rewrite plain_app, softDelete_ok by done. done. Qed.

Lemma and_live_plain : plain (and_live r) = true.
Proof using Hr. unfold and_live. case_match; [done|]. rewrite plain_app, live_plain by done. done. Qed.

Lemma and_live_head rest : plain_head rest = true → plain_head (and_live r +:+ rest) = true.
Proof using. unfold and_live. by case_match. Qed.

Lemma withLive_ok c : condition_ok c → condition_ok (withLive r c).
Proof using Hr.
  intros Hc. unfold withLive. pose proof live_plain as Hl. case_match; [done|]. case_match; [by apply Raw_plain_ok|].
  apply combine_ok; [done|]. rewrite Forall_cons, Forall_singleton. split; [done|by apply Raw_plain_ok].
Qed.

Lemma params_condition c rest :
  condition_ok c → plain_head rest = true →
  params (where_clause (build (withLive r c) 1).1 +:+ rest)
    = (Itoa <$> seqZ 1 (zlength (build (withLive r c) 1).2)) ++ params rest.
Proof using Hr. intros Hc Hrest. rewrite params_where. apply params_build; [by apply withLive_ok|done..]. Qed.

#[local] Ltac head := try done; by case_match.

Lemma find_numbered c orderBy : condition_ok c → plain orderBy = true → numbered_ok (find_sql r c orderBy).
Proof using Hr.
  intros Hc Ho. destruct Hr. apply params_end. skip_text. rewrite params_condition by head.
  case_match; [by rewrite app_nil_r|]. rewrite <- (app_empty_r orderBy). skip_text. by rewrite app_nil_r.
Qed.

Lemma count_numbered c : condition_ok c → numbered_ok (count_sql r c).
Proof using Hr.
  intros Hc. destruct Hr. apply params_end. skip_text. rewrite <- (app_empty_r (where_clause _)).
  by rewrite params_condition, app_nil_r.
Qed.

Lemma exists_numbered c : condition_ok c → numbered_ok (exists_sql r c).
Proof using Hr.
  intros Hc. destruct Hr. apply params_end. skip_text. by rewrite params_condition, app_nil_r.
Qed.

Lemma get_by_id_numbered (id : V) : numbered_ok (get_by_id_sql r id).
Proof using Hr.
  destruct Hr as [? Hpk ? _ _]. pose proof live_plain as Hl. apply params_end. skip_text.
  rewrite params_build; [by rewrite app_nil_r| |done..].
  case_match; [by apply Eq_ok|]. apply combine_ok; [done|].
  rewrite Forall_cons, Forall_singleton. split; [by apply Eq_ok|by apply Raw_plain_ok].
Qed.

(** What follows the parameters of a condition or of a SET list. *)
Lemma params_more (l k : list V) s :
  params s = Itoa <$> seqZ (1 + zlength l) (zlength k) →
  (Itoa <$> seqZ 1 (zlength l)) ++ params s = Itoa <$> seqZ 1 (zlength (l ++ k)).
Proof using. intros ->. by rewrite seqZ_more, fmap_app. Qed.

Lemma one_param n (x : V) : [Itoa (n + 1)] = Itoa <$> seqZ (1 + n) (zlength [x]).
Proof using. rewrite (Z.add_comm 1 n). reflexivity. Qed.

Lemma two_params n (x y : V) : [Itoa (n + 1); Itoa (n + 1 + 1)] = Itoa <$> seqZ (1 + n) (zlength [x; y]).
Proof using.
  rewrite (Z.add_comm 1 n). change (zlength [x; y]) with 2. by rewrite !seqZ_cons, <- Z.add_1_r by lia.
Qed.

Lemma paginate_numbered c orderBy limit offset :
  condition_ok c → plain orderBy = true → numbered_ok (paginate_sql r c orderBy limit offset).
Proof using Hr.
  intros Hc Ho. destruct Hr. apply params_end. skip_text. rewrite params_condition by head. apply params_more.
  rewrite <- two_params. set (n := zlength _). assert (0 ≤ n) as Hn by apply zlength_nonneg.
  transitivity (params ((" LIMIT " +:+ "$") +:+ Itoa (n + 1) +:+ (" OFFSET " +:+ "$") +:+ Itoa (n + 1 + 1))).
  - case_match; [done|]. by skip_text.
  - by rewrite params_dollar, params_dollar_end by (done || lia).
Qed.

Lemma cursor_numbered c column after limit descending :
  condition_ok c → plain column = true → numbered_ok (cursor_sql r c column after limit descending).
Proof using Hr.
  intros Hc Hcol. destruct Hr. apply params_end. skip_text. rewrite params_condition; [| |done].
  - apply params_more. rewrite <- one_param. set (n := zlength _).
    assert (0 ≤ n) as Hn by apply zlength_nonneg. skip_text.
    transitivity (params ((" LIMIT " +:+ "$") +:+ Itoa (n + 1))); [|by apply params_dollar_end; [|lia]].
    by destruct descending; skip_text.
  - destruct after as [v|]; [|done]. apply combine_ok; [done|]. rewrite Forall_cons, Forall_singleton. split; [done|].
    by destruct descending; apply one_placeholder.
Qed.

Lemma join_plain sep cols : plain sep = true → forallb plain cols = true → plain (join sep cols) = true.
Proof using.
  intros Hs. induction cols as [|c cols IH]; [done|]. cbn [forallb]. intros [Hc Hcols]%andb_true_iff.
  destruct cols as [|c' cols]; [done|]. by rewrite join_cons, !plain_app, Hc, Hs, IH.
Qed.

Lemma insert_numbered values : columns_ok values → numbered_ok (insert_sql r values).
Proof using Hr.
  intros Hv. destruct Hr. apply params_end. unfold insert_sql, splitValues.
  pose proof (join_plain ", " _ eq_refl (sorted_values_plain values Hv)). skip_text.
  rewrite numbered_params; [|done..|by apply sorted_values_plain|done].
  rewrite <- (app_empty_r (columns r)). skip_text. by rewrite app_nil_r, !zlength_fmap.
Qed.

Lemma update_numbered (id : V) values : columns_ok values → numbered_ok (update_sql r id values).
Proof using Hr.
  intros Hv. pose proof and_live_plain as Hl. destruct Hr. apply params_end. skip_text.
  rewrite params_set by done. apply params_more. rewrite <- one_param. set (n := zlength _).
  assert (0 ≤ n) as Hn by apply zlength_nonneg. skip_text.
  transitivity (params ((" = " +:+ "$") +:+ Itoa (n + 1) +:+ and_live r +:+ " RETURNING " +:+ columns r)); [done|].
  rewrite params_dollar by (done || lia || by apply and_live_head). rewrite <- (app_empty_r (columns r)). by skip_text.
Qed.

Lemma update_optimistic_numbered (id version : V) values :
  columns_ok values → numbered_ok (update_optimistic_sql r id version values).
Proof using Hr.
  intros Hv. pose proof and_live_plain as Hl. destruct Hr. apply params_end. skip_text.
  rewrite params_set by done. apply params_more. rewrite <- two_params. set (n := zlength _).
  assert (0 ≤ n) as Hn by apply zlength_nonneg. skip_text.
  transitivity (params ((" = " +:+ "$") +:+ Itoa (n + 1) +:+ " AND " +:+ versionCol r
    +:+ (" = " +:+ "$") +:+ Itoa (n + 1 + 1) +:+ and_live r +:+ " RETURNING " +:+ columns r)); [done|].
  rewrite params_dollar by (done || lia). skip_text.
  rewrite params_dollar by (done || lia || by apply and_live_head). rewrite <- (app_empty_r (columns r)). by skip_text.
Qed.

Lemma bulk_update_numbered (ids : list V) values : columns_ok values → numbered_ok (bulk_update_sql r ids values).
Proof using Hr.
  intros Hv. pose proof and_live_plain as Hl. destruct Hr. apply params_end. skip_text.
  rewrite params_set by done. apply params_more. skip_text.
  rewrite params_build; [|by apply In_ok|pose proof (zlength_nonneg (buildSet values 0).2); lia|].
  - rewrite <- (app_empty_r (and_live r)). skip_text. by rewrite app_nil_r, (Z.add_comm 1).
  - rewrite <- (app_empty_r (and_live r)). by apply and_live_head.
Qed.

Lemma value_rows_params cols pos n rest :
  forallb plain cols = true → 0 ≤ pos → plain_head rest = true →
  params (join ", " (value_rows cols pos n) +:+ rest) = (Itoa <$> seqZ pos (Z.of_nat n * zlength cols)) ++ params rest.
Proof using.
  intros Hc Hp Hrest. revert pos Hp. induction n as [|n IH]; intros pos Hp; [done|].
  pose proof (zlength_nonneg cols). rewrite Nat2Z.inj_succ, Z.mul_succ_l, Z.add_comm, seqZ_app by lia.
  rewrite fmap_app, <- (assoc app).
  assert (∀ rest, params (("(" +:+ join ", " (numbered (λ _ p, p) pos cols) +:+ ")") +:+ rest)
    = (Itoa <$> seqZ pos (zlength cols)) ++ params rest) as Hrow.
  { intros rest'. rewrite !app_assoc_s. skip_text. rewrite numbered_params by done. by skip_text. }
  destruct n as [|n].
  - cbn [value_rows join]. rewrite Hrow. done.
  - cbn [value_rows] in *. rewrite join_cons, !app_assoc_s in *. rewrite <- (app_assoc_s "("), <- app_assoc_s.
    rewrite Hrow. skip_text. by rewrite IH by lia.
Qed.

Lemma bulk_upsert_numbered cols (rows : list (list V)) target updates :
  forallb plain cols = true → plain target = true → forallb plain updates = true →
  Forall (λ row, length row = length cols) rows →
  numbered_ok (bulk_upsert_sql r cols rows target updates).
Proof using Hr.
  intros Hc Ht Hu Hrows. destruct Hr. apply params_end. pose proof (join_plain ", " cols eq_refl Hc).
  assert (zlength (rows ≫= take (length cols)) = Z.of_nat (length rows) * zlength cols) as ->.
  { induction Hrows as [|row rows Hrow _ IH]; [done|]. cbn [mbind list_bind length].
    rewrite zlength_app, IH. unfold zlength. rewrite length_take, Hrow. lia. }
  skip_text. rewrite value_rows_params by done. skip_text.
  set (tail := match updates with [] => _ | _ => _ end).
  assert (plain tail = true).
  { unfold tail. destruct updates as [|u us]; [done|]. rewrite plain_app. apply andb_true_iff; split; [done|].
    apply join_plain; [done|]. apply forallb_forall. intros s Hs%list_elem_of_In.
    apply list_elem_of_fmap in Hs as (col & -> & Hin). rewrite forallb_forall in Hu.
    specialize (Hu col). rewrite <- list_elem_of_In in Hu. by rewrite !plain_app, Hu. }
  rewrite <- (app_empty_r tail). skip_text. by rewrite app_nil_r.
Qed.
End config.
End statements.

(** The statements of the generic repository number their parameters $1 to
    $n in the order of their n arguments, whatever the condition and the columns:
    no placeholder is left over, skipped or bound to another argument. *)
Theorem statements_numbered {V} `{So : Sorter} (r : RepoConfig) (c : Condition V) (values : gmap string V)
    (id version limit offset : V) (ids : list V) (orderBy column : string) (after : option V) (descending : bool) :
  config_ok r → condition_ok c → columns_ok values → plain orderBy = true → plain column = true →
  numbered_ok (get_by_id_sql r id) ∧ numbered_ok (find_sql r c orderBy) ∧ numbered_ok (count_sql r c) ∧
  numbered_ok (exists_sql r c) ∧ numbered_ok (insert_sql r values) ∧ numbered_ok (update_sql r id values) ∧
  numbered_ok (update_optimistic_sql r id version values) ∧
  numbered_ok (paginate_sql r c orderBy limit offset) ∧
  numbered_ok (cursor_sql r c column after limit descending) ∧ numbered_ok (bulk_update_sql r ids values).
Proof.
  intros. split_and!; eauto using get_by_id_numbered, find_numbered, count_numbered, exists_numbered,
    insert_numbered, update_numbered, update_optimistic_numbered, paginate_numbered, cursor_numbered,
    bulk_update_numbered.
Qed.

(** Names of columns and tables in the program have this form. *)
Definition example_config : RepoConfig :=
  {| table := "identity_users"; pk := "id"; columns := "id, email"; softDeleteCol := "deleted_at"; versionCol := "version" |}.

Lemma statements_numbered_witness :
  numbered_ok (find_sql example_config (Or [Eq "email" "a"; In_ "status" ["x"; "y"]]) "name").
Proof.
  pose proof (statements_numbered (So := insertion_sorter) example_config (Or [Eq "email" "a"; In_ "status" ["x"; "y"]])
    ∅ "1" "2" "3" "4" [] "name" "id" None false) as H.
  destruct H as (_ & H & _); [by constructor| |intros col [v Hv]; by rewrite lookup_empty in Hv|done..|exact H].
  by split; vm_compute.
Defined.

(** * Properties of the generic repository's tables

    Following the cursors enumerates a table; of two optimistic updates from one
    version at most one succeeds. *)

Section walk.
Context {S R : Type} `{D : Driver} `{So : Sorter} (T : Table S R) (l : Lens S (list R)).
Context (p : R → bool) (column : R → string) (limit : Z) (descending : bool).

(** A client that follows the cursors. *)
Fixpoint walk (n : nat) (after : string) : db S (list R) :=
  match n with
  | O => mret []
  | Datatypes.S n =>
      page ← PaginateCursor T l p column after limit descending (Some column);
      if CursorPage.HasMore page
      then rest ← walk n (CursorPage.NextCursor page); mret (CursorPage.Items page ++ rest)
      else mret (CursorPage.Items page)
  end.

#[local] Abbreviation less := (column_order descending column).

Definition wanted (t : list R) : list R := sort_slice less (select (λ r, p r && live T r) t).

(** ** One page *)

Lemma swo_column : strict_weak_on (λ _, True) less.
Proof.
  unfold column_order. destruct descending.
  - apply (swo_on column (λ _, True) (λ a b, String.ltb b a)), (swo_flip (λ _, True)), swo_text.
  - apply (swo_on column (λ _, True)), swo_text.
Qed.

Lemma less_total x y : less x y = false → less y x = false → column x = column y.
Proof. unfold column_order. destruct descending; intros; by apply text_ltb_total. Qed.

Lemma sorted_column t : sorted_by less (sort_slice less t).
Proof. apply (sort_slice_sorted less (λ _, True)); [apply swo_column|by apply Forall_true]. Qed.

(** A text that stands for the rows [L1] already seen. *)
Definition cursor_of (L1 : list R) (after : string) : Prop :=
  match last L1 with None => after = "" | Some r => after = column r end.

Lemma sorted_pair L1 L2 x y : sorted_by less (L1 ++ L2) → x ∈ L1 → y ∈ L2 → less y x = false.
Proof. intros Hs%StronglySorted_app. naive_solver. Qed.

Lemma follows_split L1 L2 after :
  sorted_by less (L1 ++ L2) → NoDup (column <$> (L1 ++ L2)) →
  (∀ r, r ∈ L1 → column r ≠ "") → cursor_of L1 after →
  select (follows descending column after) (L1 ++ L2) = L2.
Proof.
  intros Hs Hnd Hne Hc. rewrite select_app. unfold cursor_of in Hc.
  destruct (last L1) as [r0|] eqn:Hlast.
  - apply last_Some in Hlast as [L1' ->]. subst after.
    assert ((column r0 =s? "") = false) as Hr0 by (apply String.eqb_neq, Hne; set_solver).
    assert (∀ r, follows descending column (column r0) r = less r0 r) as Hf.
    { intros r. unfold follows, column_order. rewrite Hr0. by destruct descending. }
    assert (∀ r, r ∈ L2 → less r0 r = true) as H2.
    { intros r Hr. destruct (less r0 r) eqn:E; [done|]. exfalso.
      assert (less r r0 = false) as E' by (apply (sorted_pair _ _ _ _ Hs); set_solver).
      rewrite fmap_app in Hnd. apply NoDup_app in Hnd as (_ & Hd & _).
      apply (Hd (column r0)); [apply list_elem_of_fmap_2; set_solver|].
      rewrite (less_total r0 r) by done. by apply list_elem_of_fmap_2. }
    rewrite (select_none _ (L1' ++ [r0])).
    + apply select_all. intros r Hr. rewrite Hf. auto.
    + intros r [Hr| ->%list_elem_of_singleton]%elem_of_app; rewrite Hf.
      * rewrite <- (assoc app) in Hs. apply (sorted_pair _ _ _ _ Hs); set_solver.
      * destruct (less r0 r0) eqn:E; [|done]. by rewrite (swo_asym _ _ swo_column r0 r0 I I E) in E.
  - apply last_None in Hlast as ->. subst after. by apply select_all.
Qed.

(** ** All pages *)

Lemma page_rows t L1 L2 after :
  wanted t = L1 ++ L2 → NoDup (column <$> wanted t) → (∀ r, r ∈ wanted t → column r ≠ "") → cursor_of L1 after →
  sort_slice less (select (λ r, p r && follows descending column after r && live T r) t) = L2.
Proof.
  intros Hw Hnd Hne Hc. pose proof (sorted_column (select (λ r, p r && live T r) t)) as Hs. fold (wanted t) in Hs.
  assert (select (λ r, p r && follows descending column after r && live T r) t ≡ₚ L2) as Hp.
  { pose proof (follows_split L1 L2 after) as Hf. rewrite <- Hw in Hf.
    rewrite <- Hf by (done || (intros r Hr; apply Hne; rewrite Hw; set_solver)). unfold wanted. rewrite (select_perm _ _ _ (sort_slice_perm _ _)), select_select.
    erewrite select_ext; [reflexivity|]. intros r _. cbn beta.
    by destruct (p r), (follows descending column after r), (live T r). }
  apply (StronglySorted_unique_strong (λ x y, less y x = false)).
  - intros x y Hx Hy H1 H2. rewrite sort_slice_perm, Hp in Hx.
    apply (NoDup_key_eq column (wanted t)); [done|rewrite Hw; set_solver..|by apply less_total].
  - apply sorted_column.
  - rewrite Hw in Hs. by apply StronglySorted_app_1_r in Hs.
  - by rewrite sort_slice_perm.
Qed.

Lemma runs_stmt {A} message (f : S → list R → result error A * list R) s a :
  f s (view l s) = (Ok a, view l s) → runs (translate message (stmt l f)) s (Ok a) s.
Proof. intros H. unfold runs, translate, stmt, query. rewrite H, put_view. done. Qed.

(** A page holds the next [limit] rows, and says whether there are more. *)
Lemma page_spec s L1 L2 after :
  1 ≤ limit < int64_max → wanted (view l s) = L1 ++ L2 → NoDup (column <$> wanted (view l s)) →
  (∀ r, r ∈ wanted (view l s) → column r ≠ "") → cursor_of L1 after →
  ∃ page, runs (PaginateCursor T l p column after limit descending (Some column)) s (Ok page) s
    ∧ CursorPage.Items page = take (Z.to_nat limit) L2
    ∧ CursorPage.HasMore page = bool_decide (limit < Z.of_nat (length L2))
    ∧ (CursorPage.HasMore page = true → cursor_of (L1 ++ CursorPage.Items page) (CursorPage.NextCursor page)).
Proof.
  intros Hl Hw Hnd Hne Hc. pose proof (page_rows _ _ _ _ Hw Hnd Hne Hc) as Hp. unfold PaginateCursor.
  set (items := take (Z.to_nat (limit + 1)) L2).
  assert (runs (translate "repository: cursor paginate" (stmt l (λ _ t,
    (limit_rows (wrap64 (limit + 1)) (sort_slice less
       (select (λ r, p r && follows descending column after r && live T r) t)), t)))) s (Ok items) s) as Hr.
  { apply runs_stmt. cbn beta. rewrite Hp, wrap64_in_range by (unfold in_int64, int64_min; lia).
    unfold limit_rows. by rewrite (proj2 (Z.ltb_ge (limit + 1) 0)) by lia. }
  assert (length items = length L2 `min` Z.to_nat (limit + 1))%nat as Hlen.
  { unfold items. rewrite length_take. lia. }
  destruct (Z.ltb_spec limit (Z.of_nat (length items))) as [Hlt|Hge].
  - assert (take (Z.to_nat limit) items = take (Z.to_nat limit) L2) as Ht.
    { unfold items. rewrite take_take. f_equal. lia. }
    destruct (last (take (Z.to_nat limit) L2)) as [r|] eqn:Hlast.
    + exists (CursorPage.mk (take (Z.to_nat limit) L2) (column r) true). split_and!; [|done| |].
      * eapply runs_bind; [exact Hr|]. cbn beta. rewrite (proj2 (Z.ltb_lt _ _) Hlt). cbn [negb].
        rewrite (proj2 (Z.ltb_ge limit 0)) by lia. by rewrite Ht, Hlast.
      * symmetry. apply bool_decide_eq_true. lia.
      * intros _. unfold cursor_of. cbn [CursorPage.Items CursorPage.NextCursor]. by rewrite last_app, Hlast.
    + apply last_None in Hlast. assert (length (take (Z.to_nat limit) L2) = 0%nat) as H0 by by rewrite Hlast.
      rewrite length_take in H0. lia.
  - exists (CursorPage.mk items "" false). split_and!; [| | |done].
    + eapply runs_bind; [exact Hr|]. cbn beta. by rewrite (proj2 (Z.ltb_ge _ _) Hge).
    + unfold items. cbn [CursorPage.Items]. rewrite !take_ge by lia. done.
    + symmetry. apply bool_decide_eq_false. lia.
Qed.

Lemma walk_from s n L1 L2 after :
  1 ≤ limit < int64_max → wanted (view l s) = L1 ++ L2 → NoDup (column <$> wanted (view l s)) →
  (∀ r, r ∈ wanted (view l s) → column r ≠ "") → cursor_of L1 after → (length L2 < n)%nat →
  runs (walk n after) s (Ok L2) s.
Proof.
  intros Hl. revert L1 L2 after. induction n as [|n IH]; intros L1 L2 after Hw Hnd Hne Hc Hn; [lia|].
  destruct (page_spec s L1 L2 after Hl Hw Hnd Hne Hc) as (page & Hr & Hi & Hm & Hcur).
  cbn [walk]. eapply runs_bind; [exact Hr|]. cbn beta. rewrite Hm. case_bool_decide as Hlt.
  - eapply runs_bind.
    + apply (IH (L1 ++ CursorPage.Items page) (drop (Z.to_nat limit) L2)); [|done|done|auto|].
      * by rewrite Hw, <- (assoc app), Hi, take_drop.
      * rewrite length_drop. lia.
    + cbn beta. rewrite Hi. unfold runs. by rewrite take_drop.
  - rewrite Hi, take_ge by lia. done.
Qed.
End walk.

(** C33: Following the cursors of [PaginateCursor] from the first page
    enumerates the live rows that match, each once and in the order of the
    column, and ends: after at most one page more than there are rows.  The
    limit is at least one, and the values of the column are unique and not
    empty. *)
Theorem cursors_enumerate {S R} `{D : Driver} `{So : Sorter} (T : Table S R) (l : Lens S (list R))
    (p : R → bool) (column : R → string) (limit : Z) (descending : bool) (s : S) :
  1 ≤ limit < int64_max →
  let rows := select (λ r, p r && live T r) (view l s) in
  NoDup (column <$> rows) → (∀ r, r ∈ rows → column r ≠ "") →
  ∃ pages, runs (walk T l p column limit descending (Datatypes.S (length rows)) "") s (Ok pages) s
    ∧ pages ≡ₚ rows ∧ sorted_by (column_order descending column) pages.
Proof.
  intros Hl rows Hnd Hne. exists (wanted T p column descending (view l s)). split_and!.
  - apply (walk_from T l p column limit descending s _ []); try done.
    + unfold wanted. by rewrite sort_slice_perm.
    + intros r. unfold wanted. rewrite elem_of_sort_slice. apply Hne.
    + unfold wanted. rewrite length_sort_slice. fold rows. lia.
  - unfold wanted. by rewrite sort_slice_perm.
  - apply sorted_column.
Qed.

(** A table of names. *)
Definition names : Table (list string) string :=
  mkTable _ _ (λ r, r) None (λ _ r, r) None (λ r, r) String.eqb (λ _ _, true).

Definition whole {S} : Lens S S := {| view := λ s, s; put := λ s _, s; view_put _ _ := eq_refl; put_view _ := eq_refl |}.

Lemma cursors_enumerate_witness :
  ∃ pages, runs (walk (D := strict_driver) (So := insertion_sorter) names whole (λ _, true) (λ r, r) 1 true 4 "")
      ["b"; "a"; "c"] (Ok pages) ["b"; "a"; "c"]
    ∧ pages ≡ₚ ["b"; "a"; "c"] ∧ sorted_by (column_order true (λ r, r)) pages.
Proof.
  apply (cursors_enumerate (D := strict_driver) (So := insertion_sorter) names whole (λ _, true) (λ r, r) 1 true
    ["b"; "a"; "c"]).
  - vm_compute. by split.
  - apply (bool_decide_unpack _). vm_compute. exact I.
  - intros r Hr. repeat (apply elem_of_cons in Hr as [->|Hr]; [done|]). by apply elem_of_nil in Hr.
Defined.
