(* ===== verification/DeploymentRepo.v ===== *)
(** * The deployment repository (packages/application/controlplane/deployment/repository*.go)

    Every change of a deployment is one transaction that updates the row and
    appends a timeline entry.  Identifiers of new rows and the clock are
    arguments. *)

From S2P Require Import Prelude GoLib Errors Postgres Sql DeployModel.

(** ** Row updates *)

(** The [SET] of [UpdateStatus]. *)
Definition set_status (status : Status) (failure : string) (now : Time) (d : Deployment) : Deployment :=
    {| Deployment.ID := Deployment.ID d; Deployment.OrgID := Deployment.OrgID d;
     Deployment.ProjectID := Deployment.ProjectID d; Deployment.Status := status;
     Deployment.CommitSHA := Deployment.CommitSHA d;
     Deployment.CommitMessage := Deployment.CommitMessage d;
     Deployment.Branch := Deployment.Branch d; Deployment.Author := Deployment.Author d;
     Deployment.ImageTag := Deployment.ImageTag d; Deployment.Runtime := Deployment.Runtime d;
     Deployment.BuildDurationMs := Deployment.BuildDurationMs d;
     Deployment.DeployDurationMs := Deployment.DeployDurationMs d;
     Deployment.FailureReason := if failure =s? "" then Deployment.FailureReason d else failure;
     Deployment.TriggerSource := Deployment.TriggerSource d;
     Deployment.TriggerUserID := Deployment.TriggerUserID d;
     Deployment.Environment := Deployment.Environment d;
     Deployment.CorrelationID := Deployment.CorrelationID d;
     Deployment.Metadata := Deployment.Metadata d;
     Deployment.CreatedAt := Deployment.CreatedAt d; Deployment.UpdatedAt := now;
     Deployment.StartedAt := if (status =s? StatusQueued) || (status =s? StatusBuilding)
       then Some (default now (Deployment.StartedAt d)) else Deployment.StartedAt d;
     Deployment.FinishedAt := if (status =s? StatusLive) || (status =s? StatusFailed)
         || (status =s? StatusCancelled) || (status =s? StatusRolledBack)
       then Some now else Deployment.FinishedAt d |}.

Section updates.
Context `{J : Jsonb}.

Definition gone_live (res : DeployResult) (now : Time) (d : Deployment) : Deployment :=
    {| Deployment.ID := Deployment.ID d; Deployment.OrgID := Deployment.OrgID d;
     Deployment.ProjectID := Deployment.ProjectID d; Deployment.Status := StatusLive;
     Deployment.CommitSHA := Deployment.CommitSHA d;
     Deployment.CommitMessage := Deployment.CommitMessage d;
     Deployment.Branch := Deployment.Branch d; Deployment.Author := Deployment.Author d;
     Deployment.ImageTag := if res_ImageTag res =s? "" then Deployment.ImageTag d else res_ImageTag res;
     Deployment.Runtime := Deployment.Runtime d;
     Deployment.BuildDurationMs := Deployment.BuildDurationMs d;
     Deployment.DeployDurationMs := Some (res_DeployDurationMs res);
     Deployment.FailureReason := Deployment.FailureReason d;
     Deployment.TriggerSource := Deployment.TriggerSource d;
     Deployment.TriggerUserID := Deployment.TriggerUserID d;
     Deployment.Environment := Deployment.Environment d;
     Deployment.CorrelationID := Deployment.CorrelationID d;
     Deployment.Metadata := jsonb_merge (Deployment.Metadata d) (default "{}" (res_Metadata res));
     Deployment.CreatedAt := Deployment.CreatedAt d; Deployment.UpdatedAt := now;
     Deployment.StartedAt := Deployment.StartedAt d; Deployment.FinishedAt := Some now |}.

Definition built_with (res : BuildResult) (now : Time) (d : Deployment) : Deployment :=
    {| Deployment.ID := Deployment.ID d; Deployment.OrgID := Deployment.OrgID d;
     Deployment.ProjectID := Deployment.ProjectID d; Deployment.Status := StatusBuilt;
     Deployment.CommitSHA := Deployment.CommitSHA d;
     Deployment.CommitMessage := Deployment.CommitMessage d;
     Deployment.Branch := Deployment.Branch d; Deployment.Author := Deployment.Author d;
     Deployment.ImageTag := built_ImageTag res; Deployment.Runtime := built_Runtime res;
     Deployment.BuildDurationMs := Some (built_DurationMs res);
     Deployment.DeployDurationMs := Deployment.DeployDurationMs d;
     Deployment.FailureReason := Deployment.FailureReason d;
     Deployment.TriggerSource := Deployment.TriggerSource d;
     Deployment.TriggerUserID := Deployment.TriggerUserID d;
     Deployment.Environment := Deployment.Environment d;
     Deployment.CorrelationID := Deployment.CorrelationID d;
     Deployment.Metadata := jsonb_merge (Deployment.Metadata d) (default "{}" (built_Metadata res));
     Deployment.CreatedAt := Deployment.CreatedAt d; Deployment.UpdatedAt := now;
     Deployment.StartedAt := Deployment.StartedAt d;
     Deployment.FinishedAt := Deployment.FinishedAt d |}.
End updates.

Definition deploy_failed (reason : string) (ms : Z) (now : Time) (d : Deployment) : Deployment :=
    {| Deployment.ID := Deployment.ID d; Deployment.OrgID := Deployment.OrgID d;
     Deployment.ProjectID := Deployment.ProjectID d; Deployment.Status := StatusFailed;
     Deployment.CommitSHA := Deployment.CommitSHA d;
     Deployment.CommitMessage := Deployment.CommitMessage d;
     Deployment.Branch := Deployment.Branch d; Deployment.Author := Deployment.Author d;
     Deployment.ImageTag := Deployment.ImageTag d; Deployment.Runtime := Deployment.Runtime d;
     Deployment.BuildDurationMs := Deployment.BuildDurationMs d;
     Deployment.DeployDurationMs := Some ms; Deployment.FailureReason := reason;
     Deployment.TriggerSource := Deployment.TriggerSource d;
     Deployment.TriggerUserID := Deployment.TriggerUserID d;
     Deployment.Environment := Deployment.Environment d;
     Deployment.CorrelationID := Deployment.CorrelationID d;
     Deployment.Metadata := Deployment.Metadata d;
     Deployment.CreatedAt := Deployment.CreatedAt d; Deployment.UpdatedAt := now;
     Deployment.StartedAt := Deployment.StartedAt d; Deployment.FinishedAt := Some now |}.

Definition build_failed (reason : string) (ms : Z) (now : Time) (d : Deployment) : Deployment :=
    {| Deployment.ID := Deployment.ID d; Deployment.OrgID := Deployment.OrgID d;
     Deployment.ProjectID := Deployment.ProjectID d; Deployment.Status := StatusFailed;
     Deployment.CommitSHA := Deployment.CommitSHA d;
     Deployment.CommitMessage := Deployment.CommitMessage d;
     Deployment.Branch := Deployment.Branch d; Deployment.Author := Deployment.Author d;
     Deployment.ImageTag := Deployment.ImageTag d; Deployment.Runtime := Deployment.Runtime d;
     Deployment.BuildDurationMs := Some ms;
     Deployment.DeployDurationMs := Deployment.DeployDurationMs d;
     Deployment.FailureReason := reason; Deployment.TriggerSource := Deployment.TriggerSource d;
     Deployment.TriggerUserID := Deployment.TriggerUserID d;
     Deployment.Environment := Deployment.Environment d;
     Deployment.CorrelationID := Deployment.CorrelationID d;
     Deployment.Metadata := Deployment.Metadata d;
     Deployment.CreatedAt := Deployment.CreatedAt d; Deployment.UpdatedAt := now;
     Deployment.StartedAt := Deployment.StartedAt d; Deployment.FinishedAt := Some now |}.

Definition rolled_back (ms : Z) (now : Time) (d : Deployment) : Deployment :=
    {| Deployment.ID := Deployment.ID d; Deployment.OrgID := Deployment.OrgID d;
     Deployment.ProjectID := Deployment.ProjectID d; Deployment.Status := StatusRolledBack;
     Deployment.CommitSHA := Deployment.CommitSHA d;
     Deployment.CommitMessage := Deployment.CommitMessage d;
     Deployment.Branch := Deployment.Branch d; Deployment.Author := Deployment.Author d;
     Deployment.ImageTag := Deployment.ImageTag d; Deployment.Runtime := Deployment.Runtime d;
     Deployment.BuildDurationMs := Deployment.BuildDurationMs d;
     Deployment.DeployDurationMs := Some ms;
     Deployment.FailureReason := Deployment.FailureReason d;
     Deployment.TriggerSource := Deployment.TriggerSource d;
     Deployment.TriggerUserID := Deployment.TriggerUserID d;
     Deployment.Environment := Deployment.Environment d;
     Deployment.CorrelationID := Deployment.CorrelationID d;
     Deployment.Metadata := Deployment.Metadata d;
     Deployment.CreatedAt := Deployment.CreatedAt d; Deployment.UpdatedAt := now;
     Deployment.StartedAt := Deployment.StartedAt d; Deployment.FinishedAt := Some now |}.

(** The row [Create] inserts. *)
Definition new_deployment (fresh : string) (now : Time) (d : Deployment) : Deployment :=
    {| Deployment.ID := if Deployment.ID d =s? "" then fresh else Deployment.ID d;
     Deployment.OrgID := Deployment.OrgID d; Deployment.ProjectID := Deployment.ProjectID d;
     Deployment.Status := if Deployment.Status d =s? "" then StatusPending else Deployment.Status d;
     Deployment.CommitSHA := Deployment.CommitSHA d;
     Deployment.CommitMessage := Deployment.CommitMessage d;
     Deployment.Branch := Deployment.Branch d; Deployment.Author := Deployment.Author d;
     Deployment.ImageTag := Deployment.ImageTag d; Deployment.Runtime := Deployment.Runtime d;
     Deployment.BuildDurationMs := None; Deployment.DeployDurationMs := None;
     Deployment.FailureReason := ""; Deployment.TriggerSource := Deployment.TriggerSource d;
     Deployment.TriggerUserID := Deployment.TriggerUserID d;
     Deployment.Environment := if Deployment.Environment d =s? "" then "production" else Deployment.Environment d;
     Deployment.CorrelationID := Deployment.CorrelationID d;
     Deployment.Metadata := if Deployment.Metadata d =s? "" then "{}" else Deployment.Metadata d;
     Deployment.CreatedAt := now; Deployment.UpdatedAt := now; Deployment.StartedAt := None;
     Deployment.FinishedAt := None |}.

(** ** Conditions *)

Definition is_deployment (orgID id : string) (d : Deployment) : bool :=
  (Deployment.ID d =s? id) && (Deployment.OrgID d =s? orgID).

Definition of_project (orgID projectID : string) (d : Deployment) : bool :=
  (Deployment.OrgID d =s? orgID) && (Deployment.ProjectID d =s? projectID).

Definition event_of (id : string) (e : Event) : bool := Event.DeploymentID e =s? id.

(** [ORDER BY created_at DESC]; [finished_at DESC NULLS LAST, created_at DESC]. *)
Definition newest : Deployment → Deployment → bool :=
  λ x y, Deployment.CreatedAt y <? Deployment.CreatedAt x.

Definition latest_finished : Deployment → Deployment → bool :=
  lex (λ x y, match Deployment.FinishedAt x, Deployment.FinishedAt y with
              | Some a, Some b => b <? a
              | Some _, None => true
              | None, _ => false
              end) newest.

Section repository.
Context {W : Type} `{D : Driver} `{So : Sorter} `{J : Jsonb}.

(** ** Statements *)

Definition insert_event (row : Event) (st : deploydb W) : result error unit * deploydb W :=
  if negb (matched (λ e, Event.ID e =s? Event.ID row) (timeline st) =? 0)
  then (Err (PgError sqlStateUniqueViolation "duplicate key"), st)
  else if matched (λ d, Deployment.ID d =s? Event.DeploymentID row) (deployments st) =? 0
  then (Err (PgError sqlStateForeignKeyViolation "deployment_id"), st)
  else (Ok tt, set_timeline (timeline st ++ [row]) st).

(** A nil [meta] is the empty object. *)
Definition addEvent (ev deploymentID : string) (status : Status) (message : string)
    (meta : option string) (now : Time) : db (deploydb W) unit :=
  translate "deployment: add event" (query (insert_event
    {| Event.ID := ev; Event.DeploymentID := deploymentID; Event.Status := status;
       Event.Message := message; Event.Metadata := default "{}" meta; Event.CreatedAt := now |})).

Definition insert_deployment (row : Deployment) (st : deploydb W) : result error unit * deploydb W :=
  if negb (uuid_or_null (Deployment.TriggerUserID row)) then (Err invalid_uuid, st)
  else if negb (matched (λ d, Deployment.ID d =s? Deployment.ID row) (deployments st) =? 0)
  then (Err (PgError sqlStateUniqueViolation "duplicate key"), st)
  else if matched (λ p, Project.ID p =s? Deployment.ProjectID row) (projects st) =? 0
  then (Err (PgError sqlStateForeignKeyViolation "project_id"), st)
  else (Ok tt, set_deployments (deployments st ++ [row]) st).

(** [UPDATE controlplane_deployments]: the rows affected. *)
Definition update_deployments (p : Deployment → bool) (f : Deployment → Deployment)
    : db (deploydb W) Z :=
  exec (λ st, (matched p (deployments st),
    set_deployments (update_where p f (deployments st)) st)).

Definition one_deployment (p : Deployment → bool) : db (deploydb W) Deployment :=
  query (λ st, (match select p (deployments st) with d :: _ => Ok d | [] => Err ErrNoRows end, st)).

(** ** Reads *)

Definition GetByID (orgID id : string) : db (deploydb W) Deployment :=
  translate "deployment: get" (one_deployment (is_deployment orgID id)).

(** [LIMIT 1] after a sort; [scanDeployment] hands on the driver's error. *)
Definition first_of (lt : Deployment → Deployment → bool) (p : Deployment → bool)
    : db (deploydb W) Deployment :=
  query (λ st, (match sort_slice lt (select p (deployments st)) with
                | d :: _ => Ok d
                | [] => Err ErrNoRows
                end, st)).

Definition GetLatest (orgID projectID : string) : db (deploydb W) Deployment :=
  first_of newest (of_project orgID projectID).

Definition GetPreviousLive (orgID projectID excludeID : string) : db (deploydb W) Deployment :=
  first_of latest_finished (λ d, of_project orgID projectID d
    && (Deployment.Status d =s? StatusLive) && negb (Deployment.ID d =s? excludeID)).

Definition ListByProject (orgID projectID : string) (limit : Z) : db (deploydb W) (list Deployment) :=
  let limit := if limit <=? 0 then 50 else limit in
  translate "deployment: list" (exec (λ st,
    (take (Z.to_nat limit) (sort_slice newest (select (of_project orgID projectID) (deployments st))), st))).

Definition ListEvents (deploymentID : string) : db (deploydb W) (list Event) :=
  translate "deployment: list events" (exec (λ st,
    (sort_slice (λ x y, Event.CreatedAt x <? Event.CreatedAt y)
       (select (event_of deploymentID) (timeline st)), st))).

Definition IsReadyToDeploy (orgID id : string) : db (deploydb W) bool :=
  d ← translate "deployment: ready check" (one_deployment (is_deployment orgID id));
  let status := Deployment.Status d in
  let tag := Deployment.ImageTag d in
  if (status =s? StatusRollingBack) && negb (tag =s? "") then mret true
  else mret ((status =s? StatusBuilt) && negb (tag =s? "")).

Definition IsCancelled (orgID id : string) : db (deploydb W) bool :=
  d ← translate "deployment: is cancelled" (one_deployment (is_deployment orgID id));
  mret (Deployment.Status d =s? StatusCancelled).

(** ** Changes *)

Definition Create (fresh ev : string) (d : Deployment) (now : Time) : db (deploydb W) Deployment :=
  let row := new_deployment fresh now d in
  _ ← Transact (
        _ ← translate "deployment: create" (query (insert_deployment row));
        addEvent ev (Deployment.ID row) (Deployment.Status row) "deployment created" None now);
  GetByID (Deployment.OrgID row) (Deployment.ID row).

(** The shape of the others: update the rows of one deployment, report
    [missing] when there is none, append the entry, read the row back. *)
Definition change (ev orgID id : string) (p : Deployment → bool) (f : Deployment → Deployment)
    (wrap missing : string) (status : Status) (message : string) (meta : option string) (now : Time)
    : db (deploydb W) Deployment :=
  _ ← Transact (
        n ← translate wrap (update_deployments (λ d, is_deployment orgID id d && p d) f);
        if n =? 0 then fail_with (NotFound missing) else addEvent ev id status message meta now);
  GetByID orgID id.

Definition UpdateStatus (ev orgID id : string) (status : Status) (message failureReason : string)
    (now : Time) : db (deploydb W) Deployment :=
  change ev orgID id (λ _, true) (set_status status failureReason now)
    "deployment: update status" "deployment not found" status message None now.

(** [status NOT IN (...)] *)
Definition none_of (l : list Status) (d : Deployment) : bool :=
  forallb (λ s, negb (Deployment.Status d =s? s)) l.

Definition UpdateDeployComplete (ev orgID id : string) (res : DeployResult) (now : Time)
    : db (deploydb W) Deployment :=
  change ev orgID id (none_of [StatusCancelled; StatusFailed]) (gone_live res now)
    "deployment: update deploy complete" "deployment not found or not deployable"
    StatusLive "deployment live"
    (Some (json_object [("strategy", VString (res_Strategy res));
                        ("container_id", VString (res_ContainerID res));
                        ("image_digest", VString (res_ImageDigest res))])) now.

Definition MarkDeployFailed (ev orgID id reason : string) (ms : Z) (now : Time)
    : db (deploydb W) Deployment :=
  change ev orgID id (none_of [StatusCancelled; StatusLive]) (deploy_failed reason ms now)
    "deployment: mark deploy failed" "deployment not found" StatusFailed reason None now.

Definition MarkRolledBack (ev orgID id : string) (ms : Z) (now : Time) : db (deploydb W) Deployment :=
  change ev orgID id (λ _, true) (rolled_back ms now)
    "deployment: mark rolled back" "deployment not found" StatusRolledBack "rollback completed" None now.

Definition UpdateBuildComplete (ev orgID id : string) (res : BuildResult) (now : Time)
    : db (deploydb W) Deployment :=
  change ev orgID id (none_of [StatusCancelled; StatusFailed]) (built_with res now)
    "deployment: update build complete" "deployment not found or not buildable"
    StatusBuilt "build completed"
    (Some (json_object [("image_digest", VString (built_ImageDigest res));
                        ("framework", VString (built_Framework res))])) now.

Definition MarkBuildFailed (ev orgID id reason : string) (ms : Z) (now : Time)
    : db (deploydb W) Deployment :=
  change ev orgID id (none_of [StatusCancelled; StatusLive]) (build_failed reason ms now)
    "deployment: mark build failed" "deployment not found" StatusFailed reason None now.
End repository.
