(* ===== verification/DeploymentFacts.v ===== *)
(** * Deployments and their timeline

    Facts about the deployment repository: the timeline always tells the
    status, and the guarded changes leave finished deployments alone. *)

From S2P Require Import Prelude GoLib Errors Postgres Sql DeployModel DeploymentRepo.

Section facts.
Context {W : Type} `{D : Driver} `{So : Sorter} `{J : Jsonb}.

(** The last entry of the timeline of a deployment. *)
Definition last_event (id : string) (st : deploydb W) : option Event :=
  last (select (event_of id) (timeline st)).

Definition timeline_ok (st : deploydb W) : Prop :=
  NoDup (Deployment.ID <$> deployments st)
  ∧ (∀ d, d ∈ deployments st →
       ∃ e, last_event (Deployment.ID d) st = Some e ∧ Event.Status e = Deployment.Status d)
  ∧ ∀ e, e ∈ timeline st → Event.DeploymentID e ∈ Deployment.ID <$> deployments st.

Lemma select_app_last (p : Event → bool) l e :
  last (select p (l ++ [e])) = if p e then Some e else last (select p l).
Proof.
  unfold select. rewrite filter_app. destruct (p e) eqn:E.
  - rewrite (filter_cons_True _ e) by done. by rewrite filter_nil, last_snoc.
  - rewrite (filter_cons_False _ e) by congruence. by rewrite filter_nil, app_nil_r.
Qed.

(** Appending an entry for a deployment whose rows all have its status. *)
Lemma insert_event_ok row st :
  NoDup (Deployment.ID <$> deployments st) →
  (∀ e, e ∈ timeline st → Event.DeploymentID e ∈ Deployment.ID <$> deployments st) →
  (∀ d, d ∈ deployments st →
     if Deployment.ID d =s? Event.DeploymentID row then Deployment.Status d = Event.Status row
     else ∃ e, last_event (Deployment.ID d) st = Some e ∧ Event.Status e = Deployment.Status d) →
  match insert_event row st with (Ok _, st') => timeline_ok st' | (Err _, st') => st' = st end.
Proof.
  intros Hn He Hd. unfold insert_event. destruct (matched _ (timeline st) =? 0); [|done]. simpl.
  destruct (Z.eqb_spec (matched (λ d, Deployment.ID d =s? Event.DeploymentID row) (deployments st)) 0)
    as [|Hm]; [done|]. split; [done|]. split; simpl.
  - intros d Hin. specialize (Hd d Hin). unfold last_event in *. simpl.
    rewrite select_app_last. unfold event_of at 1.
    destruct (String.eqb_spec (Deployment.ID d) (Event.DeploymentID row)) as [E|E].
    + rewrite E, String.eqb_refl. by exists row.
    + destruct (String.eqb_spec (Event.DeploymentID row) (Deployment.ID d)); [congruence|done].
  - intros e [?| ->%list_elem_of_singleton]%elem_of_app; [by apply He|].
    rewrite matched_zero in Hm. apply list_elem_of_fmap.
    destruct (decide (Exists (λ d, Deployment.ID d = Event.DeploymentID row) (deployments st))) as [Hx|Hx].
    + apply Exists_exists in Hx as (d & ? & ?). by exists d.
    + destruct Hm. intros d Hin. apply String.eqb_neq. intros ?. destruct Hx.
      apply Exists_exists. by exists d.
Qed.

(** What the function of an [UPDATE] must do. *)
Definition sets (f : Deployment → Deployment) (status : Status) : Prop :=
  ∀ d, Deployment.ID (f d) = Deployment.ID d ∧ Deployment.Status (f d) = status.

(** A successful change has updated a row of the deployment, and left it so. *)
Lemma change_row ev org id p f wrap missing status msg meta now (st : deploydb W) :
  wp (change ev org id p f wrap missing status msg meta now)
    (λ _ st', ∃ d, is_deployment org id d = true ∧ p d = true ∧ d ∈ deployments st ∧ f d ∈ deployments st')
    (λ _ _, True) st.
Proof.
  unfold change. wp_step. apply wp_Transact; [done|]. wp_step. wp_step. unfold update_deployments. wp_step; [done|].
  set (q := λ d, is_deployment org id d && p d).
  destruct (Z.eqb_spec (matched q (deployments st)) 0) as [|Hm]; [by wp_step|].
  apply matched_some in Hm as (d & Hd & Hq). pose proof (proj1 (andb_true_iff _ _) Hq) as [Hid Hp].
  set (st1 := set_deployments (update_where q f (deployments st)) st).
  assert (f d ∈ deployments st1) as Hf by (apply elem_of_update_where; exists d; by rewrite Hq).
  unfold addEvent. wp_step. wp_step; [done|].
  unfold insert_event. repeat case_match; simplify_eq/=; [done..|].
  unfold GetByID, one_deployment. wp_step. wp_step; [done|]. case_match; [by exists d|done].
Qed.

Lemma update_ids f status p l :
  sets f status → Deployment.ID <$> update_where p f l = Deployment.ID <$> l.
Proof.
  intros Hf. unfold update_where. rewrite <- list_fmap_compose. apply list_fmap_ext.
  intros ? d _. simpl. destruct (p d); [apply Hf|done].
Qed.

Lemma unique_row (l : list Deployment) x y :
  NoDup (Deployment.ID <$> l) → x ∈ l → y ∈ l → Deployment.ID x = Deployment.ID y → x = y.
Proof.
  intros Hn [i Hi]%list_elem_of_lookup [j Hj]%list_elem_of_lookup E.
  assert (i = j) as ->; [|congruence].
  eapply NoDup_lookup; [done| |]; rewrite list_lookup_fmap; [by rewrite Hi|by rewrite Hj, E].
Qed.

Lemma change_preserves ev orgID id p f wrap missing status message meta now :
  sets f status → preserves timeline_ok (change ev orgID id p f wrap missing status message meta now).
Proof.
  intros Hf. apply preserves_wp. intros st (Hn & Hd & He). unfold change.
  apply wp_bind, wp_Transact; [done|].
  wp_step. wp_step. unfold update_deployments. wp_step; [done|].
  set (q := λ d, is_deployment orgID id d && p d). set (l := deployments st).
  destruct (Z.eqb_spec (matched q l) 0) as [|Hm]; [by wp_step|].
  set (st1 := set_deployments (update_where q f l) st).
  unfold addEvent. wp_step. wp_step; [done|].
  assert (∃ r, r ∈ l ∧ q r = true) as (r & Hr & Hq).
  { rewrite matched_zero in Hm. destruct (decide (Exists (λ d, q d = true) l)) as [Hx|Hx].
    - by apply Exists_exists in Hx.
    - destruct Hm. intros d Hin. apply not_true_iff_false. intros ?. destruct Hx.
      apply Exists_exists. by exists d. }
  assert (Deployment.ID r = id) as Eid.
  { unfold q, is_deployment in Hq. by bool_to_prop. }
  pose proof (insert_event_ok {| Event.ID := ev; Event.DeploymentID := id; Event.Status := status;
       Event.Message := message; Event.Metadata := default "{}" meta; Event.CreatedAt := now |} st1) as Hi.
  destruct (insert_event _ st1) as [[[]|] st2]; [|done].
  eapply wp_mono; [apply (wp_preserves timeline_ok)|done|done].
  { unfold GetByID, one_deployment. apply preserves_translate, preserves_query. intros s Hs.
    by destruct (select _ _). }
  apply Hi; simpl.
  - by rewrite (update_ids f status).
  - intros e Hin. rewrite (update_ids f status) by done. by apply He.
  - intros d' (d & Hin & ->)%elem_of_update_where. destruct (q d) eqn:Eq.
    + assert (Deployment.ID d = id) as Ed by (unfold q, is_deployment in Eq; by bool_to_prop).
      destruct (Hf d) as [-> ->]. by rewrite Ed, String.eqb_refl.
    + destruct (String.eqb_spec (Deployment.ID d) id) as [E|E]; [|by apply Hd].
      assert (d = r) as -> by (eapply (unique_row l); [done..|congruence]). congruence.
Qed.

Lemma UpdateStatus_sets status failure now : sets (set_status status failure now) status.
Proof. done. Qed.
Lemma gone_live_sets res now : sets (gone_live res now) StatusLive.
Proof. done. Qed.
Lemma built_with_sets res now : sets (built_with res now) StatusBuilt.
Proof. done. Qed.
Lemma deploy_failed_sets reason ms now : sets (deploy_failed reason ms now) StatusFailed.
Proof. done. Qed.
Lemma build_failed_sets reason ms now : sets (build_failed reason ms now) StatusFailed.
Proof. done. Qed.
Lemma rolled_back_sets ms now : sets (rolled_back ms now) StatusRolledBack.
Proof. done. Qed.

Lemma Create_preserves fresh ev d now : preserves timeline_ok (Create fresh ev d now).
Proof.
  apply preserves_wp. intros st (Hn & Hd & He). unfold Create.
  set (row := new_deployment fresh now d).
  apply wp_bind, wp_Transact; [done|].
  wp_step. wp_step. wp_step; [done|]. unfold insert_deployment.
  destruct (uuid_or_null _); [|done]. cbn [negb].
  destruct (Z.eqb_spec (matched (λ d, Deployment.ID d =s? Deployment.ID row) (deployments st)) 0)
    as [Hm|]; cbn [negb]; [|done]. destruct (matched _ (projects st) =? 0); [done|].
  rewrite matched_zero in Hm. unfold addEvent. wp_step. wp_step; [done|].
  set (st1 := set_deployments (deployments st ++ [row]) st).
  pose proof (insert_event_ok {| Event.ID := ev; Event.DeploymentID := Deployment.ID row;
       Event.Status := Deployment.Status row;
       Event.Message := "deployment created"; Event.Metadata := "{}"; Event.CreatedAt := now |} st1) as Hi.
  destruct (insert_event _ st1) as [[[]|] st2]; [|done].
  eapply wp_mono; [apply (wp_preserves timeline_ok)|done|done].
  { unfold GetByID, one_deployment. apply preserves_translate, preserves_query. intros s Hs.
    by destruct (select _ _). }
  apply Hi; simpl.
  - rewrite fmap_app. apply NoDup_app. split; [done|]. split; [|by apply NoDup_singleton].
    intros i (x & -> & Hx)%list_elem_of_fmap E%list_elem_of_singleton.
    specialize (Hm x Hx). apply String.eqb_neq in Hm. done.
  - intros e Hin%He. rewrite fmap_app. apply elem_of_app. by left.
  - intros x [Hx| ->%list_elem_of_singleton]%elem_of_app.
    + pose proof (Hm x Hx) as Hx'. simpl in Hx'. rewrite Hx'. by apply Hd.
    + by rewrite String.eqb_refl.
Qed.

(** ** Changes that match no row, and changes without failures *)

Lemma select_false {R} (p : R → bool) l : (∀ r, r ∈ l → p r = false) → matched p l = 0.
Proof. by rewrite matched_zero. Qed.

Lemma change_refused ev orgID id p f wrap missing status message meta now (st : deploydb W) fs :
  (∀ d, d ∈ deployments st → is_deployment orgID id d = true → p d = false) →
  match change ev orgID id p f wrap missing status message meta now (st, fs) with
  | (Err _, (st', _)) => st' = st
  | (Ok _, _) => False
  end.
Proof.
  intros Hp. cut (wp (change ev orgID id p f wrap missing status message meta now)
    (λ _ _, False) (λ _ st', st' = st) st).
  { intros H. specialize (H fs). by destruct (change _ _ _ _ _ _ _ _ _ _ _ _) as [[] []]. }
  apply wp_bind, wp_Transact; [done|]. wp_step. wp_step. unfold update_deployments. wp_step; [done|].
  rewrite select_false; [simpl; by wp_step|].
  intros d Hd. destruct (is_deployment orgID id d) eqn:E; [|done]. by rewrite (Hp d).
Qed.

(** The row of a deployment, and the rest of its table. *)
Definition has_row (d : Deployment) (st : deploydb W) : Prop :=
  NoDup (Deployment.ID <$> deployments st) ∧ d ∈ deployments st.

Lemma select_row d st p :
  has_row d st → p d = true →
  (∀ d', p d' = true → Deployment.ID d' = Deployment.ID d) → select p (deployments st) = [d].
Proof. intros [Hn Hd] Hp Hu. by apply (select_unique Deployment.ID). Qed.

Lemma is_deployment_self d : is_deployment (Deployment.OrgID d) (Deployment.ID d) d = true.
Proof. unfold is_deployment. by rewrite !String.eqb_refl. Qed.

Lemma is_deployment_id orgID id d : is_deployment orgID id d = true → Deployment.ID d = id.
Proof. unfold is_deployment. intros. by bool_to_prop. Qed.

(** The entry and the table a change leaves. *)
Definition after_change (ev id : string) (p : Deployment → bool) (f : Deployment → Deployment)
    (status : Status) (message : string) (meta : option string) (now : Time) (st : deploydb W) : deploydb W :=
  set_timeline (timeline st ++ [{| Event.ID := ev; Event.DeploymentID := id; Event.Status := status;
                                   Event.Message := message; Event.Metadata := default "{}" meta; Event.CreatedAt := now |}])
    (set_deployments (update_where p f (deployments st)) st).

Lemma change_runs ev d p f wrap missing status message meta now st :
  has_row d st → sets f status → Deployment.OrgID (f d) = Deployment.OrgID d →
  p d = true → (∀ e, e ∈ timeline st → Event.ID e ≠ ev) →
  runs (change ev (Deployment.OrgID d) (Deployment.ID d) p f wrap missing status message meta now) st
    (Ok (f d))
    (after_change ev (Deployment.ID d)
       (λ d', is_deployment (Deployment.OrgID d) (Deployment.ID d) d' && p d') f status message meta now st).
Proof.
  intros Hrow Hf Horg Hp Hev. destruct Hrow as [Hn Hd].
  set (q := λ d', is_deployment (Deployment.OrgID d) (Deployment.ID d) d' && p d').
  unfold change. fold q.
  assert (q d = true) as Hq by (unfold q; by rewrite is_deployment_self).
  assert (select q (deployments st) = [d]) as Hsel.
  { apply select_row; [done..|]. intros d' [E _]%andb_true_iff. by apply is_deployment_id in E. }
  assert (matched q (deployments st) = 1) as Hm1 by (unfold matched; by rewrite Hsel).
  clearbody q.
  set (st1 := set_deployments (update_where q f (deployments st)) st).
  assert (f d ∈ update_where q f (deployments st)) as Hin.
  { apply elem_of_update_where. exists d. by rewrite Hq. }
  eapply (runs_bind _ _ _ tt).
  - unfold runs. rewrite (Transact_no_faults _ _ (Ok tt)
      (after_change ev (Deployment.ID d) q f status message meta now st)); [done|].
    eapply (runs_bind _ _ _ 1); [|].
    + eapply (runs_translate _ _ _ (Ok 1)). unfold runs, update_deployments, exec, query.
      cbn beta iota. by rewrite Hm1.
    + change (1 =? 0) with false. cbn iota. unfold addEvent.
      eapply (runs_translate _ _ _ (Ok tt)). unfold runs, query. fold st1.
      unfold insert_event. simpl.
      rewrite (select_false (λ e, Event.ID e =s? ev)) by (intros; apply String.eqb_neq; by apply Hev). simpl.
      destruct (Z.eqb_spec (matched (λ d0, Deployment.ID d0 =s? Deployment.ID d)
                  (update_where q f (deployments st))) 0) as [E|_].
      { rewrite matched_zero in E. specialize (E _ Hin). destruct (Hf d) as [E1 _].
        rewrite E1, String.eqb_refl in E. done. }
      done.
  - unfold GetByID. eapply (runs_translate _ _ _ (Ok (f d))). unfold one_deployment, runs, query. simpl.
    rewrite (select_unique Deployment.ID _ _ (f d)); [done| | | |].
    + by rewrite (update_ids f status).
    + done.
    + unfold is_deployment. destruct (Hf d) as [-> _]. by rewrite Horg, !String.eqb_refl.
    + intros d' E%is_deployment_id. destruct (Hf d) as [-> _]. done.
Qed.
End facts.

Section theorems.
Context {W : Type} `{D : Driver} `{So : Sorter} `{J : Jsonb}.

(** One change of the control plane or of the deployer, with any failures. *)
Inductive changed : deploydb W → deploydb W → Prop :=
| ch_create fresh ev d now st fs : changed st (tables_of (Create fresh ev d now (st, fs)))
| ch_status ev org id status msg reason now st fs :
    changed st (tables_of (UpdateStatus ev org id status msg reason now (st, fs)))
| ch_live ev org id res now st fs :
    changed st (tables_of (UpdateDeployComplete ev org id res now (st, fs)))
| ch_deploy_failed ev org id reason ms now st fs :
    changed st (tables_of (MarkDeployFailed ev org id reason ms now (st, fs)))
| ch_rolled_back ev org id ms now st fs :
    changed st (tables_of (MarkRolledBack ev org id ms now (st, fs)))
| ch_built ev org id res now st fs :
    changed st (tables_of (UpdateBuildComplete ev org id res now (st, fs)))
| ch_build_failed ev org id reason ms now st fs :
    changed st (tables_of (MarkBuildFailed ev org id reason ms now (st, fs))).

Lemma changed_timeline_ok st st' : changed st st' → timeline_ok st → timeline_ok st'.
Proof.
  intros [] H; [by apply Create_preserves|..]; (eapply change_preserves; [|exact H]).
  - apply UpdateStatus_sets.
  - apply gone_live_sets.
  - apply deploy_failed_sets.
  - apply rolled_back_sets.
  - apply built_with_sets.
  - apply build_failed_sets.
Qed.

(** C39: whatever changes the control plane and the deployer make, with any
    statements failing, the timeline tells the status: deployment ids are
    unique, and the last timeline entry of every deployment has exactly the
    status of its row. *)
Theorem timeline_tells_status (st0 st : deploydb W) :
  deployments st0 = [] → timeline st0 = [] → rtc changed st0 st →
  NoDup (Deployment.ID <$> deployments st) ∧
  ∀ d, d ∈ deployments st →
    ∃ e, last (select (event_of (Deployment.ID d)) (timeline st)) = Some e
         ∧ Event.Status e = Deployment.Status d.
Proof.
  intros H1 H2 Hr. cut (timeline_ok st); [by intros (?&?&?)|].
  assert (timeline_ok st0) as H0.
  { unfold timeline_ok. rewrite H1, H2. repeat split; [constructor|set_solver..]. }
  clear H1 H2. induction Hr; eauto using changed_timeline_ok.
Qed.

(** The statuses a guarded change refuses. *)
Definition refuses_build (d : Deployment) : Prop :=
  Deployment.Status d = StatusCancelled ∨ Deployment.Status d = StatusFailed.
Definition refuses_failure (d : Deployment) : Prop :=
  Deployment.Status d = StatusCancelled ∨ Deployment.Status d = StatusLive.

(** The tables are as before and the change reports an error. *)
Definition untouched {A} (st : deploydb W) (r : result error A * (deploydb W * faults)) : Prop :=
  match r with (Err _, (st', _)) => st' = st | (Ok _, _) => False end.

Lemma none_of_two a b d :
  none_of [a; b] d = false ↔ Deployment.Status d = a ∨ Deployment.Status d = b.
Proof.
  unfold none_of; simpl. rewrite andb_true_r, andb_false_iff, !negb_false_iff, !String.eqb_eq. done.
Qed.

(** Completions and failures are final: a cancelled deployment is not
    touched by any of the guarded changes, a failed one cannot be completed, a
    live one cannot be failed, under any statement failures; in the other
    statuses each change, when no statement fails, returns the updated row,
    with the status live, built or failed, and appends one timeline entry. *)
Theorem guarded_changes (st : deploydb W) d ev res bres reason ms now :
  has_row d st → (∀ e, e ∈ timeline st → Event.ID e ≠ ev) →
  let org := Deployment.OrgID d in
  let id := Deployment.ID d in
  (refuses_build d → ∀ fs,
     untouched st (UpdateDeployComplete ev org id res now (st, fs))
     ∧ untouched st (UpdateBuildComplete ev org id bres now (st, fs)))
  ∧ (refuses_failure d → ∀ fs,
     untouched st (MarkDeployFailed ev org id reason ms now (st, fs))
     ∧ untouched st (MarkBuildFailed ev org id reason ms now (st, fs)))
  ∧ (¬ refuses_build d →
     (∃ st1, runs (UpdateDeployComplete ev org id res now) st (Ok (gone_live res now d)) st1
             ∧ length (timeline st1) = S (length (timeline st)))
     ∧ (∃ st1, runs (UpdateBuildComplete ev org id bres now) st (Ok (built_with bres now d)) st1
             ∧ length (timeline st1) = S (length (timeline st))))
  ∧ (¬ refuses_failure d →
     ∃ st1, runs (MarkDeployFailed ev org id reason ms now) st (Ok (deploy_failed reason ms now d)) st1
             ∧ length (timeline st1) = S (length (timeline st))).
Proof.
  intros Hrow Hev org id.
  assert (∀ p, p d = false → ∀ d', d' ∈ deployments st → is_deployment org id d' = true → p d' = false) as Hp.
  { intros p E d' Hd' E'%is_deployment_id. destruct Hrow as [Hn Hd].
    by rewrite (unique_row _ d' d Hn Hd' Hd E'). }
  assert (∀ x, length (timeline st ++ [x]) = S (length (timeline st))) as Hl.
  { intros x. rewrite length_app. simpl. lia. }
  split; [|split; [|split]].
  - intros Hr%none_of_two fs. split; apply change_refused; by apply Hp.
  - intros Hr%none_of_two fs. split; apply change_refused; by apply Hp.
  - intros Hr. assert (none_of [StatusCancelled; StatusFailed] d = true) as E.
    { apply not_false_iff_true. by rewrite none_of_two. }
    split; eexists; (split; [by apply change_runs|by apply Hl]).
  - intros Hr. assert (none_of [StatusCancelled; StatusLive] d = true) as E.
    { apply not_false_iff_true. by rewrite none_of_two. }
    eexists; (split; [by apply change_runs|by apply Hl]).
Qed.
End theorems.

(** ** Concrete deployments *)

#[local] Existing Instance strict_driver.
#[local] Existing Instance insertion_sorter.
#[local] Instance text_jsonb : Jsonb := 
  {| json_object := λ _, "{}"; jsonb_merge := λ a b, if b =s? "{}" then a else b |}.

Definition some_project : Project :=
  {| Project.ID := "p"; Project.OrgID := "o"; Project.Name := "App"; Project.Slug := "app";
     Project.Description := ""; Project.RepoURL := ""; Project.RepoProvider := "";
     Project.Branch := "main"; Project.DefaultRuntime := "go"; Project.Framework := "";
     Project.BuildMethod := "dockerfile"; Project.Region := "us-east-1"; Project.SleepConfig := "{}";
     Project.Visibility := "private"; Project.Status := Project.StatusActive; Project.Labels := "[]";
     Project.Tags := []; Project.Metadata := "{}"; Project.CreatedBy := "u"; Project.CreatedAt := 0;
     Project.UpdatedAt := 0; Project.ArchivedAt := None; Project.DeletedAt := None |}.

Definition empty_db {W} (w : W) : deploydb W := mkDb [] [] [] [some_project] [] [] [] [] [] ∅ w [].

Definition some_deployment : Deployment :=
  {| Deployment.ID := "d1"; Deployment.OrgID := "o"; Deployment.ProjectID := "p";
     Deployment.Status := StatusPending; Deployment.CommitSHA := "c0ffee";
     Deployment.CommitMessage := ""; Deployment.Branch := "main"; Deployment.Author := "";
     Deployment.ImageTag := "app:1"; Deployment.Runtime := ""; Deployment.BuildDurationMs := None;
     Deployment.DeployDurationMs := None; Deployment.FailureReason := "";
     Deployment.TriggerSource := "manual"; Deployment.TriggerUserID := None;
     Deployment.Environment := "production"; Deployment.CorrelationID := "";
     Deployment.Metadata := "{}"; Deployment.CreatedAt := 0; Deployment.UpdatedAt := 0;
     Deployment.StartedAt := None; Deployment.FinishedAt := None |}.

Definition created : deploydb unit := tables_of (Create "d1" "e1" some_deployment 10 (empty_db (), [])).
Definition cancelled : deploydb unit :=
  tables_of (UpdateStatus "e2" "o" "d1" StatusCancelled "cancelled by user" "" 20 (created, [])).

Lemma timeline_tells_status_witness :
  NoDup (Deployment.ID <$> deployments cancelled) ∧
  ∀ d, d ∈ deployments cancelled →
    ∃ e, last (select (event_of (Deployment.ID d)) (timeline cancelled)) = Some e
         ∧ Event.Status e = Deployment.Status d.
Proof.
  apply (timeline_tells_status (empty_db ())); [reflexivity..|].
  eapply rtc_l; [apply (ch_create "d1" "e1" some_deployment 10 _ [])|].
  apply rtc_once. apply (ch_status "e2" "o" "d1" StatusCancelled "cancelled by user" "" 20 _ []).
Defined.

Definition some_result : DeployResult :=
  {| res_ImageTag := "app:2"; res_ImageDigest := ""; res_DeployDurationMs := 5;
     res_Strategy := "rolling"; res_ContainerID := "c"; res_Metadata := None |}.
Definition some_build : BuildResult :=
  {| built_ImageTag := "app:2"; built_ImageDigest := ""; built_Runtime := "";
     built_Framework := ""; built_DurationMs := 5; built_Metadata := None |}.

Lemma guarded_changes_witness :
  ∃ d, head (deployments cancelled) = Some d ∧ refuses_build d ∧
  untouched cancelled (UpdateDeployComplete "e3" "o" "d1" some_result 30 (cancelled, [])).
Proof.
  eexists. split; [reflexivity|].
  match goal with |- refuses_build ?d ∧ _ =>
    pose proof (guarded_changes cancelled d "e3" some_result some_build "" 0 30) as H end.
  destruct H as (H & _).
  - split; [vm_compute; apply NoDup_singleton|]. vm_compute. apply list_elem_of_here.
  - intros e He. vm_compute in He. set_unfold in He. destruct_or!; subst; discriminate.
  - split; [by left|]. apply H. by left.
Defined.

(** [UpdateStatus] has no such guard: a deployment cancelled while the deployer
    is at work is set back to deploying, after which it can go live. *)
Example cancelled_goes_live :
  let st := tables_of (UpdateStatus "e3" "o" "d1" StatusDeploying "pulling image" "" 30 (cancelled, [])) in
  let st := tables_of (UpdateDeployComplete "e4" "o" "d1" some_result 40 (st, [])) in
  Deployment.Status <$> deployments cancelled = [StatusCancelled]
  ∧ Deployment.Status <$> deployments st = [StatusLive].
Proof. vm_compute. done. Qed.
