(* ===== verification/DeployStore.v ===== *)
(** * The deployer's tables (packages/application/deploy/deploystore, deploy/events)

    Executions with their phase transitions, containers, health checks and
    events, and the reads of artifacts and projects.  Identifiers of new rows
    and the clock are arguments.  [Publish] is the insert of the event
    repository; delivery on the bus is not modelled. *)

From S2P Require Import Prelude GoLib Errors Postgres Sql DeployModel.

(** ** Row updates *)

(** The [DO UPDATE] of the upsert. *)
Definition exec_merge (e : Execution) (now : Time) (r : Execution) : Execution :=
    {| Execution.ID := Execution.ID r; Execution.OrgID := Execution.OrgID r;
     Execution.ProjectID := Execution.ProjectID r;
     Execution.DeploymentID := Execution.DeploymentID r;
     Execution.JobID := match Execution.JobID e with Some j => Some j | None => Execution.JobID r end;
     Execution.Status := Execution.Status r; Execution.Phase := Execution.Phase r;
     Execution.Strategy := Execution.Strategy r;
     Execution.Environment := Execution.Environment r;
     Execution.ImageTag := Execution.ImageTag r;
     Execution.ImageDigest := Execution.ImageDigest r; Execution.BuildID := Execution.BuildID r;
     Execution.ContainerID := Execution.ContainerID r; Execution.Host := Execution.Host r;
     Execution.Port := Execution.Port r; Execution.CorrelationID := Execution.CorrelationID r;
     Execution.WorkerID := Execution.WorkerID r;
     Execution.FailureReason := Execution.FailureReason r;
     Execution.RollbackOf := Execution.RollbackOf r;
     Execution.StartedAt := Execution.StartedAt r;
     Execution.FinishedAt := Execution.FinishedAt r;
     Execution.DeployDurationMs := Execution.DeployDurationMs r;
     Execution.Metadata := Execution.Metadata r; Execution.CreatedAt := Execution.CreatedAt r;
     Execution.UpdatedAt := now |}.

(** The row of the [INSERT]. *)
Definition exec_insert (id meta : string) (now : Time) (e : Execution) : Execution :=
    {| Execution.ID := id; Execution.OrgID := Execution.OrgID e;
     Execution.ProjectID := Execution.ProjectID e;
     Execution.DeploymentID := Execution.DeploymentID e; Execution.JobID := Execution.JobID e;
     Execution.Status := Execution.Status e; Execution.Phase := Execution.Phase e;
     Execution.Strategy := Execution.Strategy e;
     Execution.Environment := Execution.Environment e;
     Execution.ImageTag := Execution.ImageTag e;
     Execution.ImageDigest := Execution.ImageDigest e; Execution.BuildID := Execution.BuildID e;
     Execution.ContainerID := ""; Execution.Host := ""; Execution.Port := 0;
     Execution.CorrelationID := Execution.CorrelationID e;
     Execution.WorkerID := Execution.WorkerID e; Execution.FailureReason := "";
     Execution.RollbackOf := Execution.RollbackOf e; Execution.StartedAt := None;
     Execution.FinishedAt := None; Execution.DeployDurationMs := None;
     Execution.Metadata := meta; Execution.CreatedAt := now; Execution.UpdatedAt := now |}.

Definition exec_phase (phase : Phase) (now : Time) (e : Execution) : Execution :=
    {| Execution.ID := Execution.ID e; Execution.OrgID := Execution.OrgID e;
     Execution.ProjectID := Execution.ProjectID e;
     Execution.DeploymentID := Execution.DeploymentID e; Execution.JobID := Execution.JobID e;
     Execution.Status := Execution.Status e; Execution.Phase := phase;
     Execution.Strategy := Execution.Strategy e;
     Execution.Environment := Execution.Environment e;
     Execution.ImageTag := Execution.ImageTag e;
     Execution.ImageDigest := Execution.ImageDigest e; Execution.BuildID := Execution.BuildID e;
     Execution.ContainerID := Execution.ContainerID e; Execution.Host := Execution.Host e;
     Execution.Port := Execution.Port e; Execution.CorrelationID := Execution.CorrelationID e;
     Execution.WorkerID := Execution.WorkerID e;
     Execution.FailureReason := Execution.FailureReason e;
     Execution.RollbackOf := Execution.RollbackOf e;
     Execution.StartedAt := Execution.StartedAt e;
     Execution.FinishedAt := Execution.FinishedAt e;
     Execution.DeployDurationMs := Execution.DeployDurationMs e;
     Execution.Metadata := Execution.Metadata e; Execution.CreatedAt := Execution.CreatedAt e;
     Execution.UpdatedAt := now |}.

Definition exec_running (worker : string) (now : Time) (e : Execution) : Execution :=
    {| Execution.ID := Execution.ID e; Execution.OrgID := Execution.OrgID e;
     Execution.ProjectID := Execution.ProjectID e;
     Execution.DeploymentID := Execution.DeploymentID e; Execution.JobID := Execution.JobID e;
     Execution.Status := ExecRunning; Execution.Phase := Execution.Phase e;
     Execution.Strategy := Execution.Strategy e;
     Execution.Environment := Execution.Environment e;
     Execution.ImageTag := Execution.ImageTag e;
     Execution.ImageDigest := Execution.ImageDigest e; Execution.BuildID := Execution.BuildID e;
     Execution.ContainerID := Execution.ContainerID e; Execution.Host := Execution.Host e;
     Execution.Port := Execution.Port e; Execution.CorrelationID := Execution.CorrelationID e;
     Execution.WorkerID := worker; Execution.FailureReason := Execution.FailureReason e;
     Execution.RollbackOf := Execution.RollbackOf e;
     Execution.StartedAt := Some (default now (Execution.StartedAt e));
     Execution.FinishedAt := Execution.FinishedAt e;
     Execution.DeployDurationMs := Execution.DeployDurationMs e;
     Execution.Metadata := Execution.Metadata e; Execution.CreatedAt := Execution.CreatedAt e;
     Execution.UpdatedAt := now |}.

Definition exec_succeeded (container host : string) (port ms : Z) (now : Time) (e : Execution) : Execution :=
    {| Execution.ID := Execution.ID e; Execution.OrgID := Execution.OrgID e;
     Execution.ProjectID := Execution.ProjectID e;
     Execution.DeploymentID := Execution.DeploymentID e; Execution.JobID := Execution.JobID e;
     Execution.Status := ExecSucceeded; Execution.Phase := PhaseComplete;
     Execution.Strategy := Execution.Strategy e;
     Execution.Environment := Execution.Environment e;
     Execution.ImageTag := Execution.ImageTag e;
     Execution.ImageDigest := Execution.ImageDigest e; Execution.BuildID := Execution.BuildID e;
     Execution.ContainerID := container; Execution.Host := host; Execution.Port := port;
     Execution.CorrelationID := Execution.CorrelationID e;
     Execution.WorkerID := Execution.WorkerID e;
     Execution.FailureReason := Execution.FailureReason e;
     Execution.RollbackOf := Execution.RollbackOf e;
     Execution.StartedAt := Execution.StartedAt e; Execution.FinishedAt := Some now;
     Execution.DeployDurationMs := Some ms; Execution.Metadata := Execution.Metadata e;
     Execution.CreatedAt := Execution.CreatedAt e; Execution.UpdatedAt := now |}.

Definition exec_failed (reason : string) (ms : Z) (now : Time) (e : Execution) : Execution :=
    {| Execution.ID := Execution.ID e; Execution.OrgID := Execution.OrgID e;
     Execution.ProjectID := Execution.ProjectID e;
     Execution.DeploymentID := Execution.DeploymentID e; Execution.JobID := Execution.JobID e;
     Execution.Status := ExecFailed; Execution.Phase := PhaseFailed;
     Execution.Strategy := Execution.Strategy e;
     Execution.Environment := Execution.Environment e;
     Execution.ImageTag := Execution.ImageTag e;
     Execution.ImageDigest := Execution.ImageDigest e; Execution.BuildID := Execution.BuildID e;
     Execution.ContainerID := Execution.ContainerID e; Execution.Host := Execution.Host e;
     Execution.Port := Execution.Port e; Execution.CorrelationID := Execution.CorrelationID e;
     Execution.WorkerID := Execution.WorkerID e; Execution.FailureReason := reason;
     Execution.RollbackOf := Execution.RollbackOf e;
     Execution.StartedAt := Execution.StartedAt e; Execution.FinishedAt := Some now;
     Execution.DeployDurationMs := Some ms; Execution.Metadata := Execution.Metadata e;
     Execution.CreatedAt := Execution.CreatedAt e; Execution.UpdatedAt := now |}.

Definition exec_cancelled (now : Time) (e : Execution) : Execution :=
    {| Execution.ID := Execution.ID e; Execution.OrgID := Execution.OrgID e;
     Execution.ProjectID := Execution.ProjectID e;
     Execution.DeploymentID := Execution.DeploymentID e; Execution.JobID := Execution.JobID e;
     Execution.Status := ExecCancelled; Execution.Phase := PhaseCancelled;
     Execution.Strategy := Execution.Strategy e;
     Execution.Environment := Execution.Environment e;
     Execution.ImageTag := Execution.ImageTag e;
     Execution.ImageDigest := Execution.ImageDigest e; Execution.BuildID := Execution.BuildID e;
     Execution.ContainerID := Execution.ContainerID e; Execution.Host := Execution.Host e;
     Execution.Port := Execution.Port e; Execution.CorrelationID := Execution.CorrelationID e;
     Execution.WorkerID := Execution.WorkerID e;
     Execution.FailureReason := Execution.FailureReason e;
     Execution.RollbackOf := Execution.RollbackOf e;
     Execution.StartedAt := Execution.StartedAt e; Execution.FinishedAt := Some now;
     Execution.DeployDurationMs := Execution.DeployDurationMs e;
     Execution.Metadata := Execution.Metadata e; Execution.CreatedAt := Execution.CreatedAt e;
     Execution.UpdatedAt := now |}.

Definition container_stopped (now : Time) (c : ContainerRecord) : ContainerRecord :=
    {| ContainerRecord.ID := ContainerRecord.ID c;
     ContainerRecord.ExecutionID := ContainerRecord.ExecutionID c;
     ContainerRecord.DeploymentID := ContainerRecord.DeploymentID c;
     ContainerRecord.ContainerID := ContainerRecord.ContainerID c;
     ContainerRecord.Image := ContainerRecord.Image c;
     ContainerRecord.Host := ContainerRecord.Host c;
     ContainerRecord.Port := ContainerRecord.Port c; ContainerRecord.Status := "stopped";
     ContainerRecord.Role := ContainerRecord.Role c;
     ContainerRecord.CreatedAt := ContainerRecord.CreatedAt c;
     ContainerRecord.StoppedAt := Some now;
     ContainerRecord.RemovedAt := ContainerRecord.RemovedAt c |}.

Definition container_removed (now : Time) (c : ContainerRecord) : ContainerRecord :=
    {| ContainerRecord.ID := ContainerRecord.ID c;
     ContainerRecord.ExecutionID := ContainerRecord.ExecutionID c;
     ContainerRecord.DeploymentID := ContainerRecord.DeploymentID c;
     ContainerRecord.ContainerID := ContainerRecord.ContainerID c;
     ContainerRecord.Image := ContainerRecord.Image c;
     ContainerRecord.Host := ContainerRecord.Host c;
     ContainerRecord.Port := ContainerRecord.Port c; ContainerRecord.Status := "removed";
     ContainerRecord.Role := ContainerRecord.Role c;
     ContainerRecord.CreatedAt := ContainerRecord.CreatedAt c;
     ContainerRecord.StoppedAt := ContainerRecord.StoppedAt c;
     ContainerRecord.RemovedAt := Some now |}.

(** ** Conditions *)

Definition exec_id (id : string) (e : Execution) : bool := Execution.ID e =s? id.
Definition exec_of (dep : string) (e : Execution) : bool := Execution.DeploymentID e =s? dep.
Definition container_is (id : string) (c : ContainerRecord) : bool := ContainerRecord.ContainerID c =s? id.
Definition present (c : ContainerRecord) : bool :=
  match ContainerRecord.RemovedAt c with None => true | Some _ => false end.

Definition duplicate : error := PgError sqlStateUniqueViolation "duplicate key".
Definition no_parent : error := PgError sqlStateForeignKeyViolation "execution_id".

Section store.
Context {W : Type} `{D : Driver} `{So : Sorter}.

(** ** Executions *)

Definition upsert_execution (row : Execution) (now : Time) (st : deploydb W)
    : result error Execution * deploydb W :=
  if negb (uuid_or_null (Execution.JobID row)) then (Err invalid_uuid, st)
  else match select (exec_of (Execution.DeploymentID row)) (executions st) with
  | r :: _ =>
      (Ok (exec_merge row now r),
       set_executions (update_where (exec_of (Execution.DeploymentID row)) (exec_merge row now)
                         (executions st)) st)
  | [] =>
      if matched (exec_id (Execution.ID row)) (executions st) =? 0
      then (Ok row, set_executions (executions st ++ [row]) st)
      else (Err duplicate, st)
  end.

Definition UpsertForDeployment (fresh : string) (e : Execution) (now : Time)
    : db (deploydb W) Execution :=
  let id := if Execution.ID e =s? "" then fresh else Execution.ID e in
  let meta := if Execution.Metadata e =s? "" then "{}" else Execution.Metadata e in
  translate "deployer: scan execution" (query (upsert_execution (exec_insert id meta now e) now)).

(** [UPDATE deployer_executions .. WHERE id=$1]; no row is no error. *)
Definition update_execution (id msg : string) (f : Execution → Execution) : db (deploydb W) unit :=
  translate msg (exec (λ st,
    (tt, set_executions (update_where (exec_id id) f (executions st)) st))).

Definition insert_transition (row : PhaseTransition) (st : deploydb W)
    : result error unit * deploydb W :=
  if negb (matched (λ t, PhaseTransition.ID t =s? PhaseTransition.ID row) (transitions st) =? 0)
  then (Err duplicate, st)
  else if matched (exec_id (PhaseTransition.ExecutionID row)) (executions st) =? 0
  then (Err no_parent, st)
  else (Ok tt, set_transitions (transitions st ++ [row]) st).

Definition SetPhase (id execID deploymentID : string) (from to : Phase) (message : string) (now : Time)
    : db (deploydb W) unit :=
  Transact (
    _ ← update_execution execID "deployer: set phase" (exec_phase to now);
    translate "deployer: phase transition" (query (insert_transition
      {| PhaseTransition.ID := id; PhaseTransition.ExecutionID := execID;
         PhaseTransition.DeploymentID := deploymentID; PhaseTransition.FromPhase := from;
         PhaseTransition.ToPhase := to; PhaseTransition.Message := message;
         PhaseTransition.Metadata := "{}"; PhaseTransition.CreatedAt := now |}))).

Definition MarkRunning (id workerID : string) (now : Time) : db (deploydb W) unit :=
  update_execution id "deployer: mark running" (exec_running workerID now).

Definition MarkSucceeded (id containerID host : string) (port ms : Z) (now : Time)
    : db (deploydb W) unit :=
  update_execution id "deployer: mark succeeded" (exec_succeeded containerID host port ms now).

Definition MarkFailed (id reason : string) (ms : Z) (now : Time) : db (deploydb W) unit :=
  update_execution id "deployer: mark failed" (exec_failed reason ms now).

Definition MarkCancelled (id : string) (now : Time) : db (deploydb W) unit :=
  update_execution id "deployer: mark cancelled" (exec_cancelled now).

Definition GetByDeployment (deploymentID : string) : db (deploydb W) Execution :=
  translate "deployer: scan execution" (query (λ st,
    (match select (exec_of deploymentID) (executions st) with e :: _ => Ok e | [] => Err ErrNoRows end, st))).

Definition count_by_status (l : list Execution) : gmap ExecutionStatus Z :=
  foldr (λ e m, <[Execution.Status e := default 0 (m !! Execution.Status e) + 1]> m) ∅ l.

Definition Stats : db (deploydb W) (gmap ExecutionStatus Z) :=
  translate "deployer: stats" (exec (λ st, (count_by_status (executions st), st))).

Definition ListPhaseTransitions (deploymentID : string) : db (deploydb W) (list PhaseTransition) :=
  translate "deployer: list phases" (exec (λ st,
    (sort_slice (λ x y, PhaseTransition.CreatedAt x <? PhaseTransition.CreatedAt y)
       (select (λ t, PhaseTransition.DeploymentID t =s? deploymentID) (transitions st)), st))).

(** ** Containers *)

Definition insert_container (row : ContainerRecord) (st : deploydb W) : result error unit * deploydb W :=
  if negb (matched (λ c, ContainerRecord.ID c =s? ContainerRecord.ID row) (containers st) =? 0)
  then (Err duplicate, st)
  else if matched (exec_id (ContainerRecord.ExecutionID row)) (executions st) =? 0
  then (Err no_parent, st)
  else (Ok tt, set_containers (containers st ++ [row]) st).

Definition CreateContainer (row : ContainerRecord) : db (deploydb W) unit :=
  translate "deployer: create container" (query (insert_container row)).

Definition update_containers (msg containerID : string) (f : ContainerRecord → ContainerRecord)
    : db (deploydb W) unit :=
  translate msg (exec (λ st,
    (tt, set_containers (update_where (container_is containerID) f (containers st)) st))).

Definition MarkStopped (containerID : string) (now : Time) : db (deploydb W) unit :=
  update_containers "deployer: stop container" containerID (container_stopped now).

Definition MarkRemoved (containerID : string) (now : Time) : db (deploydb W) unit :=
  update_containers "deployer: remove container" containerID (container_removed now).

Definition ListActiveByDeployment (deploymentID : string) : db (deploydb W) (list ContainerRecord) :=
  translate "deployer: list containers" (exec (λ st,
    (sort_slice (λ x y, ContainerRecord.CreatedAt x <? ContainerRecord.CreatedAt y)
       (select (λ c, (ContainerRecord.DeploymentID c =s? deploymentID) && present c) (containers st)), st))).

(** The join with the executions, whose id is a key. *)
Definition in_project (orgID projectID : string) (es : list Execution) (c : ContainerRecord) : bool :=
  negb (matched (λ e, (Execution.ID e =s? ContainerRecord.ExecutionID c) && (Execution.OrgID e =s? orgID)
                      && (Execution.ProjectID e =s? projectID)) es =? 0).

Definition ListActiveByProject (orgID projectID : string) : db (deploydb W) (list ContainerRecord) :=
  translate "deployer: list project containers" (exec (λ st,
    (sort_slice (λ x y, ContainerRecord.CreatedAt y <? ContainerRecord.CreatedAt x)
       (select (λ c, in_project orgID projectID (executions st) c && present c
                     && (ContainerRecord.Role c =s? "active")) (containers st)), st))).

(** ** Health checks *)

Definition RecordHealth (row : HealthRecord) : db (deploydb W) unit :=
  translate "deployer: record health" (query (λ st,
    if matched (λ h, HealthRecord.ID h =s? HealthRecord.ID row) (health_checks st) =? 0
    then (Ok tt, set_health_checks (health_checks st ++ [row]) st)
    else (Err duplicate, st))).

Definition ListHealth (deploymentID : string) (limit : Z) : db (deploydb W) (list HealthRecord) :=
  let limit := if limit <=? 0 then 100 else limit in
  translate "deployer: list health" (exec (λ st,
    (take (Z.to_nat limit)
       (sort_slice (λ x y, HealthRecord.CreatedAt y <? HealthRecord.CreatedAt x)
          (select (λ h, HealthRecord.DeploymentID h =s? deploymentID) (health_checks st))), st))).

(** ** Events *)

Definition Publish (row : DeployEvent) : db (deploydb W) unit :=
  translate "deploy events: insert" (query (λ st,
    if matched (λ e, DeployEvent.ID e =s? DeployEvent.ID row) (devents st) =? 0
    then (Ok tt, set_devents (devents st ++ [row]) st)
    else (Err duplicate, st))).

(** ** Reads of other components' tables *)

Definition GetArtifact (deploymentID : string) : db (deploydb W) Artifact :=
  translate "artifact: get" (query (λ st,
    (match select (λ a, art_DeploymentID a =s? deploymentID) (artifacts st) with
     | a :: _ => Ok a
     | [] => Err ErrNoRows
     end, st))).

(** The conditions of [project.Repository.GetByID], with the soft-delete filter
    its [repository.Repository] adds. *)
Definition is_project (orgID id : string) (p : Project) : bool :=
  (Project.ID p =s? id) && (Project.OrgID p =s? orgID) && Project.kept p.

Definition GetProject (orgID id : string) : db (deploydb W) Project :=
  l ← translate "project: get" (translate "repository: find" (exec (λ st,
        (select (is_project orgID id) (projects st), st))));
  match l with
  | [] => fail_with (NotFound "project not found")
  | p :: _ => mret p
  end.
End store.
