(* ===== verification/Outside.v ===== *)
(** * The world of the deployer

    What the deployer reaches outside its database, as a class: clock and
    identifiers, contexts, the scheduler's HTTP API, the image registry, the
    loader of runtime configuration, the container runtime
    (the interface [runtime.Driver] of packages/application/deploy/runtime) and
    the network the health checks use.  Two laws say that time does not run
    backwards and that a sleep lasts.  [ask] sends a request and logs it. *)

From S2P Require Import Prelude Errors Postgres DeployModel.

(** [scheduler.Placement], [ecr.PullResult], [runtime.ContainerInfo]. *)
Record Placement := {
  pl_Host : string; pl_Port : Z; pl_NodeID : string; pl_Region : string;
  pl_AgentURL : string; pl_Reserved : bool;
}.
Record PullResult := {
  pulled_ImageRef : string; pulled_Digest : string; pulled_Duration : Duration; pulled_Cached : bool;
}.
Module ContainerInfo.
Record t := mk { ID : string; Name : string; Host : string; Port : Z; Image : string; Status : string }.
End ContainerInfo.
Abbreviation ContainerInfo := ContainerInfo.t.

(** Answers of the scheduler: the request cannot be built; no answer, an error
    status or an unreadable body; a placement. *)
Inductive reserve_answer := BadURL (e : error) | NoPlacement | Placed (p : Placement).

(** Answers to a GET: the URL is invalid; no answer; a status. *)
Inductive http_answer := BadRequest | NoAnswer | StatusCode (z : Z).

Abbreviation ctx := nat.

(** [time.Now()] and [idx.NewUUID()] *)
Class Clock (W : Type) := {
  now_of : W → Time;
  new_uuid : W → string * W;
}.

Class World (W : Type) := {
  world_clock :: Clock W;
  pause : Duration → W → W;
  new_context : ctx → W → ctx * W;
  cancel_context : ctx → W → W;
  context_err : ctx → W → option error;
  post_reserve : ctx → string → string → string → Z → Z → W → reserve_answer * W;
  post_release : ctx → string → string → string → W → option error * W;
  pull_image : ctx → string → string → W → result error PullResult * W;
  load_config : ctx → string → string → string → W → result error RuntimeConfig * W;
  create_container : ctx → string → RuntimeConfig → W → result error ContainerInfo * W;
  start_container : ctx → string → W → option error * W;
  stop_container : ctx → string → Duration → W → option error * W;
  remove_container : ctx → string → W → option error * W;
  dial : ctx → string → Z → W → bool * W;
  http_get : ctx → string → Z → string → W → http_answer * W;
  pause_lasts d w : now_of w + Z.max 0 d ≤ now_of (pause d w);
  dial_time c h p w : now_of w ≤ now_of (dial c h p w).2;
  http_get_time c h p u w : now_of w ≤ now_of (http_get c h p u w).2;
}.

Section asking.
Context {W : Type} `{Clock W}.

(** A request; [log] is what the trace keeps of it. *)
Definition ask {A} (op : W → A * W) (log : A → list request) : db (deploydb W) A := λ '(st, fs),
  let '(a, w) := op (outside st) in (Ok a, (set_world w (trace st ++ log a) st, fs)).

Definition clock : db (deploydb W) Time := ask (λ w, (now_of w, w)) (λ _, []).
Definition uuid : db (deploydb W) string := ask new_uuid (λ _, []).
End asking.

Section world.
Context {W : Type} `{World W}.

Definition ask_result {A} (op : W → result error A * W) (log : result error A → list request)
    : db (deploydb W) A :=
  r ← ask op log; of_result r.

Definition ask_error (op : W → option error * W) (log : option error → list request)
    : db (deploydb W) unit :=
  e ← ask op log; match e with Some e => fail e | None => mret tt end.

(** ** The runtime driver *)

Definition succeeded (e : option error) : bool := match e with None => true | Some _ => false end.

Definition drv_Create (c : ctx) (deploymentID : string) (cfg : RuntimeConfig) : db (deploydb W) ContainerInfo :=
  ask_result (create_container c deploymentID cfg)
    (λ r, [RCreate deploymentID (RuntimeConfig.Image cfg)
             match r with Ok i => Some (ContainerInfo.ID i) | Err _ => None end]).

Definition drv_Start (c : ctx) (id : string) : db (deploydb W) unit :=
  ask_error (start_container c id) (λ e, [RStart id (succeeded e)]).

Definition drv_Stop (c : ctx) (id : string) (timeout : Duration) : db (deploydb W) unit :=
  ask_error (stop_container c id timeout) (λ _, [RStop id]).

Definition drv_Remove (c : ctx) (id : string) : db (deploydb W) unit :=
  ask_error (remove_container c id) (λ e, [RRemove id (succeeded e)]).

(** ** The scheduler client (packages/application/deploy/scheduler/client.go) *)

(** [NewClient]: local mode when no scheduler is configured. *)
Record Client := { localMode : bool }.

Definition NewClient (SchedulerURL : string) : Client := {| localMode := SchedulerURL =s? "" |}.

Definition localPlacement (portMin : Z) : Placement :=
  {| pl_Host := "127.0.0.1"; pl_Port := if portMin <=? 0 then 30000 else portMin;
     pl_NodeID := "local"; pl_Region := "local"; pl_AgentURL := ""; pl_Reserved := true |}.

Definition reserved (p : Placement) : Placement :=
  {| pl_Host := pl_Host p; pl_Port := pl_Port p; pl_NodeID := pl_NodeID p; pl_Region := pl_Region p;
     pl_AgentURL := pl_AgentURL p; pl_Reserved := true |}.

(** Every failure past the building of the request is answered locally. *)
Definition client_reserve (cl : Client) (c : ctx) (orgID projectID deploymentID : string)
    (portMin portMax : Z) (w : W) : result error Placement * W :=
  if localMode cl then (Ok (localPlacement portMin), w)
  else match post_reserve c orgID projectID deploymentID portMin portMax w with
       | (BadURL e, w) => (Err e, w)
       | (NoPlacement, w) => (Ok (localPlacement portMin), w)
       | (Placed p, w) => (Ok (reserved p), w)
       end.

Definition Client_Reserve (cl : Client) (c : ctx) (orgID projectID deploymentID : string)
    (portMin portMax : Z) : db (deploydb W) Placement :=
  ask_result (client_reserve cl c orgID projectID deploymentID portMin portMax)
    (λ r, [RReserve deploymentID match r with Ok p => Some (pl_Host p, pl_Port p) | Err _ => None end]).

Definition Client_Release (cl : Client) (c : ctx) (orgID projectID deploymentID : string)
    : db (deploydb W) unit :=
  ask_error (λ w, if localMode cl then (None, w) else post_release c orgID projectID deploymentID w)
    (λ _, [RRelease deploymentID]).

(** ** Pulling and configuration *)

Definition Pull (c : ctx) (image digest : string) : db (deploydb W) PullResult :=
  ask_result (pull_image c image digest) (λ r, [RPull image (is_ok r)]).

Definition LoadRuntimeConfig (c : ctx) (orgID projectID environment : string) : db (deploydb W) RuntimeConfig :=
  ask_result (load_config c orgID projectID environment) (λ _, []).

(** ** The cancellation registry (packages/application/deploy/cancel/registry.go) *)

(** [Register] cancels the deployment's earlier context, if any. *)
Definition Register (deploymentID : string) (cancel : ctx) : db (deploydb W) unit := λ '(st, fs),
  let w := match active st !! deploymentID with
           | Some prev => cancel_context prev (outside st)
           | None => outside st
           end in
  (Ok tt, (set_world w (trace st) (set_active (<[deploymentID := cancel]> (active st)) st), fs)).

Definition Unregister (deploymentID : string) : db (deploydb W) unit := λ '(st, fs),
  (Ok tt, (set_active (delete deploymentID (active st)) st, fs)).

Definition Cancel (deploymentID : string) : db (deploydb W) bool := λ '(st, fs),
  match active st !! deploymentID with
  | Some fn => (Ok true, (set_world (cancel_context fn (outside st)) (trace st) st, fs))
  | None => (Ok false, (st, fs))
  end.

Definition ActiveCount : db (deploydb W) Z := λ '(st, fs), (Ok (Z.of_nat (size (active st))), (st, fs)).
End world.
