(* ===== verification/ControlPlane.v ===== *)
(** * The control plane's jobs (packages/application/controlplane/cpjobs/jobs.go)

    The envelope the workers receive and the conventions with which the control
    plane enqueues it.  The JSON text of an envelope is [json_object] of its
    fields; encoding it cannot fail. *)

From S2P Require Import Prelude Errors Postgres Sql Jobs Rbac DeployModel Outside.

Definition QueueBuilds := "builds".
Definition QueueDeployments := "deployments".
Definition QueueDomains := "domains".

Definition TypeBuild := "build.run".
Definition TypeDeploy := "deploy.run".
Definition TypeRollback := "deploy.rollback".
Definition TypeDeleteDeployment := "deploy.delete".
Definition TypeSleep := "project.sleep".
Definition TypeWake := "project.wake".
Definition TypeDomainVerify := "domain.verify".
Definition TypeSSLRequest := "domain.ssl_request".

Record Payload := {
  OrgID : string; ProjectID : string; DeploymentID : string; DomainID : string; UserID : string;
  CorrelationID : string; Metadata : string;
}.

(** [json:"name,omitempty"] *)
Definition omitempty (name text : string) (v : value) : list (string * value) :=
  if text =s? "" then [] else [(name, v)].

Definition fields (p : Payload) : list (string * value) :=
  [("org_id", VString (OrgID p)); ("project_id", VString (ProjectID p))]
  ++ omitempty "deployment_id" (DeploymentID p) (VString (DeploymentID p))
  ++ omitempty "domain_id" (DomainID p) (VString (DomainID p))
  ++ omitempty "user_id" (UserID p) (VString (UserID p))
  ++ omitempty "correlation_id" (CorrelationID p) (VString (CorrelationID p))
  ++ omitempty "metadata" (Metadata p) (VRaw (Metadata p)).

Section enqueuer.
Context `{D : Driver} `{J : Jsonb}.

Definition encode (p : Payload) : string := json_object (fields p).

Definition options (priority : Z) (delay : Duration) (maxAttempts : Z) (key : string) : EnqueueOptions :=
  {| Priority := priority; Delay := delay; RunAt := 0; MaxAttempts := maxAttempts; IdempotencyKey := key |}.

(** [id] and [now] are the identifier and the clock reading of the insert. *)
Definition EnqueueBuild (id : string) (now : Time) (p : Payload) (key : string) : db (list Job) Job :=
  Enqueue id QueueBuilds TypeBuild (Ok (encode p)) (options 1 0 25 key) now.

Definition EnqueueDeploy (id : string) (now : Time) (p : Payload) (key : string) : db (list Job) Job :=
  Enqueue id QueueDeployments TypeDeploy (Ok (encode p)) (options 2 0 25 key) now.

Definition EnqueueRollback (id : string) (now : Time) (p : Payload) (key : string) : db (list Job) Job :=
  Enqueue id QueueDeployments TypeRollback (Ok (encode p)) (options 3 0 0 key) now.

Definition EnqueueCancel (id : string) (now : Time) (p : Payload) : db (list Job) Job :=
  Enqueue id QueueDeployments TypeDeleteDeployment (Ok (encode p)) (options 4 0 0 "") now.

Definition EnqueueSleep (id : string) (now : Time) (p : Payload) : db (list Job) Job :=
  Enqueue id QueueDeployments TypeSleep (Ok (encode p)) (options 0 0 0 "") now.

Definition EnqueueWake (id : string) (now : Time) (p : Payload) : db (list Job) Job :=
  Enqueue id QueueDeployments TypeWake (Ok (encode p)) (options 0 0 0 "") now.

Definition EnqueueDomainVerify (id : string) (now : Time) (p : Payload) : db (list Job) Job :=
  Enqueue id QueueDomains TypeDomainVerify (Ok (encode p)) (options 0 (30 * Second) 0 "") now.

Definition EnqueueSSLRequest (id : string) (now : Time) (p : Payload) : db (list Job) Job :=
  Enqueue id QueueDomains TypeSSLRequest (Ok (encode p)) (options 0 0 0 "") now.

(** ** Lemmas *)

(** The rows an enqueue adds: at most one, with this queue, type and text. *)
Definition adds (queue jobType raw : string) (t t' : list Job) : Prop :=
  ∃ l, t' = t ++ l
       ∧ ∀ j, j ∈ l → Job.Queue j = queue ∧ Job.Type_ j = jobType ∧ Job.Payload j = raw.

Lemma adds_refl queue jobType raw t : adds queue jobType raw t t.
Proof. exists []. split; [by rewrite app_nil_r|]. by intros j ?%elem_of_nil. Qed.

(** The job of an idempotency key, in whatever state it is. *)
Definition has_job (queue key : string) (t : list Job) : Prop :=
  ∃ j, j ∈ t ∧ Job.Queue j = queue ∧ Job.IdempotencyKey j = Some key.

Lemma has_job_app queue key t l : has_job queue key t → has_job queue key (t ++ l).
Proof. intros (j & Hj & ?). exists j. split; [by apply elem_of_app; left|done]. Qed.

Lemma Enqueue_wp id queue jobType raw opts now t :
  wp (Enqueue id queue jobType (Ok raw) opts now)
    (λ _ t', adds queue jobType raw t t'
             ∧ (IdempotencyKey opts ≠ "" → has_job queue (IdempotencyKey opts) t'))
    (λ _ t', t' = t) t.
Proof.
  unfold Enqueue. wp_step. apply wp_query; [done|].
  set (row := new_row id queue jobType raw opts _ now). unfold insert_job.
  destruct (select (conflicts (Job.Queue row) (Job.IdempotencyKey row)) t) as [|j l] eqn:Es.
  - destruct (matched _ t =? 0); [|done]. split.
    + exists [row]. split; [done|]. by intros j ->%list_elem_of_singleton.
    + intros Hk. exists row. split; [apply elem_of_app; right; by left|]. split; [done|].
      simpl. by destruct (String.eqb_spec (IdempotencyKey opts) "").
  - split; [apply adds_refl|]. intros Hk.
    assert (j ∈ select (conflicts (Job.Queue row) (Job.IdempotencyKey row)) t) as [Hc Hj]%elem_of_select
      by (rewrite Es; by left).
    exists j. split; [done|]. unfold conflicts in Hc. simpl in Hc.
    destruct (String.eqb_spec (IdempotencyKey opts) "") as [|_]; [done|].
    destruct (Job.IdempotencyKey j) as [k|]; [|done].
    apply andb_true_iff in Hc as [?%String.eqb_eq ?%String.eqb_eq]. by subst.
Qed.
End enqueuer.

(** * The caller of a request and the audit log
    (packages/application/identity/tenant, identity/audit)

    A request context is the record of the values the code stores in it, the
    empty string where it stores none. *)

(** ** The request context (tenant/context.go; platform/logger) *)

Module Caller.
Record t := mk {
  UserID : string;
  OrgID : string;
  MemberRole : string;
  RequestID : string;
  CorrelationID : string;
}.
End Caller.
Abbreviation Caller := Caller.t.

Definition RequireUser (c : Caller) : result error string :=
  if Caller.UserID c =s? "" then Err (Platform (Unauthenticated "authentication required"))
  else Ok (Caller.UserID c).

Definition RequireOrg (c : Caller) : result error string :=
  if Caller.OrgID c =s? "" then Err (Platform (FailedPrecondition "organization context required"))
  else Ok (Caller.OrgID c).

Definition AssertOrgMatch (c : Caller) (resourceOrgID : string) : option error :=
  match RequireOrg c with
  | Err e => Some e
  | Ok ctxOrg =>
      if negb (resourceOrgID =s? ctxOrg)
      then Some (Platform (PermissionDenied "cross-organization access denied"))
      else None
  end.

(** ** The audit log (audit/logger.go) *)

Module Entry.
Record t := mk {
  ID : string;
  OrgID : option string;
  UserID : option string;
  Action : string;
  ResourceType : string;
  ResourceID : string;
  Metadata : string;
  IPAddress : string;
  UserAgent : string;
  RequestID : string;
  CorrelationID : string;
  CreatedAt : Time;
}.
End Entry.
Abbreviation Entry := Entry.t.

Definition or_else (s other : string) : string := if s =s? "" then other else s.

(** The row [Logger.Record] inserts; an empty [Metadata] is the nil message. *)
Definition completed (c : Caller) (fresh : string) (now : Time) (e : Entry) : Entry :=
  {| Entry.ID := or_else (Entry.ID e) fresh; Entry.OrgID := Entry.OrgID e;
     Entry.UserID := Entry.UserID e; Entry.Action := Entry.Action e;
     Entry.ResourceType := Entry.ResourceType e; Entry.ResourceID := Entry.ResourceID e;
     Entry.Metadata := or_else (Entry.Metadata e) "{}"; Entry.IPAddress := Entry.IPAddress e;
     Entry.UserAgent := Entry.UserAgent e;
     Entry.RequestID := or_else (Entry.RequestID e) (Caller.RequestID c);
     Entry.CorrelationID := or_else (Entry.CorrelationID e) (Caller.CorrelationID c);
     Entry.CreatedAt := now |}.

Definition insert_entry (row : Entry) (t : list Entry) : result error unit * list Entry :=
  if negb (uuid_or_null (Entry.OrgID row) && uuid_or_null (Entry.UserID row)) then (Err invalid_uuid, t)
  else if matched (λ e, Entry.ID e =s? Entry.ID row) t =? 0 then (Ok tt, t ++ [row])
  else (Err (PgError sqlStateUniqueViolation "duplicate key"), t).

Definition Logger_Record `{D : Driver} (c : Caller) (fresh : string) (now : Time) (e : Entry) : db (list Entry) unit :=
  translate "audit: record" (query (insert_entry (completed c fresh now e))).

(** ** Lemmas *)

(** Access to the resources of an organization under a permission. *)
Definition allowed (c : Caller) (orgID : string) (perm : Permission) : Prop :=
  Caller.OrgID c ≠ "" ∧ orgID = Caller.OrgID c ∧ HasPermission (Caller.MemberRole c) perm = true.

Lemma AssertOrgMatch_spec c orgID :
  AssertOrgMatch c orgID = None ↔ Caller.OrgID c ≠ "" ∧ orgID = Caller.OrgID c.
Proof.
  unfold AssertOrgMatch, RequireOrg. destruct (String.eqb_spec (Caller.OrgID c) "") as [E|E].
  - split; [done|]. by intros [].
  - destruct (String.eqb_spec orgID (Caller.OrgID c)); split; try done. by intros [].
Qed.

Lemma RequirePermission_spec role perm :
  RequirePermission role perm = None ↔ HasPermission role perm = true.
Proof. unfold RequirePermission. by destruct (HasPermission role perm). Qed.

(** * The state of the control plane's services

    The services of packages/application/controlplane share one database: the
    tables of deployments and projects ([deploydb], with the deployer's), the
    job queue and the audit log.  [published] are the events handed to the bus
    (cpevents/publisher.go), without their data; delivery is not modelled.
    [on_rows], [on_jobs] and [on_audit] run a repository's computation on its
    tables. *)

(** ** Events (cpevents/publisher.go) *)

Definition DeploymentRequested := "deployment.requested".
Definition DeploymentCancelled := "deployment.cancelled".

Module EventMeta.
Record t := mk {
  OrgID : string; ProjectID : string; AggregateID : string; ActorID : string; CorrelationID : string;
}.
End EventMeta.
Abbreviation EventMeta := EventMeta.t.

(** ** The state *)

Record control (W : Type) := mkControl {
  rows : deploydb W;
  jobs : list Job;
  audit_log : list Entry;
  published : list (string * EventMeta);
}.
Arguments mkControl {W}.
Arguments rows {W}.
Arguments jobs {W}.
Arguments audit_log {W}.
Arguments published {W}.

Section state.
Context {W : Type}.

Definition rows_lens : Lens (control W) (deploydb W).
Proof.
  refine {| view := rows; put := λ r t, mkControl r (jobs t) (audit_log t) (published t) |}; by first [intros ? []|intros []].
Defined.

Definition jobs_lens : Lens (control W) (list Job).
Proof.
  refine {| view := jobs; put := λ j t, mkControl (rows t) j (audit_log t) (published t) |}; by first [intros ? []|intros []].
Defined.

Definition audit_lens : Lens (control W) (list Entry).
Proof.
  refine {| view := audit_log; put := λ a t, mkControl (rows t) (jobs t) a (published t) |}; by first [intros ? []|intros []].
Defined.

Definition on_rows {A} : db (deploydb W) A → db (control W) A := zoom rows_lens.
Definition on_jobs {A} : db (list Job) A → db (control W) A := zoom jobs_lens.
Definition on_audit {A} : db (list Entry) A → db (control W) A := zoom audit_lens.

Definition PublishAsync (name : string) (meta : EventMeta) : db (control W) unit := λ '(t, fs),
  (Ok tt, (mkControl (rows t) (jobs t) (audit_log t) (published t ++ [(name, meta)]), fs)).

Context `{Cl : Clock W} `{D : Driver}.

(** An insert with its identifier and clock reading. *)
Definition with_id {A} (m : string → Time → db (control W) A) : db (control W) A :=
  id ← on_rows uuid; now ← on_rows clock; m id now.

Definition enqueue (m : string → Time → db (list Job) Job) : db (control W) Job :=
  with_id (λ id now, on_jobs (m id now)).

Definition record_entry (c : Caller) (e : Entry) : db (control W) unit :=
  with_id (λ id now, on_audit (Logger_Record c id now e)).

(** The guard of the services: [tenant.AssertOrgMatch], [rbac.RequirePermission]. *)
Definition require (c : Caller) (orgID : string) (perm : Permission) : db (control W) unit :=
  _ ← refuse (AssertOrgMatch c orgID);
  refuse (RequirePermission (Caller.MemberRole c) perm).

Lemma require_allowed c orgID perm st :
  wp (require c orgID perm) (λ _ st', st' = st ∧ allowed c orgID perm) 
    (λ _ st', st' = st ∧ ¬ allowed c orgID perm) st.
Proof.
  unfold require, allowed. wp_step. destruct (AssertOrgMatch c orgID) eqn:E1; cbn [refuse].
  - wp_step. split; [done|]. intros (Hc1 & Hc2 & _).
    assert (AssertOrgMatch c orgID = None) by by apply AssertOrgMatch_spec. congruence.
  - apply AssertOrgMatch_spec in E1 as []. wp_step.
    destruct (RequirePermission _ _) eqn:E2; cbn [refuse]; wp_step.
    + split; [done|]. intros (_ & _ & Hp%RequirePermission_spec). congruence.
    + by apply RequirePermission_spec in E2.
Qed.
End state.
