(* ===== verification/DeployService.v ===== *)
(** * The deployment service (packages/application/controlplane/deployment/service.go)

    What the API's handlers and the webhook call: a guard, the repository, the
    job queue, the audit log and the event bus, in the order of the code. *)

From S2P Require Import Prelude GoLib Errors Postgres Sql Jobs Rbac DeployModel ControlPlane.
From S2P Require Import DeploymentRepo DeployStore Outside.

Module DeployInput.
Record t := mk {
  CommitSHA : string; CommitMessage : string; Branch : string; Author : string; Environment : string;
}.
End DeployInput.
Abbreviation DeployInput := DeployInput.t.

Section service.
Context {W : Type} `{Cl : Clock W} `{D : Driver} `{So : Sorter} `{J : Jsonb}.

(** ** Repository calls with their identifiers and clock readings *)

Definition create (d : Deployment) : db (control W) Deployment :=
  on_rows (id ← uuid; now ← clock; ev ← uuid; Create id ev d now).

Definition update_status (orgID id : string) (status : Status) (message failureReason : string)
    : db (control W) Deployment :=
  on_rows (now ← clock; ev ← uuid; UpdateStatus ev orgID id status message failureReason now).

(** ** Guards and audit *)

Definition requireDeployRead (c : Caller) (orgID : string) : db (control W) unit :=
  require c orgID PermDeployRead.

Definition requireDeployWrite (c : Caller) (orgID : string) : db (control W) unit :=
  require c orgID PermDeployWrite.

Definition recordAudit (c : Caller) (userID orgID action resourceID ip ua : string) : db (control W) unit :=
  ignore (record_entry c
    {| Entry.ID := ""; Entry.OrgID := Some orgID;
       Entry.UserID := if userID =s? "" then None else Some userID; Entry.Action := action;
       Entry.ResourceType := "deployment"; Entry.ResourceID := resourceID; Entry.Metadata := "";
       Entry.IPAddress := ip; Entry.UserAgent := ua; Entry.RequestID := "";
       Entry.CorrelationID := ""; Entry.CreatedAt := 0 |}).

(** ** Requests that change something *)

(** The deployment [Deploy] hands to the repository. *)
Definition requested (orgID projectID userID : string) (in_ : DeployInput) (proj : Project) (corrID : string)
    : Deployment :=
  {| Deployment.ID := ""; Deployment.OrgID := orgID; Deployment.ProjectID := projectID;
     Deployment.Status := StatusPending; Deployment.CommitSHA := DeployInput.CommitSHA in_;
     Deployment.CommitMessage := DeployInput.CommitMessage in_;
     Deployment.Branch := or_else (DeployInput.Branch in_) (Project.Branch proj);
     Deployment.Author := DeployInput.Author in_; Deployment.ImageTag := "";
     Deployment.Runtime := Project.DefaultRuntime proj; Deployment.BuildDurationMs := None;
     Deployment.DeployDurationMs := None; Deployment.FailureReason := "";
     Deployment.TriggerSource := "manual"; Deployment.TriggerUserID := Some userID;
     Deployment.Environment := or_else (DeployInput.Environment in_) "production";
     Deployment.CorrelationID := corrID; Deployment.Metadata := ""; Deployment.CreatedAt := 0;
     Deployment.UpdatedAt := 0; Deployment.StartedAt := None; Deployment.FinishedAt := None |}.

Definition payload (orgID projectID deploymentID userID corrID : string) : Payload :=
  {| OrgID := orgID; ProjectID := projectID; DeploymentID := deploymentID; DomainID := "";
     UserID := userID; CorrelationID := corrID; Metadata := "" |}.

Definition idemKey (projectID deploymentID : string) : string :=
  "deploy:" +:+ projectID +:+ ":" +:+ deploymentID.

Definition Deploy (c : Caller) (orgID projectID userID : string) (in_ : DeployInput) (ip ua : string)
    : db (control W) Deployment :=
  _ ← requireDeployWrite c orgID;
  proj ← on_rows (GetProject orgID projectID);
  if negb (Project.IsLive proj) then fail_with (FailedPrecondition "project is not active")
  else
    let corrID := Caller.CorrelationID c in
    d ← create (requested orgID projectID userID in_ proj corrID);
    let p := payload orgID projectID (Deployment.ID d) userID corrID in
    let key := idemKey projectID (Deployment.ID d) in
    _ ← enqueue (λ id now, EnqueueBuild id now p (key +:+ ":build"));
    d ← update_status orgID (Deployment.ID d) StatusQueued "build job enqueued" "";
    _ ← ignore (enqueue (λ id now, EnqueueDeploy id now p (key +:+ ":deploy")));
    _ ← recordAudit c userID orgID "deployment.deploy" (Deployment.ID d) ip ua;
    _ ← PublishAsync DeploymentRequested
          {| EventMeta.OrgID := orgID; EventMeta.ProjectID := projectID;
             EventMeta.AggregateID := Deployment.ID d; EventMeta.ActorID := userID;
             EventMeta.CorrelationID := corrID |};
    mret d.

Definition Redeploy (c : Caller) (orgID projectID deploymentID userID ip ua : string)
    : db (control W) Deployment :=
  prev ← on_rows (GetByID orgID deploymentID);
  Deploy c orgID projectID userID
    {| DeployInput.CommitSHA := Deployment.CommitSHA prev;
       DeployInput.CommitMessage := Deployment.CommitMessage prev;
       DeployInput.Branch := Deployment.Branch prev; DeployInput.Author := Deployment.Author prev;
       DeployInput.Environment := Deployment.Environment prev |} ip ua.

(** The deployment [Rollback] hands to the repository. *)
Definition rollback_of (orgID projectID userID corrID : string) (target : Deployment) : Deployment :=
  {| Deployment.ID := ""; Deployment.OrgID := orgID; Deployment.ProjectID := projectID;
     Deployment.Status := StatusRollingBack; Deployment.CommitSHA := Deployment.CommitSHA target;
     Deployment.CommitMessage := Deployment.CommitMessage target;
     Deployment.Branch := Deployment.Branch target; Deployment.Author := Deployment.Author target;
     Deployment.ImageTag := Deployment.ImageTag target; Deployment.Runtime := Deployment.Runtime target;
     Deployment.BuildDurationMs := None; Deployment.DeployDurationMs := None;
     Deployment.FailureReason := ""; Deployment.TriggerSource := "rollback";
     Deployment.TriggerUserID := Some userID; Deployment.Environment := Deployment.Environment target;
     Deployment.CorrelationID := corrID; Deployment.Metadata := ""; Deployment.CreatedAt := 0;
     Deployment.UpdatedAt := 0; Deployment.StartedAt := None; Deployment.FinishedAt := None |}.

Definition Rollback (c : Caller) (orgID projectID targetDeploymentID userID ip ua : string)
    : db (control W) Deployment :=
  _ ← requireDeployWrite c orgID;
  target ← on_rows (GetByID orgID targetDeploymentID);
  if negb (Deployment.ProjectID target =s? projectID) then fail_with (NotFound "deployment not found")
  else
    let corrID := Caller.CorrelationID c in
    d ← create (rollback_of orgID projectID userID corrID target);
    _ ← enqueue (λ id now, EnqueueRollback id now
          (payload orgID projectID (Deployment.ID d) userID corrID) ("rollback:" +:+ Deployment.ID d));
    _ ← recordAudit c userID orgID "deployment.rollback" (Deployment.ID d) ip ua;
    mret d.

Definition Cancel (c : Caller) (orgID deploymentID userID ip ua : string) : db (control W) Deployment :=
  _ ← requireDeployWrite c orgID;
  d ← on_rows (GetByID orgID deploymentID);
  if IsTerminal d then fail_with (FailedPrecondition "deployment already finished")
  else
    _ ← ignore (enqueue (λ id now, EnqueueCancel id now
          (payload orgID (Deployment.ProjectID d) (Deployment.ID d) userID "")));
    d ← update_status orgID deploymentID StatusCancelled "cancelled by user" "";
    _ ← recordAudit c userID orgID "deployment.cancel" deploymentID ip ua;
    _ ← PublishAsync DeploymentCancelled
          {| EventMeta.OrgID := orgID; EventMeta.ProjectID := Deployment.ProjectID d;
             EventMeta.AggregateID := deploymentID; EventMeta.ActorID := userID;
             EventMeta.CorrelationID := "" |};
    mret d.

Definition Restart (c : Caller) (orgID projectID userID ip ua : string) : db (control W) unit :=
  _ ← requireDeployWrite c orgID;
  latest ← on_rows (GetLatest orgID projectID);
  _ ← enqueue (λ id now, EnqueueWake id now (payload orgID projectID (Deployment.ID latest) userID ""));
  recordAudit c userID orgID "deployment.restart" (Deployment.ID latest) ip ua.

Definition Pause (c : Caller) (orgID projectID userID ip ua : string) : db (control W) unit :=
  _ ← requireDeployWrite c orgID;
  _ ← enqueue (λ id now, EnqueueSleep id now (payload orgID projectID "" userID ""));
  recordAudit c userID orgID "project.pause" projectID ip ua.

Definition Resume := Restart.

Definition DeployFromWebhook (c : Caller) (orgID projectID : string) (in_ : DeployInput)
    : db (control W) Deployment :=
  Deploy c orgID projectID "" in_ "" "webhook".

(** ** Reads *)

Definition Get (c : Caller) (orgID deploymentID : string) : db (control W) Deployment :=
  _ ← requireDeployRead c orgID; on_rows (GetByID orgID deploymentID).

Definition Service_GetLatest (c : Caller) (orgID projectID : string) : db (control W) Deployment :=
  _ ← requireDeployRead c orgID; on_rows (GetLatest orgID projectID).

Definition ListHistory (c : Caller) (orgID projectID : string) (limit : Z)
    : db (control W) (list Deployment) :=
  _ ← requireDeployRead c orgID; on_rows (ListByProject orgID projectID limit).

Definition Timeline (c : Caller) (orgID deploymentID : string) : db (control W) (list Event) :=
  _ ← Get c orgID deploymentID; on_rows (ListEvents deploymentID).
End service.
