(* ===== verification/DeployRequests.v ===== *)
(** * The deployment service: who may do what, and what it leaves behind *)

From stdpp Require Import pretty.
From S2P Require Import Prelude GoLib Errors Postgres Sql Jobs Rbac DeployModel ControlPlane.
From S2P Require Import DeploymentRepo DeploymentFacts DeployStore Outside DeployService.

(** ** The repository's calls *)

Section repository.
Context {W : Type} `{Cl : Clock W} `{D : Driver} `{So : Sorter} `{J : Jsonb}.

Lemma GetByID_wp orgID id (st : deploydb W) :
  wp (GetByID orgID id)
    (λ d st', st' = st ∧ d ∈ deployments st ∧ is_deployment orgID id d = true)
    (λ _ st', st' = st) st.
Proof.
  unfold GetByID, one_deployment. wp_step. wp_step; [done|].
  destruct (select _ _) as [|d l] eqn:E; [done|]. split; [done|].
  apply and_comm, elem_of_select. rewrite E. by left.
Qed.

Lemma is_deployment_org orgID id d : is_deployment orgID id d = true → Deployment.OrgID d = orgID.
Proof. unfold is_deployment. intros. by bool_to_prop. Qed.

(** A created row is the only one with its id. *)
Lemma Create_wp fresh ev d now (st : deploydb W) :
  let row := new_deployment fresh now d in
  wp (Create fresh ev d now)
    (λ d' st', d' = row ∧ uuid_or_null (Deployment.TriggerUserID d) = true
       ∧ row ∈ deployments st' ∧ ∀ r, r ∈ deployments st' → Deployment.ID r = Deployment.ID row → r = row)
    (λ _ _, True) st.
Proof.
  cbv zeta. unfold Create. set (row := new_deployment fresh now d).
  wp_step. apply wp_Transact; [done|]. wp_step. wp_step. wp_step; [done|]. unfold insert_deployment.
  change (Deployment.TriggerUserID row) with (Deployment.TriggerUserID d).
  destruct (uuid_or_null _) eqn:Eu; cbn [negb]; [|done].
  destruct (Z.eqb_spec (matched (λ r, Deployment.ID r =s? Deployment.ID row) (deployments st)) 0)
    as [Hm|]; cbn [negb]; [|done].
  destruct (matched _ (projects st) =? 0); [done|].
  rewrite matched_zero in Hm. unfold addEvent. wp_step. wp_step; [done|].
  unfold insert_event. destruct (negb _); [done|]. destruct (_ =? 0); [done|].
  assert (∀ r, r ∈ deployments st ++ [row] → Deployment.ID r = Deployment.ID row → r = row) as Hu.
  { intros r [Hr| ->%list_elem_of_singleton]%elem_of_app E; [|done].
    specialize (Hm r Hr). by apply String.eqb_neq in Hm. }
  eapply wp_mono; [apply GetByID_wp| |done]. cbn beta. intros d' st' (-> & Hd & Hid).
  simpl in Hd. split; [|split; [done|split]].
  - apply Hu; [done|]. by apply is_deployment_id in Hid.
  - simpl. apply elem_of_app. right. by left.
  - simpl. done.
Qed.

Lemma UpdateStatus_wp ev orgID id status message failure now (st : deploydb W) :
  wp (UpdateStatus ev orgID id status message failure now)
    (λ d' st', d' ∈ deployments st' ∧ ∃ d, d ∈ deployments st ∧ is_deployment orgID id d = true
                 ∧ d' = set_status status failure now d)
    (λ _ _, True) st.
Proof.
  unfold UpdateStatus, change. wp_step. apply wp_Transact; [done|]. wp_step. wp_step.
  unfold update_deployments. wp_step; [done|]. destruct (_ =? 0); [by wp_step|].
  unfold addEvent. wp_step. wp_step; [done|].
  unfold insert_event. destruct (negb _); [done|]. destruct (_ =? 0); [done|].
  eapply wp_mono; [apply GetByID_wp| |done]. cbn beta. intros d' st' (-> & Hd & Hid).
  split; [done|]. simpl in Hd. apply elem_of_update_where in Hd as (r & Hr & ->).
  destruct (is_deployment orgID id r) eqn:E; simpl in *.
  - exists r. done.
  - congruence.
Qed.
End repository.

(** ** Staying within an organization *)

Section confined.
Context {W : Type} `{Cl : Clock W} `{D : Driver} `{So : Sorter} `{J : Jsonb}.

(** [t'] is [t] with rows added that all satisfy [P]. *)
Definition appended {R} (P : R → Prop) (t t' : list R) : Prop := ∃ l, t' = t ++ l ∧ Forall P l.

Lemma appended_refl {R} (P : R → Prop) t : appended P t t.
Proof. exists []. by rewrite app_nil_r. Qed.

Lemma appended_snoc {R} (P : R → Prop) t t' r : appended P t t' → P r → appended P t (t' ++ [r]).
Proof.
  intros (l & -> & Hl) Hr. exists (l ++ [r]). rewrite app_assoc. split; [done|].
  apply Forall_app. by rewrite Forall_singleton.
Qed.

Definition owned (orgID : string) (d : Deployment) : bool := Deployment.OrgID d =s? orgID.

(** An entry of the timeline of a deployment of the organization. *)
Definition about_own (orgID : string) (ds : list Deployment) (e : Event) : Prop :=
  ∃ d, d ∈ ds ∧ Deployment.ID d = Event.DeploymentID e ∧ Deployment.OrgID d = orgID.

(** The database after something done within an organization: deployments of
    others untouched, timeline entries only added and only for its own
    deployments, all tables of projects and of the deployer as before. *)
Record rows_confined (orgID : string) (r0 r : deploydb W) : Prop := {
  rc_foreign : select (λ d, negb (owned orgID d)) (deployments r)
               = select (λ d, negb (owned orgID d)) (deployments r0);
  rc_timeline : appended (about_own orgID (deployments r)) (timeline r0) (timeline r);
  rc_rest : set_deployments (deployments r0) (set_timeline (timeline r0)
              (set_world (outside r0) (trace r0) r)) = r0;
}.

Lemma rows_confined_refl orgID r : rows_confined orgID r r.
Proof. split; [done|apply appended_refl|]. by destruct r. Qed.

Lemma confined_ask {A} orgID r0 (op : W → A * W) : preserves (rows_confined orgID r0) (ask op (λ _, [])).
Proof.
  intros r fs [Hf Ht Hr]. unfold ask, tables_of. destruct (op (outside r)) as [a w]. simpl.
  split; [done..|]. simpl. destruct r. done.
Qed.

Lemma confined_GetByID orgID r0 o id : preserves (rows_confined orgID r0) (GetByID o id).
Proof.
  unfold GetByID, one_deployment. apply preserves_translate, preserves_query. intros. by case_match.
Qed.

Lemma confined_insert_event orgID r0 e r :
  rows_confined orgID r0 r → about_own orgID (deployments r) e →
  rows_confined orgID r0 (insert_event e r).2.
Proof.
  intros [Hf Ht Hr] He. unfold insert_event. destruct (negb _); [done|]. destruct (_ =? 0); [done|].
  split; [done|by apply appended_snoc|done].
Qed.

Lemma about_own_mono orgID ds ds' e :
  (∀ d, d ∈ ds → Deployment.OrgID d = orgID →
     ∃ d', d' ∈ ds' ∧ Deployment.ID d' = Deployment.ID d ∧ Deployment.OrgID d' = orgID) →
  about_own orgID ds e → about_own orgID ds' e.
Proof.
  intros H (d & Hd & Hid & Ho). destruct (H d Hd Ho) as (d' & ? & ? & ?).
  exists d'. split; [done|]. split; [congruence|done].
Qed.

Lemma rows_confined_set orgID r0 r ds :
  rows_confined orgID r0 r →
  select (λ d, negb (owned orgID d)) ds = select (λ d, negb (owned orgID d)) (deployments r) →
  (∀ d, d ∈ deployments r → Deployment.OrgID d = orgID →
     ∃ d', d' ∈ ds ∧ Deployment.ID d' = Deployment.ID d ∧ Deployment.OrgID d' = orgID) →
  rows_confined orgID r0 (set_deployments ds r).
Proof.
  intros [Hf (l & Hl & Hown) Hr] Hs Hk. split; simpl; [congruence| |done].
  exists l. split; [done|]. eapply Forall_impl; [done|]. intros e. by apply about_own_mono.
Qed.

Lemma confined_Create orgID r0 fresh ev d now :
  Deployment.OrgID d = orgID → preserves (rows_confined orgID r0) (Create fresh ev d now).
Proof.
  intros Ho. unfold Create. set (row := new_deployment fresh now d).
  apply preserves_bind; [|intros _; apply confined_GetByID].
  apply preserves_wp. intros r Hr. apply wp_Transact; [done|].
  wp_step. wp_step. wp_step; [done|]. unfold insert_deployment.
  destruct (negb _); [done|]. destruct (negb _); [done|]. destruct (_ =? 0); [done|].
  unfold addEvent. wp_step. wp_step; [done|].
  set (r1 := set_deployments (deployments r ++ [row]) r).
  assert (rows_confined orgID r0 r1) as H1.
  { apply rows_confined_set; [done| |].
    - rewrite select_app. rewrite (select_none _ [row]); [by rewrite app_nil_r|].
      intros x ->%list_elem_of_singleton. unfold owned, row. simpl. by rewrite Ho, String.eqb_refl.
    - intros x Hx ?. exists x. split; [by apply elem_of_app; left|done]. }
  pose proof (confined_insert_event orgID r0
    {| Event.ID := ev; Event.DeploymentID := Deployment.ID row; Event.Status := Deployment.Status row;
       Event.Message := "deployment created"; Event.Metadata := "{}"; Event.CreatedAt := now |} r1 H1) as H2.
  destruct (insert_event _ r1) as [[[]|] r2]; [|done]. apply H2.
  exists row. split; [simpl; apply elem_of_app; right; by left|]. by split.
Qed.

Lemma confined_UpdateStatus orgID r0 ev id status message failure now :
  preserves (rows_confined orgID r0) (UpdateStatus ev orgID id status message failure now).
Proof.
  unfold UpdateStatus, change. apply preserves_bind; [|intros _; apply confined_GetByID].
  apply preserves_wp. intros r Hr. apply wp_Transact; [done|]. wp_step. wp_step.
  unfold update_deployments. wp_step; [done|].
  set (p := λ d, is_deployment orgID id d && true). set (f := set_status status failure now).
  destruct (Z.eqb_spec (matched p (deployments r)) 0) as [|Hm]; [by wp_step|].
  set (r1 := set_deployments (update_where p f (deployments r)) r).
  assert (∀ d, p d = true → Deployment.ID d = id ∧ Deployment.OrgID d = orgID) as Hp.
  { intros d [E _]%andb_true_iff. by rewrite (is_deployment_id _ _ _ E), (is_deployment_org _ _ _ E). }
  assert (rows_confined orgID r0 r1) as H1.
  { apply rows_confined_set; [done| |].
    - apply select_update_outside. intros d [_ E]%Hp. unfold owned. simpl. by rewrite E, String.eqb_refl.
    - intros d Hd Ho. exists (if p d then f d else d).
      split; [apply elem_of_update_where; by exists d|]. by destruct (p d). }
  unfold addEvent. wp_step. wp_step; [done|].
  pose proof (confined_insert_event orgID r0
    {| Event.ID := ev; Event.DeploymentID := id; Event.Status := status; Event.Message := message;
       Event.Metadata := "{}"; Event.CreatedAt := now |} r1 H1) as H2.
  destruct (insert_event _ r1) as [[[]|] r2]; [|done]. apply H2.
  unfold matched in Hm. destruct (select p (deployments r)) as [|d l] eqn:Es; [done|].
  assert (d ∈ select p (deployments r)) as [Hd1 Hd2]%elem_of_select by (rewrite Es; by left).
  destruct (Hp d Hd1). exists (f d). split; [|done].
  simpl. apply elem_of_update_where. exists d. by rewrite Hd1.
Qed.

(** The same for the whole state; jobs, audit entries and events are only added,
    and only for the organization. *)
Record confined (orgID : string) (st0 st : control W) : Prop := {
  cf_rows : rows_confined orgID (rows st0) (rows st);
  cf_jobs : appended (λ j, ∃ p, Job.Payload j = encode p ∧ OrgID p = orgID) (jobs st0) (jobs st);
  cf_audit : appended (λ e, Entry.OrgID e = Some orgID) (audit_log st0) (audit_log st);
  cf_events : appended (λ e, EventMeta.OrgID e.2 = orgID) (published st0) (published st);
}.

Lemma confined_refl orgID st : confined orgID st st.
Proof. split; [apply rows_confined_refl|apply appended_refl..]. Qed.

Lemma confined_on_rows {A} orgID st0 (m : db (deploydb W) A) :
  preserves (rows_confined orgID (rows st0)) m → preserves (confined orgID st0) (on_rows m).
Proof.
  intros Hm. apply preserves_zoom. intros st r fs [H1 H2 H3 H4].
  split; [by apply (Hm r fs)|exact H2|exact H3|exact H4].
Qed.

Lemma confined_with_id {A} orgID st0 (m : string → Time → db (control W) A) :
  (∀ id now, preserves (confined orgID st0) (m id now)) → preserves (confined orgID st0) (with_id m).
Proof.
  intros Hm. unfold with_id. apply preserves_bind; [apply confined_on_rows, confined_ask|].
  intros id. apply preserves_bind; [apply confined_on_rows, confined_ask|]. intros now. apply Hm.
Qed.

(** What the operations of [Enqueuer] have in common. *)
Definition enqueues (orgID : string) (m : string → Time → db (list Job) Job) : Prop :=
  ∃ queue jobType p opts, OrgID p = orgID
    ∧ ∀ id now, m id now = Enqueue id queue jobType (Ok (encode p)) opts now.

Lemma confined_enqueue orgID st0 m : enqueues orgID m → preserves (confined orgID st0) (enqueue m).
Proof.
  intros (queue & jobType & p & opts & Hp & Hm). apply confined_with_id. intros id now.
  apply preserves_zoom. rewrite Hm. intros st. apply preserves_wp. intros js Hjs.
  eapply wp_mono; [apply Enqueue_wp| |by intros e js' ->]. cbn beta.
  intros _ js' [(l' & -> & Hl') _]. destruct Hjs as [H1 (l & Hl & Hown) H3 H4].
  split; [exact H1| |exact H3|exact H4].
  exists (l ++ l'). simpl in *. rewrite Hl, <- app_assoc. split; [done|].
  apply Forall_app. split; [done|]. apply Forall_forall. intros j (_ & _ & E)%Hl'. by exists p.
Qed.

Lemma confined_recordAudit orgID st0 c userID action id ip ua :
  preserves (confined orgID st0) (recordAudit c userID orgID action id ip ua).
Proof.
  apply preserves_ignore, confined_with_id. intros fresh now. apply preserves_zoom.
  intros st. unfold Logger_Record. apply preserves_translate, preserves_query.
  intros a Ha. unfold insert_entry. destruct (negb _); [done|]. destruct (_ =? 0); [|done].
  destruct Ha as [H1 H2 H3 H4]. split; [exact H1|exact H2| |exact H4]. by apply appended_snoc.
Qed.

Lemma confined_PublishAsync orgID st0 name meta :
  EventMeta.OrgID meta = orgID → preserves (confined orgID st0) (PublishAsync name meta).
Proof.
  intros Ho st fs [H1 H2 H3 H4]. split; [exact H1|exact H2|exact H3|]. by apply appended_snoc.
Qed.

Lemma confined_require orgID st0 c o perm : preserves (confined orgID st0) (require c o perm).
Proof.
  unfold require, refuse. apply preserves_bind; [|intros _]; case_match;
    (apply preserves_fail || apply preserves_ret).
Qed.
End confined.

(** Follows the structure of a request. *)
Ltac confine_step :=
  cbn beta iota zeta;
  lazymatch goal with
  | |- preserves _ (mbind _ _) => apply preserves_bind; [|intros ?]
  | |- preserves _ (mret _) => apply preserves_ret
  | |- preserves _ (fail_with _) => apply preserves_fail_with
  | |- preserves _ (ignore _) => apply preserves_ignore
  | |- preserves _ (translate _ _) => apply preserves_translate
  | |- preserves _ (exec _) => by apply preserves_exec
  | |- preserves _ (query _) => apply preserves_query; intros; by case_match
  | |- preserves _ (require _ _ _) => apply confined_require
  | |- preserves _ (requireDeployWrite _ _) => apply confined_require
  | |- preserves _ (recordAudit _ _ _ _ _ _ _) => apply confined_recordAudit
  | |- preserves _ (PublishAsync _ _) => by apply confined_PublishAsync
  | |- preserves _ (enqueue _) => apply confined_enqueue; by repeat eexists
  | |- preserves _ (on_rows _) => apply confined_on_rows
  | |- preserves _ (GetByID _ _) => apply confined_GetByID
  | |- preserves _ (Create _ _ _ _) => by apply confined_Create
  | |- preserves _ (UpdateStatus _ _ _ _ _ _ _) => apply confined_UpdateStatus
  | |- preserves _ uuid => apply confined_ask
  | |- preserves _ clock => apply confined_ask
  | |- preserves _ (if ?b then _ else _) => destruct b
  | |- preserves _ (match ?l with [] => _ | _ => _ end) => destruct l
  end.
Ltac confine := repeat confine_step.

(** ** Requests *)

Section requests.
Context {W : Type} `{Cl : Clock W} `{D : Driver} `{So : Sorter} `{J : Jsonb}.

(** The requests of a caller to an organization, by the permission they need. *)
Inductive serves (c : Caller) (orgID : string) : Permission → ∀ A, db (control W) A → Prop :=
| s_deploy projectID userID in_ ip ua :
    serves c orgID PermDeployWrite _ (Deploy c orgID projectID userID in_ ip ua)
| s_redeploy projectID id userID ip ua :
    serves c orgID PermDeployWrite _ (Redeploy c orgID projectID id userID ip ua)
| s_rollback projectID id userID ip ua :
    serves c orgID PermDeployWrite _ (Rollback c orgID projectID id userID ip ua)
| s_cancel id userID ip ua : serves c orgID PermDeployWrite _ (Cancel c orgID id userID ip ua)
| s_restart projectID userID ip ua :
    serves c orgID PermDeployWrite _ (Restart c orgID projectID userID ip ua)
| s_pause projectID userID ip ua : serves c orgID PermDeployWrite _ (Pause c orgID projectID userID ip ua)
| s_resume projectID userID ip ua :
    serves c orgID PermDeployWrite _ (Resume c orgID projectID userID ip ua)
| s_webhook projectID in_ : serves c orgID PermDeployWrite _ (DeployFromWebhook c orgID projectID in_)
| s_get id : serves c orgID PermDeployRead _ (Get c orgID id)
| s_latest projectID : serves c orgID PermDeployRead _ (Service_GetLatest c orgID projectID)
| s_history projectID limit : serves c orgID PermDeployRead _ (ListHistory c orgID projectID limit)
| s_timeline id : serves c orgID PermDeployRead _ (Timeline c orgID id).

(** ** Refusals *)

Definition refused {A} (st : control W) (m : db (control W) A) : Prop :=
  wp m (λ _ _, False) (λ _ st', st' = st) st.

Lemma require_refuses {A} c orgID perm (k : unit → db (control W) A) st :
  ¬ allowed c orgID perm → refused st (require c orgID perm ≫= k).
Proof.
  intros Hn. unfold refused. wp_step. eapply wp_mono; [apply require_allowed| |by intros e s' [-> _]].
  cbn beta. by intros a s' [_ ?].
Qed.

Lemma Deploy_refused c orgID projectID userID in_ ip ua st :
  ¬ allowed c orgID PermDeployWrite → refused st (Deploy c orgID projectID userID in_ ip ua).
Proof. apply require_refuses. Qed.

Lemma serves_refused c orgID perm A (m : db (control W) A) st :
  serves c orgID perm A m → ¬ allowed c orgID perm → refused st m.
Proof.
  intros [] Hn; try (by apply require_refuses).
  - unfold Redeploy, refused. wp_step. apply wp_zoom. eapply wp_mono; [apply GetByID_wp| |].
    + cbn beta. intros prev r (-> & _). rewrite put_view. by apply Deploy_refused.
    + cbn beta. intros e r ->. apply put_view.
  - unfold Timeline, refused. wp_step. eapply wp_mono; [by apply require_refuses|done..].
Qed.

(** ** Confinement *)

Lemma confined_Deploy orgID st0 c projectID userID in_ ip ua :
  preserves (confined orgID st0) (Deploy c orgID projectID userID in_ ip ua).
Proof.
  unfold Deploy, create, update_status, GetProject. confine.
Qed.

Lemma confined_serves c orgID perm A (m : db (control W) A) st0 :
  serves c orgID perm A m → preserves (confined orgID st0) m.
Proof.
  intros []; try (by apply confined_Deploy).
  - unfold Redeploy. apply preserves_bind; [confine|]. intros prev. apply confined_Deploy.
  - unfold Rollback, create. confine.
  - unfold Cancel, update_status. confine.
  - unfold Restart, GetLatest, first_of. confine.
  - unfold Pause. confine.
  - unfold Resume, Restart, GetLatest, first_of. confine.
  - unfold Get, requireDeployRead. confine.
  - unfold Service_GetLatest, requireDeployRead, GetLatest, first_of. confine.
  - unfold ListHistory, requireDeployRead, ListByProject. confine.
  - unfold Timeline, Get, requireDeployRead, ListEvents. confine.
Qed.

(** ** Reads *)

Lemma same_require c o perm st : preserves (λ st', st' = st) (require (W := W) c o perm).
Proof.
  apply preserves_wp. intros s ->. eapply wp_mono; [apply require_allowed|..]; cbn beta; by intros ? s' [-> _].
Qed.

Lemma same_on_rows {A} (m : db (deploydb W) A) st :
  (∀ r, preserves (λ r', r' = r) m) → preserves (λ st', st' = st) (on_rows m).
Proof.
  intros Hm. apply preserves_wp. intros s ->. apply wp_zoom.
  eapply wp_mono; [by apply (wp_preserves (λ r, r = rows st))|..]; cbn beta; intros ? r ->; apply (put_view rows_lens).
Qed.

Lemma same_GetByID o id (r : deploydb W) : preserves (λ r', r' = r) (GetByID o id).
Proof. unfold GetByID, one_deployment. apply preserves_translate, preserves_query. by intros ? ->. Qed.

Lemma reads_same c orgID A (m : db (control W) A) st :
  serves c orgID PermDeployRead A m → preserves (λ st', st' = st) m.
Proof.
  intros Hs. remember PermDeployRead as perm eqn:E. destruct Hs; try done.
  - apply preserves_bind; [apply same_require|]. intros _. apply same_on_rows. intros r. apply same_GetByID.
  - apply preserves_bind; [apply same_require|]. intros _. apply same_on_rows. intros r.
    apply preserves_query. by intros ? ->.
  - apply preserves_bind; [apply same_require|]. intros _. apply same_on_rows. intros r.
    apply preserves_translate, preserves_exec. by intros ? ->.
  - apply preserves_bind; [|intros _].
    + apply preserves_bind; [apply same_require|]. intros _. apply same_on_rows. intros r. apply same_GetByID.
    + apply same_on_rows. intros r. apply preserves_translate, preserves_exec. by intros ? ->.
Qed.

(** C27: whatever statements fail, a request to an organization that is not the
    caller's, or one whose permission the caller's role lacks, is refused and
    changes nothing; a read changes nothing; and every other request leaves the
    deployments of other organizations, their timelines, the projects and the
    deployer's tables alone, and adds jobs, audit entries and events for its own
    organization only. *)
Theorem requests_confined c orgID perm A (m : db (control W) A) (st : control W) fs :
  serves c orgID perm A m →
  let '(r, (st', _)) := m (st, fs) in
  (¬ allowed c orgID perm → is_ok r = false ∧ st' = st)
  ∧ (perm = PermDeployRead → st' = st)
  ∧ confined orgID st st'.
Proof.
  intros Hs. pose proof (confined_serves _ _ _ _ _ st Hs st fs (confined_refl _ _)) as Hc.
  pose proof (λ Hn, serves_refused _ _ _ _ _ st Hs Hn fs) as Hr.
  assert (perm = PermDeployRead → tables_of (m (st, fs)) = st) as Hq.
  { intros ->. by apply (reads_same _ _ _ _ st Hs). }
  unfold tables_of in *. destruct (m (st, fs)) as [[a|e] [st' fs']]; simpl in *; split; auto.
  intros Hn. by destruct (Hr Hn).
Qed.
End requests.

(** ** Outcomes *)

Section outcomes.
Context {W : Type} `{Cl : Clock W} `{D : Driver} `{So : Sorter} `{J : Jsonb}.

(** Clock and identifiers leave the tables alone. *)
Lemma wp_ask_world {A} (op : W → A * W) (Q : A → deploydb W → Prop) E (r : deploydb W) :
  (∀ a w, Q a (set_world w (trace r) r)) → wp (ask op (λ _, [])) Q E r.
Proof.
  intros H fs. unfold ask. destruct (op (outside r)) as [a w]. rewrite app_nil_r. apply H.
Qed.

Lemma create_wp d (st : control W) :
  wp (create d)
    (λ d' st', uuid_or_null (Deployment.TriggerUserID d) = true ∧ (∃ id now, d' = new_deployment id now d)
       ∧ d' ∈ deployments (rows st')
       ∧ (∀ r, r ∈ deployments (rows st') → Deployment.ID r = Deployment.ID d' → r = d')
       ∧ jobs st' = jobs st)
    (λ _ _, True) st.
Proof.
  apply wp_zoom. wp_step. apply wp_ask_world. intros id w. wp_step. apply wp_ask_world. intros now w'.
  wp_step. apply wp_ask_world. intros ev w''.
  eapply wp_mono; [apply Create_wp| |done]. cbn beta. intros d' r (-> & Hu & Hin & Huniq).
  split; [done|]. split; [by eauto|]. done.
Qed.

Lemma update_status_wp orgID id status message failure (st : control W) :
  wp (update_status orgID id status message failure)
    (λ d' st', d' ∈ deployments (rows st') ∧ jobs st' = jobs st
       ∧ ∃ now d, d ∈ deployments (rows st) ∧ is_deployment orgID id d = true
                  ∧ d' = set_status status failure now d)
    (λ _ _, True) st.
Proof.
  apply wp_zoom. wp_step. apply wp_ask_world. intros now w. wp_step. apply wp_ask_world. intros ev w'.
  eapply wp_mono; [apply UpdateStatus_wp| |done]. cbn beta. intros d' r (Hin & d & Hd & Hid & ->).
  simpl in Hd. split; [done|]. split; [done|]. by exists now, d.
Qed.

Lemma enqueue_wp m queue key (st : control W) :
  (∀ id now, ∃ jobType raw opts, m id now = Enqueue id queue jobType (Ok raw) opts now
     ∧ IdempotencyKey opts = key) →
  wp (enqueue m) 
    (λ _ st', deployments (rows st') = deployments (rows st) ∧ (∃ l, jobs st' = jobs st ++ l)
       ∧ (key ≠ "" → has_job queue key (jobs st')))
    (λ _ st', deployments (rows st') = deployments (rows st) ∧ jobs st' = jobs st) st.
Proof.
  intros Hm. unfold enqueue, with_id. wp_step. apply wp_zoom, wp_ask_world. intros id w.
  wp_step. apply wp_zoom, wp_ask_world. intros now w'. apply wp_zoom.
  destruct (Hm id now) as (jobType & raw & opts & -> & <-).
  eapply wp_mono; [apply Enqueue_wp| |by intros e js ->]. cbn beta.
  intros _ js [(l & -> & _) Hk]. split; [done|]. split; [by exists l|done].
Qed.

Lemma recordAudit_wp c userID orgID action id ip ua (st : control W) :
  wp (recordAudit c userID orgID action id ip ua)
    (λ _ st', deployments (rows st') = deployments (rows st) ∧ jobs st' = jobs st) (λ _ _, True) st.
Proof.
  unfold recordAudit, record_entry, with_id. wp_step. wp_step. apply wp_zoom, wp_ask_world. intros fresh w.
  wp_step. apply wp_zoom, wp_ask_world. intros now w'. apply wp_zoom.
  unfold Logger_Record. wp_step. apply wp_query; [done|]. by destruct (insert_entry _ _) as [[]].
Qed.

Lemma key_not_empty projectID id suffix : idemKey projectID id +:+ suffix ≠ "".
Proof. done. Qed.

(** What a successful [Deploy] has done. *)
Definition deployed (c : Caller) (orgID projectID userID : string) (in_ : DeployInput) (st : control W)
    (d : Deployment) (st' : control W) : Prop :=
  userID ≠ "" ∧ d ∈ deployments (rows st')
  ∧ has_job QueueBuilds (idemKey projectID (Deployment.ID d) +:+ ":build") (jobs st')
  ∧ ∃ proj id created queued, proj ∈ projects (rows st) ∧ is_project orgID projectID proj = true
      ∧ Project.IsLive proj = true
      ∧ d = set_status StatusQueued "" queued (new_deployment id created
              (requested orgID projectID userID in_ proj (Caller.CorrelationID c))).

Lemma Service_Deploy_wp c orgID projectID userID in_ ip ua (st : control W) :
  wp (Deploy c orgID projectID userID in_ ip ua)
    (λ d st', allowed c orgID PermDeployWrite ∧ deployed c orgID projectID userID in_ st d st')
    (λ _ _, True) st.
Proof.
  unfold Deploy. wp_step. eapply wp_mono; [apply require_allowed| |done]. cbn beta. intros _ st1 [-> Hal].
  wp_step. apply wp_zoom. unfold GetProject. wp_step. wp_step. wp_step. wp_step; [done|].
  destruct (select _ _) as [|proj l] eqn:Es; [by wp_step|]. wp_step.
  assert (proj ∈ select (is_project orgID projectID) (projects (rows st))) as [Hp1 Hp2]%elem_of_select
    by (rewrite Es; by left).
  destruct (Project.IsLive proj) eqn:El; cbn [negb]; [|by wp_step]. cbv zeta.
  wp_step. eapply wp_mono; [apply create_wp| |done]. cbn beta.
  intros d st1 (Hu & (id & created & Ed) & Hd & Huniq & Hj1). wp_step.
  eapply wp_mono; [apply (enqueue_wp _ QueueBuilds (idemKey projectID (Deployment.ID d) +:+ ":build"));
    by repeat eexists| |done]. cbn beta. intros _ st2 (Hr2 & _ & Hk). specialize (Hk (key_not_empty _ _ _)).
  wp_step. eapply wp_mono; [apply update_status_wp| |done]. cbn beta.
  intros d' st3 (Hd' & Hj3 & queued & d0 & Hd0 & Hid & Ed'). rewrite Hr2 in Hd0.
  apply is_deployment_id in Hid. apply (Huniq d0 Hd0) in Hid as ->.
  wp_step. wp_step. eapply wp_mono; [apply (enqueue_wp _ QueueDeployments (idemKey projectID (Deployment.ID d) +:+ ":deploy"));
    by repeat eexists| |].
  all: cbn beta; intros ? st4 (Hr4 & Hj4); wp_step; (eapply wp_mono; [apply recordAudit_wp| |done]);
    cbn beta; intros _ st5 [Hr5 Hj5]; wp_step; intros fs; cbn beta iota; split; [done|].
  all: unfold deployed; simpl.
  all: rewrite Hr5, Hr4, Hj5.
  all: split; [by intros ->|split; [done|]].
  - destruct Hj4 as [(l4 & ->) _]. rewrite Hj3. split; [apply has_job_app; by rewrite Ed'|].
    exists proj, id, created, queued. by rewrite Ed', Ed.
  - rewrite Hj4, Hj3. split; [by rewrite Ed'|]. exists proj, id, created, queued. by rewrite Ed', Ed.
Qed.
(** whatever statements fail, [Deploy] answers with a deployment only to a
    caller with the permission and a user, for a live project of the
    organization; the deployment is then the row in the table, queued, with the
    commit, branch, environment and trigger that were asked for, and its build
    job is in the queue under the key of the deployment. *)
Theorem Deploy_queued c orgID projectID userID in_ ip ua (st : control W) fs :
  match Deploy c orgID projectID userID in_ ip ua (st, fs) with
  | (Ok d, (st', _)) => allowed c orgID PermDeployWrite ∧ deployed c orgID projectID userID in_ st d st'
  | (Err _, _) => True
  end.
Proof. exact (wp_ok _ _ _ fs (Service_Deploy_wp c orgID projectID userID in_ ip ua st)). Qed.

(** the webhook's deployments name no user, and the empty string is no UUID:
    whatever the request, [DeployFromWebhook] returns an error and leaves no
    deployment, job or audit entry behind. *)
Theorem webhook_never_deploys c orgID projectID in_ (st : control W) fs :
  let '(r, (st', _)) := DeployFromWebhook c orgID projectID in_ (st, fs) in
  is_ok r = false ∧ deployments (rows st') = deployments (rows st) ∧ jobs st' = jobs st
  ∧ audit_log st' = audit_log st ∧ published st' = published st.
Proof.
  cut (wp (DeployFromWebhook c orgID projectID in_) (λ _ _, False)
    (λ _ st', deployments (rows st') = deployments (rows st) ∧ jobs st' = jobs st
       ∧ audit_log st' = audit_log st ∧ published st' = published st) st).
  { intros H. specialize (H fs). by destruct (DeployFromWebhook _ _ _ _ _) as [[] []]. }
  unfold DeployFromWebhook, Deploy. wp_step.
  eapply wp_mono; [apply require_allowed| |by intros e s' [-> _]]. cbn beta. intros _ st1 [-> _].
  wp_step. apply wp_zoom. unfold GetProject. wp_step. wp_step. wp_step. wp_step; [done|].
  destruct (select _ _) as [|proj l]; [by wp_step|]. wp_step.
  destruct (negb _); [by wp_step|]. cbv zeta. wp_step. apply wp_zoom.
  wp_step. apply wp_ask_world. intros id w. wp_step. apply wp_ask_world. intros now w'.
  wp_step. apply wp_ask_world. intros ev w''. unfold Create. wp_step. apply wp_Transact; [done|].
  wp_step. wp_step. by wp_step.
Qed.

(** [Rollback] answers with a new deployment that rolls back, carries the
    image and the commit of the target, and has its job in the queue; the target
    is a deployment of the organization and of the project. *)
Theorem Rollback_queued c orgID projectID targetID userID ip ua (st : control W) fs :
  match Rollback c orgID projectID targetID userID ip ua (st, fs) with
  | (Ok d, (st', _)) =>
      allowed c orgID PermDeployWrite
      ∧ d ∈ deployments (rows st')
      ∧ has_job QueueDeployments ("rollback:" +:+ Deployment.ID d) (jobs st')
      ∧ ∃ target id now, target ∈ deployments (rows st) ∧ is_deployment orgID targetID target = true
          ∧ Deployment.ProjectID target = projectID
          ∧ d = new_deployment id now (rollback_of orgID projectID userID (Caller.CorrelationID c) target)
  | (Err _, _) => True
  end.
Proof.
  apply (wp_ok _ (λ d st', allowed c orgID PermDeployWrite ∧ d ∈ deployments (rows st') ∧ _ ∧ _)).
  unfold Rollback. wp_step.
  eapply wp_mono; [apply require_allowed| |done]. cbn beta. intros _ st1 [-> Hal].
  wp_step. apply wp_zoom. eapply wp_mono; [apply GetByID_wp| |done]. cbn beta. intros target r (-> & Hin & Hid).
  rewrite put_view. destruct (String.eqb_spec (Deployment.ProjectID target) projectID) as [Ep|];
    cbn [negb]; [|by wp_step]. cbv zeta.
  wp_step. eapply wp_mono; [apply create_wp| |done]. cbn beta.
  intros d st1 (_ & (id & now & Ed) & Hd & _ & _). wp_step.
  eapply wp_mono; [apply (enqueue_wp _ QueueDeployments ("rollback:" +:+ Deployment.ID d)); by repeat eexists| |done].
  cbn beta. intros _ st2 (Hr2 & _ & Hk). wp_step.
  eapply wp_mono; [apply recordAudit_wp| |done]. cbn beta. intros _ st3 [Hr3 Hj3]. wp_step.
  split; [done|]. rewrite Hr3, Hr2, Hj3. split; [done|]. split; [by apply Hk|].
  by exists target, id, now.
Qed.

(** A finished deployment cannot be cancelled: the request is refused and
    changes nothing.  When [Cancel] succeeds the deployment was not finished when
    it was read, and its row is cancelled, with the time of the change. *)
Theorem Cancel_spec c orgID id userID ip ua (st : control W) fs :
  let '(r, (st', _)) := Cancel c orgID id userID ip ua (st, fs) in
  ((∀ d, d ∈ deployments (rows st) → is_deployment orgID id d = true → IsTerminal d = true) →
     is_ok r = false ∧ st' = st)
  ∧ match r with
    | Ok d' => allowed c orgID PermDeployWrite ∧ d' ∈ deployments (rows st')
        ∧ (∃ d, d ∈ deployments (rows st) ∧ is_deployment orgID id d = true ∧ IsTerminal d = false)
        ∧ ∃ now d, d ∈ deployments (rows st) ∧ d' = set_status StatusCancelled "" now d
    | Err _ => True
    end.
Proof.
  set (done_all := ∀ d, d ∈ deployments (rows st) → is_deployment orgID id d = true → IsTerminal d = true).
  cut (wp (Cancel c orgID id userID ip ua)
    (λ d' st', ¬ done_all ∧ allowed c orgID PermDeployWrite ∧ d' ∈ deployments (rows st')
        ∧ (∃ d, d ∈ deployments (rows st) ∧ is_deployment orgID id d = true ∧ IsTerminal d = false)
        ∧ ∃ now d, d ∈ deployments (rows st) ∧ d' = set_status StatusCancelled "" now d)
    (λ _ st', done_all → st' = st) st).
  { intros H. specialize (H fs). destruct (Cancel _ _ _ _ _ _ _) as [[d'|e] [st' fs']].
    - destruct H as [Hn H]. split; [by intros ?%Hn|done].
    - split; [|done]. intros Ha. split; [done|by apply H]. }
  unfold Cancel. wp_step. eapply wp_mono; [apply require_allowed| |by intros e s' [-> _]]. cbn beta.
  intros _ st1 [-> Hal]. wp_step. apply wp_zoom.
  eapply wp_mono; [apply GetByID_wp| |by intros e r -> _; apply (put_view rows_lens)]. cbn beta.
  intros d r (-> & Hin & Hid). rewrite put_view. destruct (IsTerminal d) eqn:Et; [by wp_step|].
  assert (¬ done_all) as Hn.
  { intros Ha. specialize (Ha d Hin Hid). congruence. }
  clearbody done_all. wp_step. wp_step.
  eapply wp_mono; [apply (enqueue_wp _ QueueDeployments ""); by repeat eexists|..]; cbn beta.
  all: intros ? st2 (Hr2 & _); wp_step; (eapply wp_mono; [apply update_status_wp| |by intros ? ? _ ?%Hn]);
    cbn beta; intros d' st3 (Hd' & _ & now & d0 & Hd0 & Hid0 & Ed'); rewrite Hr2 in Hd0; wp_step;
    (eapply wp_mono; [apply recordAudit_wp| |by intros ? ? _ ?%Hn]);
    cbn beta; intros _ st4 [Hr4 _]; wp_step; intros fs'; cbn beta iota; simpl.
  all: wp_step; simpl; split; [done|split; [done|split; [by rewrite Hr4|]]].
  all: split; [by exists d|by exists now, d0].
Qed.
End outcomes.

(** ** Concrete requests *)

#[local] Existing Instance strict_driver.
#[local] Existing Instance insertion_sorter.
#[local] Instance text_jsonb : Jsonb :=
  {| json_object := λ _, "{}"; jsonb_merge := λ a b, if b =s? "{}" then a else b |}.

(** A world that counts: the next identifier and the time are its state. *)
#[local] Instance counter : Clock nat :=
  {| now_of := Z.of_nat; new_uuid := λ n, ("id" +:+ pretty n, S n) |}.

Definition developer : Caller :=
  {| Caller.UserID := "u"; Caller.OrgID := "o"; Caller.MemberRole := RoleDeveloper;
     Caller.RequestID := "r"; Caller.CorrelationID := "c" |}.
Definition some_input : DeployInput :=
  {| DeployInput.CommitSHA := "c0ffee"; DeployInput.CommitMessage := ""; DeployInput.Branch := "";
     DeployInput.Author := ""; DeployInput.Environment := "" |}.
Definition new_control : control nat := mkControl (empty_db 0%nat) [] [] [].

Definition deploy_with (fs : faults) : result error Deployment * (control nat * faults) :=
  Deploy developer "o" "p" "u" some_input "" "" (new_control, fs).

(** Without failures: one queued deployment, two jobs, one audit entry. *)
Example deploy_enqueues :
  let st := tables_of (deploy_with []) in
  is_ok (deploy_with []).1 = true
  ∧ (λ d, (Deployment.Status d, Deployment.Branch d, Deployment.Runtime d)) <$> deployments (rows st)
    = [(StatusQueued, "main", "go")]
  ∧ (λ j, (Job.Queue j, Job.Type_ j, Job.IdempotencyKey j)) <$> jobs st
    = [(QueueBuilds, TypeBuild, Some "deploy:p:id0:build");
       (QueueDeployments, TypeDeploy, Some "deploy:p:id0:deploy")]
  ∧ Entry.Action <$> audit_log st = ["deployment.deploy"].
Proof. vm_compute. done. Qed.

(** The error of the second enqueue is dropped: the request succeeds, and no job
    will ever deploy what gets built. *)
Example deploy_job_lost :
  let r := deploy_with (replicate 12 None ++ [Some (Plain "connection reset")]) in
  is_ok r.1 = true ∧ Job.Type_ <$> jobs (tables_of r) = [TypeBuild].
Proof. vm_compute. done. Qed.

Definition stranger : Caller :=
  {| Caller.UserID := "u"; Caller.OrgID := "o"; Caller.MemberRole := RoleViewer;
     Caller.RequestID := "r"; Caller.CorrelationID := "c" |}.

Lemma requests_confined_witness :
  let '(r, (st', _)) := Pause stranger "o" "p" "u" "" "" (new_control, []) in
  is_ok r = false ∧ st' = new_control.
Proof.
  pose proof (requests_confined stranger "o" PermDeployWrite _ (Pause stranger "o" "p" "u" "" "")
    new_control [] (s_pause _ _ "p" "u" "" "")) as H.
  destruct (Pause _ _ _ _ _ _ _) as [r [st' fs']]. destruct H as [H _]. apply H.
  intros (_ & _ & Hp). vm_compute in Hp. discriminate.
Defined.
