(* ===== verification/Health.v ===== *)
(** * Health verification (packages/application/deploy/health/checker.go)

    [WaitUntilHealthy] polls until a streak of successes or of failures, the
    deadline, or the end of the context.  The loop runs on fuel: one unit per
    second of the timeout, which the pauses of at least a second make enough
    ([wait_fuel_enough]). *)

From stdpp Require Import pretty.
From S2P Require Import Prelude GoLib Errors Postgres Sql DeployModel DeploymentRepo DeployStore Outside.

Module Result.
Record t := mk { Success : bool; Latency : Duration; Message : string; CheckType : string }.
End Result.
Abbreviation Result := Result.t.

(** [config.HealthConfig]; [MaxRetries] has a default but no use. *)
Record HealthConfig := {
  StartupTimeout : Duration;
  HTTPPath : string;
  TCPPort : Z;
  SuccessThreshold : Z;
  FailureThreshold : Z;
  MaxRetries : Z;
}.

Definition with_thresholds (cfg : HealthConfig) : HealthConfig :=
  {| StartupTimeout := StartupTimeout cfg; HTTPPath := HTTPPath cfg; TCPPort := TCPPort cfg;
     SuccessThreshold := if SuccessThreshold cfg <=? 0 then 1 else SuccessThreshold cfg;
     FailureThreshold := if FailureThreshold cfg <=? 0 then 3 else FailureThreshold cfg;
     MaxRetries := if MaxRetries cfg <=? 0 then 5 else MaxRetries cfg |}.

Section checker.
Context {W : Type} `{World W} (cfg : HealthConfig) (c : ctx) (host : string) (port : Z).

Definition checkOnce (w : W) : Result * W :=
  let start := now_of w in
  let tcpPort := if TCPPort cfg <=? 0 then port else TCPPort cfg in
  let '(up, w) := dial c host tcpPort w in
  if negb up then (Result.mk false (now_of w - start) "tcp unreachable" "tcp", w)
  else
    let path := if HTTPPath cfg =s? "" then "/health" else HTTPPath cfg in
    match http_get c host port path w with
    | (BadRequest, w) => (Result.mk true (now_of w - start) "tcp ok" "tcp", w)
    | (NoAnswer, w) => (Result.mk true (now_of w - start) "tcp ok, http pending" "readiness", w)
    | (StatusCode z, w) =>
        if (200 <=? z) && (z <? 400) then (Result.mk true (now_of w - start) "healthy" "readiness", w)
        else (Result.mk false (now_of w - start) ("http " +:+ pretty z) "readiness", w)
    end.

(** A single probe. *)
Definition Liveness : W → Result * W := checkOnce.

(** The loop; [successes] and [failures] are the current streaks. *)
Fixpoint wait_loop (fuel : nat) (deadline : Time) (results : list Result) (successes failures : Z)
    (backoff : Duration) (w : W) : (list Result * option error) * W :=
  let timed_out := Some (Platform (New CodeTimeout "health: startup timeout")) in
  match fuel with
  | O => ((results, timed_out), w)
  | S fuel =>
      if Before (now_of w) deadline then
        match context_err c w with
        | Some e => ((results, Some e), w)
        | None =>
            let '(r, w) := checkOnce w in
            let results := results ++ [r] in
            let successes := if Result.Success r then successes + 1 else 0 in
            let failures := if Result.Success r then 0 else failures + 1 in
            if Result.Success r && (SuccessThreshold (with_thresholds cfg) <=? successes)
            then ((results, None), w)
            else if negb (Result.Success r) && (FailureThreshold (with_thresholds cfg) <=? failures)
            then ((results, Some (Platform (New CodeFailedPrecond "health: failure threshold exceeded"))), w)
            else
              let w := pause backoff w in
              wait_loop fuel deadline results successes failures
                (if backoff <? 30 * Second then 2 * backoff else backoff) w
        end
      else ((results, timed_out), w)
  end.

Definition timeout_of : Duration := if StartupTimeout cfg <=? 0 then 5 * Minute else StartupTimeout cfg.

Definition wait_fuel : nat := Z.to_nat (timeout_of / Second + 1).

Definition WaitUntilHealthy (w : W) : (list Result * option error) * W :=
  wait_loop wait_fuel (Add (now_of w) timeout_of) [] 0 0 Second w.

(** ** The fuel is enough *)

Lemma checkOnce_time w : now_of w ≤ now_of (checkOnce w).2.
Proof.
  unfold checkOnce.
  pose proof (dial_time c host (if TCPPort cfg <=? 0 then port else TCPPort cfg) w) as Hd.
  destruct (dial _ _ _ w) as [[] w1]; simpl in *; [|done].
  set (path := if HTTPPath cfg =s? "" then _ else _).
  pose proof (http_get_time c host port path w1) as Hg.
  destruct (http_get c host port path w1) as [[| |z] w2]; simpl in *; [lia|lia|].
  case_match; simpl; lia.
Qed.

Lemma wait_fuel_irrelevant n : ∀ m deadline results s f backoff w,
  deadline - now_of w ≤ Z.of_nat n * Second → (n ≤ m)%nat → Second ≤ backoff →
  wait_loop m deadline results s f backoff w = wait_loop n deadline results s f backoff w.
Proof.
  induction n as [|n IH]; intros m deadline results s f backoff w Hd Hm Hb.
  { destruct m as [|m]; [done|]. simpl. unfold Before.
    destruct (Z.ltb_spec (now_of w) deadline); [lia|done]. }
  destruct m as [|m]; [lia|]. simpl. unfold Before.
  destruct (Z.ltb_spec (now_of w) deadline); [|done].
  destruct (context_err c w); [done|].
  pose proof (checkOnce_time w) as Ht. destruct (checkOnce w) as [r w1]; simpl in *.
  destruct (Result.Success r && _); [done|]. destruct (negb _ && _); [done|].
  pose proof (pause_lasts backoff w1) as Hp. unfold Second in *.
  apply IH; [lia|lia|]. destruct (Z.ltb_spec backoff (30 * 1000000000)); lia.
Qed.

Lemma wait_fuel_covers w : Add (now_of w) timeout_of - now_of w ≤ Z.of_nat wait_fuel * Second.
Proof.
  unfold Add, wait_fuel. assert (0 < timeout_of) as Ht.
  { unfold timeout_of, Minute, Second. destruct (Z.leb_spec (StartupTimeout cfg) 0); lia. }
  assert (0 ≤ timeout_of / Second) by (apply Z.div_pos; unfold Second; lia).
  pose proof (Z.mul_succ_div_gt timeout_of Second ltac:(unfold Second; lia)).
  rewrite Z2Nat.id by lia. unfold Second in *. lia.
Qed.

Lemma wait_fuel_enough m w :
  (wait_fuel ≤ m)%nat →
  wait_loop m (Add (now_of w) timeout_of) [] 0 0 Second w = WaitUntilHealthy w.
Proof. intros Hm. apply wait_fuel_irrelevant; [apply wait_fuel_covers|done|reflexivity]. Qed.

(** ** Streaks *)

(** The length of the final run of results with [Success] equal to [b]. *)
Definition streak (b : bool) (rs : list Result) : Z :=
  foldl (λ n r, if Bool.eqb (Result.Success r) b then n + 1 else 0) 0 rs.

Lemma streak_snoc b rs r :
  streak b (rs ++ [r]) = if Bool.eqb (Result.Success r) b then streak b rs + 1 else 0.
Proof. unfold streak. by rewrite foldl_app. Qed.

(** No verdict yet. *)
Definition undecided (rs : list Result) : Prop :=
  streak true rs < SuccessThreshold (with_thresholds cfg)
  ∧ streak false rs < FailureThreshold (with_thresholds cfg).

Definition verdict (deadline : Time) (rs : list Result) (err : option error) (w : W) : Prop :=
  match err with
  | None => ∃ before r, rs = before ++ [r] ∧ undecided before
              ∧ SuccessThreshold (with_thresholds cfg) ≤ streak true rs
  | Some e =>
      (∃ before r, rs = before ++ [r] ∧ undecided before
         ∧ FailureThreshold (with_thresholds cfg) ≤ streak false rs
         ∧ e = Platform (New CodeFailedPrecond "health: failure threshold exceeded"))
      ∨ (undecided rs ∧ context_err c w = Some e)
      ∨ (undecided rs ∧ deadline ≤ now_of w ∧ e = Platform (New CodeTimeout "health: startup timeout"))
  end.

Lemma wait_loop_verdict n : ∀ deadline results backoff w,
  deadline - now_of w ≤ Z.of_nat n * Second → Second ≤ backoff → undecided results →
  let '((rs, err), w') :=
    wait_loop n deadline results (streak true results) (streak false results) backoff w in
  verdict deadline rs err w' ∧ (length rs ≤ length results + n)%nat.
Proof.
  induction n as [|n IH]; intros deadline results backoff w Hd Hb Hu; cbn [wait_loop].
  { split; [|lia]. right; right. split; [done|]. split; [lia|done]. }
  unfold Before. destruct (Z.ltb_spec (now_of w) deadline) as [Hlt|Hge].
  2:{ split; [|lia]. right; right. done. }
  destruct (context_err c w) as [e|] eqn:Ec; [split; [by right; left|lia]|].
  pose proof (checkOnce_time w) as Ht. destruct (checkOnce w) as [r w1]. simpl in Ht.
  assert (streak true (results ++ [r]) = if Result.Success r then streak true results + 1 else 0) as E1.
  { rewrite streak_snoc. by destruct (Result.Success r). }
  assert (streak false (results ++ [r]) = if Result.Success r then 0 else streak false results + 1) as E2.
  { rewrite streak_snoc. by destruct (Result.Success r). }
  rewrite <- E1, <- E2.
  pose proof (pause_lasts backoff w1) as Hp.
  assert (Second ≤ (if backoff <? 30 * Second then 2 * backoff else backoff)) as Hb'.
  { destruct (Z.ltb_spec backoff (30 * Second)); unfold Second in *; lia. }
  assert (deadline - now_of (pause backoff w1) ≤ Z.of_nat n * Second) as Hd'.
  { rewrite Nat2Z.inj_succ in Hd. unfold Second in *. lia. }
  specialize (IH deadline (results ++ [r]) _ (pause backoff w1) Hd' Hb').
  destruct (Result.Success r) eqn:Er; cbn [andb negb].
  - destruct (Z.leb_spec (SuccessThreshold (with_thresholds cfg)) (streak true (results ++ [r]))) as [Hs|Hs].
    { split; [by exists results, r|]. rewrite length_app. simpl. lia. }
    assert (undecided (results ++ [r])) as Hu'.
    { split; [done|]. rewrite E2. unfold with_thresholds; simpl.
      destruct (Z.leb_spec (FailureThreshold cfg) 0); lia. }
    specialize (IH Hu'). destruct (wait_loop n _ _ _ _ _ _) as [[rs err] w']. destruct IH as [IH1 IH2].
    rewrite length_app in IH2. simpl in IH2. split; [done|lia].
  - destruct (Z.leb_spec (FailureThreshold (with_thresholds cfg)) (streak false (results ++ [r]))) as [Hs|Hs].
    { split; [left; by exists results, r|]. rewrite length_app. simpl. lia. }
    assert (undecided (results ++ [r])) as Hu'.
    { split; [|done]. rewrite E1. unfold with_thresholds; simpl.
      destruct (Z.leb_spec (SuccessThreshold cfg) 0); lia. }
    specialize (IH Hu'). destruct (wait_loop n _ _ _ _ _ _) as [[rs err] w']. destruct IH as [IH1 IH2].
    rewrite length_app in IH2. simpl in IH2. split; [done|lia].
Qed.

Lemma undecided_nil : undecided [].
Proof.
  unfold undecided, streak, with_thresholds; simpl.
  destruct (Z.leb_spec (SuccessThreshold cfg) 0), (Z.leb_spec (FailureThreshold cfg) 0); lia.
Qed.

Lemma WaitUntilHealthy_streak w rs w' :
  WaitUntilHealthy w = ((rs, None), w') → SuccessThreshold (with_thresholds cfg) ≤ streak true rs.
Proof.
  intros E. pose proof (wait_loop_verdict wait_fuel (Add (now_of w) timeout_of) [] Second w
    (wait_fuel_covers w) ltac:(reflexivity) undecided_nil) as Hv.
  unfold WaitUntilHealthy in E. change (streak true []) with 0 in Hv. change (streak false []) with 0 in Hv.
  rewrite E in Hv. by destruct Hv as [(before & r & _ & _ & Hle) _].
Qed.
End checker.

(** C40: WaitUntilHealthy ends after at most one check per second of the
    startup timeout, and more fuel would not change its result.  It reports
    health exactly when the last SuccessThreshold checks in a row succeeded;
    a failure names the last FailureThreshold checks that failed in a row, the
    end of the context, or the passing of the deadline; and it stops at the
    first check that decides. *)
Theorem WaitUntilHealthy_verdict {W} `{World W} cfg c host port (w : W) :
  let '((rs, err), w') := WaitUntilHealthy cfg c host port w in
  verdict cfg c (now_of w + timeout_of cfg) rs err w'
  ∧ Z.of_nat (length rs) ≤ timeout_of cfg / Second + 1
  ∧ ∀ m, (wait_fuel cfg ≤ m)%nat →
      wait_loop cfg c host port m (now_of w + timeout_of cfg) [] 0 0 Second w = ((rs, err), w').
Proof.
  pose proof (wait_loop_verdict cfg c host port (wait_fuel cfg) (Add (now_of w) (timeout_of cfg)) []
    Second w (wait_fuel_covers cfg w) ltac:(reflexivity) (undecided_nil cfg)) as Hv.
  pose proof (λ m, wait_fuel_enough cfg c host port m w) as Hf.
  unfold WaitUntilHealthy in *. change (streak true []) with 0 in Hv. change (streak false []) with 0 in Hv.
  destruct (wait_loop _ _ _ _ _ _ _ _ _ _ w) as [[rs err] w']. destruct Hv as [Hv Hl].
  split; [exact Hv|]. split; [|exact Hf]. simpl in Hl. unfold wait_fuel in Hl.
  assert (0 ≤ timeout_of cfg / Second).
  { apply Z.div_pos; [|done]. unfold timeout_of, Minute, Second.
    destruct (Z.leb_spec (StartupTimeout cfg) 0); lia. }
  lia.
Qed.

(** * Deployment strategies and rollback
    (packages/application/deploy/strategy, packages/application/deploy/rollback) *)

(** [strategy.Context] with its placement. *)
Record Context := {
  s_DeploymentID : string; s_Environment : string; s_Strategy : string; s_Runtime : RuntimeConfig;
  s_Host : string; s_Port : Z; s_IsPreview : bool; s_IsRollback : bool;
}.

(** The executors of the package; all build on the rolling one. *)
Inductive Executor := Rolling | BlueGreen | Canary | Preview | Immediate.

Record Registry := { executors : gmap string Executor; defaultEx : Executor }.

Definition base_executors : gmap string Executor := list_to_map
  [(StrategyRolling, Rolling); (StrategyBlueGreen, BlueGreen); (StrategyCanary, Canary);
   (StrategyPreview, Preview); (StrategyImmediate, Immediate)].

Definition NewRegistry (defaultStrategy : string) : Registry :=
  {| executors := base_executors;
     defaultEx := default Rolling (base_executors !! defaultStrategy) |}.

Definition Get (r : Registry) (name : string) : Executor :=
  default (defaultEx r) (executors r !! name).

Definition Resolve (environment defaultStrategy : string) (isPreview isRollback : bool) : string :=
  if isRollback then StrategyImmediate
  else if isPreview || (environment =s? "preview") then StrategyPreview
  else if negb (defaultStrategy =s? "") then defaultStrategy
  else StrategyRolling.

(** Runtime configurations with a field changed. *)
Definition with_label (k v : string) (cfg : RuntimeConfig) : RuntimeConfig :=
  {| RuntimeConfig.Image := RuntimeConfig.Image cfg; RuntimeConfig.Env := RuntimeConfig.Env cfg;
     RuntimeConfig.Secrets := RuntimeConfig.Secrets cfg;
     RuntimeConfig.Labels := <[k := v]> (RuntimeConfig.Labels cfg);
     RuntimeConfig.Annotations := RuntimeConfig.Annotations cfg;
     RuntimeConfig.Port := RuntimeConfig.Port cfg; RuntimeConfig.Network := RuntimeConfig.Network cfg;
     RuntimeConfig.HostPort := RuntimeConfig.HostPort cfg |}.

Definition on_port (hostPort : Z) (cfg : RuntimeConfig) : RuntimeConfig :=
  {| RuntimeConfig.Image := RuntimeConfig.Image cfg; RuntimeConfig.Env := RuntimeConfig.Env cfg;
     RuntimeConfig.Secrets := RuntimeConfig.Secrets cfg; RuntimeConfig.Labels := RuntimeConfig.Labels cfg;
     RuntimeConfig.Annotations := RuntimeConfig.Annotations cfg;
     RuntimeConfig.Port := RuntimeConfig.Port cfg; RuntimeConfig.Network := "";
     RuntimeConfig.HostPort := hostPort |}.

Definition located (host : string) (port : Z) (i : ContainerInfo) : ContainerInfo :=
  {| ContainerInfo.ID := ContainerInfo.ID i; ContainerInfo.Name := ContainerInfo.Name i;
     ContainerInfo.Host := host; ContainerInfo.Port := port; ContainerInfo.Image := ContainerInfo.Image i;
     ContainerInfo.Status := ContainerInfo.Status i |}.

Section strategies.
Context {W : Type} `{Wo : World W} `{D : Driver} `{So : Sorter} `{J : Jsonb}.

Definition Rolling_Deploy (c : ctx) (sctx : Context) : db (deploydb W) ContainerInfo :=
  container ← drv_Create c (s_DeploymentID sctx) (on_port (s_Port sctx) (s_Runtime sctx));
  started ← attempt (drv_Start c (ContainerInfo.ID container));
  match started with
  | Err e => _ ← ignore (drv_Remove c (ContainerInfo.ID container)); fail e
  | Ok _ => mret (located (s_Host sctx) (s_Port sctx) container)
  end.

Definition labelled (k : string) (sctx : Context) : Context :=
  {| s_DeploymentID := s_DeploymentID sctx; s_Environment := s_Environment sctx;
     s_Strategy := s_Strategy sctx; s_Runtime := with_label k "true" (s_Runtime sctx);
     s_Host := s_Host sctx; s_Port := s_Port sctx; s_IsPreview := s_IsPreview sctx;
     s_IsRollback := s_IsRollback sctx |}.

Definition Deploy (ex : Executor) (c : ctx) (sctx : Context) : db (deploydb W) ContainerInfo :=
  match ex with
  | Rolling | BlueGreen | Immediate => Rolling_Deploy c sctx
  | Canary => Rolling_Deploy c (labelled "agnivo.canary" sctx)
  | Preview => Rolling_Deploy c (labelled "agnivo.preview" sctx)
  end.

(** ** Events *)

Record Meta := { m_EventID : string; m_ExecutionID : string; m_DeploymentID : string; m_OrgID : string;
                 m_ProjectID : string; m_CorrelationID : string }.

(** [data]: nil or the entries of a map. *)
Definition publish (eventType : string) (meta : Meta) (data : option (list (string * value)))
    : db (deploydb W) unit :=
  id ← (if m_EventID meta =s? "" then uuid else mret (m_EventID meta));
  now ← clock;
  Publish {| DeployEvent.ID := id; DeployEvent.ExecutionID := m_ExecutionID meta;
             DeployEvent.DeploymentID := m_DeploymentID meta; DeployEvent.OrgID := m_OrgID meta;
             DeployEvent.ProjectID := m_ProjectID meta; DeployEvent.EventType := eventType;
             DeployEvent.CorrelationID := m_CorrelationID meta;
             DeployEvent.Metadata := match data with None => "null" | Some l => json_object l end;
             DeployEvent.CreatedAt := now |}.

(** ** Rollback *)

Abbreviation TriggerReason := string.
Definition TriggerHealthFailed : TriggerReason := "health_check_failed".
Definition TriggerContainerCrash : TriggerReason := "container_crash".
Definition TriggerRuntime : TriggerReason := "runtime_failure".

Definition ShouldRollback (reason : TriggerReason) : bool :=
  (reason =s? TriggerHealthFailed) || (reason =s? TriggerContainerCrash) || (reason =s? TriggerRuntime).

Definition RestorePrevious (orgID projectID failedDeploymentID : string) (meta : Meta)
    : db (deploydb W) Deployment :=
  prev ← on_error (wrap_with CodeNotFound "rollback: no previous live deployment")
           (GetPreviousLive orgID projectID failedDeploymentID);
  _ ← ignore (publish "deploy.rollback_started" meta
                (Some [("target_deployment_id", VString (Deployment.ID prev));
                       ("image_tag", VString (Deployment.ImageTag prev))]));
  mret prev.

Fixpoint DrainContainers (c : ctx) (ids : list string) : db (deploydb W) (list string) :=
  match ids with
  | [] => mret []
  | id :: ids =>
      _ ← ignore (drv_Stop c id 0);
      removed ← attempt (drv_Remove c id);
      drained ← DrainContainers c ids;
      mret (match removed with Ok _ => id :: drained | Err _ => drained end)
  end.
End strategies.
