(* ===== verification/Pipeline.v ===== *)
(** * The deployment pipeline (packages/application/deploy/executor/pipeline.go)

    [run] is the handler of deploy.run and deploy.rollback, in the order of the
    code; a [defer] is what follows an [attempt] of the rest.  Metrics, log
    lines and the control-plane bus ([cpEvents]) are not modelled, and the
    rollback engine is taken to be present. *)

From S2P Require Import Prelude GoLib Errors Postgres Sql DeployModel ControlPlane.
From S2P Require Import DeploymentRepo DeployStore Outside.
From S2P Require Import Health.

(** The pipeline's configuration and its stateless dependencies. *)
Record Config := {
  DefaultStrategy : string; HealthCfg : HealthConfig; HostPortMin : Z; HostPortMax : Z;
  scheduler : Client; strategies : Registry; workerID : string;
  Version : string;
}.

Fixpoint firstNonEmpty (vals : list string) : string :=
  match vals with
  | [] => ""
  | v :: vals => if blank v then firstNonEmpty vals else v
  end.

(** [Milliseconds()] of [time.Since(start)] *)
Definition millis (d : Duration) : Z := Z.quot d Millisecond.

Definition no_artifact : Artifact :=
  {| art_BuildID := ""; art_DeploymentID := ""; art_ImageDigest := ""; art_ImageTag := "" |}.

(** [%q], for a text without characters that need escaping. *)
Definition quoted (s : string) : string := quote +:+ s +:+ quote.

Section pipeline.
Context {W : Type} `{Wo : World W} `{D : Driver} `{So : Sorter} `{J : Jsonb}.
Context (cfg : Config).

(** ** Repository calls with their identifiers and clock readings *)

Definition update_status (orgID id : string) (status : Status) (message : string) : db (deploydb W) unit :=
  now ← clock; ev ← uuid; _ ← UpdateStatus ev orgID id status message "" now; mret tt.

Definition set_phase (execID deploymentID : string) (from to : Phase) (message : string)
    : db (deploydb W) unit :=
  id ← uuid; now ← clock; SetPhase id execID deploymentID from to message now.

(** A call that stamps its row with the clock. *)
Definition stamped {A} (f : Time → db (deploydb W) A) : db (deploydb W) A := now ← clock; f now.

(** ** Shared steps *)

Definition eventMeta (exec : Execution) (p : Payload) : Meta :=
  {| m_EventID := ""; m_ExecutionID := Execution.ID exec; m_DeploymentID := DeploymentID p; m_OrgID := OrgID p;
     m_ProjectID := ProjectID p; m_CorrelationID := CorrelationID p |}.

(** The phase written as [from] is the one [exec] had when it was read. *)
Definition transition (exec : Execution) (phase : Phase) (cpStatus : Status) (p : Payload)
    (message : string) : db (deploydb W) unit :=
  _ ← set_phase (Execution.ID exec) (DeploymentID p) (Execution.Phase exec) phase message;
  update_status (OrgID p) (DeploymentID p) cpStatus message.

Definition fail_deploy {A} (p : Payload) (exec : Execution) (start : Time) (reason : string)
    : db (deploydb W) A :=
  now ← clock;
  let totalMs := millis (now - start) in
  _ ← ignore (now ← clock; ev ← uuid;
              MarkDeployFailed ev (OrgID p) (DeploymentID p) reason totalMs now);
  _ ← ignore (stamped (MarkFailed (Execution.ID exec) reason totalMs));
  _ ← ignore (set_phase (Execution.ID exec) (DeploymentID p) (Execution.Phase exec) PhaseFailed reason);
  _ ← ignore (publish "deploy.failed" (eventMeta exec p) (Some [("reason", VString reason)]));
  fail_with (New CodeFailedPrecond reason).

(** [if err := m; err != nil { return p.fail(.., reason(err)) }] *)
Definition or_fail {A} (p : Payload) (exec : Execution) (start : Time) (reason : error → string)
    (m : db (deploydb W) A) : db (deploydb W) A :=
  r ← attempt m;
  match r with
  | Ok a => mret a
  | Err e => fail_deploy p exec start (reason e)
  end.

Definition handleCancel {A} (p : Payload) (msg : string) : db (deploydb W) A :=
  got ← attempt (GetByDeployment (DeploymentID p));
  _ ← match got with
      | Ok exec =>
          if Execution.ID exec =s? "" then mret tt
          else
            _ ← ignore (stamped (MarkCancelled (Execution.ID exec)));
            ignore (publish "deploy.cancelled" (eventMeta exec p) (Some [("reason", VString msg)]))
      | Err _ => mret tt
      end;
  fail_with (New CodeCanceled msg).

Definition checkCancel (c : ctx) (p : Payload) : db (deploydb W) unit :=
  cancelled ← IsCancelled (OrgID p) (DeploymentID p);
  done ← ask (λ w, (context_err c w, w)) (λ _, []);
  if cancelled || negb (succeeded done) then handleCancel p "deployment cancelled" else mret tt.

(** [defer f()] around the rest of a function. *)
Definition deferred {A} (f : db (deploydb W) unit) (rest : db (deploydb W) A) : db (deploydb W) A :=
  r ← attempt rest; _ ← ignore f; of_result r.

(** ** The stages of [run] *)

(** The runtime configuration of the new container. *)
Definition runtime_config (p : Payload) (proj : Project) (placement : Placement) (imageRef : string)
    (rc : RuntimeConfig) : RuntimeConfig :=
  {| RuntimeConfig.Image := imageRef; RuntimeConfig.Env := RuntimeConfig.Env rc;
     RuntimeConfig.Secrets := RuntimeConfig.Secrets rc;
     RuntimeConfig.Labels := <["agnivo.project_slug" := Project.Slug proj]>
       (<["agnivo.deployment_id" := DeploymentID p]> (RuntimeConfig.Labels rc));
     RuntimeConfig.Annotations :=
       if pl_AgentURL placement =s? "" then RuntimeConfig.Annotations rc
       else <["agnivo.agent_url" := pl_AgentURL placement]> (RuntimeConfig.Annotations rc);
     RuntimeConfig.Port := if TCPPort (HealthCfg cfg) <=? 0 then 8080 else TCPPort (HealthCfg cfg);
     RuntimeConfig.Network := RuntimeConfig.Network rc;
     RuntimeConfig.HostPort := pl_Port placement |}.

(** The results of the health checks go to the table and to events. *)
Fixpoint record_checks (p : Payload) (exec : Execution) (checks : list Result) : db (deploydb W) unit :=
  match checks with
  | [] => mret tt
  | r :: checks =>
      _ ← ignore (
            id ← uuid; now ← clock;
            RecordHealth {| HealthRecord.ID := id; HealthRecord.ExecutionID := Execution.ID exec;
                            HealthRecord.DeploymentID := DeploymentID p;
                            HealthRecord.CheckType := Result.CheckType r;
                            HealthRecord.Success := Result.Success r;
                            HealthRecord.LatencyMs := millis (Result.Latency r);
                            HealthRecord.Message := Result.Message r; HealthRecord.CreatedAt := now |});
      _ ← ignore (publish (if Result.Success r then "deploy.health_passed" else "deploy.health_failed")
                    (eventMeta exec p)
                    (Some [("type", VString (Result.CheckType r));
                           ("latency_ms", VInt (millis (Result.Latency r)))]));
      record_checks p exec checks
  end.

Definition wait_healthy (c : ctx) (host : string) (port : Z)
    : db (deploydb W) (list Result * option error) :=
  ask (WaitUntilHealthy (HealthCfg cfg) c host port)
    (λ r, (λ x, RCheck host port (Result.Success x)) <$> r.1).

(** Stop and remove the containers the new one replaces. *)
Fixpoint mark_drained (p : Payload) (exec : Execution) (ids : list string) : db (deploydb W) unit :=
  match ids with
  | [] => mret tt
  | id :: ids =>
      _ ← ignore (stamped (MarkRemoved id));
      _ ← ignore (publish "deploy.container_removed" (eventMeta exec p)
                    (Some [("container_id", VString id)]));
      mark_drained p exec ids
  end.

Definition drain_previous (c : ctx) (p : Payload) (exec : Execution) (containerID : string)
    : db (deploydb W) unit :=
  got ← attempt (ListActiveByProject (OrgID p) (ProjectID p));
  let old := match got with Ok l => l | Err _ => [] end in
  let ids := ContainerRecord.ContainerID <$>
    select (λ r, negb (ContainerRecord.ContainerID r =s? containerID)
                 && negb (ContainerRecord.DeploymentID r =s? DeploymentID p)) old in
  drained ← DrainContainers c ids;
  mark_drained p exec drained.

(** What is known once the execution is written. *)
Record job := {
  j_start : Time; j_dep : Deployment; j_proj : Project; j_exec : Execution;
  j_image : string; j_digest : string; j_strategy : string; j_rollback : bool;
}.

(** From the switch of traffic to the end. *)
Definition finish (c : ctx) (p : Payload) (j : job) (placement : Placement) (container : ContainerInfo)
    : db (deploydb W) unit :=
  let exec := j_exec j in
  let meta := eventMeta exec p in
  let step phase status message :=
    or_fail p exec (j_start j) ErrorString (transition exec phase status p message) in
  _ ← step PhaseSwitchingTraffic StatusDeploying "switching traffic";
  _ ← ignore (publish "deploy.traffic_switched" meta (Some [("host", VString (pl_Host placement))]));
  _ ← step PhaseCleanup StatusDeploying "cleanup";
  _ ← drain_previous c p exec (ContainerInfo.ID container);
  now ← clock;
  let totalMs := millis (now - j_start j) in
  now ← clock;
  ev ← uuid;
  _ ← (if j_rollback j then MarkRolledBack ev (OrgID p) (DeploymentID p) totalMs now
       else UpdateDeployComplete ev (OrgID p) (DeploymentID p)
              {| res_ImageTag := j_image j; res_ImageDigest := j_digest j;
                 res_DeployDurationMs := totalMs; res_Strategy := j_strategy j;
                 res_ContainerID := ContainerInfo.ID container; res_Metadata := Some (json_object
                   [("strategy", VString (j_strategy j));
                    ("container_id", VString (ContainerInfo.ID container));
                    ("host", VString (pl_Host placement)); ("port", VInt (pl_Port placement));
                    ("deployer_version", VString (Version cfg))]) |} now);
  _ ← ignore (stamped (MarkSucceeded (Execution.ID exec) (ContainerInfo.ID container)
                (pl_Host placement) (pl_Port placement) totalMs));
  _ ← ignore (transition exec PhaseComplete StatusLive p "deployment complete");
  ignore (publish "deploy.succeeded" meta (Some [("duration_ms", VInt totalMs)])).

(** From the container's creation to the verdict on its health. *)
Definition launch (c : ctx) (p : Payload) (j : job) (placement : Placement) (rc : RuntimeConfig)
    : db (deploydb W) unit :=
  let exec := j_exec j in
  let meta := eventMeta exec p in
  let step phase status message :=
    or_fail p exec (j_start j) ErrorString (transition exec phase status p message) in
  container ← or_fail p exec (j_start j) (λ _, "container creation failed")
    (Deploy (Get (strategies cfg) (j_strategy j)) c
       {| s_DeploymentID := DeploymentID p; s_Environment := Deployment.Environment (j_dep j);
          s_Strategy := j_strategy j; s_Runtime := rc;
          s_Host := pl_Host placement; s_Port := pl_Port placement;
          s_IsPreview := Deployment.Environment (j_dep j) =s? "preview"; s_IsRollback := j_rollback j |});
  _ ← ignore (publish "deploy.container_created" meta
                (Some [("container_id", VString (ContainerInfo.ID container))]));
  _ ← ignore (
        id ← uuid; now ← clock;
        CreateContainer {| ContainerRecord.ID := id; ContainerRecord.ExecutionID := Execution.ID exec;
          ContainerRecord.DeploymentID := DeploymentID p;
          ContainerRecord.ContainerID := ContainerInfo.ID container;
          ContainerRecord.Image := j_image j; ContainerRecord.Host := pl_Host placement;
          ContainerRecord.Port := pl_Port placement; ContainerRecord.Status := "running";
          ContainerRecord.Role := "active"; ContainerRecord.CreatedAt := now;
          ContainerRecord.StoppedAt := None; ContainerRecord.RemovedAt := None |});
  _ ← step PhaseWaitingHealth StatusDeploying "waiting for health";
  checked ← wait_healthy c (pl_Host placement) (pl_Port placement);
  _ ← record_checks p exec checked.1;
  _ ← (if succeeded checked.2 then mret tt
       else
         _ ← (if ShouldRollback TriggerHealthFailed
              then ignore (RestorePrevious (OrgID p) (ProjectID p) (DeploymentID p) meta) else mret tt);
         fail_deploy p exec (j_start j) "health check failed");
  finish c p j placement container.

(** From the reservation to the container's creation. *)
Definition prepare (c : ctx) (p : Payload) (j : job) (placement : Placement) : db (deploydb W) unit :=
  let exec := j_exec j in
  let meta := eventMeta exec p in
  let step phase status message :=
    or_fail p exec (j_start j) ErrorString (transition exec phase status p message) in
  _ ← checkCancel c p;
  _ ← step PhaseResourcesReserved StatusScheduling "resources reserved";
  _ ← ignore (publish "deploy.resources_reserved" meta
                (Some [("host", VString (pl_Host placement)); ("port", VInt (pl_Port placement))]));
  _ ← step PhasePullingImage StatusDeploying "pulling image";
  pulled ← or_fail p exec (j_start j) (λ _, "image pull failed") (Pull c (j_image j) (j_digest j));
  _ ← ignore (publish "deploy.image_pulled" meta
                (Some [("digest", VString (pulled_Digest pulled)); ("cached", VBool (pulled_Cached pulled))]));
  _ ← step PhasePreparingRuntime StatusDeploying "preparing runtime";
  rc ← or_fail p exec (j_start j) (λ _, "configuration load failed")
         (LoadRuntimeConfig c (OrgID p) (ProjectID p) (Deployment.Environment (j_dep j)));
  let rc := runtime_config p (j_proj j) placement (j_image j) rc in
  _ ← step PhaseCreatingContainer StatusDeploying "creating container";
  launch c p j placement rc.

(** From the execution row to the reservation and its release. *)
Definition execute (c : ctx) (p : Payload) (j : job) : db (deploydb W) unit :=
  let exec := j_exec j in
  let meta := eventMeta exec p in
  _ ← ignore (publish "deploy.queued" meta None);
  _ ← ignore (stamped (MarkRunning (Execution.ID exec) (workerID cfg)));
  _ ← ignore (publish "deploy.started" meta None);
  _ ← or_fail p exec (j_start j) ErrorString
        (transition exec PhaseScheduling StatusScheduling p "scheduling resources");
  placement ← or_fail p exec (j_start j) (λ _, "scheduler reserve failed")
    (Client_Reserve (scheduler cfg) c (OrgID p) (ProjectID p) (DeploymentID p)
       (HostPortMin cfg) (HostPortMax cfg));
  deferred (Client_Release (scheduler cfg) c (OrgID p) (ProjectID p) (DeploymentID p))
    (prepare c p j placement).

(** The checks before anything is deployed, and the execution row. *)
Definition admit_job (p : Payload) (jobID : string) (isRollback : bool) (start : Time)
    : db (deploydb W) job :=
  if DeploymentID p =s? "" then fail_with (New CodeInvalidArgument "deploy: missing deployment_id")
  else
    dep ← GetByID (OrgID p) (DeploymentID p);
    cancelled ← attempt (IsCancelled (OrgID p) (DeploymentID p));
    _ ← match cancelled with
        | Ok true => handleCancel p "deployment cancelled"
        | _ => mret tt
        end;
    ready ← IsReadyToDeploy (OrgID p) (DeploymentID p);
    if negb ready && negb isRollback
    then fail_with (New CodeFailedPrecond "deploy: waiting for build to complete")
    else
      proj ← GetProject (OrgID p) (ProjectID p);
      got ← attempt (GetArtifact (DeploymentID p));
      artifact ← match got with
        | Ok a => mret a
        | Err e => if Deployment.ImageTag dep =s? ""
                   then fail (wrap_with CodeFailedPrecond "deploy: artifact not found" e)
                   else mret no_artifact
        end;
      let imageRef := firstNonEmpty [Deployment.ImageTag dep; art_ImageTag artifact] in
      let strategyName := Resolve (Deployment.Environment dep) (DefaultStrategy cfg)
                            (Deployment.Environment dep =s? "preview") isRollback in
      id ← uuid;
      now ← clock;
      exec ← UpsertForDeployment id
        {| Execution.ID := ""; Execution.OrgID := OrgID p; Execution.ProjectID := ProjectID p;
           Execution.DeploymentID := DeploymentID p; Execution.JobID := Some jobID;
           Execution.Status := ExecQueued; Execution.Phase := PhaseQueued;
           Execution.Strategy := strategyName; Execution.Environment := Deployment.Environment dep;
           Execution.ImageTag := imageRef; Execution.ImageDigest := art_ImageDigest artifact;
           Execution.BuildID := if art_BuildID artifact =s? "" then None else Some (art_BuildID artifact);
           Execution.ContainerID := ""; Execution.Host := ""; Execution.Port := 0;
           Execution.CorrelationID := CorrelationID p; Execution.WorkerID := "";
           Execution.FailureReason := ""; Execution.RollbackOf := None; Execution.StartedAt := None;
           Execution.FinishedAt := None; Execution.DeployDurationMs := None; Execution.Metadata := "";
           Execution.CreatedAt := 0; Execution.UpdatedAt := 0 |} now;
      mret {| j_start := start; j_dep := dep; j_proj := proj; j_exec := exec; j_image := imageRef;
              j_digest := art_ImageDigest artifact; j_strategy := strategyName; j_rollback := isRollback |}.

(** [parent] is the context of the job. *)
Definition run (parent : ctx) (p : Payload) (jobID : string) (isRollback : bool)
    : db (deploydb W) unit :=
  start ← clock;
  c ← ask (new_context parent) (λ _, []);
  deferred (ask (λ w, (tt, cancel_context c w)) (λ _, [])) (
    _ ← Register (DeploymentID p) c;
    deferred (Unregister (DeploymentID p)) (
      j ← admit_job p jobID isRollback start;
      execute c p j)).

Definition RunDeploy (c : ctx) (p : Payload) (jobID : string) : db (deploydb W) unit := run c p jobID false.
Definition RunRollback (c : ctx) (p : Payload) (jobID : string) : db (deploydb W) unit := run c p jobID true.

(** ** The other jobs *)

Fixpoint stop_and_remove (c : ctx) (l : list ContainerRecord) : db (deploydb W) unit :=
  match l with
  | [] => mret tt
  | r :: l =>
      _ ← ignore (drv_Stop c (ContainerRecord.ContainerID r) (10 * Second));
      _ ← ignore (drv_Remove c (ContainerRecord.ContainerID r));
      _ ← ignore (stamped (MarkRemoved (ContainerRecord.ContainerID r)));
      stop_and_remove c l
  end.

Definition RunCancel (c : ctx) (p : Payload) : db (deploydb W) unit :=
  got ← attempt (ListActiveByDeployment (DeploymentID p));
  _ ← stop_and_remove c (match got with Ok l => l | Err _ => [] end);
  exec ← attempt (GetByDeployment (DeploymentID p));
  _ ← match exec with
      | Ok e => if Execution.ID e =s? "" then mret tt
                else ignore (stamped (MarkCancelled (Execution.ID e)))
      | Err _ => mret tt
      end;
  handleCancel p "deployment cancelled".

Fixpoint stop_all (c : ctx) (l : list ContainerRecord) : db (deploydb W) unit :=
  match l with
  | [] => mret tt
  | r :: l =>
      _ ← ignore (drv_Stop c (ContainerRecord.ContainerID r) (30 * Second));
      _ ← ignore (stamped (MarkStopped (ContainerRecord.ContainerID r)));
      stop_all c l
  end.

Definition RunSleep (c : ctx) (p : Payload) : db (deploydb W) unit :=
  l ← ListActiveByProject (OrgID p) (ProjectID p);
  stop_all c l.

Definition RunWake (c : ctx) (p : Payload) : db (deploydb W) unit :=
  if DeploymentID p =s? "" then mret tt
  else
    dep ← GetByID (OrgID p) (DeploymentID p);
    RunDeploy c {| OrgID := OrgID p; ProjectID := ProjectID p; DeploymentID := DeploymentID p;
                 DomainID := DomainID p; UserID := UserID p;
                 CorrelationID := Deployment.CorrelationID dep; Metadata := Metadata p |} "".

(** ** The job handler (packages/application/deploy/worker/handler.go)

    [payload] is what decoding the job's JSON gives; the text of the error for
    an unknown type quotes it. *)
Definition Handle (c : ctx) (jobType jobID : string) (payload : result error Payload)
    : db (deploydb W) unit :=
  match payload with
  | Err e => fail (wrap_with CodeInvalidArgument "deploy worker: decode payload" e)
  | Ok p =>
      if jobType =s? "deploy.run" then RunDeploy c p jobID
      else if jobType =s? "deploy.rollback" then RunRollback c p jobID
      else if jobType =s? "deploy.delete" then RunCancel c p
      else if jobType =s? "project.sleep" then RunSleep c p
      else if jobType =s? "project.wake" then RunWake c p
      else fail_with (New CodeFailedPrecond ("deploy worker: unknown type " +:+ quoted jobType))
  end.
End pipeline.
