(* ===== verification/PipelineTrace.v ===== *)
(** * What the pipeline asks of the outside world

    Statements leave the trace alone ([quiet]); the stages of [run] then have
    traces of a fixed shape, whatever statements fail and whatever the world
    answers. *)

From S2P Require Import Prelude GoLib Errors Postgres Sql DeployModel DeploymentRepo DeploymentFacts DeployStore Outside ControlPlane Health Pipeline.

Section quiet.
Context {W : Type} `{Wo : World W} `{D : Driver} `{So : Sorter} `{J : Jsonb}.

(** The trace so far. *)
Definition traced (t : list request) (st : deploydb W) : Prop := trace st = t.

(** A computation that asks nothing. *)
Definition quiet {A} (m : db (deploydb W) A) : Prop := ∀ t, preserves (traced t) m.

Lemma quiet_bind {A B} (m : db (deploydb W) A) (k : A → db (deploydb W) B) :
  quiet m → (∀ a, quiet (k a)) → quiet (m ≫= k).
Proof. intros Hm Hk t. apply preserves_bind; [done|]. intros a. apply Hk. Qed.

Lemma quiet_query {A} (f : deploydb W → result error A * deploydb W) :
  (∀ st, trace (f st).2 = trace st) → quiet (query f).
Proof. intros Hf t. apply preserves_query. intros s Hs. unfold traced in *. by rewrite Hf. Qed.

Lemma quiet_exec {A} (f : deploydb W → A * deploydb W) :
  (∀ st, trace (f st).2 = trace st) → quiet (exec f).
Proof. intros Hf t. apply preserves_exec. intros s Hs. unfold traced in *. by rewrite Hf. Qed.

Lemma quiet_ret {A} (a : A) : quiet (mret a).
Proof. by intros t st fs. Qed.
Lemma quiet_fail {A} e : quiet (fail (A := A) e).
Proof. by intros t st fs. Qed.
Lemma quiet_fail_with {A} e : quiet (fail_with (A := A) e).
Proof. by intros t st fs. Qed.
Lemma quiet_of_result {A} (r : result error A) : quiet (of_result r).
Proof. by intros t st fs. Qed.
Lemma quiet_attempt {A} (m : db (deploydb W) A) : quiet m → quiet (attempt m).
Proof. intros Hm t. by apply preserves_attempt. Qed.
Lemma quiet_ignore {A} (m : db (deploydb W) A) : quiet m → quiet (ignore m).
Proof. intros Hm t. by apply preserves_ignore. Qed.
Lemma quiet_translate {A} msg (m : db (deploydb W) A) : quiet m → quiet (translate msg m).
Proof. intros Hm t. by apply preserves_translate. Qed.
Lemma quiet_on_error {A} g (m : db (deploydb W) A) : quiet m → quiet (on_error g m).
Proof. intros Hm t. by apply preserves_on_error. Qed.
Lemma quiet_Transact {A} (m : db (deploydb W) A) : quiet m → quiet (Transact m).
Proof. intros Hm t. by apply preserves_Transact. Qed.

Lemma quiet_ask {A} (op : W → A * W) : quiet (ask op (λ _, [])).
Proof.
  intros t st fs H. unfold ask, tables_of, traced in *. destruct (op (outside st)).
  simpl. by rewrite app_nil_r.
Qed.

Lemma quiet_ask_result {A} (op : W → result error A * W) : quiet (ask_result op (λ _, [])).
Proof. apply quiet_bind; [apply quiet_ask|]. intros a. apply quiet_of_result. Qed.

Lemma quiet_Register dep c : quiet (Register dep c).
Proof. intros t st fs H. unfold Register, tables_of. by case_match. Qed.
Lemma quiet_Unregister dep : quiet (Unregister dep).
Proof. by intros t st fs H. Qed.
End quiet.

Create HintDb quiet.
#[export] Hint Resolve quiet_ret quiet_fail quiet_fail_with quiet_of_result quiet_attempt quiet_ignore
  quiet_translate quiet_on_error quiet_Transact quiet_ask quiet_ask_result quiet_Register
  quiet_Unregister : quiet.

(** Statements: look at what they do to the tables. *)
Ltac quiet_step :=
  match goal with
  | |- quiet (mbind _ _) => apply quiet_bind; [|intros ?]
  | |- quiet (query _) => apply quiet_query; intros ?;
      cbv delta [insert_event insert_transition insert_container upsert_execution]; cbv beta;
      repeat case_match; done
  | |- quiet (exec _) => apply quiet_exec; intros ?; done
  | |- quiet (if ?b then _ else _) => destruct b
  | |- quiet (match ?x with _ => _ end) => destruct x
  | |- quiet (translate _ _) => apply quiet_translate
  | |- quiet (on_error _ _) => apply quiet_on_error
  | |- quiet (Transact _) => apply quiet_Transact
  | |- quiet (attempt _) => apply quiet_attempt
  | |- quiet (ignore _) => apply quiet_ignore
  | |- quiet _ => solve [eauto with quiet nocore]
  end.
Ltac quietly := repeat (cbn beta iota zeta; quiet_step).

Section repositories.
Context {W : Type} `{Wo : World W} `{D : Driver} `{So : Sorter} `{J : Jsonb}.

Lemma quiet_GetByID org id : quiet (W := W) (GetByID org id).
Proof. unfold GetByID, one_deployment. quietly. Qed.
Lemma quiet_IsCancelled org id : quiet (W := W) (IsCancelled org id).
Proof. unfold IsCancelled, one_deployment. quietly. Qed.
Lemma quiet_IsReadyToDeploy org id : quiet (W := W) (IsReadyToDeploy org id).
Proof. unfold IsReadyToDeploy, one_deployment. quietly. Qed.
Lemma quiet_GetPreviousLive org proj id : quiet (W := W) (GetPreviousLive org proj id).
Proof. unfold GetPreviousLive, first_of. quietly. Qed.
Lemma quiet_change ev org id p f wrap missing status msg meta now :
  quiet (W := W) (change ev org id p f wrap missing status msg meta now).
Proof.
  unfold change, update_deployments, addEvent. quietly.
  all: apply quiet_GetByID.
Qed.
Lemma quiet_SetPhase id e dep from to msg now : quiet (W := W) (SetPhase id e dep from to msg now).
Proof. unfold SetPhase, update_execution. quietly. Qed.
Lemma quiet_update_execution id msg f : quiet (W := W) (update_execution id msg f).
Proof. unfold update_execution. quietly. Qed.
Lemma quiet_UpsertForDeployment id e now : quiet (W := W) (UpsertForDeployment id e now).
Proof. unfold UpsertForDeployment. quietly. Qed.
Lemma quiet_GetByDeployment dep : quiet (W := W) (GetByDeployment dep).
Proof. unfold GetByDeployment. quietly. Qed.
Lemma quiet_CreateContainer row : quiet (W := W) (CreateContainer row).
Proof. unfold CreateContainer. quietly. Qed.
Lemma quiet_update_containers msg id f : quiet (W := W) (update_containers msg id f).
Proof. unfold update_containers. quietly. Qed.
Lemma quiet_ListActiveByProject org proj : quiet (W := W) (ListActiveByProject org proj).
Proof. unfold ListActiveByProject. quietly. Qed.
Lemma quiet_ListActiveByDeployment dep : quiet (W := W) (ListActiveByDeployment dep).
Proof. unfold ListActiveByDeployment. quietly. Qed.
Lemma quiet_RecordHealth row : quiet (W := W) (RecordHealth row).
Proof. unfold RecordHealth. quietly. Qed.
Lemma quiet_Publish row : quiet (W := W) (Publish row).
Proof. unfold Publish. quietly. Qed.
Lemma quiet_GetArtifact dep : quiet (W := W) (GetArtifact dep).
Proof. unfold GetArtifact. quietly. Qed.
Lemma quiet_GetProject org id : quiet (W := W) (GetProject org id).
Proof. unfold GetProject. quietly. Qed.
Lemma quiet_clock : quiet (W := W) clock.
Proof. apply quiet_ask. Qed.
Lemma quiet_uuid : quiet (W := W) uuid.
Proof. apply quiet_ask. Qed.
Lemma quiet_LoadRuntimeConfig c org proj env : quiet (W := W) (LoadRuntimeConfig c org proj env).
Proof. apply quiet_ask_result. Qed.
End repositories.

#[export] Hint Resolve quiet_GetByID quiet_IsCancelled quiet_IsReadyToDeploy quiet_GetPreviousLive
  quiet_change quiet_SetPhase quiet_update_execution quiet_UpsertForDeployment quiet_GetByDeployment
  quiet_CreateContainer quiet_update_containers quiet_ListActiveByProject
  quiet_ListActiveByDeployment quiet_RecordHealth quiet_Publish quiet_GetArtifact quiet_GetProject
  quiet_clock quiet_uuid quiet_LoadRuntimeConfig : quiet.

Section stages.
Context {W : Type} `{Wo : World W} `{D : Driver} `{So : Sorter} `{J : Jsonb}.
Context (cfg : Config).

Lemma quiet_publish ty meta data : quiet (W := W) (publish ty meta data).
Proof. unfold publish. quietly. Qed.
Hint Resolve quiet_publish : quiet.
Lemma quiet_set_phase e dep from to msg : quiet (W := W) (set_phase e dep from to msg).
Proof. unfold set_phase. quietly. Qed.
Hint Resolve quiet_set_phase : quiet.
Lemma quiet_transition e phase status p msg : quiet (W := W) (transition e phase status p msg).
Proof. unfold transition, update_status, UpdateStatus. quietly. Qed.
Hint Resolve quiet_transition : quiet.
Lemma quiet_fail_deploy {A} p e start reason : quiet (W := W) (fail_deploy (A := A) p e start reason).
Proof. unfold fail_deploy, stamped, MarkDeployFailed, MarkFailed. quietly. Qed.
Hint Resolve quiet_fail_deploy : quiet.
Lemma quiet_or_fail {A} p e start reason (m : db (deploydb W) A) :
  quiet m → quiet (or_fail p e start reason m).
Proof. intros Hm. unfold or_fail. quietly. Qed.
Lemma quiet_handleCancel {A} p msg : quiet (W := W) (handleCancel (A := A) p msg).
Proof. unfold handleCancel, stamped, MarkCancelled. quietly. Qed.
Hint Resolve quiet_handleCancel : quiet.
Lemma quiet_checkCancel c p : quiet (W := W) (checkCancel c p).
Proof. unfold checkCancel. quietly. Qed.
Lemma quiet_record_checks p e l : quiet (W := W) (record_checks p e l).
Proof. induction l as [|r l IH]; simpl; quietly. Qed.
Lemma quiet_mark_drained p e l : quiet (W := W) (mark_drained p e l).
Proof. induction l as [|r l IH]; simpl; unfold stamped, MarkRemoved; quietly. Qed.
Lemma quiet_RestorePrevious org proj dep meta : quiet (W := W) (RestorePrevious org proj dep meta).
Proof. unfold RestorePrevious. quietly. Qed.
Lemma quiet_admit_job p id rb start : quiet (W := W) (admit_job cfg p id rb start).
Proof. unfold admit_job. quietly. Qed.
End stages.

#[export] Hint Resolve quiet_publish quiet_set_phase quiet_transition quiet_fail_deploy quiet_or_fail
  quiet_handleCancel quiet_checkCancel quiet_record_checks quiet_mark_drained quiet_RestorePrevious
  quiet_admit_job : quiet.

(** * The protocol of a pipeline run

    [run] and its stages ask the outside world in a fixed order; a successful
    run has placed, pulled, started and verified its container, and the
    deployment's row is live. *)

(** ** Shapes of traces

    The flag says whether the stage succeeded. *)

Section shapes.
Context (cfg : HealthConfig) (dep : string).

(** Stops and removals of containers other than [cid]. *)
Definition drains (cid : string) (l : list request) : Prop :=
  Forall (λ r, match r with RStop id | RRemove id _ => id ≠ cid | _ => False end) l.

Definition checks (host : string) (port : Z) (rs : list Result) : list request :=
  (λ x, RCheck host port (Result.Success x)) <$> rs.

(** The last [SuccessThreshold] checks in a row succeeded. *)
Definition healthy (rs : list Result) : Prop :=
  SuccessThreshold (with_thresholds cfg) ≤ streak true rs.

Inductive launch_shape (image host : string) (port : Z) : bool → list request → Prop :=
| ls_not_created : launch_shape image host port false [RCreate dep image None]
| ls_not_started cid ok :
    launch_shape image host port false [RCreate dep image (Some cid); RStart cid false; RRemove cid ok]
| ls_unverified cid rs :
    launch_shape image host port false
      ([RCreate dep image (Some cid); RStart cid true] ++ checks host port rs)
| ls_verified b cid rs l :
    healthy rs → drains cid l →
    launch_shape image host port b
      ([RCreate dep image (Some cid); RStart cid true] ++ checks host port rs ++ l).

Inductive prepare_shape (host : string) (port : Z) : bool → list request → Prop :=
| ps_stopped : prepare_shape host port false []
| ps_not_pulled image : prepare_shape host port false [RPull image false]
| ps_pulled image : prepare_shape host port false [RPull image true]
| ps_launched b image l :
    launch_shape image host port b l → prepare_shape host port b (RPull image true :: l).

Inductive run_shape : bool → list request → Prop :=
| rs_nothing : run_shape false []
| rs_not_placed : run_shape false [RReserve dep None]
| rs_placed b host port l :
    prepare_shape host port b l → run_shape b (RReserve dep (Some (host, port)) :: l ++ [RRelease dep]).
End shapes.

(** The deployment has a row that is live, or rolled back by a rollback. *)
Definition done_row {W} (org id : string) (isRollback : bool) (st : deploydb W) : Prop :=
  ∃ d, d ∈ deployments st ∧ is_deployment org id d = true ∧
    (Deployment.Status d = StatusLive ∨ isRollback = true ∧ Deployment.Status d = StatusRolledBack).

Section facts.
Context {W : Type} `{Wo : World W} `{D : Driver} `{So : Sorter} `{J : Jsonb}.
Context (cfg : Config).

(** The trace has grown by a list of the shape [P]. *)
Definition grew (t : list request) (P : list request → Prop) (st : deploydb W) : Prop :=
  ∃ l, trace st = t ++ l ∧ P l.

Lemma grew_nil t P st : traced t st → P [] → grew t P st.
Proof. intros H HP. exists []. by rewrite app_nil_r. Qed.

Lemma grew_app t l P st : grew (t ++ l) P st → grew t (λ l', ∃ l2, l' = l ++ l2 ∧ P l2) st.
Proof. intros (l2 & E & HP). exists (l ++ l2). rewrite app_assoc. eauto. Qed.

Lemma grew_mono t (P Q : list request → Prop) st : (∀ l, P l → Q l) → grew t P st → grew t Q st.
Proof. intros H (l & E & HP). exists l. auto. Qed.

Lemma wp_quiet {A} (m : db (deploydb W) A) t (Q : A → deploydb W → Prop) E st :
  quiet m → traced t st → (∀ a st', traced t st' → Q a st') → (∀ e st', traced t st' → E e st') →
  wp m Q E st.
Proof.
  intros Hm Ht HQ HE. eapply wp_mono; [by apply (wp_preserves (traced t))|eauto..].
Qed.

Lemma wp_ask {A} (op : W → A * W) log (Q : A → deploydb W → Prop) E st :
  (∀ a w, op (outside st) = (a, w) → Q a (set_world w (trace st ++ log a) st)) →
  wp (ask op log) Q E st.
Proof. intros H fs. unfold ask. destruct (op (outside st)) as [a w] eqn:Eo. by apply H. Qed.

Lemma wp_ask_result {A} (op : W → result error A * W) log (Q : A → deploydb W → Prop) E st t :
  traced t st →
  (∀ a st', traced (t ++ log (Ok a)) st' → Q a st') →
  (∀ e st', traced (t ++ log (Err e)) st' → E e st') →
  wp (ask_result op log) Q E st.
Proof.
  intros Ht HQ HE. unfold ask_result. wp_step. apply wp_ask. intros [a|e] w _; wp_step;
    [apply HQ|apply HE]; unfold traced in *; simpl; by rewrite Ht.
Qed.

Lemma wp_ask_error (op : W → option error * W) log (Q : unit → deploydb W → Prop) E st t :
  traced t st →
  (∀ st', traced (t ++ log None) st' → Q tt st') →
  (∀ e st', traced (t ++ log (Some e)) st' → E e st') →
  wp (ask_error op log) Q E st.
Proof.
  intros Ht HQ HE. unfold ask_error. wp_step. apply wp_ask. intros [e|] w _; wp_step;
    [apply HE|apply HQ]; unfold traced in *; simpl; by rewrite Ht.
Qed.

(** ** Ends with an error *)

Lemma fail_deploy_wp {A} p e start reason st t :
  traced t st → wp (fail_deploy (A := A) p e start reason) (λ _ _, False) (λ _, traced t) st.
Proof.
  intros Ht. unfold fail_deploy, stamped, MarkDeployFailed, MarkFailed.
  do 5 (wp_step; eapply wp_quiet; [solve [quietly]|done| |done]; clear st Ht; intros ? st Ht).
  by wp_step.
Qed.

Lemma handleCancel_wp {A} p msg st t :
  traced t st → wp (handleCancel (A := A) p msg) (λ _ _, False) (λ _, traced t) st.
Proof.
  intros Ht. unfold handleCancel, stamped, MarkCancelled.
  do 2 (wp_step; eapply wp_quiet; [solve [quietly]|done| |done]; clear st Ht; intros ? st Ht).
  by wp_step.
Qed.

(** A step whose failure ends the stage through [fail_deploy]. *)
Lemma wp_or_fail {A} p e start reason (m : db (deploydb W) A) (Q : A → deploydb W → Prop)
    (E : error → deploydb W → Prop) st :
  wp m Q (λ _ st', ∃ t, traced t st' ∧ ∀ err st'', traced t st'' → E err st'') st →
  wp (or_fail p e start reason m) Q E st.
Proof.
  intros Hm. unfold or_fail. wp_step. wp_step. eapply wp_mono; [exact Hm|intros; by wp_step|].
  intros err st' (t & Ht & HE). cbn beta.
  eapply wp_mono; [by apply fail_deploy_wp|done|]. intros err' st''. apply HE.
Qed.

(** A phase change: quiet, whether it succeeds or fails. *)
Lemma wp_phase p e start phase status msg (Q : unit → deploydb W → Prop) (E : error → deploydb W → Prop) st t :
  traced t st → (∀ st', traced t st' → Q tt st') → (∀ err st', traced t st' → E err st') →
  wp (or_fail p e start ErrorString (transition e phase status p msg)) Q E st.
Proof.
  intros Ht HQ HE. apply wp_or_fail. eapply wp_quiet; [auto with quiet|done|intros []; auto|].
  intros err st' Ht'. by exists t.
Qed.

(** ** Containers *)

(** Creation and start of a container, and the two ways they fail. *)
Definition started (dep image cid : string) : list request :=
  [RCreate dep image (Some cid); RStart cid true].

Definition not_started (dep image : string) (l : list request) : Prop :=
  l = [RCreate dep image None]
  ∨ ∃ cid ok, l = [RCreate dep image (Some cid); RStart cid false; RRemove cid ok].

Lemma Rolling_Deploy_wp c sctx dep image st t :
  s_DeploymentID sctx = dep → RuntimeConfig.Image (s_Runtime sctx) = image → traced t st →
  wp (Rolling_Deploy c sctx) (λ i, traced (t ++ started dep image (ContainerInfo.ID i)))
    (λ _, grew t (not_started dep image)) st.
Proof.
  intros <- <- Ht. unfold Rolling_Deploy, drv_Create, drv_Start, drv_Remove. wp_step.
  eapply wp_ask_result; [done| |].
  2:{ intros e st1 H1. eexists. split; [exact H1|by left]. }
  intros i st1 H1. simpl in H1. wp_step. wp_step.
  eapply wp_ask_error; [done| |].
  - intros st2 H2. wp_step. rewrite <- app_assoc in H2. done.
  - intros e st2 H2. wp_step. wp_step.
    eapply wp_ask_error; [exact H2|intros st3 H3|intros e' st3 H3]; wp_step;
      rewrite <- !app_assoc in H3; (eexists; split; [exact H3|]); right; eauto.
Qed.

Lemma Deploy_wp ex c sctx st t :
  traced t st →
  wp (Deploy ex c sctx)
    (λ i, traced (t ++ started (s_DeploymentID sctx) (RuntimeConfig.Image (s_Runtime sctx))
                        (ContainerInfo.ID i)))
    (λ _, grew t (not_started (s_DeploymentID sctx) (RuntimeConfig.Image (s_Runtime sctx)))) st.
Proof. intros Ht. destruct ex; simpl; by apply Rolling_Deploy_wp. Qed.

Lemma DrainContainers_wp c cid ids : ∀ st t,
  Forall (λ id, id ≠ cid) ids → traced t st →
  wp (DrainContainers c ids) (λ _, grew t (drains cid)) (λ _, grew t (drains cid)) st.
Proof.
  induction ids as [|id ids IH]; intros st t Hids Ht; simpl.
  { wp_step. apply grew_nil; [done|constructor]. }
  apply Forall_cons in Hids as [Hid Hids]. unfold drv_Stop, drv_Remove.
  assert (∀ st1, traced (t ++ [RStop id]) st1 →
    wp (removed ← attempt (ask_error (remove_container c id) (λ e, [RRemove id (succeeded e)]));
        drained ← DrainContainers c ids;
        mret (match removed with Ok _ => id :: drained | Err _ => drained end))
      (λ _, grew t (drains cid)) (λ _, grew t (drains cid)) st1) as Hrest.
  { intros st1 H1. wp_step. wp_step.
    assert (∀ ok k st2, traced ((t ++ [RStop id]) ++ [RRemove id ok]) st2 →
      wp (drained ← DrainContainers c ids; mret (k drained : list string))
        (λ _, grew t (drains cid)) (λ _, grew t (drains cid)) st2) as Hrec.
    { intros ok k st2 H2. rewrite <- app_assoc in H2. simpl in H2.
      assert (∀ st3, grew (t ++ [RStop id; RRemove id ok]) (drains cid) st3 → grew t (drains cid) st3) as Hg.
      { intros st3 (l & E & Hl). rewrite <- app_assoc in E. eexists. split; [exact E|].
        by repeat constructor. }
      wp_step. eapply wp_mono; [by apply (IH st2 _ Hids H2)|..]; cbn beta.
      - intros drained st3 H3. wp_step. by apply Hg.
      - intros e st3 H3. by apply Hg. }
    eapply wp_ask_error; [exact H1|intros st2 H2|intros e st2 H2];
      [apply (Hrec true (λ d, id :: d) st2 H2)|apply (Hrec false (λ d, d) st2 H2)]. }
  wp_step. wp_step. eapply wp_ask_error; [done|intros st1 H1|intros e st1 H1]; by apply Hrest.
Qed.

Lemma drain_previous_wp c p e cid st t :
  traced t st →
  wp (drain_previous c p e cid) (λ _, grew t (drains cid)) (λ _, grew t (drains cid)) st.
Proof.
  intros Ht. unfold drain_previous. wp_step.
  eapply wp_quiet; [auto with quiet|done| |intros; by apply grew_nil, Forall_nil].
  intros got st1 H1. cbn zeta. wp_step.
  eapply wp_mono; [apply (DrainContainers_wp c cid); [|exact H1]|..]; cbn beta; [| |done].
  - apply Forall_forall. intros id (r & -> & Hr)%list_elem_of_fmap.
    apply elem_of_select in Hr as [Hr _]. bool_to_prop. done.
  - intros ds st2 (l & E & Hl).
    eapply wp_quiet; [auto with quiet|exact E|intros ? ? ?; by exists l..].
Qed.

(** ** The row after completion *)

(** A successful change leaves a row with its status. *)
Lemma change_sets_row ev org id p f wrap missing status msg meta now (st : deploydb W) :
  sets f status → (∀ d, Deployment.OrgID (f d) = Deployment.OrgID d) →
  wp (change ev org id p f wrap missing status msg meta now)
    (λ _ st', ∃ d, d ∈ deployments st' ∧ is_deployment org id d = true ∧ Deployment.Status d = status)
    (λ _ _, True) st.
Proof.
  intros Hf Horg. eapply wp_mono; [apply change_row| |done]. cbn beta.
  intros _ st' (d & Hid & _ & _ & Hd). exists (f d). destruct (Hf d) as [E1 E2].
  split; [done|]. split; [|done]. unfold is_deployment in *. by rewrite E1, Horg.
Qed.

(** [UpdateStatus] to live keeps a finished row finished. *)
Lemma UpdateStatus_live_done ev org id rb msg now :
  preserves (done_row (W := W) org id rb) (UpdateStatus ev org id StatusLive msg "" now).
Proof.
  apply preserves_wp. intros st (d & Hd & Hid & Hs). unfold UpdateStatus, change.
  assert (∀ p, done_row org id rb
    (set_deployments (update_where p (set_status StatusLive "" now) (deployments st)) st)) as Hset.
  { intros p. exists (if p d then set_status StatusLive "" now d else d).
    split; [apply elem_of_update_where; by exists d|]. destruct (p d); [|done].
    split; [done|by left]. }
  assert (∀ st' : deploydb W, done_row org id rb st' →
    wp (GetByID org id) (λ _, done_row org id rb) (λ _, done_row org id rb) st') as Hget.
  { intros st' H. unfold GetByID, one_deployment. wp_step. wp_step; [done|]. by case_match. }
  wp_step. apply wp_Transact; [intros _; by exists d|].
  wp_step. wp_step. unfold update_deployments. wp_step; [done|].
  case_match; [by wp_step|]. unfold addEvent. wp_step. wp_step; [done|].
  unfold insert_event. repeat case_match; simplify_eq/=; [done..|]. apply Hget. apply (Hset _).
Qed.

(** Statements on other tables keep the row, as they keep the table. *)
Definition keeps_rows {A} (m : db (deploydb W) A) : Prop :=
  ∀ l, preserves (λ st, deployments st = l) m.

Lemma keeps_rows_done {A} org id rb (m : db (deploydb W) A) :
  keeps_rows m → preserves (done_row org id rb) m.
Proof. intros Hm st fs (d & Hd & H). exists d. by rewrite (Hm (deployments st) st fs eq_refl). Qed.

Lemma keeps_rows_ask {A} (op : W → A * W) log : keeps_rows (ask op log).
Proof. intros l st fs H. unfold ask, tables_of. by destruct (op (outside st)). Qed.

Lemma keeps_rows_publish ty meta data : keeps_rows (publish ty meta data).
Proof.
  intros l. unfold publish, Publish. apply preserves_bind; [case_match; [apply keeps_rows_ask|apply preserves_ret]|]. intros id.
  apply preserves_bind; [apply keeps_rows_ask|]. intros now.
  apply preserves_translate, preserves_query. intros st H. by case_match.
Qed.

Lemma keeps_rows_set_phase e dep from to msg : keeps_rows (set_phase e dep from to msg).
Proof.
  intros l. unfold set_phase, SetPhase, update_execution. apply preserves_bind; [apply keeps_rows_ask|].
  intros id. apply preserves_bind; [apply keeps_rows_ask|]. intros now.
  apply preserves_Transact, preserves_bind; [by apply preserves_translate, preserves_exec|]. intros _.
  apply preserves_translate, preserves_query. intros st H. unfold insert_transition. by repeat case_match.
Qed.

Lemma keeps_rows_succeeded id c h p ms : keeps_rows (stamped (MarkSucceeded id c h p ms)).
Proof.
  intros l. unfold stamped, MarkSucceeded, update_execution. apply preserves_bind; [apply keeps_rows_ask|].
  intros now. by apply preserves_translate, preserves_exec.
Qed.

Lemma transition_live_done e p rb msg :
  preserves (done_row (W := W) (OrgID p) (DeploymentID p) rb) (transition e PhaseComplete StatusLive p msg).
Proof.
  unfold transition, update_status. apply preserves_bind; [apply keeps_rows_done, keeps_rows_set_phase|].
  intros _. apply preserves_bind; [apply keeps_rows_done, keeps_rows_ask|]. intros now.
  apply preserves_bind; [apply keeps_rows_done, keeps_rows_ask|]. intros ev.
  apply preserves_bind; [apply UpdateStatus_live_done|]. intros _. apply preserves_ret.
Qed.

(** ** The stages *)

(** The statement that ends the deployment. *)
Lemma complete_wp (rb : bool) ev org id ms res now (st : deploydb W) t :
  traced t st →
  wp (if rb then MarkRolledBack ev org id ms now else UpdateDeployComplete ev org id res now)
    (λ _ st', traced t st' ∧ done_row org id rb st') (λ _, traced t) st.
Proof.
  intros Ht. apply (wp_mono _ (λ _ st', traced t st' ∧ done_row org id rb st') _
    (λ _ st', traced t st' ∧ True)); [apply wp_and|done|by intros ? ? [? _]].
  - eapply wp_quiet; [|exact Ht|done|done].
    destruct rb; unfold MarkRolledBack, UpdateDeployComplete; apply quiet_change.
  - destruct rb; unfold MarkRolledBack, UpdateDeployComplete.
    + eapply wp_mono; [apply change_sets_row; [apply rolled_back_sets|done]| |done].
      intros ? ? (d & ? & ? & ?). exists d. auto.
    + eapply wp_mono; [apply change_sets_row; [apply gone_live_sets|done]| |done].
      intros ? ? (d & ? & ? & ?). exists d. auto.
Qed.

Lemma finish_wp c p j pl i st t :
  traced t st →
  wp (finish cfg c p j pl i)
    (λ _ st', grew t (drains (ContainerInfo.ID i)) st'
              ∧ done_row (OrgID p) (DeploymentID p) (j_rollback j) st')
    (λ _, grew t (drains (ContainerInfo.ID i))) st.
Proof.
  intros Ht. unfold finish. cbv zeta.
  assert (∀ (err : error) st', traced t st' → grew t (drains (ContainerInfo.ID i)) st') as Hend.
  { intros _ st' H'. apply grew_nil; [done|constructor]. }
  wp_step. eapply wp_phase; [done| |exact Hend]. intros st1 H1.
  wp_step. eapply wp_quiet; [auto with quiet|exact H1| |exact Hend]. intros _ st2 H2.
  wp_step. eapply wp_phase; [exact H2| |exact Hend]. intros st3 H3.
  wp_step. eapply wp_mono; [by apply drain_previous_wp|..]; cbn beta; [|done].
  intros _ st4 (l & E & Hl).
  assert (∀ (err : error) st', traced (t ++ l) st' → grew t (drains (ContainerInfo.ID i)) st') as Hend'.
  { intros _ st' H'. by exists l. }
  wp_step. eapply wp_quiet; [auto with quiet|exact E| |exact Hend']. intros now st5 H5.
  wp_step. eapply wp_quiet; [auto with quiet|exact H5| |exact Hend']. intros now' st6 H6.
  wp_step. eapply wp_quiet; [auto with quiet|exact H6| |exact Hend']. intros ev st7 H7.
  wp_step.
  eapply wp_mono; [by apply complete_wp| |intros e st'; apply (Hend' e)].
  cbn beta. intros _ st8 H8.
  set (I := λ st' : deploydb W, traced (t ++ l) st' ∧ done_row (OrgID p) (DeploymentID p) (j_rollback j) st').
  apply (wp_mono _ (λ _, I) _ (λ _, I));
    [|intros _ st' [H' Hd]; split; [by exists l|exact Hd]|intros e st' [H' _]; by exists l].
  apply wp_preserves; [|exact H8]. apply preserves_and.
  { match goal with |- preserves _ ?m => cut (quiet m); [intros Hq; apply Hq|] end.
    unfold stamped, MarkSucceeded. quietly. }
  apply preserves_bind; [apply preserves_ignore, keeps_rows_done, keeps_rows_succeeded|]. intros _.
  apply preserves_bind; [apply preserves_ignore, transition_live_done|]. intros _.
  apply preserves_ignore, keeps_rows_done, keeps_rows_publish.
Qed.

Lemma launch_wp c p j pl rc st t :
  traced t st →
  wp (launch cfg c p j pl rc)
    (λ _ st', grew t (launch_shape (HealthCfg cfg) (DeploymentID p) (RuntimeConfig.Image rc)
                        (pl_Host pl) (pl_Port pl) true) st'
              ∧ done_row (OrgID p) (DeploymentID p) (j_rollback j) st')
    (λ _, grew t (launch_shape (HealthCfg cfg) (DeploymentID p) (RuntimeConfig.Image rc)
                    (pl_Host pl) (pl_Port pl) false)) st.
Proof.
  intros Ht. unfold launch. cbv zeta. wp_step. apply wp_or_fail.
  eapply wp_mono; [by apply Deploy_wp|..]; cbn beta iota.
  2:{ intros e st1 (l & E & Hl). exists (t ++ l). split; [done|]. intros err st2 H2. exists l.
      split; [done|]. destruct Hl as [->|(cid & ok & ->)]; constructor. }
  intros i st1 H1. cbn [s_DeploymentID s_Runtime] in H1. set (cid := ContainerInfo.ID i) in *.
  set (img := RuntimeConfig.Image rc) in *.
  assert (∀ rs (err : error) st', traced (t ++ started (DeploymentID p) img cid ++ checks (pl_Host pl) (pl_Port pl) rs) st' →
    grew t (launch_shape (HealthCfg cfg) (DeploymentID p) img (pl_Host pl) (pl_Port pl) false) st') as Hearly.
  { intros rs _ st' H'. eexists. split; [exact H'|]. constructor. }
  assert (∀ (err : error) st', traced (t ++ started (DeploymentID p) img cid) st' →
    grew t (launch_shape (HealthCfg cfg) (DeploymentID p) img (pl_Host pl) (pl_Port pl) false) st') as Hearly0.
  { intros err st' H'. by apply (Hearly [] err). }
  wp_step. eapply wp_quiet; [auto with quiet|exact H1| |exact Hearly0]. intros _ st2 H2.
  wp_step. eapply wp_quiet; [solve [quietly]|exact H2| |exact Hearly0]. intros _ st3 H3.
  wp_step. eapply wp_phase; [exact H3| |exact Hearly0]. intros st4 H4.
  unfold wait_healthy. wp_step. apply wp_ask. intros [rs err] w Ew. cbn [fst snd].
  set (t5 := t ++ started (DeploymentID p) img cid ++ checks (pl_Host pl) (pl_Port pl) rs).
  assert (traced t5 (set_world w (trace st4 ++ checks (pl_Host pl) (pl_Port pl) rs) st4)) as H5.
  { unfold traced in *. simpl. by rewrite H4, <- app_assoc. }
  wp_step. eapply wp_quiet; [auto with quiet|exact H5| |exact (Hearly rs)]. intros _ st6 H6.
  destruct err as [e|]; cbn [succeeded].
  { wp_step. wp_step. eapply wp_quiet; [|exact H6| |exact (Hearly rs)].
    { destruct (ShouldRollback TriggerHealthFailed); [apply quiet_ignore|]; auto with quiet. }
    intros _ st7 H7. eapply wp_mono; [by apply fail_deploy_wp|done|apply (Hearly rs)]. }
  wp_step. wp_step. pose proof (WaitUntilHealthy_streak _ _ _ _ _ _ _ Ew) as Hs.
  assert (∀ b l, drains cid l →
    launch_shape (HealthCfg cfg) (DeploymentID p) img (pl_Host pl) (pl_Port pl) b
      ((started (DeploymentID p) img cid ++ checks (pl_Host pl) (pl_Port pl) rs) ++ l)) as Hdone.
  { intros b l Hl. rewrite <- app_assoc. by apply ls_verified. }
  eapply wp_mono; [by apply finish_wp|..]; cbn beta.
  - intros _ st7 [(l & E & Hl)%grew_app Hrow]. split; [|exact Hrow]. exists l. split; [done|].
    destruct Hl as (l2 & -> & Hl2). by apply Hdone.
  - intros e st7 (l & E & Hl)%grew_app. exists l. split; [done|].
    destruct Hl as (l2 & -> & Hl2). by apply Hdone.
Qed.

Lemma prepare_wp c p j pl st t :
  traced t st →
  wp (prepare cfg c p j pl)
    (λ _ st', grew t (prepare_shape (HealthCfg cfg) (DeploymentID p) (pl_Host pl) (pl_Port pl) true) st'
              ∧ done_row (OrgID p) (DeploymentID p) (j_rollback j) st')
    (λ _, grew t (prepare_shape (HealthCfg cfg) (DeploymentID p) (pl_Host pl) (pl_Port pl) false)) st.
Proof.
  intros Ht. unfold prepare. cbv zeta.
  set (P := prepare_shape (HealthCfg cfg) (DeploymentID p) (pl_Host pl) (pl_Port pl)).
  assert (∀ l, P false l → ∀ (err : error) st', traced (t ++ l) st' → grew t (P false) st') as Hend.
  { intros l Hl _ st' H'. by exists l. }
  pose proof (Hend [] (ps_stopped _ _ _ _)) as Hend0. rewrite app_nil_r in Hend0.
  wp_step. eapply wp_quiet; [auto with quiet|done| |exact Hend0]. intros _ st1 H1.
  wp_step. eapply wp_phase; [exact H1| |exact Hend0]. intros st2 H2.
  wp_step. eapply wp_quiet; [auto with quiet|exact H2| |exact Hend0]. intros _ st3 H3.
  wp_step. eapply wp_phase; [exact H3| |exact Hend0]. intros st4 H4.
  wp_step. apply wp_or_fail. unfold Pull. eapply wp_ask_result; [exact H4| |].
  2:{ intros e st5 H5. eexists. split; [exact H5|]. apply Hend. constructor. }
  intros ? st5 H5. cbn [is_ok] in H5.
  pose proof (Hend [RPull (j_image j) true] (ps_pulled _ _ _ _ _)) as Hend1.
  wp_step. eapply wp_quiet; [auto with quiet|exact H5| |exact Hend1]. intros _ st6 H6.
  wp_step. eapply wp_phase; [exact H6| |exact Hend1]. intros st7 H7.
  wp_step. apply wp_or_fail. eapply wp_quiet; [auto with quiet|exact H7| |].
  2:{ intros e st8 H8. eexists. split; [exact H8|exact Hend1]. }
  intros rc st8 H8. cbn beta.
  wp_step. eapply wp_phase; [exact H8| |exact Hend1]. intros st9 H9.
  eapply wp_mono; [by apply launch_wp|..]; cbn beta.
  - intros _ st10 [(l & E & Hl) Hrow]. split; [|done]. exists (RPull (j_image j) true :: l).
    rewrite <- app_assoc in E. split; [done|]. by apply (ps_launched _ _ _ _ _ (j_image j)).
  - intros e st10 (l & E & Hl). exists (RPull (j_image j) true :: l).
    rewrite <- app_assoc in E. split; [done|]. by apply (ps_launched _ _ _ _ _ (j_image j)).
Qed.

Lemma execute_wp c p j st t :
  traced t st →
  wp (execute cfg c p j)
    (λ _ st', grew t (run_shape (HealthCfg cfg) (DeploymentID p) true) st'
              ∧ done_row (OrgID p) (DeploymentID p) (j_rollback j) st')
    (λ _, grew t (run_shape (HealthCfg cfg) (DeploymentID p) false)) st.
Proof.
  intros Ht. unfold execute. cbv zeta. set (P := run_shape (HealthCfg cfg) (DeploymentID p)).
  assert (∀ (err : error) st', traced t st' → grew t (P false) st') as Hend0.
  { intros _ st' H'. apply grew_nil; [done|constructor]. }
  wp_step. eapply wp_quiet; [auto with quiet|done| |exact Hend0]. intros _ st1 H1.
  wp_step. eapply wp_quiet; [unfold stamped, MarkRunning; quietly|exact H1| |exact Hend0]. intros _ st2 H2.
  wp_step. eapply wp_quiet; [auto with quiet|exact H2| |exact Hend0]. intros _ st3 H3.
  wp_step. eapply wp_phase; [exact H3| |exact Hend0]. intros st4 H4.
  wp_step. apply wp_or_fail. unfold Client_Reserve. eapply wp_ask_result; [exact H4| |].
  2:{ intros e st5 H5. eexists. split; [exact H5|]. intros err st' H'. eexists. split; [exact H'|constructor]. }
  intros pl st5 H5. cbn beta iota in H5. unfold deferred, Client_Release.
  wp_step. wp_step. eapply wp_mono; [by apply prepare_wp|..]; cbn beta.
  - intros [] st6 [(l & E & Hl) Hrow]. wp_step. wp_step.
    assert (∀ st', deployments st' = deployments st6 →
      traced ((((t ++ [RReserve (DeploymentID p) (Some (pl_Host pl, pl_Port pl))]) ++ l)
              ++ [RRelease (DeploymentID p)])) st' →
      wp (of_result (Ok ())) (λ _ st', grew t (P true) st' ∧ done_row (OrgID p) (DeploymentID p) (j_rollback j) st')
        (λ _, grew t (P false)) st') as Hlast.
    { intros st' Hd H'. wp_step. split.
      - eexists. rewrite <- !app_assoc in H'. split; [exact H'|]. by apply (rs_placed _ _ true).
      - destruct Hrow as (d & Hin & Hrow). exists d. by rewrite Hd. }
    unfold ask_error. wp_step. apply wp_ask. intros [err|] w _; wp_step; (apply Hlast; [done|]);
      unfold traced; simpl; by rewrite E.
  - intros e st6 (l & E & Hl). wp_step. wp_step.
    assert (∀ st', traced ((((t ++ [RReserve (DeploymentID p) (Some (pl_Host pl, pl_Port pl))]) ++ l)
              ++ [RRelease (DeploymentID p)])) st' →
      wp (of_result (A := unit) (Err e)) (λ _ st', grew t (P true) st' ∧ done_row (OrgID p) (DeploymentID p) (j_rollback j) st')
        (λ _, grew t (P false)) st') as Hlast.
    { intros st' H'. wp_step. eexists. rewrite <- !app_assoc in H'. split; [exact H'|]. by apply (rs_placed _ _ false). }
    unfold ask_error. wp_step. apply wp_ask. intros [err|] w _; wp_step; apply Hlast;
      unfold traced; simpl; by rewrite E.
Qed.

(** The rollback flag goes through to the job. *)
Lemma admit_job_wp p id rb start st t :
  traced t st →
  wp (admit_job cfg p id rb start) (λ j st', traced t st' ∧ j_rollback j = rb) (λ _, traced t) st.
Proof.
  intros Ht. apply (wp_mono _ (λ j st', traced t st' ∧ j_rollback j = rb) _ (λ _ st', traced t st' ∧ True));
    [apply wp_and|done|by intros ? ? [? _]].
  { eapply wp_quiet; [auto with quiet|done..]. }
  unfold admit_job. destruct (_ =s? ""); [by wp_step|].
  assert (∀ A B (m : db (deploydb W) A) (k : A → db (deploydb W) B) (Q : B → deploydb W → Prop) s,
    (∀ a s', wp (k a) Q (λ _ _, True) s') → wp (m ≫= k) Q (λ _ _, True) s) as Hany.
  { intros A B m k Q s Hk. wp_step. intros fs. destruct (m (s, fs)) as [[a|] [s' ?]]; [apply Hk|done]. }
  do 4 (apply Hany; intros ? ?). destruct (_ && _); [by wp_step|].
  do 6 (apply Hany; intros ? ?). by wp_step.
Qed.
End facts.
