(* ===== verification/Deploy.v ===== *)
(** * The deployer: properties of its jobs

    The protocol of a pipeline run, what may be deployed at all, and the
    cancellation job. *)

From stdpp Require Import pretty.
From S2P Require Import Prelude GoLib Errors Postgres Sql DeployModel DeploymentRepo DeploymentFacts ControlPlane.
From S2P Require Import DeployStore Outside Health Pipeline PipelineTrace.

Section deploy.
Context {W : Type} `{Wo : World W} `{D : Driver} `{So : Sorter} `{J : Jsonb}.
Context (cfg : Config).

(** ** Deferred calls *)

Lemma wp_deferred {A} f (rest : db (deploydb W) A) (Q : A → deploydb W → Prop) (E : error → deploydb W → Prop) st :
  (∀ a, preserves (Q a) f) → (∀ e, preserves (E e) f) →
  wp rest Q E st → wp (deferred f rest) Q E st.
Proof.
  intros HQ HE Hr. unfold deferred. wp_step. wp_step.
  eapply wp_mono; [exact Hr|..]; cbn beta.
  - intros a st1 H1. wp_step. wp_step. eapply wp_mono; [by apply (wp_preserves (Q a))|..];
      intros ? ? ?; by wp_step.
  - intros e st1 H1. wp_step. wp_step. eapply wp_mono; [by apply (wp_preserves (E e))|..];
      intros ? ? ?; by wp_step.
Qed.

(** What [run] promises, relative to the trace [t]. *)
Definition run_ok (t : list request) (p : Payload) (rb : bool) (st : deploydb W) : Prop :=
  grew t (run_shape (HealthCfg cfg) (DeploymentID p) true) st ∧ done_row (OrgID p) (DeploymentID p) rb st.
Definition run_err (t : list request) (p : Payload) (st : deploydb W) : Prop :=
  grew t (run_shape (HealthCfg cfg) (DeploymentID p) false) st.

(** Computations that leave trace and deployments alone keep both. *)
Lemma run_ok_kept t p rb {A} (m : db (deploydb W) A) :
  quiet m → keeps_rows m → preserves (run_ok t p rb) m.
Proof.
  intros Hq Hk. apply preserves_and; [|by apply keeps_rows_done].
  intros st fs (l & E & Hl). exists l. split; [|done]. by apply (Hq (t ++ l)).
Qed.

Lemma run_err_kept t p {A} (m : db (deploydb W) A) : quiet m → preserves (run_err t p) m.
Proof. intros Hq st fs (l & E & Hl). exists l. split; [|done]. by apply (Hq (t ++ l)). Qed.

Lemma keeps_rows_Unregister id : keeps_rows (W := W) (Unregister id).
Proof. by intros l st fs H. Qed.

Lemma run_wp parent p jobID rb st :
  wp (run cfg parent p jobID rb) (λ _, run_ok (trace st) p rb) (λ _, run_err (trace st) p) st.
Proof.
  set (t := trace st). assert (traced t st) as Ht by done.
  assert (∀ (err : error) st', traced t st' → run_err t p st') as Hend.
  { intros _ st' H'. apply grew_nil; [done|constructor]. }
  unfold run.
  wp_step. eapply wp_quiet; [auto with quiet|done| |exact Hend]. intros start st1 H1.
  wp_step. eapply wp_quiet; [auto with quiet|exact H1| |exact Hend]. intros c st2 H2.
  apply wp_deferred.
  { intros _. apply run_ok_kept; [auto with quiet|apply keeps_rows_ask]. }
  { intros _. apply run_err_kept. auto with quiet. }
  wp_step. eapply wp_quiet; [auto with quiet|exact H2| |exact Hend]. intros _ st3 H3.
  apply wp_deferred.
  { intros _. apply run_ok_kept; [auto with quiet|apply keeps_rows_Unregister]. }
  { intros _. apply run_err_kept. auto with quiet. }
  wp_step. eapply wp_mono; [by apply admit_job_wp|..]; cbn beta; [|exact Hend].
  intros j st4 [H4 <-]. by apply execute_wp.
Qed.

(** C3: whatever statements fail and whatever the outside world answers, a
    pipeline run asks for things in one order: place, pull, create, start,
    check, and only then stop and remove other containers; a failed start
    removes the container again; and a reservation that was placed is released
    at the end.  If the run succeeds, all of these happened, the last
    SuccessThreshold health checks in a row succeeded, and the deployment has a
    live row (or, for a rollback, at least a rolled back one). *)
Theorem run_protocol parent p jobID rb (st : deploydb W) fs :
  let '(r, (st', _)) := run cfg parent p jobID rb (st, fs) in
  ∃ l, trace st' = trace st ++ l ∧ run_shape (HealthCfg cfg) (DeploymentID p) (is_ok r) l
       ∧ (is_ok r = true → done_row (OrgID p) (DeploymentID p) rb st').
Proof.
  pose proof (run_wp parent p jobID rb st fs) as H.
  destruct (run cfg parent p jobID rb (st, fs)) as [[[]|e] [st' ?]].
  - destruct H as [(l0 & ? & ?) ?]. by exists l0.
  - destruct H as (l0 & ? & ?). by exists l0.
Qed.

(** ** What may be deployed *)

(** Built, or rolling back, with an image. *)
Definition deployable (d : Deployment) : Prop :=
  (Deployment.Status d = StatusBuilt ∨ Deployment.Status d = StatusRollingBack) ∧ Deployment.ImageTag d ≠ "".

Definition nothing_done (t : list request) (l : list Deployment) (cs : list ContainerRecord)
    (st : deploydb W) : Prop :=
  trace st = t ∧ deployments st = l ∧ containers st = cs.

(** Computations that leave trace, deployments and containers alone. *)
Definition inert {A} (m : db (deploydb W) A) : Prop := ∀ t l cs, preserves (nothing_done t l cs) m.

Lemma inert_ask {A} (op : W → A * W) : inert (ask op (λ _, [])).
Proof.
  intros t l cs st fs (H1 & H2 & H3). unfold ask, tables_of. destruct (op (outside st)). simpl.
  unfold nothing_done. simpl. by rewrite app_nil_r.
Qed.

Lemma inert_publish ty meta data : inert (publish ty meta data).
Proof.
  intros t l cs. unfold publish, Publish. apply preserves_bind; [case_match; [apply inert_ask|apply preserves_ret]|]. intros id.
  apply preserves_bind; [apply inert_ask|]. intros now.
  apply preserves_translate, preserves_query. intros st H. by case_match.
Qed.

Lemma inert_handleCancel {A} p msg : inert (handleCancel (A := A) p msg).
Proof.
  intros t l cs. unfold handleCancel, GetByDeployment, stamped, MarkCancelled, update_execution.
  apply preserves_bind; [apply preserves_attempt, preserves_translate, preserves_query; intros; by case_match|].
  intros got. apply preserves_bind; [|intros _; apply preserves_fail_with].
  destruct got as [e|]; [|apply preserves_ret]. case_match; [apply preserves_ret|].
  apply preserves_bind; [|intros _; apply preserves_ignore, inert_publish].
  apply preserves_ignore, preserves_bind; [apply inert_ask|]. intros now.
  by apply preserves_translate, preserves_exec.
Qed.

(** Reads of the deployment's row. *)
Lemma wp_one_deployment (q : Deployment → bool) (Q : Deployment → deploydb W → Prop) (E : error → deploydb W → Prop) st :
  (∀ e, E e st) → (∀ d, d ∈ deployments st → q d = true → Q d st) → wp (one_deployment q) Q E st.
Proof.
  intros HE HQ. unfold one_deployment. wp_step; [done|].
  destruct (select q (deployments st)) as [|d l] eqn:Es; [done|].
  assert (d ∈ select q (deployments st)) as [??]%elem_of_select by (rewrite Es; by left). auto.
Qed.

Lemma admit_refuses p jobID start st :
  (∀ d, d ∈ deployments st → is_deployment (OrgID p) (DeploymentID p) d = true → ¬ deployable d) →
  wp (admit_job cfg p jobID false start) (λ _ _, False)
    (λ _, nothing_done (trace st) (deployments st) (containers st)) st.
Proof.
  intros Hd. set (I := nothing_done (trace st) (deployments st) (containers st)).
  assert (I st) as H0 by done. unfold admit_job. destruct (_ =s? ""); [by wp_step|].
  wp_step. unfold GetByID. wp_step. apply wp_one_deployment; [done|]. intros dep _ _.
  wp_step. wp_step. apply (wp_mono _ (λ _, I) _ (λ _, I)).
  { apply wp_preserves; [|done]. unfold IsCancelled, one_deployment.
    apply preserves_bind; [|intros; apply preserves_ret].
    apply preserves_translate, preserves_query. intros; by case_match. }
  all: intros r st1 H1; wp_step; apply (wp_mono _ (λ _, I) _ (λ _, I)); [|clear r st1 H1|done].
  1, 3: apply wp_preserves; [|done]; repeat case_match; try apply preserves_ret; apply inert_handleCancel.
  all: intros r st1 H1; wp_step; unfold IsReadyToDeploy; wp_step; wp_step.
  all: apply wp_one_deployment; [done|]; intros d Hin Hid.
  all: destruct H1 as (Ht & Hl & Hc); rewrite Hl in Hin; specialize (Hd d Hin Hid).
  all: assert ((Deployment.Status d =s? StatusRollingBack) && negb (Deployment.ImageTag d =s? "") = false
    ∧ (Deployment.Status d =s? StatusBuilt) && negb (Deployment.ImageTag d =s? "") = false) as [E1 E2]
    by (split; apply not_true_iff_false; intros [E1 E2]%andb_true_iff; bool_to_prop; apply Hd; split; auto).
  all: rewrite E1, E2; wp_step; simpl; by wp_step.
Qed.

Lemma wp_inert {A} (m : db (deploydb W) A) t l cs (Q : A → deploydb W → Prop) (E : error → deploydb W → Prop) st :
  inert m → nothing_done t l cs st →
  (∀ a st', nothing_done t l cs st' → Q a st') → (∀ e st', nothing_done t l cs st' → E e st') →
  wp m Q E st.
Proof. intros Hm H HQ HE. eapply wp_mono; [by apply (wp_preserves (nothing_done t l cs))|done..]. Qed.

Lemma inert_query {A} (f : deploydb W → result error A * deploydb W) :
  (∀ st, (f st).2 = st) → inert (query f).
Proof. intros H t l cs. apply preserves_query. intros st. by rewrite H. Qed.

Lemma inert_translate {A} msg (m : db (deploydb W) A) : inert m → inert (translate msg m).
Proof. intros H t l cs. by apply preserves_translate. Qed.

Lemma inert_GetByID org id : inert (GetByID org id).
Proof. by apply inert_translate, inert_query. Qed.

(** An execution cannot be recorded for a job without an identifier, which is
    what project.wake passes. *)
Lemma admit_no_job p start st :
  wp (admit_job cfg p "" false start) (λ _ _, False)
    (λ _, nothing_done (trace st) (deployments st) (containers st)) st.
Proof.
  assert (nothing_done (trace st) (deployments st) (containers st) st) as H by done. revert H.
  generalize (trace st) (deployments st) (containers st). intros t l cs H. unfold admit_job.
  destruct (_ =s? ""); [by wp_step|].
  wp_step. eapply wp_inert; [apply inert_GetByID|exact H| |done]. clear st H. intros dep st H.
  wp_step. wp_step. eapply wp_inert; [|exact H|..].
  { unfold IsCancelled. intros t' l' cs'. apply preserves_bind; [by apply inert_translate, inert_query|].
    intros; apply preserves_ret. }
  all: clear st H; intros r st H; wp_step; eapply wp_inert; [|exact H| |done].
  1, 3: intros t' l' cs'; repeat case_match; try apply preserves_ret; apply inert_handleCancel.
  all: clear st H; intros _ st H; wp_step; eapply wp_inert; [|exact H| |done].
  1, 3: unfold IsReadyToDeploy; intros t' l' cs'; apply preserves_bind; [by apply inert_translate, inert_query|];
    intros; case_match; apply preserves_ret.
  all: clear st H; intros ready st H; destruct (negb ready && negb false); [by wp_step|].
  all: wp_step; eapply wp_inert; [|exact H| |done].
  1, 3: unfold GetProject; intros t' l' cs'; apply preserves_bind;
    [by apply inert_translate, inert_translate, inert_query|]; intros; case_match; [apply preserves_fail_with|apply preserves_ret].
  all: clear st H; intros proj st H; wp_step; wp_step; eapply wp_inert; [by apply inert_translate, inert_query|exact H|..].
  all: clear st H; intros got st H; wp_step; eapply wp_inert; [|exact H| |done].
  all: try (intros t' l' cs'; repeat case_match; try apply preserves_ret; apply preserves_fail).
  all: clear st H; intros art st H; cbv zeta; wp_step; eapply wp_inert; [apply inert_ask|exact H| |done].
  all: clear st H; intros id st H; wp_step; eapply wp_inert; [apply inert_ask|exact H| |done].
  all: clear st H; intros now st H; wp_step; unfold UpsertForDeployment; wp_step; by wp_step.
Qed.

Lemma run_refuses parent p jobID st :
  jobID = "" ∨
  (∀ d, d ∈ deployments st → is_deployment (OrgID p) (DeploymentID p) d = true → ¬ deployable d) →
  wp (run cfg parent p jobID false) (λ _ _, False)
    (λ _, nothing_done (trace st) (deployments st) (containers st)) st.
Proof.
  intros Hd. set (I := nothing_done (trace st) (deployments st) (containers st)).
  assert (I st) as H0 by done. unfold run.
  wp_step. eapply wp_mono; [by apply (wp_preserves I); [apply inert_ask|]| |done]. intros start st1 H1.
  wp_step. eapply wp_mono; [by apply (wp_preserves I); [apply inert_ask|]| |done]. intros c st2 H2.
  apply wp_deferred; [by intros ? ? ?|intros _; apply inert_ask|].
  wp_step. eapply wp_mono; [apply (wp_preserves I); [|exact H2]| |done].
  { intros s fs' H. unfold Register, tables_of. by case_match. }
  cbn beta. intros _ st3 H3. apply wp_deferred; [by intros ? ? ?|by intros _ ? ?|].
  assert (wp (admit_job cfg p jobID false start) (λ _ _, False)
    (λ _, nothing_done (trace st3) (deployments st3) (containers st3)) st3) as Ha.
  { destruct Hd as [->|Hd]; [apply admit_no_job|]. apply admit_refuses. by destruct H3 as (_ & -> & _). }
  wp_step. eapply wp_mono; [exact Ha|done|]. destruct H3 as (E1 & E2 & E3). intros _ st4. unfold I.
  by rewrite E1, E2, E3.
Qed.

(** C26: only what is built is deployed: unless the deployment's row has status
    built or rolling_back and an image, deploy.run returns an error after having
    asked nothing of the outside world and changed no deployment and no
    container, under any failures; so neither a deployment that failed nor one
    whose worker died while deploying is deployed by a later attempt of its job.
    project.wake of a deployment always ends this way, whatever its status.
    (deploy.rollback is let through with any status and is not covered.) *)
Theorem only_built_deploys (m : db (deploydb W) unit) parent p jobID (st : deploydb W) fs :
  (m = RunDeploy cfg parent p jobID
   ∧ ∀ d, d ∈ deployments st → is_deployment (OrgID p) (DeploymentID p) d = true → ¬ deployable d)
  ∨ (m = RunWake cfg parent p ∧ DeploymentID p ≠ "") →
  let '(r, (st', _)) := m (st, fs) in
  is_ok r = false ∧ trace st' = trace st ∧ deployments st' = deployments st
  ∧ containers st' = containers st.
Proof.
  intros Hm. cut (wp m (λ _ _, False)
    (λ _, nothing_done (trace st) (deployments st) (containers st)) st).
  { intros H. specialize (H fs). by destruct (m (st, fs)) as [[] []]. }
  destruct Hm as [[-> Hd]|[-> Hne]]; [apply run_refuses; by right|].
  unfold RunWake. destruct (String.eqb_spec (DeploymentID p) ""); [done|].
  wp_step. unfold GetByID. wp_step. apply wp_one_deployment; [done|]. intros d _ _.
  apply run_refuses. by left.
Qed.

(** ** The cancellation job *)

Definition canceled_error (msg : string) : error := Platform (New CodeCanceled msg).

(** Computations that never return a value but the error [e]. *)
Definition raises {A} (e : error) (m : db (deploydb W) A) : Prop :=
  ∀ st fs, ∃ st' fs', m (st, fs) = (Err e, (st', fs')).

Lemma raises_bind {A B} e (m : db (deploydb W) A) (k : A → db (deploydb W) B) :
  (∀ st fs, ∃ a st' fs', m (st, fs) = (Ok a, (st', fs'))) → (∀ a, raises e (k a)) → raises e (m ≫= k).
Proof.
  intros Hm Hk st fs. destruct (Hm st fs) as (a & st1 & fs1 & E). unfold mbind, db_bind. rewrite E.
  apply Hk.
Qed.

Lemma attempt_returns {A} (m : db (deploydb W) A) st fs :
  ∃ a st' fs', attempt m (st, fs) = (Ok a, (st', fs')).
Proof. unfold attempt. destruct (m (st, fs)) as [r [st' fs']]. by exists r, st', fs'. Qed.

Lemma ignore_returns {A} (m : db (deploydb W) A) st fs :
  ∃ a st' fs', ignore m (st, fs) = (Ok a, (st', fs')).
Proof. unfold ignore. destruct (m (st, fs)) as [r [st' fs']]. by exists (), st', fs'. Qed.

Lemma handleCancel_raises {A} p msg : raises (canceled_error msg) (handleCancel (A := A) p msg).
Proof.
  unfold handleCancel. apply raises_bind; [apply attempt_returns|]. intros got.
  apply raises_bind; [|intros _ st fs; by exists st, fs].
  destruct got as [e|]; [|intros st fs; by exists (), st, fs].
  case_match; [intros st fs; by exists (), st, fs|]. intros st fs.
  unfold mbind at 1, db_bind at 1.
  destruct (ignore_returns (stamped (MarkCancelled (Execution.ID e))) st fs) as (a & st1 & fs1 & ->).
  apply ignore_returns.
Qed.

Lemma stop_and_remove_returns c l : ∀ st fs, ∃ a st' fs', stop_and_remove c l (st, fs) = (Ok a, (st', fs')).
Proof.
  induction l as [|r l IH]; intros st fs; simpl; [by exists (), st, fs|].
  unfold mbind, db_bind.
  destruct (ignore_returns (drv_Stop c (ContainerRecord.ContainerID r) (10 * Second)) st fs) as (? & st1 & fs1 & ->).
  destruct (ignore_returns (drv_Remove c (ContainerRecord.ContainerID r)) st1 fs1) as (? & st2 & fs2 & ->).
  destruct (ignore_returns (stamped (MarkRemoved (ContainerRecord.ContainerID r))) st2 fs2) as (? & st3 & fs3 & ->).
  apply IH.
Qed.

Lemma RunCancel_raises c p : raises (canceled_error "deployment cancelled") (RunCancel c p).
Proof.
  unfold RunCancel. apply raises_bind; [apply attempt_returns|]. intros got.
  apply raises_bind; [apply stop_and_remove_returns|]. intros _.
  apply raises_bind; [apply attempt_returns|]. intros exec.
  apply raises_bind; [|intros _; apply handleCancel_raises].
  intros st fs. repeat case_match; try (by exists (), st, fs). apply ignore_returns.
Qed.

(** The requests for one container. *)
Definition stop_remove (id : string) (ok : bool) : list request := [RStop id; RRemove id ok].

Lemma stop_and_remove_runs c l : ∀ st, ∃ st' oks,
  runs (stop_and_remove c l) st (Ok ()) st'
  ∧ trace st' = trace st ++ concat (zip_with stop_remove (ContainerRecord.ContainerID <$> l) oks)
  ∧ length oks = length l
  ∧ (∀ r, r ∈ containers st' → present r = true →
       r ∈ containers st ∧ ContainerRecord.ContainerID r ∉ ContainerRecord.ContainerID <$> l).
Proof.
  induction l as [|x l IH]; intros st; simpl.
  { exists st, []. split; [apply runs_ret|]. rewrite app_nil_r. split; [done|]. split; [done|].
    intros r Hr _. split; [done|]. apply not_elem_of_nil. }
  set (id := ContainerRecord.ContainerID x).
  destruct (stop_container c id (10 * Second) (outside st)) as [e1 w1] eqn:E1.
  destruct (remove_container c id w1) as [e2 w2] eqn:E2.
  set (st1 := set_world w1 (trace st ++ [RStop id]) st).
  set (st2 := set_world w2 (trace st1 ++ [RRemove id (succeeded e2)]) st1).
  set (st3 := set_containers (update_where (container_is id) (container_removed (now_of w2)) (containers st2))
                (set_world w2 (trace st2 ++ []) st2)).
  destruct (IH st3) as (st' & oks & Hrun & Htr & Hlen & Hc).
  exists st', (succeeded e2 :: oks). split; [|split; [|split]].
  - eapply (runs_bind _ _ _ () st1).
    { apply (runs_ignore _ _ (match e1 with Some e => Err e | None => Ok () end)).
      unfold drv_Stop, ask_error. eapply (runs_bind _ _ _ e1 st1).
      - unfold runs, ask. by rewrite E1.
      - destruct e1; done. }
    eapply (runs_bind _ _ _ () st2).
    { apply (runs_ignore _ _ (match e2 with Some e => Err e | None => Ok () end)).
      unfold drv_Remove, ask_error. eapply (runs_bind _ _ _ e2 st2).
      - unfold runs, ask. change (outside st1) with w1. by rewrite E2.
      - destruct e2; done. }
    eapply (runs_bind _ _ _ () st3); [|exact Hrun]. eapply (runs_ignore _ _ (Ok ())). done.
  - rewrite Htr. simpl. rewrite app_nil_r, <- !app_assoc. done.
  - simpl. by rewrite Hlen.
  - intros r Hr Hp. destruct (Hc r Hr Hp) as [Hin Hnot].
    apply elem_of_update_where in Hin as (r0 & Hr0 & ->). change (containers st2) with (containers st) in Hr0.
    destruct (container_is id r0) eqn:Eid; [done|]. split; [done|].
    unfold container_is in Eid. bool_to_prop. intros [Heq|Hin]%elem_of_cons; [by apply Eid|by apply Hnot].
Qed.

(** What follows the containers. *)
Lemma cancel_rest_inert p :
  inert (exec ← attempt (GetByDeployment (DeploymentID p));
         _ ← match exec with
             | Ok e => if Execution.ID e =s? "" then mret tt
                       else ignore (stamped (MarkCancelled (Execution.ID e)))
             | Err _ => mret tt
             end;
         handleCancel (A := unit) p "deployment cancelled").
Proof.
  intros t l cs. unfold GetByDeployment. apply preserves_bind.
  { apply preserves_attempt, preserves_translate, preserves_query. intros; by case_match. }
  intros e. apply preserves_bind; [|intros _; apply inert_handleCancel].
  repeat case_match; try apply preserves_ret.
  apply preserves_ignore. unfold stamped, MarkCancelled, update_execution.
  apply preserves_bind; [apply inert_ask|]. intros now. by apply preserves_translate, preserves_exec.
Qed.

(** the cancellation job of a deployment stops and removes, one by one,
    exactly the containers of the deployment that are not yet removed, and,
    when no statement fails, every container of the deployment is then recorded
    as removed.  It nevertheless always ends with a cancellation error, whatever
    happens, so that the queue counts it as failed and tries it again. *)
Theorem RunCancel_removes c p (st : deploydb W) :
  (∀ fs, ∃ st' fs', RunCancel c p (st, fs) = (Err (canceled_error "deployment cancelled"), (st', fs')))
  ∧ ∃ l oks, length oks = length l
    ∧ l ≡ₚ select (λ r, (ContainerRecord.DeploymentID r =s? DeploymentID p) && present r) (containers st)
    ∧ let st' := tables_of (RunCancel c p (st, [])) in
      trace st' = trace st ++ concat (zip_with stop_remove (ContainerRecord.ContainerID <$> l) oks)
      ∧ ∀ r, r ∈ containers st' → ContainerRecord.DeploymentID r = DeploymentID p →
          ContainerRecord.RemovedAt r ≠ None.
Proof.
  split; [apply RunCancel_raises|].
  set (q := λ r, (ContainerRecord.DeploymentID r =s? DeploymentID p) && present r).
  set (l := sort_slice (λ x y, ContainerRecord.CreatedAt x <? ContainerRecord.CreatedAt y)
              (select q (containers st))).
  destruct (stop_and_remove_runs c l st) as (st1 & oks & Hrun & Htr & Hlen & Hc).
  exists l, oks. split; [done|]. split; [apply sort_slice_perm|].
  assert (nothing_done (trace st1) (deployments st1) (containers st1)
    (tables_of (RunCancel c p (st, [])))) as (E1 & _ & E3).
  { unfold RunCancel.
    assert (runs (attempt (ListActiveByDeployment (DeploymentID p))) st (Ok (Ok l)) st) as Hl by done.
    unfold runs in Hl, Hrun. unfold mbind at 1, db_bind at 1. rewrite Hl.
    unfold mbind at 1, db_bind at 1. rewrite Hrun. by apply cancel_rest_inert. }
  cbv zeta. rewrite E1, E3. split; [exact Htr|]. intros r Hr Hd Hp.
  assert (present r = true) as Hpr by (unfold present; by rewrite Hp).
  destruct (Hc r Hr Hpr) as [Hin Hnot]. apply Hnot.
  apply (list_elem_of_fmap_2 ContainerRecord.ContainerID). unfold l.
  apply elem_of_sort_slice, elem_of_select. split; [|done]. unfold q. by rewrite Hd, String.eqb_refl, Hpr.
Qed.
End deploy.

(** ** A simulated world

    A clock that only sleeping moves, fresh identifiers in sequence, a
    scheduler that places everything on one port, and an application that
    answers health checks with the listed statuses. *)

Record sim := { sim_time : Time; sim_ids : nat; sim_ctxs : nat; sim_cancelled : list ctx; sim_health : list Z }.

Definition sim_with (t : Time) (w : sim) : sim :=
  {| sim_time := t; sim_ids := sim_ids w; sim_ctxs := sim_ctxs w; sim_cancelled := sim_cancelled w;
     sim_health := sim_health w |}.

Definition sim_next_id (prefix : string) (w : sim) : string * sim :=
  (prefix +:+ pretty (sim_ids w),
   {| sim_time := sim_time w; sim_ids := S (sim_ids w); sim_ctxs := sim_ctxs w;
      sim_cancelled := sim_cancelled w; sim_health := sim_health w |}).

Definition empty_config : RuntimeConfig :=
  {| RuntimeConfig.Image := ""; RuntimeConfig.Env := ∅; RuntimeConfig.Secrets := ∅;
     RuntimeConfig.Labels := ∅; RuntimeConfig.Annotations := ∅; RuntimeConfig.Port := 0;
     RuntimeConfig.Network := ""; RuntimeConfig.HostPort := 0 |}.

#[export] Program Instance sim_world : World sim := {|
  world_clock := {| now_of := sim_time; new_uuid := sim_next_id "id" |};
  pause d w := sim_with (sim_time w + Z.max 0 d) w;
  new_context parent w :=
    (S (sim_ctxs w), {| sim_time := sim_time w; sim_ids := sim_ids w; sim_ctxs := S (sim_ctxs w);
                        sim_cancelled := sim_cancelled w; sim_health := sim_health w |});
  cancel_context c w := {| sim_time := sim_time w; sim_ids := sim_ids w; sim_ctxs := sim_ctxs w;
                           sim_cancelled := c :: sim_cancelled w; sim_health := sim_health w |};
  context_err c w := if bool_decide (c ∈ sim_cancelled w) then Some Canceled else None;
  post_reserve _ _ _ _ portMin _ w :=
    (Placed {| pl_Host := "10.0.0.1"; pl_Port := portMin; pl_NodeID := "n1"; pl_Region := "eu";
               pl_AgentURL := ""; pl_Reserved := true |}, w);
  post_release _ _ _ _ w := (None, w);
  pull_image _ image digest w :=
    (Ok {| pulled_ImageRef := image; pulled_Digest := digest; pulled_Duration := Second;
           pulled_Cached := false |}, w);
  load_config _ _ _ _ w := (Ok empty_config, w);
  create_container _ dep cfg w :=
    let '(id, w) := sim_next_id "container" w in
    (Ok (ContainerInfo.mk id dep "" 0 (RuntimeConfig.Image cfg) "created"), w);
  start_container _ _ w := (None, w);
  stop_container _ _ _ w := (None, w);
  remove_container _ _ w := (None, w);
  dial _ _ _ w := (true, w);
  http_get _ _ _ _ w :=
    (StatusCode (default 200 (head (sim_health w))),
     {| sim_time := sim_time w; sim_ids := sim_ids w; sim_ctxs := sim_ctxs w;
        sim_cancelled := sim_cancelled w; sim_health := tail (sim_health w) |});
|}.
Next Obligation. done. Qed.
Next Obligation. done. Qed.
Next Obligation. done. Qed.

#[local] Existing Instance strict_driver.
#[local] Existing Instance insertion_sorter.
#[local] Instance text_jsonb : Jsonb := 
  {| json_object := λ _, "{}"; jsonb_merge := λ a b, if b =s? "{}" then a else b |}.

Definition some_config : Config :=
  {| DefaultStrategy := "rolling";
     HealthCfg := {| StartupTimeout := Minute; HTTPPath := "/health"; TCPPort := 0;
                     SuccessThreshold := 2; FailureThreshold := 3; MaxRetries := 0 |};
     HostPortMin := 30000; HostPortMax := 31000; scheduler := NewClient "http://scheduler";
     strategies := NewRegistry "rolling"; workerID := "w1"; Version := "1" |}.

Definition some_payload : Payload :=
  {| OrgID := "o"; ProjectID := "p"; DeploymentID := "d1"; DomainID := ""; UserID := "";
     CorrelationID := ""; Metadata := "" |}.

(** A deployment whose build is complete, in a world with these health statuses. *)
Definition built_db (status : Status) (health : list Z) : deploydb sim :=
  let db := mkDb [] [] [{| art_BuildID := "b1"; art_DeploymentID := "d1"; art_ImageDigest := "sha";
                           art_ImageTag := "app:1" |}]
              [some_project] [] [] [] [] [] ∅
              {| sim_time := 0; sim_ids := 0; sim_ctxs := 0; sim_cancelled := []; sim_health := health |} [] in
  let db := tables_of (Create "d1" "e1" some_deployment 10 (db, [])) in
  tables_of (UpdateStatus "e2" "o" "d1" status "" "" 20 (db, [])).

Definition deployed (health : list Z) : result error unit * (deploydb sim * faults) :=
  RunDeploy some_config 0 some_payload "j1" (built_db StatusBuilt health, []).

Lemma only_built_deploys_witness :
  let '(r, (st', _)) := RunWake some_config 0 some_payload (built_db StatusLive [], []) in
  is_ok r = false ∧ trace st' = trace (built_db StatusLive [])
  ∧ deployments st' = deployments (built_db StatusLive [])
  ∧ containers st' = containers (built_db StatusLive []).
Proof.
  apply (only_built_deploys some_config _ 0 some_payload ""). right. split; [reflexivity|discriminate].
Defined.

(** A deployment that becomes healthy after one failed check. *)
Example deploy_goes_live :
  is_ok (deployed [503; 200; 200]).1 = true
  ∧ Deployment.Status <$> deployments (tables_of (deployed [503; 200; 200])) = [StatusLive]
  ∧ trace (tables_of (deployed [503; 200; 200])) =
    [RReserve "d1" (Some ("10.0.0.1", 30000)); RPull "app:1" true;
     RCreate "d1" "app:1" (Some "container15"); RStart "container15" true;
     RCheck "10.0.0.1" 30000 false; RCheck "10.0.0.1" 30000 true; RCheck "10.0.0.1" 30000 true;
     RRelease "d1"].
Proof. vm_compute. done. Qed.

(** A deployment that stays unhealthy is marked failed, but its container is
    neither stopped nor removed while the reservation is released. *)
Example unhealthy_container_left :
  let st := tables_of (deployed [503; 503; 503]) in
  Deployment.Status <$> deployments st = [StatusFailed]
  ∧ ContainerRecord.RemovedAt <$> containers st = [None]
  ∧ last (trace st) = Some (RRelease "d1")
  ∧ Forall (λ r, match r with RStop _ | RRemove _ _ => False | _ => True end) (trace st).
Proof. vm_compute. repeat constructor. Qed.

(** The second attempt of the failed job is refused. *)
Example failed_deploy_never_retried :
  is_ok (RunDeploy some_config 0 some_payload "j1" (tables_of (deployed [503; 503; 503]), [])).1 = false.
Proof. vm_compute. done. Qed.

(** When a newer run of a deployment registers, the end of the older one
    removes the newer registration, which can then not be cancelled. *)
Example stale_unregister :
  let st := tables_of ((_ ← Register "d1" 1; _ ← Register "d1" 2; Unregister "d1")
                         (built_db StatusBuilt [], [])) in
  (Cancel "d1" (st, [])).1 = Ok false ∧ sim_cancelled (outside st) = [1%nat].
Proof. vm_compute. done. Qed.
