(* ===== verification/OpsModel.v ===== *)
(** * Platform operations: data

    The rows of packages/application/ops/model/model.go with the tables of
    schema.go, the outside world of the ops services, and the state they share.
    A JSON document ([json.RawMessage]) is its text, [None] where Go has nil.
    Quantities are [float64] in Go and NUMERIC in the tables: the records that
    hold one take the type of the quantity as a parameter. *)

From Stdlib Require Import SpecFloat.
From stdpp Require Import pretty.
From S2P Require Import Prelude GoLib Errors Postgres Sql Jobs DeployModel Rows.

(** ** Quantities

    A NUMERIC of the tables, in millionths ([None] is NaN): NUMERIC(20,6) and
    the columns with fewer places. *)
Definition numeric : Type := option Z.

Definition numeric_add (x y : numeric) : numeric :=
  match x, y with Some a, Some b => Some (a + b) | _, _ => None end.

(** What the driver and the server make of a [float64] that goes into a
    NUMERIC(precision, scale): the shortest decimal that denotes it, rounded to
    the scale; [None] where it does not fit (too large, or infinite).  And the
    [float64] that a NUMERIC is read as. *)
Class Decimal := {
  to_numeric : Z → Z → f64 → option numeric;
  of_numeric : numeric → f64;
}.

(** Whether a sum fits a NUMERIC(20,6). *)
Definition fits_numeric (x : numeric) : bool :=
  match x with Some z => Z.abs z <? 10 ^ 20 | None => true end.

Definition overflow_numeric : error := PgError "22003" "numeric field overflow".

(** ** Billing *)

Definition PlanFree : string := "free".
Definition PlanPro : string := "pro".
Definition PlanTeam : string := "team".
Definition PlanEnterprise : string := "enterprise".

Definition IntervalMonthly : string := "monthly".
Definition IntervalYearly : string := "yearly".
Definition SubStatusActive : string := "active".
Definition SubStatusTrialing : string := "trialing".
Definition SubStatusPastDue : string := "past_due".
Definition SubStatusCanceled : string := "canceled".
Definition SubStatusIncomplete : string := "incomplete".
Definition SubStatusGracePeriod : string := "grace_period".
Definition InvoicePending : string := "pending".
Definition InvoicePaid : string := "paid".
Definition InvoiceFailed : string := "failed".
Definition InvoiceVoided : string := "voided".
Definition InvoiceRefunded : string := "refunded".

Module Plan.
Record t := mk {
  ID : string; Name : string; PriceCentsMonth : Z; PriceCentsYear : Z; StripePriceID : string;
  Features : option string; Active : bool; CreatedAt : Time; UpdatedAt : Time;
}.
End Plan.
Abbreviation Plan := Plan.t.

Module Subscription.
Record t := mk {
  ID : string; OrgID : string; PlanID : string; Status : string; Interval : string;
  StripeSubID : string; StripeCustomerID : string; CurrentPeriodStart : Time;
  CurrentPeriodEnd : Time; TrialEndsAt : option Time; CanceledAt : option Time;
  GracePeriodEndsAt : option Time; CorrelationID : string; Metadata : option string;
  CreatedAt : Time; UpdatedAt : Time;
}.
End Subscription.
Abbreviation Subscription := Subscription.t.

Module Invoice.
Record t := mk {
  ID : string; OrgID : string; SubscriptionID : string; Status : string; PeriodStart : Time;
  PeriodEnd : Time; AmountCents : Z; CreditsCents : Z; TaxCents : Z; TotalCents : Z;
  Currency : string; StripeInvID : string; PaidAt : option Time; DueAt : option Time;
  CorrelationID : string; Metadata : option string; CreatedAt : Time; UpdatedAt : Time;
}.
End Invoice.
Abbreviation Invoice := Invoice.t.

Module Credit.
Record t := mk {
  ID : string; OrgID : string; AmountCents : Z; UsedCents : Z; Reason : string;
  CouponCode : string; ExpiresAt : option Time; CorrelationID : string; CreatedAt : Time;
}.
End Credit.
Abbreviation Credit := Credit.t.

(** ** Metering and quotas *)

Definition DimDeployments : string := "deployments".
Definition DimBuildMinutes : string := "build_minutes".
Definition DimContainerHours : string := "container_hours".
Definition DimBandwidthGB : string := "bandwidth_gb".
Definition DimStorageGB : string := "storage_gb".
Definition DimLogGB : string := "log_gb".
Definition DimCPUCoreHours : string := "cpu_core_hours".
Definition DimMemoryGBHours : string := "memory_gb_hours".
Definition DimRequests : string := "requests".
Definition DimCustomDomains : string := "custom_domains".
Definition DimSSLCerts : string := "ssl_certs".
Definition DimProjects : string := "projects".
Definition DimAPIRequests : string := "api_requests".
Definition DimWSConnections : string := "ws_connections".
Definition DimStreamingSessions : string := "streaming_sessions".

Module UsageRecord.
Record t (Q : Type) := mk {
  ID : string; OrgID : string; ProjectID : string; DeploymentID : string; Dimension : string;
  Quantity : Q; Unit : string; Period : string; CorrelationID : string; RecordedAt : Time;
}.
Arguments mk {Q}.
Arguments ID {Q}.
Arguments OrgID {Q}.
Arguments ProjectID {Q}.
Arguments DeploymentID {Q}.
Arguments Dimension {Q}.
Arguments Quantity {Q}.
Arguments Unit {Q}.
Arguments Period {Q}.
Arguments CorrelationID {Q}.
Arguments RecordedAt {Q}.
End UsageRecord.
Abbreviation UsageRecord := UsageRecord.t.

Module UsageRollup.
Record t (Q : Type) := mk {
  ID : string; OrgID : string; ProjectID : string; Dimension : string; Period : string;
  Total : Q; Unit : string; CreatedAt : Time; UpdatedAt : Time;
}.
Arguments mk {Q}.
Arguments ID {Q}.
Arguments OrgID {Q}.
Arguments ProjectID {Q}.
Arguments Dimension {Q}.
Arguments Period {Q}.
Arguments Total {Q}.
Arguments Unit {Q}.
Arguments CreatedAt {Q}.
Arguments UpdatedAt {Q}.
End UsageRollup.
Abbreviation UsageRollup := UsageRollup.t.

Module QuotaConfig.
Record t (Q : Type) := mk {
  ID : string; PlanID : string; MaxProjects : Z; MaxDeployments : Z; MaxConcurrentBuilds : Z;
  MaxConcurrentDeploys : Z; MaxContainers : Z; MaxCustomDomains : Z; MaxStorageGB : Q;
  MaxBandwidthGBMonth : Q; MaxBuildMinutesMonth : Q; MaxContainerHoursMonth : Q;
  MaxAPIRequestsDay : Z; WarnThresholdPct : Q; CreatedAt : Time; UpdatedAt : Time;
}.
Arguments mk {Q}.
Arguments ID {Q}.
Arguments PlanID {Q}.
Arguments MaxProjects {Q}.
Arguments MaxDeployments {Q}.
Arguments MaxConcurrentBuilds {Q}.
Arguments MaxConcurrentDeploys {Q}.
Arguments MaxContainers {Q}.
Arguments MaxCustomDomains {Q}.
Arguments MaxStorageGB {Q}.
Arguments MaxBandwidthGBMonth {Q}.
Arguments MaxBuildMinutesMonth {Q}.
Arguments MaxContainerHoursMonth {Q}.
Arguments MaxAPIRequestsDay {Q}.
Arguments WarnThresholdPct {Q}.
Arguments CreatedAt {Q}.
Arguments UpdatedAt {Q}.
End QuotaConfig.
Abbreviation QuotaConfig := QuotaConfig.t.

Module QuotaViolation.
Record t := mk {
  OrgID : string; Dimension : string; Current : f64; Limit : f64; Pct : f64; IsHard : bool;
}.
End QuotaViolation.
Abbreviation QuotaViolation := QuotaViolation.t.

(** ** Notifications, backups, analytics, audit, sleeping, cron *)

Definition ChannelEmail : string := "email".
Definition ChannelSlack : string := "slack".
Definition ChannelDiscord : string := "discord".
Definition ChannelWebhook : string := "webhook".
Definition ChannelInApp : string := "in_app".
Definition NotifPending : string := "pending".
Definition NotifDelivered : string := "delivered".
Definition NotifFailed : string := "failed".
Definition NotifSkipped : string := "skipped".

Module Notification.
Record t := mk {
  ID : string; OrgID : string; UserID : string; ProjectID : string; Channel : string;
  EventType : string; Subject : string; Body : string; Recipient : string; Status : string;
  Attempts : Z; LastAttemptAt : option Time; DeliveredAt : option Time; FailureReason : string;
  CorrelationID : string; Metadata : option string; CreatedAt : Time; UpdatedAt : Time;
}.
End Notification.
Abbreviation Notification := Notification.t.

Definition BackupPending : string := "pending".
Definition BackupRunning : string := "running".
Definition BackupCompleted : string := "completed".
Definition BackupFailed : string := "failed".
Definition BackupVerified : string := "verified".
Definition BackupDatabase : string := "database".
Definition BackupConfig : string := "config".
Definition BackupMetadata : string := "metadata".

Module Backup.
Record t := mk {
  ID : string; Kind : string; Status : string; SizeBytes : Z; StoragePath : string;
  Checksum : string; DurationSeconds : Z; RetentionDays : Z; ExpiresAt : option Time;
  VerifiedAt : option Time; FailureReason : string; CorrelationID : string;
  Metadata : option string; StartedAt : option Time; CompletedAt : option Time; CreatedAt : Time;
}.
End Backup.
Abbreviation Backup := Backup.t.

Module AnalyticsDaily.
Record t (Q : Type) := mk {
  ID : string; Period : string; ActiveUsers : Z; NewOrgs : Z; NewProjects : Z;
  TotalDeployments : Z; SuccessDeployments : Z; FailedDeployments : Z; TotalBuilds : Z;
  SuccessBuilds : Z; FailedBuilds : Z; AvgBuildDurationSecs : Z; ActiveContainers : Z;
  TotalBandwidthGB : Q; TotalStorageGB : Q; TotalAPIRequests : Z; NewSubscriptions : Z; MRR : Z;
  CreatedAt : Time; UpdatedAt : Time;
}.
Arguments mk {Q}.
Arguments ID {Q}.
Arguments Period {Q}.
Arguments ActiveUsers {Q}.
Arguments NewOrgs {Q}.
Arguments NewProjects {Q}.
Arguments TotalDeployments {Q}.
Arguments SuccessDeployments {Q}.
Arguments FailedDeployments {Q}.
Arguments TotalBuilds {Q}.
Arguments SuccessBuilds {Q}.
Arguments FailedBuilds {Q}.
Arguments AvgBuildDurationSecs {Q}.
Arguments ActiveContainers {Q}.
Arguments TotalBandwidthGB {Q}.
Arguments TotalStorageGB {Q}.
Arguments TotalAPIRequests {Q}.
Arguments NewSubscriptions {Q}.
Arguments MRR {Q}.
Arguments CreatedAt {Q}.
Arguments UpdatedAt {Q}.
End AnalyticsDaily.
Abbreviation AnalyticsDaily := AnalyticsDaily.t.

Module AuditEvent.
Record t := mk {
  ID : string; OrgID : string; ProjectID : string; ActorID : string; ActorType : string;
  Action : string; ResourceType : string; ResourceID : string; IPAddress : string;
  UserAgent : string; CorrelationID : string; Changes : option string; Metadata : option string;
  OccurredAt : Time;
}.
End AuditEvent.
Abbreviation AuditEvent := AuditEvent.t.

Definition SleepStatusAwake : string := "awake".
Definition SleepStatusSleeping : string := "sleeping".
Definition SleepStatusWaking : string := "waking".

Module SleepEvent.
Record t := mk {
  ID : string; OrgID : string; ProjectID : string; DeploymentID : string; Status : string;
  Reason : string; CorrelationID : string; OccurredAt : Time;
}.
End SleepEvent.
Abbreviation SleepEvent := SleepEvent.t.

Definition CronActive : string := "active".
Definition CronDisabled : string := "disabled".
Definition CronDeleted : string := "deleted".

Module CronJob.
Record t := mk {
  ID : string; Name : string; Schedule : string; Timezone : string; JobQueue : string;
  JobType : string; Payload : option string; Status : string; LastRunAt : option Time;
  NextRunAt : option Time; LastError : string; CorrelationID : string; CreatedAt : Time;
  UpdatedAt : Time;
}.
End CronJob.
Abbreviation CronJob := CronJob.t.

(** ** The world outside the database *)

(** The metadata of an event (packages/application/ops/events/publisher.go). *)
Module OpsMeta.
Record t := mk {
  OrgID : string; ProjectID : string; DeploymentID : string; ActorID : string; CorrelationID : string;
}.
End OpsMeta.
Abbreviation OpsMeta := OpsMeta.t.

(** What the services ask of the world that cannot be undone: a trace of it. *)
Inductive outcall :=
| Published (name : string) (meta : OpsMeta)
| Mailed (n : Notification) (r : option error)
| Posted (n : Notification) (r : result error Z)
| Charged (customer : string) (cents : Z) (r : result error string)
| Stored (name : string) (r : result error (string * Z))
| Erased (path : string) (r : option error).

(** ** The state

    [sessions] is the column [expires_at] of the table identity_sessions. *)

Record opsdb (W : Type) := mkOps {
  env : W;
  outcalls : list outcall;
  plans : list Plan;
  subscriptions : list Subscription;
  invoices : list Invoice;
  credits : list Credit;
  quota_configs : list (QuotaConfig numeric);
  usage_records : list (UsageRecord numeric);
  rollups : list (UsageRollup numeric);
  notifications : list Notification;
  backups : list Backup;
  analytics : list (AnalyticsDaily numeric);
  audit_events : list AuditEvent;
  sleep_events : list SleepEvent;
  cron_jobs : list CronJob;
  job_queue : list Job;
  sessions : list Time;
}.
Arguments mkOps {W}.
Arguments env {W}.
Arguments outcalls {W}.
Arguments plans {W}.
Arguments subscriptions {W}.
Arguments invoices {W}.
Arguments credits {W}.
Arguments quota_configs {W}.
Arguments usage_records {W}.
Arguments rollups {W}.
Arguments notifications {W}.
Arguments backups {W}.
Arguments analytics {W}.
Arguments audit_events {W}.
Arguments sleep_events {W}.
Arguments cron_jobs {W}.
Arguments job_queue {W}.
Arguments sessions {W}.

Section lenses.
Context {W : Type}.
Implicit Types (s : opsdb W).

Definition set_env (x : W) s : opsdb W :=
  mkOps x (outcalls s) (plans s) (subscriptions s) (invoices s) (credits s) (quota_configs s)
      (usage_records s) (rollups s) (notifications s) (backups s) (analytics s)
      (audit_events s) (sleep_events s) (cron_jobs s) (job_queue s) (sessions s).

Definition set_outcalls (x : list outcall) s : opsdb W :=
  mkOps (env s) x (plans s) (subscriptions s) (invoices s) (credits s) (quota_configs s)
      (usage_records s) (rollups s) (notifications s) (backups s) (analytics s)
      (audit_events s) (sleep_events s) (cron_jobs s) (job_queue s) (sessions s).

Definition set_plans (x : list Plan) s : opsdb W :=
  mkOps (env s) (outcalls s) x (subscriptions s) (invoices s) (credits s) (quota_configs s)
      (usage_records s) (rollups s) (notifications s) (backups s) (analytics s)
      (audit_events s) (sleep_events s) (cron_jobs s) (job_queue s) (sessions s).

Definition set_subscriptions (x : list Subscription) s : opsdb W :=
  mkOps (env s) (outcalls s) (plans s) x (invoices s) (credits s) (quota_configs s)
      (usage_records s) (rollups s) (notifications s) (backups s) (analytics s)
      (audit_events s) (sleep_events s) (cron_jobs s) (job_queue s) (sessions s).

Definition set_invoices (x : list Invoice) s : opsdb W :=
  mkOps (env s) (outcalls s) (plans s) (subscriptions s) x (credits s) (quota_configs s)
      (usage_records s) (rollups s) (notifications s) (backups s) (analytics s)
      (audit_events s) (sleep_events s) (cron_jobs s) (job_queue s) (sessions s).

Definition set_credits (x : list Credit) s : opsdb W :=
  mkOps (env s) (outcalls s) (plans s) (subscriptions s) (invoices s) x (quota_configs s)
      (usage_records s) (rollups s) (notifications s) (backups s) (analytics s)
      (audit_events s) (sleep_events s) (cron_jobs s) (job_queue s) (sessions s).

Definition set_quota_configs (x : list (QuotaConfig numeric)) s : opsdb W :=
  mkOps (env s) (outcalls s) (plans s) (subscriptions s) (invoices s) (credits s) x
      (usage_records s) (rollups s) (notifications s) (backups s) (analytics s)
      (audit_events s) (sleep_events s) (cron_jobs s) (job_queue s) (sessions s).

Definition set_usage_records (x : list (UsageRecord numeric)) s : opsdb W :=
  mkOps (env s) (outcalls s) (plans s) (subscriptions s) (invoices s) (credits s)
      (quota_configs s) x (rollups s) (notifications s) (backups s) (analytics s)
      (audit_events s) (sleep_events s) (cron_jobs s) (job_queue s) (sessions s).

Definition set_rollups (x : list (UsageRollup numeric)) s : opsdb W :=
  mkOps (env s) (outcalls s) (plans s) (subscriptions s) (invoices s) (credits s)
      (quota_configs s) (usage_records s) x (notifications s) (backups s) (analytics s)
      (audit_events s) (sleep_events s) (cron_jobs s) (job_queue s) (sessions s).

Definition set_notifications (x : list Notification) s : opsdb W :=
  mkOps (env s) (outcalls s) (plans s) (subscriptions s) (invoices s) (credits s)
      (quota_configs s) (usage_records s) (rollups s) x (backups s) (analytics s)
      (audit_events s) (sleep_events s) (cron_jobs s) (job_queue s) (sessions s).

Definition set_backups (x : list Backup) s : opsdb W :=
  mkOps (env s) (outcalls s) (plans s) (subscriptions s) (invoices s) (credits s)
      (quota_configs s) (usage_records s) (rollups s) (notifications s) x (analytics s)
      (audit_events s) (sleep_events s) (cron_jobs s) (job_queue s) (sessions s).

Definition set_analytics (x : list (AnalyticsDaily numeric)) s : opsdb W :=
  mkOps (env s) (outcalls s) (plans s) (subscriptions s) (invoices s) (credits s)
      (quota_configs s) (usage_records s) (rollups s) (notifications s) (backups s) x
      (audit_events s) (sleep_events s) (cron_jobs s) (job_queue s) (sessions s).

Definition set_audit_events (x : list AuditEvent) s : opsdb W :=
  mkOps (env s) (outcalls s) (plans s) (subscriptions s) (invoices s) (credits s)
      (quota_configs s) (usage_records s) (rollups s) (notifications s) (backups s)
      (analytics s) x (sleep_events s) (cron_jobs s) (job_queue s) (sessions s).

Definition set_sleep_events (x : list SleepEvent) s : opsdb W :=
  mkOps (env s) (outcalls s) (plans s) (subscriptions s) (invoices s) (credits s)
      (quota_configs s) (usage_records s) (rollups s) (notifications s) (backups s)
      (analytics s) (audit_events s) x (cron_jobs s) (job_queue s) (sessions s).

Definition set_cron_jobs (x : list CronJob) s : opsdb W :=
  mkOps (env s) (outcalls s) (plans s) (subscriptions s) (invoices s) (credits s)
      (quota_configs s) (usage_records s) (rollups s) (notifications s) (backups s)
      (analytics s) (audit_events s) (sleep_events s) x (job_queue s) (sessions s).

Definition set_job_queue (x : list Job) s : opsdb W :=
  mkOps (env s) (outcalls s) (plans s) (subscriptions s) (invoices s) (credits s)
      (quota_configs s) (usage_records s) (rollups s) (notifications s) (backups s)
      (analytics s) (audit_events s) (sleep_events s) (cron_jobs s) x (sessions s).

Definition set_sessions (x : list Time) s : opsdb W :=
  mkOps (env s) (outcalls s) (plans s) (subscriptions s) (invoices s) (credits s) (quota_configs s)
      (usage_records s) (rollups s) (notifications s) (backups s) (analytics s)
      (audit_events s) (sleep_events s) (cron_jobs s) (job_queue s) x.

Definition plans_l : Lens (opsdb W) (list Plan).
Proof. refine {| view := plans; put := set_plans |}; by first [intros ? []|intros []]. Defined.
Definition subscriptions_l : Lens (opsdb W) (list Subscription).
Proof. refine {| view := subscriptions; put := set_subscriptions |}; by first [intros ? []|intros []]. Defined.
Definition invoices_l : Lens (opsdb W) (list Invoice).
Proof. refine {| view := invoices; put := set_invoices |}; by first [intros ? []|intros []]. Defined.
Definition credits_l : Lens (opsdb W) (list Credit).
Proof. refine {| view := credits; put := set_credits |}; by first [intros ? []|intros []]. Defined.
Definition quota_configs_l : Lens (opsdb W) (list (QuotaConfig numeric)).
Proof. refine {| view := quota_configs; put := set_quota_configs |}; by first [intros ? []|intros []]. Defined.
Definition usage_records_l : Lens (opsdb W) (list (UsageRecord numeric)).
Proof. refine {| view := usage_records; put := set_usage_records |}; by first [intros ? []|intros []]. Defined.
Definition rollups_l : Lens (opsdb W) (list (UsageRollup numeric)).
Proof. refine {| view := rollups; put := set_rollups |}; by first [intros ? []|intros []]. Defined.
Definition notifications_l : Lens (opsdb W) (list Notification).
Proof. refine {| view := notifications; put := set_notifications |}; by first [intros ? []|intros []]. Defined.
Definition backups_l : Lens (opsdb W) (list Backup).
Proof. refine {| view := backups; put := set_backups |}; by first [intros ? []|intros []]. Defined.
Definition analytics_l : Lens (opsdb W) (list (AnalyticsDaily numeric)).
Proof. refine {| view := analytics; put := set_analytics |}; by first [intros ? []|intros []]. Defined.
Definition audit_events_l : Lens (opsdb W) (list AuditEvent).
Proof. refine {| view := audit_events; put := set_audit_events |}; by first [intros ? []|intros []]. Defined.
Definition sleep_events_l : Lens (opsdb W) (list SleepEvent).
Proof. refine {| view := sleep_events; put := set_sleep_events |}; by first [intros ? []|intros []]. Defined.
Definition cron_jobs_l : Lens (opsdb W) (list CronJob).
Proof. refine {| view := cron_jobs; put := set_cron_jobs |}; by first [intros ? []|intros []]. Defined.
Definition job_queue_l : Lens (opsdb W) (list Job).
Proof. refine {| view := job_queue; put := set_job_queue |}; by first [intros ? []|intros []]. Defined.
Definition sessions_l : Lens (opsdb W) (list Time).
Proof. refine {| view := sessions; put := set_sessions |}; by first [intros ? []|intros []]. Defined.
End lenses.

(** ** Statements and readings *)

Section statements.
Context {W : Type}.

Context `{En : Environment W}.

Definition time_now : db (opsdb W) Time := λ '(s, fs),
  let '(t, w) := read_clock (env s) in (Ok t, (set_env w s, fs)).

Definition new_id : db (opsdb W) string := λ '(s, fs),
  let '(id, w) := fresh_id (env s) in (Ok id, (set_env w s, fs)).

(** [if x.ID == "" { x.ID = idx.NewUUID() }] *)
Definition id_or_new (id : string) : db (opsdb W) string :=
  if id =s? "" then new_id else mret id.

(** A request to the world: what it answers, and how it is traced. *)
Definition call {A} (op : W → A * W) (log : A → list outcall) : db (opsdb W) A := λ '(s, fs),
  let '(a, w) := op (env s) in (Ok a, (set_outcalls (outcalls s ++ log a) (set_env w s), fs)).
End statements.

(** Go's [s[:8]]; identifiers have 36 bytes. *)
Definition prefix8 (s : string) : string := String.substring 0 8 s.

(** [json.Marshal(map[string]any{})] where the document is nil. *)
Definition or_empty (doc : option string) : option string := Some (default "{}" doc).

(** The plans of schema.go; nothing in the program inserts others. *)
Definition seed_plan (now : Time) (id name : string) (month year : Z) : Plan :=
  Plan.mk id name month year "" (Some "{}") true now now.
Definition seed_plans (now : Time) : list Plan :=
  [seed_plan now PlanFree "Free" 0 0; seed_plan now PlanPro "Pro" 2000 19200;
   seed_plan now PlanTeam "Team" 7900 75840; seed_plan now PlanEnterprise "Enterprise" 0 0].

(** ** Lemmas *)

Section lemmas.
Context {W : Type} `{En : Environment W}.
Implicit Types (s : opsdb W).

Lemma wp_time_now (Q : Time → opsdb W → Prop) E s : (∀ t w, Q t (set_env w s)) → wp time_now Q E s.
Proof. intros H fs. unfold time_now. destruct (read_clock (env s)) as [t w]. apply H. Qed.

Lemma wp_new_id (Q : string → opsdb W → Prop) E s : (∀ id w, Q id (set_env w s)) → wp new_id Q E s.
Proof. intros H fs. unfold new_id. destruct (fresh_id (env s)) as [t w]. apply H. Qed.

Lemma wp_id_or_new id (Q : string → opsdb W → Prop) E s :
  (∀ id w, Q id (set_env w s)) → wp (id_or_new id) Q E s.
Proof.
  intros H. unfold id_or_new. case_match; [by apply wp_new_id|].
  apply wp_ret. specialize (H id (env s)). by destruct s.
Qed.

Lemma wp_call {A} (op : W → A * W) log (Q : A → opsdb W → Prop) E s :
  (∀ a w, Q a (set_outcalls (outcalls s ++ log a) (set_env w s))) → wp (call op log) Q E s.
Proof. intros H fs. unfold call. destruct (op (env s)) as [t w]. apply H. Qed.

(** Invariants that do not look at the world. *)
Section preserves.
Context (I : opsdb W → Prop) (HI : ∀ s l w, I s → I (set_outcalls l (set_env w s))).

Lemma inv_env s w : I s → I (set_env w s).
Proof. intros H. apply (HI s (outcalls s) w) in H. by destruct s. Qed.

Lemma preserves_time_now : preserves I time_now.
Proof. apply preserves_wp. intros s Hs. apply wp_time_now. intros t w. by apply inv_env. Qed.

Lemma preserves_new_id : preserves I new_id.
Proof. apply preserves_wp. intros s Hs. apply wp_new_id. intros t w. by apply inv_env. Qed.

Lemma preserves_id_or_new id : preserves I (id_or_new id).
Proof. apply preserves_wp. intros s Hs. apply wp_id_or_new. intros t w. by apply inv_env. Qed.

Lemma preserves_call {A} (op : W → A * W) log : preserves I (call op log).
Proof. apply preserves_wp. intros s Hs. apply wp_call. intros t w. by apply HI. Qed.
End preserves.
End lemmas.

(** The structure of a computation that keeps an invariant; what is left are its
    statements. *)
Ltac keeps HI :=
  repeat lazymatch goal with
  | |- preserves _ (mbind _ _) => apply preserves_bind; [|intros ?]
  | |- preserves _ (mret _) => apply preserves_ret
  | |- preserves _ (fail _) => apply preserves_fail
  | |- preserves _ (fail_with _) => apply preserves_fail_with
  | |- preserves _ (of_result _) => apply preserves_wp; intros ??; apply wp_of_result
  | |- preserves _ (attempt _) => apply preserves_attempt
  | |- preserves _ (ignore _) => apply preserves_ignore
  | |- preserves _ (translate _ _) => apply preserves_translate
  | |- preserves _ (on_error _ _) => apply preserves_on_error
  | |- preserves _ time_now => apply (preserves_time_now _ HI)
  | |- preserves _ new_id => apply (preserves_new_id _ HI)
  | |- preserves _ (id_or_new _) => apply (preserves_id_or_new _ HI)
  | |- preserves _ (call _ _) => apply (preserves_call _ HI)
  | |- preserves _ (if ?b then _ else _) => destruct b
  | |- preserves _ (match ?x with _ => _ end) => destruct x
  end.

(** One step of an ops computation. *)
Ltac ops_step :=
  lazymatch goal with
  | |- wp (stmt _ _) _ _ _ => apply wp_stmt; cbn beta
  | |- wp time_now _ _ _ => apply wp_time_now; intros ??
  | |- wp new_id _ _ _ => apply wp_new_id; intros ??
  | |- wp (id_or_new _) _ _ _ => apply wp_id_or_new; intros ??
  | |- wp (call _ _) _ _ _ => apply wp_call; intros ??
  | |- _ => wp_step
  end.

(** ** A simulated environment

    The clock, one second later at every reading, and the count of the
    identifiers drawn. *)
Definition sim : Type := Z * Z.

Definition sim_environment : Environment sim := {|
  read_clock := λ w, (w.1, (w.1 + Second, w.2));
  fresh_id := λ w, ("id-" +:+ pretty w.2, (w.1, w.2 + 1));
|}.

Definition ops_start (now : Time) : opsdb sim :=
  mkOps (now, 0) [] (seed_plans now) [] [] [] [] [] [] [] [] [] [] [] [] [] [].

(** Conversions that round the exact value half away from zero. *)
Definition scaled (scale : Z) (m : positive) (e : Z) : Z :=
  if 0 <=? e then Zpos m * 2 ^ e * 10 ^ scale
  else let d := 2 ^ (- e) in (2 * Zpos m * 10 ^ scale + d) / (2 * d).

Definition exact_decimal : Decimal := {|
  to_numeric precision scale x :=
    match x with
    | S754_nan => Some None
    | S754_infinity _ => None
    | S754_zero _ => Some (Some 0)
    | S754_finite sign m e =>
        let v := scaled scale m e in
        if v <? 10 ^ precision then Some (Some ((if sign then - v else v) * 10 ^ (6 - scale))) else None
    end;
  of_numeric x := match x with Some z => fdiv (f64_of_Z z) (f64_of_Z 1000000) | None => S754_nan end;
|}.

(** What the services expect of the environment: the clock does not run
    backwards, and an identifier drawn is none that was issued before. *)
Class EnvironmentLaws (W : Type) `{En : Environment W} := {
  time_of : W → Time;
  issued : W → string → Prop;
  read_clock_spec w : time_of w ≤ (read_clock w).1 ≤ time_of (read_clock w).2
                      ∧ ∀ id, issued (read_clock w).2 id ↔ issued w id;
  fresh_id_spec w : time_of w ≤ time_of (fresh_id w).2 ∧ (fresh_id w).1 ≠ "" ∧ ¬ issued w (fresh_id w).1
                    ∧ ∀ id, issued (fresh_id w).2 id ↔ id = (fresh_id w).1 ∨ issued w id;
}.

#[export] Instance sim_laws : EnvironmentLaws sim (En := sim_environment).
Proof.
  refine {| time_of := fst; issued := λ w id, ∃ n, n < w.2 ∧ id = "id-" +:+ pretty n |}.
  - intros [t n]. simpl. unfold Second. split; [lia|done].
  - intros [t n]. simpl. split; [lia|]. split; [done|]. split.
    + intros (k & Hk & E). apply (inj (String.append "id-")), (inj (pretty (A := Z))) in E. lia.
    + intros id. split.
      * intros (k & Hk & ->). destruct (decide (k = n)) as [->|]; [by left|right; exists k; split; [lia|done]].
      * intros [->|(k & Hk & ->)]; [exists n|exists k]; (split; [lia|done]).
Defined.

(** A reading of the clock lies between the times before and after it. *)
Lemma wp_time_now_law `{L : EnvironmentLaws W} (Q : Time → opsdb W → Prop) E s :
  (∀ t w, time_of (env s) ≤ t ≤ time_of w → Q t (set_env w s)) → wp time_now Q E s.
Proof.
  intros H fs. unfold time_now. pose proof (read_clock_spec (env s)) as [Ht _].
  destruct (read_clock (env s)) as [t w]. by apply H.
Qed.

Lemma time_of_fresh `{L : EnvironmentLaws W} (w : W) : time_of w ≤ time_of (fresh_id w).2.
Proof. apply fresh_id_spec. Qed.
