(* ===== verification/OpsStore.v ===== *)
(** * The ops repository (packages/application/ops/store/repository.go)

    One definition per method.  Every statement reads the clock of the server
    ([now()]) and, where the code does, the clock of the process before it;
    [gen_random_uuid()] draws from the world.  Text compares bytewise
    ([MIN(unit)]). *)

From S2P Require Import Prelude GoLib Errors Postgres Sql Jobs DeployModel Rows OpsModel.

Section store.
Context {W : Type} `{En : Environment W} `{D : Driver} `{So : Sorter}.

(** ** Subscriptions *)

Definition sub_of (orgID : string) (s : Subscription) : bool := Subscription.OrgID s =s? orgID.

Definition GetSubscription (orgID : string) : db (opsdb W) Subscription :=
  translate "ops: scan subscription" (stmt subscriptions_l (λ _, with_uuids [orgID] (select_row (sub_of orgID)))).

(** The row as inserted, and [DO UPDATE SET] of an existing one. *)
Definition new_subscription (id : string) (now : Time) (s : Subscription) : Subscription :=
  {| Subscription.ID := id; Subscription.OrgID := Subscription.OrgID s;
     Subscription.PlanID := Subscription.PlanID s; Subscription.Status := Subscription.Status s;
     Subscription.Interval := Subscription.Interval s; Subscription.StripeSubID := Subscription.StripeSubID s;
     Subscription.StripeCustomerID := Subscription.StripeCustomerID s;
     Subscription.CurrentPeriodStart := Subscription.CurrentPeriodStart s;
     Subscription.CurrentPeriodEnd := Subscription.CurrentPeriodEnd s;
     Subscription.TrialEndsAt := Subscription.TrialEndsAt s;
     Subscription.CanceledAt := Subscription.CanceledAt s;
     Subscription.GracePeriodEndsAt := Subscription.GracePeriodEndsAt s;
     Subscription.CorrelationID := Subscription.CorrelationID s;
     Subscription.Metadata := or_empty (Subscription.Metadata s);
     Subscription.CreatedAt := now; Subscription.UpdatedAt := now |}.

Definition merge_subscription (row old : Subscription) : Subscription :=
  {| Subscription.ID := Subscription.ID old; Subscription.OrgID := Subscription.OrgID old;
     Subscription.PlanID := Subscription.PlanID row; Subscription.Status := Subscription.Status row;
     Subscription.Interval := Subscription.Interval row; Subscription.StripeSubID := Subscription.StripeSubID row;
     Subscription.StripeCustomerID := Subscription.StripeCustomerID row;
     Subscription.CurrentPeriodStart := Subscription.CurrentPeriodStart row;
     Subscription.CurrentPeriodEnd := Subscription.CurrentPeriodEnd row;
     Subscription.TrialEndsAt := Subscription.TrialEndsAt row;
     Subscription.CanceledAt := Subscription.CanceledAt row;
     Subscription.GracePeriodEndsAt := Subscription.GracePeriodEndsAt row;
     Subscription.CorrelationID := Subscription.CorrelationID row;
     Subscription.Metadata := Subscription.Metadata row;
     Subscription.CreatedAt := Subscription.CreatedAt old; Subscription.UpdatedAt := Subscription.UpdatedAt row |}.

(** [ON CONFLICT (org_id)]; the foreign key to the plans is checked last. *)
Definition upsert_subscription (plans : list Plan) (row : Subscription) (t : list Subscription)
    : result error Subscription * list Subscription :=
  let '(r, t') :=
    match select (sub_of (Subscription.OrgID row)) t with
    | old :: _ => (Ok (merge_subscription row old),
                   update_where (sub_of (Subscription.OrgID row)) (merge_subscription row) t)
    | [] => insert_row Subscription.ID row t
    end in
  match r with
  | Ok s => if matched (λ p, Plan.ID p =s? Subscription.PlanID row) plans =? 0
            then (Err foreign_key, t) else (r, t')
  | Err e => (Err e, t)
  end.

Definition UpsertSubscription (s : Subscription) : db (opsdb W) Subscription :=
  id ← id_or_new (Subscription.ID s);
  now ← time_now;
  translate "ops: scan subscription" (stmt subscriptions_l (λ st,
    with_uuids [Subscription.OrgID s] (upsert_subscription (plans st) (new_subscription id now s)))).

Definition due_for_renewal (now : Time) (s : Subscription) : bool :=
  (Subscription.Status s =s? SubStatusActive) && (Subscription.CurrentPeriodEnd s <=? now + 24 * Hour).

Definition ListSubscriptionsDueForRenewal : db (opsdb W) (list Subscription) :=
  now ← time_now;
  translate "ops: list renewals" (stmt subscriptions_l (λ _ t,
    (Ok (sort_slice (λ x y, Subscription.CurrentPeriodEnd x <? Subscription.CurrentPeriodEnd y)
           (select (due_for_renewal now) t)), t))).

(** ** Invoices *)

Definition new_invoice (id : string) (now : Time) (inv : Invoice) : Invoice :=
  {| Invoice.ID := id; Invoice.OrgID := Invoice.OrgID inv;
     Invoice.SubscriptionID := Invoice.SubscriptionID inv; Invoice.Status := Invoice.Status inv;
     Invoice.PeriodStart := Invoice.PeriodStart inv; Invoice.PeriodEnd := Invoice.PeriodEnd inv;
     Invoice.AmountCents := Invoice.AmountCents inv; Invoice.CreditsCents := Invoice.CreditsCents inv;
     Invoice.TaxCents := Invoice.TaxCents inv; Invoice.TotalCents := Invoice.TotalCents inv;
     Invoice.Currency := Invoice.Currency inv; Invoice.StripeInvID := Invoice.StripeInvID inv;
     Invoice.PaidAt := Invoice.PaidAt inv; Invoice.DueAt := Invoice.DueAt inv;
     Invoice.CorrelationID := Invoice.CorrelationID inv; Invoice.Metadata := or_empty (Invoice.Metadata inv);
     Invoice.CreatedAt := now; Invoice.UpdatedAt := now |}.

Definition InsertInvoice (inv : Invoice) : db (opsdb W) Invoice :=
  id ← id_or_new (Invoice.ID inv);
  now ← time_now;
  translate "ops: scan invoice" (stmt invoices_l (λ _,
    with_uuids [Invoice.OrgID inv; Invoice.SubscriptionID inv]
      (insert_row Invoice.ID (new_invoice id now inv)))).

Definition invoice_status (status : string) (paidAt : option Time) (now : Time) (inv : Invoice) : Invoice :=
  {| Invoice.ID := Invoice.ID inv; Invoice.OrgID := Invoice.OrgID inv;
     Invoice.SubscriptionID := Invoice.SubscriptionID inv; Invoice.Status := status;
     Invoice.PeriodStart := Invoice.PeriodStart inv; Invoice.PeriodEnd := Invoice.PeriodEnd inv;
     Invoice.AmountCents := Invoice.AmountCents inv; Invoice.CreditsCents := Invoice.CreditsCents inv;
     Invoice.TaxCents := Invoice.TaxCents inv; Invoice.TotalCents := Invoice.TotalCents inv;
     Invoice.Currency := Invoice.Currency inv; Invoice.StripeInvID := Invoice.StripeInvID inv;
     Invoice.PaidAt := paidAt; Invoice.DueAt := Invoice.DueAt inv;
     Invoice.CorrelationID := Invoice.CorrelationID inv; Invoice.Metadata := Invoice.Metadata inv;
     Invoice.CreatedAt := Invoice.CreatedAt inv; Invoice.UpdatedAt := now |}.

Definition SetInvoiceStatus (id status : string) (paidAt : option Time) : db (opsdb W) unit :=
  now ← time_now;
  translate "ops: set invoice status" (stmt invoices_l (λ _,
    update_row Invoice.ID id (invoice_status status paidAt now))).

Definition ListInvoicesByOrg (orgID : string) (limit : Z) : db (opsdb W) (list Invoice) :=
  translate "ops: list invoices" (stmt invoices_l (λ _, with_uuids [orgID] (λ t,
    (limit_rows limit (sort_slice (λ x y, Invoice.CreatedAt y <? Invoice.CreatedAt x)
       (select (λ i, Invoice.OrgID i =s? orgID) t)), t)))).

(** ** Credits *)

Definition new_credit (id : string) (now : Time) (c : Credit) : Credit :=
  {| Credit.ID := id; Credit.OrgID := Credit.OrgID c; Credit.AmountCents := Credit.AmountCents c;
     Credit.UsedCents := 0; Credit.Reason := Credit.Reason c; Credit.CouponCode := Credit.CouponCode c;
     Credit.ExpiresAt := Credit.ExpiresAt c; Credit.CorrelationID := Credit.CorrelationID c;
     Credit.CreatedAt := now |}.

Definition Repository_AddCredit (c : Credit) : db (opsdb W) Credit :=
  id ← id_or_new (Credit.ID c);
  now ← time_now;
  translate "ops: scan credit" (stmt credits_l (λ _,
    with_uuids [Credit.OrgID c] (insert_row Credit.ID (new_credit id now c)))).

Definition usable (orgID : string) (now : Time) (c : Credit) : bool :=
  (Credit.OrgID c =s? orgID)
  && match Credit.ExpiresAt c with Some e => now <? e | None => true end.

(** What a credit has left. *)
Definition left_cents (c : Credit) : Z := Credit.AmountCents c - Credit.UsedCents c.

(** The sum is a NUMERIC; it is scanned into an [int64]. *)
Definition AvailableCredits (orgID : string) : db (opsdb W) Z :=
  now ← time_now;
  translate "ops: available credits" (stmt credits_l (λ _, with_uuids [orgID] (λ t,
    let sum := total left_cents (select (usable orgID now) t) in
    if (int64_min <=? sum) && (sum <=? int64_max) then (Ok sum, t)
    else (Err (Plain "cannot scan numeric into int64"), t)))).

(** ** Quota configurations *)

(** The columns read into Go's [float64]. *)
Definition read_config `{De : Decimal} (c : QuotaConfig numeric) : QuotaConfig f64 :=
  {| QuotaConfig.ID := QuotaConfig.ID c; QuotaConfig.PlanID := QuotaConfig.PlanID c;
     QuotaConfig.MaxProjects := QuotaConfig.MaxProjects c;
     QuotaConfig.MaxDeployments := QuotaConfig.MaxDeployments c;
     QuotaConfig.MaxConcurrentBuilds := QuotaConfig.MaxConcurrentBuilds c;
     QuotaConfig.MaxConcurrentDeploys := QuotaConfig.MaxConcurrentDeploys c;
     QuotaConfig.MaxContainers := QuotaConfig.MaxContainers c;
     QuotaConfig.MaxCustomDomains := QuotaConfig.MaxCustomDomains c;
     QuotaConfig.MaxStorageGB := of_numeric (QuotaConfig.MaxStorageGB c);
     QuotaConfig.MaxBandwidthGBMonth := of_numeric (QuotaConfig.MaxBandwidthGBMonth c);
     QuotaConfig.MaxBuildMinutesMonth := of_numeric (QuotaConfig.MaxBuildMinutesMonth c);
     QuotaConfig.MaxContainerHoursMonth := of_numeric (QuotaConfig.MaxContainerHoursMonth c);
     QuotaConfig.MaxAPIRequestsDay := QuotaConfig.MaxAPIRequestsDay c;
     QuotaConfig.WarnThresholdPct := of_numeric (QuotaConfig.WarnThresholdPct c);
     QuotaConfig.CreatedAt := QuotaConfig.CreatedAt c; QuotaConfig.UpdatedAt := QuotaConfig.UpdatedAt c |}.

Definition of_plan (planID : string) (c : QuotaConfig numeric) : bool := QuotaConfig.PlanID c =s? planID.

Definition GetQuotaConfig `{De : Decimal} (planID : string) : db (opsdb W) (QuotaConfig f64) :=
  translate "ops: quota config" (stmt quota_configs_l (λ _ t,
    match select (of_plan planID) t with
    | c :: _ => (Ok (read_config c), t)
    | [] => (Err ErrNoRows, t)
    end)).

(** ** Usage *)

Definition usage_row (id : string) (now : Time) (q : numeric) (u : UsageRecord f64) : UsageRecord numeric :=
  {| UsageRecord.ID := id; UsageRecord.OrgID := UsageRecord.OrgID u;
     UsageRecord.ProjectID := UsageRecord.ProjectID u;
     UsageRecord.DeploymentID := UsageRecord.DeploymentID u;
     UsageRecord.Dimension := UsageRecord.Dimension u; UsageRecord.Quantity := q;
     UsageRecord.Unit := UsageRecord.Unit u; UsageRecord.Period := UsageRecord.Period u;
     UsageRecord.CorrelationID := UsageRecord.CorrelationID u; UsageRecord.RecordedAt := now |}.

Definition RecordUsage `{De : Decimal} (u : UsageRecord f64) : db (opsdb W) unit :=
  id ← id_or_new (UsageRecord.ID u);
  now ← time_now;
  translate "ops: record usage" (stmt usage_records_l (λ _,
    with_uuids [UsageRecord.OrgID u; UsageRecord.ProjectID u; UsageRecord.DeploymentID u] (λ t,
      match to_numeric 20 6 (UsageRecord.Quantity u) with
      | None => (Err overflow_numeric, t)
      | Some q => let '(r, t) := insert_row UsageRecord.ID (usage_row id now q u) t in
                  (match r with Ok _ => Ok tt | Err e => Err e end, t)
      end))).

(** [GROUP BY org_id, project_id, dimension, period] *)
Definition rollup_key : Type := string * string * string * string.
Definition record_key (u : UsageRecord numeric) : rollup_key :=
  (UsageRecord.OrgID u, UsageRecord.ProjectID u, UsageRecord.Dimension u, UsageRecord.Period u).
Definition key_of_rollup (u : UsageRollup numeric) : rollup_key :=
  (UsageRollup.OrgID u, UsageRollup.ProjectID u, UsageRollup.Dimension u, UsageRollup.Period u).

Definition sum_numeric : list numeric → numeric := foldr numeric_add (Some 0).

Definition min_text (l : list string) : string :=
  match l with [] => "" | x :: l => foldl (λ m s, if String.ltb s m then s else m) x l end.

(** The row a group of records makes, and [DO UPDATE SET] of an existing one. *)
Definition group_row (id : string) (now : Time) (k : rollup_key) (g : list (UsageRecord numeric))
    : UsageRollup numeric :=
  let '(org, project, dimension, period) := k in
  UsageRollup.mk id org project dimension period (sum_numeric (UsageRecord.Quantity <$> g))
    (min_text (UsageRecord.Unit <$> g)) now now.

Definition merge_rollup (row old : UsageRollup numeric) : UsageRollup numeric :=
  {| UsageRollup.ID := UsageRollup.ID old; UsageRollup.OrgID := UsageRollup.OrgID old;
     UsageRollup.ProjectID := UsageRollup.ProjectID old; UsageRollup.Dimension := UsageRollup.Dimension old;
     UsageRollup.Period := UsageRollup.Period old; UsageRollup.Total := UsageRollup.Total row;
     UsageRollup.Unit := UsageRollup.Unit old; UsageRollup.CreatedAt := UsageRollup.CreatedAt old;
     UsageRollup.UpdatedAt := UsageRollup.UpdatedAt row |}.

Definition has_key (k : rollup_key) (u : UsageRollup numeric) : bool := bool_decide (key_of_rollup u = k).
Definition in_group (k : rollup_key) (u : UsageRecord numeric) : bool := bool_decide (record_key u = k).

Definition upsert_rollup (row : UsageRollup numeric) (t : list (UsageRollup numeric))
    : result error (list (UsageRollup numeric)) :=
  if negb (fits_numeric (UsageRollup.Total row)) then Err overflow_numeric
  else match select (has_key (key_of_rollup row)) t with
  | _ :: _ => Ok (update_where (has_key (key_of_rollup row)) (merge_rollup row) t)
  | [] => match insert_row UsageRollup.ID row t with (Ok _, t') => Ok t' | (Err e, _) => Err e end
  end.

(** The groups of a period, each with the identifier the server generates for
    it, are inserted one after the other; an error undoes them all. *)
Fixpoint upsert_groups (now : Time) (records : list (UsageRecord numeric)) (keys : list rollup_key)
    (w : W) (t : list (UsageRollup numeric)) : result error (list (UsageRollup numeric)) * W :=
  match keys with
  | [] => (Ok t, w)
  | k :: keys =>
      let '(id, w) := fresh_id w in
      match upsert_rollup (group_row id now k (select (in_group k) records)) t with
      | Err e => (Err e, w)
      | Ok t => upsert_groups now records keys w t
      end
  end.

Definition in_period (period : string) (u : UsageRecord numeric) : bool := UsageRecord.Period u =s? period.

Definition RollupUsage (period : string) : db (opsdb W) unit :=
  now ← time_now;
  translate "ops: rollup usage" (query (λ s,
    let keys := remove_dups (record_key <$> select (in_period period) (usage_records s)) in
    let '(r, w) := upsert_groups now (usage_records s) keys (env s) (rollups s) in
    match r with
    | Ok t => (Ok tt, set_rollups t (set_env w s))
    | Err e => (Err e, set_env w s)
    end)).

Definition current (orgID dimension period : string) (u : UsageRollup numeric) : bool :=
  (UsageRollup.OrgID u =s? orgID) && (UsageRollup.Dimension u =s? dimension)
  && (UsageRollup.Period u =s? period).

Definition GetCurrentUsage `{De : Decimal} (orgID dimension period : string) : db (opsdb W) f64 :=
  translate "ops: get current usage" (stmt rollups_l (λ _, with_uuids [orgID] (λ t,
    (Ok (of_numeric (sum_numeric (UsageRollup.Total <$> select (current orgID dimension period) t))), t)))).

(** ** Notifications *)

Definition new_notification (id : string) (now : Time) (n : Notification) : Notification :=
  {| Notification.ID := id; Notification.OrgID := Notification.OrgID n;
     Notification.UserID := Notification.UserID n; Notification.ProjectID := Notification.ProjectID n;
     Notification.Channel := Notification.Channel n; Notification.EventType := Notification.EventType n;
     Notification.Subject := Notification.Subject n; Notification.Body := Notification.Body n;
     Notification.Recipient := Notification.Recipient n; Notification.Status := NotifPending;
     Notification.Attempts := 0; Notification.LastAttemptAt := None; Notification.DeliveredAt := None;
     Notification.FailureReason := ""; Notification.CorrelationID := Notification.CorrelationID n;
     Notification.Metadata := or_empty (Notification.Metadata n);
     Notification.CreatedAt := now; Notification.UpdatedAt := now |}.

Definition InsertNotification (n : Notification) : db (opsdb W) Notification :=
  id ← id_or_new (Notification.ID n);
  now ← time_now;
  translate "ops: scan notification" (stmt notifications_l (λ _,
    with_uuids [Notification.OrgID n; Notification.UserID n; Notification.ProjectID n]
      (insert_row Notification.ID (new_notification id now n)))).

Definition has_notification (id : string) (n : Notification) : bool := Notification.ID n =s? id.

Definition GetNotification (id : string) : db (opsdb W) Notification :=
  translate "ops: scan notification" (stmt notifications_l (λ _, with_uuids [id] (select_row (has_notification id)))).

Definition notified (status reason : string) (attempts : Z) (last delivered : option Time) (now : Time)
    (n : Notification) : Notification :=
  {| Notification.ID := Notification.ID n; Notification.OrgID := Notification.OrgID n;
     Notification.UserID := Notification.UserID n; Notification.ProjectID := Notification.ProjectID n;
     Notification.Channel := Notification.Channel n; Notification.EventType := Notification.EventType n;
     Notification.Subject := Notification.Subject n; Notification.Body := Notification.Body n;
     Notification.Recipient := Notification.Recipient n; Notification.Status := status;
     Notification.Attempts := attempts; Notification.LastAttemptAt := last;
     Notification.DeliveredAt := delivered; Notification.FailureReason := reason;
     Notification.CorrelationID := Notification.CorrelationID n;
     Notification.Metadata := Notification.Metadata n;
     Notification.CreatedAt := Notification.CreatedAt n; Notification.UpdatedAt := now |}.

Definition delivered_row (at_ now : Time) (n : Notification) : Notification :=
  notified NotifDelivered (Notification.FailureReason n) (Notification.Attempts n)
    (Notification.LastAttemptAt n) (Some at_) now n.

Definition failed_row (reason : string) (at_ now : Time) (n : Notification) : Notification :=
  notified NotifFailed reason (Notification.Attempts n + 1) (Some at_) (Notification.DeliveredAt n) now n.

Definition MarkNotificationDelivered (id : string) : db (opsdb W) unit :=
  at_ ← time_now; now ← time_now;
  translate "ops: mark delivered" (stmt notifications_l (λ _, update_row Notification.ID id (delivered_row at_ now))).

Definition MarkNotificationFailed (id reason : string) : db (opsdb W) unit :=
  at_ ← time_now; now ← time_now;
  translate "ops: mark failed" (stmt notifications_l (λ _, update_row Notification.ID id (failed_row reason at_ now))).

Definition pending (n : Notification) : bool :=
  (Notification.Status n =s? NotifPending) && (Notification.Attempts n <? 5).

Definition ListPendingNotifications (limit : Z) : db (opsdb W) (list Notification) :=
  translate "ops: list pending notifications" (stmt notifications_l (λ _ t,
    (limit_rows limit (sort_slice (λ x y, Notification.CreatedAt x <? Notification.CreatedAt y)
       (select pending t)), t))).

(** ** Backups *)

Definition new_backup (id : string) (now : Time) (b : Backup) : Backup :=
  {| Backup.ID := id; Backup.Kind := Backup.Kind b; Backup.Status := Backup.Status b;
     Backup.SizeBytes := Backup.SizeBytes b; Backup.StoragePath := Backup.StoragePath b;
     Backup.Checksum := Backup.Checksum b; Backup.DurationSeconds := Backup.DurationSeconds b;
     Backup.RetentionDays := Backup.RetentionDays b; Backup.ExpiresAt := Backup.ExpiresAt b;
     Backup.VerifiedAt := None; Backup.FailureReason := Backup.FailureReason b;
     Backup.CorrelationID := Backup.CorrelationID b; Backup.Metadata := or_empty (Backup.Metadata b);
     Backup.StartedAt := None; Backup.CompletedAt := None; Backup.CreatedAt := now |}.

Definition InsertBackup (b : Backup) : db (opsdb W) Backup :=
  id ← id_or_new (Backup.ID b);
  now ← time_now;
  translate "ops: scan backup" (stmt backups_l (λ _, insert_row Backup.ID (new_backup id now b))).

Definition backup_status (status reason : string) (b : Backup) : Backup :=
  {| Backup.ID := Backup.ID b; Backup.Kind := Backup.Kind b; Backup.Status := status;
     Backup.SizeBytes := Backup.SizeBytes b; Backup.StoragePath := Backup.StoragePath b;
     Backup.Checksum := Backup.Checksum b; Backup.DurationSeconds := Backup.DurationSeconds b;
     Backup.RetentionDays := Backup.RetentionDays b; Backup.ExpiresAt := Backup.ExpiresAt b;
     Backup.VerifiedAt := Backup.VerifiedAt b; Backup.FailureReason := reason;
     Backup.CorrelationID := Backup.CorrelationID b; Backup.Metadata := Backup.Metadata b;
     Backup.StartedAt := Backup.StartedAt b; Backup.CompletedAt := Backup.CompletedAt b;
     Backup.CreatedAt := Backup.CreatedAt b |}.

Definition SetBackupStatus (id status reason : string) : db (opsdb W) unit :=
  translate "ops: set backup status" (stmt backups_l (λ _, update_row Backup.ID id (backup_status status reason))).

Definition completed_backup (path checksum : string) (size secs : Z) (at_ : Time) (b : Backup) : Backup :=
  {| Backup.ID := Backup.ID b; Backup.Kind := Backup.Kind b; Backup.Status := BackupCompleted;
     Backup.SizeBytes := size; Backup.StoragePath := path; Backup.Checksum := checksum;
     Backup.DurationSeconds := secs; Backup.RetentionDays := Backup.RetentionDays b;
     Backup.ExpiresAt := Backup.ExpiresAt b; Backup.VerifiedAt := Backup.VerifiedAt b;
     Backup.FailureReason := Backup.FailureReason b; Backup.CorrelationID := Backup.CorrelationID b;
     Backup.Metadata := Backup.Metadata b; Backup.StartedAt := Backup.StartedAt b;
     Backup.CompletedAt := Some at_; Backup.CreatedAt := Backup.CreatedAt b |}.

Definition CompleteBackup (id path checksum : string) (size secs : Z) : db (opsdb W) unit :=
  at_ ← time_now;
  translate "ops: complete backup" (stmt backups_l (λ _,
    update_row Backup.ID id (completed_backup path checksum size secs at_))).

(** [expires_at <= now()] is unknown for a NULL. *)
Definition expired_backup (now : Time) (b : Backup) : bool :=
  (Backup.Status b =s? BackupCompleted)
  && match Backup.ExpiresAt b with Some e => e <=? now | None => false end.

Definition ListExpiredBackups : db (opsdb W) (list Backup) :=
  now ← time_now;
  translate "ops: list expired backups" (stmt backups_l (λ _ t, (Ok (select (expired_backup now) t), t))).

(** ** Analytics *)

Definition analytics_row {Q} (id : string) (bandwidth storage : Q) (created now : Time)
    {P} (a : AnalyticsDaily P) : AnalyticsDaily Q :=
  {| AnalyticsDaily.ID := id; AnalyticsDaily.Period := AnalyticsDaily.Period a;
     AnalyticsDaily.ActiveUsers := AnalyticsDaily.ActiveUsers a;
     AnalyticsDaily.NewOrgs := AnalyticsDaily.NewOrgs a;
     AnalyticsDaily.NewProjects := AnalyticsDaily.NewProjects a;
     AnalyticsDaily.TotalDeployments := AnalyticsDaily.TotalDeployments a;
     AnalyticsDaily.SuccessDeployments := AnalyticsDaily.SuccessDeployments a;
     AnalyticsDaily.FailedDeployments := AnalyticsDaily.FailedDeployments a;
     AnalyticsDaily.TotalBuilds := AnalyticsDaily.TotalBuilds a;
     AnalyticsDaily.SuccessBuilds := AnalyticsDaily.SuccessBuilds a;
     AnalyticsDaily.FailedBuilds := AnalyticsDaily.FailedBuilds a;
     AnalyticsDaily.AvgBuildDurationSecs := AnalyticsDaily.AvgBuildDurationSecs a;
     AnalyticsDaily.ActiveContainers := AnalyticsDaily.ActiveContainers a;
     AnalyticsDaily.TotalBandwidthGB := bandwidth; AnalyticsDaily.TotalStorageGB := storage;
     AnalyticsDaily.TotalAPIRequests := AnalyticsDaily.TotalAPIRequests a;
     AnalyticsDaily.NewSubscriptions := AnalyticsDaily.NewSubscriptions a;
     AnalyticsDaily.MRR := AnalyticsDaily.MRR a;
     AnalyticsDaily.CreatedAt := created; AnalyticsDaily.UpdatedAt := now |}.

Definition of_day (period : string) {Q} (a : AnalyticsDaily Q) : bool := AnalyticsDaily.Period a =s? period.

(** [DO UPDATE SET] of every column but the key and the creation time. *)
Definition merge_analytics (row old : AnalyticsDaily numeric) : AnalyticsDaily numeric :=
  analytics_row (AnalyticsDaily.ID old) (AnalyticsDaily.TotalBandwidthGB row) (AnalyticsDaily.TotalStorageGB row)
    (AnalyticsDaily.CreatedAt old) (AnalyticsDaily.UpdatedAt row) row.

Definition UpsertAnalyticsDaily `{De : Decimal} (a : AnalyticsDaily f64) : db (opsdb W) unit :=
  id ← id_or_new (AnalyticsDaily.ID a);
  now ← time_now;
  translate "ops: upsert analytics" (stmt analytics_l (λ _ t,
    match to_numeric 14 3 (AnalyticsDaily.TotalBandwidthGB a), to_numeric 14 3 (AnalyticsDaily.TotalStorageGB a) with
    | Some b, Some s =>
        let row := analytics_row id b s now now a in
        match select (of_day (AnalyticsDaily.Period a)) t with
        | _ :: _ => (Ok tt, update_where (of_day (AnalyticsDaily.Period a)) (merge_analytics row) t)
        | [] => match insert_row AnalyticsDaily.ID row t with (Ok _, t') => (Ok tt, t') | (Err e, t') => (Err e, t') end
        end
    | _, _ => (Err overflow_numeric, t)
    end)).

Definition GetAnalyticsDaily `{De : Decimal} (period : string) : db (opsdb W) (AnalyticsDaily f64) :=
  translate "ops: get analytics" (stmt analytics_l (λ _ t,
    match select (of_day period) t with
    | a :: _ => (Ok (analytics_row (AnalyticsDaily.ID a) (of_numeric (AnalyticsDaily.TotalBandwidthGB a))
                       (of_numeric (AnalyticsDaily.TotalStorageGB a)) (AnalyticsDaily.CreatedAt a)
                       (AnalyticsDaily.UpdatedAt a) a), t)
    | [] => (Err ErrNoRows, t)
    end)).

(** ** Audit and sleep events *)

Definition audit_row (id : string) (now : Time) (e : AuditEvent) : AuditEvent :=
  {| AuditEvent.ID := id; AuditEvent.OrgID := AuditEvent.OrgID e; AuditEvent.ProjectID := AuditEvent.ProjectID e;
     AuditEvent.ActorID := AuditEvent.ActorID e; AuditEvent.ActorType := AuditEvent.ActorType e;
     AuditEvent.Action := AuditEvent.Action e; AuditEvent.ResourceType := AuditEvent.ResourceType e;
     AuditEvent.ResourceID := AuditEvent.ResourceID e; AuditEvent.IPAddress := AuditEvent.IPAddress e;
     AuditEvent.UserAgent := AuditEvent.UserAgent e; AuditEvent.CorrelationID := AuditEvent.CorrelationID e;
     AuditEvent.Changes := or_empty (AuditEvent.Changes e); AuditEvent.Metadata := or_empty (AuditEvent.Metadata e);
     AuditEvent.OccurredAt := now |}.

Definition RecordAuditEvent (e : AuditEvent) : db (opsdb W) unit :=
  id ← id_or_new (AuditEvent.ID e);
  now ← time_now;
  _ ← translate "ops: record audit event" (stmt audit_events_l (λ _,
        with_uuids [AuditEvent.OrgID e; AuditEvent.ProjectID e; AuditEvent.ActorID e]
          (insert_row AuditEvent.ID (audit_row id now e))));
  mret tt.

Definition ListAuditEvents (orgID : string) (limit : Z) : db (opsdb W) (list AuditEvent) :=
  translate "ops: list audit events" (stmt audit_events_l (λ _, with_uuids [orgID] (λ t,
    (limit_rows limit (sort_slice (λ x y, AuditEvent.OccurredAt y <? AuditEvent.OccurredAt x)
       (select (λ e, AuditEvent.OrgID e =s? orgID) t)), t)))).

Definition sleep_row (id : string) (now : Time) (e : SleepEvent) : SleepEvent :=
  {| SleepEvent.ID := id; SleepEvent.OrgID := SleepEvent.OrgID e; SleepEvent.ProjectID := SleepEvent.ProjectID e;
     SleepEvent.DeploymentID := SleepEvent.DeploymentID e; SleepEvent.Status := SleepEvent.Status e;
     SleepEvent.Reason := SleepEvent.Reason e; SleepEvent.CorrelationID := SleepEvent.CorrelationID e;
     SleepEvent.OccurredAt := now |}.

Definition RecordSleepEvent (e : SleepEvent) : db (opsdb W) unit :=
  id ← id_or_new (SleepEvent.ID e);
  now ← time_now;
  _ ← translate "ops: record sleep event" (stmt sleep_events_l (λ _,
        with_uuids [SleepEvent.OrgID e; SleepEvent.ProjectID e; SleepEvent.DeploymentID e]
          (insert_row SleepEvent.ID (sleep_row id now e))));
  mret tt.

(** ** Cron jobs *)

Definition due (now : Time) (j : CronJob) : bool :=
  (CronJob.Status j =s? CronActive) && match CronJob.NextRunAt j with Some t => t <=? now | None => true end.

(** [ORDER BY next_run_at ASC NULLS FIRST] *)
Definition runs_before (x y : CronJob) : bool :=
  match CronJob.NextRunAt x, CronJob.NextRunAt y with
  | None, Some _ => true
  | Some t, Some u => t <? u
  | _, _ => false
  end.

Definition GetCronJobsDue : db (opsdb W) (list CronJob) :=
  now ← time_now;
  translate "ops: get due cron jobs" (stmt cron_jobs_l (λ _ t, (Ok (sort_slice runs_before (select (due now) t)), t))).

Definition after_run (next : Time) (lastErr : string) (at_ now : Time) (j : CronJob) : CronJob :=
  {| CronJob.ID := CronJob.ID j; CronJob.Name := CronJob.Name j; CronJob.Schedule := CronJob.Schedule j;
     CronJob.Timezone := CronJob.Timezone j; CronJob.JobQueue := CronJob.JobQueue j;
     CronJob.JobType := CronJob.JobType j; CronJob.Payload := CronJob.Payload j;
     CronJob.Status := CronJob.Status j; CronJob.LastRunAt := Some at_; CronJob.NextRunAt := Some next;
     CronJob.LastError := lastErr; CronJob.CorrelationID := CronJob.CorrelationID j;
     CronJob.CreatedAt := CronJob.CreatedAt j; CronJob.UpdatedAt := now |}.

Definition UpdateCronJobAfterRun (id : string) (next : Time) (lastErr : string) : db (opsdb W) unit :=
  at_ ← time_now; now ← time_now;
  translate "ops: update cron after run" (stmt cron_jobs_l (λ _,
    update_row CronJob.ID id (after_run next lastErr at_ now))).

(** The insert has no column for the next run. *)
Definition new_cron_job (id : string) (now : Time) (j : CronJob) : CronJob :=
  {| CronJob.ID := id; CronJob.Name := CronJob.Name j; CronJob.Schedule := CronJob.Schedule j;
     CronJob.Timezone := CronJob.Timezone j; CronJob.JobQueue := CronJob.JobQueue j;
     CronJob.JobType := CronJob.JobType j; CronJob.Payload := or_empty (CronJob.Payload j);
     CronJob.Status := CronJob.Status j; CronJob.LastRunAt := None; CronJob.NextRunAt := None;
     CronJob.LastError := ""; CronJob.CorrelationID := CronJob.CorrelationID j;
     CronJob.CreatedAt := now; CronJob.UpdatedAt := now |}.

Definition merge_cron_job (row old : CronJob) : CronJob :=
  {| CronJob.ID := CronJob.ID old; CronJob.Name := CronJob.Name old; CronJob.Schedule := CronJob.Schedule row;
     CronJob.Timezone := CronJob.Timezone row; CronJob.JobQueue := CronJob.JobQueue row;
     CronJob.JobType := CronJob.JobType row; CronJob.Payload := CronJob.Payload row;
     CronJob.Status := CronJob.Status row; CronJob.LastRunAt := CronJob.LastRunAt old;
     CronJob.NextRunAt := CronJob.NextRunAt old; CronJob.LastError := CronJob.LastError old;
     CronJob.CorrelationID := CronJob.CorrelationID old;
     CronJob.CreatedAt := CronJob.CreatedAt old; CronJob.UpdatedAt := CronJob.UpdatedAt row |}.

Definition named (name : string) (j : CronJob) : bool := CronJob.Name j =s? name.

Definition UpsertCronJob (j : CronJob) : db (opsdb W) CronJob :=
  id ← id_or_new (CronJob.ID j);
  now ← time_now;
  translate "ops: scan cron job" (stmt cron_jobs_l (λ _ t,
    let row := new_cron_job id now j in
    match select (named (CronJob.Name j)) t with
    | old :: _ => (Ok (merge_cron_job row old), update_where (named (CronJob.Name j)) (merge_cron_job row) t)
    | [] => insert_row CronJob.ID row t
    end)).

(** ** The job queue *)

(** [queue.Enqueue] with the identifier and the time it draws. *)
Definition enqueue_job (queue jobType : string) (raw : result error string) (opts : EnqueueOptions)
    : db (opsdb W) Job :=
  id ← new_id;
  now ← time_now;
  zoom job_queue_l (Enqueue id queue jobType raw opts now).

End store.

