(* ===== verification/Billing.v ===== *)
(** * The billing engine (packages/application/ops/billing/engine.go)

    [BillingProvider] is the interface to the payment processor, with
    [NopProvider] as in the code.  The correlation id of the context is the
    argument [ctxCorr]. *)

From S2P Require Import Prelude GoLib Calendar Errors Postgres Sql DeployModel Rows OpsModel OpsStore.

Class BillingProvider (W : Type) := {
  CreateCustomer : string → string → string → W → result error string * W;
  CreateSubscription : string → string → Z → W → result error string * W;
  UpdateSubscription : string → string → bool → W → option error * W;
  CancelSubscription : string → bool → W → option error * W;
  CreateInvoice : string → Z → string → W → result error string * W;
  GetInvoiceStatus : string → W → result error string * W;
}.

Definition NopProvider {W} `{Environment W} : BillingProvider W := {|
  CreateCustomer := λ orgID _ _ w,
    (Ok ("cus_nop_" +:+ (if 8 <? Z.of_nat (String.length orgID) then prefix8 orgID else orgID)), w);
  CreateSubscription := λ _ _ _ w, let '(id, w) := fresh_id w in (Ok ("sub_nop_" +:+ prefix8 id), w);
  UpdateSubscription := λ _ _ _ w, (None, w);
  CancelSubscription := λ _ _ w, (None, w);
  CreateInvoice := λ _ _ _ w, let '(id, w) := fresh_id w in (Ok ("inv_nop_" +:+ prefix8 id), w);
  GetInvoiceStatus := λ _ w, (Ok "paid", w);
|}.

Section engine.
Context {W : Type} `{En : Environment W} `{BP : BillingProvider W} `{D : Driver}.

(** Requests of the payment processor; only charges are traced. *)
Definition ask_provider {A} (op : W → result error A * W) (log : result error A → list outcall)
    : db (opsdb W) A :=
  r ← call op log; of_result r.
Definition tell_provider (op : W → option error * W) : db (opsdb W) unit :=
  e ← call op (λ _, []); refuse e.

Definition nextPeriodEnd (from : Time) (interval : string) : Time :=
  if interval =s? IntervalYearly then AddDate from 1 0 0 else AddDate from 0 1 0.

Definition priceIDFor (plan interval : string) : string := "price_" +:+ plan +:+ "_" +:+ interval.

(** [time.Duration(days) * 24 * time.Hour] *)
Definition days_duration (days : Z) : Duration := wrap64 (wrap64 (days * 24) * Hour).

Definition Subscribe (ctxCorr orgID email name planID interval : string) (trialDays : Z)
    (correlationID : string) : db (opsdb W) Subscription :=
  let correlationID := if correlationID =s? "" then ctxCorr else correlationID in
  customerID ← on_error (wrap_with CodeInternal ("billing: create customer for " +:+ orgID))
                 (ask_provider (CreateCustomer orgID email name) (λ _, []));
  subID ← on_error (wrap_with CodeInternal ("billing: create subscription for " +:+ orgID))
            (ask_provider (CreateSubscription customerID (priceIDFor planID interval) trialDays) (λ _, []));
  now ← time_now;
  let trialing := 0 <? trialDays in
  UpsertSubscription
    {| Subscription.ID := ""; Subscription.OrgID := orgID; Subscription.PlanID := planID;
       Subscription.Status := if trialing then SubStatusTrialing else SubStatusActive;
       Subscription.Interval := interval; Subscription.StripeSubID := subID;
       Subscription.StripeCustomerID := customerID; Subscription.CurrentPeriodStart := now;
       Subscription.CurrentPeriodEnd := nextPeriodEnd now interval;
       Subscription.TrialEndsAt := if trialing then Some (Add now (days_duration trialDays)) else None;
       Subscription.CanceledAt := None; Subscription.GracePeriodEndsAt := None;
       Subscription.CorrelationID := correlationID; Subscription.Metadata := None;
       Subscription.CreatedAt := 0; Subscription.UpdatedAt := 0 |}.

Definition ensureFreeSubscription (orgID correlationID : string) : db (opsdb W) Subscription :=
  now ← time_now;
  UpsertSubscription
    {| Subscription.ID := ""; Subscription.OrgID := orgID; Subscription.PlanID := PlanFree;
       Subscription.Status := SubStatusActive; Subscription.Interval := IntervalMonthly;
       Subscription.StripeSubID := ""; Subscription.StripeCustomerID := "";
       Subscription.CurrentPeriodStart := now; Subscription.CurrentPeriodEnd := nextPeriodEnd now IntervalMonthly;
       Subscription.TrialEndsAt := None; Subscription.CanceledAt := None;
       Subscription.GracePeriodEndsAt := None; Subscription.CorrelationID := correlationID;
       Subscription.Metadata := None; Subscription.CreatedAt := 0; Subscription.UpdatedAt := 0 |}.

(** A subscription with the fields the engine assigns. *)
Definition amended (s : Subscription) (planID status correlationID : string) (start end_ : Time)
    (canceled grace : option Time) : Subscription :=
  {| Subscription.ID := Subscription.ID s; Subscription.OrgID := Subscription.OrgID s;
     Subscription.PlanID := planID; Subscription.Status := status;
     Subscription.Interval := Subscription.Interval s; Subscription.StripeSubID := Subscription.StripeSubID s;
     Subscription.StripeCustomerID := Subscription.StripeCustomerID s;
     Subscription.CurrentPeriodStart := start; Subscription.CurrentPeriodEnd := end_;
     Subscription.TrialEndsAt := Subscription.TrialEndsAt s; Subscription.CanceledAt := canceled;
     Subscription.GracePeriodEndsAt := grace; Subscription.CorrelationID := correlationID;
     Subscription.Metadata := Subscription.Metadata s;
     Subscription.CreatedAt := Subscription.CreatedAt s; Subscription.UpdatedAt := Subscription.UpdatedAt s |}.

Definition ChangePlan (orgID newPlanID correlationID : string) : db (opsdb W) Subscription :=
  found ← attempt (GetSubscription orgID);
  sub ← match found with
        | Ok sub => mret sub
        | Err _ => ensureFreeSubscription orgID correlationID
        end;
  _ ← (if Subscription.StripeSubID sub =s? "" then mret tt
       else on_error (wrap_with CodeInternal ("billing: update subscription for " +:+ orgID))
              (tell_provider (UpdateSubscription (Subscription.StripeSubID sub)
                                (priceIDFor newPlanID (Subscription.Interval sub)) true)));
  UpsertSubscription (amended sub newPlanID (Subscription.Status sub) correlationID
    (Subscription.CurrentPeriodStart sub) (Subscription.CurrentPeriodEnd sub)
    (Subscription.CanceledAt sub) (Subscription.GracePeriodEndsAt sub)).

Definition Cancel (orgID : string) (immediately : bool) (graceDays : Z) (correlationID : string)
    : db (opsdb W) Subscription :=
  sub ← GetSubscription orgID;
  _ ← (if Subscription.StripeSubID sub =s? "" then mret tt
       else on_error (wrap_with CodeInternal ("billing: cancel subscription for " +:+ orgID))
              (tell_provider (CancelSubscription (Subscription.StripeSubID sub) immediately)));
  now ← time_now;
  UpsertSubscription (amended sub (Subscription.PlanID sub)
    (if 0 <? graceDays then SubStatusGracePeriod else SubStatusCanceled) correlationID
    (Subscription.CurrentPeriodStart sub) (Subscription.CurrentPeriodEnd sub) (Some now)
    (if 0 <? graceDays then Some (Add now (days_duration graceDays)) else Subscription.GracePeriodEndsAt sub)).

Definition AddCredit (orgID : string) (amountCents : Z) (reason couponCode correlationID : string)
    : db (opsdb W) Credit :=
  if amountCents <=? 0 then fail_with (New CodeInvalidArgument "billing: credit amount must be positive")
  else Repository_AddCredit
    {| Credit.ID := ""; Credit.OrgID := orgID; Credit.AmountCents := amountCents; Credit.UsedCents := 0;
       Credit.Reason := reason; Credit.CouponCode := couponCode; Credit.ExpiresAt := None;
       Credit.CorrelationID := correlationID; Credit.CreatedAt := 0 |}.

Definition min64 (a b : Z) : Z := if a <? b then a else b.

Definition invoice_total (amountCents applied : Z) : Z :=
  let total := wrap64 (amountCents - applied) in if total <? 0 then 0 else total.

(** [GenerateInvoice] once it knows the credits.  A failed request for an invoice
    of the processor is logged; the identifier is then empty. *)
Definition issue_invoice (orgID : string) (sub : Subscription) (credits amountCents : Z)
    (correlationID : string) : db (opsdb W) Invoice :=
  let applied := min64 credits amountCents in
  let total := invoice_total amountCents applied in
  now ← time_now;
  let due := Add now (30 * 24 * Hour) in
  invID ← (if negb (Subscription.StripeCustomerID sub =s? "") && (0 <? total)
           then r ← call (CreateInvoice (Subscription.StripeCustomerID sub) total
                      ("Agnivo usage " +:+ format_date (Subscription.CurrentPeriodStart sub) +:+ " – "
                       +:+ format_date (Subscription.CurrentPeriodEnd sub)))
                    (λ r, [Charged (Subscription.StripeCustomerID sub) total r]);
                mret match r with Ok id => id | Err _ => "" end
           else mret "");
  InsertInvoice
    {| Invoice.ID := ""; Invoice.OrgID := orgID; Invoice.SubscriptionID := Subscription.ID sub;
       Invoice.Status := InvoicePending; Invoice.PeriodStart := Subscription.CurrentPeriodStart sub;
       Invoice.PeriodEnd := Subscription.CurrentPeriodEnd sub; Invoice.AmountCents := amountCents;
       Invoice.CreditsCents := applied; Invoice.TaxCents := 0; Invoice.TotalCents := total;
       Invoice.Currency := "usd"; Invoice.StripeInvID := invID; Invoice.PaidAt := None;
       Invoice.DueAt := Some due; Invoice.CorrelationID := correlationID; Invoice.Metadata := None;
       Invoice.CreatedAt := 0; Invoice.UpdatedAt := 0 |}.

Definition GenerateInvoice (orgID : string) (amountCents : Z) (correlationID : string)
    : db (opsdb W) Invoice :=
  sub ← GetSubscription orgID;
  credits ← attempt (AvailableCredits orgID);
  issue_invoice orgID sub (match credits with Ok c => c | Err _ => 0 end) amountCents correlationID.

Definition RenewSubscription (sub : Subscription) : db (opsdb W) Subscription :=
  now ← time_now;
  UpsertSubscription (amended sub (Subscription.PlanID sub) SubStatusActive (Subscription.CorrelationID sub)
    now (nextPeriodEnd now (Subscription.Interval sub)) (Subscription.CanceledAt sub)
    (Subscription.GracePeriodEndsAt sub)).

Definition ProcessGraceExpiry (sub : Subscription) (correlationID : string) : db (opsdb W) Subscription :=
  UpsertSubscription (amended sub PlanFree SubStatusCanceled correlationID
    (Subscription.CurrentPeriodStart sub) (Subscription.CurrentPeriodEnd sub)
    (Subscription.CanceledAt sub) (Subscription.GracePeriodEndsAt sub)).
End engine.

(** ** The engine as a state machine *)

Inductive billing_op :=
| OpSubscribe (ctxCorr orgID email name planID interval : string) (trialDays : Z) (correlationID : string)
| OpChangePlan (orgID newPlanID correlationID : string)
| OpCancel (orgID : string) (immediately : bool) (graceDays : Z) (correlationID : string)
| OpAddCredit (orgID : string) (amountCents : Z) (reason couponCode correlationID : string)
| OpGenerateInvoice (orgID : string) (amountCents : Z) (correlationID : string)
| OpRenew (sub : Subscription)
| OpGraceExpiry (sub : Subscription) (correlationID : string).

(** A billing period is a year of the calendar for a yearly subscription, and a
    month for every other: it ends on the same day of the next year or month (as
    [AddDate] normalises it), 365 or 366, or 28 to 31 days later. *)
Definition period_ok (sub : Subscription) : Prop :=
  ∃ n, Subscription.CurrentPeriodEnd sub = Subscription.CurrentPeriodStart sub + n * Day
     ∧ if Subscription.Interval sub =s? IntervalYearly
       then 365 ≤ n ≤ 366 ∧ Subscription.CurrentPeriodEnd sub = AddDate (Subscription.CurrentPeriodStart sub) 1 0 0
       else 28 ≤ n ≤ 31 ∧ Subscription.CurrentPeriodEnd sub = AddDate (Subscription.CurrentPeriodStart sub) 0 1 0.

Definition credit_ok (c : Credit) : Prop := 0 < Credit.AmountCents c ∧ Credit.UsedCents c = 0.

Record billing_ok {W} (s : opsdb W) : Prop := {
  one_per_org : NoDup (Subscription.OrgID <$> subscriptions s);
  plans_known : ∀ sub, sub ∈ subscriptions s → ∃ p, p ∈ plans s ∧ Plan.ID p = Subscription.PlanID sub;
  periods : ∀ sub, sub ∈ subscriptions s → period_ok sub;
  credits_whole : ∀ c, c ∈ credits s → credit_ok c;
}.

Section machine.
Context {W : Type} `{En : Environment W} `{BP : BillingProvider W} `{D : Driver}.

Definition run_billing (o : billing_op) : db (opsdb W) unit :=
  match o with
  | OpSubscribe c org email name plan i days corr => ignore (Subscribe c org email name plan i days corr)
  | OpChangePlan org plan corr => ignore (ChangePlan org plan corr)
  | OpCancel org now days corr => ignore (Cancel org now days corr)
  | OpAddCredit org cents r code corr => ignore (AddCredit org cents r code corr)
  | OpGenerateInvoice org cents corr => ignore (GenerateInvoice org cents corr)
  | OpRenew sub => ignore (RenewSubscription sub)
  | OpGraceExpiry sub corr => ignore (ProcessGraceExpiry sub corr)
  end.

(** Callers pass [ProcessGraceExpiry] a subscription they have read. *)
Definition legit (o : billing_op) : Prop :=
  match o with OpGraceExpiry sub _ => period_ok sub | _ => True end.

Inductive billing_step (s : opsdb W) : opsdb W → Prop :=
| billing_do o fs : legit o → billing_step s (tables_of (run_billing o (s, fs))).

Inductive billing_reachable (s : opsdb W) : opsdb W → Prop :=
| billing_start : billing_reachable s s
| billing_next s' s'' : billing_reachable s s' → billing_step s' s'' → billing_reachable s s''.
End machine.

(** ** Statements *)

Section statements.
Context {W : Type} `{En : Environment W} `{D : Driver}.
Implicit Types (s : opsdb W) (sub : Subscription).

Lemma GetSubscription_wp orgID s :
  wp (GetSubscription orgID)
    (λ sub s', s' = s ∧ sub ∈ subscriptions s ∧ Subscription.OrgID sub = orgID ∧ orgID ≠ "")
    (λ _ s', s' = s) s.
Proof.
  unfold GetSubscription. wp_step. apply wp_stmt; [done|]. simpl.
  apply (wp_with_uuids [orgID] (select_row (sub_of orgID))); [by destruct s|].
  intros Hid. unfold select_row. destruct (select _ _) as [|sub l] eqn:E; [by destruct s|].
  assert (sub ∈ select (sub_of orgID) (subscriptions s)) as [H1 H2]%elem_of_select by (rewrite E; by left).
  split; [by destruct s|]. split; [done|]. split; [by apply String.eqb_eq|apply Hid; by left].
Qed.

(** What an upsert returns is in the table it leaves, with the fields given. *)
Lemma upsert_subscription_spec plans row (t : list Subscription) :
  NoDup (Subscription.OrgID <$> t) →
  match upsert_subscription plans row t with
  | (Ok r, t') =>
      NoDup (Subscription.OrgID <$> t') ∧ (∃ p, p ∈ plans ∧ Plan.ID p = Subscription.PlanID row)
      ∧ r ∈ t' ∧ (r = row ∨ ∃ old, old ∈ t ∧ r = merge_subscription row old)
      ∧ Subscription.OrgID r = Subscription.OrgID row
      ∧ (∀ x, x ∈ t' → x = r ∨ (x ∈ t ∧ Subscription.OrgID x ≠ Subscription.OrgID row))
  | (Err _, t') => t' = t
  end.
Proof.
  intros Hd. unfold upsert_subscription. set (org := Subscription.OrgID row).
  assert (∀ x, x ∈ t → (sub_of org x = true ↔ Subscription.OrgID x = org)) as Hof.
  { intros x _. apply String.eqb_eq. }
  destruct (select (sub_of org) t) as [|old l] eqn:E.
  - unfold insert_row. destruct (matched _ t =? 0); [|done].
    destruct (Z.eqb_spec (matched (λ p, Plan.ID p =s? Subscription.PlanID row) plans) 0) as [|Hp]; [done|].
    assert (∀ x, x ∈ t → Subscription.OrgID x ≠ org) as Hno.
    { intros x Hx Hxo. assert (x ∈ select (sub_of org) t) as Hs by (apply elem_of_select; split; [by apply Hof|done]).
      rewrite E in Hs. by apply elem_of_nil in Hs. }
    split. { rewrite fmap_app. apply NoDup_app. split; [done|]. split; [|by apply NoDup_singleton].
      intros x (y & -> & Hy)%list_elem_of_fmap Ho%list_elem_of_singleton. by apply (Hno y). }
    apply matched_some in Hp as (p & Hp & Hpid%String.eqb_eq). split; [by exists p|].
    split; [set_solver|]. split; [by left|]. split; [done|].
    intros x [Hx|Hx%list_elem_of_singleton]%elem_of_app; [right; eauto|by left].
  - destruct (Z.eqb_spec (matched (λ p, Plan.ID p =s? Subscription.PlanID row) plans) 0) as [|Hp]; [done|].
    assert (old ∈ select (sub_of org) t) as [Hold Ht]%elem_of_select by (rewrite E; by left).
    assert (∀ x, x ∈ t → Subscription.OrgID x = org → x = old) as Huniq.
    { intros x Hx Ho. apply (NoDup_key_eq Subscription.OrgID t); [done..|]. apply Hof in Hold; [congruence|done]. }
    apply Hof in Hold; [|done].
    apply matched_some in Hp as (p & Hp & Hpid%String.eqb_eq).
    split; [by rewrite map_key_update_where|]. split; [by exists p|].
    split. { apply elem_of_update_where. exists old. split; [done|]. by rewrite (proj2 (Hof old Ht) Hold). }
    split; [right; by exists old|]. split; [done|].
    intros x (y & Hy & ->)%elem_of_update_where. destruct (sub_of org y) eqn:Ey.
    + apply Hof in Ey; [|done]. left. by rewrite (Huniq y).
    + right. split; [done|]. intros Ho. apply Hof in Ho; [congruence|done].
Qed.

Lemma nextPeriodEnd_spec sub :
  Subscription.CurrentPeriodEnd sub = nextPeriodEnd (Subscription.CurrentPeriodStart sub) (Subscription.Interval sub) →
  period_ok sub.
Proof.
  unfold period_ok, nextPeriodEnd. intros ->. case_match.
  - destruct (AddDate_year (Subscription.CurrentPeriodStart sub)) as (n & ? & ?). eauto.
  - destruct (AddDate_month (Subscription.CurrentPeriodStart sub)) as (n & ? & ?). eauto.
Qed.

Lemma GetSubscription_period orgID s :
  billing_ok s → wp (GetSubscription orgID) (λ sub s', s' = s ∧ period_ok sub) (λ _ s', s' = s) s.
Proof.
  intros Hok. eapply wp_mono; [apply GetSubscription_wp| |done].
  cbn beta. intros sub s' (-> & Hsub & _). split; [done|]. by apply (periods s).
Qed.

(** An upsert of a subscription with a sound period keeps the tables sound. *)
Lemma UpsertSubscription_ok sub s :
  period_ok sub → billing_ok s →
  wp (UpsertSubscription sub) (λ r s', billing_ok s' ∧ period_ok r) (λ _, billing_ok) s.
Proof.
  intros Hp [H1 H2 H3 H4]. unfold UpsertSubscription. do 2 (wp_step; ops_step). wp_step.
  apply wp_stmt; simpl; [done|].
  apply (wp_with_uuids [Subscription.OrgID sub] (upsert_subscription (plans s) _)); [done|]. intros _.
  pose proof (upsert_subscription_spec (plans s) (new_subscription id t sub) (subscriptions s) H1) as Hu.
  destruct (upsert_subscription _ _ _) as [[r|e] t']; [|by subst].
  destruct Hu as (Hd & Hplan & Hr & Hrow & _ & Hall).
  assert (period_ok r) as Hpr by (destruct Hrow as [->|(old & _ & ->)]; exact Hp).
  assert (Subscription.PlanID r = Subscription.PlanID sub) as Hpid
    by (by destruct Hrow as [->|(old & _ & ->)]).
  split; [|done]. split; simpl; [done| | |done].
  - intros x [->|[Hx _]]%Hall; [|by apply H2]. rewrite Hpid. exact Hplan.
  - intros x [->|[Hx _]]%Hall; [done|by apply H3].
Qed.
End statements.

(** ** Properties *)

Section properties.
Context {W : Type} `{En : Environment W} `{BP : BillingProvider W} `{D : Driver}.
Implicit Types (s : opsdb W).

Lemma same_rows_ok s l w : billing_ok s → billing_ok (set_outcalls l (set_env w s)).
Proof. by intros []. Qed.
Lemma set_env_ok s w : billing_ok s → billing_ok (set_env w s).
Proof. by intros []. Qed.

Lemma AddCredit_ok orgID cents reason code corr s :
  billing_ok s → wp (AddCredit orgID cents reason code corr) (λ _, billing_ok) (λ _, billing_ok) s.
Proof.
  intros [H1 H2 H3 H4]. unfold AddCredit. destruct (Z.leb_spec cents 0); [by wp_step|].
  unfold Repository_AddCredit. do 2 (wp_step; ops_step). wp_step. apply wp_stmt; simpl; [done|].
  apply (wp_with_uuids [orgID] (insert_row Credit.ID _)); [done|]. intros _.
  apply insert_row_elim; [done|]. intros _. split; simpl; try done.
  intros c [Hc|Hc%list_elem_of_singleton]%elem_of_app; [by apply H4|]. by subst.
Qed.

Lemma tell_provider_ok op s :
  billing_ok s → wp (tell_provider op) (λ _, billing_ok) (λ _, billing_ok) s.
Proof.
  intros H. unfold tell_provider. wp_step. ops_step. destruct a; cbn [refuse]; wp_step; by apply same_rows_ok.
Qed.

Lemma ask_provider_ok {A} (op : W → result error A * W) log s :
  billing_ok s → wp (ask_provider op log) (λ _, billing_ok) (λ _, billing_ok) s.
Proof.
  intros H. unfold ask_provider. wp_step. ops_step. wp_step. destruct a; by apply same_rows_ok.
Qed.

(** The credits an amount may be reduced by: none, or all the usable ones up to
    the amount. *)
Definition applicable (orgID : string) (amount : Z) (s : opsdb W) (credits_cents : Z) : Prop :=
  0 ≤ credits_cents ≤ amount
  ∧ (credits_cents = 0 ∨ ∃ now, credits_cents = Z.min (total left_cents (select (usable orgID now) (credits s))) amount).

(** The payment processor was asked for nothing, or for one payment of [sum] by
    the organization's customer. *)
Definition asked_at_most (orgID : string) (sum : Z) (s s' : opsdb W) : Prop :=
  outcalls s' = outcalls s
  ∨ ∃ sub r, sub ∈ subscriptions s ∧ Subscription.OrgID sub = orgID
      ∧ outcalls s' = outcalls s ++ [Charged (Subscription.StripeCustomerID sub) sum r].

(** What an invoice says, whatever fails while it is made. *)
Definition invoiced (orgID : string) (amount : Z) (s : opsdb W) (inv : Invoice) (s' : opsdb W) : Prop :=
  invoices s' = invoices s ++ [inv]
  ∧ (∃ sub, sub ∈ subscriptions s ∧ Subscription.OrgID sub = orgID
      ∧ Invoice.SubscriptionID inv = Subscription.ID sub
      ∧ Invoice.PeriodStart inv = Subscription.CurrentPeriodStart sub
      ∧ Invoice.PeriodEnd inv = Subscription.CurrentPeriodEnd sub)
  ∧ Invoice.OrgID inv = orgID ∧ Invoice.AmountCents inv = amount
  ∧ applicable orgID amount s (Invoice.CreditsCents inv)
  ∧ 0 ≤ Invoice.TotalCents inv ∧ Invoice.CreditsCents inv + Invoice.TotalCents inv = amount
  ∧ asked_at_most orgID (Invoice.TotalCents inv) s s'.

(** No invoice is recorded, though the processor may have been asked. *)
Definition not_invoiced (orgID : string) (amount : Z) (s s' : opsdb W) : Prop :=
  invoices s' = invoices s ∧ ∃ applied, applicable orgID amount s applied ∧ asked_at_most orgID (amount - applied) s s'.

(** The tables the invoice is computed from. *)
Definition same_accounts (s s' : opsdb W) : Prop :=
  plans s' = plans s ∧ subscriptions s' = subscriptions s ∧ credits s' = credits s.

Lemma AvailableCredits_wp orgID s :
  billing_ok s →
  wp (AvailableCredits orgID)
    (λ n s', (∃ w, s' = set_env w s) ∧ 0 ≤ n ≤ int64_max
             ∧ ∃ now, n = total left_cents (select (usable orgID now) (credits s)))
    (λ _ s', ∃ w, s' = set_env w s) s.
Proof.
  intros [_ _ _ Hc]. unfold AvailableCredits. wp_step. ops_step. wp_step. apply wp_stmt; simpl; [by eexists|].
  apply (wp_with_uuids [orgID] (λ l : list Credit, _)); [by eexists|]. intros _. cbn beta.
  set (sum := total left_cents _).
  assert (0 ≤ sum) as Hsum.
  { apply total_nonneg. intros c [_ Hc']%elem_of_select. destruct (Hc c Hc'). unfold left_cents. lia. }
  destruct ((int64_min <=? sum) && (sum <=? int64_max)) eqn:E; [|by eexists].
  bool_to_prop. split; [by exists w|]. split; [done|]. by exists t.
Qed.

Lemma min64_spec a b : min64 a b = Z.min a b.
Proof. unfold min64. destruct (Z.ltb_spec a b); lia. Qed.

Lemma invoice_total_spec amount applied :
  0 ≤ applied ≤ amount → amount ≤ int64_max → invoice_total amount applied = amount - applied.
Proof.
  intros H1 H2. unfold invoice_total. rewrite wrap64_in_range.
  - case_match; bool_to_prop; lia.
  - unfold in_int64, int64_min, int64_max in *. lia.
Qed.

Lemma InsertInvoice_wp inv s :
  wp (InsertInvoice inv)
    (λ r s', (∃ id now w, r = new_invoice id now inv ∧ s' = set_invoices (invoices s ++ [r]) (set_env w s)))
    (λ _ s', ∃ w, s' = set_env w s) s.
Proof.
  unfold InsertInvoice. wp_step. ops_step. wp_step. ops_step. wp_step. apply wp_stmt; simpl; [by exists w0|].
  apply (wp_with_uuids [Invoice.OrgID inv; Invoice.SubscriptionID inv] (insert_row Invoice.ID _));
    [by exists w0|]. intros _.
  apply insert_row_elim; [by exists w0|]. intros _. by exists id, t, w0.
Qed.

Lemma issue_invoice_wp orgID sub credit amount corr s :
  sub ∈ subscriptions s → Subscription.OrgID sub = orgID → 0 ≤ amount ≤ int64_max →
  0 ≤ credit → (credit = 0 ∨ ∃ now, credit = total left_cents (select (usable orgID now) (credits s))) →
  wp (issue_invoice orgID sub credit amount corr)
    (λ inv s', invoiced orgID amount s inv s' ∧ same_accounts s s')
    (λ _ s', not_invoiced orgID amount s s' ∧ same_accounts s s') s.
Proof.
  intros Hsub Horg Ha Hc Hnow. unfold issue_invoice. rewrite min64_spec.
  set (applied := Z.min credit amount). assert (applicable orgID amount s applied) as Happ.
  { split; [lia|]. destruct Hnow as [->|[n ->]]; [left; lia|right; by exists n]. }
  rewrite (invoice_total_spec amount applied) by (destruct Happ; lia).
  wp_step. ops_step. wp_step.
  apply wp_mono with (Q := λ _ s', same_accounts s s' ∧ invoices s' = invoices s ∧ asked_at_most orgID (amount - applied) s s')
    (E := λ _ s', not_invoiced orgID amount s s' ∧ same_accounts s s'); [| |done].
  { destruct (_ && _); [|by wp_step; split_and!; [..|left]].
    wp_step. ops_step. wp_step. split_and!; simpl; [done..|]. right. by eexists sub, _. }
  cbn beta. intros invID s1 (Hs1 & Hinv & Hsent).
  eapply wp_mono; [apply InsertInvoice_wp| |].
  - cbn beta. intros inv s' (id & now & w' & -> & ->). split; [|done].
    unfold invoiced. simpl. rewrite Hinv. split_and!; try done; try (destruct Happ; lia). by exists sub.
  - cbn beta. intros e s' [w' ->]. split; [|done]. split; [done|]. by exists applied.
Qed.

Lemma GenerateInvoice_wp orgID amount corr s :
  billing_ok s → 0 ≤ amount ≤ int64_max →
  wp (GenerateInvoice orgID amount corr)
    (λ inv s', invoiced orgID amount s inv s' ∧ same_accounts s s')
    (λ _ s', not_invoiced orgID amount s s' ∧ same_accounts s s') s.
Proof.
  intros Hok Ha. unfold GenerateInvoice. wp_step.
  assert (not_invoiced orgID amount s s) as Hs by (split; [done|]; exists 0; split; [split; [lia|by left]|by left]).
  eapply wp_mono; [apply GetSubscription_wp| |by intros ? ? ->]. cbn beta. intros sub ? (-> & Hsub & Horg & _).
  wp_step. wp_step. eapply wp_mono; [by apply AvailableCredits_wp| |]; cbn beta.
  - intros n s' ([w ->] & Hn & Hnow). apply (issue_invoice_wp _ _ _ _ _ (set_env w s)); simpl; auto; lia.
  - intros e s' [w ->]. apply (issue_invoice_wp _ _ _ _ _ (set_env w s)); simpl; auto; lia.
Qed.

Lemma reads_sound orgID : preserves (S := opsdb W) billing_ok (GetSubscription orgID).
Proof. apply preserves_wp. intros s Hs. eapply wp_mono; [apply GetSubscription_wp|..]; [by intros ? ? [-> _]|by intros ? ? ->]. Qed.

Lemma GenerateInvoice_sound orgID amount corr : preserves (S := opsdb W) billing_ok (GenerateInvoice orgID amount corr).
Proof.
  unfold GenerateInvoice, issue_invoice, InsertInvoice, AvailableCredits.
  keeps same_rows_ok; first [apply reads_sound|apply preserves_stmt; intros s Hs].
  - simpl. apply (wp_with_uuids [orgID] (λ l : list Credit, _)); [by destruct s|]. intros _. cbn beta.
    by case_match; destruct s.
  - simpl. apply (wp_with_uuids _ (insert_row Invoice.ID _)); [by destruct s, Hs|]. intros _.
    apply insert_row_elim; intros; by destruct s, Hs.
Qed.

(** Changing a subscription that was read. *)
Lemma amend_ok sub plan status corr canceled grace s :
  period_ok sub → billing_ok s →
  wp (UpsertSubscription (amended sub plan status corr (Subscription.CurrentPeriodStart sub)
        (Subscription.CurrentPeriodEnd sub) canceled grace)) (λ _, billing_ok) (λ _, billing_ok) s.
Proof.
  intros Hp Hs. eapply wp_mono; [by apply UpsertSubscription_ok| |done]. by intros r s' [].
Qed.

Lemma ensureFreeSubscription_ok orgID corr s :
  billing_ok s → wp (ensureFreeSubscription orgID corr) (λ r s', billing_ok s' ∧ period_ok r) (λ _, billing_ok) s.
Proof.
  intros Hs. unfold ensureFreeSubscription. wp_step. ops_step.
  apply UpsertSubscription_ok; [by apply nextPeriodEnd_spec|by apply set_env_ok].
Qed.

Lemma ChangePlan_ok orgID plan corr s :
  billing_ok s → wp (ChangePlan orgID plan corr) (λ _, billing_ok) (λ _, billing_ok) s.
Proof.
  intros Hs. unfold ChangePlan. wp_step. wp_step.
  assert (∀ sub s', billing_ok s' → period_ok sub → wp
    (_ ← (if Subscription.StripeSubID sub =s? "" then mret tt
       else on_error (wrap_with CodeInternal ("billing: update subscription for " +:+ orgID))
              (tell_provider (UpdateSubscription (Subscription.StripeSubID sub)
                                (priceIDFor plan (Subscription.Interval sub)) true)));
     UpsertSubscription (amended sub plan (Subscription.Status sub) corr
       (Subscription.CurrentPeriodStart sub) (Subscription.CurrentPeriodEnd sub)
       (Subscription.CanceledAt sub) (Subscription.GracePeriodEndsAt sub))) (λ _, billing_ok) (λ _, billing_ok) s') as Hrest.
  { intros sub s' Hs' Hp. wp_step. apply wp_mono with (Q := λ _, billing_ok) (E := λ _, billing_ok); [| |done].
    - destruct (_ =s? _); [by wp_step|]. wp_step. by apply tell_provider_ok.
    - intros _ s2 Hs2. by apply amend_ok. }
  eapply wp_mono; [by apply GetSubscription_period| |]; cbn beta.
  - intros sub ? [-> Hp]. wp_step. wp_step. by apply Hrest.
  - intros e ? ->. wp_step. eapply wp_mono; [by apply ensureFreeSubscription_ok| |done].
    cbn beta. intros sub s' []. by apply Hrest.
Qed.

Lemma Cancel_ok orgID im days corr s :
  billing_ok s → wp (Cancel orgID im days corr) (λ _, billing_ok) (λ _, billing_ok) s.
Proof.
  intros Hs. unfold Cancel. wp_step. eapply wp_mono; [by apply GetSubscription_period| |by intros ? ? ->].
  cbn beta. intros sub ? [-> Hp]. wp_step.
  apply wp_mono with (Q := λ _, billing_ok) (E := λ _, billing_ok); [| |done].
  - destruct (_ =s? _); [by wp_step|]. wp_step. by apply tell_provider_ok.
  - intros _ s2 Hs2. wp_step. ops_step. apply amend_ok; [done|by apply set_env_ok].
Qed.

Lemma Subscribe_ok c orgID email name plan interval days corr s :
  billing_ok s → wp (Subscribe c orgID email name plan interval days corr) (λ _, billing_ok) (λ _, billing_ok) s.
Proof.
  intros Hs. unfold Subscribe. wp_step. wp_step.
  eapply wp_mono; [by apply ask_provider_ok| |done]. intros customer s1 Hs1. cbn beta. wp_step. wp_step.
  eapply wp_mono; [by apply ask_provider_ok| |done]. intros subID s2 Hs2. cbn beta. wp_step. ops_step.
  eapply wp_mono; [apply UpsertSubscription_ok| |done].
  - by apply nextPeriodEnd_spec.
  - by apply set_env_ok.
  - by intros r s' [].
Qed.

Lemma run_billing_ok o s :
  legit o → billing_ok s → wp (run_billing o) (λ _, billing_ok) (λ _, billing_ok) s.
Proof.
  intros Hl Hok. unfold run_billing.
  destruct o as [c org email name plan i days corr|org plan corr|org im days corr|org cents r code corr
    |org cents corr|sub|sub corr]; wp_step.
  - by apply Subscribe_ok.
  - by apply ChangePlan_ok.
  - by apply Cancel_ok.
  - by apply AddCredit_ok.
  - by apply wp_preserves; [apply GenerateInvoice_sound|].
  - unfold RenewSubscription. wp_step. ops_step. eapply wp_mono; [apply UpsertSubscription_ok| |done].
    + by apply nextPeriodEnd_spec.
    + by apply set_env_ok.
    + by intros r s' [].
  - by apply amend_ok.
Qed.

Lemma billing_reachable_ok s s' : billing_ok s → billing_reachable s s' → billing_ok s'.
Proof.
  intros Hs. induction 1 as [|s1 s2 _ IH [o fs Hl]]; [done|]. apply wp_tables. by apply run_billing_ok.
Qed.

(** C29: the accounts stay sound.  Whatever the engine is asked to do, in any
    order and whichever statements or requests to the payment processor fail
    (where [ProcessGraceExpiry] is handed a subscription with a sound period, as
    the caller has read it), an organization has at most one subscription, on a
    known plan, whose period is a calendar year if it is yearly and a calendar
    month if not, and a credit keeps all its cents: nothing in the program ever
    uses one up. *)
Theorem billing_invariant s s' : billing_ok s → billing_reachable s s' → billing_ok s'.
Proof. apply billing_reachable_ok. Qed.

(** C30: the amounts of an invoice.  For an amount of at least 0 cents that a Go
    [int64] holds and whatever fails, an invoice is recorded completely or not at all; it is for
    the organization's subscription and its period; credits and total are not
    negative and add up to the amount; the credits are all the usable ones up to
    the amount (or 0, when they cannot be read); whether it is recorded or not,
    the payment processor is asked for at most one payment, by the
    organization's customer, of exactly the total; and neither subscription nor
    credits change, so the next invoice subtracts the same credits again. *)
Theorem GenerateInvoice_amounts orgID amount corr s :
  billing_ok s → 0 ≤ amount ≤ int64_max →
  wp (GenerateInvoice orgID amount corr)
    (λ inv s', invoiced orgID amount s inv s' ∧ same_accounts s s')
    (λ _ s', not_invoiced orgID amount s s' ∧ same_accounts s s') s.
Proof. apply GenerateInvoice_wp. Qed.
End properties.

(** ** Concrete runs *)

Section examples.
#[local] Existing Instance sim_environment.
#[local] Existing Instance strict_driver.
#[local] Instance nop : BillingProvider sim := NopProvider.

Definition june : Time := Date 2026 6 1 0.

(** An organization on the plan pro, with a credit of 5 dollars. *)
Definition subscribe_pro := OpSubscribe "corr" "org" "a@b.c" "Org" PlanPro IntervalMonthly 0 "".
Definition grant_credit := OpAddCredit "org" 500 "welcome" "" "".
Definition subscribed : opsdb sim := tables_of (run_billing subscribe_pro (ops_start june, [])).
Definition pro_customer : opsdb sim := tables_of (run_billing grant_credit (subscribed, [])).

Lemma ops_start_ok now : billing_ok (ops_start now).
Proof. split; simpl; [constructor|..]; by intros x ?%elem_of_nil. Qed.

Lemma pro_customer_reachable : billing_reachable (ops_start june) pro_customer.
Proof.
  apply (billing_next _ subscribed _).
  - apply (billing_next _ (ops_start june) _ (billing_start _)). exact (billing_do _ subscribe_pro [] I).
  - exact (billing_do _ grant_credit [] I).
Qed.

(** Every invoice subtracts the whole credit again. *)
Example credits_reused :
  (λ i, (Invoice.AmountCents i, Invoice.CreditsCents i, Invoice.TotalCents i)) <$>
    invoices (tables_of ((_ ← GenerateInvoice "org" 2000 ""; GenerateInvoice "org" 2000 "")
                           (pro_customer, [])))
  = [(2000, 500, 1500); (2000, 500, 1500)].
Proof. vm_compute. reflexivity. Qed.

(** A negative amount is not refused: it is stored with negative credits. *)
Example negative_amount_negative_credits :
  (λ i, (Invoice.AmountCents i, Invoice.CreditsCents i, Invoice.TotalCents i)) <$>
    invoices (tables_of (GenerateInvoice "org" (-100) "" (pro_customer, []))) = [(-100, -100, 0)].
Proof. vm_compute. reflexivity. Qed.

(** When the subscription cannot be read, changing the plan replaces it: the
    identifiers of the payment processor are lost. *)
Example unread_subscription_replaced :
  (λ s, (Subscription.PlanID s, Subscription.StripeCustomerID s)) <$>
    subscriptions (tables_of (ChangePlan "org" PlanTeam "" (pro_customer, [Some (Plain "connection reset")])))
  = [(PlanTeam, "")].
Proof. vm_compute. reflexivity. Qed.

Lemma billing_invariant_witness :
  Subscription.CurrentPeriodEnd <$> subscriptions pro_customer = [june + 30 * Day] ∧ billing_ok pro_customer.
Proof.
  split; [vm_compute; reflexivity|].
  exact (billing_invariant (ops_start june) pro_customer (ops_start_ok june) pro_customer_reachable).
Defined.

Lemma GenerateInvoice_amounts_witness :
  match GenerateInvoice "org" 2000 "" (pro_customer, []) with
  | (Ok inv, _) => Invoice.TotalCents inv = 1500
  | _ => False
  end
  ∧ wp (GenerateInvoice "org" 2000 "")
      (λ inv s', invoiced "org" 2000 pro_customer inv s' ∧ same_accounts pro_customer s')
      (λ _ s', not_invoiced "org" 2000 pro_customer s' ∧ same_accounts pro_customer s') pro_customer.
Proof.
  split; [vm_compute; reflexivity|]. apply GenerateInvoice_amounts; [|by vm_compute].
  exact (billing_reachable_ok (ops_start june) pro_customer (ops_start_ok june) pro_customer_reachable).
Defined.
End examples.
