(* ===== verification/Notify.v ===== *)
(** * Notifications (packages/application/ops/notification/dispatcher.go)

    The transports call [Mailer], the parts of net/smtp and net/http they use;
    what reaches it is traced. *)

From stdpp Require Import pretty.
From S2P Require Import Prelude GoLib Errors Postgres Sql Jobs DeployModel Rows OpsModel OpsStore.

(** [smtp.SendMail(addr, auth, from, to, message)] with a user name and password, [http.NewRequest] on a URL,
    and [Do] of a POST: the status code of the response. *)
Class Mailer (W : Type) := {
  SendMail : string → string * string → string → list string → string → W → option error * W;
  NewRequest : string → option error;
  Post : string → string → W → result error Z * W;
}.

Record SMTPConfig := { Host : string; Port : Z; Username : string; Password : string; From : string }.

(** A line break of a mail header. *)
Definition CRLF : string := String (Ascii.ascii_of_nat 13) (String (Ascii.ascii_of_nat 10) EmptyString).

Section dispatcher.
Context {W : Type} `{En : Environment W} `{M : Mailer W} `{D : Driver} `{So : Sorter} `{J : Jsonb}.
Context (smtpCfg : SMTPConfig).

Definition Sender : Type := Notification → db (opsdb W) unit.

Definition smtp_Send : Sender := λ n,
  if Host smtpCfg =s? "" then
    fail_with (New CodeFailedPrecond "notification: SMTP host not configured")
  else
    let addr := Host smtpCfg +:+ ":" +:+ pretty (Port smtpCfg) in
    let body := "To: " +:+ Notification.Recipient n +:+ CRLF +:+ "Subject: " +:+ Notification.Subject n
                +:+ CRLF +:+ CRLF +:+ Notification.Body n in
    r ← call (SendMail addr (Username smtpCfg, Password smtpCfg) (From smtpCfg) [Notification.Recipient n] body) (λ r, [Mailed n r]);
    refuse r.

Definition webhook_Send : Sender := λ n,
  if Notification.Recipient n =s? "" then
    fail_with (New CodeInvalidArgument "notification: webhook URL (recipient) required")
  else
    let data := json_object [("text", VString (Notification.Body n)); ("event_type", VString (Notification.EventType n));
                             ("org_id", VString (Notification.OrgID n))] in
    _ ← on_error (wrap_with CodeInternal "notification: build webhook request")
          (refuse (NewRequest (Notification.Recipient n)));
    code ← on_error (wrap_with CodeUnavailable "notification: webhook request failed")
             (r ← call (Post (Notification.Recipient n) data) (λ r, [Posted n r]); of_result r);
    if 400 <=? code then
      fail_with (New CodeInternal ("notification: webhook returned " +:+ pretty code))
    else mret tt.

Definition nop_Send : Sender := λ _, mret tt.

(** [d.senders[channel]] *)
Definition senders (channel : string) : option Sender :=
  if channel =s? ChannelEmail then Some smtp_Send
  else if (channel =s? ChannelSlack) || (channel =s? ChannelDiscord) || (channel =s? ChannelWebhook)
       then Some webhook_Send
  else if channel =s? ChannelInApp then Some nop_Send
  else None.

Definition Dispatcher_Enqueue (n : Notification) : db (opsdb W) Notification := InsertNotification n.

(** A failed delivery is recorded; the result is then the one of recording it. *)
Definition send_and_mark (n : Notification) (sender : Sender) : db (opsdb W) unit :=
  sent ← attempt (sender n);
  match sent with
  | Err e => MarkNotificationFailed (Notification.ID n) (ErrorString e)
  | Ok _ => MarkNotificationDelivered (Notification.ID n)
  end.

Definition Deliver (notificationID : string) : db (opsdb W) unit :=
  n ← GetNotification notificationID;
  if Notification.Status n =s? NotifDelivered then mret tt
  else match senders (Notification.Channel n) with
  | None => fail_with (New CodeFailedPrecond ("notification: no sender for channel " +:+ Notification.Channel n))
  | Some sender => send_and_mark n sender
  end.

Fixpoint deliver_all (ns : list Notification) (delivered failed : Z) : db (opsdb W) (Z * Z) :=
  match ns with
  | [] => mret (delivered, failed)
  | n :: ns =>
      r ← attempt (Deliver (Notification.ID n));
      match r with
      | Err _ => deliver_all ns delivered (failed + 1)
      | Ok _ => deliver_all ns (delivered + 1) failed
      end
  end.

Definition DrainPending (limit : Z) : db (opsdb W) (Z * Z) :=
  ns ← ListPendingNotifications limit;
  deliver_all ns 0 0.
End dispatcher.

(** ** The builders *)

Definition email (orgID userID projectID eventType subject body recipient corrID : string) : Notification :=
  {| Notification.ID := ""; Notification.OrgID := orgID; Notification.UserID := userID;
     Notification.ProjectID := projectID; Notification.Channel := ChannelEmail;
     Notification.EventType := eventType; Notification.Subject := subject; Notification.Body := body;
     Notification.Recipient := recipient; Notification.Status := ""; Notification.Attempts := 0;
     Notification.LastAttemptAt := None; Notification.DeliveredAt := None; Notification.FailureReason := "";
     Notification.CorrelationID := corrID; Notification.Metadata := None;
     Notification.CreatedAt := 0; Notification.UpdatedAt := 0 |}.

Definition DeploymentSuccess (orgID userID projectID deploymentID recipient corrID : string) : Notification :=
  email orgID userID projectID "deployment.success" "Deployment succeeded"
    ("Deployment " +:+ deploymentID +:+ " completed successfully.") recipient corrID.

Definition DeploymentFailure (orgID userID projectID deploymentID reason recipient corrID : string) : Notification :=
  email orgID userID projectID "deployment.failure" "Deployment failed"
    ("Deployment " +:+ deploymentID +:+ " failed: " +:+ reason) recipient corrID.

(** [fixed n x] is the text of [x] with [n] decimals ([%.nf]). *)
Definition QuotaWarning (fixed : nat → f64 → string) (orgID recipient dim : string) (pct : f64) (corrID : string)
    : Notification :=
  email orgID "" "" "quota.warning" ("Usage warning: " +:+ dim +:+ " at " +:+ fixed 0%nat pct +:+ "%")
    ("Your " +:+ dim +:+ " usage has reached " +:+ fixed 1%nat pct +:+ "% of your plan limit.") recipient corrID.

Definition SSLExpiring (orgID hostname recipient corrID : string) (daysLeft : Z) : Notification :=
  email orgID "" "" "ssl.expiring" ("SSL certificate expiring soon: " +:+ hostname)
    ("The SSL certificate for " +:+ hostname +:+ " will expire in " +:+ pretty daysLeft +:+ " days.") recipient corrID.

(** ** The dispatcher as a state machine *)

Inductive notify_op :=
| OpNotify (n : Notification)
| OpDeliver (id : string)
| OpDrain (limit : Z).

Section machine.
Context {W : Type} `{En : Environment W} `{M : Mailer W} `{D : Driver} `{So : Sorter} `{J : Jsonb}.
Context (smtpCfg : SMTPConfig).

Definition run_notify (o : notify_op) : db (opsdb W) unit :=
  match o with
  | OpNotify n => ignore (Dispatcher_Enqueue n)
  | OpDeliver id => ignore (Deliver smtpCfg id)
  | OpDrain limit => ignore (DrainPending smtpCfg limit)
  end.

Inductive notify_reachable (s : opsdb W) : opsdb W → Prop :=
| notify_start : notify_reachable s s
| notify_next s' o fs : notify_reachable s s' → notify_reachable s (tables_of (run_notify o (s', fs))).
End machine.

(** The notification a request to the world is about. *)
Definition about (c : outcall) : option string :=
  match c with
  | Mailed n _ | Posted n _ => Some (Notification.ID n)
  | _ => None
  end.

(** The notification [id] is delivered, and none of the requests [l] is about it. *)
Definition settled (id : string) (before : list outcall) {W} (s : opsdb W) : Prop :=
  (∃ n, n ∈ notifications s ∧ Notification.ID n = id)
  ∧ (∀ n, n ∈ notifications s → Notification.ID n = id → Notification.Status n = NotifDelivered)
  ∧ ∃ l, outcalls s = before ++ l ∧ ∀ c, c ∈ l → about c ≠ Some id.

(** ** Delivery *)

Section delivery.
Context {W : Type} `{En : Environment W} `{M : Mailer W} `{D : Driver} `{So : Sorter} `{J : Jsonb}.
Context (smtpCfg : SMTPConfig).
Implicit Types (s : opsdb W).

Lemma GetNotification_wp id s :
  wp (GetNotification id)
    (λ n s', s' = s ∧ n ∈ notifications s ∧ Notification.ID n = id) (λ _ s', s' = s) s.
Proof.
  unfold GetNotification. wp_step. apply wp_stmt; [done|]. simpl.
  apply (wp_with_uuids [id] (select_row (has_notification id))); [by destruct s|]. intros _.
  apply select_row_elim; [by destruct s|]. intros n Hn He%String.eqb_eq. by destruct s.
Qed.

Section settled.
Context (id : string) (before : list outcall).
Implicit Types (n : Notification).

Lemma settled_env s w : settled id before s → settled id before (set_env w s).
Proof. done. Qed.

Lemma settled_call {A} (op : W → A * W) (log : A → list outcall) s :
  (∀ a c, c ∈ log a → about c ≠ Some id) → settled id before s →
  wp (call op log) (λ _, settled id before) (λ _, settled id before) s.
Proof.
  intros Hlog (Hex & Hall & l & Hl & Habout). ops_step. split; [done|]. split; [done|].
  exists (l ++ log a). simpl. rewrite Hl, app_assoc. split; [done|].
  intros c [Hc|Hc]%elem_of_app; [by apply Habout|by apply (Hlog a)].
Qed.

Lemma settled_mark id' f s :
  id' ≠ id → (∀ n, Notification.ID (f n) = Notification.ID n) → settled id before s →
  settled id before (set_notifications (update_where (λ n, Notification.ID n =s? id') f (notifications s)) s).
Proof.
  intros Hne Hf ((n & Hn & Hid) & Hall & Hl).
  assert (∀ m, Notification.ID m = id → (Notification.ID m =s? id') = false) as Hother.
  { intros m Hm. apply String.eqb_neq. congruence. }
  split; [|split; [|done]]; simpl.
  - exists n. split; [|done]. apply elem_of_update_where. exists n. split; [done|]. by rewrite Hother.
  - intros m (m' & Hm' & ->)%elem_of_update_where. destruct (Notification.ID m' =s? id') eqn:E.
    + rewrite Hf. intros Hid'. by rewrite Hother in E.
    + by apply Hall.
Qed.

Lemma settled_mark_stmt id' f s :
  id' ≠ id → (∀ n, Notification.ID (f n) = Notification.ID n) → settled id before s →
  wp (stmt notifications_l (λ _, update_row Notification.ID id' f))
    (λ _, settled id before) (λ _, settled id before) s.
Proof.
  intros Hne Hf Hs. apply wp_stmt; [done|]. cbn beta. simpl.
  apply update_row_elim; [by destruct s|by apply settled_mark].
Qed.

Lemma settled_mail n s :
  Notification.ID n ≠ id → settled id before s →
  wp (smtp_Send smtpCfg n) (λ _, settled id before) (λ _, settled id before) s.
Proof.
  intros Hne Hs. unfold smtp_Send. case_match; [by wp_step|]. wp_step.
  eapply wp_mono; [apply settled_call; [|done]| |done].
  - intros a c ->%list_elem_of_singleton. simpl. congruence.
  - intros r s' Hs'. cbn beta. destruct r; cbn [refuse]; by wp_step.
Qed.

Lemma settled_post n s :
  Notification.ID n ≠ id → settled id before s →
  wp (webhook_Send n) (λ _, settled id before) (λ _, settled id before) s.
Proof.
  intros Hne Hs. unfold webhook_Send. case_match; [by wp_step|]. wp_step. wp_step.
  destruct (NewRequest _); cbn [refuse]; [by wp_step|]. wp_step. wp_step. wp_step. wp_step.
  eapply wp_mono; [apply settled_call; [|done]| |done].
  - intros a c ->%list_elem_of_singleton. simpl. congruence.
  - intros r s' Hs'. cbn beta. wp_step. destruct r; [|done]. case_match; by wp_step.
Qed.

Lemma settled_send n sender s :
  senders smtpCfg (Notification.Channel n) = Some sender → Notification.ID n ≠ id → settled id before s →
  wp (sender n) (λ _, settled id before) (λ _, settled id before) s.
Proof.
  unfold senders. intros H Hne Hs. repeat case_match; simplify_eq.
  - by apply settled_mail.
  - by apply settled_post.
  - by apply wp_ret.
Qed.

Lemma settled_Deliver id' s :
  settled id before s →
  wp (Deliver smtpCfg id') (λ _, settled id before) (λ _, settled id before) s.
Proof.
  intros Hs. unfold Deliver. wp_step. eapply wp_mono; [apply GetNotification_wp| |by intros ? ? ->].
  cbn beta. intros n ? (-> & Hn & Hid).
  destruct (Notification.Status n =s? NotifDelivered) eqn:E; [by wp_step|]. apply String.eqb_neq in E.
  assert (id' ≠ id) as Hne. { intros ->. destruct Hs as (_ & Hall & _). by specialize (Hall n Hn Hid). }
  destruct (senders _ _) as [sender|] eqn:Es; [|by wp_step].
  unfold send_and_mark, MarkNotificationDelivered, MarkNotificationFailed. wp_step. wp_step.
  eapply wp_mono; [apply (settled_send n sender); [done|by rewrite Hid|done]|..]; cbn beta.
  - intros _ s' Hs'. wp_step. ops_step. wp_step. ops_step. wp_step. apply settled_mark_stmt; [by rewrite Hid|done..].
  - intros e s' Hs'. wp_step. ops_step. wp_step. ops_step. wp_step. apply settled_mark_stmt; [by rewrite Hid|done..].
Qed.

Lemma settled_deliver_all ns : ∀ d f s,
  settled id before s →
  wp (deliver_all smtpCfg ns d f) (λ _, settled id before) (λ _, settled id before) s.
Proof.
  induction ns as [|n ns IH]; intros d f s Hs; simpl; [by wp_step|]. wp_step. wp_step.
  eapply wp_mono; [by apply settled_Deliver|..]; cbn beta; intros; by apply IH.
Qed.

Lemma settled_run o s :
  settled id before s → wp (run_notify smtpCfg o) (λ _, settled id before) (λ _, settled id before) s.
Proof.
  intros Hs. destruct o as [n|id'|limit]; cbn [run_notify]; wp_step.
  - unfold Dispatcher_Enqueue, InsertNotification. wp_step. ops_step. wp_step. ops_step. wp_step.
    apply wp_stmt; [done|]. cbn beta. simpl.
    apply (wp_with_uuids _ (insert_row Notification.ID _)); [done|]. intros _.
    apply insert_row_elim; [done|]. intros Hnew. simpl in Hnew.
    destruct Hs as ((m & Hm & Hid) & Hall & Hl). split; [|split; [|done]]; simpl.
    + exists m. split; [by apply elem_of_app; left|done].
    + intros x [Hx|Hx%list_elem_of_singleton]%elem_of_app; [by apply Hall|]. subst x. simpl. intros ->.
      by destruct (Hnew m Hm).
  - by apply settled_Deliver.
  - unfold DrainPending, ListPendingNotifications. wp_step. wp_step. apply wp_stmt; [done|]. cbn beta. simpl.
    destruct (limit_rows _ _); [|by destruct s]. apply settled_deliver_all. by destruct s.
Qed.

Lemma settled_reachable s s' :
  settled id before s → notify_reachable smtpCfg s s' → settled id before s'.
Proof. intros Hs. induction 1 as [|s1 o fs _ IH]; [done|]. apply wp_tables. by apply settled_run. Qed.
End settled.

(** C32: a delivered notification is never sent again.  Whatever is enqueued,
    delivered or drained afterwards, in any order and whichever statements or
    transports fail, no mail or webhook request is made for it, and it stays
    delivered. *)
Theorem delivered_never_resent s s' n :
  n ∈ notifications s → Notification.Status n = NotifDelivered → NoDup (Notification.ID <$> notifications s) →
  notify_reachable smtpCfg s s' → settled (Notification.ID n) (outcalls s) s'.
Proof.
  intros Hn Hst Hd. apply settled_reachable. split; [by exists n|]. split.
  - intros m Hm Hid. by rewrite (NoDup_key_eq Notification.ID (notifications s) m n).
  - exists []. rewrite app_nil_r. split; [done|]. by intros c ?%elem_of_nil.
Qed.

(** A notification whose user is no UUID is refused. *)
Lemma Enqueue_without_user n s :
  Notification.UserID n = "" →
  wp (Dispatcher_Enqueue n) (λ _ _, False) (λ _ s', notifications s' = notifications s) s.
Proof.
  intros Hu. unfold Dispatcher_Enqueue, InsertNotification. wp_step. ops_step. wp_step. ops_step. wp_step.
  apply wp_stmt; [done|]. cbn beta. simpl.
  apply (wp_with_uuids _ (insert_row Notification.ID _)); [done|]. intros H.
  by destruct (H "" ltac:(rewrite Hu; set_solver)).
Qed.

(** The warnings the platform sends on its own name no user: none is ever
    stored, under any failures. *)
Theorem system_warnings_refused fixed orgID hostname recipient dim pct corrID days s :
  wp (Dispatcher_Enqueue (QuotaWarning fixed orgID recipient dim pct corrID))
    (λ _ _, False) (λ _ s', notifications s' = notifications s) s
  ∧ wp (Dispatcher_Enqueue (SSLExpiring orgID hostname recipient corrID days))
      (λ _ _, False) (λ _ s', notifications s' = notifications s) s.
Proof. split; by apply Enqueue_without_user. Qed.
End delivery.

(** ** Concrete runs *)

Section examples.
#[local] Existing Instance sim_environment.
#[local] Existing Instance strict_driver.
#[local] Existing Instance insertion_sorter.
#[local] Instance no_json : Jsonb := {| json_object := λ _, "{}"; jsonb_merge := λ _ b, b |}.

(** A receiver that answers with a status code. *)
Definition receiver (code : Z) : Mailer sim := {|
  SendMail := λ _ _ _ _ _ w, (None, w); NewRequest := λ _, None; Post := λ _ _ w, (Ok code, w) |}.

Definition mail_config := {| Host := "smtp"; Port := 25; Username := ""; Password := ""; From := "noreply" |}.

Definition slack : Notification :=
  let n := DeploymentSuccess "org" "user" "project" "d-1" "https://hooks" "" in
  {| Notification.ID := ""; Notification.OrgID := Notification.OrgID n; Notification.UserID := Notification.UserID n;
     Notification.ProjectID := Notification.ProjectID n; Notification.Channel := ChannelSlack;
     Notification.EventType := Notification.EventType n; Notification.Subject := ""; Notification.Body := Notification.Body n;
     Notification.Recipient := Notification.Recipient n; Notification.Status := ""; Notification.Attempts := 0;
     Notification.LastAttemptAt := None; Notification.DeliveredAt := None; Notification.FailureReason := "";
     Notification.CorrelationID := ""; Notification.Metadata := None; Notification.CreatedAt := 0;
     Notification.UpdatedAt := 0 |}.

(** A delivery that failed counts as delivered, and is never tried again. *)
Example failed_delivery_counts :
  let M := receiver 500 in
  let r := (_ ← Dispatcher_Enqueue slack; first ← DrainPending mail_config 10;
            second ← DrainPending mail_config 10; mret (first, second)) (ops_start 0, []) in
  (r.1, Notification.Status <$> notifications (tables_of r)) = (Ok ((1, 0), (0, 0)), [NotifFailed]).
Proof. vm_compute. reflexivity. Qed.

#[local] Instance accepting : Mailer sim := receiver 204.

Definition notified_once : opsdb sim :=
  tables_of ((_ ← Dispatcher_Enqueue slack; DrainPending mail_config 10) (ops_start 0, [])).
Definition the_slack : Notification := default slack (head (notifications notified_once)).

Lemma delivered_never_resent_witness :
  (length (outcalls notified_once) = 1)%nat
  ∧ settled (Notification.ID the_slack) (outcalls notified_once)
      (tables_of (run_notify mail_config (OpDeliver "id-0") (notified_once, []))).
Proof.
  split; [vm_compute; reflexivity|].
  apply (delivered_never_resent mail_config notified_once).
  - vm_compute. apply list_elem_of_here.
  - vm_compute. reflexivity.
  - apply (bool_decide_unpack _). vm_compute. exact I.
  - apply (notify_next mail_config notified_once notified_once). apply notify_start.
Defined.
End examples.
