(* ===== verification/Backups.v ===== *)
(** * Backups (packages/application/ops/backup/manager.go) *)

From S2P Require Import Prelude GoLib Calendar Errors Postgres Sql DeployModel Rows OpsModel OpsStore.

(** The object store, and [nopStorage] of the code. *)
Class BackupStorage (W : Type) := {
  Store : string → string → W → result error (string * Z) * W;
  Delete : string → W → option error * W;
}.

Definition nopStorage {W} : BackupStorage W := {|
  Store := λ name _ w, (Ok ("nop://" +:+ name, 0), w);
  Delete := λ _ w, (None, w);
|}.

(** [NewManager]'s default. *)
Definition retention (days : Z) : Z := if days <=? 0 then 30 else days.

Section manager.
Context {W : Type} `{En : Environment W} `{BS : BackupStorage W} `{D : Driver}.
(** The dumper, which may be nil; SHA-256 in hexadecimal; the retention. *)
Context (dumper : option (W → result error string * W)) (sha256 : string → string) (retentionDays : Z).

Definition pending_backup (correlationID : string) : Backup :=
  {| Backup.ID := ""; Backup.Kind := BackupDatabase; Backup.Status := BackupRunning; Backup.SizeBytes := 0;
     Backup.StoragePath := ""; Backup.Checksum := ""; Backup.DurationSeconds := 0;
     Backup.RetentionDays := retentionDays; Backup.ExpiresAt := None; Backup.VerifiedAt := None;
     Backup.FailureReason := ""; Backup.CorrelationID := correlationID; Backup.Metadata := None;
     Backup.StartedAt := None; Backup.CompletedAt := None; Backup.CreatedAt := 0 |}.

(** The value returned: the row of the insert with what was learned since. *)
Definition finished_backup (b : Backup) (expires : Time) (path checksum : string) (size : Z) : Backup :=
  {| Backup.ID := Backup.ID b; Backup.Kind := Backup.Kind b; Backup.Status := BackupCompleted;
     Backup.SizeBytes := size; Backup.StoragePath := path; Backup.Checksum := checksum;
     Backup.DurationSeconds := Backup.DurationSeconds b; Backup.RetentionDays := Backup.RetentionDays b;
     Backup.ExpiresAt := Some expires; Backup.VerifiedAt := Backup.VerifiedAt b;
     Backup.FailureReason := Backup.FailureReason b; Backup.CorrelationID := Backup.CorrelationID b;
     Backup.Metadata := Backup.Metadata b; Backup.StartedAt := Backup.StartedAt b;
     Backup.CompletedAt := Backup.CompletedAt b; Backup.CreatedAt := Backup.CreatedAt b |}.

(** [_ = SetBackupStatus(failed)] before an error is returned. *)
Definition or_failed {A} (id message : string) (m : db (opsdb W) A) : db (opsdb W) A :=
  r ← attempt m;
  match r with
  | Ok a => mret a
  | Err e => _ ← ignore (SetBackupStatus id BackupFailed (ErrorString e));
             fail (wrap_with CodeInternal message e)
  end.

Definition dump : db (opsdb W) string :=
  match dumper with
  | None => mret ""
  | Some dump => r ← call dump (λ _, []); of_result r
  end.

Definition store (name data : string) : db (opsdb W) (string * Z) :=
  r ← call (Store name data) (λ r, [Stored name r]); of_result r.

Definition RunDatabaseBackup (correlationID : string) : db (opsdb W) Backup :=
  correlationID ← id_or_new correlationID;
  backup ← InsertBackup (pending_backup correlationID);
  start ← time_now;
  data ← or_failed (Backup.ID backup) "backup: dump failed" dump;
  let checksum := sha256 data in
  now ← time_now;
  let name := "db-" +:+ format_stamp now +:+ "-" +:+ prefix8 (Backup.ID backup) +:+ ".dump" in
  stored ← or_failed (Backup.ID backup) "backup: store failed" (store name data);
  let '(path, size) := stored in
  stop ← time_now;
  now ← time_now;
  let expiresAt := AddDate now 0 0 retentionDays in
  _ ← CompleteBackup (Backup.ID backup) path checksum size (int64_of_f64 (Seconds (stop - start)));
  mret (finished_backup backup expiresAt path checksum size).

Fixpoint purge_all (bs : list Backup) (removed : Z) : db (opsdb W) Z :=
  match bs with
  | [] => mret removed
  | b :: bs =>
      _ ← ignore (e ← call (Delete (Backup.StoragePath b)) (λ e, [Erased (Backup.StoragePath b) e]); refuse e);
      marked ← attempt (SetBackupStatus (Backup.ID b) BackupFailed "purged");
      match marked with Err _ => purge_all bs removed | Ok _ => purge_all bs (removed + 1) end
  end.

Definition PurgeExpired : db (opsdb W) Z :=
  bs ← ListExpiredBackups;
  purge_all bs 0.

(** ** The manager as a state machine *)

Inductive backup_op := OpBackup (correlationID : string) | OpPurge.

Definition run_backup (o : backup_op) : db (opsdb W) unit :=
  match o with
  | OpBackup corr => ignore (RunDatabaseBackup corr)
  | OpPurge => ignore PurgeExpired
  end.

Inductive backup_reachable (s : opsdb W) : opsdb W → Prop :=
| backup_start : backup_reachable s s
| backup_next s' o fs : backup_reachable s s' → backup_reachable s (tables_of (run_backup o (s', fs))).

(** ** Lemmas *)

(** No row has an expiry, and nothing was erased since [before]. *)
Definition kept (before : list outcall) (s : opsdb W) : Prop :=
  (∀ b, b ∈ backups s → Backup.ExpiresAt b = None)
  ∧ ∃ l, outcalls s = before ++ l ∧ ∀ path e, Erased path e ∉ l.

Section kept.
Context (before : list outcall).
Implicit Types (s : opsdb W).

Lemma kept_update s p f :
  (∀ b, Backup.ExpiresAt (f b) = Backup.ExpiresAt b) → kept before s →
  kept before (set_backups (update_where p f (backups s)) s).
Proof.
  intros Hf [Hb Ho]. split; [|done]. simpl. intros b (b' & Hb' & ->)%elem_of_update_where.
  case_match; [rewrite Hf|]; by apply Hb.
Qed.

Lemma kept_update_row s id f :
  (∀ b, Backup.ExpiresAt (f b) = Backup.ExpiresAt b) → kept before s →
  wp (stmt backups_l (λ _, update_row Backup.ID id f)) (λ _, kept before) (λ _, kept before) s.
Proof.
  intros Hf Hs. apply wp_stmt; [done|]. simpl. apply update_row_elim; [by destruct s|by apply kept_update].
Qed.

Lemma kept_SetBackupStatus id status reason s :
  kept before s → wp (SetBackupStatus id status reason) (λ _, kept before) (λ _, kept before) s.
Proof. intros Hs. unfold SetBackupStatus. wp_step. by apply kept_update_row. Qed.

Lemma kept_call {A} (op : W → A * W) (log : A → list outcall) s :
  (∀ a path e, Erased path e ∉ log a) → kept before s →
  wp (call op log) (λ _, kept before) (λ _, kept before) s.
Proof.
  intros Hlog [Hb (l & Hl & Hne)]. ops_step. split; [done|]. exists (l ++ log a). simpl.
  rewrite Hl, app_assoc. split; [done|]. intros path e [?|?]%elem_of_app; [by eapply Hne|by eapply Hlog].
Qed.

Lemma kept_or_failed {A} id msg (m : db (opsdb W) A) s :
  wp m (λ _, kept before) (λ _, kept before) s →
  wp (or_failed id msg m) (λ _, kept before) (λ _, kept before) s.
Proof.
  intros Hm. unfold or_failed. wp_step. wp_step. eapply wp_mono; [exact Hm|..]; cbn beta.
  - intros a s' Hs'. by wp_step.
  - intros e s' Hs'. wp_step. wp_step. eapply wp_mono; [by apply kept_SetBackupStatus|..]; cbn beta; intros; by wp_step.
Qed.

Lemma kept_dump s : kept before s → wp dump (λ _, kept before) (λ _, kept before) s.
Proof.
  intros Hs. unfold dump. destruct dumper; [|by wp_step]. wp_step.
  eapply wp_mono; [apply kept_call; [|done]| |done].
  - by intros ??? ?%elem_of_nil.
  - intros [] s' Hs'; cbn beta; by wp_step.
Qed.

Lemma kept_store name data s : kept before s → wp (store name data) (λ _, kept before) (λ _, kept before) s.
Proof.
  intros Hs. unfold store. wp_step. eapply wp_mono; [apply kept_call; [|done]| |done].
  - by intros ??? ?%list_elem_of_singleton.
  - intros [] s' Hs'; cbn beta; by wp_step.
Qed.

Lemma kept_backup corr s : kept before s → wp (RunDatabaseBackup corr) (λ _, kept before) (λ _, kept before) s.
Proof.
  intros Hs. unfold RunDatabaseBackup, InsertBackup. wp_step. ops_step. wp_step. wp_step. ops_step. wp_step. ops_step.
  wp_step. apply wp_stmt; [done|]. simpl. apply insert_row_elim; [by destruct s|]. intros _. wp_step. ops_step. wp_step.
  eapply wp_mono; [apply kept_or_failed, kept_dump| |done].
  { destruct Hs as [Hb Ho]. split; [|done]. simpl.
    intros b [Hb'|Hb'%list_elem_of_singleton]%elem_of_app; [by apply Hb|by subst b]. }
  cbn beta. intros data s1 Hs1. wp_step. ops_step. wp_step.
  eapply wp_mono; [by apply kept_or_failed, kept_store| |done].
  cbn beta. intros [path size] s2 Hs2. wp_step. ops_step. wp_step. ops_step. wp_step.
  unfold CompleteBackup. wp_step. ops_step. wp_step. eapply wp_mono; [by apply kept_update_row| |done].
  intros; cbn beta; by wp_step.
Qed.

(** No expired backup is ever found. *)
Lemma kept_purge s : kept before s →
  wp PurgeExpired (λ n s', n = 0 ∧ ∃ w, s' = set_env w s) (λ _ s', ∃ w, s' = set_env w s) s.
Proof.
  intros [Hb Ho]. unfold PurgeExpired, ListExpiredBackups. wp_step. wp_step. ops_step. wp_step. apply wp_stmt; [by exists w|].
  simpl. rewrite select_none.
  - simpl. wp_step. split; [done|by exists w].
  - intros b Hb'. unfold expired_backup. rewrite Hb by done. apply andb_false_r.
Qed.

Lemma kept_reachable s s' : kept before s → backup_reachable s s' → kept before s'.
Proof.
  intros Hs. induction 1 as [|s1 o fs _ IH]; [done|]. apply wp_tables.
  destruct o; cbn [run_backup]; wp_step; [by apply kept_backup|].
  eapply wp_mono; [by apply kept_purge|..]; cbn beta; [intros n s2 [_ [w ->]]|intros e s2 [w ->]]; done.
Qed.
End kept.

(** backups are never purged.  No statement of the program stores an expiry
    (only the value returned to the caller has one), so that whatever backups
    are run and whatever fails, no artifact is erased and every purge finds
    nothing: the retention of the configuration has no effect. *)
Theorem backups_never_purged s s' :
  (∀ b, b ∈ backups s → Backup.ExpiresAt b = None) → backup_reachable s s' →
  (∃ l, outcalls s' = outcalls s ++ l ∧ ∀ path e, Erased path e ∉ l)
  ∧ wp PurgeExpired (λ n s'', n = 0 ∧ backups s'' = backups s') (λ _ s'', backups s'' = backups s') s'.
Proof.
  intros Hs Hr. apply (kept_reachable (outcalls s)) in Hr.
  - split; [apply Hr|]. eapply wp_mono; [by eapply kept_purge|..]; cbn beta.
    + by intros n s2 [-> [w ->]].
    + by intros e s2 [w ->].
  - split; [done|]. exists []. rewrite app_nil_r. split; [done|]. by intros ?? ?%elem_of_nil.
Qed.
End manager.

(** ** A concrete run *)

Section examples.
#[local] Existing Instance sim_environment.
#[local] Existing Instance strict_driver.
#[local] Instance nop : BackupStorage sim := nopStorage.

Definition backed_up : opsdb sim :=
  tables_of (run_backup None (λ _, "e3b0") (retention 0) (OpBackup "corr") (ops_start 0, [])).

(** Forty days later than its retention the backup is still there. *)
Definition later : opsdb sim := set_env (70 * Day, 9) backed_up.

Example backup_recorded :
  (λ b, (Backup.Status b, Backup.StoragePath b, Backup.RetentionDays b, Backup.ExpiresAt b)) <$> backups backed_up
  = [("completed", "nop://db-00010101-000002-id-0.dump", 30, None)].
Proof. vm_compute. reflexivity. Qed.

Lemma backups_never_purged_witness :
  length (backups backed_up) = 1%nat
  ∧ wp PurgeExpired (λ n s'', n = 0 ∧ backups s'' = backups backed_up) (λ _ s'', backups s'' = backups backed_up) backed_up.
Proof.
  split; [vm_compute; reflexivity|].
  destruct (backups_never_purged None (λ _, "e3b0") (retention 0) (ops_start 0) backed_up) as [_ H].
  - simpl. by intros b ?%elem_of_nil.
  - apply (backup_next None (λ _, "e3b0") (retention 0) (ops_start 0) (ops_start 0) (OpBackup "corr") []).
    apply backup_start.
  - exact H.
Defined.
End examples.
