(* ===== verification/MeteringFacts.v ===== *)
(** * Metering and quotas (packages/application/ops/metering, packages/application/ops/quota) *)

From Stdlib Require Import SpecFloat.
From S2P Require Import Prelude GoLib Calendar Errors Postgres Sql DeployModel Rows OpsModel OpsStore.

(** [unitFor] *)
Definition unitFor (d : string) : string :=
  if bool_decide (d ∈ [DimBandwidthGB; DimStorageGB; DimLogGB; DimMemoryGBHours]) then "GB"
  else if bool_decide (d ∈ [DimBuildMinutes; DimContainerHours; DimCPUCoreHours]) then "hours"
  else if bool_decide (d ∈ [DimRequests; DimAPIRequests; DimDeployments; DimCustomDomains; DimSSLCerts;
                            DimProjects; DimWSConnections; DimStreamingSessions]) then "count"
  else "unit".

Section collector.
Context {W : Type} `{En : Environment W} `{D : Driver} `{De : Decimal}.

Definition today : db (opsdb W) string := now ← time_now; mret (format_date now).

Definition Collector_Record (orgID projectID deploymentID dimension : string) (quantity : f64)
    (correlationID : string) : db (opsdb W) unit :=
  if fleb quantity f0 then fail_with (New CodeInvalidArgument "metering: quantity must be positive")
  else
    period ← today;
    RecordUsage
      {| UsageRecord.ID := ""; UsageRecord.OrgID := orgID; UsageRecord.ProjectID := projectID;
         UsageRecord.DeploymentID := deploymentID; UsageRecord.Dimension := dimension;
         UsageRecord.Quantity := quantity; UsageRecord.Unit := unitFor dimension; UsageRecord.Period := period;
         UsageRecord.CorrelationID := correlationID; UsageRecord.RecordedAt := 0 |}.

Definition filled (r : UsageRecord f64) (period unit_ : string) : UsageRecord f64 :=
  {| UsageRecord.ID := UsageRecord.ID r; UsageRecord.OrgID := UsageRecord.OrgID r;
     UsageRecord.ProjectID := UsageRecord.ProjectID r; UsageRecord.DeploymentID := UsageRecord.DeploymentID r;
     UsageRecord.Dimension := UsageRecord.Dimension r; UsageRecord.Quantity := UsageRecord.Quantity r;
     UsageRecord.Unit := unit_; UsageRecord.Period := period;
     UsageRecord.CorrelationID := UsageRecord.CorrelationID r; UsageRecord.RecordedAt := UsageRecord.RecordedAt r |}.

Fixpoint RecordBatch (records : list (UsageRecord f64)) : db (opsdb W) unit :=
  match records with
  | [] => mret tt
  | r :: rest =>
      period ← (if UsageRecord.Period r =s? "" then today else mret (UsageRecord.Period r));
      let unit_ := if UsageRecord.Unit r =s? "" then unitFor (UsageRecord.Dimension r) else UsageRecord.Unit r in
      _ ← ignore (RecordUsage (filled r period unit_));
      RecordBatch rest
  end.

Definition Rollup (period : string) : db (opsdb W) unit :=
  period ← (if period =s? "" then today else mret period);
  RollupUsage period.

Definition CurrentUsage (orgID dimension : string) : db (opsdb W) f64 :=
  period ← today;
  GetCurrentUsage orgID dimension period.

Definition RollupYesterday : db (opsdb W) unit :=
  now ← time_now;
  Rollup (format_date (AddDate now 0 0 (-1))).
End collector.

(** ** Quotas (enforcer.go) *)

Definition limitFor (cfg : QuotaConfig f64) (d : string) : f64 :=
  if d =s? DimProjects then f64_of_Z (QuotaConfig.MaxProjects cfg)
  else if d =s? DimDeployments then f64_of_Z (QuotaConfig.MaxDeployments cfg)
  else if d =s? DimBuildMinutes then QuotaConfig.MaxBuildMinutesMonth cfg
  else if d =s? DimContainerHours then QuotaConfig.MaxContainerHoursMonth cfg
  else if d =s? DimBandwidthGB then QuotaConfig.MaxBandwidthGBMonth cfg
  else if d =s? DimStorageGB then QuotaConfig.MaxStorageGB cfg
  else if d =s? DimCustomDomains then f64_of_Z (QuotaConfig.MaxCustomDomains cfg)
  else if d =s? DimAPIRequests then f64_of_Z (QuotaConfig.MaxAPIRequestsDay cfg)
  else fm1.

Module CheckResult.
Record t := mk { Allowed : bool; Violations : list QuotaViolation }.
End CheckResult.
Abbreviation CheckResult := CheckResult.t.

(** [(projected / float64(limit)) * 100] *)
Definition percent (projected limit : f64) : f64 := fmul (fdiv projected limit) f100.

Section enforcer.
Context {W : Type} `{En : Environment W} `{D : Driver} `{De : Decimal}.
(** [fixed n x] is the text of [x] with [n] decimals. *)
Context (fixed : nat → f64 → string).

(** An unknown organization has the limits of the free plan. *)
Definition plan_of (orgID : string) : db (opsdb W) string :=
  sub ← attempt (GetSubscription orgID);
  mret match sub with Ok s => Subscription.PlanID s | Err _ => PlanFree end.

(** The verdict on a usage of [projected] against a positive limit. *)
Definition judge (cfg : QuotaConfig f64) (orgID dimension : string) (projected limit : f64) : CheckResult :=
  let pct := percent projected limit in
  let v hard := QuotaViolation.mk orgID dimension projected limit pct hard in
  if fgtb pct f100 then CheckResult.mk false [v true]
  else
    let warnPct := if fleb (QuotaConfig.WarnThresholdPct cfg) f0 then f80 else QuotaConfig.WarnThresholdPct cfg in
    if fgeb pct warnPct then CheckResult.mk true [v false] else CheckResult.mk true [].

Definition Check_ (orgID dimension : string) (delta : f64) : db (opsdb W) CheckResult :=
  plan ← plan_of orgID;
  cfg ← attempt (GetQuotaConfig plan);
  match cfg with
  | Err _ => mret (CheckResult.mk true [])
  | Ok cfg =>
      let limit := limitFor cfg dimension in
      if fltb limit f0 then mret (CheckResult.mk true [])
      else if SFeqb limit f0 then
        mret (CheckResult.mk false [QuotaViolation.mk orgID dimension delta f0 f100 true])
      else
        period ← today;
        current ← attempt (GetCurrentUsage orgID dimension period);
        match current with
        | Err _ => mret (CheckResult.mk true [])
        | Ok current => mret (judge cfg orgID dimension (fadd current delta) limit)
        end
  end.

Definition Enforce (orgID dimension : string) (delta : f64) : db (opsdb W) unit :=
  result ← Check_ orgID dimension delta;
  if CheckResult.Allowed result then mret tt
  else match filter (λ v, QuotaViolation.IsHard v = true) (CheckResult.Violations result) with
  | v :: _ => fail_with (New CodeExhausted ("quota exceeded: " +:+ dimension +:+ " at "
                +:+ fixed 1%nat (QuotaViolation.Pct v) +:+ "% of plan limit"))
  | [] => mret tt
  end.

(** The six dimensions of the summary, each under its name. *)
Fixpoint summarize (cfg : QuotaConfig f64) (orgID period : string) (dims : list string)
    : db (opsdb W) (list (string * QuotaViolation)) :=
  match dims with
  | [] => mret []
  | d :: dims =>
      current ← attempt (GetCurrentUsage orgID d period);
      let current := match current with Ok c => c | Err _ => f0 end in
      let limit := limitFor cfg d in
      let pct := if fgtb limit f0 then percent current limit else f0 in
      rest ← summarize cfg orgID period dims;
      mret ((d, QuotaViolation.mk orgID d current limit pct (fgtb pct f100)) :: rest)
  end.

Definition SummaryForOrg (orgID : string) : db (opsdb W) (list (string * QuotaViolation)) :=
  plan ← plan_of orgID;
  cfg ← GetQuotaConfig plan;
  period ← today;
  summarize cfg orgID period
    [DimDeployments; DimBuildMinutes; DimContainerHours; DimBandwidthGB; DimStorageGB; DimCustomDomains].
End enforcer.

(** * Rollups are the sums of the records, and what a quota refuses

    The abstract specification of the usage of an organization is the sum over
    its raw records ([usage_total]); the rollups are an optimisation of it. *)

(** ** Sums of quantities *)

#[export] Instance numeric_add_comm : Comm (=) numeric_add.
Proof. intros [a|] [b|]; simpl; try done. f_equal. lia. Qed.
#[export] Instance numeric_add_assoc : Assoc (=) numeric_add.
Proof. intros [a|] [b|] [c|]; simpl; try done. f_equal. lia. Qed.
#[export] Instance numeric_add_left_id : LeftId (=) (Some 0) numeric_add.
Proof. by intros [a|]. Qed.

Section partition.
Context {R : Type} (f : R → numeric).
Implicit Types (l : list R) (p : R → bool).

Definition sum_of p l : numeric := sum_numeric (f <$> select p l).

Lemma sum_of_cons p x l : sum_of p (x :: l) = if p x then numeric_add (f x) (sum_of p l) else sum_of p l.
Proof.
  unfold sum_of, select. rewrite filter_cons. destruct (p x) eqn:E.
  - by rewrite decide_True.
  - by rewrite decide_False.
Qed.

Lemma sum_of_ext p q l : (∀ x, x ∈ l → p x = q x) → sum_of p l = sum_of q l.
Proof.
  induction l as [|x l IH]; intros H; [done|]. rewrite !sum_of_cons, IH by set_solver. by rewrite H by set_solver.
Qed.

Lemma sum_of_none p l : (∀ x, x ∈ l → p x = false) → sum_of p l = Some 0.
Proof. intros H. unfold sum_of. by rewrite select_none. Qed.

Lemma sum_of_split p q l :
  sum_of p l = numeric_add (sum_of (λ x, p x && q x) l) (sum_of (λ x, p x && negb (q x)) l).
Proof.
  induction l as [|x l IH]; [done|]. rewrite !sum_of_cons, IH.
  destruct (p x), (q x); simpl; [by rewrite (assoc_L numeric_add)| |done..].
  rewrite !(assoc_L numeric_add). f_equal. apply (comm_L numeric_add).
Qed.

Context {K : Type} `{EqDecision K} (key : R → K).

Definition keyed (k : K) (x : R) : bool := bool_decide (key x = k).

(** A sum over the rows whose key satisfies [P] is the sum over those keys. *)
Lemma sum_by_key (P : K → bool) (ks : list K) l :
  NoDup ks → (∀ x, x ∈ l → P (key x) = true → key x ∈ ks) →
  sum_of (λ x, P (key x)) l = sum_numeric ((λ k, sum_of (keyed k) l) <$> select P ks).
Proof.
  revert P. induction ks as [|k ks IH]; intros P Hd Hks.
  { simpl. apply sum_of_none. intros x Hx. destruct (P (key x)) eqn:E; [|done].
    by apply Hks, elem_of_nil in E. }
  apply NoDup_cons in Hd as [Hk Hd].
  rewrite (sum_of_split _ (keyed k)). set (P' := λ k', P k' && negb (bool_decide (k' = k))).
  rewrite (sum_of_ext (λ x, P (key x) && negb (keyed k x)) (λ x, P' (key x))) by done.
  rewrite (IH P' Hd).
  2: { intros x Hx [HP Hne]%andb_true_iff. specialize (Hks x Hx HP). apply negb_true_iff, bool_decide_eq_false in Hne.
       by apply elem_of_cons in Hks as [?|?]. }
  assert (select P' ks = select P ks) as ->.
  { apply select_ext. intros k' Hk'. unfold P'. rewrite bool_decide_false; [apply andb_true_r|by intros ->]. }
  unfold select at 2. rewrite filter_cons. destruct (P k) eqn:EP.
  - rewrite decide_True by done. rewrite fmap_cons. cbn [sum_numeric foldr]. f_equal.
    apply sum_of_ext. intros x _. unfold keyed. case_bool_decide as Hx; [|by rewrite andb_false_r]. by rewrite Hx, EP.
  - rewrite decide_False by done. rewrite (sum_of_none (λ x, P (key x) && keyed k x)).
    + by rewrite (left_id_L (Some 0) numeric_add).
    + intros x _. unfold keyed. case_bool_decide as Hx; [by rewrite Hx, EP|apply andb_false_r].
Qed.
End partition.

(** ** Rollups *)

Abbreviation rollup_sum k t := (sum_of UsageRollup.Total (keyed key_of_rollup k) t).
Abbreviation record_sum k t := (sum_of UsageRecord.Quantity (keyed record_key k) t).

Lemma sum_numeric_one x : sum_numeric [x] = x.
Proof. destruct x as [a|]; simpl; [f_equal; lia|done]. Qed.

Lemma upsert_rollup_spec row t t' :
  NoDup (key_of_rollup <$> t) → upsert_rollup row t = Ok t' →
  NoDup (key_of_rollup <$> t')
  ∧ rollup_sum (key_of_rollup row) t' = UsageRollup.Total row
  ∧ (∀ k, k ≠ key_of_rollup row → rollup_sum k t' = rollup_sum k t)
  ∧ (∀ r, r ∈ t' → key_of_rollup r = key_of_rollup row ∨ r ∈ t).
Proof.
  intros Hd. unfold upsert_rollup. destruct (negb _); [done|]. set (k0 := key_of_rollup row).
  assert (∀ r, has_key k0 r = true ↔ key_of_rollup r = k0) as Hkey by (intros; apply bool_decide_eq_true).
  destruct (select (has_key k0) t) as [|old l] eqn:E.
  - assert (∀ r, r ∈ t → key_of_rollup r ≠ k0) as Hno.
    { intros r Hr Hk. assert (r ∈ select (has_key k0) t) as Hs by (apply elem_of_select; split; [by apply Hkey|done]).
      rewrite E in Hs. by apply elem_of_nil in Hs. }
    apply insert_row_elim; [done|]. intros _ [= <-]. split_and!.
    + rewrite fmap_app. apply NoDup_app. split; [done|]. split; [|apply NoDup_singleton].
      intros k (r & -> & Hr)%list_elem_of_fmap Hk%list_elem_of_singleton. by apply (Hno r).
    + unfold sum_of. rewrite select_app, select_none; [|intros r Hr; by apply bool_decide_eq_false, Hno].
      unfold select. rewrite filter_cons_True by (by apply bool_decide_eq_true). apply sum_numeric_one.
    + intros k Hk. unfold sum_of. rewrite select_app, (select_none _ [row]); [by rewrite app_nil_r|].
      intros r ->%list_elem_of_singleton. by apply bool_decide_eq_false.
    + intros r [?|Hr%list_elem_of_singleton]%elem_of_app; [by right|left; by subst].
  - intros [= <-]. assert (old ∈ select (has_key k0) t) as [Hold%Hkey Ht]%elem_of_select by (rewrite E; by left).
    split_and!.
    + by rewrite map_key_update_where.
    + assert (select (keyed key_of_rollup k0) (update_where (has_key k0) (merge_rollup row) t) = [merge_rollup row old]) as Hs.
      { apply (select_unique key_of_rollup).
        - by rewrite map_key_update_where.
        - apply elem_of_update_where. exists old. by rewrite (proj2 (Hkey old) Hold).
        - by apply bool_decide_eq_true.
        - intros r Hr%bool_decide_eq_true. rewrite Hr. symmetry. exact Hold. }
      unfold sum_of. rewrite Hs. apply sum_numeric_one.
    + intros k Hk. unfold sum_of. f_equal. rewrite select_update_outside; [done|].
      intros r Hr%Hkey. unfold keyed. split; apply bool_decide_eq_false; [congruence|].
      change (key_of_rollup r ≠ k). congruence.
    + intros r (r' & Hr' & ->)%elem_of_update_where. destruct (has_key k0 r') eqn:Er; [left; by apply Hkey in Er|by right].
Qed.

(** Inserting the groups one after the other sets the sum of each, and no other. *)
Lemma upsert_groups_spec `{Environment W} now records keys : ∀ (w : W) t t' w',
  NoDup keys → NoDup (key_of_rollup <$> t) → upsert_groups now records keys w t = (Ok t', w') →
  NoDup (key_of_rollup <$> t')
  ∧ (∀ k, k ∈ keys → rollup_sum k t' = record_sum k records)
  ∧ (∀ k, k ∉ keys → rollup_sum k t' = rollup_sum k t)
  ∧ (∀ r, r ∈ t' → key_of_rollup r ∈ keys ∨ r ∈ t).
Proof.
  induction keys as [|k keys IH]; intros w t t' w' Hk Hd; cbn [upsert_groups].
  { intros [= <- <-]. split_and!; try done; [by intros ? ?%elem_of_nil|by right]. }
  apply NoDup_cons in Hk as [Hk Hks]. destruct (fresh_id w) as [id w1].
  destruct (upsert_rollup _ t) as [t1|e] eqn:E; [|done]. intros Hrest.
  apply upsert_rollup_spec in E as (Hd1 & Hrow & Hother & Hsrc); [|done].
  assert (key_of_rollup (group_row id now k (select (in_group k) records)) = k) as Hkey
    by (by destruct k as [[[? ?] ?] ?]).
  assert (UsageRollup.Total (group_row id now k (select (in_group k) records)) = record_sum k records) as Htotal
    by (by destruct k as [[[? ?] ?] ?]).
  rewrite Hkey, Htotal in *. destruct (IH w1 t1 t' w' Hks Hd1 Hrest) as (Hd' & Hin & Hout & Hsrc'). split_and!.
  - done.
  - intros k' [->|Hk']%elem_of_cons; [by rewrite Hout|by apply Hin].
  - intros k' [Hne Hk']%not_elem_of_cons. rewrite Hout by done. by apply Hother.
  - intros r Hr. destruct (Hsrc' r Hr) as [?|[->|?]%Hsrc]; [left; by right|left; by left|by right].
Qed.

(** ** The specification *)

(** The usage of an organization in a dimension and a period, from the raw records. *)
Definition usage_total (orgID dimension period : string) (records : list (UsageRecord numeric)) : numeric :=
  sum_of UsageRecord.Quantity (λ u, (UsageRecord.OrgID u =s? orgID) && (UsageRecord.Dimension u =s? dimension)
                                    && (UsageRecord.Period u =s? period)) records.

(** The keys of an organization, a dimension and a period. *)
Definition key_current (orgID dimension period : string) (k : rollup_key) : bool :=
  let '(org, _, dim, p) := k in (org =s? orgID) && (dim =s? dimension) && (p =s? period).


Section rollup.
Context {W : Type} `{En : Environment W} `{D : Driver}.
Implicit Types (s : opsdb W).

(** One rollup per key, as the unique index of the table keeps them. *)
Definition one_per_key s : Prop := NoDup (key_of_rollup <$> rollups s).

(** The keys of the period that have records. *)
Definition period_keys (period : string) s : list rollup_key :=
  remove_dups (record_key <$> select (in_period period) (usage_records s)).

(** What earlier rollups of the period hold under keys whose records are gone. *)
Definition left_over (orgID dimension period : string) s : numeric :=
  sum_of UsageRollup.Total
    (λ r, current orgID dimension period r && negb (bool_decide (key_of_rollup r ∈ period_keys period s))) (rollups s).

Lemma elem_of_period_keys period s k :
  k ∈ period_keys period s ↔ ∃ u, u ∈ usage_records s ∧ UsageRecord.Period u = period ∧ record_key u = k.
Proof.
  unfold period_keys. rewrite elem_of_remove_dups, list_elem_of_fmap. split.
  - intros (u & -> & [Hp%String.eqb_eq Hu]%elem_of_select). by exists u.
  - intros (u & Hu & Hp & <-). exists u. split; [done|]. apply elem_of_select. split; [by apply String.eqb_eq|done].
Qed.

(** Nothing is left over where every rollup has a record. *)
Lemma left_over_none orgID dimension period s :
  (∀ r, r ∈ rollups s → current orgID dimension period r = true → key_of_rollup r ∈ period_keys period s) →
  left_over orgID dimension period s = Some 0.
Proof.
  intros H. apply sum_of_none. intros r Hr. destruct (current _ _ _ r) eqn:E; [|done].
  by rewrite bool_decide_true by (by apply H).
Qed.

(** Tables whose sums agree on the keys outside [keys] agree there in sum. *)
Lemma rollup_sums_agree (P : rollup_key → bool) (keys : list rollup_key) t t' :
  (∀ k, k ∉ keys → rollup_sum k t' = rollup_sum k t) →
  sum_of UsageRollup.Total (λ r, P (key_of_rollup r) && negb (bool_decide (key_of_rollup r ∈ keys))) t'
  = sum_of UsageRollup.Total (λ r, P (key_of_rollup r) && negb (bool_decide (key_of_rollup r ∈ keys))) t.
Proof.
  intros H. set (P' := λ k, P k && negb (bool_decide (k ∈ keys))).
  set (ks := remove_dups (key_of_rollup <$> t' ++ t)).
  assert (∀ r, r ∈ t' ++ t → key_of_rollup r ∈ ks) as Hks.
  { intros r Hr. apply elem_of_remove_dups, list_elem_of_fmap. by exists r. }
  change (sum_of UsageRollup.Total (λ r, P' (key_of_rollup r)) t' = sum_of UsageRollup.Total (λ r, P' (key_of_rollup r)) t).
  rewrite !(sum_by_key _ key_of_rollup P' ks); [|apply NoDup_remove_dups|intros; apply Hks, elem_of_app; by right
    |apply NoDup_remove_dups|intros; apply Hks, elem_of_app; by left].
  f_equal. apply list_fmap_ext. intros i k Hk. apply H.
  apply list_elem_of_lookup_2, elem_of_select in Hk as [[_ Hk]%andb_true_iff _].
  by apply negb_true_iff, bool_decide_eq_false in Hk.
Qed.

Lemma groups_summed period s now w0 t w orgID dimension :
  one_per_key s →
  upsert_groups now (usage_records s) (period_keys period s) w0 (rollups s) = (Ok t, w) →
  NoDup (key_of_rollup <$> t)
  ∧ sum_of UsageRollup.Total (current orgID dimension period) t
    = numeric_add (usage_total orgID dimension period (usage_records s)) (left_over orgID dimension period s).
Proof.
  intros Hd Hg. set (keys := period_keys period s) in *.
  assert (NoDup keys) as Hkeys by apply NoDup_remove_dups.
  apply upsert_groups_spec in Hg as (Hd' & Hin & Hout & _); [|done..]. split; [done|].
  set (P := key_current orgID dimension period).
  rewrite (sum_of_split _ _ (λ r, bool_decide (key_of_rollup r ∈ keys))). f_equal.
  2: { exact (rollup_sums_agree P keys _ _ Hout). }
  set (P' := λ k, P k && bool_decide (k ∈ keys)).
  change (sum_of UsageRollup.Total (λ r, P' (key_of_rollup r)) t = sum_of UsageRecord.Quantity (λ u, P (record_key u)) (usage_records s)).
  assert (∀ k, P k = true → k.2 = period) as Hperiod.
  { intros [[[? ?] ?] ?]. simpl. rewrite !andb_true_iff, !String.eqb_eq. tauto. }
  rewrite (sum_by_key _ key_of_rollup P' keys) by (try done; intros r _ [_ H%bool_decide_eq_true]%andb_true_iff; done).
  rewrite (sum_by_key _ record_key P keys); [|done|].
  2: { intros u Hu HP. apply elem_of_period_keys. exists u. split; [done|]. split; [|done]. by apply Hperiod in HP. }
  assert (select P' keys = select P keys) as ->.
  { apply select_ext. intros k Hk. unfold P'. rewrite bool_decide_true by done. apply andb_true_r. }
  f_equal. apply list_fmap_ext. intros i k Hk. apply Hin. apply list_elem_of_lookup_2, elem_of_select in Hk. tauto.
Qed.

(** C16: the rollups of a day are the sums of its records.  When a rollup succeeds,
    the usage the quota checks and the API read is, for every organization and
    dimension, the sum of the quantities recorded, computed exactly, together
    with what earlier rollups of the day hold under keys that have no record any
    more; rollups stay unique by key, no record changes, and when it fails no
    rollup changes. *)
Theorem Rollup_equals_sums `{De : Decimal} period s :
  period ≠ "" → one_per_key s →
  wp (Rollup period)
    (λ _ s', usage_records s' = usage_records s ∧ one_per_key s' ∧
       ∀ orgID dimension, wp (GetCurrentUsage orgID dimension period)
         (λ x s'', s'' = s' ∧ x = of_numeric (numeric_add (usage_total orgID dimension period (usage_records s))
                                                 (left_over orgID dimension period s)))
         (λ _ s'', s'' = s') s')
    (λ _ s', usage_records s' = usage_records s ∧ rollups s' = rollups s) s.
Proof.
  intros Hp Hok. unfold Rollup. apply String.eqb_neq in Hp as ->. wp_step. wp_step.
  unfold RollupUsage. wp_step. ops_step. wp_step. apply wp_query; [done|]. cbn beta. simpl.
  destruct (upsert_groups _ _ _ _ _) as [[t'|e] w'] eqn:E; [|done].
  pose proof (λ o d, groups_summed period s t w t' w' o d Hok E) as Hsum.
  split; [done|]. split; [apply (Hsum "" "")|]. intros orgID dimension.
  unfold GetCurrentUsage. wp_step. apply wp_stmt; [done|]. simpl.
  apply (wp_with_uuids [orgID] (λ l : list (UsageRollup numeric), _)); [done|]. intros _.
  split; [done|]. f_equal. apply (Hsum orgID dimension).
Qed.
End rollup.

(** ** What a quota refuses *)

Section quota.
Context {W : Type} `{En : Environment W} `{D : Driver} `{De : Decimal}.
Context (fixed : nat → f64 → string).
Implicit Types (s : opsdb W).

(** The plans whose limits may be applied to an organization. *)
Definition on_plan (orgID planID : string) s : Prop :=
  planID = PlanFree ∨ ∃ sub, sub ∈ subscriptions s ∧ Subscription.OrgID sub = orgID ∧ Subscription.PlanID sub = planID.

(** The limit that stops a usage: none is allowed, or it is more than the limit
    together with what the rollups of a day say is used. *)
Definition exceeded (orgID dimension : string) (delta : f64) s : Prop :=
  ∃ row, row ∈ quota_configs s ∧ on_plan orgID (QuotaConfig.PlanID row) s ∧
    let limit := limitFor (read_config row) dimension in
    fltb limit f0 = false ∧
    (SFeqb limit f0 = true
     ∨ ∃ now, let used := of_numeric (sum_of UsageRollup.Total (current orgID dimension (format_date now)) (rollups s)) in
              fgtb (percent (fadd used delta) limit) f100 = true).

Lemma plan_of_wp orgID s :
  wp (plan_of orgID) (λ plan s', s' = s ∧ on_plan orgID plan s) (λ _ _, False) s.
Proof.
  unfold plan_of, GetSubscription. wp_step. wp_step. wp_step. apply wp_stmt; [intros e; wp_step; split; [done|by left]|]. simpl.
  apply (wp_with_uuids [orgID] (select_row (sub_of orgID))).
  - wp_step. split; [by destruct s|by left].
  - intros _. apply select_row_elim.
    + intros e. wp_step. split; [by destruct s|by left].
    + intros sub Hsub Ho%String.eqb_eq. wp_step. split; [by destruct s|]. right. by exists sub.
Qed.

(** What [Check] allows, and why it does not. *)
Lemma Check_wp orgID dimension delta s :
  wp (Check_ orgID dimension delta)
    (λ r _, CheckResult.Allowed r = true
            ∨ (exceeded orgID dimension delta s ∧ ∃ v, CheckResult.Violations r = [v] ∧ QuotaViolation.IsHard v = true))
    (λ _ _, False) s.
Proof.
  unfold Check_. wp_step. eapply wp_mono; [apply plan_of_wp| |done]. cbn beta. intros plan ? [-> Hplan].
  unfold GetQuotaConfig. wp_step. wp_step. wp_step. apply wp_stmt; [intros e; wp_step; by left|]. simpl.
  destruct (select (of_plan plan) (quota_configs s)) as [|row l] eqn:E; [wp_step; by left|].
  assert (row ∈ select (of_plan plan) (quota_configs s)) as [Hr%String.eqb_eq Hrow]%elem_of_select by (rewrite E; by left).
  destruct (fltb (limitFor (read_config row) dimension) f0) eqn:Eneg; [wp_step; by left|].
  destruct (SFeqb (limitFor (read_config row) dimension) f0) eqn:Ezero.
  { wp_step. right. split; [|by eexists]. exists row. rewrite Hr. cbn zeta. split_and!; [done..|by left]. }
  unfold today. wp_step. wp_step. ops_step. wp_step. unfold GetCurrentUsage. wp_step. wp_step. wp_step.
  apply wp_stmt; [intros e; wp_step; by left|]. simpl.
  apply (wp_with_uuids [orgID] (λ l : list (UsageRollup numeric), _)); [wp_step; by left|]. intros _.
  wp_step. unfold judge.
  destruct (fgtb (percent _ _) f100) eqn:Eover.
  - right. split; [|by eexists]. exists row. rewrite Hr. cbn zeta. split_and!; [done..|right; by exists t].
  - left. by case_match.
Qed.

(** a quota refuses only what it has seen exceeded.  The only error of
    [Enforce], whatever fails, is that the resources are exhausted, and then the
    limit of the organization's plan (the free plan's, for an unknown one) is
    zero or the rolled-up usage of a day and the request are more than it; when
    anything cannot be read the request is allowed. *)
Theorem Enforce_fails_open orgID dimension delta s :
  wp (Enforce fixed orgID dimension delta) (λ _ _, True)
    (λ e _, CodeOf (Some e) = CodeExhausted ∧ exceeded orgID dimension delta s) s.
Proof.
  unfold Enforce. wp_step. eapply wp_mono; [apply Check_wp| |done]. cbn beta.
  intros r s' [->|(Hex & v & Hv & Hhard)]; [by wp_step|]. destruct (CheckResult.Allowed r); [by wp_step|].
  rewrite Hv, filter_cons_True by done. wp_step. by split.
Qed.
End quota.

(** ** Concrete runs *)

Section examples.
#[local] Existing Instance sim_environment.
#[local] Existing Instance strict_driver.
#[local] Existing Instance exact_decimal.

(** Two projects build for 500.25 and 200 minutes. *)
Definition built : opsdb sim :=
  tables_of ((_ ← Collector_Record "org" "p1" "d1" DimBuildMinutes (fdiv (f64_of_Z 2001) (f64_of_Z 4)) "";
              _ ← Collector_Record "org" "p1" "d1" DimBuildMinutes (f64_of_Z 100) "";
              Collector_Record "org" "p2" "d2" DimBuildMinutes (f64_of_Z 100) "") (ops_start 0, [])).

Definition free_quota : QuotaConfig numeric :=
  let m z := Some (z * 1000000) in
  QuotaConfig.mk "q" PlanFree 3 10 1 1 3 1 (m 1) (m 100) (m 500) (m 720) 100000 (m 80) 0 0.

(** The day is rolled up, and the raw records of the first project are deleted. *)
Definition purged_day : opsdb sim :=
  let s := tables_of (Rollup "0001-01-01" (built, [])) in
  set_usage_records (delete_where (λ u, UsageRecord.ProjectID u =s? "p1") (usage_records s)) s.

Lemma Rollup_equals_sums_witness :
  usage_total "org" DimBuildMinutes "0001-01-01" (usage_records purged_day) = Some 100000000
  ∧ left_over "org" DimBuildMinutes "0001-01-01" purged_day = Some 600250000
  ∧ wp (Rollup "0001-01-01")
      (λ _ s', usage_records s' = usage_records purged_day ∧ one_per_key s' ∧
         ∀ orgID dimension, wp (GetCurrentUsage orgID dimension "0001-01-01")
           (λ x s'', s'' = s' ∧ x = of_numeric (numeric_add (usage_total orgID dimension "0001-01-01" (usage_records purged_day))
                                                   (left_over orgID dimension "0001-01-01" purged_day)))
           (λ _ s'', s'' = s') s')
      (λ _ s', usage_records s' = usage_records purged_day ∧ rollups s' = rollups purged_day) purged_day.
Proof.
  split; [vm_compute; reflexivity|]. split; [vm_compute; reflexivity|]. apply Rollup_equals_sums; [done|].
  apply (bool_decide_unpack _). vm_compute. exact I.
Defined.

(** A plan of 500 minutes a month compares them with the minutes of today. *)
Example month_limit_checked_per_day :
  let st := set_quota_configs [free_quota] built in
  (Enforce (λ _ _, "140.0") "org" DimBuildMinutes f0 (tables_of (Rollup "0001-01-01" (st, [])), [])).1
    = Err (Platform (New CodeExhausted "quota exceeded: build_minutes at 140.0% of plan limit"))
  ∧ (Enforce (λ _ _, "140.0") "org" DimBuildMinutes f0
       (set_env (Day, 9) (tables_of (Rollup "0001-01-01" (st, []))), [])).1 = Ok tt.
Proof. split; vm_compute; reflexivity. Qed.
End examples.
