(* ===== verification/RedisLock.v ===== *)
(** * The distributed lock (packages/platform/cache/redis/lock.go)

    [Redis] is the server: its commands, and a network that may lose a request or
    the reply of one that took effect.  The two Lua scripts are run atomically.
    [RedisLaws] states what the documentation of the commands says, in terms of
    [peek], the value a key has at a time if nothing else is done to it.

    A request is executed at most once and before its call returns.  go-redis
    may send a request again when the reply is lost, and the server may execute
    one after the caller has given up; neither is modelled.  An [Extend] executed
    late with a shorter time than a later one's would shorten the lock. *)

From stdpp Require Import pretty.
From S2P Require Import Prelude Errors Postgres Sql.

Inductive delivery :=
| Delivered
| RequestLost (e : error)
| ReplyLost (e : error).

(** [d.Milliseconds()] truncates. *)
Definition Milliseconds (d : Duration) : Z := Z.quot d Millisecond.

(** The time a key set with [ttl] is kept: go-redis sends whole milliseconds,
    and at least one. *)
Definition kept_for (ttl : Duration) : Duration := Z.max 1 (Milliseconds ttl) * Millisecond.

Class Redis (W : Type) := {
  server_now : W → Time;
  peek : W → string → Time → option string;
  (** [SET key value NX PX ttl], [GET], [DEL] and [PEXPIRE] *)
  set_nx : string → string → Duration → W → bool * W;
  redis_get : string → W → option string;
  redis_del : string → W → W;
  redis_pexpire : string → Z → W → W;
  (** What happens to the next request. *)
  network : W → delivery * W;
  (** [idx.Token(16)] *)
  token : W → string * W;
  (** [time.After(d)]; the clock of the process. *)
  wait_for : Duration → W → W;
  process_now : W → Time;
  (** [ctx.Err()] *)
  done_err : W → option error;
}.

(** Nothing happened to the store; time may have passed. *)
Definition passes `{Redis W} (w w' : W) : Prop :=
  server_now w ≤ server_now w' ∧ process_now w ≤ process_now w' ∧ ∀ k t, server_now w' ≤ t → peek w' k t = peek w k t.

(** The key [k] was changed to [f], its value at each time from now on. *)
Definition changes `{Redis W} (k : string) (f : Time → option string) (w w' : W) : Prop :=
  server_now w' = server_now w ∧ process_now w' = process_now w
  ∧ ∀ k' t, server_now w' ≤ t → peek w' k' t = if k' =s? k then f t else peek w k' t.

(** A value that is kept until a time. *)
Definition until (deadline : Time) (v : string) (t : Time) : option string :=
  if t <? deadline then Some v else None.

Class RedisLaws (W : Type) `{R : Redis W} : Prop := {
  get_spec k w : redis_get k w = peek w k (server_now w);
  set_nx_spec k v ttl w : 0 < ttl →
    match redis_get k w with
    | Some _ => set_nx k v ttl w = (false, w)
    | None => (set_nx k v ttl w).1 = true ∧ changes k (until (server_now w + kept_for ttl) v) w (set_nx k v ttl w).2
    end;
  del_spec k w : changes k (λ _, None) w (redis_del k w);
  pexpire_spec k ms v w : redis_get k w = Some v → 0 < ms →
    changes k (until (server_now w + ms * Millisecond) v) w (redis_pexpire k ms w);
  network_spec w : passes w (network w).2;
  token_spec w : passes w (token w).2;
  wait_spec d w : passes w (wait_for d w) ∧ process_now w + Z.max 0 d ≤ process_now (wait_for d w);
}.

Module Lock.
Record t := mk { key : string; tok : string; ttl : Duration }.
End Lock.
Abbreviation Lock := Lock.t.

Section client.
Context {W : Type} `{R : Redis W}.

(** A command or script sent to the server. *)
Definition request {A} (script : W → A * W) (w : W) : result error A * W :=
  let '(d, w) := network w in
  match d with
  | Delivered => let '(a, w) := script w in (Ok a, w)
  | RequestLost e => (Err e, w)
  | ReplyLost e => (Err e, (script w).2)
  end.

(** [releaseScript] and [extendScript] *)
Definition releaseScript (key tok : string) (w : W) : Z * W :=
  match redis_get key w with
  | Some v => if v =s? tok then (1, redis_del key w) else (0, w)
  | None => (0, w)
  end.

Definition extendScript (key tok : string) (ms : Z) (w : W) : Z * W :=
  match redis_get key w with
  | Some v => if v =s? tok then (1, redis_pexpire key ms w) else (0, w)
  | None => (0, w)
  end.

Definition ErrLockNotAcquired : Error := New CodeConflict "redis: lock not acquired".

Definition Acquire (key : string) (ttl : Duration) (w : W) : result error Lock * W :=
  let '(tok, w) := token w in
  let '(r, w) := request (set_nx key tok ttl) w in
  (match r with
   | Err e => Err (wrap_with CodeUnavailable "redis: acquire lock" e)
   | Ok false => Err (Platform (WithRetryable ErrLockNotAcquired true))
   | Ok true => Ok (Lock.mk key tok ttl)
   end, w).

Definition Release (l : Lock) (w : W) : option error * W :=
  let '(r, w) := request (releaseScript (Lock.key l) (Lock.tok l)) w in
  (match r with
   | Err e => Some (wrap_with CodeUnavailable "redis: release lock" e)
   | Ok res => if res =? 0 then Some (Platform (New CodeConflict "redis: lock no longer owned")) else None
   end, w).

Definition Extend (l : Lock) (ttl : Duration) (w : W) : result error Lock * W :=
  let '(r, w) := request (extendScript (Lock.key l) (Lock.tok l) (Milliseconds ttl)) w in
  (match r with
   | Err e => Err (wrap_with CodeUnavailable "redis: extend lock" e)
   | Ok res => if res =? 0 then Err (Platform (New CodeConflict "redis: lock no longer owned"))
               else Ok (Lock.mk (Lock.key l) (Lock.tok l) ttl)
   end, w).

(** [AcquireWait]: one round is an attempt and a pause. *)
Fixpoint acquire_wait (fuel : nat) (key : string) (ttl : Duration) (deadline : Time) (retry : Duration) (w : W)
    : option (result error Lock) * W :=
  match fuel with
  | O => (None, w)
  | S fuel =>
      match Acquire key ttl w with
      | (Ok lock, w) => (Some (Ok lock), w)
      | (Err e, w) =>
          if negb (Is e (Platform ErrLockNotAcquired)) then (Some (Err e), w)
          else if After (process_now w) deadline then (Some (Err (Platform ErrLockNotAcquired)), w)
          else match done_err w with
          | Some c => (Some (Err (wrap_with CodeCanceled "redis: acquire wait canceled" c)), w)
          | None => acquire_wait fuel key ttl deadline retry (wait_for retry w)
          end
      end
  end.

Definition wait_rounds (wait retry : Duration) : nat := Z.to_nat (Z.max 0 wait / retry + 3).

Definition AcquireWait (key : string) (ttl wait retry : Duration) (w : W) : option (result error Lock) * W :=
  acquire_wait (wait_rounds wait retry) key ttl (Add (process_now w) wait) retry w.

(** ** Owners

    The locks that callers hold, each with the time until which its owner may
    rely on it: the server's clock when the command that set it took effect,
    plus the time to live in whole milliseconds.  After a call that failed the owner of [Release]
    gives the lock up, and the one of [Extend] relies on the earlier of the two
    times. *)
Record owners := mkOwners {
  redis : W;
  held : list (Lock * Time);
  drawn : list string;
}.

Definition without (l : Lock) (hs : list (Lock * Time)) : list (Lock * Time) :=
  filter (λ h, (Lock.tok h.1 =s? Lock.tok l) = false) hs.

(** Callers in any order; the tokens drawn are random, so taken to be new. *)
Inductive owner_step (o : owners) : owners → Prop :=
| do_pass w' : passes (redis o) w' → owner_step o (mkOwners w' (held o) (drawn o))
| do_acquire key ttl r w' :
    0 < ttl → (token (redis o)).1 ∉ drawn o → Acquire key ttl (redis o) = (r, w') →
    owner_step o (mkOwners w'
      (match r with Ok l => (l, server_now w' + kept_for ttl) :: held o | Err _ => held o end)
      ((token (redis o)).1 :: drawn o))
| do_release l d : (l, d) ∈ held o →
    owner_step o (mkOwners (Release l (redis o)).2 (without l (held o)) (drawn o))
| do_extend l d ttl r w' :
    (l, d) ∈ held o → Millisecond ≤ ttl → Extend l ttl (redis o) = (r, w') →
    let d' := server_now w' + Milliseconds ttl * Millisecond in
    owner_step o (mkOwners w'
      (match r with
       | Ok l' => (l', d') :: without l (held o)
       | Err _ => (l, Z.min d d') :: without l (held o)
       end) (drawn o)).

Inductive owner_reachable (o : owners) : owners → Prop :=
| owner_start : owner_reachable o o
| owner_next o' o'' : owner_reachable o o' → owner_step o' o'' → owner_reachable o o''.

(** What the server holds for a lock until its time. *)
Definition guarded (w : W) (h : Lock * Time) : Prop :=
  ∀ t, server_now w ≤ t → t < h.2 → peek w (Lock.key h.1) t = Some (Lock.tok h.1).

Record owners_ok (o : owners) : Prop := {
  all_guarded : ∀ h, h ∈ held o → guarded (redis o) h;
  tokens_drawn : ∀ h, h ∈ held o → Lock.tok h.1 ∈ drawn o;
  tokens_unique : NoDup (Lock.tok <$> (held o).*1);
}.
End client.
Arguments owners W : clear implicits.

(** ** Exclusion *)

Section exclusion.
Context {W : Type} `{R : Redis W} `{!RedisLaws W}.
Implicit Types (w : W) (h : Lock * Time).

Lemma guarded_passes w w' h : passes w w' → guarded w h → guarded w' h.
Proof. intros (Ht & _ & Hp) Hg t Hw Hd. rewrite Hp by done. apply Hg; [lia|done]. Qed.

(** A change of a key keeps a guard that it agrees with. *)
Lemma changes_guarded w w' k f h :
  changes k f w w' → guarded w h →
  (Lock.key h.1 = k → server_now w < h.2 → ∀ t, server_now w ≤ t → t < h.2 → f t = Some (Lock.tok h.1)) →
  guarded w' h.
Proof.
  intros (Ht & _ & Hp) Hg Hf t Hw Hd. rewrite Hp by done. destruct (String.eqb_spec (Lock.key h.1) k) as [E|E].
  - apply Hf; [done|lia..].
  - apply Hg; [lia|done].
Qed.

(** A key another value is read from guards no unexpired lock. *)
Lemma guarded_get w h : guarded w h → server_now w < h.2 → redis_get (Lock.key h.1) w = Some (Lock.tok h.1).
Proof. intros Hg Hd. rewrite get_spec. by apply Hg; [lia|]. Qed.

Lemma passes_refl w : passes w w.
Proof. by split. Qed.

Lemma passes_trans w1 w2 w3 : passes w1 w2 → passes w2 w3 → passes w1 w3.
Proof. intros (H1 & T1 & P1) (H2 & T2 & P2). split; [lia|]. split; [lia|]. intros k t Ht. rewrite P2 by done. apply P1. lia. Qed.

(** A request runs its script in a world reached by waiting, or not at all. *)
Lemma request_spec {A} (script : W → A * W) w (P : result error A * W → Prop) :
  (∀ w1, passes w w1 → P (Ok (script w1).1, (script w1).2)) →
  (∀ e w1, passes w w1 → P (Err e, w1)) →
  (∀ e w1, passes w w1 → P (Err e, (script w1).2)) →
  P (request script w).
Proof.
  intros H1 H2 H3. unfold request. pose proof (network_spec w) as Hp. destruct (network w) as [[|e|e] w1].
  - specialize (H1 w1 Hp). by destruct (script w1).
  - by apply H2.
  - by apply H3.
Qed.

(** Setting the key of a new token. *)
Lemma set_nx_guards key tok ttl w :
  0 < ttl →
  (∀ h, guarded w h → guarded (set_nx key tok ttl w).2 h)
  ∧ ((set_nx key tok ttl w).1 = true → ∀ l, Lock.key l = key → Lock.tok l = tok →
       guarded (set_nx key tok ttl w).2 (l, server_now (set_nx key tok ttl w).2 + kept_for ttl)).
Proof.
  intros Httl. pose proof (set_nx_spec key tok ttl w Httl) as Hs.
  destruct (redis_get key w) as [v|] eqn:E; [by rewrite Hs|]. destruct Hs as [_ Hc]. split.
  - intros h Hg. apply (changes_guarded w _ key _ h Hc Hg). intros Hk Hd.
    rewrite <- Hk, (guarded_get w h Hg Hd) in E. done.
  - intros _ l <- <- t Ht Hd. destruct Hc as (Hnow & _ & Hp). rewrite Hp by done. simpl.
    rewrite String.eqb_refl. unfold until. simpl in Hd. rewrite (proj2 (Z.ltb_lt _ _)); [done|lia].
Qed.

(** The scripts touch no other owner's lock. *)
Lemma release_guards l w h :
  Lock.tok h.1 ≠ Lock.tok l → guarded w h → guarded (releaseScript (Lock.key l) (Lock.tok l) w).2 h.
Proof.
  intros Hne Hg. unfold releaseScript. destruct (redis_get (Lock.key l) w) as [v|] eqn:E; [|done].
  destruct (String.eqb_spec v (Lock.tok l)) as [->|]; [|done].
  apply (changes_guarded w _ (Lock.key l) _ h (del_spec _ _) Hg). intros Hk Hd.
  rewrite <- Hk, (guarded_get w h Hg Hd) in E. congruence.
Qed.

Lemma extend_guards l ms w h :
  0 < ms → Lock.tok h.1 ≠ Lock.tok l → guarded w h → guarded (extendScript (Lock.key l) (Lock.tok l) ms w).2 h.
Proof.
  intros Hms Hne Hg. unfold extendScript. destruct (redis_get (Lock.key l) w) as [v|] eqn:E; [|done].
  destruct (String.eqb_spec v (Lock.tok l)) as [->|]; [|done].
  apply (changes_guarded w _ (Lock.key l) _ h (pexpire_spec _ _ _ _ E Hms) Hg). intros Hk Hd.
  rewrite <- Hk, (guarded_get w h Hg Hd) in E. congruence.
Qed.

(** The owner's own lock after an extension: until the new time if it succeeded,
    until the earlier one in any case. *)
Lemma extend_own l ms d w :
  0 < ms → guarded w (l, d) →
  let r := extendScript (Lock.key l) (Lock.tok l) ms w in
  server_now r.2 = server_now w
  ∧ (r.1 ≠ 0 → guarded r.2 (l, server_now r.2 + ms * Millisecond))
  ∧ guarded r.2 (l, Z.min d (server_now r.2 + ms * Millisecond)).
Proof.
  intros Hms Hg. unfold extendScript. destruct (redis_get (Lock.key l) w) as [v|] eqn:E; simpl.
  2: { split; [done|]. split; [done|]. intros t Ht Hd. apply Hg; simpl in *; lia. }
  destruct (String.eqb_spec v (Lock.tok l)) as [->|]; simpl.
  2: { split; [done|]. split; [done|]. intros t Ht Hd. apply Hg; simpl in *; lia. }
  destruct (pexpire_spec _ _ _ _ E Hms) as (Hnow & _ & Hp). split; [done|].
  assert (∀ d', d' ≤ server_now w + ms * Millisecond → guarded (redis_pexpire (Lock.key l) ms w) (l, d')) as Hany.
  { intros d' Hd' t Ht Hd. rewrite Hp by done. simpl in *. rewrite String.eqb_refl. unfold until.
    rewrite (proj2 (Z.ltb_lt _ _)); [done|lia]. }
  split; [intros _|]; apply Hany; lia.
Qed.

Lemma elem_of_without l (hs : list (Lock * Time)) h :
  h ∈ without l hs ↔ h ∈ hs ∧ Lock.tok h.1 ≠ Lock.tok l.
Proof. unfold without. rewrite list_elem_of_filter, String.eqb_neq. tauto. Qed.

Lemma NoDup_without l (hs : list (Lock * Time)) :
  NoDup (Lock.tok <$> hs.*1) → NoDup (Lock.tok <$> (without l hs).*1).
Proof.
  unfold without. rewrite <- !list_fmap_compose. intros H. eapply sublist_NoDup; [exact H|].
  apply fmap_sublist, sublist_filter.
Qed.

Lemma acquired_ok o key ttl r w' :
  owners_ok o → 0 < ttl → (token (redis o)).1 ∉ drawn o → Acquire key ttl (redis o) = (r, w') →
  owners_ok (mkOwners w' (match r with Ok l => (l, server_now w' + kept_for ttl) :: held o | Err _ => held o end)
               ((token (redis o)).1 :: drawn o)).
Proof.
  intros [Hg Hd Hu] Httl Hnew. unfold Acquire. pose proof (token_spec (redis o)) as Hp.
  destruct (token (redis o)) as [tok w1]. simpl in *.
  assert (∀ h w2, passes w1 w2 → h ∈ held o → guarded w2 h) as Hw2.
  { intros h w2 Hp2 Hh. apply (guarded_passes (redis o)); [by eapply passes_trans|by apply Hg]. }
  assert (∀ h, h ∈ held o → Lock.tok h.1 ∈ tok :: drawn o) as Hdrawn by (intros h Hh; right; by apply Hd).
  apply (request_spec (set_nx key tok ttl) w1).
  - intros w2 Hp2. destruct (set_nx_guards key tok ttl w2 Httl) as [Hold Hown].
    destruct (set_nx key tok ttl w2) as [[] w3]; simpl in *; intros [= <- <-].
    + split; simpl.
      * intros h [->|Hh]%elem_of_cons; [by apply Hown|by apply Hold, Hw2].
      * intros h [->|Hh]%elem_of_cons; [by left|by apply Hdrawn].
      * apply NoDup_cons. split; [|done]. intros (l & Hl & (h & -> & Hh)%list_elem_of_fmap)%list_elem_of_fmap.
        destruct Hnew. rewrite Hl. by apply Hd.
    + split; simpl; [|done..]. intros h Hh. by apply Hold, Hw2.
  - intros e w2 Hp2 [= <- <-]. split; simpl; [|done..]. intros h Hh. by apply Hw2.
  - intros e w2 Hp2 [= <- <-]. split; simpl; [|done..]. intros h Hh.
    by apply (set_nx_guards key tok ttl w2 Httl), Hw2.
Qed.

Lemma released_ok o l :
  owners_ok o → owners_ok (mkOwners (Release l (redis o)).2 (without l (held o)) (drawn o)).
Proof.
  intros [Hg Hd Hu]. split; simpl.
  - intros h [Hh Hne]%elem_of_without. unfold Release.
    assert (∀ r : result error Z * W, guarded r.2 h → guarded (let '(x, w) := r in
      (match x with Err e => Some (wrap_with CodeUnavailable "redis: release lock" e)
       | Ok res => if res =? 0 then Some (Platform (New CodeConflict "redis: lock no longer owned")) else None end, w)).2 h)
      as Hsnd by by intros [].
    apply Hsnd. apply (request_spec _ (redis o) (λ r, guarded r.2 h)); intros *; simpl.
    + intros Hp. by apply release_guards, (guarded_passes (redis o)), Hg.
    + intros Hp. by apply (guarded_passes (redis o)), Hg.
    + intros Hp. by apply release_guards, (guarded_passes (redis o)), Hg.
  - intros h [Hh _]%elem_of_without. by apply Hd.
  - by apply NoDup_without.
Qed.

Lemma Milliseconds_pos ttl : Millisecond ≤ ttl → 0 < Milliseconds ttl.
Proof. unfold Milliseconds. intros H. apply Z.quot_str_pos. unfold Millisecond in *. lia. Qed.

(** A lock whose time has been adjusted replaces itself among the held ones. *)
Lemma replaced_ok o l d l' d' w' :
  owners_ok o → (l, d) ∈ held o → Lock.tok l' = Lock.tok l →
  (∀ h, h ∈ held o → Lock.tok h.1 ≠ Lock.tok l → guarded w' h) → guarded w' (l', d') →
  owners_ok (mkOwners w' ((l', d') :: without l (held o)) (drawn o)).
Proof.
  intros [Hg Hd Hu] Hl Htok Hothers Hown. split; simpl.
  - intros h [->|[Hh Hne]%elem_of_without]%elem_of_cons; [done|by apply Hothers].
  - intros h [->|[Hh _]%elem_of_without]%elem_of_cons; [|by apply Hd]. simpl. rewrite Htok. apply (Hd (l, d) Hl).
  - apply NoDup_cons. split; [|by apply NoDup_without]. rewrite Htok.
    intros (l2 & Hl2 & (h & -> & [_ Hne]%elem_of_without)%list_elem_of_fmap)%list_elem_of_fmap. by symmetry in Hl2.
Qed.

Lemma extended_ok o l d ttl r w' :
  owners_ok o → (l, d) ∈ held o → Millisecond ≤ ttl → Extend l ttl (redis o) = (r, w') →
  let d' := server_now w' + Milliseconds ttl * Millisecond in
  owners_ok (mkOwners w' (match r with
    | Ok l' => (l', d') :: without l (held o)
    | Err _ => (l, Z.min d d') :: without l (held o)
    end) (drawn o)).
Proof.
  intros Hok Hl Httl%Milliseconds_pos. unfold Extend.
  assert (∀ h w1, passes (redis o) w1 → h ∈ held o → guarded w1 h) as Hpass.
  { intros h w1 Hp Hh. apply (guarded_passes (redis o)); [done|by apply Hok]. }
  assert (∀ w1, passes (redis o) w1 → ∀ h, h ∈ held o → Lock.tok h.1 ≠ Lock.tok l →
    guarded (extendScript (Lock.key l) (Lock.tok l) (Milliseconds ttl) w1).2 h) as Hothers.
  { intros w1 Hp h Hh Hne. by apply extend_guards, Hpass. }
  apply (request_spec (extendScript (Lock.key l) (Lock.tok l) (Milliseconds ttl)) (redis o)).
  - intros w1 Hp. specialize (Hothers w1 Hp).
    destruct (extend_own l (Milliseconds ttl) d w1 Httl (Hpass _ w1 Hp Hl)) as (_ & Hlong & Hshort).
    destruct (extendScript _ _ _ w1) as [res w2]; simpl in *.
    destruct (Z.eqb_spec res 0); intros [= <- <-]; apply (replaced_ok o l d); auto.
  - intros e w1 Hp [= <- <-]. apply (replaced_ok o l d); auto.
    intros t Ht Hd. apply (Hpass (l, d) w1 Hp Hl); simpl in *; [done|lia].
  - intros e w1 Hp [= <- <-]. specialize (Hothers w1 Hp).
    destruct (extend_own l (Milliseconds ttl) d w1 Httl (Hpass _ w1 Hp Hl)) as (_ & _ & Hshort).
    apply (replaced_ok o l d); auto.
Qed.

Lemma owner_step_ok o o' : owners_ok o → owner_step o o' → owners_ok o'.
Proof.
  intros Hok [w' Hp|key ttl r w' Httl Hnew Ha|l d Hl|l d ttl r w' Hl Httl He].
  - destruct Hok as [Hg Hd Hu]. split; [|done..]. intros h Hh. apply (guarded_passes (redis o)); [done|by apply Hg].
  - by eapply acquired_ok.
  - by apply released_ok.
  - by apply (extended_ok o l d ttl r w').
Qed.

Lemma owner_reachable_ok o o' : owners_ok o → owner_reachable o o' → owners_ok o'.
Proof. intros Hok. induction 1; [done|]. by eapply owner_step_ok. Qed.

(** C15: the lock excludes.  Callers acquire, extend and release locks in any
    order, at any time, over a network that loses requests and replies; two held
    locks of one key that their owners may still rely on are the same lock. *)
Theorem lock_exclusive o o' h1 h2 :
  owners_ok o → owner_reachable o o' → h1 ∈ held o' → h2 ∈ held o' → Lock.key h1.1 = Lock.key h2.1 →
  server_now (redis o') < h1.2 → server_now (redis o') < h2.2 → h1 = h2.
Proof.
  intros Hok Hr H1 H2 Hk Hd1 Hd2. apply (owner_reachable_ok o o') in Hr as [Hg _ Hu]; [|done].
  apply (NoDup_key_eq (λ h : Lock * Time, Lock.tok h.1) (held o')); [|done..|].
  - by rewrite <- list_fmap_compose in Hu.
  - pose proof (guarded_get _ _ (Hg h1 H1) Hd1) as G1. pose proof (guarded_get _ _ (Hg h2 H2) Hd2) as G2.
    rewrite Hk, G2 in G1. by injection G1.
Qed.

(** ** The waiting loop ends *)

Lemma Acquire_time key ttl w : 0 < ttl → process_now w ≤ process_now (Acquire key ttl w).2.
Proof.
  intros Httl. unfold Acquire. pose proof (token_spec w) as (_ & Ht & _). destruct (token w) as [tok w1]. simpl in Ht.
  assert (process_now w1 ≤ process_now (request (set_nx key tok ttl) w1).2) as H.
  { assert (∀ w2, process_now (set_nx key tok ttl w2).2 = process_now w2) as Hnx.
    { intros w2. pose proof (set_nx_spec key tok ttl w2 Httl) as Hs. destruct (redis_get key w2); [by rewrite Hs|].
      by destruct Hs as [_ (_ & Hs & _)]. }
    apply (request_spec _ w1 (λ r, process_now w1 ≤ process_now r.2)); simpl.
    - intros w2 (_ & Hw2 & _). by rewrite Hnx.
    - by intros e w2 (_ & Hw2 & _).
    - intros e w2 (_ & Hw2 & _). by rewrite Hnx. }
  destruct (request _ w1) as [r w2]. simpl in *. lia.
Qed.

Lemma acquire_wait_ends key ttl deadline retry : 0 < ttl → 0 < retry →
  ∀ fuel w, (0 < fuel)%nat → deadline < process_now w + (Z.of_nat fuel - 1) * retry →
  (acquire_wait fuel key ttl deadline retry w).1 ≠ None.
Proof.
  intros Httl Hretry. induction fuel as [|fuel IH]; intros w Hf Hw; [lia|]. cbn [acquire_wait].
  pose proof (Acquire_time key ttl w Httl) as Ht. destruct (Acquire key ttl w) as [[l|e] w1]; [done|]. simpl in Ht.
  destruct (negb _); [done|]. unfold After. destruct (Z.ltb_spec deadline (process_now w1)) as [|Hlate]; [done|].
  destruct (done_err w1); [done|]. destruct (wait_spec retry w1) as [_ Hwait].
  destruct fuel as [|fuel]; [lia|]. apply IH; [lia|]. nia.
Qed.

(** Waiting for a lock ends: the rounds given to the loop are enough. *)
Theorem AcquireWait_ends key ttl wait retry w :
  0 < ttl → 0 < retry → ∃ r w', AcquireWait key ttl wait retry w = (Some r, w').
Proof.
  intros Httl Hretry. unfold AcquireWait.
  pose proof (acquire_wait_ends key ttl (Add (process_now w) wait) retry Httl Hretry (wait_rounds wait retry) w) as H.
  destruct (acquire_wait _ _ _ _ _ _) as [[r|] w']; [by exists r, w'|]. exfalso. apply H; [..|done]; unfold wait_rounds.
  - pose proof (Z.div_pos (Z.max 0 wait) retry). lia.
  - unfold Add. pose proof (Z.div_pos (Z.max 0 wait) retry ltac:(lia) Hretry).
    pose proof (Z.mul_succ_div_gt (Z.max 0 wait) retry Hretry). rewrite Z2Nat.id by lia. nia.
Qed.
End exclusion.

(** ** A server in memory *)

Record memory := mkMemory { store : gmap string (string * Time); clock : Time; tokens : Z; script : list delivery }.

Definition live (m : memory) (k : string) (t : Time) : option string :=
  store m !! k ≫= λ e, until e.2 e.1 t.

#[export] Instance memory_redis : Redis memory := {|
  server_now := clock;
  peek := live;
  set_nx k v ttl m :=
    match live m k (clock m) with
    | Some _ => (false, m)
    | None => (true, mkMemory (<[k := (v, clock m + kept_for ttl)]> (store m)) (clock m) (tokens m) (script m))
    end;
  redis_get k m := live m k (clock m);
  redis_del k m := mkMemory (delete k (store m)) (clock m) (tokens m) (script m);
  redis_pexpire k ms m :=
    match live m k (clock m) with
    | Some v => mkMemory (<[k := (v, clock m + ms * Millisecond)]> (store m)) (clock m) (tokens m) (script m)
    | None => m
    end;
  network m := (default Delivered (head (script m)), mkMemory (store m) (clock m) (tokens m) (tail (script m)));
  token m := ("tok-" +:+ pretty (tokens m), mkMemory (store m) (clock m) (tokens m + 1) (script m));
  wait_for d m := mkMemory (store m) (clock m + Z.max 0 d) (tokens m) (script m);
  process_now := clock;
  done_err _ := None;
|}.

#[export] Instance memory_laws : RedisLaws memory.
Proof.
  assert (∀ m k t f b, live (mkMemory (<[k := (t, f)]> (store m)) (clock m) (tokens m) (script m)) = b →
    changes k (until f t) m (mkMemory (<[k := (t, f)]> (store m)) (clock m) (tokens m) (script m))) as Hins.
  { intros m k v f _ _. split; [done|]. split; [done|]. intros k' t _. simpl. unfold live. simpl.
    destruct (String.eqb_spec k' k) as [->|]; [by rewrite lookup_insert_eq|by rewrite lookup_insert_ne]. }
  split; simpl; unfold passes; simpl.
  - done.
  - intros k v ttl m Httl. destruct (live m k (clock m)); [done|]. split; [done|]. simpl. by eapply Hins.
  - intros k m. split; [done|]. split; [done|]. intros k' t _. simpl. unfold live. simpl.
    destruct (String.eqb_spec k' k) as [->|]; [by rewrite lookup_delete_eq|by rewrite lookup_delete_ne].
  - intros k ms v m -> Hms. by eapply Hins.
  - done.
  - done.
  - intros d m. split; [|lia]. split; [lia|]. split; [lia|]. done.
Qed.

(** One caller holds the lock, loses the reply of an extension, and another
    cannot acquire it until the time the first relies on has passed. *)
Definition empty_memory : memory := mkMemory ∅ 0 0 [].
Definition no_owners : owners memory := mkOwners empty_memory [] [].

Lemma no_owners_ok : owners_ok no_owners.
Proof. split; simpl; [by intros h ?%elem_of_nil..|constructor]. Qed.

Definition leader : Lock * Time := (Lock.mk "cron:leader" "tok-0" (60 * Second), 60 * Second).
Definition one_owner : owners memory :=
  mkOwners (Acquire "cron:leader" (60 * Second) empty_memory).2 [leader] ["tok-0"].

Lemma lock_exclusive_witness :
  is_ok (Acquire "cron:leader" (60 * Second) (redis one_owner)).1 = false ∧ leader = leader.
Proof.
  split; [vm_compute; reflexivity|].
  apply (lock_exclusive no_owners one_owner); [apply no_owners_ok| |by left|by left|done|by vm_compute|by vm_compute].
  apply (owner_next no_owners no_owners); [apply owner_start|].
  assert (one_owner = mkOwners (redis one_owner) [(leader.1, server_now (redis one_owner) + kept_for (60 * Second))]
                        [(token empty_memory).1]) as -> by (vm_compute; reflexivity).
  apply (do_acquire no_owners "cron:leader" (60 * Second) (Ok leader.1)); [by vm_compute| |vm_compute; reflexivity].
  by intros ?%elem_of_nil.
Defined.

Lemma AcquireWait_ends_witness :
  ∃ r w', AcquireWait "cron:leader" (60 * Second) (3 * Second) Second (redis one_owner) = (Some r, w').
Proof. apply AcquireWait_ends; by vm_compute. Defined.
