(* ===== verification/Cron.v ===== *)
(** * The cron scheduler (packages/application/ops/cron/scheduler.go)

    A tick takes the leader lock, lists the jobs that are due and fires each:
    it enqueues the job and writes back the next run.  [encode_raw] is
    [json.Marshal] of a raw document. *)

From S2P Require Import Prelude GoLib Calendar Errors Postgres Sql Jobs DeployModel Rows ControlPlane OpsModel OpsStore RedisLock.

Definition leaderLockKey : string := "cron:leader".
Definition leaderLockTTL : Duration := 60 * Second.
Definition tickInterval : Duration := 30 * Second.

(** [nextRunAfter]; the time zone is ignored. *)
Definition nextRunAfter (schedule : string) (from : Time) : Time :=
  let '(y, m, d) := date_of from in
  if (schedule =s? "@yearly") || (schedule =s? "@annually") then Date (y + 1) 1 1 0
  else if schedule =s? "@monthly" then Date y (m + 1) 1 0
  else if schedule =s? "@weekly" then Add (Truncate from (24 * Hour)) (7 * 24 * Hour)
  else if (schedule =s? "@daily") || (schedule =s? "@midnight") then Date y m (d + 1) 0
  else if schedule =s? "@hourly" then Add (Truncate from Hour) Hour
  else Truncate (Add from Minute) Minute.

Definition cron_key (name : string) (now : Time) : string := "cron:" +:+ name +:+ ":" +:+ format_minute now.

Section scheduler.
Context {W : Type} `{En : Environment W} `{Re : Redis W} `{D : Driver} `{So : Sorter}.
Context (encode_raw : option string → result error string).

Definition fire (job : CronJob) : db (opsdb W) unit :=
  from ← time_now;
  let nextRun := nextRunAfter (CronJob.Schedule job) from in
  now ← time_now;
  r ← attempt (enqueue_job (CronJob.JobQueue job) (CronJob.JobType job) (encode_raw (CronJob.Payload job))
                 (options 0 0 3 (cron_key (CronJob.Name job) now)));
  let lastErr := match r with Err e => ErrorString e | Ok _ => "" end in
  ignore (UpdateCronJobAfterRun (CronJob.ID job) nextRun lastErr).

Fixpoint fire_all (jobs : list CronJob) : db (opsdb W) unit :=
  match jobs with
  | [] => mret tt
  | j :: jobs => _ ← fire j; fire_all jobs
  end.

Definition fireDueJobs : db (opsdb W) unit :=
  due ← attempt GetCronJobsDue;
  match due with
  | Err _ => mret tt
  | Ok jobs => fire_all jobs
  end.

(** Without a Redis client the node always leads. *)
Definition tick (redis : bool) : db (opsdb W) unit :=
  if negb redis then fireDueJobs
  else
    lock ← call (Acquire leaderLockKey leaderLockTTL) (λ _, []);
    match lock with
    | Err _ => mret tt
    | Ok lock => _ ← fireDueJobs; _ ← call (Release lock) (λ _, []); mret tt
    end.

Definition Register (name schedule timezone queue jobType : string) (payload : option string) : db (opsdb W) unit :=
  from ← time_now;
  let next := nextRunAfter schedule from in
  _ ← UpsertCronJob
        {| CronJob.ID := ""; CronJob.Name := name; CronJob.Schedule := schedule; CronJob.Timezone := timezone;
           CronJob.JobQueue := queue; CronJob.JobType := jobType; CronJob.Payload := payload;
           CronJob.Status := CronActive; CronJob.LastRunAt := None; CronJob.NextRunAt := Some next;
           CronJob.LastError := ""; CronJob.CorrelationID := ""; CronJob.CreatedAt := 0; CronJob.UpdatedAt := 0 |};
  mret tt.
End scheduler.

(** ** The next run *)

Lemma Truncate_bounds t d : 0 < d → t - d < Truncate t d ≤ t.
Proof.
  intros Hd. unfold Truncate. destruct (Z.leb_spec d 0); [lia|]. pose proof (Z.mod_pos_bound t d Hd). lia.
Qed.

Lemma Date_later y m d clock y' m' d' :
  day_number y m d < day_number y' m' d' → 0 ≤ clock < Day → Date y m d clock < Date y' m' d' 0.
Proof. unfold Date, Day, Hour, Minute, Second. lia. Qed.

(** The first of the next year, of the next month, and the next day. *)
Lemma next_year_bounds y m d : valid_date (y, m, d) = true →
  day_number y m d < day_number (y + 1) 1 1 ≤ day_number y m d + 366.
Proof.
  intros Hv. pose proof (days_before_month_bounds y m d Hv) as Hb. pose proof (day_number_valid y m d Hv) as Hn.
  destruct (day_number_year y 1 1) as (n & Hlen & E).
  assert (valid_date (y, 1, 1) = true) as Hv1.
  { unfold valid_date. pose proof (days_in_month_pos y 1). rewrite !andb_true_iff, !Z.leb_le. lia. }
  pose proof (day_number_valid y 1 1 Hv1) as Hn1.
  unfold valid_date in Hv. rewrite !andb_true_iff, !Z.leb_le in Hv.
  assert (days_before_month y 1 = 0) as E1 by (unfold days_before_month; by destruct (leap y)).
  split; [|lia].
  assert (valid_date (y + 1, 1, 1) = true) as Hv2.
  { unfold valid_date. pose proof (days_in_month_pos (y + 1) 1). rewrite !andb_true_iff, !Z.leb_le. lia. }
  rewrite (day_number_valid _ _ _ Hv2), days_before_year_S, Hn.
  assert (days_before_month (y + 1) 1 = 0) as E2 by (unfold days_before_month; by destruct (leap (y + 1))). lia.
Qed.

Lemma next_month_bounds y m d : valid_date (y, m, d) = true →
  day_number y m d < day_number y (m + 1) 1 ≤ day_number y m d + 31.
Proof.
  intros Hv. split; [by apply day_number_next_month|].
  rewrite day_number_month. pose proof (days_in_month_pos (y + (m - 1) / 12) ((m - 1) mod 12 + 1)).
  unfold valid_date in Hv. rewrite !andb_true_iff, !Z.leb_le in Hv. unfold day_number. lia.
Qed.

(** The next run is later, by a year at most. *)
Lemma nextRunAfter_later schedule from :
  from < nextRunAfter schedule from ≤ from + 366 * Day.
Proof.
  unfold nextRunAfter. pose proof (Date_of from) as Hfrom. pose proof (clock_of_bounds from) as Hc.
  pose proof (date_of_day_spec (from / Day)) as Hspec. unfold date_of in *.
  destruct (date_of_day (from / Day)) as [[y m] d]. destruct Hspec as [Hv _].
  repeat match goal with |- context [if ?b then _ else _] => destruct b end.
  - pose proof (next_year_bounds y m d Hv). unfold Date, Day, Hour, Minute, Second in *. lia.
  - pose proof (next_month_bounds y m d Hv). unfold Date, Day, Hour, Minute, Second in *. lia.
  - pose proof (Truncate_bounds from (24 * Hour) ltac:(by vm_compute)). unfold Add, Day, Hour, Minute, Second in *. lia.
  - assert (day_number y m (d + 1) = day_number y m d + 1) as E by (unfold day_number; lia).
    unfold Date, Day, Hour, Minute, Second in *. lia.
  - pose proof (Truncate_bounds from Hour ltac:(by vm_compute)). unfold Add, Day, Hour, Minute, Second in *. lia.
  - pose proof (Truncate_bounds (Add from Minute) Minute ltac:(by vm_compute)).
    unfold Add, Day, Hour, Minute, Second in *. lia.
Qed.

(** ** Firing *)

Section firing.
Context {W : Type} `{En : Environment W} `{L : !EnvironmentLaws W} `{Re : Redis W} `{D : Driver} `{So : Sorter}.
Context (encode_raw : option string → result error string).
Implicit Types (s : opsdb W) (j : CronJob).

(** The identifiers in the queue were issued by the environment. *)
Definition ids_issued s : Prop := ∀ job, job ∈ job_queue s → issued (env s) (Job.ID job).

Lemma runs_time_now s :
  runs time_now s (Ok (read_clock (env s)).1) (set_env (read_clock (env s)).2 s).
Proof. unfold runs, time_now. by destruct (read_clock (env s)). Qed.

Lemma runs_new_id s : runs new_id s (Ok (fresh_id (env s)).1) (set_env (fresh_id (env s)).2 s).
Proof. unfold runs, new_id. by destruct (fresh_id (env s)). Qed.

(** Enqueuing with a key, when nothing fails. *)
Lemma enqueue_job_runs queue jobType raw key s :
  ids_issued s → key ≠ "" →
  ∃ job s', runs (enqueue_job queue jobType (Ok raw) (options 0 0 3 key)) s (Ok job) s'
    ∧ cron_jobs s' = cron_jobs s ∧ time_of (env s) ≤ time_of (env s') ∧ ids_issued s'
    ∧ (∃ l, job_queue s' = job_queue s ++ l) ∧ has_job queue key (job_queue s').
Proof.
  intros Hids Hkey. unfold enqueue_job.
  destruct (fresh_id_spec (env s)) as (Ht1 & _ & Hnew & Hissued1). set (w1 := (fresh_id (env s)).2) in *.
  destruct (read_clock_spec w1) as (Ht2 & Hissued2). set (w2 := (read_clock w1).2) in *.
  set (row := new_row (fresh_id (env s)).1 queue jobType raw (options 0 0 3 key) (Some key) (read_clock w1).1).
  assert (runs (zoom job_queue_l (Enqueue (fresh_id (env s)).1 queue jobType (Ok raw) (options 0 0 3 key)
            (read_clock w1).1)) (set_env w2 s)
            match (insert_job row (job_queue s)).1 with Ok a => Ok a | Err e => Err (default e (Translate (Some e) "jobs: enqueue")) end
            (set_job_queue (insert_job row (job_queue s)).2 (set_env w2 s))) as Hrun.
  { apply (runs_zoom job_queue_l). unfold Enqueue. cbn [IdempotencyKey options].
    apply String.eqb_neq in Hkey as ->. apply runs_translate. apply (runs_query (insert_job row)). }
  assert (∀ r s', runs (zoom job_queue_l (Enqueue (fresh_id (env s)).1 queue jobType (Ok raw) (options 0 0 3 key)
            (read_clock w1).1)) (set_env w2 s) r s' →
          runs (id ← new_id; now ← time_now; zoom job_queue_l (Enqueue id queue jobType (Ok raw) (options 0 0 3 key) now))
            s r s') as Hbind.
  { intros r s' Hr. eapply runs_bind; [apply runs_new_id|]. eapply runs_bind; [apply runs_time_now|]. exact Hr. }
  assert (∀ t, (∀ job, job ∈ t → job ∈ job_queue s ∨ job = row) → ids_issued (set_job_queue t (set_env w2 s))) as Hids'.
  { intros t Ht job Hjob. simpl in *. apply Hissued2, Hissued1. destruct (Ht job Hjob) as [?|Hr]; [right; by apply Hids|left; by rewrite Hr]. }
  unfold insert_job in Hrun. cbn [row new_row Job.Queue Job.IdempotencyKey Job.ID] in Hrun.
  destruct (select (conflicts queue (Some key)) (job_queue s)) as [|job l] eqn:Es.
  - assert (matched (λ x : Job, Job.ID x =s? (fresh_id (env s)).1) (job_queue s) = 0) as Hm.
    { apply matched_zero. intros job Hjob. apply String.eqb_neq. intros E. apply Hnew. rewrite <- E. by apply Hids. }
    rewrite Hm in Hrun. cbn [Z.eqb fst snd] in Hrun. eexists _, _. split; [exact (Hbind _ _ Hrun)|]. simpl. split; [done|]. split; [lia|]. split.
    + apply Hids'. intros job [?|Hr%list_elem_of_singleton]%elem_of_app; eauto.
    + split; [by eexists|]. exists row. split; [by apply elem_of_app; right; left|done].
  - cbn [fst snd] in Hrun. eexists _, _. split; [exact (Hbind _ _ Hrun)|]. simpl. split; [done|]. split; [lia|]. split; [apply Hids'; eauto|].
    split; [exists []; by rewrite app_nil_r|].
    assert (job ∈ select (conflicts queue (Some key)) (job_queue s)) as [Hc Hj]%elem_of_select by (rewrite Es; by left).
    exists job. split; [done|]. unfold conflicts in Hc. destruct (Job.IdempotencyKey job); [|done].
    bool_to_prop. by subst.
Qed.

Lemma UpdateCronJobAfterRun_runs id next lastErr s :
  id ≠ "" → ids_issued s →
  ∃ at_ now s', runs (UpdateCronJobAfterRun id next lastErr) s (Ok tt) s'
    ∧ cron_jobs s' = update_where (λ j, CronJob.ID j =s? id) (after_run next lastErr at_ now) (cron_jobs s)
    ∧ job_queue s' = job_queue s ∧ time_of (env s) ≤ time_of (env s') ∧ ids_issued s'.
Proof.
  intros Hid Hids. destruct (read_clock_spec (env s)) as (Ht1 & Hi1). set (w1 := (read_clock (env s)).2) in *.
  destruct (read_clock_spec w1) as (Ht2 & Hi2). set (w2 := (read_clock w1).2) in *.
  set (at_ := (read_clock (env s)).1). set (now := (read_clock w1).1).
  exists at_, now, (set_cron_jobs (update_where (λ j, CronJob.ID j =s? id) (after_run next lastErr at_ now) (cron_jobs s))
                      (set_env w2 s)).
  split; [|split; [done|]; split; [done|]; split; [simpl; lia|]].
  - unfold UpdateCronJobAfterRun. eapply runs_bind; [apply runs_time_now|]. eapply runs_bind; [apply runs_time_now|].
    apply (runs_translate _ _ _ (Ok tt)). unfold stmt, runs, query. simpl. unfold update_row, with_uuids. simpl.
    by apply String.eqb_neq in Hid as ->.
  - intros job Hjob. apply Hi2, Hi1. by apply Hids.
Qed.

(** A row after it was fired at a time from [t0] on. *)
Definition fired (t0 : Time) (queue : list Job) (j j' : CronJob) : Prop :=
  ∃ from at_ a n, t0 ≤ from ∧ t0 ≤ at_
    ∧ j' = after_run (nextRunAfter (CronJob.Schedule j) from) "" a n j
    ∧ has_job (CronJob.JobQueue j) (cron_key (CronJob.Name j) at_) queue.

Lemma fire_runs j raw s :
  CronJob.ID j ≠ "" → encode_raw (CronJob.Payload j) = Ok raw → ids_issued s →
  ∃ s' from at_ a n, runs (fire encode_raw j) s (Ok tt) s'
    ∧ time_of (env s) ≤ from ∧ time_of (env s) ≤ at_ ∧ time_of (env s) ≤ time_of (env s') ∧ ids_issued s'
    ∧ cron_jobs s' = update_where (λ x, CronJob.ID x =s? CronJob.ID j)
                       (after_run (nextRunAfter (CronJob.Schedule j) from) "" a n) (cron_jobs s)
    ∧ (∃ l, job_queue s' = job_queue s ++ l)
    ∧ has_job (CronJob.JobQueue j) (cron_key (CronJob.Name j) at_) (job_queue s').
Proof.
  intros Hid Hraw Hids. destruct (read_clock_spec (env s)) as (Ht1 & Hi1). set (w1 := (read_clock (env s)).2) in *.
  destruct (read_clock_spec w1) as (Ht2 & Hi2). set (w2 := (read_clock w1).2) in *.
  set (from := (read_clock (env s)).1) in *. set (at_ := (read_clock w1).1) in *.
  assert (ids_issued (set_env w2 s)) as Hids2 by (intros job Hjob; apply Hi2, Hi1; by apply Hids).
  destruct (enqueue_job_runs (CronJob.JobQueue j) (CronJob.JobType j) raw (cron_key (CronJob.Name j) at_) _ Hids2
              ltac:(done)) as (job & s1 & Hrun & Hcron & Ht3 & Hids3 & Hl & Hjob).
  destruct (UpdateCronJobAfterRun_runs (CronJob.ID j) (nextRunAfter (CronJob.Schedule j) from) "" s1 Hid Hids3)
    as (a & n & s2 & Hupd & Hcron2 & Hq & Ht4 & Hids4).
  exists s2, from, at_, a, n. split.
  - unfold fire. eapply runs_bind; [apply runs_time_now|]. eapply runs_bind; [apply runs_time_now|].
    rewrite Hraw. eapply runs_bind; [apply runs_attempt; exact Hrun|]. cbn beta iota. by eapply runs_ignore.
  - simpl in *. rewrite Hcron2, Hcron, Hq. split_and!; try done; lia.
Qed.

Lemma fire_all_runs js : ∀ s t0,
  t0 ≤ time_of (env s) → NoDup (CronJob.ID <$> cron_jobs s) → NoDup (CronJob.ID <$> js) → ids_issued s →
  (∀ j, j ∈ js → j ∈ cron_jobs s ∧ CronJob.ID j ≠ "" ∧ is_ok (encode_raw (CronJob.Payload j)) = true) →
  ∃ s', runs (fire_all encode_raw js) s (Ok tt) s'
    ∧ (∃ l, job_queue s' = job_queue s ++ l)
    ∧ Forall2 (λ j j', if bool_decide (CronJob.ID j ∈ CronJob.ID <$> js) then fired t0 (job_queue s') j j' else j' = j)
        (cron_jobs s) (cron_jobs s').
Proof.
  induction js as [|j js IH]; intros s t0 Ht0 Hd Hdj Hids Hjs; cbn [fire_all].
  { exists s. split; [done|]. split; [exists []; by rewrite app_nil_r|]. apply Forall2_same_length_lookup.
    split; [done|]. intros i x y Hx Hy. simpl. congruence. }
  destruct (Hjs j ltac:(by left)) as (Hj & Hid & Hraw). destruct (encode_raw (CronJob.Payload j)) as [raw|] eqn:Er; [|done].
  destruct (fire_runs j raw s Hid Er Hids) as (s1 & from & at_ & a & n & Hrun & Hfrom & Hat & Ht1 & Hids1 & Hcron & [l1 Hl1] & Hjob).
  apply NoDup_cons in Hdj as [Hnj Hdj].
  set (f := after_run (nextRunAfter (CronJob.Schedule j) from) "" a n) in *.
  assert (∀ x, x ∈ js → CronJob.ID x ≠ CronJob.ID j) as Hother.
  { intros x Hx E. destruct Hnj. rewrite <- E. by apply (list_elem_of_fmap_2 CronJob.ID). }
  destruct (IH s1 t0) as (s2 & Hrun2 & [l2 Hl2] & Hall).
  { lia. }
  { rewrite Hcron. by rewrite map_key_update_where. }
  { done. }
  { done. }
  { intros x Hx. destruct (Hjs x ltac:(by right)) as (Hx' & ? & ?). split; [|done]. rewrite Hcron.
    apply elem_of_update_where. exists x. split; [done|]. by rewrite (proj2 (String.eqb_neq _ _) (Hother x Hx)). }
  exists s2. split; [by eapply runs_bind|]. split; [exists (l1 ++ l2); by rewrite Hl2, Hl1, app_assoc|].
  rewrite Hcron in Hall. unfold update_where in Hall. rewrite Forall2_fmap_l in Hall.
  apply Forall2_same_length_lookup in Hall as [Hlen Hall]. apply Forall2_same_length_lookup. split; [done|].
  intros i x y Hx Hy. specialize (Hall i x y Hx Hy). simpl in Hall. rewrite fmap_cons.
  destruct (String.eqb_spec (CronJob.ID x) (CronJob.ID j)) as [E|E].
  - assert (x = j) as ->.
    { apply (NoDup_key_eq CronJob.ID (cron_jobs s)); try done. by eapply list_elem_of_lookup_2. }
    rewrite bool_decide_true by (by left). rewrite bool_decide_false in Hall by done.
    exists from, at_, a, n. split; [lia|]. split; [lia|]. split; [done|]. rewrite Hl2. by apply has_job_app.
  - case_bool_decide as Hin.
    + rewrite bool_decide_true; [done|by right].
    + rewrite bool_decide_false; [done|]. by intros [?|?]%elem_of_cons.
Qed.

(** Every due cron job is fired.  When no statement fails, a round finds the
    jobs that are due at its start and, for each, leaves a job with the key of
    its name and the minute in its queue and moves its next run to a later time,
    at most a year away; the other rows stay as they are. *)
Theorem fireDueJobs_fires s :
  NoDup (CronJob.ID <$> cron_jobs s) → ids_issued s →
  (∀ j, j ∈ cron_jobs s → CronJob.ID j ≠ "" ∧ is_ok (encode_raw (CronJob.Payload j)) = true) →
  let t0 := (read_clock (env s)).1 in
  ∃ s', runs (fireDueJobs encode_raw) s (Ok tt) s'
    ∧ Forall2 (λ j j',
        if due t0 j
        then (∃ at_, t0 ≤ at_ ∧ has_job (CronJob.JobQueue j) (cron_key (CronJob.Name j) at_) (job_queue s'))
             ∧ (∃ from next, t0 ≤ from ∧ CronJob.NextRunAt j' = Some next ∧ from < next ≤ from + 366 * Day)
             ∧ CronJob.LastError j' = "" ∧ CronJob.Schedule j' = CronJob.Schedule j
        else j' = j) (cron_jobs s) (cron_jobs s').
Proof.
  intros Hd Hids Hok t0. destruct (read_clock_spec (env s)) as (Ht & Hi). set (w := (read_clock (env s)).2) in *.
  set (js := sort_slice runs_before (select (due t0) (cron_jobs s))).
  assert (∀ j, j ∈ js ↔ due t0 j = true ∧ j ∈ cron_jobs s) as Hjs.
  { intros j. unfold js. rewrite elem_of_sort_slice. apply elem_of_select. }
  destruct (fire_all_runs js (set_env w s) t0) as (s' & Hrun & _ & Hall).
  { simpl. lia. }
  { done. }
  { unfold js. eapply NoDup_Permutation_proper; [apply fmap_Permutation, sort_slice_perm|]. by apply NoDup_key_select. }
  { intros job Hjob. apply Hi. by apply Hids. }
  { intros j [_ Hj]%Hjs. split; [done|by apply Hok]. }
  exists s'. split.
  - unfold fireDueJobs, GetCronJobsDue. apply (runs_bind _ _ _ (Ok js) (set_env w s)); [apply runs_attempt|exact Hrun].
    eapply runs_bind; [apply runs_time_now|]. apply (runs_translate _ _ _ (Ok js)).
    unfold stmt, runs, query. simpl. by destruct s.
  - simpl in Hall. apply Forall2_same_length_lookup in Hall as [Hlen Hall]. apply Forall2_same_length_lookup. split; [done|].
    intros i j j' Hj Hj'. specialize (Hall i j j' Hj Hj'). simpl in Hall.
    apply list_elem_of_lookup_2 in Hj.
    destruct (due t0 j) eqn:E.
    + rewrite bool_decide_true in Hall by (apply (list_elem_of_fmap_2 CronJob.ID), Hjs; done).
      destruct Hall as (from & at_ & a & n & Hfrom & Hat & -> & Hjob). split; [by exists at_|]. split; [|done].
      exists from, (nextRunAfter (CronJob.Schedule j) from). split; [done|]. split; [done|]. apply nextRunAfter_later.
    + rewrite bool_decide_false in Hall; [done|]. intros (x & Hx & [Hdue Hx']%Hjs)%list_elem_of_fmap.
      assert (j = x) as -> by (by apply (NoDup_key_eq CronJob.ID (cron_jobs s))). congruence.
Qed.
End firing.

(** ** Concrete runs *)

Section examples.
#[local] Existing Instance sim_environment.
#[local] Existing Instance strict_driver.
#[local] Existing Instance insertion_sorter.

Definition raw_json (doc : option string) : result error string := Ok (default "null" doc).

Definition noon : Time := Date 2026 1 31 (12 * Hour).

(** The nightly rollup and a monthly job, and a job with five fields that is
    meant for 3 o'clock on Sundays. *)
Definition registered : opsdb sim :=
  tables_of ((_ ← Register "rollup" "@daily" "UTC" "ops" "ops.usage.rollup" None;
              _ ← Register "invoices" "@monthly" "UTC" "billing" "ops.billing.cycle" None;
              Register "weekly" "0 3 * * 0" "UTC" "ops" "ops.cleanup" None) (ops_start noon, [])).

(** The next run a registration computes is not stored: every job runs at once. *)
Example registered_runs_at_once :
  CronJob.NextRunAt <$> cron_jobs registered = [None; None; None]
  ∧ let s := tables_of (fireDueJobs raw_json (registered, [])) in
    Job.IdempotencyKey <$> job_queue s
    = [Some "cron:rollup:2026-01-31T12:00"; Some "cron:invoices:2026-01-31T12:00"; Some "cron:weekly:2026-01-31T12:00"]
    ∧ CronJob.NextRunAt <$> cron_jobs s
      = [Some (Date 2026 2 1 0); Some (Date 2026 2 1 0); Some (Date 2026 1 31 (12 * Hour + Minute))].
Proof. split; [|split]; vm_compute; reflexivity. Qed.

(** A failed enqueue still moves the next run: a monthly run is lost. *)
Example failed_run_lost :
  let j := default (new_cron_job "x" 0 (CronJob.mk "" "" "" "" "" "" None "" None None "" "" 0 0))
             (cron_jobs registered !! 1%nat) in
  let s := tables_of (fire raw_json j (registered, [Some (Plain "connection reset")])) in
  job_queue s = []
  ∧ (CronJob.NextRunAt <$> cron_jobs s !! 1%nat) = Some (Some (Date 2026 2 1 0)).
Proof. split; vm_compute; reflexivity. Qed.

Lemma fireDueJobs_fires_witness :
  length (cron_jobs registered) = 3%nat
  ∧ ∃ s', runs (fireDueJobs raw_json) registered (Ok tt) s'
      ∧ Forall2 (λ j j',
          if due (read_clock (env registered)).1 j
          then (∃ at_, (read_clock (env registered)).1 ≤ at_
                  ∧ has_job (CronJob.JobQueue j) (cron_key (CronJob.Name j) at_) (job_queue s'))
               ∧ (∃ from next, (read_clock (env registered)).1 ≤ from ∧ CronJob.NextRunAt j' = Some next
                    ∧ from < next ≤ from + 366 * Day)
               ∧ CronJob.LastError j' = "" ∧ CronJob.Schedule j' = CronJob.Schedule j
          else j' = j) (cron_jobs registered) (cron_jobs s').
Proof.
  split; [vm_compute; reflexivity|]. apply (fireDueJobs_fires raw_json registered).
  - apply (bool_decide_unpack _). vm_compute. exact I.
  - assert (job_queue registered = []) as E by (vm_compute; reflexivity). intros job. rewrite E. by intros ?%elem_of_nil.
  - apply Forall_forall. apply (Forall_impl (λ j, negb (CronJob.ID j =s? "") = true)).
    + apply Forall_forall. intros j Hj. revert j Hj. apply Forall_forall. vm_compute. repeat constructor.
    + intros j Hj. apply negb_true_iff, String.eqb_neq in Hj. done.
Defined.
End examples.
