(* ===== verification/Housekeeping.v ===== *)
(** * Sleeping, clean-up and auditing (packages/application/ops/autosleep, cleanup, audit, events) *)

From S2P Require Import Prelude GoLib Calendar Errors Postgres Sql Jobs DeployModel Rows ControlPlane OpsModel OpsStore.

(** ** Events (events/publisher.go)

    What is handed to the bus is traced, without its data; delivery is not
    modelled. *)

Section publisher.
Context {W : Type} `{En : Environment W}.
(** The correlation id of the context. *)
Context (ctxCorr : string).

Definition with_correlation (corr : string) (m : OpsMeta) : OpsMeta :=
  {| OpsMeta.OrgID := OpsMeta.OrgID m; OpsMeta.ProjectID := OpsMeta.ProjectID m;
     OpsMeta.DeploymentID := OpsMeta.DeploymentID m; OpsMeta.ActorID := OpsMeta.ActorID m;
     OpsMeta.CorrelationID := corr |}.

Definition Ops_PublishAsync (name : string) (meta : OpsMeta) : db (opsdb W) unit :=
  let corrID := if OpsMeta.CorrelationID meta =s? "" then ctxCorr else OpsMeta.CorrelationID meta in
  corrID ← id_or_new corrID;
  call (λ w, (tt, w)) (λ _, [Published name (with_correlation corrID meta)]).
End publisher.

(** ** Automatic sleeping (autosleep/manager.go) *)

Definition QueueAutosleep : string := "autosleep".
Definition TypeAutoSleep : string := "autosleep.sleep".

Record IdleThresholds := { Free : Duration; Pro : Duration; Team : Duration; Enterprise : Duration }.

Definition DefaultThresholds : IdleThresholds :=
  {| Free := 30 * Minute; Pro := 2 * Hour; Team := 6 * Hour; Enterprise := -1 |}.

Definition thresholdFor (th : IdleThresholds) (planID : string) : Duration :=
  if planID =s? PlanPro then Pro th
  else if planID =s? PlanTeam then Team th
  else if planID =s? PlanEnterprise then Enterprise th
  else Free th.

Module SleepPayload.
Record t := mk { OrgID : string; ProjectID : string; DeploymentID : string; CorrelationID : string }.
End SleepPayload.
Abbreviation SleepPayload := SleepPayload.t.

Section sleeping.
Context {W : Type} `{En : Environment W} `{D : Driver} `{J : Jsonb}.

Definition encode_sleep (p : SleepPayload) : string :=
  json_object [("org_id", VString (SleepPayload.OrgID p)); ("project_id", VString (SleepPayload.ProjectID p));
               ("deployment_id", VString (SleepPayload.DeploymentID p));
               ("correlation_id", VString (SleepPayload.CorrelationID p))].

(** The envelope of the control plane's jobs, with what auto-sleep fills in. *)
Definition envelope (p : SleepPayload) : ControlPlane.Payload :=
  {| ControlPlane.OrgID := SleepPayload.OrgID p; ControlPlane.ProjectID := SleepPayload.ProjectID p;
     ControlPlane.DeploymentID := SleepPayload.DeploymentID p; ControlPlane.DomainID := ""; ControlPlane.UserID := "";
     ControlPlane.CorrelationID := SleepPayload.CorrelationID p; ControlPlane.Metadata := "" |}.

Definition sleep_event (p : SleepPayload) (status reason : string) : SleepEvent :=
  SleepEvent.mk "" (SleepPayload.OrgID p) (SleepPayload.ProjectID p) (SleepPayload.DeploymentID p)
    status reason (SleepPayload.CorrelationID p) 0.

Definition sleep_key (deploymentID : string) : string := "sched-sleep:" +:+ deploymentID.
Definition wake_key (deploymentID : string) : string := "sched-wake:" +:+ deploymentID.

(** A negative threshold means never. *)
Definition Autosleep_EnqueueSleep (th : IdleThresholds) (p : SleepPayload) (planID : string) : db (opsdb W) unit :=
  let threshold := thresholdFor th planID in
  if threshold <? 0 then mret tt
  else
    _ ← enqueue_job QueueAutosleep TypeAutoSleep (Ok (encode_sleep p))
          (options 0 threshold 3 ("sleep:" +:+ SleepPayload.DeploymentID p));
    mret tt.

(** A failure to enqueue the job of the deployer is logged. *)
Definition ExecuteSleep (p : SleepPayload) : db (opsdb W) unit :=
  _ ← RecordSleepEvent (sleep_event p SleepStatusSleeping "idle_threshold_exceeded");
  ignore (enqueue_job QueueDeployments TypeSleep (Ok (encode (envelope p)))
            (options 0 0 5 (sleep_key (SleepPayload.DeploymentID p)))).

Definition ExecuteWake (p : SleepPayload) : db (opsdb W) unit :=
  _ ← RecordSleepEvent (sleep_event p SleepStatusWaking "wake_request");
  _ ← enqueue_job QueueDeployments TypeWake (Ok (encode (envelope p)))
        (options 0 0 5 (wake_key (SleepPayload.DeploymentID p)));
  mret tt.
End sleeping.

(** ** Garbage collection (cleanup/gc.go) *)

Record GCConfig := {
  SessionMaxAge : Duration; TokenMaxAge : Duration; LogMaxAge : Duration; JobDeadLetterAge : Duration;
  NotificationMaxAge : Duration; AuditRetention : Duration; UsageRawRetention : Duration;
}.

Definition days (n : Z) : Duration := n * 24 * Hour.

Definition DefaultConfig : GCConfig :=
  {| SessionMaxAge := days 7; TokenMaxAge := days 1; LogMaxAge := days 30; JobDeadLetterAge := days 7;
     NotificationMaxAge := days 90; AuditRetention := days 365; UsageRawRetention := days 90 |}.

Definition TargetExpiredSessions : string := "sessions".
Definition TargetExpiredTokens : string := "tokens".
Definition TargetExpiredJobs : string := "dead_letter_jobs".
Definition TargetOldNotifications : string := "notifications".
Definition TargetStaleUsage : string := "stale_usage_records".
Definition TargetOldAuditEvents : string := "old_audit_events".

(** The rows each task deletes, older than a time. *)
Definition dead_job (cutoff : Time) (j : Job) : bool :=
  status_eqb (Job.Status j) StatusDead && (Job.UpdatedAt j <? cutoff).
Definition old_notification (cutoff : Time) (n : Notification) : bool :=
  ((Notification.Status n =s? NotifDelivered) || (Notification.Status n =s? NotifSkipped))
  && (Notification.UpdatedAt n <? cutoff).
Definition old_audit (cutoff : Time) (e : AuditEvent) : bool := AuditEvent.OccurredAt e <? cutoff.
Definition old_usage (cutoff : Time) (u : UsageRecord numeric) : bool := UsageRecord.RecordedAt u <? cutoff.
Definition expired_session (cutoff : Time) (expires : Time) : bool := expires <? cutoff.

Definition undefined_table : error := PgError "42P01" "relation identity_refresh_tokens does not exist".

Section gc.
Context {W : Type} `{En : Environment W} `{D : Driver}.
Context (cfg : GCConfig).

(** [DELETE .. WHERE] older than a retention, and the number of rows. *)
Definition purge {R} (l : Lens (opsdb W) (list R)) (age : Duration) (old : Time → R → bool) (message : string)
    : db (opsdb W) Z :=
  now ← time_now;
  translate message (stmt l (λ _ t, (Ok (matched (old (now - age)) t), delete_where (old (now - age)) t))).

Definition cleanSessions : db (opsdb W) Z := purge sessions_l (SessionMaxAge cfg) expired_session "gc: sessions".
Definition cleanDeadLetterJobs : db (opsdb W) Z := purge job_queue_l (JobDeadLetterAge cfg) dead_job "gc: dead jobs".
Definition cleanNotifications : db (opsdb W) Z :=
  purge notifications_l (NotificationMaxAge cfg) old_notification "gc: notifications".
Definition cleanAuditEvents : db (opsdb W) Z := purge audit_events_l (AuditRetention cfg) old_audit "gc: audit events".
Definition cleanRawUsage : db (opsdb W) Z := purge usage_records_l (UsageRawRetention cfg) old_usage "gc: raw usage".

(** The table it deletes from is in no schema of the program. *)
Definition cleanTokens : db (opsdb W) Z :=
  _ ← time_now;
  translate "gc: tokens" (query (λ s, (Err undefined_table, s))).

Definition tasks : list (string * db (opsdb W) Z) :=
  [(TargetExpiredSessions, cleanSessions); (TargetExpiredTokens, cleanTokens);
   (TargetExpiredJobs, cleanDeadLetterJobs); (TargetOldNotifications, cleanNotifications);
   (TargetOldAuditEvents, cleanAuditEvents); (TargetStaleUsage, cleanRawUsage)].

(** The counts of the tasks that did not fail. *)
Fixpoint run_tasks (ts : list (string * db (opsdb W) Z)) : db (opsdb W) (list (string * Z)) :=
  match ts with
  | [] => mret []
  | (target, fn) :: ts =>
      n ← attempt fn;
      rest ← run_tasks ts;
      mret match n with Ok n => (target, n) :: rest | Err _ => rest end
  end.

Definition RunAll : db (opsdb W) (list (string * Z)) := run_tasks tasks.

Definition RunTarget (target : string) : db (opsdb W) Z :=
  if target =s? TargetExpiredSessions then cleanSessions
  else if target =s? TargetExpiredTokens then cleanTokens
  else if target =s? TargetExpiredJobs then cleanDeadLetterJobs
  else if target =s? TargetOldNotifications then cleanNotifications
  else if target =s? TargetOldAuditEvents then cleanAuditEvents
  else if target =s? TargetStaleUsage then cleanRawUsage
  else mret 0.
End gc.

(** ** The audit trail (audit/logger.go) *)

Definition ActorSystem : string := "system".

Section audit.
Context {W : Type} `{En : Environment W} `{D : Driver} `{So : Sorter}.

(** The event comes with its documents marshalled; failures are logged. *)
Definition Audit_Record (ctxCorr : string) (e : AuditEvent) : db (opsdb W) unit :=
  ignore (RecordAuditEvent
    {| AuditEvent.ID := ""; AuditEvent.OrgID := AuditEvent.OrgID e; AuditEvent.ProjectID := AuditEvent.ProjectID e;
       AuditEvent.ActorID := AuditEvent.ActorID e;
       AuditEvent.ActorType := if AuditEvent.ActorType e =s? "" then ActorSystem else AuditEvent.ActorType e;
       AuditEvent.Action := AuditEvent.Action e; AuditEvent.ResourceType := AuditEvent.ResourceType e;
       AuditEvent.ResourceID := AuditEvent.ResourceID e; AuditEvent.IPAddress := AuditEvent.IPAddress e;
       AuditEvent.UserAgent := AuditEvent.UserAgent e; AuditEvent.CorrelationID := ctxCorr;
       AuditEvent.Changes := AuditEvent.Changes e; AuditEvent.Metadata := AuditEvent.Metadata e;
       AuditEvent.OccurredAt := 0 |}).

Definition Audit_List (orgID : string) (limit : Z) : db (opsdb W) (list AuditEvent) :=
  ListAuditEvents orgID (if limit <=? 0 then 100 else limit).
End audit.

(** ** A deployment sleeps once *)

Section sleeps.
Context {W : Type} `{En : Environment W} `{D : Driver} `{J : Jsonb}.
Implicit Types (s : opsdb W) (p : SleepPayload).

(** Enqueuing under a key that a job has, in whatever state, adds nothing. *)
Lemma enqueue_job_again queue jobType raw opts s :
  IdempotencyKey opts ≠ "" → has_job queue (IdempotencyKey opts) (job_queue s) →
  wp (enqueue_job queue jobType (Ok raw) opts)
    (λ job s', job ∈ job_queue s ∧ ∃ w, s' = set_env w s) (λ _ s', ∃ w, s' = set_env w s) s.
Proof.
  intros Hk (j & Hj & Hq & Hkey). unfold enqueue_job. wp_step. ops_step. wp_step. ops_step.
  apply wp_zoom. unfold Enqueue. apply String.eqb_neq in Hk as ->. wp_step. apply wp_query.
  { intros e. by exists w0. }
  unfold insert_job. simpl.
  destruct (select (conflicts queue (Some (IdempotencyKey opts))) (job_queue s)) as [|j' l] eqn:E.
  - assert (j ∈ select (conflicts queue (Some (IdempotencyKey opts))) (job_queue s)) as Hin.
    { apply elem_of_select. split; [|done]. unfold conflicts. by rewrite Hkey, Hq, !String.eqb_refl. }
    rewrite E in Hin. by apply elem_of_nil in Hin.
  - assert (j' ∈ select (conflicts queue (Some (IdempotencyKey opts))) (job_queue s)) as [_ Hj']%elem_of_select
      by (rewrite E; by left).
    split; [done|]. exists w0. by destruct s.
Qed.

Lemma RecordSleepEvent_wp e s :
  wp (RecordSleepEvent e)
    (λ _ s', job_queue s' = job_queue s ∧ ∃ id now, sleep_events s' = sleep_events s ++ [sleep_row id now e])
    (λ _ s', job_queue s' = job_queue s ∧ sleep_events s' = sleep_events s) s.
Proof.
  unfold RecordSleepEvent. wp_step. ops_step. wp_step. ops_step. wp_step. wp_step. apply wp_stmt; [done|]. simpl.
  apply (wp_with_uuids _ (insert_row SleepEvent.ID _)); [done|]. intros _.
  apply insert_row_elim; [done|]. intros _. wp_step. split; [done|]. by eexists _, _.
Qed.

(** A deployment is put to sleep once.  When the queue has a job that put it
    to sleep before, finished or not, the next [ExecuteSleep] records that the
    project is sleeping and succeeds, but enqueues nothing: the job's key names
    the deployment only, and nothing in the program deletes finished jobs. *)
Theorem second_sleep_ignored p s :
  has_job QueueDeployments (sleep_key (SleepPayload.DeploymentID p)) (job_queue s) →
  wp (ExecuteSleep p)
    (λ _ s', job_queue s' = job_queue s
             ∧ ∃ id now, sleep_events s' = sleep_events s
                         ++ [sleep_row id now (sleep_event p SleepStatusSleeping "idle_threshold_exceeded")])
    (λ _ s', job_queue s' = job_queue s ∧ sleep_events s' = sleep_events s) s.
Proof.
  intros Hjob. unfold ExecuteSleep. wp_step. eapply wp_mono; [apply RecordSleepEvent_wp| |done].
  cbn beta. intros _ s1 [Hq Hev]. wp_step. eapply wp_mono; [apply enqueue_job_again|..]; cbn beta.
  - done.
  - by rewrite Hq.
  - by intros job s2 [_ [w ->]].
  - by intros e s2 [w ->].
Qed.
End sleeps.

(** ** Concrete runs *)

Section examples.
#[local] Existing Instance sim_environment.
#[local] Existing Instance strict_driver.
#[local] Instance no_json : Jsonb := {| json_object := λ _, "{}"; jsonb_merge := λ _ b, b |}.

Definition tired : SleepPayload := SleepPayload.mk "org" "project" "d-1" "".

(** Slept, with the deployer's job done. *)
Definition slept_before : opsdb sim :=
  let s := tables_of (ExecuteSleep tired (ops_start 0, [])) in
  set_job_queue (complete Hour <$> job_queue s) s.

Lemma second_sleep_ignored_witness :
  (Job.Status <$> job_queue slept_before) = [StatusSucceeded]
  ∧ wp (ExecuteSleep tired)
      (λ _ s', job_queue s' = job_queue slept_before
               ∧ ∃ id now, sleep_events s' = sleep_events slept_before
                           ++ [sleep_row id now (sleep_event tired SleepStatusSleeping "idle_threshold_exceeded")])
      (λ _ s', job_queue s' = job_queue slept_before ∧ sleep_events s' = sleep_events slept_before) slept_before.
Proof.
  split; [vm_compute; reflexivity|]. apply second_sleep_ignored.
  assert (job_queue slept_before = [default (new_row "" "" "" "" (options 0 0 0 "") None 0) (head (job_queue slept_before))]) as E
    by (vm_compute; reflexivity).
  exists (default (new_row "" "" "" "" (options 0 0 0 "") None 0) (head (job_queue slept_before))).
  split; [rewrite E at 2; by left|]. split; vm_compute; reflexivity.
Defined.

(** A clean-up never reports the refresh tokens. *)
Example tokens_never_cleaned :
  (RunAll DefaultConfig (ops_start 0, [])).1
  = Ok [(TargetExpiredSessions, 0); (TargetExpiredJobs, 0); (TargetOldNotifications, 0);
        (TargetOldAuditEvents, 0); (TargetStaleUsage, 0)].
Proof. vm_compute. reflexivity. Qed.
End examples.

(** * Daily analytics (packages/application/ops/analytics/aggregator.go)

    [PlatformTables] is what the queries find in the tables of the other
    components: a period that is no date makes them fail.  Every query whose
    error is dropped leaves its counters at zero. *)

Class PlatformTables (W : Type) := {
  active_users : string → W → result error Z;
  new_orgs : string → W → result error Z;
  new_projects : string → W → result error Z;
  (** The statuses of the deployments created on a day. *)
  day_deployments : string → W → result error (list string);
  running_containers : W → Z;
}.

(** builder_builds has no column completed_at. *)
Definition undefined_column : error := PgError "42703" "column completed_at does not exist".

Section aggregator.
Context {W : Type} `{En : Environment W} `{PT : PlatformTables W} `{D : Driver} `{De : Decimal}.

(** [_ = QueryRow(..).Scan(&x)] *)
Definition count (f : opsdb W → result error Z) : db (opsdb W) Z :=
  r ← attempt (query (λ s, (f s, s)));
  mret match r with Ok n => n | Err _ => 0 end.

Definition rollup_total (dimension period : string) (s : opsdb W) : numeric :=
  sum_numeric (UsageRollup.Total <$>
    select (λ u, (UsageRollup.Dimension u =s? dimension) && (UsageRollup.Period u =s? period)) (rollups s)).

Definition measure (dimension period : string) : db (opsdb W) f64 :=
  r ← attempt (query (λ s, (Ok (of_numeric (rollup_total dimension period s)), s)));
  mret match r with Ok x => x | Err _ => f0 end.

(** A NUMERIC is scanned into an [int64] when it is whole. *)
Definition scan_int64 (x : numeric) : result error Z :=
  match x with
  | Some z => if (z mod 1000000 =? 0) && (int64_min <=? z / 1000000) && (z / 1000000 <=? int64_max)
              then Ok (z / 1000000) else Err (Plain "cannot convert numeric to int64")
  | None => Err (Plain "cannot convert NaN to int64")
  end.

Definition paid_on (period : string) (s : Subscription) : bool :=
  negb (Subscription.PlanID s =s? PlanFree) && (format_date (Subscription.CreatedAt s) =s? period).

(** [JOIN ops_plans p ON p.id = s.plan_id] *)
Definition monthly_price (plans : list Plan) (s : Subscription) : Z :=
  total Plan.PriceCentsMonth (select (λ p, Plan.ID p =s? Subscription.PlanID s) plans).

Definition paying (s : Subscription) : bool :=
  ((Subscription.Status s =s? SubStatusActive) || (Subscription.Status s =s? SubStatusTrialing))
  && negb (Subscription.PlanID s =s? PlanFree).

Definition deployment_counts (period : string) : db (opsdb W) (Z * Z * Z) :=
  r ← attempt (query (λ s, (day_deployments period (env s), s)));
  mret match r with
       | Ok ds => (Z.of_nat (length ds), matched (λ d, d =s? "success") ds, matched (λ d, d =s? "failed") ds)
       | Err _ => (0, 0, 0)
       end.

(** The query on the builds; its four counters. *)
Definition build_counts : db (opsdb W) (Z * Z * Z * Z) :=
  r ← attempt (query (λ s, (Err undefined_column, s)));
  mret match r with Ok c => c | Err _ => (0, 0, 0, 0) end.

Definition AggregateDaily (period : string) : db (opsdb W) unit :=
  period ← (if period =s? "" then now ← time_now; mret (format_date (AddDate now 0 0 (-1))) else mret period);
  users ← count (λ s, active_users period (env s));
  orgs ← count (λ s, new_orgs period (env s));
  projects ← count (λ s, new_projects period (env s));
  deployments ← deployment_counts period;
  builds ← build_counts;
  containers ← count (λ s, Ok (running_containers (env s)));
  bandwidth ← measure DimBandwidthGB period;
  storage ← measure DimStorageGB period;
  requests ← count (λ s, scan_int64 (rollup_total DimAPIRequests period s));
  subs ← count (λ s, Ok (matched (paid_on period) (subscriptions s)));
  mrr ← count (λ s, scan_int64 (Some (1000000 * total (monthly_price (plans s)) (select paying (subscriptions s)))));
  let '(total_d, success_d, failed_d) := deployments in
  let '(total_b, success_b, failed_b, avg) := builds in
  UpsertAnalyticsDaily
    (AnalyticsDaily.mk "" period users orgs projects total_d success_d failed_d total_b success_b failed_b avg
       containers bandwidth storage requests subs mrr 0 0).

Definition AggregateYesterday : db (opsdb W) unit :=
  now ← time_now;
  AggregateDaily (format_date (AddDate now 0 0 (-1))).

(** ** What the snapshot cannot see *)

(** The statuses of deployments, of which ["success"] is none. *)
Definition deployment_statuses : list string :=
  [StatusPending; StatusQueued; StatusBuilding; StatusBuilt; StatusScheduling; StatusDeploying; StatusLive;
   StatusFailed; StatusCancelled; StatusRollingBack; StatusRolledBack].

Implicit Types (s : opsdb W).

Definition blind (a : AnalyticsDaily numeric) : Prop :=
  AnalyticsDaily.SuccessDeployments a = 0 ∧ AnalyticsDaily.TotalBuilds a = 0 ∧ AnalyticsDaily.SuccessBuilds a = 0
  ∧ AnalyticsDaily.FailedBuilds a = 0 ∧ AnalyticsDaily.AvgBuildDurationSecs a = 0.

Lemma wp_attempt_query {A B} (f : opsdb W → result error A * opsdb W) (k : result error A → B) s Q E :
  (∀ s0, (f s0).2 = s0) → (∀ r, (r = (f s).1 ∨ ∃ e, r = Err e) → Q (k r) s) →
  wp (r ← attempt (query f); mret (k r)) Q E s.
Proof.
  intros Hf HQ. wp_step. wp_step. apply wp_query.
  - intros e. wp_step. apply HQ. right. by exists e.
  - specialize (Hf s). destruct (f s) as [[a|e] s'] eqn:E1; simpl in Hf; subst s'; wp_step; apply HQ; by left.
Qed.

Lemma wp_count f s Q E : (∀ n, Q n s) → wp (count f) Q E s.
Proof. intros HQ. unfold count. apply wp_attempt_query; [done|]. intros r _. apply HQ. Qed.

Lemma wp_measure d p s Q E : (∀ x, Q x s) → wp (measure d p) Q E s.
Proof. intros HQ. unfold measure. apply wp_attempt_query; [done|]. intros r _. apply HQ. Qed.

Lemma wp_build_counts s Q E : Q (0, 0, 0, 0) s → wp build_counts Q E s.
Proof. intros HQ. unfold build_counts. apply wp_attempt_query; [done|]. by intros r [->|[e ->]]. Qed.

Lemma wp_deployment_counts period s Q E :
  (∀ ds d, day_deployments period (env s) = Ok ds → d ∈ ds → d ∈ deployment_statuses) →
  (∀ t f, Q (t, 0, f) s) → wp (deployment_counts period) Q E s.
Proof.
  intros Hds HQ. unfold deployment_counts. apply wp_attempt_query; [done|]. intros r Hr.
  destruct r as [ds|e]; [|apply HQ]. destruct Hr as [Hr|[e [=]]]. simpl in Hr.
  assert (matched (λ d, d =s? "success") ds = 0) as ->; [|apply HQ].
  apply matched_zero. intros d Hd. specialize (Hds ds d (eq_sym Hr) Hd).
  unfold deployment_statuses in Hds. repeat (apply elem_of_cons in Hds as [->|Hds]; [done|]). by apply elem_of_nil in Hds.
Qed.

Lemma UpsertAnalyticsDaily_wp a s (P : AnalyticsDaily numeric → Prop) :
  (∀ x, x ∈ analytics s → P x) → (∀ id b st c n, P (analytics_row id b st c n a)) →
  wp (UpsertAnalyticsDaily a) (λ _ s', ∀ x, x ∈ analytics s' → P x) (λ _ s', ∀ x, x ∈ analytics s' → P x) s.
Proof.
  intros Hs Ha. unfold UpsertAnalyticsDaily. wp_step. ops_step. wp_step. ops_step. wp_step. apply wp_stmt; [done|]. simpl.
  destruct (to_numeric 14 3 (AnalyticsDaily.TotalBandwidthGB a)) as [b|]; [|done].
  destruct (to_numeric 14 3 (AnalyticsDaily.TotalStorageGB a)) as [st|]; [|done].
  destruct (select _ _) as [|old l].
  - apply insert_row_elim; [done|]. intros _ x [Hx|Hx%list_elem_of_singleton]%elem_of_app; [by apply Hs|].
    subst. apply Ha.
  - intros x (y & Hy & ->)%elem_of_update_where. case_match; [apply Ha|by apply Hs].
Qed.

(** the snapshot is blind to success.  Whatever fails, no snapshot the
    aggregation writes counts a successful deployment (it looks for a status
    that deployments never have) or any build (its query names a column that the
    table does not have). *)
Theorem snapshot_blind period s :
  (∀ p ds d w, day_deployments p w = Ok ds → d ∈ ds → d ∈ deployment_statuses) →
  (∀ a, a ∈ analytics s → blind a) →
  wp (AggregateDaily period) (λ _ s', ∀ a, a ∈ analytics s' → blind a) (λ _ s', ∀ a, a ∈ analytics s' → blind a) s.
Proof.
  intros Hds Hs. unfold AggregateDaily. wp_step.
  apply wp_mono with (Q := λ _ s', analytics s' = analytics s) (E := λ _ _, False); [| |done].
  { case_match; [wp_step; ops_step|]; by wp_step. }
  cbn beta. intros p s1 Hs1. wp_step.
  apply wp_count; intros users. wp_step. apply wp_count; intros orgs. wp_step. apply wp_count; intros projects. wp_step.
  apply wp_deployment_counts; [intros ds d; apply Hds|]. intros t f. wp_step. apply wp_build_counts. wp_step.
  apply wp_count; intros containers. wp_step. apply wp_measure; intros bandwidth. wp_step. apply wp_measure; intros storage.
  wp_step. apply wp_count; intros requests. wp_step. apply wp_count; intros subs. wp_step. apply wp_count; intros mrr.
  cbn beta iota. apply UpsertAnalyticsDaily_wp; [by rewrite Hs1|]. intros. by split_and!.
Qed.
End aggregator.

(** ** A concrete run *)

Section examples.
#[local] Existing Instance sim_environment.
#[local] Existing Instance strict_driver.
#[local] Existing Instance exact_decimal.

(** Three deployments a day, two of them live. *)
#[local] Instance busy_day : PlatformTables sim := {|
  active_users _ _ := Ok 12; new_orgs _ _ := Ok 1; new_projects _ _ := Ok 2;
  day_deployments _ _ := Ok [StatusLive; StatusLive; StatusFailed]; running_containers _ := 7 |}.

Lemma snapshot_blind_witness :
  (λ a, (AnalyticsDaily.TotalDeployments a, AnalyticsDaily.SuccessDeployments a, AnalyticsDaily.FailedDeployments a)) <$>
    analytics (tables_of (AggregateDaily "2026-01-31" (ops_start 0, []))) = [(3, 0, 1)]
  ∧ wp (AggregateDaily "2026-01-31") (λ _ s', ∀ a, a ∈ analytics s' → blind a) (λ _ s', ∀ a, a ∈ analytics s' → blind a)
      (ops_start 0).
Proof.
  split; [vm_compute; reflexivity|]. apply snapshot_blind.
  - intros p ds d w [= <-] Hd. revert d Hd. apply Forall_forall. apply (bool_decide_unpack _). vm_compute. exact I.
  - simpl. by intros a ?%elem_of_nil.
Defined.
End examples.
