(* ===== verification/OpsJobs.v ===== *)
(** * The ops worker and its schedule (packages/application/ops/jobs/handlers.go, module.go)

    A handler decodes the payload of its job and calls the service.  [decode] is
    [json.Unmarshal] of the payload: the strings of a flat object, empty where a
    name is absent.  Metrics are not modelled. *)

From S2P Require Import Prelude GoLib Calendar Errors Postgres Sql Jobs DeployModel Rows ControlPlane OpsModel OpsStore Billing Notify Backups MeteringFacts RedisLock Cron Housekeeping.

Definition QueueOps : string := "ops".
Definition QueueNotifications : string := "notifications".
Definition QueueBackup : string := "backup".
Definition QueueCleanup : string := "cleanup".
Definition QueueAnalytics : string := "analytics".
Definition QueueBilling : string := "billing".

Definition TypeUsageRollup : string := "ops.usage.rollup".
Definition TypeNotify : string := "ops.notify".
Definition TypeBackupDB : string := "ops.backup.database".
Definition TypeCleanup : string := "ops.cleanup".
Definition TypeAnalytics : string := "ops.analytics.daily".
Definition TypeBillingCycle : string := "ops.billing.cycle".

Definition meta_of (corr : string) : OpsMeta := OpsMeta.mk "" "" "" "" corr.

Section handlers.
Context {W : Type} `{En : Environment W} `{BP : BillingProvider W} `{M : Mailer W} `{BS : BackupStorage W}
  `{PT : PlatformTables W} `{D : Driver} `{So : Sorter} `{J : Jsonb} `{De : Decimal}.
Context (decode : string → result error (string → string)) (ctxCorr : string) (smtpCfg : SMTPConfig)
  (dumper : option (W → result error string * W)) (sha256 : string → string) (retentionDays : Z) (gcCfg : GCConfig).

Definition payload (j : Job) : db (opsdb W) (string → string) := of_result (decode (Job.Payload j)).

Definition publish (name : string) (meta : OpsMeta) : db (opsdb W) unit := ignore (Ops_PublishAsync ctxCorr name meta).

(** [err := m; if err == nil { publish }; return err] *)
Definition then_publish {A} (m : db (opsdb W) A) (name : string) (meta : OpsMeta) : db (opsdb W) unit :=
  _ ← m; publish name meta.

(** [if err := m; err != nil { publish failed; return err }; publish done] *)
Definition publish_either {A} (m : db (opsdb W) A) (failed done : string) (meta : OpsMeta) : db (opsdb W) unit :=
  r ← attempt m;
  match r with
  | Err e => _ ← publish failed meta; fail e
  | Ok _ => publish done meta
  end.

Definition handleUsageRollup (j : Job) : db (opsdb W) unit :=
  p ← payload j;
  then_publish (Rollup (p "period")) "ops.usage.updated" (meta_of (p "correlation_id")).

Definition handleNotify (j : Job) : db (opsdb W) unit :=
  p ← payload j;
  publish_either (Deliver smtpCfg (p "notification_id")) "ops.notification.failed" "ops.notification.delivered"
    (meta_of (p "correlation_id")).

Definition handleBackupDB (j : Job) : db (opsdb W) unit :=
  p ← payload j;
  publish_either (RunDatabaseBackup dumper sha256 retentionDays (p "correlation_id"))
    "ops.backup.failed" "ops.backup.completed" (meta_of (p "correlation_id")).

Definition handleCleanup (j : Job) : db (opsdb W) unit :=
  p ← payload j;
  _ ← (if p "target" =s? "" then _ ← RunAll gcCfg; mret tt else _ ← RunTarget gcCfg (p "target"); mret tt);
  publish "ops.gc.completed" (meta_of (p "correlation_id")).

Definition handleAnalytics (j : Job) : db (opsdb W) unit :=
  p ← payload j;
  then_publish (AggregateDaily (p "period")) "ops.analytics.updated" (meta_of (p "correlation_id")).

Definition handleBillingCycle (j : Job) : db (opsdb W) unit :=
  p ← payload j;
  then_publish (GenerateInvoice (p "org_id") 0 (p "correlation_id")) "ops.invoice.generated"
    (OpsMeta.mk (p "org_id") "" "" "" (p "correlation_id")).

Definition handleAutoSleep (j : Job) : db (opsdb W) unit :=
  p ← payload j;
  then_publish (ExecuteSleep (SleepPayload.mk (p "org_id") (p "project_id") (p "deployment_id") (p "correlation_id")))
    "ops.project.sleeping"
    (OpsMeta.mk (p "org_id") (p "project_id") (p "deployment_id") "" (p "correlation_id")).

(** [Register] *)
Definition handler_of (jobType : string) : option (Job → db (opsdb W) unit) :=
  if jobType =s? TypeUsageRollup then Some handleUsageRollup
  else if jobType =s? TypeNotify then Some handleNotify
  else if jobType =s? TypeBackupDB then Some handleBackupDB
  else if jobType =s? TypeCleanup then Some handleCleanup
  else if jobType =s? TypeAnalytics then Some handleAnalytics
  else if jobType =s? TypeBillingCycle then Some handleBillingCycle
  else if jobType =s? TypeAutoSleep then Some handleAutoSleep
  else None.

(** ** The built-in schedule ([registerCron]): name, schedule, queue, type, payload *)

Definition builtin : list (string * string * string * string * list (string * string)) :=
  [("daily-usage-rollup", "@daily", QueueOps, TypeUsageRollup, [("period", "")]);
   ("daily-analytics", "@daily", QueueAnalytics, TypeAnalytics, [("period", "")]);
   ("hourly-notifications", "@hourly", QueueNotifications, TypeNotify, []);
   ("daily-backup", "@daily", QueueBackup, TypeBackupDB, [("kind", "database")]);
   ("hourly-cleanup", "@hourly", QueueCleanup, TypeCleanup, [("target", "")]);
   ("monthly-billing", "@monthly", QueueBilling, TypeBillingCycle, [])].

Fixpoint register_all (bs : list (string * string * string * string * list (string * string))) : db (opsdb W) unit :=
  match bs with
  | [] => mret tt
  | (name, schedule, queue, jobType, fields) :: bs =>
      _ ← ignore (Register name schedule "UTC" queue jobType
                    (Some (json_object ((λ f, (f.1, VString f.2)) <$> fields))));
      register_all bs
  end.

Definition registerCron : db (opsdb W) unit := register_all builtin.

(** The value of a name in the payload of a built-in job. *)
Definition field (fields : list (string * string)) (name : string) : string :=
  default "" (snd <$> list_find (λ f, f.1 = name) fields ≫= λ p, Some p.2).

(** ** Lemmas *)

Implicit Types (s : opsdb W) (j : Job).

(** The tables the schedule is about, apart from the rollups. *)
Definition same_accounts_and_mail s s' : Prop :=
  invoices s' = invoices s ∧ notifications s' = notifications s
  ∧ ∃ l, outcalls s' = outcalls s ++ l ∧ ∀ c, c ∈ l → ∃ name meta, c = Published name meta.

Lemma same_refl s : same_accounts_and_mail s s.
Proof. split; [done|]. split; [done|]. exists []. rewrite app_nil_r. split; [done|]. by intros c ?%elem_of_nil. Qed.

Lemma publish_wp name meta s :
  wp (publish name meta) (λ _ s', same_accounts_and_mail s s' ∧ rollups s' = rollups s) (λ _ _, False) s.
Proof.
  unfold publish, Ops_PublishAsync. wp_step. wp_step. ops_step. ops_step. split; [|done]. split; [done|]. split; [done|].
  eexists. split; [done|]. intros c ->%list_elem_of_singleton. by eexists _, _.
Qed.

(** A request about no organization or notification is refused. *)
Lemma Deliver_nothing s : wp (Deliver smtpCfg "") (λ _ _, False) (λ _ s', s' = s) s.
Proof.
  unfold Deliver, GetNotification. wp_step. wp_step. apply wp_stmt; [done|]. simpl. by destruct s.
Qed.

Lemma GenerateInvoice_nobody amount corr s : wp (GenerateInvoice "" amount corr) (λ _ _, False) (λ _ s', s' = s) s.
Proof.
  unfold GenerateInvoice, GetSubscription. wp_step. wp_step. apply wp_stmt; [done|]. simpl. by destruct s.
Qed.

(** A rollup changes the rollups of its period only. *)
Lemma upsert_groups_other now records keys period : ∀ (w : W) t t' w',
  (∀ k : rollup_key, k ∈ keys → k.2 = period) → upsert_groups now records keys w t = (Ok t', w') →
  ∀ r, UsageRollup.Period r ≠ period → r ∈ t' ↔ r ∈ t.
Proof.
  induction keys as [|k keys IH]; intros w t t' w' Hk; cbn [upsert_groups]; [by intros [= <- <-]|].
  destruct (fresh_id w) as [id w1]. destruct (upsert_rollup _ t) as [t1|e] eqn:E; [|done]. intros Hrest r Hr.
  rewrite (IH w1 t1 t' w' ltac:(intros; apply Hk; by right) Hrest r Hr). clear Hrest.
  specialize (Hk k ltac:(by left)). unfold upsert_rollup in E. destruct (negb _); [done|].
  set (row := group_row id now k (select (in_group k) records)) in *.
  assert (key_of_rollup row = k) as Hkey by (by destruct k as [[[? ?] ?] ?]). rewrite Hkey in E.
  assert (∀ x, key_of_rollup x = k → UsageRollup.Period x = period) as Hp by (intros x <-; exact Hk).
  destruct (select (has_key k) t).
  - revert E. apply insert_row_elim; [done|]. intros _ [= <-]. rewrite elem_of_app, list_elem_of_singleton.
    split; [|by left]. intros [?| ->]; [done|]. by destruct Hr; apply Hp.
  - injection E as <-. split.
    + intros (x & Hx & ->)%elem_of_update_where. destruct (has_key k x) eqn:Ex; [|done].
      apply bool_decide_eq_true in Ex. destruct Hr. exact (Hp x Ex).
    + intros Hrt. apply elem_of_update_where. exists r. split; [done|].
      destruct (has_key k r) eqn:Ex; [|done]. apply bool_decide_eq_true in Ex. by destruct Hr; apply Hp.
Qed.

Lemma upsert_groups_time `{L : !EnvironmentLaws W} now records keys : ∀ (w : W) t,
  time_of w ≤ time_of (upsert_groups now records keys w t).2.
Proof.
  induction keys as [|k keys IH]; intros w t; cbn [upsert_groups]; [done|].
  pose proof (time_of_fresh w) as Ht. destruct (fresh_id w) as [id w1]. simpl in Ht.
  destruct (upsert_rollup _ t) as [t1|e]; simpl; [|done]. specialize (IH w1 t1). lia.
Qed.

(** A rollup without a period is one of the day on which it runs. *)
Lemma Rollup_today `{L : !EnvironmentLaws W} s :
  wp (Rollup "")
    (λ _ s', ∃ now, time_of (env s) ≤ now ≤ time_of (env s')
       ∧ ∀ r, UsageRollup.Period r ≠ format_date now → r ∈ rollups s' ↔ r ∈ rollups s)
    (λ _ s', rollups s' = rollups s) s.
Proof.
  unfold Rollup, today. change ("" =s? "") with true. wp_step. wp_step. apply wp_time_now_law. intros t w Ht. wp_step. unfold RollupUsage. wp_step.
  apply wp_time_now_law. intros t2 w2 Ht2. wp_step. apply wp_query; [done|]. cbn beta. simpl in *.
  set (keys := remove_dups _). pose proof (upsert_groups_time t2 (usage_records s) keys w2 (rollups s)) as Hw.
  destruct (upsert_groups t2 (usage_records s) keys w2 (rollups s)) as [[t'|e] w3] eqn:E; [|done]. simpl in *.
  exists t. split; [lia|]. eapply upsert_groups_other; [|exact E]. intros k Hk.
  unfold keys in Hk. apply elem_of_remove_dups, list_elem_of_fmap in Hk as (u & -> & [Hp%String.eqb_eq _]%elem_of_select).
  exact Hp.
Qed.

(** The payload of a job decodes to the fields. *)
Definition carries (j : Job) (fields : list (string * string)) : Prop :=
  ∃ f, decode (Job.Payload j) = Ok f ∧ ∀ name, f name = field fields name.

Lemma payload_wp j fields s Q E :
  carries j fields → (∀ f, (∀ name, f name = field fields name) → Q f s) → wp (payload j) Q E s.
Proof. intros (f & Hf & Hfields) HQ. unfold payload. wp_step. rewrite Hf. by apply HQ. Qed.

Lemma same_trans s1 s2 s3 : same_accounts_and_mail s1 s2 → same_accounts_and_mail s2 s3 → same_accounts_and_mail s1 s3.
Proof.
  intros (H1 & H2 & l & Hl & Hp) (H3 & H4 & l' & Hl' & Hp'). split; [congruence|]. split; [congruence|].
  exists (l ++ l'). split; [by rewrite Hl', Hl, app_assoc|]. intros c [?|?]%elem_of_app; auto.
Qed.

(** what the built-in schedule cannot do.  The hourly notification job names
    no notification and the monthly billing job no organization: whatever fails
    and whatever is in the tables, they always end with an error, send nothing,
    charge nothing and write no invoice.  The daily usage rollup, which runs when
    a day begins, rolls up only the day on which it runs: the rollups of the day
    that ended stay as they are. *)
Theorem builtin_schedule_idle `{L : !EnvironmentLaws W} j s :
  (carries j [] → wp (handleNotify j) (λ _ _, False) (λ _ s', same_accounts_and_mail s s') s)
  ∧ (carries j [] → wp (handleBillingCycle j) (λ _ _, False) (λ _ s', same_accounts_and_mail s s') s)
  ∧ (carries j [("period", "")] →
       wp (handleUsageRollup j)
         (λ _ s', ∃ now, time_of (env s) ≤ now
            ∧ ∀ r, UsageRollup.Period r ≠ format_date now → r ∈ rollups s' ↔ r ∈ rollups s)
         (λ _ s', rollups s' = rollups s) s).
Proof.
  split; [|split]; intros Hc.
  - unfold handleNotify, publish_either. wp_step. apply (payload_wp _ _ _ _ _ Hc). intros f Hf. rewrite !Hf.
    wp_step. wp_step. eapply wp_mono; [apply Deliver_nothing|done|]. cbn beta. intros e ? ->. wp_step.
    eapply wp_mono; [apply publish_wp| |done]. cbn beta. intros _ s' [Hs _]. by wp_step.
  - unfold handleBillingCycle, then_publish. wp_step. apply (payload_wp _ _ _ _ _ Hc). intros f Hf. rewrite !Hf.
    wp_step. eapply wp_mono; [apply GenerateInvoice_nobody|done|]. cbn beta. intros e ? ->. apply same_refl.
  - unfold handleUsageRollup, then_publish. wp_step. apply (payload_wp _ _ _ _ _ Hc). intros f Hf. rewrite !Hf.
    wp_step. eapply wp_mono; [apply Rollup_today| |done]. cbn beta. intros _ s1 (now & Hnow & Hr).
    eapply wp_mono; [apply publish_wp| |done]. cbn beta. intros _ s2 [_ ->]. exists now. split; [lia|done].
Qed.
End handlers.
(** ** Concrete runs *)

Section examples.
#[local] Existing Instance sim_environment.
#[local] Existing Instance strict_driver.
#[local] Existing Instance insertion_sorter.
#[local] Existing Instance exact_decimal.
#[local] Instance nop_provider : BillingProvider sim := NopProvider.
#[local] Instance nop_storage : BackupStorage sim := nopStorage.
#[local] Instance no_json : Jsonb := {| json_object := λ _, "{}"; jsonb_merge := λ _ b, b |}.
#[local] Instance quiet : Mailer sim := {|
  SendMail := λ _ _ _ _ _ w, (None, w); NewRequest := λ _, None; Post := λ _ _ w, (Ok 204, w) |}.
#[local] Instance empty_platform : PlatformTables sim := {|
  active_users _ _ := Ok 0; new_orgs _ _ := Ok 0; new_projects _ _ := Ok 0;
  day_deployments _ _ := Ok []; running_containers _ := 0 |}.

(** Payloads without any content. *)
Definition blank (text : string) : result error (string → string) := Ok (λ _, "").
Definition cron_job : Job := new_row "j" QueueBilling TypeBillingCycle "{}" (options 0 0 3 "") None 0.

(** A pending mail, a subscription with usage: after a round of the schedule the
    mail is still pending and nothing was invoiced. *)
Definition busy : opsdb sim :=
  tables_of ((_ ← Subscribe "corr" "org" "a@b.c" "Org" PlanPro IntervalMonthly 0 "";
              InsertNotification (DeploymentSuccess "org" "user" "project" "d-1" "a@b.c" "")) (ops_start 0, [])).

Definition mail : SMTPConfig := {| Host := "smtp"; Port := 25; Username := ""; Password := ""; From := "noreply" |}.

Lemma builtin_schedule_idle_witness :
  (Notification.Status <$> notifications (tables_of (handleNotify blank "" mail cron_job (busy, [])))) = [NotifPending]
  ∧ wp (handleNotify blank "" mail cron_job) (λ _ _, False) (λ _ s', same_accounts_and_mail busy s') busy
  ∧ wp (handleBillingCycle blank "" cron_job) (λ _ _, False) (λ _ s', same_accounts_and_mail busy s') busy.
Proof.
  split; [vm_compute; reflexivity|].
  destruct (builtin_schedule_idle blank "" mail cron_job busy) as (Hn & Hb & _).
  assert (carries blank cron_job []) as Hc by (exists (λ _, ""); split; [reflexivity|intros name; reflexivity]).
  split; [exact (Hn Hc)|exact (Hb Hc)].
Defined.

(** The daily backup of the schedule, which has no dumper and no storage, records
    a completed backup of nothing. *)
Example empty_backup_completed :
  (λ b, (Backup.Status b, Backup.SizeBytes b, Backup.Checksum b)) <$>
    backups (tables_of (handleBackupDB blank "" None (λ data, "sha256:" +:+ data) 30 cron_job (ops_start 0, [])))
  = [(BackupCompleted, 0, "sha256:")].
Proof. vm_compute. reflexivity. Qed.
End examples.
