(* ===== verification/Password.v ===== *)
(** * Password hashing and, below, encryption at rest
    (packages/application/identity/password/argon2.go; platform/cryptox,
    application/controlplane/crypto)

    Argon2id is the class [Argon2]; the encoding of hashes is modelled with what
    it uses of encoding/base64 (RawStdEncoding) and of fmt.Sscanf.  A password is
    verified against the hash made of it, whatever the parameters. *)

From Stdlib Require Import Ascii.
From stdpp Require Import pretty.
From S2P Require Import Prelude GoLib Errors.

(** ** Base64 without padding, as RawStdEncoding reads and writes it *)

Definition byte_of (n : Z) : ascii := ascii_of_nat (Z.to_nat n).
Definition code_of (a : ascii) : Z := Z.of_nat (nat_of_ascii a).

Definition b64_char (n : Z) : ascii :=
  if n <? 26 then byte_of (65 + n) else if n <? 52 then byte_of (71 + n)
  else if n <? 62 then byte_of (n - 4) else if n =? 62 then "+"%char else "/"%char.

Definition b64_value (a : ascii) : option Z :=
  if code_in 65 90 a then Some (code_of a - 65) else if code_in 97 122 a then Some (code_of a - 71)
  else if code_in 48 57 a then Some (code_of a + 4) else if bool_decide (a = "+"%char) then Some 62
  else if bool_decide (a = "/"%char) then Some 63 else None.

Fixpoint EncodeToString (s : string) : string :=
  match s with
  | EmptyString => ""
  | String a EmptyString =>
      let a := code_of a in String (b64_char (a / 4)) (String (b64_char (a mod 4 * 16)) "")
  | String a (String b EmptyString) =>
      let a := code_of a in let b := code_of b in
      String (b64_char (a / 4)) (String (b64_char (a mod 4 * 16 + b / 16)) (String (b64_char (b mod 16 * 4)) ""))
  | String a (String b (String c s)) =>
      let a := code_of a in let b := code_of b in let c := code_of c in
      String (b64_char (a / 4)) (String (b64_char (a mod 4 * 16 + b / 16))
        (String (b64_char (b mod 16 * 4 + c / 64)) (String (b64_char (c mod 64)) (EncodeToString s))))
  end.

(** Line feeds and carriage returns are ignored. *)
Definition b64_digits (s : string) : option (list Z) :=
  mapM b64_value (filter (λ a, a ≠ "010"%char ∧ a ≠ "013"%char) (String.list_ascii_of_string s)).

Fixpoint b64_bytes (l : list Z) : option string :=
  match l with
  | [] => Some ""
  | [_] => None
  | [p; q] => Some (String (byte_of (p * 4 + q / 16)) "")
  | [p; q; r] => Some (String (byte_of (p * 4 + q / 16)) (String (byte_of (q mod 16 * 16 + r / 4)) ""))
  | p :: q :: r :: t :: l =>
      match b64_bytes l with
      | Some s => Some (String (byte_of (p * 4 + q / 16)) (String (byte_of (q mod 16 * 16 + r / 4))
                    (String (byte_of (r mod 4 * 64 + t)) s)))
      | None => None
      end
  end.

Definition DecodeString (s : string) : option string := match b64_digits s with Some l => b64_bytes l | None => None end.

(** ** Scanning (fmt.Sscanf) *)

(** A verb skips spaces before it and fails at a new line. *)
Fixpoint skip_space (s : string) : option string :=
  match s with
  | String a r => if bool_decide (a = "010"%char) then None else if is_space a then skip_space r else Some s
  | EmptyString => Some ""
  end.

Fixpoint scan_digits (acc : Z) (s : string) : Z * string :=
  match s with
  | String a r => if code_in 48 57 a then scan_digits (acc * 10 + (code_of a - 48)) r else (acc, s)
  | EmptyString => (acc, "")
  end.

(** [%d] into an unsigned integer of a width; what follows is left. *)
Definition scan_uint (bits : Z) (s : string) : option (Z * string) :=
  match skip_space s with
  | Some (String a r) =>
      if code_in 48 57 a
      then let '(n, r) := scan_digits 0 (String a r) in if n <? 2 ^ bits then Some (n, r) else None
      else None
  | _ => None
  end.

(** [%d] into an [int]. *)
Definition scan_int (s : string) : option (Z * string) :=
  match skip_space s with
  | Some (String a r) =>
      let '(sign, s) := if bool_decide (a = "-"%char) then (-1, r) else if bool_decide (a = "+"%char) then (1, r)
                        else (1, String a r) in
      match s with
      | String a _ => if code_in 48 57 a
                      then let '(n, r) := scan_digits 0 s in
                           if bool_decide (in_int64 (sign * n)) then Some (sign * n, r) else None
                      else None
      | EmptyString => None
      end
  | _ => None
  end.

Definition scan_text (p s : string) : option string := if HasPrefix s p then Some (drop_bytes (String.length p) s) else None.

(** ** The hasher *)

Module Params.
Record t := mk { Memory : Z; Iterations : Z; Parallelism : Z; SaltLength : Z; KeyLength : Z }.
End Params.
Abbreviation Params := Params.t.

Definition DefaultParams : Params := Params.mk (64 * 1024) 3 4 16 32.

(** [uint32] and [uint8] fields. *)
Definition params_ok (p : Params) : Prop :=
  0 ≤ Params.Memory p < 2 ^ 32 ∧ 0 ≤ Params.Iterations p < 2 ^ 32 ∧ 0 ≤ Params.Parallelism p < 2 ^ 8
  ∧ 0 ≤ Params.KeyLength p < 2 ^ 32.

(** [argon2.IDKey], and the length of its keys. *)
Class Argon2 := {
  IDKey : string → string → Z → Z → Z → Z → string;
  IDKey_length p s i m t n : 0 ≤ n → Z.of_nat (String.length (IDKey p s i m t n)) = n;
}.

Module Hasher.
Record t := mk { params : Params; dummyHash : string }.
End Hasher.
Abbreviation Hasher := Hasher.t.

Section hasher.
Context `{Ar : Argon2}.

Definition derive (p : Params) (password salt : string) : string :=
  IDKey password salt (Params.Iterations p) (Params.Memory p) (Params.Parallelism p) (Params.KeyLength p).

(** [Hash] once the salt is read. *)
Definition hash_with (p : Params) (password salt : string) : string :=
  "$argon2id$v=" +:+ pretty 19 +:+ "$m=" +:+ pretty (Params.Memory p) +:+ ",t=" +:+ pretty (Params.Iterations p)
  +:+ ",p=" +:+ pretty (Params.Parallelism p) +:+ "$" +:+ EncodeToString salt +:+ "$"
  +:+ EncodeToString (derive p password salt).

(** The salt is what reading [SaltLength] random bytes gave. *)
Definition Hash (h : Hasher) (password : string) (salt : result error string) : result error string :=
  match salt with
  | Err e => Err (match Wrap (Some e) CodeInternal "password: generate salt" with Some w => Platform w | None => e end)
  | Ok salt => Ok (hash_with (Hasher.params h) password salt)
  end.

Definition NewHasher (params : Params) (salt : result error string) : result error Hasher :=
  let params := if Params.SaltLength params =? 0 then DefaultParams else params in
  match Hash (Hasher.mk params "") "dummy-timing-obfuscation-password" salt with
  | Err e => Err e
  | Ok dummy => Ok (Hasher.mk params dummy)
  end.

Definition scan_version (s : string) : option Z :=
  match scan_text "v=" s with Some s => fst <$> scan_int s | None => None end.

Definition scan_params (s : string) : option (Z * Z * Z) :=
  s ← scan_text "m=" s; '(m, s) ← scan_uint 32 s;
  s ← scan_text ",t=" s; '(i, s) ← scan_uint 32 s;
  s ← scan_text ",p=" s; '(p, _) ← scan_uint 8 s;
  mret (m, i, p).

Definition decode (encoded : string) : option (Params * string * string) :=
  match Split encoded "$" with
  | [_; kind; version; params; salt; key] =>
      if negb (kind =s? "argon2id") then None
      else _ ← scan_version version; '(m, i, p) ← scan_params params;
           salt ← DecodeString salt; key ← DecodeString key;
           mret (Params.mk m i p 0 (Z.of_nat (String.length key) mod 2 ^ 32), salt, key)
  | _ => None
  end.

(** [Verify] calls itself with the dummy hash when it cannot decode; [None] is
    no answer within [n] calls. *)
Fixpoint Verify (n : nat) (h : Hasher) (password encoded : string) : option bool :=
  match n with
  | O => None
  | S n =>
      let encoded := if encoded =s? "" then Hasher.dummyHash h else encoded in
      match decode encoded with
      | None => match Verify n h password (Hasher.dummyHash h) with Some _ => Some false | None => None end
      | Some (params, salt, key) => Some (key =s? derive params password salt)
      end
  end.
End hasher.

(** ** Lemmas *)

#[local] Arguments String.append !_ _ /.

Lemma code_range a : 0 ≤ code_of a < 256.
Proof. unfold code_of. pose proof (nat_ascii_bounded a). lia. Qed.

Lemma byte_code a : byte_of (code_of a) = a.
Proof. unfold byte_of, code_of. by rewrite Nat2Z.id, ascii_nat_embedding. Qed.

(** The 64 digits. *)
Lemma b64_digit n : 0 ≤ n < 64 →
  b64_value (b64_char n) = Some n ∧ b64_char n ≠ "010"%char ∧ b64_char n ≠ "013"%char ∧ b64_char n ≠ "$"%char.
Proof.
  intros Hn. assert (n ∈ seqZ 0 64) as Hin by (apply elem_of_seqZ; lia).
  assert (Forall (λ n, b64_value (b64_char n) = Some n ∧ b64_char n ≠ "010"%char ∧ b64_char n ≠ "013"%char
    ∧ b64_char n ≠ "$"%char) (seqZ 0 64)) as H by (apply (bool_decide_unpack _); vm_compute; exact I).
  rewrite Forall_forall in H. by apply H.
Qed.

Lemma b64_digits_cons n s : 0 ≤ n < 64 → b64_digits (String (b64_char n) s) = cons n <$> b64_digits s.
Proof.
  intros Hn. destruct (b64_digit n Hn) as (Hv & H1 & H2 & _). unfold b64_digits.
  change (String.list_ascii_of_string (String (b64_char n) s)) with (b64_char n :: String.list_ascii_of_string s).
  rewrite filter_cons_True by done. cbn [mapM]. rewrite Hv. cbn. by destruct (mapM _ _).
Qed.

Ltac div_lia := Z.to_euclidean_division_equations; lia.

Lemma first_byte a b : 0 ≤ a → 0 ≤ b < 256 → a / 4 * 4 + (a mod 4 * 16 + b / 16) / 16 = a.
Proof. intros. div_lia. Qed.
Lemma second_byte a b c : 0 ≤ a → 0 ≤ b < 256 → 0 ≤ c < 256 →
  (a mod 4 * 16 + b / 16) mod 16 * 16 + (b mod 16 * 4 + c / 64) / 4 = b.
Proof. intros. div_lia. Qed.
Lemma third_byte b c : 0 ≤ b → 0 ≤ c < 256 → (b mod 16 * 4 + c / 64) mod 4 * 64 + c mod 64 = c.
Proof. intros. div_lia. Qed.

Lemma DecodeString_EncodeToString s : DecodeString (EncodeToString s) = Some s.
Proof.
  remember (String.length s) as n eqn:Hn. assert (String.length s ≤ n)%nat as Hle by lia. clear Hn.
  revert s Hle. induction (lt_wf n) as [n _ IH]. intros s Hle. unfold DecodeString.
  destruct s as [|a [|b [|c s]]]; [done|..]; cbn [EncodeToString];
    pose proof (code_range a) as Ha; try pose proof (code_range b) as Hb; try pose proof (code_range c) as Hc;
    rewrite !b64_digits_cons by div_lia.
  - change (b64_digits "") with (Some (A := list Z) []). cbn [fmap option_fmap option_map b64_bytes].
    pose proof (first_byte (code_of a) 0 ltac:(lia) ltac:(lia)) as H1. rewrite Z.add_0_r in H1. by rewrite H1, byte_code.
  - change (b64_digits "") with (Some (A := list Z) []). cbn [fmap option_fmap option_map b64_bytes].
    pose proof (second_byte (code_of a) (code_of b) 0 ltac:(lia) ltac:(lia) ltac:(lia)) as H2. rewrite Z.add_0_r in H2.
    by rewrite first_byte, H2, !byte_code by lia.
  - cbn in Hle. specialize (IH (String.length s) ltac:(lia) s ltac:(lia)). unfold DecodeString in IH.
    destruct (b64_digits (EncodeToString s)) as [l|]; [|done]. cbn [fmap option_fmap option_map b64_bytes]. rewrite IH.
    by rewrite first_byte, second_byte, third_byte, !byte_code by lia.
Qed.

Lemma EncodeToString_plain s : all_bytes (λ a, bool_decide (a ≠ "$"%char)) (EncodeToString s) = true.
Proof.
  remember (String.length s) as n eqn:Hn. assert (String.length s ≤ n)%nat as Hle by lia. clear Hn.
  revert s Hle. induction (lt_wf n) as [n _ IH]. intros s Hle.
  assert (∀ m, 0 ≤ m < 64 → bool_decide (b64_char m ≠ "$"%char) = true) as Hd.
  { intros m Hm. by apply bool_decide_eq_true, b64_digit. }
  destruct s as [|a [|b [|c s]]]; [done|..]; cbn [EncodeToString all_bytes];
    pose proof (code_range a) as Ha; try pose proof (code_range b) as Hb; try pose proof (code_range c) as Hc;
    rewrite !Hd by div_lia; try done.
  cbn in Hle. apply (IH (String.length s)); lia.
Qed.

(** ** Scanning what was printed *)

Lemma scan_text_app p r : scan_text p (p +:+ r) = Some r.
Proof.
  unfold scan_text, HasPrefix. rewrite (proj2 (prefix_spec p (p +:+ r))) by by eexists. by rewrite drop_bytes_app.
Qed.

Lemma digit_char x : (x < 10)%N → code_in 48 57 (pretty_N_char x) = true ∧ code_of (pretty_N_char x) - 48 = Z.of_N x.
Proof.
  intros Hx. assert (x ∈ [0; 1; 2; 3; 4; 5; 6; 7; 8; 9]%N) as Hin by (rewrite !elem_of_cons, elem_of_nil; lia).
  assert (Forall (λ x, code_in 48 57 (pretty_N_char x) = true ∧ code_of (pretty_N_char x) - 48 = Z.of_N x)
    [0; 1; 2; 3; 4; 5; 6; 7; 8; 9]%N) as H by (by repeat constructor).
  rewrite Forall_forall in H. by apply H.
Qed.

Lemma scan_digits_go x s : scan_digits 0 (pretty_N_go x s) = scan_digits (Z.of_N x) s.
Proof.
  revert s. induction (N.lt_wf_0 x) as [x _ IH]. intros s.
  destruct (decide (x = 0)%N) as [->|Hne]; [by rewrite pretty_N_go_0|].
  rewrite pretty_N_go_step by lia. rewrite IH by (apply N.div_lt; lia).
  destruct (digit_char (x `mod` 10)%N) as [Hd Hv]; [apply N.mod_lt; lia|].
  cbn [scan_digits]. rewrite Hd, Hv, N2Z.inj_div, N2Z.inj_mod. f_equal. div_lia.
Qed.

Lemma scan_digits_pretty n r : 0 ≤ n → plain_head r = true → scan_digits 0 (pretty n +:+ r) = (n, r).
Proof.
  intros Hn Hr. assert (∀ x s r, pretty_N_go x s +:+ r = pretty_N_go x (s +:+ r)) as Happ.
  { intros x. induction (N.lt_wf_0 x) as [x _ IH]. intros s r'.
    destruct (decide (x = 0)%N) as [->|Hne]; [by rewrite !pretty_N_go_0|].
    rewrite !(pretty_N_go_step x) by lia. by rewrite IH by (apply N.div_lt; lia). }
  assert (∀ acc, scan_digits acc r = (acc, r)) as Hrest.
  { intros acc. destruct r as [|a r]; [done|]. cbn in *. unfold digit in Hr. by destruct (code_in 48 57 a). }
  destruct n as [|p|p]; [apply Hrest| |lia].
  change (pretty (Z.pos p)) with (pretty_N_go (N.pos p) ""). by rewrite Happ, scan_digits_go.
Qed.

Lemma pretty_head n : 0 ≤ n → ∃ a s, pretty n = String a s ∧ code_in 48 57 a = true.
Proof.
  intros Hn. pose proof (pretty_digits n Hn) as Hd. destruct (pretty n) as [|a s] eqn:E.
  - pose proof (scan_digits_pretty n "x" Hn eq_refl) as H. rewrite E in H. cbn in H. injection H as <-. by vm_compute in E.
  - exists a, s. split; [done|]. by apply andb_true_iff in Hd as [].
Qed.

Lemma skip_digit a s : code_in 48 57 a = true → skip_space (String a s) = Some (String a s).
Proof.
  intros Ha. cbn [skip_space]. rewrite bool_decide_eq_false_2 by by intros ->.
  destruct (is_space a) eqn:E; [|done]. unfold code_in, is_space in *. exfalso. 
  rewrite andb_true_iff, orb_true_iff, !andb_true_iff, !Nat.leb_le, Nat.eqb_eq in *. lia.
Qed.

Lemma scan_uint_pretty bits n r : 0 ≤ n < 2 ^ bits → plain_head r = true → scan_uint bits (pretty n +:+ r) = Some (n, r).
Proof.
  intros Hn Hr. pose proof (scan_digits_pretty n r ltac:(lia) Hr) as Hd.
  destruct (pretty_head n) as (a & s & E & Ha); [lia|]. rewrite E in *. unfold scan_uint.
  change (String a s +:+ r) with (String a (s +:+ r)) in *. rewrite skip_digit, Ha, Hd by done.
  by rewrite (proj2 (Z.ltb_lt n (2 ^ bits))) by lia.
Qed.

(** ** Properties *)

Lemma scan_params_printed m i p :
  0 ≤ m < 2 ^ 32 → 0 ≤ i < 2 ^ 32 → 0 ≤ p < 2 ^ 8 →
  scan_params ("m=" +:+ pretty m +:+ ",t=" +:+ pretty i +:+ ",p=" +:+ pretty p) = Some (m, i, p).
Proof.
  intros Hm Hi Hp. unfold scan_params. rewrite scan_text_app. cbn [mbind option_bind].
  rewrite scan_uint_pretty by done. cbn [mbind option_bind]. rewrite scan_text_app. cbn [mbind option_bind].
  rewrite scan_uint_pretty by done. cbn [mbind option_bind]. rewrite scan_text_app. cbn [mbind option_bind].
  rewrite <- (app_empty_r (pretty p)), scan_uint_pretty by done. done.
Qed.

Lemma decode_hash_with `{Ar : Argon2} (p : Params) (password salt : string) :
  params_ok p →
  decode (hash_with p password salt) =
    Some (Params.mk (Params.Memory p) (Params.Iterations p) (Params.Parallelism p) 0 (Params.KeyLength p),
          salt, derive p password salt).
Proof.
  intros (Hm & Hi & Hp & Hk). set (key := derive p password salt).
  assert (∀ n, 0 ≤ n → all_bytes (λ a, bool_decide (a ≠ "$"%char)) (pretty n) = true) as Hnum.
  { intros n Hn. eapply all_bytes_weaken, pretty_digits; [|done]. intros a Ha. apply bool_decide_eq_true. by intros ->. }
  assert (Split (hash_with p password salt) "$" = [""; "argon2id"; "v=19";
    "m=" +:+ pretty (Params.Memory p) +:+ ",t=" +:+ pretty (Params.Iterations p) +:+ ",p=" +:+ pretty (Params.Parallelism p);
    EncodeToString salt; EncodeToString key]) as Hs.
  { change (hash_with p password salt) with ("" +:+ String "$" ("argon2id" +:+ String "$" ("v=19" +:+ String "$"
      (("m=" +:+ pretty (Params.Memory p) +:+ ",t=" +:+ pretty (Params.Iterations p) +:+ ",p=" +:+ pretty (Params.Parallelism p)
        +:+ String "$" (EncodeToString salt +:+ String "$" (EncodeToString key))))))).
    rewrite !Split_app by done. do 3 f_equal. rewrite <- (app_assoc_s ",p="), <- (app_assoc_s (pretty (Params.Iterations p))),
      <- (app_assoc_s ",t="), <- (app_assoc_s (pretty (Params.Memory p))), <- (app_assoc_s "m=").
    rewrite Split_app, Split_app, Split_none by (rewrite ?all_bytes_app, ?Hnum, ?EncodeToString_plain by lia; done).
    done. }
  unfold decode. rewrite Hs, scan_params_printed by done.
  change (scan_version "v=19") with (Some 19). change (negb ("argon2id" =s? "argon2id")) with false.
  cbn [mbind option_bind]. rewrite !DecodeString_EncodeToString. cbn [mbind option_bind].
  unfold key, derive. rewrite IDKey_length, Z.mod_small by lia. done.
Qed.

Lemma DefaultParams_ok : params_ok DefaultParams.
Proof. unfold params_ok, DefaultParams. simpl. lia. Qed.

(** A password verifies against the hash made of it, and another password
    exactly when Argon2id derives the same key; nothing verifies against a text
    that is no hash.  A hasher that [NewHasher] made always answers: its dummy
    hash decodes, so [Verify] calls itself at most once. *)
Theorem Verify_Hash `{Ar : Argon2} (params : Params) (h : Hasher) (dummy_salt salt : result error string)
    (password encoded : string) :
  params_ok params → NewHasher params dummy_salt = Ok h → Hash h password salt = Ok encoded →
  Verify 2 h password encoded = Some true
  ∧ (∀ other, ∃ key, Verify 2 h other encoded = Some key
       ∧ (key = true ↔ ∃ salt', salt = Ok salt' ∧ derive (Hasher.params h) other salt' = derive (Hasher.params h) password salt'))
  ∧ (∀ other stored, is_Some (Verify 2 h other stored))
  ∧ (∀ other stored, stored ≠ "" → decode stored = None → Verify 2 h other stored = Some false).
Proof.
  intros Hp Hn Hh. unfold NewHasher in Hn. set (p := if Params.SaltLength params =? 0 then DefaultParams else params) in *.
  assert (params_ok p) as Hp' by (unfold p; destruct (_ =? 0); [apply DefaultParams_ok|done]).
  clearbody p. clear params Hp.
  destruct dummy_salt as [ds|], salt as [salt|]; try done. unfold Hash in *. cbn [Hasher.params] in *.
  injection Hn as <-. injection Hh as <-. cbn [Hasher.params]. set (h := Hasher.mk p _).
  assert (∀ n pw pw' sl, Verify (S n) h pw' (hash_with p pw sl) = Some (derive p pw sl =s? derive p pw' sl)) as Hv.
  { intros n pw pw' sl. cbn [Verify].
    change (hash_with p pw sl =s? "") with false. cbv zeta. cbn iota. by rewrite decode_hash_with. }
  assert (∀ pw, Verify 1 h pw (Hasher.dummyHash h)
    = Some (derive p "dummy-timing-obfuscation-password" ds =s? derive p pw ds)) as Hd by (intros pw; apply (Hv 0%nat)).
  split_and!.
  - by rewrite Hv, String.eqb_refl.
  - intros other. eexists. split; [apply Hv|]. rewrite String.eqb_eq. split; [by exists salt|]. by intros (? & [= <-] & ?).
  - intros other stored. cbn [Verify]. destruct (decode _) as [[[??]?]|]; [done|]. cbn [Verify] in Hd. by rewrite Hd.
  - intros other stored Hne Hdec. cbn [Verify]. apply String.eqb_neq in Hne. rewrite Hne, Hdec. cbn [Verify] in Hd. by rewrite Hd.
Qed.

(** Argon2id replaced by a key of zeros ended by the first byte of the password. *)
Fixpoint toy_key (password : string) (n : nat) : string :=
  match n with
  | O => ""
  | 1%nat => match password with String a _ => String a "" | EmptyString => "0" end
  | S n => String "0" (toy_key password n)
  end.

Lemma toy_length password n : String.length (toy_key password n) = n.
Proof.
  induction n as [|[|n] IH]; [done|by destruct password|].
  change (toy_key password (S (S n))) with (String "0" (toy_key password (S n))). cbn [String.length]. by rewrite IH.
Qed.

Definition toy_argon : Argon2.
Proof. refine {| IDKey p _ _ _ _ n := toy_key p (Z.to_nat n) |}. intros. rewrite toy_length. lia. Defined.

Lemma Verify_Hash_witness :
  let p := Params.mk 8 1 1 4 5 in
  let h := Hasher.mk p (hash_with (Ar := toy_argon) p "dummy-timing-obfuscation-password" "pqrs") in
  let encoded := hash_with (Ar := toy_argon) p "secret" "abcd" in
  encoded = "$argon2id$v=19$m=8,t=1,p=1$YWJjZA$MDAwMHM" ∧ Verify (Ar := toy_argon) 2 h "secret" encoded = Some true
  ∧ Verify (Ar := toy_argon) 2 h "wrong" encoded = Some false.
Proof.
  intros p h encoded. destruct (Verify_Hash (Ar := toy_argon) p h (Ok "pqrs") (Ok "abcd") "secret" encoded) as (H1 & _).
  - unfold params_ok. simpl. lia.
  - reflexivity.
  - reflexivity.
  - split_and!; [vm_compute; reflexivity|exact H1|vm_compute; reflexivity].
Defined.

(** * Encryption at rest (packages/platform/cryptox, controlplane/crypto)

    AES-256-GCM of the standard library is the class [Aead]; the package puts
    the nonce before the ciphertext.  Keys are not modelled: an instance is a
    cipher with its key. *)

(** [Seal(nil, nonce, plaintext, data)] and [Open], for nonces of [NonceSize]
    bytes. *)
Class Aead := {
  Seal : string → string → string → string;
  Open : string → string → string → option string;
}.

Definition NonceSize : nat := 12.

(** What GCM promises of what it sealed: it opens with the same nonce and data,
    and with no other data. *)
Class AeadLaws `{Ae : Aead} : Prop := {
  open_seal nonce plain data : Open nonce (Seal nonce plain data) data = Some plain;
  open_other nonce plain data data' : data' ≠ data → Open nonce (Seal nonce plain data) data' = None;
}.

Section cipher.
Context `{Ae : Aead}.

(** [nonce] is what was read of the random source. *)
Definition Encrypt (nonce : string) (plaintext data : string) : string := nonce +:+ Seal nonce plaintext data.

Definition Decrypt (data aad : string) : result error string :=
  if (String.length data <? NonceSize)%nat
  then Err (Platform (New CodeInvalidArgument "cryptox: ciphertext too short"))
  else match Open (take_bytes NonceSize data) (drop_bytes NonceSize data) aad with
       | Some plain => Ok plain
       | None => Err (default (Plain "cipher: message authentication failed")
                   (Platform <$> Wrap (Some (Plain "cipher: message authentication failed")) CodeInvalidArgument
                      "cryptox: authentication failed"))
       end.

(** [crypto.AAD] *)
Definition AAD (orgID projectID : string) : string := orgID +:+ ":" +:+ projectID.

Lemma Decrypt_empty aad : is_ok (Decrypt "" aad) = false.
Proof. done. Qed.

Lemma Decrypt_Encrypt `{L : !AeadLaws} nonce plain aad aad' :
  String.length nonce = NonceSize →
  Decrypt (Encrypt nonce plain aad) aad = Ok plain
  ∧ (aad' ≠ aad → is_ok (Decrypt (Encrypt nonce plain aad) aad') = false).
Proof.
  intros Hn. unfold Decrypt, Encrypt. rewrite length_app_s.
  replace (String.length nonce + _ <? NonceSize)%nat with false by (symmetry; apply Nat.ltb_ge; lia).
  rewrite take_bytes_app, drop_bytes_app by done. rewrite open_seal. split; [done|].
  intros H. by rewrite open_other.
Qed.
End cipher.
