(* ===== verification/BuildModel.v ===== *)
(** * Builds: data and world

    The rows of the builder (packages/application/build/model/model.go), the
    rows of the control plane it reads beside those of [deploydb]
    (controlplane/gitrepo and controlplane/envvar), and what the builder reaches
    outside its database: [BuildWorld], files and programs.  [calls] is the
    trace of the requests made to that world. *)

From S2P Require Import Prelude GoLib Errors Postgres Sql DeployModel Rows Outside.

(** ** Rows *)

Abbreviation BuildStatus := string (only parsing).
Definition StatusQueued : BuildStatus := "queued".
Definition StatusRunning : BuildStatus := "running".
Definition StatusSucceeded : BuildStatus := "succeeded".
Definition StatusFailed : BuildStatus := "failed".
Definition StatusCancelled : BuildStatus := "cancelled".

Module Build.
Record t := mk {
  ID : string; OrgID : string; ProjectID : string; DeploymentID : string; JobID : option string;
  Status : BuildStatus; Framework : string; Runtime : string; CommitSHA : string; Branch : string;
  Environment : string; CorrelationID : string; WorkerID : string;
  StartedAt : option Time; FinishedAt : option Time; FailureReason : string; CancelledAt : option Time;
  Metadata : option string; CreatedAt : Time; UpdatedAt : Time;
}.
End Build.
Abbreviation Build := Build.t.

Module LogEntry.
Record t := mk {
  ID : string; BuildID : string; DeploymentID : string; Stage : string; Level : string;
  Message : string; Metadata : option string; CreatedAt : Time;
}.
End LogEntry.
Abbreviation LogEntry := LogEntry.t.

Module BuildArtifact.
Record t := mk {
  ID : string; BuildID : string; DeploymentID : string; OrgID : string; ProjectID : string;
  ImageDigest : string; ImageTag : string; ImageSizeBytes : Z; Registry : string; Repository : string;
  Framework : string; Runtime : string; DockerfileVersion : string; BuilderVersion : string;
  CommitSHA : string; Branch : string; BuildDurationMs : Z; CloneDurationMs : Z; DockerDurationMs : Z;
  PushDurationMs : Z; CacheHitRatio : f64; CacheLayersHit : Z; CacheLayersTotal : Z;
  Warnings : option string; SBOM : option string; Metadata : option string; CreatedAt : Time;
}.
End BuildArtifact.
Abbreviation BuildArtifact := BuildArtifact.t.

Module BuildEvent.
Record t := mk {
  ID : string; BuildID : string; DeploymentID : string; OrgID : string; ProjectID : string;
  EventType : string; CorrelationID : string; Metadata : option string; CreatedAt : Time;
}.
End BuildEvent.
Abbreviation BuildEvent := BuildEvent.t.

(** A connected repository (controlplane/gitrepo); encrypted blobs are texts,
    empty when nil. *)
Definition ProviderGitHub : string := "github".
Definition ProviderGitLab : string := "gitlab".
Definition ProviderBitbucket : string := "bitbucket".
Definition ProviderGeneric : string := "generic".

Module GitRepository.
Record t := mk {
  ID : string; ProjectID : string; OrgID : string; Provider : string; RepoURL : string; CloneURL : string;
  DefaultBranch : string; IsPrivate : bool; AccessTokenEnc : string; DeployKeyEnc : string;
  WebhookSecret : string; Metadata : option string; ConnectedAt : Time; UpdatedAt : Time;
  DisconnectedAt : option Time;
}.
End GitRepository.
Abbreviation GitRepository := GitRepository.t.

(** An environment variable (controlplane/envvar) with the column [deleted_at]. *)
Definition ScopeDevelopment : string := "development".
Definition ScopePreview : string := "preview".
Definition ScopeProduction : string := "production".

Module Variable_.
Record t := mk {
  ID : string; OrgID : string; ProjectID : string; Key : string; ValueEnc : string; Environment : string;
  IsSecret : bool; Version : Z; CreatedBy : string; CreatedAt : Time; UpdatedAt : Time;
  DeletedAt : option Time;
}.
End Variable_.
Abbreviation Variable_ := Variable_.t.

(** ** A workspace

    The files under a directory by their relative names; an entry that is no
    readable file exists all the same. *)

Inductive entry := File (data : string) | Opaque.
Abbreviation workspace := (gmap string entry).

(** ** The world outside *)

(** A program whose output is read while it runs: it cannot be started, or it
    ends and [lines] are those the readers got of both its streams, in the order
    in which they got them. *)
Inductive stream_answer :=
| NoStdout (e : error)
| NoStderr (e : error)
| NotStarted (e : error)
| Finished (lines : list string) (e : option error).

Inductive build_call :=
| CRun (argv : list string) (ok : bool)
| CStream (argv : list string) (ok : bool)
| CRemoveAll (dir : string) (ok : bool)
| CMakeDir (dir : string) (ok : bool)
| CCreateTemp (path : string)
| CWrite (path data : string) (ok : bool)
| CRemove (path : string).

(** [exec.CommandContext] with variables added to the environment and a text on
    its standard input: the output and the error of the command.  The empty
    context is [exec.Command]. *)
Class BuildWorld (W : Type) := {
  build_clock :: Clock W;
  open_context : ctx → W → ctx * W;
  close_context : ctx → W → W;
  context_error : ctx → W → option error;
  run_program : option ctx → list string → string → list string → W → (string * option error) * W;
  stream_program : ctx → list string → list string → W → stream_answer * W;
  remove_all : string → W → option error * W;
  make_dir : string → W → option error * W;
  create_temp : string → W → result error string * W;
  write_temp : string → string → W → option error * W;
  make_private : string → W → option error * W;
  remove_file : string → W → W;
  files_in : string → W → workspace;
  write_in : string → string → string → W → option error * W;
}.

(** What the documentation of [os.WriteFile] says of a file that was written. *)
Class BuildWorldLaws (W : Type) `{BW : BuildWorld W} : Prop := {
  write_in_files dir name data w w' :
    write_in dir name data w = (None, w') → files_in dir w' = <[name := File data]> (files_in dir w);
}.

(** Documents: [json.Marshal] of a list of strings, whether a text is JSON, and
    the names in dependencies and devDependencies of a package.json. *)
Class Documents := {
  json_list : list string → string;
  json_valid : string → bool;
  package_names : string → option (list string * list string);
}.

(** ** The state *)

Record builddb (W : Type) := mkBuildDb {
  tables : deploydb W;
  builds : list Build;
  saved_artifacts : list BuildArtifact;
  build_logs : list LogEntry;
  build_events : list BuildEvent;
  git_repositories : list GitRepository;
  env_vars : list Variable_;
  cancels : gmap string ctx;
  calls : list build_call;
}.
Arguments mkBuildDb {W}.
Arguments tables {W}.
Arguments builds {W}.
Arguments saved_artifacts {W}.
Arguments build_logs {W}.
Arguments build_events {W}.
Arguments git_repositories {W}.
Arguments env_vars {W}.
Arguments cancels {W}.
Arguments calls {W}.

Section state.
Context {W : Type}.
Implicit Types (s : builddb W).

Definition set_tables (x : deploydb W) s : builddb W :=
  mkBuildDb x (builds s) (saved_artifacts s) (build_logs s) (build_events s) (git_repositories s) (env_vars s) (cancels s) (calls s).
Definition set_builds (x : list Build) s : builddb W :=
  mkBuildDb (tables s) x (saved_artifacts s) (build_logs s) (build_events s) (git_repositories s) (env_vars s) (cancels s) (calls s).
Definition set_saved_artifacts (x : list BuildArtifact) s : builddb W :=
  mkBuildDb (tables s) (builds s) x (build_logs s) (build_events s) (git_repositories s) (env_vars s) (cancels s) (calls s).
Definition set_build_logs (x : list LogEntry) s : builddb W :=
  mkBuildDb (tables s) (builds s) (saved_artifacts s) x (build_events s) (git_repositories s) (env_vars s) (cancels s) (calls s).
Definition set_build_events (x : list BuildEvent) s : builddb W :=
  mkBuildDb (tables s) (builds s) (saved_artifacts s) (build_logs s) x (git_repositories s) (env_vars s) (cancels s) (calls s).
Definition set_cancels (x : gmap string ctx) s : builddb W :=
  mkBuildDb (tables s) (builds s) (saved_artifacts s) (build_logs s) (build_events s) (git_repositories s) (env_vars s) x (calls s).
Definition set_calls (x : list build_call) s : builddb W :=
  mkBuildDb (tables s) (builds s) (saved_artifacts s) (build_logs s) (build_events s) (git_repositories s) (env_vars s) (cancels s) x.

Definition tables_l : Lens (builddb W) (deploydb W).
Proof. refine {| view := tables; put := set_tables |}; by first [intros ? []|intros []]. Defined.
Definition builds_l : Lens (builddb W) (list Build).
Proof. refine {| view := builds; put := set_builds |}; by first [intros ? []|intros []]. Defined.
Definition saved_artifacts_l : Lens (builddb W) (list BuildArtifact).
Proof. refine {| view := saved_artifacts; put := set_saved_artifacts |}; by first [intros ? []|intros []]. Defined.
Definition build_logs_l : Lens (builddb W) (list LogEntry).
Proof. refine {| view := build_logs; put := set_build_logs |}; by first [intros ? []|intros []]. Defined.
Definition build_events_l : Lens (builddb W) (list BuildEvent).
Proof. refine {| view := build_events; put := set_build_events |}; by first [intros ? []|intros []]. Defined.

Definition world (s : builddb W) : W := outside (tables s).
Definition set_world (w : W) s : builddb W :=
  set_tables (DeployModel.set_world w (trace (tables s)) (tables s)) s.

(** A computation on the tables of the control plane. *)
Definition on_tables {A} : db (deploydb W) A → db (builddb W) A := zoom tables_l.

(** A request to the world. *)
Definition request_to {A} (op : W → A * W) (log : A → list build_call) : db (builddb W) A := λ '(s, fs),
  let '(a, w) := op (world s) in (Ok a, (set_calls (calls s ++ log a) (set_world w s), fs)).

Definition request_error (op : W → option error * W) (log : bool → list build_call) : db (builddb W) unit :=
  e ← request_to op (λ e, log (succeeded e)); refuse e.

(** A reading of the world. *)
Definition look {A} (f : W → A) : db (builddb W) A := request_to (λ w, (f w, w)) (λ _, []).

Context `{Cl : Clock W}.
Definition read_time : db (builddb W) Time := look now_of.
Definition fresh_uuid : db (builddb W) string := request_to new_uuid (λ _, []).

(** [if x.ID == "" { x.ID = idx.NewUUID() }] *)
Definition id_or_uuid (id : string) : db (builddb W) string :=
  if id =s? "" then fresh_uuid else mret id.
End state.

(** UUID columns refuse the empty text. *)
Definition uuids_ok (ids : list string) : bool := forallb (λ id, negb (id =s? "")) ids.
