(* ===== verification/Detect.v ===== *)
(** * Framework detection and Dockerfiles (packages/application/build/detect, dockerfile)

    Detection reads a workspace; [Generate] writes the Dockerfile of one that
    has none.  Contents are taken to be ASCII where they are lowered. *)

From S2P Require Import Prelude GoLib Errors Postgres DeployModel Outside BuildModel.

(** ** detect/detector.go *)

Module Framework.
Record t := mk { Name : string; Runtime : string; Version : string; Source : string }.
End Framework.
Abbreviation Framework := Framework.t.

Definition framework (name runtime source : string) : Framework := Framework.mk name runtime "" source.

Definition fileExists (ws : workspace) (name : string) : bool :=
  match ws !! name with Some _ => true | None => false end.

Definition ReadFile (ws : workspace) (name : string) : option string :=
  match ws !! name with Some (File data) => Some data | _ => None end.

(** [data, _ := os.ReadFile(..)]; [string(data)] *)
Definition content (ws : workspace) (name : string) : string := default "" (ReadFile ws name).

(** [matchesGlob(dir, prefix + "*")]: a star matches no separator. *)
Definition matchesGlob (ws : workspace) (prefix : string) : bool :=
  existsb (λ p, HasPrefix p.1 prefix && negb (Contains p.1 "/")) (map_to_list ws).

Definition detectDockerfile (ws : workspace) : option Framework :=
  if fileExists ws "Dockerfile" then Some (framework "dockerfile" "docker" "Dockerfile") else None.

Section with_documents.
Context `{Do : Documents}.

(** [mergeMaps] of the dependencies; [hasDep] looks at their names only. *)
Definition hasDep (deps : list string) (name : string) : bool := bool_decide (name ∈ deps).

Definition node_framework (deps : list string) : string :=
  if hasDep deps "next" then "nextjs"
  else if hasDep deps "@remix-run/react" then "remix"
  else if hasDep deps "react" then "react"
  else if hasDep deps "@nestjs/core" then "nestjs"
  else if hasDep deps "fastify" then "fastify"
  else if hasDep deps "express" then "express"
  else "nodejs".

Definition detectNode (ws : workspace) : option Framework :=
  match ReadFile ws "package.json" with
  | None => None
  | Some data =>
      match package_names data with
      | None => None
      | Some (deps, devDeps) => Some (framework (node_framework (deps ++ devDeps)) "node20" "package.json")
      end
  end.

Definition python_framework (content source : string) : Framework :=
  framework (if Contains content "fastapi" then "fastapi"
             else if Contains content "django" then "django"
             else if Contains content "flask" then "flask"
             else "python") "python3.12" source.

Definition detectPython (ws : workspace) : option Framework :=
  if fileExists ws "pyproject.toml" then Some (python_framework (content ws "pyproject.toml") "pyproject.toml")
  else if fileExists ws "requirements.txt"
       then Some (python_framework (ToLower (content ws "requirements.txt")) "requirements.txt")
  else None.

Definition detectGo (ws : workspace) : option Framework :=
  if fileExists ws "go.mod" then Some (framework "go" "go1.22" "go.mod") else None.

Definition detectRust (ws : workspace) : option Framework :=
  if fileExists ws "Cargo.toml" then Some (framework "rust" "rust1.78" "Cargo.toml") else None.

Definition detectJava (ws : workspace) : option Framework :=
  if fileExists ws "pom.xml" || matchesGlob ws "build.gradle" then
    Some (if fileExists ws "pom.xml" && Contains (content ws "pom.xml") "spring-boot"
          then framework "spring-boot" "java21" "pom.xml"
          else framework "java" "java21" "build.gradle")
  else None.

Definition detectRuby (ws : workspace) : option Framework :=
  if fileExists ws "Gemfile" then Some (framework "ruby" "ruby3.3" "Gemfile") else None.

Definition detectPHP (ws : workspace) : option Framework :=
  if fileExists ws "composer.json" then Some (framework "php" "php8.3" "composer.json") else None.

Fixpoint static_page (ws : workspace) (names : list string) : option Framework :=
  match names with
  | [] => None
  | name :: names =>
      if fileExists ws name then Some (framework "static" "nginx" name) else static_page ws names
  end.

Definition detectStatic (ws : workspace) : option Framework :=
  static_page ws ["index.html"; "public/index.html"; "dist/index.html"].

(** [NewDetector] *)
Definition detectors : list (workspace → option Framework) :=
  [detectDockerfile; detectNode; detectPython; detectGo; detectRust; detectJava; detectRuby; detectPHP;
   detectStatic].

Fixpoint first_match (fns : list (workspace → option Framework)) (ws : workspace) : Framework :=
  match fns with
  | [] => framework "unknown" "generic" "default"
  | fn :: fns => match fn ws with Some fw => fw | None => first_match fns ws end
  end.

Definition Detect (ws : workspace) : Framework := first_match detectors ws.
End with_documents.

(** ** dockerfile/generator.go *)

Definition generatorVersion : string := "agnivo-dfgen-1.0".

Record GenerateResult := {
  gen_Path : string; gen_Content : string; gen_Version : string; gen_Generated : bool;
}.

Definition quoted_text (s : string) : string := quote +:+ s +:+ quote.

(** A JSON list of words, as the exec form of an instruction has it. *)
Fixpoint words (l : list string) : string :=
  match l with
  | [] => ""
  | [w] => quoted_text w
  | w :: l => quoted_text w +:+ ", " +:+ words l
  end.

Definition exec_form (l : list string) : string := "[" +:+ words l +:+ "]".

Definition label_line (name value : string) : string := "LABEL " +:+ name +:+ "=" +:+ quoted_text value.

Definition labels_of (name : string) : string :=
  label_line "org.opencontainers.image.source" "agnivo-builder" +:+ newline
  +:+ label_line "org.opencontainers.image.vendor" "agnivo" +:+ newline
  +:+ label_line "org.opencontainers.image.title" name.

Definition nodeMultiStage (fw : Framework) (install build start port labels : string) : string :=
  let runtime := if Framework.Runtime fw =s? "" then "node20" else Framework.Runtime fw in
  let version := TrimPrefix runtime "node" in
  unlines [
    "# syntax=docker/dockerfile:1";
    "FROM node:" +:+ version +:+ "-alpine AS deps";
    "WORKDIR /app";
    "COPY package*.json ./";
    "RUN " +:+ install;
    "";
    "FROM node:" +:+ version +:+ "-alpine AS builder";
    "WORKDIR /app";
    "COPY --from=deps /app/node_modules ./node_modules";
    "COPY . .";
    "RUN " +:+ build;
    "";
    "FROM node:" +:+ version +:+ "-alpine AS runner";
    "WORKDIR /app";
    "ENV NODE_ENV=production";
    "RUN addgroup -g 1001 -S agnivo && adduser -S agnivo -u 1001 -G agnivo";
    "COPY --from=builder --chown=agnivo:agnivo /app .";
    "USER agnivo";
    "EXPOSE " +:+ port;
    labels;
    "HEALTHCHECK --interval=30s --timeout=3s --start-period=10s CMD wget -qO- http://127.0.0.1:"
      +:+ port +:+ "/ || exit 1";
    "CMD " +:+ start].

Definition pythonMultiStage (labels : string) : string :=
  unlines [
    "# syntax=docker/dockerfile:1";
    "FROM python:3.12-slim AS builder";
    "WORKDIR /app";
    "RUN apt-get update && apt-get install -y --no-install-recommends build-essential && rm -rf /var/lib/apt/lists/*";
    "COPY requirements.txt pyproject.toml* ./";
    "RUN pip install --no-cache-dir -r requirements.txt 2>/dev/null || pip install --no-cache-dir .";
    "";
    "FROM gcr.io/distroless/python3-debian12 AS runner";
    "WORKDIR /app";
    "COPY --from=builder /usr/local/lib/python3.12/site-packages /usr/local/lib/python3.12/site-packages";
    "COPY . .";
    "USER 65532:65532";
    "EXPOSE 8000";
    labels;
    "CMD " +:+ exec_form ["python"; "-m"; "uvicorn"; "main:app"; "--host"; "0.0.0.0"; "--port"; "8000"]].

Definition goMultiStage (labels : string) : string :=
  unlines [
    "# syntax=docker/dockerfile:1";
    "FROM golang:1.22-alpine AS builder";
    "WORKDIR /src";
    "RUN apk add --no-cache git ca-certificates";
    "COPY go.mod go.sum ./";
    "RUN go mod download";
    "COPY . .";
    "RUN CGO_ENABLED=0 GOOS=linux go build -ldflags=" +:+ quoted_text "-s -w" +:+ " -o /out/app .";
    "";
    "FROM gcr.io/distroless/static-debian12:nonroot";
    "COPY --from=builder /out/app /app";
    "USER nonroot:nonroot";
    "EXPOSE 8080";
    labels;
    "ENTRYPOINT " +:+ exec_form ["/app"]].

Definition rustMultiStage (labels : string) : string :=
  unlines [
    "# syntax=docker/dockerfile:1";
    "FROM rust:1.78-alpine AS builder";
    "WORKDIR /src";
    "RUN apk add --no-cache musl-dev";
    "COPY Cargo.toml Cargo.lock ./";
    "COPY src ./src";
    "RUN cargo build --release";
    "";
    "FROM alpine:3.20";
    "RUN adduser -D -u 1001 agnivo";
    "COPY --from=builder /src/target/release/* /app/";
    "USER agnivo";
    "EXPOSE 8080";
    labels;
    "ENTRYPOINT " +:+ exec_form ["/app/main"]].

Definition javaMultiStage (labels : string) : string :=
  unlines [
    "# syntax=docker/dockerfile:1";
    "FROM eclipse-temurin:21-jdk-alpine AS builder";
    "WORKDIR /src";
    "COPY . .";
    "RUN ./mvnw -q package -DskipTests || ./gradlew bootJar -x test";
    "";
    "FROM gcr.io/distroless/java21-debian12:nonroot";
    "COPY --from=builder /src/target/*.jar /app/app.jar";
    "USER nonroot:nonroot";
    "EXPOSE 8080";
    labels;
    "ENTRYPOINT " +:+ exec_form ["java"; "-jar"; "/app/app.jar"]].

Definition rubyMultiStage (labels : string) : string :=
  unlines [
    "# syntax=docker/dockerfile:1";
    "FROM ruby:3.3-alpine AS builder";
    "WORKDIR /app";
    "RUN apk add --no-cache build-base";
    "COPY Gemfile Gemfile.lock ./";
    "RUN bundle config set --local deployment 'true' && bundle install";
    "COPY . .";
    "";
    "FROM ruby:3.3-alpine AS runner";
    "WORKDIR /app";
    "RUN adduser -D -u 1001 agnivo";
    "COPY --from=builder /app /app";
    "USER agnivo";
    "EXPOSE 3000";
    labels;
    "CMD " +:+ exec_form ["bundle"; "exec"; "rails"; "server"; "-b"; "0.0.0.0"]].

Definition phpMultiStage (labels : string) : string :=
  unlines [
    "# syntax=docker/dockerfile:1";
    "FROM composer:2 AS builder";
    "WORKDIR /app";
    "COPY composer.json composer.lock ./";
    "RUN composer install --no-dev --optimize-autoloader";
    "COPY . .";
    "";
    "FROM php:8.3-fpm-alpine AS runner";
    "WORKDIR /app";
    "RUN adduser -D -u 1001 agnivo";
    "COPY --from=builder /app /app";
    "USER agnivo";
    "EXPOSE 8080";
    labels;
    "CMD " +:+ exec_form ["php"; "-S"; "0.0.0.0:8080"; "-t"; "public"]].

Definition staticNginx (labels : string) : string :=
  unlines [
    "# syntax=docker/dockerfile:1";
    "FROM nginx:1.27-alpine";
    "COPY . /usr/share/nginx/html";
    labels;
    "HEALTHCHECK --interval=30s CMD wget -qO- http://127.0.0.1/ || exit 1"].

Definition generic (labels : string) : string :=
  unlines [
    "# syntax=docker/dockerfile:1";
    "FROM alpine:3.20";
    "WORKDIR /app";
    "COPY . .";
    "RUN adduser -D -u 1001 agnivo && chown -R agnivo:agnivo /app";
    "USER agnivo";
    "EXPOSE 8080";
    labels;
    "CMD " +:+ exec_form ["sh"; "-c"; "echo 'Configure CMD in Dockerfile' && sleep infinity"]].

Definition one_of (s : string) (l : list string) : bool := existsb (λ x, s =s? x) l.

Definition template (fw : Framework) : string :=
  let name := Framework.Name fw in
  let labels := labels_of name in
  if name =s? "nextjs" then nodeMultiStage fw "npm ci" "npm run build" "npm start" "3000" labels
  else if one_of name ["remix"; "react"; "express"; "fastify"; "nestjs"; "nodejs"] then
    nodeMultiStage fw "npm ci" "npm run build || true" "node server.js || npm start" "3000" labels
  else if one_of name ["fastapi"; "flask"; "django"; "python"] then pythonMultiStage labels
  else if name =s? "go" then goMultiStage labels
  else if name =s? "rust" then rustMultiStage labels
  else if one_of name ["spring-boot"; "java"] then javaMultiStage labels
  else if name =s? "ruby" then rubyMultiStage labels
  else if name =s? "php" then phpMultiStage labels
  else if name =s? "static" then staticNginx labels
  else generic labels.

(** [filepath.Join] of clean paths. *)
Definition Join (dir name : string) : string := if dir =s? "" then name else dir +:+ "/" +:+ name.

Section generate.
Context {W : Type} `{BW : BuildWorld W}.

Definition generated (dir content version : string) (fresh : bool) : GenerateResult :=
  {| gen_Path := Join dir "Dockerfile"; gen_Content := content; gen_Version := version;
     gen_Generated := fresh |}.

Definition write_generated (dir content : string) : db (builddb W) GenerateResult :=
  _ ← request_error (write_in dir "Dockerfile" content) (λ ok, [CWrite (Join dir "Dockerfile") content ok]);
  mret (generated dir content generatorVersion true).

Definition Generate (dir : string) (fw : Framework) : db (builddb W) GenerateResult :=
  ws ← look (files_in dir);
  match ReadFile ws "Dockerfile" with
  | Some data => if negb (blank data) then mret (generated dir data "custom" false)
                 else write_generated dir (template fw)
  | None => write_generated dir (template fw)
  end.
End generate.
