(* ===== verification/BuildStore.v ===== *)
(** * The builder's tables (packages/application/build/buildstore, logs, events)

    One definition per statement, with the unique and foreign keys of
    build/schema.go, and the reads the builder makes of the control plane's
    repositories (controlplane/gitrepo) and variables (controlplane/envvar).
    Publication on Redis and on the event bus is not modelled. *)

From S2P Require Import Prelude GoLib Errors Postgres Sql DeployModel Rows Outside BuildModel.

Definition duplicate_id : error := PgError sqlStateUniqueViolation "duplicate key".
Definition no_build : error := PgError sqlStateForeignKeyViolation "build_id".
Definition invalid_json : error := PgError "22P02" "invalid input syntax for type json".

(** What pgx does with a column of a row when the struct it is read into by name
    has no field of that name: the error it reports, or [None] if it skips the
    column.  pgx 5 reports one. *)
Class RowMapping := { unmatched_column : string → option error }.
Definition strict_mapping : RowMapping :=
  {| unmatched_column := λ name, Some (Plain ("struct doesn't have corresponding row field " +:+ name)) |}.

Section store.
Context {W : Type} `{Cl : Clock W} `{D : Driver} `{So : Sorter} `{Do : Documents} `{RM : RowMapping}.

(** ** Builds *)

Definition build_of (deploymentID : string) (b : Build) : bool := Build.DeploymentID b =s? deploymentID.
Definition is_build (id : string) (b : Build) : bool := Build.ID b =s? id.

Definition new_build (id : string) (now : Time) (b : Build) : Build :=
  {| Build.ID := id; Build.OrgID := Build.OrgID b; Build.ProjectID := Build.ProjectID b;
     Build.DeploymentID := Build.DeploymentID b; Build.JobID := Build.JobID b; Build.Status := Build.Status b;
     Build.Framework := Build.Framework b; Build.Runtime := Build.Runtime b; Build.CommitSHA := Build.CommitSHA b;
     Build.Branch := Build.Branch b; Build.Environment := Build.Environment b;
     Build.CorrelationID := Build.CorrelationID b; Build.WorkerID := Build.WorkerID b;
     Build.StartedAt := None; Build.FinishedAt := None; Build.FailureReason := ""; Build.CancelledAt := None;
     Build.Metadata := Some (default "{}" (Build.Metadata b)); Build.CreatedAt := now; Build.UpdatedAt := now |}.

(** [DO UPDATE SET job_id = COALESCE(EXCLUDED.job_id, job_id)] *)
Definition merge_build (row old : Build) : Build :=
  {| Build.ID := Build.ID old; Build.OrgID := Build.OrgID old; Build.ProjectID := Build.ProjectID old;
     Build.DeploymentID := Build.DeploymentID old;
     Build.JobID := match Build.JobID row with Some j => Some j | None => Build.JobID old end;
     Build.Status := Build.Status old; Build.Framework := Build.Framework old; Build.Runtime := Build.Runtime old;
     Build.CommitSHA := Build.CommitSHA old; Build.Branch := Build.Branch old;
     Build.Environment := Build.Environment old; Build.CorrelationID := Build.CorrelationID old;
     Build.WorkerID := Build.WorkerID old; Build.StartedAt := Build.StartedAt old;
     Build.FinishedAt := Build.FinishedAt old; Build.FailureReason := Build.FailureReason old;
     Build.CancelledAt := Build.CancelledAt old; Build.Metadata := Build.Metadata old;
     Build.CreatedAt := Build.CreatedAt old; Build.UpdatedAt := Build.UpdatedAt row |}.

Definition upsert_build (row : Build) (t : list Build) : result error Build * list Build :=
  if negb (uuids_ok [Build.OrgID row; Build.ProjectID row; Build.DeploymentID row] && uuid_or_null (Build.JobID row))
  then (Err invalid_uuid, t)
  else match select (build_of (Build.DeploymentID row)) t with
  | old :: _ => (Ok (merge_build row old), update_where (build_of (Build.DeploymentID row)) (merge_build row) t)
  | [] => if matched (is_build (Build.ID row)) t =? 0 then (Ok row, t ++ [row]) else (Err duplicate_id, t)
  end.

Definition UpsertForDeployment (b : Build) : db (builddb W) Build :=
  id ← id_or_uuid (Build.ID b);
  now ← read_time;
  translate "build: scan" (stmt builds_l (λ _, upsert_build (new_build id now b))).

Definition build_changed (status worker framework runtime reason : string) (started finished cancelled : option Time)
    (now : Time) (b : Build) : Build :=
  {| Build.ID := Build.ID b; Build.OrgID := Build.OrgID b; Build.ProjectID := Build.ProjectID b;
     Build.DeploymentID := Build.DeploymentID b; Build.JobID := Build.JobID b; Build.Status := status;
     Build.Framework := framework; Build.Runtime := runtime; Build.CommitSHA := Build.CommitSHA b;
     Build.Branch := Build.Branch b; Build.Environment := Build.Environment b;
     Build.CorrelationID := Build.CorrelationID b; Build.WorkerID := worker; Build.StartedAt := started;
     Build.FinishedAt := finished; Build.FailureReason := reason; Build.CancelledAt := cancelled;
     Build.Metadata := Build.Metadata b; Build.CreatedAt := Build.CreatedAt b; Build.UpdatedAt := now |}.

Definition build_running (worker : string) (now : Time) (b : Build) : Build :=
  build_changed StatusRunning worker (Build.Framework b) (Build.Runtime b) (Build.FailureReason b)
    (Some (default now (Build.StartedAt b))) (Build.FinishedAt b) (Build.CancelledAt b) now b.
Definition build_succeeded (framework runtime : string) (now : Time) (b : Build) : Build :=
  build_changed StatusSucceeded (Build.WorkerID b) framework runtime (Build.FailureReason b)
    (Build.StartedAt b) (Some now) (Build.CancelledAt b) now b.
Definition build_failed_row (reason : string) (now : Time) (b : Build) : Build :=
  build_changed StatusFailed (Build.WorkerID b) (Build.Framework b) (Build.Runtime b) reason
    (Build.StartedAt b) (Some now) (Build.CancelledAt b) now b.
Definition build_cancelled (now : Time) (b : Build) : Build :=
  build_changed StatusCancelled (Build.WorkerID b) (Build.Framework b) (Build.Runtime b) (Build.FailureReason b)
    (Build.StartedAt b) (Some now) (Some now) now b.

(** [UPDATE builder_builds .. WHERE id=$1] *)
Definition mark_build (message id : string) (f : Time → Build → Build) : db (builddb W) unit :=
  now ← read_time;
  translate message (stmt builds_l (λ _ t,
    if uuids_ok [id] then (Ok tt, update_where (is_build id) (f now) t) else (Err invalid_uuid, t))).

Definition MarkRunning (id workerID : string) : db (builddb W) unit :=
  mark_build "build: mark running" id (build_running workerID).
Definition MarkSucceeded (id framework runtime : string) : db (builddb W) unit :=
  mark_build "build: mark succeeded" id (build_succeeded framework runtime).
Definition MarkFailed (id reason : string) : db (builddb W) unit :=
  mark_build "build: mark failed" id (build_failed_row reason).
Definition MarkCancelled (id : string) : db (builddb W) unit :=
  mark_build "build: mark cancelled" id build_cancelled.

Definition first_build (id : string) (p : Build → bool) : db (builddb W) Build :=
  translate "build: scan" (stmt builds_l (λ _ t,
    (if uuids_ok [id] then match select p t with b :: _ => Ok b | [] => Err ErrNoRows end
     else Err invalid_uuid, t))).

Definition GetByDeployment (deploymentID : string) : db (builddb W) Build :=
  first_build deploymentID (build_of deploymentID).
Definition GetByID (id : string) : db (builddb W) Build := first_build id (is_build id).

(** [SELECT status, count] by status, as the map of the statuses present. *)
Definition Stats : db (builddb W) (list (BuildStatus * Z)) :=
  translate "build: stats" (stmt builds_l (λ _ t,
    (Ok ((λ st, (st, matched (λ b, Build.Status b =s? st) t)) <$> remove_dups (Build.Status <$> t)), t))).

(** ** Artifacts *)

Definition artifact_of (deploymentID : string) (a : BuildArtifact) : bool :=
  BuildArtifact.DeploymentID a =s? deploymentID.

Definition artifact_with (id : string) (digest tag : string) (size ms : Z) (warnings meta : option string) (now : Time)
    (a : BuildArtifact) : BuildArtifact :=
  {| BuildArtifact.ID := id; BuildArtifact.BuildID := BuildArtifact.BuildID a;
     BuildArtifact.DeploymentID := BuildArtifact.DeploymentID a; BuildArtifact.OrgID := BuildArtifact.OrgID a;
     BuildArtifact.ProjectID := BuildArtifact.ProjectID a; BuildArtifact.ImageDigest := digest;
     BuildArtifact.ImageTag := tag; BuildArtifact.ImageSizeBytes := size;
     BuildArtifact.Registry := BuildArtifact.Registry a; BuildArtifact.Repository := BuildArtifact.Repository a;
     BuildArtifact.Framework := BuildArtifact.Framework a; BuildArtifact.Runtime := BuildArtifact.Runtime a;
     BuildArtifact.DockerfileVersion := BuildArtifact.DockerfileVersion a;
     BuildArtifact.BuilderVersion := BuildArtifact.BuilderVersion a;
     BuildArtifact.CommitSHA := BuildArtifact.CommitSHA a; BuildArtifact.Branch := BuildArtifact.Branch a;
     BuildArtifact.BuildDurationMs := ms; BuildArtifact.CloneDurationMs := BuildArtifact.CloneDurationMs a;
     BuildArtifact.DockerDurationMs := BuildArtifact.DockerDurationMs a;
     BuildArtifact.PushDurationMs := BuildArtifact.PushDurationMs a;
     BuildArtifact.CacheHitRatio := BuildArtifact.CacheHitRatio a;
     BuildArtifact.CacheLayersHit := BuildArtifact.CacheLayersHit a;
     BuildArtifact.CacheLayersTotal := BuildArtifact.CacheLayersTotal a;
     BuildArtifact.Warnings := warnings; BuildArtifact.SBOM := BuildArtifact.SBOM a;
     BuildArtifact.Metadata := meta; BuildArtifact.CreatedAt := now |}.

Definition new_artifact (id : string) (now : Time) (a : BuildArtifact) : BuildArtifact :=
  artifact_with id (BuildArtifact.ImageDigest a) (BuildArtifact.ImageTag a) (BuildArtifact.ImageSizeBytes a)
    (BuildArtifact.BuildDurationMs a) (Some (default (json_list []) (BuildArtifact.Warnings a)))
    (Some (default "{}" (BuildArtifact.Metadata a))) now a.

Definition merge_artifact (row old : BuildArtifact) : BuildArtifact :=
  artifact_with (BuildArtifact.ID old) (BuildArtifact.ImageDigest row) (BuildArtifact.ImageTag row)
    (BuildArtifact.ImageSizeBytes row) (BuildArtifact.BuildDurationMs row) (BuildArtifact.Warnings old)
    (BuildArtifact.Metadata row) (BuildArtifact.CreatedAt row) old.

(** Both JSONB columns a caller fills with the output of a program. *)
Definition documents_ok (a : BuildArtifact) : bool :=
  match BuildArtifact.SBOM a with Some doc => json_valid doc | None => true end.

Definition save_artifact (bs : list Build) (row : BuildArtifact) (t : list BuildArtifact)
    : result error (string * Time) * list BuildArtifact :=
  let mine := artifact_of (BuildArtifact.DeploymentID row) in
  if negb (uuids_ok [BuildArtifact.BuildID row; BuildArtifact.DeploymentID row; BuildArtifact.OrgID row;
                     BuildArtifact.ProjectID row]) then (Err invalid_uuid, t)
  else if negb (documents_ok row) then (Err invalid_json, t)
  else match select mine t with
  | old :: _ => (Ok (BuildArtifact.ID old, BuildArtifact.CreatedAt row), update_where mine (merge_artifact row) t)
  | [] =>
      if negb (matched (λ a, BuildArtifact.ID a =s? BuildArtifact.ID row) t =? 0) then (Err duplicate_id, t)
      else if matched (is_build (BuildArtifact.BuildID row)) bs =? 0 then (Err no_build, t)
      else (Ok (BuildArtifact.ID row, BuildArtifact.CreatedAt row), t ++ [row])
  end.

(** Only the identifier and the time are read back. *)
Definition Save (a : BuildArtifact) : db (builddb W) BuildArtifact :=
  id ← id_or_uuid (BuildArtifact.ID a);
  now ← read_time;
  r ← translate "artifact: save" (stmt saved_artifacts_l (λ s, save_artifact (builds s) (new_artifact id now a)));
  mret (artifact_with r.1 (BuildArtifact.ImageDigest a) (BuildArtifact.ImageTag a)
          (BuildArtifact.ImageSizeBytes a) (BuildArtifact.BuildDurationMs a) (BuildArtifact.Warnings a)
          (BuildArtifact.Metadata a) r.2 a).

Definition GetArtifact (deploymentID : string) : db (builddb W) BuildArtifact :=
  translate "artifact: get" (stmt saved_artifacts_l (λ _ t,
    (if uuids_ok [deploymentID] then match select (artifact_of deploymentID) t with a :: _ => Ok a | [] => Err ErrNoRows end
     else Err invalid_uuid, t))).

(** ** Logs *)

Definition log_row (id : string) (now : Time) (e : LogEntry) : LogEntry :=
  {| LogEntry.ID := id; LogEntry.BuildID := LogEntry.BuildID e; LogEntry.DeploymentID := LogEntry.DeploymentID e;
     LogEntry.Stage := LogEntry.Stage e; LogEntry.Level := LogEntry.Level e; LogEntry.Message := LogEntry.Message e;
     LogEntry.Metadata := Some (default "{}" (LogEntry.Metadata e)); LogEntry.CreatedAt := now |}.

Definition append_log (bs : list Build) (row : LogEntry) (t : list LogEntry) : result error unit * list LogEntry :=
  if negb (uuids_ok [LogEntry.BuildID row; LogEntry.DeploymentID row]) then (Err invalid_uuid, t)
  else if negb (matched (λ e, LogEntry.ID e =s? LogEntry.ID row) t =? 0) then (Err duplicate_id, t)
  else if matched (is_build (LogEntry.BuildID row)) bs =? 0 then (Err no_build, t)
  else (Ok tt, t ++ [row]).

Definition Append (e : LogEntry) : db (builddb W) unit :=
  id ← id_or_uuid (LogEntry.ID e);
  now ← read_time;
  translate "build logs: append" (stmt build_logs_l (λ s, append_log (builds s) (log_row id now e))).

Definition ListByBuild (buildID : string) (limit : Z) : db (builddb W) (list LogEntry) :=
  let limit := if limit <=? 0 then 500 else limit in
  translate "build logs: list" (stmt build_logs_l (λ _ t,
    (if uuids_ok [buildID] then
       Ok (take (Z.to_nat limit) (sort_slice (λ x y, LogEntry.CreatedAt x <? LogEntry.CreatedAt y)
             (select (λ e, LogEntry.BuildID e =s? buildID) t)))
     else Err invalid_uuid, t))).

Definition ArchiveOlderThan (olderThan : Duration) : db (builddb W) Z :=
  now ← read_time;
  let old := λ e, LogEntry.CreatedAt e <? now - olderThan in
  translate "build logs: archive" (stmt build_logs_l (λ _ t, (Ok (matched old t), delete_where old t))).

(** ** Log lines (logs/streamer.go) *)

Definition LevelInfo : string := "info".
Definition LevelWarn : string := "warn".
Definition LevelError : string := "error".
Definition LevelDebug : string := "debug".

Definition patterns : list string := ["ghp_"; "gho_"; "glpat-"; "xoxb-"; "Bearer "; "password="; "token="].

Definition redact (out p : string) : string :=
  match index out p with
  | Some idx => take_bytes idx out +:+ p +:+ "[REDACTED]"
  | None => out
  end.

Definition sanitize (msg : string) : string := foldl redact msg patterns.

(** [json.Marshal] of a nil map. *)
Definition Write (buildID deploymentID stage level message : string) : db (builddb W) unit :=
  Append (LogEntry.mk "" buildID deploymentID stage level (sanitize message) (Some "null") 0).

Definition Info (buildID deploymentID stage msg : string) : db (builddb W) unit :=
  Write buildID deploymentID stage LevelInfo msg.
Definition Warn (buildID deploymentID stage msg : string) : db (builddb W) unit :=
  Write buildID deploymentID stage LevelWarn msg.
Definition Error_ (buildID deploymentID stage msg : string) : db (builddb W) unit :=
  Write buildID deploymentID stage LevelError msg.

(** ** Events (events/publisher.go) *)

Definition BuildQueued : string := "build.queued".
Definition BuildStarted : string := "build.started".
Definition RepositoryCloned : string := "build.repository_cloned".
Definition FrameworkDetected : string := "build.framework_detected".
Definition DockerfileGenerated : string := "build.dockerfile_generated".
Definition BuildSucceeded : string := "build.succeeded".
Definition BuildFailed : string := "build.failed".
Definition ImagePushed : string := "build.image_pushed".
Definition BuildCancelled : string := "build.cancelled".

Record BuildMeta := {
  bm_BuildID : string; bm_DeploymentID : string; bm_OrgID : string; bm_ProjectID : string;
  bm_CorrelationID : string;
}.

Definition insert_build_event (row : BuildEvent) (t : list BuildEvent) : result error unit * list BuildEvent :=
  if negb (uuids_ok [BuildEvent.BuildID row; BuildEvent.DeploymentID row; BuildEvent.OrgID row;
                     BuildEvent.ProjectID row]) then (Err invalid_uuid, t)
  else if negb (matched (λ e, BuildEvent.ID e =s? BuildEvent.ID row) t =? 0) then (Err duplicate_id, t)
  else (Ok tt, t ++ [row]).

(** [Repository.Insert] of an event with an identifier and no metadata: the data
    of an event goes to the bus only. *)
Definition Publish (eventType : string) (meta : BuildMeta) : db (builddb W) unit :=
  id ← fresh_uuid;
  now ← read_time;
  translate "build events: insert" (stmt build_events_l (λ _, insert_build_event
    (BuildEvent.mk id (bm_BuildID meta) (bm_DeploymentID meta) (bm_OrgID meta) (bm_ProjectID meta) eventType
       (bm_CorrelationID meta) (Some "{}") now))).

(** ** The control plane's rows *)

Definition connected (orgID projectID : string) (r : GitRepository) : bool :=
  (GitRepository.ProjectID r =s? projectID) && (GitRepository.OrgID r =s? orgID)
  && match GitRepository.DisconnectedAt r with None => true | Some _ => false end.

Definition GetWithCredentials (orgID projectID : string) : db (builddb W) GitRepository :=
  translate "gitrepo: get with credentials" (query (λ s,
    (if uuids_ok [orgID; projectID] then
       match select (connected orgID projectID) (git_repositories s) with r :: _ => Ok r | [] => Err ErrNoRows end
     else Err invalid_uuid, s))).

Definition in_scope (orgID projectID env : string) (v : Variable_) : bool :=
  (Variable_.OrgID v =s? orgID) && (Variable_.ProjectID v =s? projectID)
  && match Variable_.DeletedAt v with None => true | Some _ => false end
  && ((env =s? "") || (Variable_.Environment v =s? env)).

(** [ValueEnc] is tagged [db:"-"]: the column [value_enc] has no field. *)
Definition without_value (v : Variable_) : Variable_ :=
  {| Variable_.ID := Variable_.ID v; Variable_.OrgID := Variable_.OrgID v; Variable_.ProjectID := Variable_.ProjectID v;
     Variable_.Key := Variable_.Key v; Variable_.ValueEnc := ""; Variable_.Environment := Variable_.Environment v;
     Variable_.IsSecret := Variable_.IsSecret v; Variable_.Version := Variable_.Version v;
     Variable_.CreatedBy := Variable_.CreatedBy v; Variable_.CreatedAt := Variable_.CreatedAt v;
     Variable_.UpdatedAt := Variable_.UpdatedAt v; Variable_.DeletedAt := Variable_.DeletedAt v |}.

Definition ListVariables (orgID projectID env : string) : db (builddb W) (list Variable_) :=
  rows ← translate "envvar: list" (query (λ s,
    (if uuids_ok [orgID; projectID] then
       Ok (sort_slice (λ x y, String.ltb (Variable_.Key x) (Variable_.Key y))
             (select (in_scope orgID projectID env) (env_vars s)))
     else Err invalid_uuid, s)));
  match rows, unmatched_column "value_enc" with
  | _ :: _, Some e => fail e
  | _, _ => mret (without_value <$> rows)
  end.
End store.
