(* ===== verification/BuildTools.v ===== *)
(** * The builder's tools (packages/application/build git, buildkit, cache, ecr, sbom)

    Each runs programs and handles files of [BuildWorld].  A Go map is iterated
    in the order of [map_to_list]; the order of the code is any. *)

From Stdlib Require Import Ascii.
From S2P Require Import Prelude GoLib Errors Postgres Sql DeployModel Rows Outside Password BuildModel Detect.

(** ** Configuration (platform/config: Builder, ECRConfig, BuildCacheConfig) *)

Record ECRConfig := { ecr_Enabled : bool; ecr_Region : string; ecr_Registry : string; RepositoryPrefix : string }.
Record BuildCacheConfig := { cache_Enabled : bool; RegistryRef : string; InlineCache : bool }.
Record BuilderConfig := {
  WorkspaceDir : string; BuildKitAddr : string; DockerCLI : string; ECR : ECRConfig;
  Cache : BuildCacheConfig; TagLatest : bool; BuilderVersion : string;
}.

(** ** Cache statistics (cache/stats.go) *)

(** [atomic.Int32] wraps around. *)
Definition wrap32 (z : Z) : Z := (z + 2 ^ 31) mod 2 ^ 32 - 2 ^ 31.

Record CacheStats := { hitLayers : Z; totalLayers : Z }.

Definition no_stats : CacheStats := {| hitLayers := 0; totalLayers := 0 |}.

Definition RecordLine (s : CacheStats) (line : string) : CacheStats :=
  let lower := ToLower line in
  if Contains lower "cached" || Contains lower "cache hit" then
    {| hitLayers := wrap32 (hitLayers s + 1); totalLayers := wrap32 (totalLayers s + 1) |}
  else if Contains lower "exporting layer" || Contains lower "sha256:" then
    {| hitLayers := hitLayers s; totalLayers := wrap32 (totalLayers s + 1) |}
  else s.

Definition Merge (s other : CacheStats) : CacheStats :=
  {| hitLayers := wrap32 (hitLayers s + hitLayers other);
     totalLayers := wrap32 (totalLayers s + totalLayers other) |}.

Definition HitRatio (s : CacheStats) : f64 :=
  if totalLayers s =? 0 then f64_of_Z 0 else fdiv (f64_of_Z (hitLayers s)) (f64_of_Z (totalLayers s)).

(** ** Names of repositories and images (ecr/client.go) *)

Definition repo_byte (a : ascii) : bool :=
  code_in 97 122 a || code_in 48 57 a || bool_decide (a ∈ ["-"; "_"; "/"]%char).

Fixpoint sanitize_loop (s : string) : string :=
  match s with
  | EmptyString => EmptyString
  | String a s =>
      if repo_byte a then String a (sanitize_loop s)
      else if bool_decide (a = " "%char) then String "-" (sanitize_loop s)
      else sanitize_loop s
  end.

Definition sanitizeRepoName (s : string) : string := sanitize_loop (ToLower s).

Definition shorten (id : string) : string := if (String.length id <=? 8)%nat then id else take_bytes 8 id.

Definition BuildTags (commitSHA deploymentID branch : string) (tagLatest : bool) : list string :=
  let tags := (if commitSHA =s? "" then [] else [take_bytes 12 commitSHA])
    ++ (if deploymentID =s? "" then [] else ["dep-" +:+ shorten deploymentID])
    ++ (if branch =s? "" then [] else ["branch-" +:+ sanitizeRepoName branch])
    ++ (if tagLatest then ["latest"] else []) in
  match tags with [] => ["latest"] | _ => tags end.

Definition region (cfg : ECRConfig) : string := if ecr_Region cfg =s? "" then "us-east-1" else ecr_Region cfg.

Definition registry (cfg : ECRConfig) : string :=
  if ecr_Registry cfg =s? "" then "000000000000.dkr.ecr." +:+ region cfg +:+ ".amazonaws.com"
  else ecr_Registry cfg.

Definition RepositoryName (cfg : ECRConfig) (orgID projectSlug : string) : string :=
  let prefix := if RepositoryPrefix cfg =s? "" then "agnivo" else RepositoryPrefix cfg in
  let slug := sanitizeRepoName projectSlug in
  prefix +:+ "/" +:+ shorten orgID +:+ "/" +:+ (if slug =s? "" then "app" else slug).

Definition FullImageRef (cfg : ECRConfig) (repository tag : string) : string :=
  registry cfg +:+ "/" +:+ repository +:+ ":" +:+ tag.

(** [sanitize] of command output. *)
Definition shortened (s : string) : string :=
  if (500 <? String.length s)%nat then take_bytes 500 s +:+ "..." else s.

(** [CacheRefs] (buildkit/builder.go) *)
Definition CacheRefs (cfg : BuilderConfig) (repository : string) : list string * list string :=
  if negb (cache_Enabled (Cache cfg)) then ([], [])
  else
    let ref := RegistryRef (Cache cfg) in
    let ref := if (ref =s? "") && ecr_Enabled (ECR cfg) && negb (ecr_Registry (ECR cfg) =s? "")
               then ecr_Registry (ECR cfg) +:+ "/" +:+ repository +:+ ":buildcache" else ref in
    if ref =s? "" then ([], [])
    else ([ref], [ref +:+ ",mode=max" +:+ (if InlineCache (Cache cfg) then ",inline=true" else "")]).

(** ** Credentials and clone URLs (git/manager.go) *)

Record Credentials := {
  cr_Provider : string; cr_CloneURL : string; cr_Branch : string; cr_CommitSHA : string;
  cr_AccessToken : string; cr_DeployKey : string; cr_IsPrivate : bool;
}.

Record CloneResult := { cl_WorkspaceDir : string; cl_CommitSHA : string; cl_Branch : string; cl_Duration : Duration }.

Definition decrypt_blob `{Aead} (blob aad : string) : result error string :=
  if blob =s? "" then Ok "" else Decrypt blob aad.

Definition DecryptCredentials `{Aead} (orgID projectID : string) (repo : GitRepository)
    : result error Credentials :=
  let aad := AAD orgID projectID in
  token <-! decrypt_blob (GitRepository.AccessTokenEnc repo) aad ;;
  key <-! decrypt_blob (GitRepository.DeployKeyEnc repo) aad ;;
  Ok {| cr_Provider := GitRepository.Provider repo;
        cr_CloneURL := if GitRepository.CloneURL repo =s? "" then GitRepository.RepoURL repo
                       else GitRepository.CloneURL repo;
        cr_Branch := GitRepository.DefaultBranch repo; cr_CommitSHA := ""; cr_AccessToken := token;
        cr_DeployKey := key; cr_IsPrivate := GitRepository.IsPrivate repo |}.

Definition ResolveCloneURL (repo : GitRepository) : string :=
  if negb (GitRepository.CloneURL repo =s? "") then GitRepository.CloneURL repo else GitRepository.RepoURL repo.

Definition injectToken (cloneURL provider token : string) : string :=
  if (token =s? "") || Contains cloneURL "@" then cloneURL
  else if negb (HasPrefix cloneURL "https://") then cloneURL
  else
    let rest := TrimPrefix cloneURL "https://" in
    if provider =s? ProviderGitHub then "https://x-access-token:" +:+ token +:+ "@" +:+ rest
    else if provider =s? ProviderGitLab then "https://oauth2:" +:+ token +:+ "@" +:+ rest
    else if provider =s? ProviderBitbucket then "https://x-token-auth:" +:+ token +:+ "@" +:+ rest
    else "https://" +:+ token +:+ "@" +:+ rest.

(** [filepath.Clean] of a path that is clean or empty. *)
Definition Clean (path : string) : string := if path =s? "" then "." else path.

Section tools.
Context {W : Type} `{BW : BuildWorld W}.
Context (cfg : BuilderConfig).

Definition docker : string := if DockerCLI cfg =s? "" then "docker" else DockerCLI cfg.

(** ** Programs and temporary files *)

Definition run (c : option ctx) (env : list string) (stdin : string) (argv : list string)
    : db (builddb W) (string * option error) :=
  request_to (run_program c env stdin argv) (λ r, [CRun argv (succeeded r.2)]).

(** Its output, or its error. *)
Definition output (c : option ctx) (env : list string) (argv : list string) : db (builddb W) string :=
  r ← run c env "" argv;
  match r.2 with Some e => fail e | None => mret r.1 end.

Definition new_temp (pattern : string) : db (builddb W) string :=
  r ← request_to (create_temp pattern) (λ r, match r with Ok path => [CCreateTemp path] | Err _ => [] end);
  of_result r.

Definition fill_temp (path data : string) : db (builddb W) unit :=
  request_error (write_temp path data) (λ ok, [CWrite path data ok]).

Definition remove_path (path : string) : db (builddb W) unit :=
  request_to (λ w, (tt, remove_file path w)) (λ _, [CRemove path]).

Fixpoint remove_paths (paths : list string) : db (builddb W) unit :=
  match paths with
  | [] => mret tt
  | path :: paths => _ ← remove_path path; remove_paths paths
  end.

(** [defer f()] around the rest of a function. *)
Definition finally {A} (f : db (builddb W) unit) (rest : db (builddb W) A) : db (builddb W) A :=
  r ← attempt rest; _ ← ignore f; of_result r.

(** ** Checkout (git/manager.go) *)

Definition runGit (c : ctx) (env args : list string) : db (builddb W) unit :=
  _ ← output (Some c) env ("git" :: args); mret tt.

Definition writeTempKey (pem : string) : db (builddb W) string :=
  f ← on_error (wrap_with CodeInternal "git: temp key") (new_temp "agnivo-deploy-key-*");
  let or_remove {A} (m : db (builddb W) A) : db (builddb W) A :=
    r ← attempt m;
    match r with Ok a => mret a | Err e => _ ← remove_path f; fail e end in
  _ ← or_remove (fill_temp f pem);
  _ ← or_remove (request_error (make_private f) (λ _, []));
  mret f.

(** The deploy key is written for the time of the checkout. *)
Definition with_key {A} (key : string) (checkout : list string → db (builddb W) A) : db (builddb W) A :=
  if key =s? "" then checkout []
  else
    f ← writeTempKey key;
    finally (remove_path f)
      (checkout ["GIT_SSH_COMMAND=ssh -i " +:+ f
                 +:+ " -o StrictHostKeyChecking=no -o UserKnownHostsFile=/dev/null"]).

(** The output of a command of the workspace, or the empty text. *)
Definition ask_git (c : ctx) (dir : string) (args : list string) : db (builddb W) string :=
  r ← attempt (output (Some c) [] (["git"; "-C"; dir] ++ args));
  mret match r with Ok out => TrimSpace out | Err _ => "" end.

Definition checkout_commit (c : ctx) (env : list string) (dir sha : string) : db (builddb W) unit :=
  _ ← attempt (runGit c env ["-C"; dir; "fetch"; "origin"; sha]);
  on_error (wrap_with CodeFailedPrecond "git: checkout commit failed")
    (runGit c env ["-C"; dir; "checkout"; sha]).

Definition checkout (c : ctx) (creds : Credentials) (dir : string) (start : Time) (ssh : list string)
    : db (builddb W) CloneResult :=
  let env := "GIT_TERMINAL_PROMPT=0" :: ssh in
  let url := injectToken (cr_CloneURL creds) (cr_Provider creds) (cr_AccessToken creds) in
  let branch_args := if cr_Branch creds =s? "" then [] else ["--branch"; cr_Branch creds] in
  _ ← on_error (wrap_with CodeFailedPrecond "git: clone failed")
        (runGit c env (["clone"; "--depth=1"; "--single-branch"] ++ branch_args ++ [url; dir]));
  sha ← (if cr_CommitSHA creds =s? "" then ask_git c dir ["rev-parse"; "HEAD"]
         else _ ← checkout_commit c env dir (cr_CommitSHA creds); mret (cr_CommitSHA creds));
  branch ← (if cr_Branch creds =s? "" then ask_git c dir ["rev-parse"; "--abbrev-ref"; "HEAD"]
            else mret (cr_Branch creds));
  now ← read_time;
  mret {| cl_WorkspaceDir := dir; cl_CommitSHA := sha; cl_Branch := branch; cl_Duration := now - start |}.

Definition Clone (c : ctx) (creds : Credentials) (deploymentID : string) : db (builddb W) CloneResult :=
  start ← read_time;
  let dir := Join (WorkspaceDir cfg) deploymentID in
  _ ← on_error (wrap_with CodeInternal "git: cleanup workspace")
        (request_error (remove_all dir) (λ ok, [CRemoveAll dir ok]));
  _ ← on_error (wrap_with CodeInternal "git: create workspace")
        (request_error (make_dir dir) (λ ok, [CMakeDir dir ok]));
  with_key (cr_DeployKey creds) (checkout c creds dir start).

Definition Cleanup (dir : string) : db (builddb W) unit :=
  if (dir =s? "") || negb (HasPrefix (Clean dir) (Clean (WorkspaceDir cfg))) then mret tt
  else request_error (remove_all dir) (λ ok, [CRemoveAll dir ok]).

(** ** Building (buildkit/builder.go) *)

Record BuildOptions := {
  ContextDir : string; Dockerfile : string; Tags : list string; BuildArgs : gmap string string;
  Secrets : gmap string string; CacheFrom : list string; CacheTo : list string; Platform : string; PushIt : bool;
}.

Record ImageResult := {
  img_Digest : string; img_Tags : list string; img_Duration : Duration; img_Stats : CacheStats;
  img_Warnings : list string;
}.

Definition or_default (s default : string) : string := if s =s? "" then default else s.

Definition each (flag : string) (l : list string) : list string := flat_map (λ x, [flag; x]) l.

(** The command line, given the files of the secrets. *)
Definition build_argv (opts : BuildOptions) (secretDir : list (string * string)) : list string :=
  [docker; "buildx"; "build"; "--progress=plain"; "--platform"; or_default (Platform opts) "linux/amd64"]
  ++ each "-t" (Tags opts)
  ++ ["-f"; or_default (Dockerfile opts) "Dockerfile"; ContextDir opts]
  ++ each "--build-arg" ((λ kv, kv.1 +:+ "=" +:+ kv.2) <$> map_to_list (BuildArgs opts))
  ++ each "--secret" ((λ p, "id=" +:+ p.1 +:+ ",src=" +:+ p.2) <$> secretDir)
  ++ (if cache_Enabled (Cache cfg) then
        each "--cache-from" (CacheFrom opts) ++ each "--cache-to" (CacheTo opts)
        ++ (if InlineCache (Cache cfg) then ["--build-arg"; "BUILDKIT_INLINE_CACHE=1"] else [])
      else [])
  ++ [if PushIt opts then "--push" else "--load"].

(** A failure to create a file removes the earlier ones; one to write does not. *)
Fixpoint write_secrets (secrets : list (string * string)) (files : list string)
    : db (builddb W) (list (string * string)) :=
  match secrets with
  | [] => mret []
  | (id, val) :: secrets =>
      f ← attempt (new_temp "agnivo-build-secret-*");
      match f with
      | Err e => _ ← remove_paths files; fail e
      | Ok f =>
          _ ← fill_temp f val;
          _ ← ignore (request_error (make_private f) (λ _, []));
          rest ← write_secrets secrets (files ++ [f]);
          mret ((id, f) :: rest)
      end
  end.

(** The readers of the output; [progress] is [ProgressFunc]. *)
Fixpoint scan_lines (progress : string → string → db (builddb W) unit) (lines : list string)
    (stats : CacheStats) (warnings : list string) : db (builddb W) (CacheStats * list string) :=
  match lines with
  | [] => mret (stats, warnings)
  | line :: lines =>
      _ ← progress "build" line;
      scan_lines progress lines (RecordLine stats line)
        (if Contains (ToLower line) "warning" then warnings ++ [line] else warnings)
  end.

Definition inspectDigest (c : ctx) (tag : string) : db (builddb W) string :=
  r ← attempt (output (Some c) [] [docker; "inspect"; "--format={{index .RepoDigests 0}}"; tag]);
  out ← match r with
        | Ok out => mret out
        | Err _ => output (Some c) [] [docker; "inspect"; "--format={{.Id}}"; tag]
        end;
  mret match Split (TrimSpace out) "@"%char with
       | [_; digest] => digest
       | _ => TrimSpace out
       end.

Definition stream_ok (a : stream_answer) : bool :=
  match a with Finished _ e => succeeded e | _ => false end.

(** The code reads the two streams in goroutines of their own, which it does not
    wait for.  Here the lines the readers got are processed one after another,
    before the exit status is looked at: progress that is reported while, or
    after, the rest of the build goes on, and lines lost because both readers
    append to the warnings at once, are not modelled. *)
Definition run_build (c : ctx) (opts : BuildOptions) (progress : string → string → db (builddb W) unit)
    (start : Time) (secretDir : list (string * string)) : db (builddb W) ImageResult :=
  let argv := build_argv opts secretDir in
  let env := "DOCKER_BUILDKIT=1" :: (if BuildKitAddr cfg =s? "" then [] else ["BUILDKIT_HOST=" +:+ BuildKitAddr cfg]) in
  a ← request_to (stream_program c env argv) (λ a, [CStream argv (stream_ok a)]);
  match a with
  | NoStdout e => fail (wrap_with CodeInternal "buildkit: stdout pipe" e)
  | NoStderr e => fail (wrap_with CodeInternal "buildkit: stderr pipe" e)
  | NotStarted e => fail (wrap_with CodeFailedPrecond "buildkit: start build" e)
  | Finished lines e =>
      scanned ← scan_lines progress lines no_stats [];
      match e with
      | Some e => fail (wrap_with CodeFailedPrecond "buildkit: build failed" e)
      | None =>
          digest ← match Tags opts with
                   | [] => mret ""
                   | tag :: _ => r ← attempt (inspectDigest c tag); mret match r with Ok d => d | Err _ => "" end
                   end;
          now ← read_time;
          mret {| img_Digest := digest; img_Tags := Tags opts; img_Duration := now - start;
                  img_Stats := scanned.1; img_Warnings := scanned.2 |}
      end
  end.

Definition BuildImage (c : ctx) (opts : BuildOptions) (progress : string → string → db (builddb W) unit)
    : db (builddb W) ImageResult :=
  start ← read_time;
  secretDir ← write_secrets (map_to_list (Secrets opts)) [];
  finally (remove_paths secretDir.*2) (run_build c opts progress start secretDir).

(** ** The registry (ecr/client.go) *)

Record PushOptions := { LocalTag : string; RemoteTags : list string; PushRepository : string }.
Record PushResult := {
  push_Digest : string; push_Repository : string; push_Tags : list string; push_Duration : Duration;
  push_Registry : string;
}.

Definition EnsureRepository (c : ctx) (repository : string) : db (builddb W) unit :=
  if negb (ecr_Enabled (ECR cfg)) then mret tt
  else
    r ← run (Some c) [] "" ["aws"; "ecr"; "describe-repositories"; "--repository-names"; repository;
                             "--region"; region (ECR cfg)];
    match r.2 with
    | None => mret tt
    | Some _ =>
        _ ← on_error (wrap_with CodeFailedPrecond "ecr: create repository")
              (output (Some c) [] ["aws"; "ecr"; "create-repository"; "--repository-name"; repository;
                 "--image-scanning-configuration"; "scanOnPush=true";
                 "--encryption-configuration"; "encryptionType=AES256"; "--region"; region (ECR cfg)]);
        mret tt
    end.

Definition Login (c : ctx) : db (builddb W) unit :=
  if negb (ecr_Enabled (ECR cfg)) then mret tt
  else
    pass ← on_error (wrap_with CodeUnauthenticated "ecr: get login password")
             (output (Some c) [] ["aws"; "ecr"; "get-login-password"; "--region"; region (ECR cfg)]);
    r ← run (Some c) [] (TrimSpace pass)
          [docker; "login"; "--username"; "AWS"; "--password-stdin"; registry (ECR cfg)];
    match r.2 with
    | Some e => fail (wrap_with CodeUnauthenticated ("ecr: docker login: " +:+ shortened r.1) e)
    | None => mret tt
    end.

Fixpoint push_tags (c : ctx) (localTag repository : string) (tags : list string) : db (builddb W) unit :=
  match tags with
  | [] => mret tt
  | tag :: tags =>
      let remote := FullImageRef (ECR cfg) repository tag in
      _ ← on_error (wrap_with CodeFailedPrecond "ecr: tag image")
            (output (Some c) [] [docker; "tag"; localTag; remote]);
      r ← run (Some c) [] "" [docker; "push"; remote];
      match r.2 with
      | Some e => fail (wrap_with CodeFailedPrecond ("ecr: push: " +:+ shortened r.1) e)
      | None => push_tags c localTag repository tags
      end
  end.

(** The digest of the first tag, when the daemon knows one. *)
Definition pushed_digest (c : ctx) (repository : string) (tags : list string) : db (builddb W) string :=
  match tags with
  | [] => mret ""
  | tag :: _ =>
      r ← run (Some c) [] "" [docker; "inspect"; "--format={{index .RepoDigests 0}}";
                              FullImageRef (ECR cfg) repository tag];
      mret match r.2, Split (TrimSpace r.1) "@"%char with
           | None, [_; digest] => digest
           | _, _ => ""
           end
  end.

Definition Push (c : ctx) (opts : PushOptions) : db (builddb W) PushResult :=
  start ← read_time;
  if negb (ecr_Enabled (ECR cfg)) then
    now ← read_time;
    mret {| push_Digest := LocalTag opts; push_Repository := PushRepository opts; push_Tags := RemoteTags opts;
            push_Duration := now - start; push_Registry := "local" |}
  else
    _ ← Login c;
    _ ← EnsureRepository c (PushRepository opts);
    _ ← push_tags c (LocalTag opts) (PushRepository opts) (RemoteTags opts);
    digest ← pushed_digest c (PushRepository opts) (RemoteTags opts);
    now ← read_time;
    mret {| push_Digest := digest; push_Repository := PushRepository opts; push_Tags := RemoteTags opts;
            push_Duration := now - start; push_Registry := registry (ECR cfg) |}.

Definition ImageExists (c : ctx) (repository tag : string) : db (builddb W) bool :=
  if negb (ecr_Enabled (ECR cfg)) then mret false
  else
    r ← run (Some c) [] "" ["aws"; "ecr"; "describe-images"; "--repository-name"; repository;
                            "--image-ids"; "imageTag=" +:+ tag; "--region"; region (ECR cfg)];
    mret (succeeded r.2).

(** ** Bills of materials (sbom/generator.go) *)

Context `{J : Jsonb}.

Definition sbom_Generate (imageTag : string) : db (builddb W) string :=
  r ← run None [] "" ["syft"; imageTag; "-o"; "json"];
  match r.2 with
  | None => mret r.1
  | Some _ =>
      r ← run None [] "" ["docker"; "sbom"; imageTag];
      match r.2 with
      | None => mret r.1
      | Some _ => mret (json_object [("spdxVersion", VString "SPDX-2.3"); ("dataLicense", VString "CC0-1.0");
                                     ("name", VString imageTag); ("packages", VRaw "[]")])
      end
  end.

Definition SigningHook (imageRef digest : string) : string :=
  json_object [("signing", VString "cosign"); ("image_ref", VString imageRef); ("digest", VString digest);
               ("status", VString "pending")].
End tools.
