(* ===== verification/BuildPipeline.v ===== *)
(** * The build pipeline (packages/application/build/executor, worker, cancel)

    [Run] is the handler of build.run in the order of the code; a [defer] is
    [finally] around the rest.  Metrics and process logs are not modelled, and
    the repository of variables and the vault are taken to be present, as the
    module wires them. *)

From S2P Require Import Prelude GoLib Errors Postgres Sql DeployModel Rows Outside ControlPlane.
From S2P Require Import DeploymentRepo DeployStore Password BuildModel Detect BuildStore BuildTools.

Section pipeline.
Context {W : Type} `{BW : BuildWorld W} `{D : Driver} `{So : Sorter} `{J : Jsonb} `{Do : Documents} `{RM : RowMapping} `{Ae : Aead}.
Context (cfg : BuilderConfig) (workerID : string).

(** ** The cancellation registry (cancel/registry.go) *)

(** [Register] cancels the earlier context of the deployment, if any. *)
Definition Register (deploymentID : string) (c : ctx) : db (builddb W) unit := λ '(s, fs),
  let s := match cancels s !! deploymentID with
           | Some prev => set_world (close_context prev (world s)) s
           | None => s
           end in
  (Ok tt, (set_cancels (<[deploymentID := c]> (cancels s)) s, fs)).

Definition Unregister (deploymentID : string) : db (builddb W) unit := λ '(s, fs),
  (Ok tt, (set_cancels (delete deploymentID (cancels s)) s, fs)).

Definition CancelBuild (deploymentID : string) : db (builddb W) bool := λ '(s, fs),
  match cancels s !! deploymentID with
  | Some c => (Ok true, (set_world (close_context c (world s)) s, fs))
  | None => (Ok false, (s, fs))
  end.

Definition ActiveCount : db (builddb W) Z := λ '(s, fs), (Ok (Z.of_nat (size (cancels s))), (s, fs)).

(** ** Shared steps *)

(** A change of a deployment, with the identifier of its entry and the clock. *)
Definition changed {A} (m : string → Time → db (deploydb W) A) : db (builddb W) A :=
  ev ← fresh_uuid; now ← read_time; on_tables (m ev now).

Fixpoint firstNonEmpty (vals : list string) : string :=
  match vals with
  | [] => ""
  | v :: vals => if blank v then firstNonEmpty vals else v
  end.

Definition millis (d : Duration) : Z := Z.quot d Millisecond.

Definition meta_for (p : Payload) (buildID : string) : BuildMeta :=
  {| bm_BuildID := buildID; bm_DeploymentID := DeploymentID p; bm_OrgID := OrgID p; bm_ProjectID := ProjectID p;
     bm_CorrelationID := CorrelationID p |}.

Definition fail_build {A} (p : Payload) (buildID : string) (start : Time) (reason : string) : db (builddb W) A :=
  now ← read_time;
  let totalMs := millis (now - start) in
  _ ← ignore (changed (λ ev now, MarkBuildFailed ev (OrgID p) (DeploymentID p) reason totalMs now));
  _ ← ignore (BuildStore.MarkFailed buildID reason);
  _ ← ignore (BuildStore.Publish BuildFailed (meta_for p buildID));
  _ ← ignore (Error_ buildID (DeploymentID p) "error" reason);
  fail_with (New CodeFailedPrecond reason).

(** [if err := m; err != nil { return p.fail(.., reason(err)) }] *)
Definition or_fail_build {A} (p : Payload) (buildID : string) (start : Time) (reason : error → string)
    (m : db (builddb W) A) : db (builddb W) A :=
  r ← attempt m;
  match r with Ok a => mret a | Err e => fail_build p buildID start (reason e) end.

(** Without a row the zero build is cancelled, which no statement finds. *)
Definition handle_cancel {A} (p : Payload) (msg : string) : db (builddb W) A :=
  got ← attempt (BuildStore.GetByDeployment (DeploymentID p));
  let buildID := match got with Ok b => Build.ID b | Err _ => "" end in
  _ ← ignore (BuildStore.MarkCancelled buildID);
  _ ← ignore (BuildStore.Publish BuildCancelled (meta_for p buildID));
  _ ← ignore (Warn buildID (DeploymentID p) "cancel" msg);
  fail_with (New CodeCanceled msg).

Definition check_cancel (c : ctx) (p : Payload) : db (builddb W) unit :=
  cancelled ← on_tables (IsCancelled (OrgID p) (DeploymentID p));
  done ← look (context_error c);
  if cancelled || negb (succeeded done) then handle_cancel p "build cancelled" else mret tt.

(** [_ = p.logs.Info(..)] *)
Definition note (p : Payload) (buildID stage msg : string) : db (builddb W) unit :=
  ignore (Info buildID (DeploymentID p) stage msg).

Definition emit (p : Payload) (buildID eventType : string) : db (builddb W) unit :=
  ignore (BuildStore.Publish eventType (meta_for p buildID)).

(** ** Variables *)

(** The arguments and the secrets of the build. *)
Definition add_variable (aad : string) (env : gmap string string * gmap string string) (v : Variable_)
    : gmap string string * gmap string string :=
  match Decrypt (Variable_.ValueEnc v) aad with
  | Err _ => env
  | Ok val => if Variable_.IsSecret v then (env.1, <[Variable_.Key v := val]> env.2)
              else (<[Variable_.Key v := val]> env.1, env.2)
  end.

Definition inline_cache : gmap string string := {[ "BUILDKIT_INLINE_CACHE" := "1" ]}.

Definition loadBuildEnv (orgID projectID environment : string)
    : db (builddb W) (gmap string string * gmap string string) :=
  vars ← ListVariables orgID projectID environment;
  mret (foldl (add_variable (AAD orgID projectID)) (inline_cache, ∅) vars).

(** ** The stages *)

Record admitted := { a_dep : Deployment; a_proj : Project; a_build : Build }.

Definition queued_build (p : Payload) (jobID : string) (dep : Deployment) : Build :=
  {| Build.ID := ""; Build.OrgID := OrgID p; Build.ProjectID := ProjectID p; Build.DeploymentID := DeploymentID p;
     Build.JobID := Some jobID; Build.Status := BuildModel.StatusQueued; Build.Framework := ""; Build.Runtime := "";
     Build.CommitSHA := Deployment.CommitSHA dep; Build.Branch := Deployment.Branch dep;
     Build.Environment := Deployment.Environment dep; Build.CorrelationID := CorrelationID p;
     Build.WorkerID := ""; Build.StartedAt := None; Build.FinishedAt := None; Build.FailureReason := "";
     Build.CancelledAt := None; Build.Metadata := None; Build.CreatedAt := 0; Build.UpdatedAt := 0 |}.

Definition admit_build (p : Payload) (jobID : string) : db (builddb W) admitted :=
  if DeploymentID p =s? "" then fail_with (New CodeInvalidArgument "build: missing deployment_id")
  else
    dep ← on_tables (DeploymentRepo.GetByID (OrgID p) (DeploymentID p));
    cancelled ← attempt (on_tables (IsCancelled (OrgID p) (DeploymentID p)));
    _ ← match cancelled with
        | Ok true => handle_cancel p "deployment already cancelled"
        | _ => mret tt
        end;
    proj ← on_tables (GetProject (OrgID p) (ProjectID p));
    b ← UpsertForDeployment (queued_build p jobID dep);
    mret {| a_dep := dep; a_proj := proj; a_build := b |}.

Definition begin_build (c : ctx) (p : Payload) (buildID : string) : db (builddb W) unit :=
  _ ← emit p buildID BuildQueued;
  _ ← changed (λ ev now, UpdateStatus ev (OrgID p) (DeploymentID p) StatusBuilding "build started" "" now);
  _ ← ignore (BuildStore.MarkRunning buildID workerID);
  _ ← emit p buildID BuildStarted;
  _ ← note p buildID "init" "build started";
  check_cancel c p.

Definition clone_stage (c : ctx) (p : Payload) (start : Time) (a : admitted) : db (builddb W) CloneResult :=
  let buildID := Build.ID (a_build a) in
  let or_fail {A} := or_fail_build (A := A) p buildID start in
  repo ← or_fail (λ e, "repository not connected: " +:+ ErrorString e) (GetWithCredentials (OrgID p) (ProjectID p));
  creds ← or_fail (λ _, "credential decryption failed")
            (of_result (DecryptCredentials (OrgID p) (ProjectID p) repo));
  let creds := {| cr_Provider := cr_Provider creds; cr_CloneURL := ResolveCloneURL repo;
                  cr_Branch := firstNonEmpty [Deployment.Branch (a_dep a); GitRepository.DefaultBranch repo;
                                              Project.Branch (a_proj a)];
                  cr_CommitSHA := Deployment.CommitSHA (a_dep a); cr_AccessToken := cr_AccessToken creds;
                  cr_DeployKey := cr_DeployKey creds; cr_IsPrivate := cr_IsPrivate creds |} in
  or_fail (λ e, "git clone failed: " +:+ ErrorString e) (Clone cfg c creds (DeploymentID p)).

(** The project's settings override what was detected. *)
Definition settled_framework (proj : Project) (fw : Framework) : Framework :=
  {| Framework.Name := if Project.Framework proj =s? "" then Framework.Name fw else Project.Framework proj;
     Framework.Runtime := if Project.DefaultRuntime proj =s? "" then Framework.Runtime fw
                          else Project.DefaultRuntime proj;
     Framework.Version := Framework.Version fw; Framework.Source := Framework.Source fw |}.

Definition dockerfile_stage (c : ctx) (p : Payload) (start : Time) (a : admitted) (cl : CloneResult)
    : db (builddb W) (Framework * GenerateResult) :=
  let buildID := Build.ID (a_build a) in
  _ ← emit p buildID RepositoryCloned;
  _ ← note p buildID "clone" ("cloned " +:+ cl_Branch cl +:+ "@" +:+ cl_CommitSHA cl);
  _ ← check_cancel c p;
  ws ← look (files_in (cl_WorkspaceDir cl));
  let fw := settled_framework (a_proj a) (Detect ws) in
  _ ← emit p buildID FrameworkDetected;
  _ ← note p buildID "detect" ("detected " +:+ Framework.Name fw +:+ " (" +:+ Framework.Runtime fw +:+ ")");
  df ← or_fail_build p buildID start (λ _, "dockerfile generation failed") (Generate (cl_WorkspaceDir cl) fw);
  _ ← (if gen_Generated df then
         _ ← emit p buildID DockerfileGenerated;
         note p buildID "dockerfile" "generated optimized Dockerfile"
       else note p buildID "dockerfile" "using custom Dockerfile");
  _ ← check_cancel c p;
  mret (fw, df).

Definition local_tag (p : Payload) : string := "agnivo-build:" +:+ DeploymentID p.

Definition repository_of (p : Payload) (proj : Project) : string :=
  RepositoryName (ECR cfg) (OrgID p) (Project.Slug proj).

Definition remote_tags (p : Payload) (cl : CloneResult) : list string :=
  BuildTags (cl_CommitSHA cl) (DeploymentID p) (cl_Branch cl) (TagLatest cfg).

Definition image_options (p : Payload) (proj : Project) (cl : CloneResult) (df : GenerateResult)
    (env : gmap string string * gmap string string) : BuildOptions :=
  let repository := repository_of p proj in
  let caches := CacheRefs cfg repository in
  {| ContextDir := cl_WorkspaceDir cl; Dockerfile := gen_Path df;
     Tags := local_tag p :: (FullImageRef (ECR cfg) repository <$> remote_tags p cl);
     BuildArgs := env.1; Secrets := env.2; CacheFrom := caches.1; CacheTo := caches.2; Platform := "";
     PushIt := false |}.

Definition image_stage (c : ctx) (p : Payload) (start : Time) (a : admitted) (cl : CloneResult)
    (df : GenerateResult) : db (builddb W) ImageResult :=
  let buildID := Build.ID (a_build a) in
  env ← or_fail_build p buildID start (λ _, "load build environment failed")
          (loadBuildEnv (OrgID p) (ProjectID p) (Deployment.Environment (a_dep a)));
  img ← or_fail_build p buildID start (λ e, "docker build failed: " +:+ ErrorString e)
          (BuildImage cfg c (image_options p (a_proj a) cl df env)
             (λ stage line, ignore (Write buildID (DeploymentID p) stage LevelInfo line)));
  _ ← check_cancel c p;
  mret img.

Definition push_stage (c : ctx) (p : Payload) (start : Time) (a : admitted) (cl : CloneResult)
    : db (builddb W) PushResult :=
  or_fail_build p (Build.ID (a_build a)) start (λ e, "registry push failed: " +:+ ErrorString e)
    (Push cfg c {| LocalTag := local_tag p; RemoteTags := remote_tags p cl;
                   PushRepository := repository_of p (a_proj a) |}).

(** The name under which the deployer asks for the image. *)
Definition image_tag (p : Payload) (proj : Project) (cl : CloneResult) (pushed : PushResult) : string :=
  let tag := default "" (head (remote_tags p cl)) in
  if push_Registry pushed =s? "local" then tag else FullImageRef (ECR cfg) (repository_of p proj) tag.

Definition artifact_for (p : Payload) (a : admitted) (cl : CloneResult) (fw : Framework) (df : GenerateResult)
    (img : ImageResult) (pushed : PushResult) (digest tag sbom : string) (totalMs : Z) : BuildArtifact :=
  {| BuildArtifact.ID := ""; BuildArtifact.BuildID := Build.ID (a_build a);
     BuildArtifact.DeploymentID := DeploymentID p; BuildArtifact.OrgID := OrgID p;
     BuildArtifact.ProjectID := ProjectID p; BuildArtifact.ImageDigest := digest;
     BuildArtifact.ImageTag := tag; BuildArtifact.ImageSizeBytes := 0;
     BuildArtifact.Registry := push_Registry pushed; BuildArtifact.Repository := repository_of p (a_proj a);
     BuildArtifact.Framework := Framework.Name fw; BuildArtifact.Runtime := Framework.Runtime fw;
     BuildArtifact.DockerfileVersion := gen_Version df; BuildArtifact.BuilderVersion := BuilderVersion cfg;
     BuildArtifact.CommitSHA := cl_CommitSHA cl; BuildArtifact.Branch := cl_Branch cl;
     BuildArtifact.BuildDurationMs := totalMs; BuildArtifact.CloneDurationMs := millis (cl_Duration cl);
     BuildArtifact.DockerDurationMs := millis (img_Duration img);
     BuildArtifact.PushDurationMs := millis (push_Duration pushed);
     BuildArtifact.CacheHitRatio := HitRatio (img_Stats img);
     BuildArtifact.CacheLayersHit := hitLayers (img_Stats img);
     BuildArtifact.CacheLayersTotal := totalLayers (img_Stats img);
     BuildArtifact.Warnings := Some (json_list (img_Warnings img)); BuildArtifact.SBOM := Some sbom;
     BuildArtifact.Metadata := Some (json_object [("signing", VRaw (SigningHook tag digest))]);
     BuildArtifact.CreatedAt := 0 |}.

Definition build_result (fw : Framework) (tag digest : string) (totalMs : Z) : BuildResult :=
  {| built_ImageTag := tag; built_ImageDigest := digest; built_Runtime := Framework.Runtime fw;
     built_Framework := Framework.Name fw; built_DurationMs := totalMs;
     built_Metadata := Some (json_object [("framework", VString (Framework.Name fw));
                                          ("image_digest", VString digest);
                                          ("builder_version", VString (BuilderVersion cfg))]) |}.

Definition complete_build (p : Payload) (start : Time) (a : admitted) (cl : CloneResult) (fw : Framework)
    (df : GenerateResult) (img : ImageResult) (pushed : PushResult) : db (builddb W) unit :=
  let buildID := Build.ID (a_build a) in
  let digest := firstNonEmpty [push_Digest pushed; img_Digest img] in
  let tag := image_tag p (a_proj a) cl pushed in
  _ ← emit p buildID ImagePushed;
  _ ← note p buildID "push" ("pushed " +:+ tag);
  sbom ← sbom_Generate (local_tag p);
  now ← read_time;
  let totalMs := millis (now - start) in
  _ ← or_fail_build p buildID start (λ _, "artifact persistence failed")
        (Save (artifact_for p a cl fw df img pushed digest tag sbom totalMs));
  _ ← changed (λ ev now, UpdateBuildComplete ev (OrgID p) (DeploymentID p) (build_result fw tag digest totalMs) now);
  _ ← ignore (BuildStore.MarkSucceeded buildID (Framework.Name fw) (Framework.Runtime fw));
  _ ← emit p buildID BuildSucceeded;
  note p buildID "complete" "build succeeded".

(** [Run] once the workspace is there. *)
Definition build_workspace (c : ctx) (p : Payload) (start : Time) (a : admitted) (cl : CloneResult)
    : db (builddb W) unit :=
  prepared ← dockerfile_stage c p start a cl;
  img ← image_stage c p start a cl prepared.2;
  pushed ← push_stage c p start a cl;
  complete_build p start a cl prepared.1 prepared.2 img pushed.

Definition run_job (c : ctx) (p : Payload) (jobID : string) (start : Time) : db (builddb W) unit :=
  a ← admit_build p jobID;
  _ ← begin_build c p (Build.ID (a_build a));
  cl ← clone_stage c p start a;
  finally (Cleanup cfg (cl_WorkspaceDir cl)) (build_workspace c p start a cl).

Definition Run (parent : ctx) (p : Payload) (jobID : string) : db (builddb W) unit :=
  start ← read_time;
  c ← request_to (open_context parent) (λ _, []);
  _ ← Register (DeploymentID p) c;
  finally (_ ← Unregister (DeploymentID p); request_to (λ w, (tt, close_context c w)) (λ _, []))
    (run_job c p jobID start).

(** ** The worker (worker/handler.go) *)

(** [decode] is [json.Unmarshal] of a payload. *)
Definition HandleBuild (decode : string → result error Payload) (parent : ctx) (payload jobID : string)
    : db (builddb W) unit :=
  p ← on_error (wrap_with CodeInvalidArgument "build worker: decode payload") (of_result (decode payload));
  Run parent p jobID.
End pipeline.
