(* ===== verification/BuildFacts.v ===== *)
(** * Facts about the builder's parts

    Log redaction, image tags, framework detection and Dockerfiles, the
    variables of a build. *)

From Stdlib Require Import Ascii.
From S2P Require Import Prelude GoLib Errors Postgres Sql DeployModel Rows Outside.
From S2P Require Import Password BuildModel Detect BuildStore BuildTools BuildPipeline.

(** ** Redaction *)

(** [sub] stands at byte [m] of [s]. *)
Definition occurs (sub s : string) (m : nat) : bool := is_prefix sub (drop_bytes m s).

(** No occurrence of [p] starts strictly inside one of [q]. *)
Definition disjoint_from (p q : string) : bool :=
  forallb (λ k, negb (is_prefix (drop_bytes (S k) q) p) && negb (is_prefix p (drop_bytes (S k) q)))
    (seq 0 (String.length q - 1)).

Definition mark : string := "[REDACTED]".

Lemma drop_bytes_app_lt m u v : (m ≤ String.length u)%nat → drop_bytes m (u +:+ v) = drop_bytes m u +:+ v.
Proof.
  revert m. induction u as [|a u IH]; intros [|m] H; try done; cbn in H.
  - lia.
  - apply (IH m). lia.
Qed.

Lemma length_drop m s : String.length (drop_bytes m s) = (String.length s - m)%nat.
Proof. revert s. induction m as [|m IH]; intros [|a s]; cbn; try lia. apply IH. Qed.

Lemma length_take m s : String.length (take_bytes m s) = (m `min` String.length s)%nat.
Proof. revert s. induction m as [|m IH]; intros [|a s]; cbn; try lia. by rewrite IH. Qed.

(** A prefix of a concatenation lies in the first part or covers it. *)
Lemma is_prefix_app q u v :
  is_prefix q (u +:+ v) = true →
  is_prefix q u = true
  ∨ (String.length u < String.length q)%nat ∧ is_prefix u q = true
    ∧ is_prefix (drop_bytes (String.length u) q) v = true.
Proof.
  revert u. induction q as [|a q IH]; intros u; [by left|].
  destruct u as [|b u]; [intros H; right; split; [cbn; lia|done]|].
  change (String b u +:+ v) with (String b (u +:+ v)). cbn.
  destruct (ascii_dec a b) as [->|]; [|done]. intros H.
  destruct (IH u H) as [?|(? & ? & ?)]; [by left|right].
  destruct (ascii_dec b b); [|done]. split_and!; [lia|done|done].
Qed.

Lemma is_prefix_weaken q u v : is_prefix q u = true → is_prefix q (u +:+ v) = true.
Proof. intros [r ->]%prefix_spec. apply prefix_spec. exists (r +:+ v). by rewrite app_assoc_s. Qed.

(** Before an occurrence of [p], what follows [p] does not matter for [q]. *)
Lemma occurs_before p q u r m :
  disjoint_from p q = true → (m < String.length u)%nat →
  occurs q (u +:+ p +:+ r) m = is_prefix q (drop_bytes m u).
Proof.
  intros Hd Hm. unfold occurs. rewrite drop_bytes_app_lt by lia.
  destruct (is_prefix q (drop_bytes m u)) eqn:E; [by apply is_prefix_weaken|].
  apply not_true_iff_false. intros [H|(Hl & _ & H)]%is_prefix_app; [congruence|].
  rewrite length_drop in Hl, H. set (k := (String.length u - m)%nat) in *.
  unfold disjoint_from in Hd. rewrite forallb_forall in Hd.
  specialize (Hd (k - 1)%nat). replace (S (k - 1)) with k in Hd by lia.
  assert (In (k - 1)%nat (seq 0 (String.length q - 1))) as Hin by (apply in_seq; lia).
  apply Hd in Hin as [H1 H2]%andb_true_iff. rewrite negb_true_iff in H1, H2.
  apply is_prefix_app in H as [H|(_ & H & _)]; congruence.
Qed.

(** What redaction has done for the patterns [ps]: nothing, or it has cut at the
    first place where one of them stands. *)
Definition cut_at (msg : string) (ps : list string) (out : string) : Prop :=
  (out = msg ∧ ∀ q, q ∈ ps → index msg q = None)
  ∨ ∃ p n, p ∈ ps ∧ index msg p = Some n ∧ out = take_bytes n msg +:+ p +:+ mark
      ∧ ∀ q m, q ∈ ps → index msg q = Some m → (n ≤ m)%nat.

(** Patterns none of which stands inside another or in what replaces it. *)
Definition separate (p q : string) : bool :=
  disjoint_from p q && match index (p +:+ mark) q with None => true | Some _ => false end.

Lemma index_occurs s q m :
  index s q = Some m ↔ (m ≤ String.length s)%nat ∧ occurs q s m = true ∧ ∀ k, (k < m)%nat → occurs q s k = false.
Proof.
  rewrite index_spec. unfold occurs. split.
  - intros ([r Hr] & Hm & Hk). split_and!; [done| |done]. apply prefix_spec. exists r.
    rewrite <- (take_drop_bytes m s) in Hr at 1. revert Hr. generalize (drop_bytes m s), (q +:+ r).
    induction (take_bytes m s) as [|a u IH]; intros x y; [done|].
    change (String a u +:+ x) with (String a (u +:+ x)). change (String a u +:+ y) with (String a (u +:+ y)).
    intros [= H]. by apply IH.
  - intros (Hm & [r Hr]%prefix_spec & Hk). split_and!; [|done|done]. exists r.
    by rewrite <- Hr, take_drop_bytes.
Qed.

Lemma index_none_occurs s q : index s q = None ↔ ∀ m, (m ≤ String.length s)%nat → occurs q s m = false.
Proof. apply index_none. Qed.

Lemma take_bytes_app_le m u v : (m ≤ String.length u)%nat → take_bytes m (u +:+ v) = take_bytes m u.
Proof.
  revert m. induction u as [|a u IH]; intros [|m] H; try done; cbn in H; [lia|].
  change (String a u +:+ v) with (String a (u +:+ v)). cbn. f_equal. apply IH. lia.
Qed.

Lemma drop_bytes_app_ge m u v : (String.length u ≤ m)%nat → drop_bytes m (u +:+ v) = drop_bytes (m - String.length u) v.
Proof.
  revert m. induction u as [|a u IH]; intros m H; [by rewrite Nat.sub_0_r|].
  destruct m as [|m]; [cbn in H; lia|]. apply IH. cbn in H. lia.
Qed.

Lemma redact_step msg ps out q :
  (∀ p, p ∈ ps → separate p q = true) → cut_at msg ps out → cut_at msg (ps ++ [q]) (redact out q).
Proof.
  intros Hsep [[-> Hps]|(p & n & Hp & Hn & -> & Hmin)]; unfold redact.
  { destruct (index msg q) as [n|] eqn:E.
    - right. exists q, n. split_and!; [set_solver|done|done|].
      intros q' m [Hq| ->%list_elem_of_singleton]%elem_of_app Hm; [by rewrite Hps in Hm|]. naive_solver lia.
    - left. split; [done|]. intros q' [Hq| ->%list_elem_of_singleton]%elem_of_app; auto. }
  destruct (proj1 (andb_true_iff _ _) (Hsep p Hp)) as [Hd Hnone].
  apply index_spec in Hn as Hn'. destruct Hn' as ([r Hr] & Hlen & _).
  set (u := take_bytes n msg) in *.
  assert (String.length u = n) as Hu by (unfold u; rewrite length_take; lia).
  assert (∀ m, (m < n)%nat → occurs q msg m = occurs q (u +:+ p +:+ mark) m) as Hocc.
  { intros m Hm. rewrite Hr, !occurs_before by (done || lia). done. }
  assert (∀ m, index (u +:+ p +:+ mark) q = Some m → (m < n)%nat) as Hlt.
  { intros m (Hm & Ho & _)%index_occurs. apply Nat.nle_gt. intros Hge.
    destruct (index (p +:+ mark) q) eqn:E; [done|]. rewrite index_none_occurs in E.
    unfold occurs in Ho. rewrite drop_bytes_app_ge in Ho by lia. rewrite length_app_s in Hm.
    specialize (E (m - String.length u)%nat ltac:(lia)). unfold occurs in E. congruence. }
  assert (∀ m, index msg q = Some m → (m < n)%nat → index (u +:+ p +:+ mark) q = Some m) as Hsame.
  { intros m (Hm & Ho & Hk)%index_occurs Hmn. apply index_occurs. split_and!; [rewrite length_app_s; lia| |].
    - by rewrite <- Hocc.
    - intros k Hkm. rewrite <- Hocc by lia. auto. }
  destruct (index (u +:+ p +:+ mark) q) as [m|] eqn:E; right.
  - pose proof (Hlt m eq_refl) as Hmn. exists q, m. apply index_occurs in E as (_ & Ho & Hk). split_and!.
    + set_solver.
    + apply index_occurs. split_and!; [lia|by rewrite Hocc|]. intros k Hkm. rewrite Hocc by lia. auto.
    + f_equal. rewrite take_bytes_app_le by lia. rewrite Hr, take_bytes_app_le by lia. done.
    + intros q' m' [Hq| ->%list_elem_of_singleton]%elem_of_app Hm'; [specialize (Hmin q' m' Hq Hm'); lia|].
      destruct (decide (m' < n)%nat); [|lia]. specialize (Hsame m' Hm' ltac:(lia)). by simplify_eq.
  - exists p, n. split_and!; [set_solver|done|done|].
    intros q' m' [Hq| ->%list_elem_of_singleton]%elem_of_app Hm'; [by apply (Hmin q')|].
    destruct (decide (m' < n)%nat); [|lia]. by specialize (Hsame m' Hm' ltac:(lia)).
Qed.

Lemma redact_all msg ps qs out :
  (∀ p q, p ∈ ps ++ qs → q ∈ ps ++ qs → p ≠ q → separate p q = true) → NoDup (ps ++ qs) →
  cut_at msg ps out → cut_at msg (ps ++ qs) (foldl redact out qs).
Proof.
  revert ps out. induction qs as [|q qs IH]; intros ps out Hsep Hnd Hcut; [by rewrite app_nil_r|].
  cbn [foldl]. replace (ps ++ q :: qs) with ((ps ++ [q]) ++ qs) in * by (by rewrite <- app_assoc).
  apply IH; [done..|]. apply redact_step; [|done].
  intros p Hp. apply Hsep; [set_solver|set_solver|]. intros ->.
  rewrite <- app_assoc in Hnd. apply NoDup_app in Hnd as (_ & Hnd & _). by apply (Hnd q Hp); left.
Qed.

(** Log lines carry nothing behind a credential.  A line in which none of the
    patterns stands is kept; any other is cut right behind the first place where
    one of them stands, and what followed is replaced by a mark. *)
Theorem sanitize_cuts msg : cut_at msg patterns (sanitize msg).
Proof.
  apply (redact_all msg [] patterns msg).
  - intros p q Hp Hq. cbn [app] in *. revert p q Hp Hq.
    assert (Forall (λ p, Forall (λ q, p ≠ q → separate p q = true) patterns) patterns) as H.
    { repeat (apply Forall_cons; split); try apply Forall_nil; try done; intros Hne; vm_compute; done. }
    intros p q Hp Hq. rewrite Forall_forall in H. specialize (H p Hp). rewrite Forall_forall in H. by apply H.
  - cbn [app]. unfold patterns. repeat (apply NoDup_cons; split; [set_solver|]). by apply NoDup_nil.
  - left. split; [done|]. by intros q ?%elem_of_nil.
Qed.

(** ** Image tags *)

(** The grammar of a tag of an image reference: a word byte, then at most 127
    word bytes, dots and dashes. *)
Definition word_byte (a : ascii) : bool :=
  code_in 97 122 a || code_in 65 90 a || code_in 48 57 a || bool_decide (a = "_"%char).
Definition tag_byte (a : ascii) : bool := word_byte a || bool_decide (a ∈ ["."; "-"]%char).

Definition valid_tag (t : string) : bool :=
  match t with
  | EmptyString => false
  | String a s => word_byte a && all_bytes tag_byte s && (String.length t <=? 128)%nat
  end.

Definition no_slash (s : string) : bool := all_bytes (λ a, bool_decide (a ≠ "/"%char)) s.

(** Two facts about single bytes, by trying all of them. *)
Definition all_ascii : list ascii := ascii_of_nat <$> seq 0 256.

Lemma by_bytes (P : ascii → bool) : forallb P all_ascii = true → ∀ a, P a = true.
Proof.
  rewrite forallb_forall. intros H a. apply H. unfold all_ascii. apply list_elem_of_In, list_elem_of_fmap.
  exists (nat_of_ascii a). split; [by rewrite ascii_nat_embedding|].
  apply elem_of_seq. pose proof (nat_ascii_bounded a). lia.
Qed.

Lemma repo_byte_tag a : implb (repo_byte a && bool_decide (a ≠ "/"%char)) (tag_byte a) = true.
Proof. revert a. by apply by_bytes. Qed.

Lemma slash_not_tag a : implb (tag_byte a) (bool_decide (a ≠ "/"%char)) = true.
Proof. revert a. by apply by_bytes. Qed.

Lemma lower_slash a : Bool.eqb (bool_decide (lower a ≠ "/"%char)) (bool_decide (a ≠ "/"%char)) = true.
Proof. revert a. by apply by_bytes. Qed.

Lemma sanitize_loop_bytes s : all_bytes repo_byte (sanitize_loop s) = true.
Proof.
  induction s as [|a s IH]; [done|]. cbn. destruct (repo_byte a) eqn:E; [cbn; by rewrite E|].
  case_match; [|done]. cbn. by rewrite IH.
Qed.

Lemma sanitize_loop_slash s : no_slash (sanitize_loop (ToLower s)) = no_slash s.
Proof.
  induction s as [|a s IH]; [done|]. cbn [ToLower sanitize_loop]. unfold no_slash in *.
  pose proof (Bool.eqb_prop _ _ (lower_slash a)) as Hl. cbn [all_bytes]. rewrite <- Hl.
  destruct (repo_byte (lower a)) eqn:E; [cbn [all_bytes]; by rewrite IH|].
  assert (bool_decide (lower a ≠ "/"%char) = true) as ->.
  { apply bool_decide_eq_true. intros H. by rewrite H in E. }
  case_match; cbn [all_bytes]; rewrite IH; done.
Qed.

Lemma length_sanitize s : (String.length (sanitize_loop (ToLower s)) ≤ String.length s)%nat.
Proof. induction s as [|a s IH]; [done|]. cbn. repeat case_match; cbn; lia. Qed.

Lemma no_slash_tag s : all_bytes repo_byte s = true → no_slash s = true → all_bytes tag_byte s = true.
Proof.
  induction s as [|a s IH]; [done|]. unfold no_slash in *. cbn.
  intros [Ha Hs]%andb_true_iff [Hn Hr]%andb_true_iff. rewrite IH by done.
  pose proof (repo_byte_tag a) as H. rewrite Ha, Hn in H. cbn in H. by rewrite H.
Qed.

Lemma tag_no_slash s : all_bytes tag_byte s = true → no_slash s = true.
Proof.
  apply all_bytes_weaken. intros a Ha. pose proof (slash_not_tag a) as H. by rewrite Ha in H.
Qed.

Lemma length_shorten id : (String.length (shorten id) ≤ 8)%nat.
Proof. unfold shorten. case_match eqn:E; [by apply Nat.leb_le in E|]. apply length_take_bytes. Qed.

Lemma shorten_bytes p id : all_bytes p id = true → all_bytes p (shorten id) = true.
Proof. intros H. unfold shorten. case_match; [done|]. by apply all_bytes_take. Qed.

(** A tag that starts with a literal. *)
Lemma valid_tag_app a p s :
  word_byte a = true → all_bytes tag_byte p = true → (String.length p + String.length s < 128)%nat →
  valid_tag (String a p +:+ s) = all_bytes tag_byte s.
Proof.
  intros Ha Hp Hl. change (String a p +:+ s) with (String a (p +:+ s)). cbn [valid_tag].
  rewrite Ha, all_bytes_app, Hp. cbn [andb String.length]. rewrite length_app_s.
  replace (S (String.length p + String.length s) <=? 128)%nat with true by (symmetry; apply Nat.leb_le; lia).
  by rewrite andb_true_r.
Qed.

Lemma sha_tag sha : sha ≠ "" → all_bytes word_byte sha = true → valid_tag (take_bytes 12 sha) = true.
Proof.
  intros Hne Hw. destruct sha as [|a s]; [done|]. cbn in Hw. apply andb_true_iff in Hw as [Ha Hs].
  change (take_bytes 12 (String a s)) with (String a (take_bytes 11 s)). cbn [valid_tag]. rewrite Ha.
  assert (all_bytes tag_byte (take_bytes 11 s) = true) as ->.
  { eapply all_bytes_weaken; [|by apply all_bytes_take]. intros b Hb. unfold tag_byte. by rewrite Hb. }
  apply Nat.leb_le. cbn [String.length]. pose proof (length_take_bytes 11 s). lia.
Qed.

(** image tags are valid exactly when the branch has no slash.  For a commit
    and a deployment of the bytes their formats have, and a branch of at most
    120 bytes, every tag the builder gives an image follows the grammar of tags
    if and only if the name of the branch has no slash; so a branch such as
    feature/login, whose slash is kept, cannot be built. *)
Theorem BuildTags_valid sha deploymentID branch tagLatest :
  all_bytes word_byte sha = true → all_bytes tag_byte deploymentID = true → (String.length branch ≤ 120)%nat →
  forallb valid_tag (BuildTags sha deploymentID branch tagLatest) = no_slash branch.
Proof.
  intros Hsha Hdep Hbr.
  set (br := if branch =s? "" then [] else ["branch-" +:+ sanitizeRepoName branch]).
  assert (forallb valid_tag br = no_slash branch) as Hb.
  { unfold br. destruct (branch =s? "") eqn:E; [by apply String.eqb_eq in E as ->|]. cbn [forallb].
    pose proof (length_sanitize branch). unfold sanitizeRepoName.
    change ("branch-" +:+ ?x) with (String "b" "ranch-" +:+ x). rewrite valid_tag_app by (done || cbn; lia).
    rewrite andb_true_r, <- sanitize_loop_slash. apply eq_true_iff_eq. split; [by apply tag_no_slash|].
    apply no_slash_tag, sanitize_loop_bytes. }
  unfold BuildTags. fold br.
  assert (forallb valid_tag ((if sha =s? "" then [] else [take_bytes 12 sha])
    ++ (if deploymentID =s? "" then [] else ["dep-" +:+ shorten deploymentID])
    ++ br ++ (if tagLatest then ["latest"] else [])) = no_slash branch) as H.
  { rewrite !forallb_app, Hb. destruct (sha =s? "") eqn:E1, (deploymentID =s? "") eqn:E2; bool_to_prop; cbn [forallb].
    all: rewrite ?sha_tag by done.
    all: change ("dep-" +:+ ?x) with (String "d" "ep-" +:+ x).
    all: pose proof (length_shorten deploymentID); rewrite ?valid_tag_app by (done || cbn; lia).
    all: rewrite ?shorten_bytes by done; cbn [andb]; by destruct tagLatest; rewrite ?andb_true_r. }
  destruct (_ ++ _); [done|exact H].
Qed.

Lemma BuildTags_valid_witness :
  forallb valid_tag (BuildTags "4f2a9c0b1d3e5f60718293a4b5c6d7e8f9012345" "7f0c1d2e-0000-4000-8000-000000000001" "feature/login" true)
    = no_slash "feature/login"
  ∧ no_slash "feature/login" = false.
Proof. split; [apply BuildTags_valid; [reflexivity|reflexivity|vm_compute; lia]|reflexivity]. Defined.

(** ** Dockerfiles *)

Section dockerfiles.
Context {W : Type} `{BW : BuildWorld W} `{L : !BuildWorldLaws W}.
Implicit Types (s : builddb W).

Lemma template_text fw : blank (template fw) = false.
Proof. unfold template. by repeat case_match. Qed.

Lemma wp_request_to {A} (op : W → A * W) log (Q : A → builddb W → Prop) E s :
  (∀ a w, op (world s) = (a, w) → Q a (set_calls (calls s ++ log a) (set_world w s))) → wp (request_to op log) Q E s.
Proof. intros H fs. unfold request_to. destruct (op (world s)) as [a w] eqn:Eo. by apply H. Qed.

Lemma set_same_world s : set_calls (calls s ++ []) (set_world (world s) s) = s.
Proof. rewrite app_nil_r. by destruct s as [[] ? ? ? ? ? ? ? ?]. Qed.

Lemma wp_look {A} (f : W → A) (Q : A → builddb W → Prop) E s : Q (f (world s)) s → wp (look f) Q E s.
Proof. intros H. apply wp_request_to. intros a w [= <- <-]. by rewrite set_same_world. Qed.

(** The Dockerfile of a workspace is [g]'s. *)
Definition holds_file (dir : string) (g : GenerateResult) (s : builddb W) : Prop :=
  files_in dir (world s) !! "Dockerfile" = Some (File (gen_Content g)) ∧ blank (gen_Content g) = false
  ∧ gen_Path g = Join dir "Dockerfile".

Lemma write_generated_wp dir text s :
  blank text = false →
  wp (write_generated dir text) (λ g s', g = generated dir text generatorVersion true ∧ holds_file dir g s')
    (λ _ _, True) s.
Proof.
  intros Hb. unfold write_generated, request_error. wp_step. wp_step.
  apply wp_request_to. intros [e|] w Hw; cbn [refuse]; wp_step; [done|]. wp_step. split; [done|].
  unfold holds_file. split_and!; [|done|done]. change (files_in dir w !! "Dockerfile" = Some (File text)).
  rewrite (write_in_files dir "Dockerfile" text (world s) w Hw). by rewrite lookup_insert_eq.
Qed.

Lemma Generate_wp dir fw s :
  wp (Generate dir fw)
    (λ g s', holds_file dir g s' ∧ (gen_Generated g = false → s' = s)
       ∧ gen_Generated g = match ReadFile (files_in dir (world s)) "Dockerfile" with
                           | Some data => blank data | None => true end)
    (λ _ _, True) s.
Proof.
  unfold Generate. wp_step. apply wp_look. destruct (ReadFile _ _) as [data|] eqn:E.
  - destruct (blank data) eqn:Eb; cbn [negb].
    + eapply wp_mono; [apply write_generated_wp, template_text| |done]. intros g s' [-> H]. done.
    + wp_step. unfold ReadFile in E. unfold holds_file, generated. cbn. repeat case_match; by simplify_eq.
  - eapply wp_mono; [apply write_generated_wp, template_text| |done]. intros g s' [-> H]. done.
Qed.

(** a Dockerfile is generated once.  Whatever the framework, when [Generate]
    succeeds the workspace has a Dockerfile that is not blank and whose text is
    the one reported; it is the one that was there, if that was not blank, and
    generating again, for any framework, reports the same text as a custom
    Dockerfile and changes nothing. *)
Theorem Generate_once dir fw s :
  wp (Generate dir fw)
    (λ g s', holds_file dir g s'
       ∧ gen_Generated g = match ReadFile (files_in dir (world s)) "Dockerfile" with
                           | Some data => blank data | None => true end
       ∧ ∀ fw', wp (Generate dir fw')
           (λ g' s'', s'' = s' ∧ gen_Content g' = gen_Content g ∧ gen_Version g' = "custom" ∧ gen_Path g' = gen_Path g)
           (λ _ _, False) s')
    (λ _ _, True) s.
Proof.
  eapply wp_mono; [apply Generate_wp| |done]. intros g s' (Hf & _ & Hg). split_and!; [done|done|].
  intros fw'. unfold Generate. wp_step. apply wp_look. destruct Hf as (Hd & Hb & Hp).
  unfold ReadFile. rewrite Hd, Hb. cbn [negb]. wp_step. cbn. by rewrite Hp.
Qed.
End dockerfiles.

(** ** Variables *)

Section variables.
Context {W : Type} `{BW : BuildWorld W} `{D : Driver} `{So : Sorter} `{Do : Documents} `{RM : RowMapping} `{Ae : Aead}.
Implicit Types (s : builddb W).

Lemma add_nothing aad vs env : foldl (add_variable aad) env (without_value <$> vs) = env.
Proof.
  revert env. induction vs as [|v vs IH]; intros env; [done|]. cbn [fmap list_fmap foldl].
  replace (add_variable aad env (without_value v)) with env; [apply IH|].
  unfold add_variable. cbn [Variable_.ValueEnc without_value].
  pose proof (Decrypt_empty aad). by destruct (Decrypt "" aad).
Qed.

(** Variables of a project never reach its build.  The column with their
    values has no field in the struct they are read into: if the driver skips
    it, every value fails to decrypt and is left out; if it reports an error, as
    pgx 5 does, loading fails for every project that has a variable in the
    environment.  Nothing is changed. *)
Theorem loadBuildEnv_empty orgID projectID environment s :
  wp (loadBuildEnv orgID projectID environment)
    (λ env s', env = (inline_cache, ∅) ∧ s' = s
       ∧ (unmatched_column "value_enc" ≠ None →
          ∀ v, v ∈ env_vars s → in_scope orgID projectID environment v = false))
    (λ _ s', s' = s) s.
Proof.
  unfold loadBuildEnv, ListVariables. wp_step. wp_step. wp_step. wp_step; [done|].
  match goal with |- context [if ?b then _ else _] => destruct b end; [|done].
  set (vs := sort_slice _ (select (in_scope orgID projectID environment) (env_vars s))).
  assert (vs = [] → ∀ v, v ∈ env_vars s → in_scope orgID projectID environment v = false) as Hnone.
  { intros E v Hv. destruct (in_scope orgID projectID environment v) eqn:Ei; [|done].
    assert (v ∈ vs) as H by (apply elem_of_sort_slice, elem_of_select; done). rewrite E in H. by apply elem_of_nil in H. }
  destruct vs as [|v vs'] eqn:Ev.
  { wp_step. wp_step. split_and!; [done|done|]. intros _. by apply Hnone. }
  destruct (unmatched_column "value_enc") eqn:Eu; wp_step; [done|].
  wp_step. split_and!; [apply add_nothing|done|done].
Qed.
End variables.
