(* ===== verification/BuildRun.v ===== *)
(** * What a build does

    The pipeline refines an abstract builder: one that checks out, builds one
    image, and only then pushes it.  [observe] is the transition function of
    the abstract builder on the requests of the pipeline, [None] where it allows
    none. *)

From S2P Require Import Prelude GoLib Errors Postgres Sql DeployModel Rows Outside ControlPlane.
From S2P Require Import DeploymentRepo DeploymentFacts DeployStore Password BuildModel Detect BuildStore BuildTools.
From S2P Require Import BuildPipeline BuildFacts.

(** ** The abstract builder *)

(** Whether a build was attempted, whether it gave an image, and the references
    under which the image was pushed. *)
Record progress := { attempted : bool; imaged : bool; pushed : list string }.

Definition nothing : progress := {| attempted := false; imaged := false; pushed := [] |}.
Definition after_build (ok : bool) (refs : list string) : progress :=
  {| attempted := true; imaged := ok; pushed := refs |}.

Definition pushes (argv : list string) : option string :=
  match argv with [_; verb; ref] => if verb =s? "push" then Some ref else None | _ => None end.

Definition checks_out (argv : list string) : bool :=
  match argv with
  | program :: verb :: _ => (program =s? "git") && ((verb =s? "clone") || (verb =s? "-C"))
  | _ => false
  end.

Definition observe (x : progress) (c : build_call) : option progress :=
  match c with
  | CStream _ ok => if attempted x then None else Some (after_build ok (pushed x))
  | CRun argv ok =>
      match pushes argv with
      | Some ref => if imaged x then Some (if ok then after_build true (pushed x ++ [ref]) else x) else None
      | None => if checks_out argv && attempted x then None else Some x
      end
  | _ => Some x
  end.

Fixpoint observe_all (x : progress) (l : list build_call) : option progress :=
  match l with
  | [] => Some x
  | c :: l => match observe x c with Some x => observe_all x l | None => None end
  end.

Lemma observe_app x l1 l2 y :
  observe_all x l1 = Some y → observe_all x (l1 ++ l2) = observe_all y l2.
Proof. revert x. induction l1 as [|c l1 IH]; intros x; cbn; [by intros [= ->]|]. destruct (observe x c); [apply IH|done]. Qed.

(** ** Computations that cannot succeed *)

Section failing.
Context {S : Type}.

Definition fails {A} (m : db S A) : Prop := ∀ s fs, ∃ e st, m (s, fs) = (Err e, st).

Lemma fails_fail_with {A} e : fails (A := A) (fail_with e).
Proof. by intros s fs; eexists _, _. Qed.

Lemma fails_bind {A B} (m : db S A) (k : A → db S B) : (∀ a, fails (k a)) → fails (m ≫= k).
Proof.
  intros Hk s fs. unfold mbind, db_bind. destruct (m (s, fs)) as [[a|e] [s' fs']]; [apply Hk|by eexists _, _].
Qed.

Lemma wp_fails {A} (m : db S A) Q Q' E s : fails m → wp m Q' E s → wp m Q E s.
Proof. intros Hf Hm fs. specialize (Hm fs). destruct (Hf s fs) as (e & [s' fs'] & Hr). by rewrite Hr in *. Qed.

(** What a deferred call keeps. *)
Lemma wp_finally {W A} (f : db (builddb W) unit) (m : db (builddb W) A) Q E s :
  (∀ a, preserves (Q a) f) → (∀ e, preserves (E e) f) → wp m Q E s → wp (finally f m) Q E s.
Proof.
  intros HQ HE Hm. unfold finally. wp_step. wp_step. eapply wp_mono; [exact Hm|..]; cbn beta.
  - intros a s1 H1. wp_step. wp_step. eapply wp_mono; [by apply (wp_preserves (Q a))|..]; cbn beta; intros; by wp_step.
  - intros e s1 H1. wp_step. wp_step. eapply wp_mono; [by apply (wp_preserves (E e))|..]; cbn beta; intros; by wp_step.
Qed.
End failing.

Section run.
Context {W : Type} `{BW : BuildWorld W} `{D : Driver} `{So : Sorter} `{J : Jsonb} `{Do : Documents} `{RM : RowMapping} `{Ae : Aead}.
Context (cfg : BuilderConfig) (workerID : string).
Implicit Types (s : builddb W).

(** ** Properties of the trace, the deployments and the artifacts *)

Definition view_prop : Type := list build_call → list Deployment → list BuildArtifact → Prop.
Definition seen (P : view_prop) s : Prop := P (calls s) (deployments (tables s)) (saved_artifacts s).

(** Computations that add only requests of [Q] keep a property that [Q] keeps. *)
Section quiet.
Context (P : view_prop) (Q : build_call → Prop) (HQ : ∀ c t r a, Q c → P t r a → P (t ++ [c]) r a).

Lemma add_calls l t r a : Forall Q l → P t r a → P (t ++ l) r a.
Proof.
  revert t. induction l as [|c l IH]; intros t Hl HP; [by rewrite app_nil_r|].
  apply Forall_cons in Hl as [Hc Hl]. replace (t ++ c :: l) with ((t ++ [c]) ++ l) by (by rewrite <- app_assoc).
  apply IH; [done|]. by apply HQ.
Qed.

Lemma preserves_request {A} (op : W → A * W) log :
  (∀ x, Forall Q (log x)) → preserves (seen P) (request_to op log).
Proof.
  intros Hl. apply preserves_wp. intros s Hs. apply wp_request_to. intros x w _.
  by apply (add_calls (log x) (calls s)).
Qed.

Lemma preserves_read_time : preserves (seen P) read_time.
Proof. apply preserves_request. intros _. constructor. Qed.
Lemma preserves_fresh_uuid : preserves (seen P) fresh_uuid.
Proof. apply preserves_request. intros _. constructor. Qed.
Lemma preserves_look {A} (f : W → A) : preserves (seen P) (look f).
Proof. apply preserves_request. intros _. constructor. Qed.

Lemma preserves_request_error op log :
  (∀ ok, Forall Q (log ok)) → preserves (seen P) (request_error op log).
Proof.
  intros Hl. apply preserves_bind; [by apply preserves_request|]. intros [e|]; [apply preserves_fail|apply preserves_ret].
Qed.

Lemma preserves_id_or_uuid id : preserves (seen P) (id_or_uuid id).
Proof. unfold id_or_uuid. case_match; [apply preserves_fresh_uuid|apply preserves_ret]. Qed.

(** A statement on a table that the property does not look at. *)
Lemma preserves_statement {T A} (l : Lens (builddb W) T) (f : builddb W → T → result error A * T) :
  (∀ s t, seen P s → seen P (put l t s)) → preserves (seen P) (stmt l f).
Proof.
  intros Hl. apply preserves_query. intros s Hs. destruct (f s (view l s)) as [r t]. by apply Hl.
Qed.

Lemma preserves_reading {A} (f : builddb W → result error A) : preserves (seen P) (query (λ s, (f s, s))).
Proof. by apply preserves_query. Qed.

(** Reads of the control plane. *)
Lemma preserves_on_tables {A} (m : db (deploydb W) A) :
  (∀ st0, preserves (λ st, st = st0) m) → preserves (seen P) (on_tables m).
Proof.
  intros Hm s fs Hs. unfold on_tables, tables_of, zoom.
  specialize (Hm (tables s) (tables s) fs eq_refl). unfold tables_of in Hm. cbn [view tables_l].
  destruct (m (tables s, fs)) as [r [st fs']]. cbn in *. by subst.
Qed.

Lemma preserves_finally {A} f (m : db (builddb W) A) :
  preserves (seen P) f → preserves (seen P) m → preserves (seen P) (finally f m).
Proof.
  intros Hf Hm. apply preserves_bind; [by apply preserves_attempt|]. intros r.
  apply preserves_bind; [by apply preserves_ignore|]. intros _. apply preserves_wp. intros s Hs. wp_step. by destruct r.
Qed.
End quiet.
End run.

Lemma unchanged_GetByID {W} `{D : Driver} orgID id (st0 : deploydb W) :
  preserves (λ st, st = st0) (DeploymentRepo.GetByID orgID id).
Proof. by apply preserves_translate, preserves_query. Qed.
Lemma unchanged_IsCancelled {W} `{D : Driver} orgID id (st0 : deploydb W) :
  preserves (λ st, st = st0) (IsCancelled orgID id).
Proof. apply preserves_bind; [by apply preserves_translate, preserves_query|]. intros d. apply preserves_ret. Qed.
Lemma unchanged_GetProject {W} `{D : Driver} orgID id (st0 : deploydb W) :
  preserves (λ st, st = st0) (GetProject orgID id).
Proof.
  apply preserves_bind; [by repeat apply preserves_translate; apply preserves_exec|].
  intros [|p l]; [apply preserves_fail_with|apply preserves_ret].
Qed.

(** Take a computation apart; what is left are its requests, and the statements
    and computations that have lemmas of their own. *)
Ltac quietly HQ :=
  repeat lazymatch goal with
  | |- preserves _ (mbind _ _) => apply preserves_bind; [|intros ?]
  | |- preserves _ (mret _) => apply preserves_ret
  | |- preserves _ (fail _) => apply preserves_fail
  | |- preserves _ (fail_with _) => apply preserves_fail_with
  | |- preserves _ (of_result _) => apply preserves_wp; intros ??; apply wp_of_result
  | |- preserves _ (attempt _) => apply preserves_attempt
  | |- preserves _ (ignore _) => apply preserves_ignore
  | |- preserves _ (translate _ _) => apply preserves_translate
  | |- preserves _ (on_error _ _) => apply preserves_on_error
  | |- preserves _ (finally _ _) => apply preserves_finally
  | |- preserves _ read_time => apply (preserves_read_time _ _ HQ)
  | |- preserves _ fresh_uuid => apply (preserves_fresh_uuid _ _ HQ)
  | |- preserves _ (look _) => apply (preserves_look _ _ HQ)
  | |- preserves _ (id_or_uuid _) => apply (preserves_id_or_uuid _ _ HQ)
  | |- preserves _ (stmt _ _) => apply preserves_statement; intros ?? H; exact H
  | |- preserves _ (request_to _ _) => apply (preserves_request _ _ HQ); intros ?
  | |- preserves _ (request_error _ _) => apply (preserves_request_error _ _ HQ); intros ?
  | |- preserves _ (on_tables (DeploymentRepo.GetByID _ _)) => apply preserves_on_tables; intros ?; apply unchanged_GetByID
  | |- preserves _ (on_tables (IsCancelled _ _)) => apply preserves_on_tables; intros ?; apply unchanged_IsCancelled
  | |- preserves _ (on_tables (GetProject _ _)) => apply preserves_on_tables; intros ?; apply unchanged_GetProject
  | |- preserves _ (if ?b then _ else _) => destruct b
  | |- preserves _ (match ?x with _ => _ end) => destruct x
  end.

Section stages.
Context {W : Type} `{BW : BuildWorld W} `{D : Driver} `{So : Sorter} `{J : Jsonb} `{Do : Documents} `{RM : RowMapping} `{Ae : Aead}.
Context (cfg : BuilderConfig) (workerID : string).
Implicit Types (s : builddb W).

(** ** Stages that make no request of the abstract builder *)

Section still.
Context (P : view_prop) (Q : build_call → Prop) (HQ : ∀ c t r a, Q c → P t r a → P (t ++ [c]) r a).

Lemma still_Publish ty meta : preserves (seen P) (BuildStore.Publish (W := W) ty meta).
Proof. unfold BuildStore.Publish. quietly HQ. Qed.

Lemma still_Write b d stage level msg : preserves (seen P) (Write (W := W) b d stage level msg).
Proof. unfold Write, Append. quietly HQ. Qed.

Lemma still_emit p b ty : preserves (seen P) (emit (W := W) p b ty).
Proof. apply preserves_ignore, still_Publish. Qed.

Lemma still_note p b stage msg : preserves (seen P) (note (W := W) p b stage msg).
Proof. apply preserves_ignore, still_Write. Qed.

Lemma still_mark_build msg id f : preserves (seen P) (mark_build (W := W) msg id f).
Proof. unfold mark_build. quietly HQ. Qed.

Lemma still_handle_cancel {A} p msg : preserves (seen P) (handle_cancel (W := W) (A := A) p msg).
Proof.
  unfold handle_cancel, BuildStore.GetByDeployment, first_build, BuildStore.MarkCancelled, Warn. quietly HQ.
  - apply still_mark_build.
  - apply still_Publish.
  - apply still_Write.
Qed.

Lemma still_check_cancel c p : preserves (seen P) (check_cancel (W := W) c p).
Proof. unfold check_cancel. quietly HQ. apply still_handle_cancel. Qed.

(** A change of deployments the property does not mind. *)
Definition minds_not (f : Deployment → Deployment) : Prop :=
  ∀ q t r a, P t r a → P t (update_where q f r) a.

Lemma still_change_rows ev org id p f wrap missing status msg meta now :
  (∀ t r a, P t r a → P t (update_where (λ d, is_deployment org id d && p d) f r) a) →
  preserves (seen P) (on_tables (W := W) (change ev org id p f wrap missing status msg meta now)).
Proof.
  intros Hf. apply preserves_zoom. intros s. unfold change, update_deployments, addEvent.
  apply preserves_bind.
  - apply preserves_Transact, preserves_bind.
    + apply preserves_translate, preserves_exec. intros st Hs. cbn. by apply Hf.
    + intros n. case_match; [apply preserves_fail_with|]. apply preserves_translate, preserves_query.
      intros st Hs. unfold insert_event. by repeat case_match.
  - intros _. by apply preserves_translate, preserves_query.
Qed.

Lemma still_change ev org id p f wrap missing status msg meta now :
  minds_not f → preserves (seen P) (on_tables (W := W) (change ev org id p f wrap missing status msg meta now)).
Proof. intros Hf. apply still_change_rows. intros *. apply Hf. Qed.

Lemma still_admit p jobID : preserves (seen P) (admit_build (W := W) p jobID).
Proof. unfold admit_build, UpsertForDeployment. quietly HQ. apply still_handle_cancel. Qed.

Lemma still_loadBuildEnv org proj env : preserves (seen P) (loadBuildEnv (W := W) org proj env).
Proof. unfold loadBuildEnv, ListVariables. quietly HQ. by apply preserves_query. Qed.

Context (Hfailed : ∀ reason ms now, minds_not (build_failed reason ms now)).

Lemma still_fail_build {A} p b start reason : preserves (seen P) (fail_build (W := W) (A := A) p b start reason).
Proof.
  unfold fail_build, changed, MarkBuildFailed, BuildStore.MarkFailed, Error_. quietly HQ.
  - by apply still_change.
  - apply still_mark_build.
  - apply still_Publish.
  - apply still_Write.
Qed.

Lemma still_or_fail {A} p b start reason (m : db (builddb W) A) :
  preserves (seen P) m → preserves (seen P) (or_fail_build p b start reason m).
Proof. intros Hm. unfold or_fail_build. quietly HQ; [done|apply still_fail_build]. Qed.

Context (Hstatus : ∀ failure now, minds_not (set_status StatusBuilding failure now)).

Lemma still_begin c p b : preserves (seen P) (begin_build workerID (W := W) c p b).
Proof.
  unfold begin_build, changed, UpdateStatus, BuildStore.MarkRunning. quietly HQ.
  - apply still_emit.
  - by apply still_change.
  - apply still_mark_build.
  - apply still_emit.
  - apply still_note.
  - apply still_check_cancel.
Qed.
End still.
End stages.

(** ** Requests the abstract builder does not mind *)

Definition idle_call (late : bool) (c : build_call) : Prop :=
  match c with
  | CStream _ _ => False
  | CRun argv _ => pushes argv = None ∧ (late = true → checks_out argv = false)
  | _ => True
  end.

Lemma idle_observe x c : idle_call (attempted x) c → observe x c = Some x.
Proof.
  destruct c; cbn; try done. intros [Hp Hc]. rewrite Hp. destruct (attempted x); [by rewrite Hc|by rewrite andb_false_r].
Qed.

Ltac idle := repeat first [apply Forall_cons; split | apply Forall_nil; done]; try done; split; done.

Section tools.
Context {W : Type} `{BW : BuildWorld W} `{D : Driver} `{So : Sorter} `{J : Jsonb} `{Do : Documents} `{RM : RowMapping} `{Ae : Aead}.
Context (cfg : BuilderConfig) (workerID : string) (P : view_prop).

Section checkout.
Context (HP : ∀ c t r a, idle_call false c → P t r a → P (t ++ [c]) r a).

Lemma still_runGit c env args :
  pushes ("git" :: args) = None → preserves (seen P) (runGit (W := W) c env args).
Proof. intros Ha. unfold runGit, output, run. quietly HP. apply Forall_singleton. done. Qed.

Lemma still_ask_git c dir args : preserves (seen P) (ask_git (W := W) c dir args).
Proof.
  unfold ask_git, output, run. quietly HP. apply Forall_singleton. cbn. split; [|done].
  by destruct args.
Qed.

Lemma still_writeTempKey pem : preserves (seen P) (writeTempKey (W := W) pem).
Proof.
  unfold writeTempKey, new_temp, fill_temp, remove_path. quietly HP; try (by repeat case_match; repeat constructor).
Qed.

Lemma still_checkout c creds dir start ssh : preserves (seen P) (checkout (W := W) c creds dir start ssh).
Proof.
  unfold checkout, checkout_commit. quietly HP;
    try (apply still_runGit; repeat case_match; done); apply still_ask_git.
Qed.

Lemma still_Clone c creds dep : preserves (seen P) (Clone (W := W) cfg c creds dep).
Proof.
  unfold Clone, with_key, remove_path. quietly HP; try (by repeat constructor);
    first [apply still_checkout|apply still_writeTempKey].
Qed.

Lemma still_Generate dir fw : preserves (seen P) (Generate (W := W) dir fw).
Proof. unfold Generate, write_generated. quietly HP; by repeat constructor. Qed.

Context (Hfailed : ∀ reason ms now, minds_not P (build_failed reason ms now)).

Lemma still_clone_stage c p start a : preserves (seen P) (clone_stage (W := W) cfg c p start a).
Proof.
  unfold clone_stage, GetWithCredentials. quietly HP; apply (still_or_fail P _ HP Hfailed); quietly HP.
  - by apply preserves_query.
  - by case_match.
  - apply still_Clone.
Qed.

Lemma still_dockerfile_stage c p start a cl : preserves (seen P) (dockerfile_stage (W := W) c p start a cl).
Proof.
  unfold dockerfile_stage. quietly HP;
    first [apply (still_emit P _ HP)|apply (still_note P _ HP)|apply (still_check_cancel P _ HP)|
           apply (still_or_fail P _ HP Hfailed), still_Generate].
Qed.
End checkout.

Section building.
Context (HP : ∀ c t r a, idle_call true c → P t r a → P (t ++ [c]) r a).

Lemma still_remove_paths paths : preserves (seen P) (remove_paths (W := W) paths).
Proof.
  induction paths as [|f files IH]; cbn [remove_paths]; [apply preserves_ret|].
  apply preserves_bind; [|done]. apply (preserves_request _ _ HP). intros _. by apply Forall_singleton.
Qed.

Lemma still_write_secrets l files : preserves (seen P) (write_secrets (W := W) l files).
Proof.
  revert files. induction l as [|[id val] l IH]; intros files; cbn [write_secrets]; [apply preserves_ret|].
  unfold new_temp, fill_temp. quietly HP;
    first [apply IH|apply still_remove_paths|by repeat case_match; repeat constructor].
Qed.

Lemma still_scan_lines progress lines stats warnings :
  (∀ stage line, preserves (seen P) (progress stage line)) →
  preserves (seen P) (scan_lines (W := W) progress lines stats warnings).
Proof.
  intros Hp. revert stats warnings. induction lines as [|l lines IH]; intros stats warnings; cbn [scan_lines];
    [apply preserves_ret|]. by apply preserves_bind.
Qed.

Lemma still_inspectDigest c tag : preserves (seen P) (inspectDigest (W := W) cfg c tag).
Proof.
  unfold inspectDigest, output, run. quietly HP; apply Forall_singleton; cbn; by rewrite andb_false_r.
Qed.

Lemma still_Login c : preserves (seen P) (Login (W := W) cfg c).
Proof. unfold Login, output, run. quietly HP; apply Forall_singleton; cbn; by rewrite ?andb_false_r. Qed.

Lemma still_EnsureRepository c r : preserves (seen P) (EnsureRepository (W := W) cfg c r).
Proof. unfold EnsureRepository, output, run. quietly HP; apply Forall_singleton; cbn; done. Qed.

Lemma still_pushed_digest c r tags : preserves (seen P) (pushed_digest (W := W) cfg c r tags).
Proof.
  unfold pushed_digest, output, run. quietly HP; apply Forall_singleton; cbn; by rewrite ?andb_false_r.
Qed.

Lemma still_sbom tag : preserves (seen P) (sbom_Generate (W := W) tag).
Proof. unfold sbom_Generate, run. quietly HP; apply Forall_singleton; cbn; done. Qed.

Lemma still_Cleanup dir : preserves (seen P) (Cleanup (W := W) cfg dir).
Proof. unfold Cleanup. quietly HP. by apply Forall_singleton. Qed.
End building.
End tools.

(** ** The stages that build and push *)

Section refinement.
Context {W : Type} `{BW : BuildWorld W} `{D : Driver} `{So : Sorter} `{J : Jsonb} `{Do : Documents} `{RM : RowMapping} `{Ae : Aead}.
Context (cfg : BuilderConfig) (workerID : string) (p : Payload).
Context (t0 : list build_call) (r0 : list Deployment).
Implicit Types (s : builddb W) (x : progress) (d : Deployment).

(** The abstract builder has come to [x]. *)
Definition reached x (t : list build_call) : Prop := ∃ l, t = t0 ++ l ∧ observe_all nothing l = Some x.

(** Built deployments were built before, or [A] holds of them. *)
Definition built_ones (A : Deployment → Prop) (r : list Deployment) : Prop :=
  ∀ d, d ∈ r → Deployment.Status d = StatusBuilt → d ∈ r0 ∨ A d.

(** The name the deployer is given of an image. *)
Definition image_name (proj : Project) (cl : CloneResult) : string :=
  let tag := default "" (head (remote_tags cfg p cl)) in
  if (if ecr_Enabled (ECR cfg) then registry (ECR cfg) else "local") =s? "local" then tag
  else FullImageRef (ECR cfg) (repository_of cfg p proj) tag.

(** The image of the deployment was built, and pushed under all its tags. *)
Definition vouched x d : Prop :=
  imaged x = true ∧ is_deployment (OrgID p) (DeploymentID p) d = true
  ∧ ∃ proj cl, Deployment.ImageTag d = image_name proj cl
      ∧ (ecr_Enabled (ECR cfg) = true →
         ∀ tag, tag ∈ remote_tags cfg p cl → FullImageRef (ECR cfg) (repository_of cfg p proj) tag ∈ pushed x).

(** The artifact of a built deployment. *)
Definition recorded d (a : list BuildArtifact) : Prop :=
  ∃ art, art ∈ a ∧ BuildArtifact.DeploymentID art = DeploymentID p
    ∧ BuildArtifact.ImageTag art = Deployment.ImageTag d.

Definition at_stage x (A : Deployment → Prop) : view_prop := λ t r a, reached x t ∧ built_ones A r.

Definition at_some (A : progress → Deployment → Prop) : view_prop := λ t r a, ∃ x, reached x t ∧ built_ones (A x) r.

Definition complete x : view_prop := λ t r a,
  at_stage x (vouched x) t r a
  ∧ ∃ d, d ∈ r ∧ Deployment.Status d = StatusBuilt ∧ vouched x d ∧ recorded d a.

Lemma reached_app x c t y : observe x c = Some y → reached x t → reached y (t ++ [c]).
Proof.
  intros Hc (l & -> & Hl). exists (l ++ [c]). split; [by rewrite app_assoc|].
  rewrite (observe_app _ _ _ _ Hl). cbn. by rewrite Hc.
Qed.

Lemma at_stage_idle x A c t r a : idle_call (attempted x) c → at_stage x A t r a → at_stage x A (t ++ [c]) r a.
Proof. intros Hc [Ht Hr]. split; [|done]. eapply reached_app; [by apply idle_observe|done]. Qed.

Lemma complete_idle x c t r a : idle_call (attempted x) c → complete x t r a → complete x (t ++ [c]) r a.
Proof. intros Hc [Ht Hd]. split; [by apply at_stage_idle|done]. Qed.

Lemma at_some_idle A c t r a : idle_call true c → at_some A t r a → at_some A (t ++ [c]) r a.
Proof.
  intros Hc (x & Ht & Hr). exists x. split; [|done]. eapply reached_app; [|done]. apply idle_observe.
  destruct c; cbn in *; try done. by destruct Hc as [? Hc]; split; [|intros _; apply Hc].
Qed.

(** A change to another status. *)
Lemma built_ones_update A q f r :
  (∀ d, Deployment.Status (f d) ≠ StatusBuilt) → built_ones A r → built_ones A (update_where q f r).
Proof.
  intros Hf Hr d' (d & Hd & ->)%elem_of_update_where Hs. destruct (q d); [by destruct (Hf d)|by apply Hr].
Qed.

Lemma at_stage_minds_not x A f : (∀ d, Deployment.Status (f d) ≠ StatusBuilt) → minds_not (at_stage x A) f.
Proof. intros Hf q t r a [Ht Hr]. split; [done|]. by apply built_ones_update. Qed.

Lemma at_some_minds_not A f : (∀ d, Deployment.Status (f d) ≠ StatusBuilt) → minds_not (at_some A) f.
Proof. intros Hf q t r a (x & Ht & Hr). exists x. split; [done|]. by apply built_ones_update. Qed.

Lemma failed_unbuilt reason ms now d : Deployment.Status (build_failed reason ms now d) ≠ StatusBuilt.
Proof. done. Qed.
Lemma building_unbuilt failure now d : Deployment.Status (set_status StatusBuilding failure now d) ≠ StatusBuilt.
Proof. done. Qed.

(** Failing, from any point. *)
Lemma fail_anywhere {A} b start reason F (Q : A → builddb W → Prop) s :
  seen (at_some F) s → wp (fail_build p b start reason) Q (λ _, seen (at_some F)) s.
Proof.
  intros Hs. apply (wp_fails _ _ (λ _, seen (at_some F))).
  - unfold fail_build. repeat (apply fails_bind; intros ?). apply fails_fail_with.
  - apply wp_preserves; [|done].
    apply (still_fail_build _ _ (at_some_idle F)). intros *. apply at_some_minds_not, failed_unbuilt.
Qed.

Lemma wp_or_fail_build {A} b start reason F (m : db (builddb W) A) Q s :
  wp m Q (λ _, seen (at_some F)) s →
  wp (or_fail_build p b start reason m) Q (λ _, seen (at_some F)) s.
Proof.
  intros Hm. unfold or_fail_build. wp_step. wp_step. eapply wp_mono; [exact Hm|..]; cbn beta.
  - intros r s' Hr. by wp_step.
  - intros e s' He. by apply fail_anywhere.
Qed.

(** A stage that keeps where the builder is. *)
Lemma wp_still {A} x F G (m : db (builddb W) A) s :
  preserves (seen (at_stage x F)) m → (∀ d, F d → G x d) → seen (at_stage x F) s →
  wp m (λ _, seen (at_stage x F)) (λ _, seen (at_some G)) s.
Proof.
  intros Hm HF Hs. eapply wp_mono; [by apply wp_preserves|done|]. intros _ s' [Ht Hr]. exists x. split; [done|].
  intros d Hd Hb. destruct (Hr d Hd Hb); auto.
Qed.

(** The image. *)
Lemma late_of_early x F c t r a :
  attempted x = false → idle_call true c → at_stage x F t r a → at_stage x F (t ++ [c]) r a.
Proof.
  intros Hx Hc. apply at_stage_idle. rewrite Hx. destruct c; cbn in *; try done. by destruct Hc.
Qed.

Lemma run_build_wp c opts report start files F s :
  (∀ st line P (HP : ∀ c t r a, idle_call true c → P t r a → P (t ++ [c]) r a), preserves (seen P) (report st line)) →
  seen (at_stage nothing F) s →
  wp (run_build cfg c opts report start files)
    (λ _, seen (at_stage (after_build true []) F)) (λ _, seen (at_some (λ _, F))) s.
Proof.
  intros Hp Hs. unfold run_build. wp_step. apply wp_request_to. intros a w _.
  set (s1 := set_calls _ _).
  assert (seen (at_stage (after_build (stream_ok a) []) F) s1) as H1.
  { destruct Hs as [Ht Hr]. split; [|exact Hr]. by apply (reached_app nothing _ (calls s)). }
  assert (seen (at_some (λ _, F)) s1) as Hsome by (by exists (after_build (stream_ok a) [])).
  destruct a as [e|e|e|lines e]; [by wp_step..|]. cbn [stream_ok] in H1. wp_step.
  set (x := after_build (succeeded e) []) in *. pose proof (at_stage_idle x F) as HP.
  eapply wp_mono; [by apply (wp_still x F (λ _, F)); [apply still_scan_lines; intros st line; apply Hp|..]| |done].
  cbn beta. intros scanned s2 H2. destruct e as [e|]; [wp_step; by exists x|]. wp_step.
  eapply wp_mono; [apply (wp_still x F (λ _, F)); [|done|exact H2]| |done].
  { quietly HP. by apply still_inspectDigest. }
  cbn beta. intros digest s3 H3. wp_step.
  eapply wp_mono; [by apply (wp_still x F (λ _, F)); [apply (preserves_read_time _ _ HP)|..]| |done].
  cbn beta. intros now s4 H4. by wp_step.
Qed.

Lemma build_wp c opts report F s :
  (∀ st line P (HP : ∀ c t r a, idle_call true c → P t r a → P (t ++ [c]) r a), preserves (seen P) (report st line)) →
  seen (at_stage nothing F) s →
  wp (BuildImage cfg c opts report)
    (λ _, seen (at_stage (after_build true []) F)) (λ _, seen (at_some (λ _, F))) s.
Proof.
  intros Hp Hs. unfold BuildImage. wp_step.
  pose proof (at_stage_idle nothing F) as H0.
  eapply wp_mono; [apply (wp_still nothing F (λ _, F)); [apply (preserves_read_time _ _ H0)|done|done]| |done].
  cbn beta. intros start s1 Hs1. wp_step.
  eapply wp_mono; [apply (wp_still nothing F (λ _, F)); [|done|done]| |done].
  { apply still_write_secrets. intros *. by apply late_of_early. }
  cbn beta. intros files s2 Hs2. apply wp_finally; [| |by apply run_build_wp].
  - intros img. apply still_remove_paths. intros *. by apply (at_stage_idle (after_build true [])).
  - intros e. apply still_remove_paths. intros *. apply at_some_idle.
Qed.

(** ** The whole pipeline *)

(** Nothing has been built yet. *)
Definition unbuilt : Deployment → Prop := λ _, False.

Definition so_far x : view_prop := at_stage x unbuilt.

Lemma so_far_idle x c t r a : idle_call true c → so_far x t r a → so_far x (t ++ [c]) r a.
Proof.
  intros Hc. apply at_stage_idle. destruct c; cbn in *; try done. by destruct Hc as [? Hc]; split; [|intros _; apply Hc].
Qed.

Lemma so_far_early c t r a : idle_call false c → so_far nothing t r a → so_far nothing (t ++ [c]) r a.
Proof. apply (at_stage_idle nothing). Qed.

Lemma so_far_failed x reason ms now : minds_not (so_far x) (build_failed reason ms now).
Proof. apply at_stage_minds_not, failed_unbuilt. Qed.

Lemma so_far_some x t r a : so_far x t r a → at_some vouched t r a.
Proof. intros [Ht Hr]. exists x. split; [done|]. intros d Hd Hb. by destruct (Hr d Hd Hb); [left|]. Qed.

Lemma some_unbuilt t r a : at_some (λ _, unbuilt) t r a → at_some vouched t r a.
Proof. intros (x & H). by apply (so_far_some x). Qed.

Lemma wp_so_far {A} x (m : db (builddb W) A) s :
  preserves (seen (so_far x)) m → seen (so_far x) s →
  wp m (λ _, seen (so_far x)) (λ _, seen (at_some vouched)) s.
Proof. intros Hm Hs. by apply (wp_still x unbuilt vouched). Qed.

Lemma image_stage_wp c start a cl df s :
  seen (so_far nothing) s →
  wp (image_stage cfg c p start a cl df) (λ _, seen (so_far (after_build true []))) (λ _, seen (at_some vouched)) s.
Proof.
  intros Hs. unfold image_stage. wp_step. eapply wp_mono; [apply (wp_so_far nothing); [|done]| |done].
  { apply (still_or_fail _ _ so_far_early (so_far_failed nothing)). apply still_loadBuildEnv. }
  cbn beta. intros env s1 H1. wp_step. apply wp_or_fail_build. eapply wp_mono.
  - apply (build_wp c _ _ unbuilt); [|exact H1]. intros st line P HP. by apply preserves_ignore, (still_Write P _ HP).
  - cbn beta. intros img s2 H2. wp_step. eapply wp_mono; [apply (wp_so_far (after_build true [])); [|done]| |done].
    + apply (still_check_cancel _ _ (so_far_idle _)).
    + cbn beta. intros ? s3 H3. by wp_step.
  - intros e s2. apply some_unbuilt.
Qed.

(** The pushed references. *)
Definition refs_of (repository : string) (tags : list string) : list string :=
  if ecr_Enabled (ECR cfg) then FullImageRef (ECR cfg) repository <$> tags else [].

Lemma push_tags_wp c localTag repository tags refs s :
  seen (so_far (after_build true refs)) s →
  wp (push_tags cfg c localTag repository tags)
    (λ _, seen (so_far (after_build true (refs ++ (FullImageRef (ECR cfg) repository <$> tags)))))
    (λ _, seen (at_some vouched)) s.
Proof.
  revert refs s. induction tags as [|tag tags IH]; intros refs s Hs; cbn [push_tags fmap list_fmap].
  { rewrite app_nil_r. by wp_step. }
  set (ref := FullImageRef (ECR cfg) repository tag). wp_step. wp_step.
  eapply wp_mono; [apply (wp_so_far (after_build true refs)); [|done]| |done].
  { unfold output, run. quietly (so_far_idle (after_build true refs)). apply Forall_singleton.
    cbn. by rewrite andb_false_r. }
  cbn beta. intros _ s1 H1. wp_step. apply wp_request_to. intros [out e] w _.
  set (s2 := set_calls _ _). cbn [fst snd].
  assert (seen (so_far (if succeeded e then after_build true (refs ++ [ref]) else after_build true refs)) s2) as H2.
  { destruct H1 as [Ht Hr]. split; [|exact Hr]. by apply (reached_app (after_build true refs) _ (calls s1)). }
  destruct e as [e|]; [wp_step; by eapply so_far_some|].
  replace (refs ++ ref :: _) with ((refs ++ [ref]) ++ (FullImageRef (ECR cfg) repository <$> tags))
    by (by rewrite <- app_assoc).
  by apply IH.
Qed.

Lemma Push_wp c opts s :
  seen (so_far (after_build true [])) s →
  wp (Push cfg c opts)
    (λ r s', push_Registry r = (if ecr_Enabled (ECR cfg) then registry (ECR cfg) else "local")
             ∧ seen (so_far (after_build true (refs_of (PushRepository opts) (RemoteTags opts)))) s')
    (λ _, seen (at_some vouched)) s.
Proof.
  intros Hs. pose proof (λ refs, so_far_idle (after_build true refs)) as HP.
  unfold Push, refs_of. wp_step.
  eapply wp_mono; [apply (wp_so_far (after_build true [])); [apply (preserves_read_time _ _ (HP _))|done]| |done].
  cbn beta. intros start s1 H1. destruct (ecr_Enabled (ECR cfg)); cbn [negb].
  2:{ wp_step. eapply wp_mono; [apply (wp_so_far (after_build true [])); [apply (preserves_read_time _ _ (HP _))|done]| |done].
      cbn beta. intros now s2 H2. by wp_step. }
  wp_step. eapply wp_mono; [apply (wp_so_far (after_build true [])); [apply still_Login, HP|done]| |done].
  cbn beta. intros _ s2 H2. wp_step.
  eapply wp_mono; [apply (wp_so_far (after_build true [])); [apply still_EnsureRepository, HP|done]| |done].
  cbn beta. intros _ s3 H3. wp_step. eapply wp_mono; [apply (push_tags_wp c _ _ _ []), H3| |done].
  cbn beta. intros _ s4 H4. wp_step.
  eapply wp_mono; [eapply wp_so_far, H4; apply still_pushed_digest, HP| |done].
  cbn beta. intros digest s5 H5. wp_step.
  eapply wp_mono; [eapply wp_so_far, H5; apply (preserves_read_time _ _ (HP _))| |done].
  cbn beta. intros now s6 H6. by wp_step.
Qed.

(** The artifact of the image is recorded. *)
Definition recorded_as x (tag : string) : view_prop := λ t r a,
  so_far x t r a
  ∧ ∃ art, art ∈ a ∧ BuildArtifact.DeploymentID art = DeploymentID p ∧ BuildArtifact.ImageTag art = tag.

Lemma recorded_as_idle x tag c t r a : idle_call true c → recorded_as x tag t r a → recorded_as x tag (t ++ [c]) r a.
Proof. intros Hc [Ht Ha]. split; [by apply so_far_idle|done]. Qed.

Lemma Save_wp x art s :
  BuildArtifact.DeploymentID art = DeploymentID p → seen (so_far x) s →
  wp (Save art) (λ _, seen (recorded_as x (BuildArtifact.ImageTag art))) (λ _, seen (at_some vouched)) s.
Proof.
  intros Hd Hs. pose proof (so_far_idle x) as HP. unfold Save. wp_step.
  eapply wp_mono; [eapply wp_so_far, Hs; apply (preserves_id_or_uuid _ _ HP)| |done]. cbn beta. intros id s1 H1.
  wp_step. eapply wp_mono; [eapply wp_so_far, H1; apply (preserves_read_time _ _ HP)| |done].
  cbn beta. intros now s2 H2. wp_step. wp_step. unfold stmt. wp_step.
  { intros _. by eapply so_far_some. }
  unfold save_artifact, new_artifact. cbn [BuildArtifact.DeploymentID artifact_with].
  destruct (negb (uuids_ok _)); [by eapply so_far_some|]. destruct (negb (documents_ok _)); [by eapply so_far_some|].
  destruct (select _ _) as [|old l] eqn:El.
  - destruct (negb _); [by eapply so_far_some|]. destruct (_ =? 0); [by eapply so_far_some|].
    wp_step. split; [exact H2|]. eexists. split; [apply elem_of_app; right; by apply list_elem_of_singleton|]. done.
  - wp_step. split; [exact H2|].
    assert (old ∈ select (artifact_of (BuildArtifact.DeploymentID art)) (saved_artifacts s2)) as [Hold Hin]%elem_of_select
      by (rewrite El; by left).
    eexists. split; [apply elem_of_update_where; exists old; by rewrite Hold|].
    cbn. unfold artifact_of in Hold. apply String.eqb_eq in Hold. split; [congruence|done].
Qed.

(** What is asked of the change to built. *)
Definition vouches x (tag : string) : Prop :=
  imaged x = true
  ∧ ∃ proj cl, tag = image_name proj cl
      ∧ (ecr_Enabled (ECR cfg) = true →
         ∀ t, t ∈ remote_tags cfg p cl → FullImageRef (ECR cfg) (repository_of cfg p proj) t ∈ pushed x).

Lemma vouches_row x res now d :
  vouches x (built_ImageTag res) → is_deployment (OrgID p) (DeploymentID p) d = true → vouched x (built_with res now d).
Proof. intros (Hx & proj & cl & Htag & Hrefs) Hd. split; [done|]. split; [done|]. by exists proj, cl. Qed.

Lemma built_wp x res s :
  vouches x (built_ImageTag res) → seen (recorded_as x (built_ImageTag res)) s →
  wp (changed (λ ev now, UpdateBuildComplete ev (OrgID p) (DeploymentID p) res now))
    (λ _, seen (complete x)) (λ _, seen (at_some vouched)) s.
Proof.
  intros Hv Hs. pose proof (recorded_as_idle x (built_ImageTag res)) as HP.
  assert (∀ t r a, recorded_as x (built_ImageTag res) t r a → at_some vouched t r a) as Hweak.
  { intros t r a [H _]. by eapply so_far_some. }
  unfold changed. wp_step.
  eapply wp_mono; [eapply wp_preserves, Hs; apply (preserves_fresh_uuid _ _ HP)| |intros ? ?; apply Hweak].
  cbn beta. intros ev s1 H1. wp_step.
  eapply wp_mono; [eapply wp_preserves, H1; apply (preserves_read_time _ _ HP)| |intros ? ?; apply Hweak].
  cbn beta. intros now s2 [[Ht Hr] Ha].
  set (P := λ t r a, at_stage x (vouched x) t r a ∧ ∃ art, art ∈ a ∧ BuildArtifact.DeploymentID art = DeploymentID p
    ∧ BuildArtifact.ImageTag art = built_ImageTag res).
  assert (seen P s2) as H2.
  { split; [|done]. split; [done|]. intros d Hd Hb. by destruct (Hr d Hd Hb); [left|]. }
  unfold UpdateBuildComplete. eapply wp_mono; [apply (wp_and _ (λ _, seen P) (λ _ s', ∃ d,
    is_deployment (OrgID p) (DeploymentID p) d = true ∧ built_with res now d ∈ deployments (tables s')) (λ _, seen P) (λ _ _, True))|..].
  - apply (wp_preserves (seen P)); [|done]. apply still_change_rows. intros t r a [[Ht' Hr'] Ha']. split; [|done].
    split; [done|]. intros d' (d & Hd & ->)%elem_of_update_where Hb.
    destruct (is_deployment _ _ d && _) eqn:E; [|by apply Hr']. right.
    apply andb_true_iff in E as [E _]. by apply vouches_row.
  - apply wp_zoom. eapply wp_mono; [apply change_row|naive_solver|done].
  - cbn beta. intros _ s3 [[Hst (art & Hart & Hdep & Htag)] (d & Hd & Hin)]. split; [done|].
    exists (built_with res now d). split; [exact Hin|]. split; [done|]. split; [by apply vouches_row|]. by exists art.
  - cbn beta. intros e s3 [[Hst _] _]. by exists x.
Qed.

Lemma complete_late x c t r a : idle_call true c → complete x t r a → complete x (t ++ [c]) r a.
Proof. intros Hc [Ht Hd]. split; [|done]. eapply (at_stage_idle x); [|done]. destruct c; cbn in *; naive_solver. Qed.

Lemma complete_some x t r a : complete x t r a → at_some vouched t r a.
Proof. intros [Ht _]. by exists x. Qed.

Lemma complete_build_wp start a cl fw df img pushed refs s :
  push_Registry pushed = (if ecr_Enabled (ECR cfg) then registry (ECR cfg) else "local") →
  refs = refs_of (repository_of cfg p (a_proj a)) (remote_tags cfg p cl) →
  seen (so_far (after_build true refs)) s →
  wp (complete_build cfg p start a cl fw df img pushed)
    (λ _, seen (complete (after_build true refs))) (λ _, seen (at_some vouched)) s.
Proof.
  intros Hreg Href Hs. set (x := after_build true refs) in *.
  pose proof (so_far_idle x) as HP. pose proof (complete_late x) as HC. unfold complete_build. wp_step.
  eapply wp_mono; [eapply wp_so_far, Hs; apply (still_emit _ _ HP)| |done]. cbn beta. intros _ s1 H1. wp_step.
  eapply wp_mono; [eapply wp_so_far, H1; apply (still_note _ _ HP)| |done]. cbn beta. intros _ s2 H2. wp_step.
  eapply wp_mono; [eapply wp_so_far, H2; apply (still_sbom _ HP)| |done]. cbn beta. intros sbom s3 H3. wp_step.
  eapply wp_mono; [eapply wp_so_far, H3; apply (preserves_read_time _ _ HP)| |done]. cbn beta. intros now s4 H4.
  set (tag := image_tag cfg p (a_proj a) cl pushed).
  wp_step. apply wp_or_fail_build. eapply wp_mono; [by apply (Save_wp x)| |done]. cbn beta. intros _ s5 H5. wp_step.
  eapply wp_mono; [apply (built_wp x)| |done]; [|exact H5|].
  { split; [done|]. exists (a_proj a), cl. cbn [built_ImageTag build_result]. split; [unfold tag, image_tag, image_name; by rewrite Hreg|].
    intros Hen t Ht. cbn [BuildRun.pushed after_build x]. rewrite Href. unfold refs_of. rewrite Hen. by apply list_elem_of_fmap_2. }
  cbn beta. intros _ s6 H6. apply (wp_mono _ (λ _, seen (complete x)) _ (λ _, seen (complete x))).
  - eapply wp_preserves, H6. quietly HC.
    + apply (still_mark_build _ _ HC).
    + apply (still_emit _ _ HC).
    + apply (still_note _ _ HC).
  - done.
  - intros e s7. apply complete_some.
Qed.

Lemma build_workspace_wp c start a cl s :
  seen (so_far nothing) s →
  wp (build_workspace cfg c p start a cl) (λ _ s', ∃ x, seen (complete x) s') (λ _, seen (at_some vouched)) s.
Proof.
  intros Hs. unfold build_workspace. wp_step.
  eapply wp_mono; [eapply (wp_so_far nothing), Hs| |done].
  { apply (still_dockerfile_stage _ so_far_early), so_far_failed. }
  cbn beta. intros [fw df] s1 H1. wp_step. eapply wp_mono; [by apply image_stage_wp| |done].
  cbn beta. intros img s2 H2. wp_step. apply wp_or_fail_build. eapply wp_mono; [by apply Push_wp| |done].
  cbn beta. intros pushed s3 [Hreg H3]. eapply wp_mono; [eapply complete_build_wp, H3; done| |done].
  cbn beta. intros _ s4 H4. by eexists.
Qed.

(** What a finished or a failed build keeps. *)
Lemma kept_by {A} (m : db (builddb W) A) :
  (∀ P (HP : ∀ c t r a, idle_call true c → P t r a → P (t ++ [c]) r a), preserves (seen P) m) →
  preserves (λ s, ∃ x, seen (complete x) s) m ∧ preserves (seen (at_some vouched)) m.
Proof.
  intros Hm. split; [|apply Hm, at_some_idle].
  intros s fs [x Hx]. exists x. by apply (Hm (complete x) (complete_late x)).
Qed.

Lemma run_job_wp c jobID start s :
  seen (so_far nothing) s →
  wp (run_job cfg workerID c p jobID start) (λ _ s', ∃ x, seen (complete x) s') (λ _, seen (at_some vouched)) s.
Proof.
  intros Hs. unfold run_job. wp_step.
  eapply wp_mono; [eapply (wp_so_far nothing), Hs; apply (still_admit _ _ so_far_early)| |done].
  cbn beta. intros a s1 H1. wp_step. eapply wp_mono; [eapply (wp_so_far nothing), H1| |done].
  { apply (still_begin workerID _ _ so_far_early). intros *. apply at_stage_minds_not, building_unbuilt. }
  cbn beta. intros _ s2 H2. wp_step. eapply wp_mono; [eapply (wp_so_far nothing), H2| |done].
  { apply (still_clone_stage _ _ so_far_early), so_far_failed. }
  cbn beta. intros cl s3 H3.
  destruct (kept_by (Cleanup cfg (cl_WorkspaceDir cl)) (λ P HP, still_Cleanup cfg P HP _)) as [Hc Hf].
  apply wp_finally; [done..|]. by apply build_workspace_wp.
Qed.

Lemma Run_wp parent jobID s :
  seen (so_far nothing) s →
  wp (Run cfg workerID parent p jobID) (λ _ s', ∃ x, seen (complete x) s') (λ _, seen (at_some vouched)) s.
Proof.
  intros Hs. pose proof so_far_early as HP. unfold Run. wp_step.
  eapply wp_mono; [eapply (wp_so_far nothing), Hs; apply (preserves_read_time _ _ HP)| |done].
  cbn beta. intros start s1 H1. wp_step.
  eapply wp_mono; [eapply (wp_so_far nothing), H1; by apply (preserves_request _ _ HP)| |done].
  cbn beta. intros c s2 H2. wp_step.
  eapply wp_mono; [eapply (wp_so_far nothing), H2| |done].
  { intros s0 fs Hx. unfold tables_of, Register. by destruct (cancels s0 !! _). }
  cbn beta. intros _ s3 H3.
  set (close := (_ ← Unregister _; _)).
  destruct (kept_by close) as [Hc Hf].
  { intros P HPi. unfold close. apply preserves_bind; [by intros s0 fs|]. intros _. by apply (preserves_request _ _ HPi). }
  apply wp_finally; [done..|]. by apply run_job_wp.
Qed.
End refinement.

