(* ===== verification/BuildSim.v ===== *)
(** * A simulated build host

    Files in memory, programs that answer by their command line, and a clock
    that stands still.  Whole builds are evaluated on it; it obeys the laws of
    [BuildWorld], so that the theorems on the builder are not empty. *)

From stdpp Require Import pretty.
From S2P Require Import Prelude GoLib Errors Postgres Sql DeployModel Rows Outside ControlPlane.
From S2P Require Import DeploymentRepo DeploymentFacts DeployStore Password BuildModel Detect BuildStore BuildTools.
From S2P Require Import BuildPipeline BuildFacts BuildRun.

(** ** The host *)

Record host := {
  ids : nat;
  disk : gmap string workspace;
  temporary : list string;
  answers : list string → string * option error;
  refused_writes : nat;
}.

Definition with_ids (n : nat) (w : host) : host :=
  {| ids := n; disk := disk w; temporary := temporary w; answers := answers w; refused_writes := refused_writes w |}.
Definition with_disk (d : gmap string workspace) (w : host) : host :=
  {| ids := ids w; disk := d; temporary := temporary w; answers := answers w; refused_writes := refused_writes w |}.
Definition with_temporary (l : list string) (w : host) : host :=
  {| ids := ids w; disk := disk w; temporary := l; answers := answers w; refused_writes := refused_writes w |}.

#[export] Instance host_world : BuildWorld host := {|
  build_clock := {| now_of := λ _, 0; new_uuid := λ w, ("id" +:+ pretty (ids w), with_ids (S (ids w)) w) |};
  open_context := λ parent w, (parent, w);
  close_context := λ _ w, w;
  context_error := λ _ _, None;
  run_program := λ _ _ _ argv w, (answers w argv, w);
  stream_program := λ _ _ argv w, (Finished ["#1 CACHED"] (answers w argv).2, w);
  remove_all := λ dir w, (None, w);
  make_dir := λ dir w, (None, w);
  create_temp := λ pattern w,
    let f := pattern +:+ pretty (ids w) in (Ok f, with_temporary (f :: temporary w) (with_ids (S (ids w)) w));
  write_temp := λ _ _ w, (if (refused_writes w <? ids w)%nat then Some (Plain "disk full") else None, w);
  make_private := λ _ w, (None, w);
  remove_file := λ f w, with_temporary (filter (λ x, x ≠ f) (temporary w)) w;
  files_in := λ dir w, default ∅ (disk w !! dir);
  write_in := λ dir name data w, (None, with_disk (<[dir := <[name := File data]> (default ∅ (disk w !! dir))]> (disk w)) w);
|}.

#[export] Instance host_laws : BuildWorldLaws host.
Proof. constructor. intros dir name data w w' [= <-]. cbn. by rewrite lookup_insert_eq. Qed.

#[local] Existing Instance strict_driver.
#[local] Existing Instance insertion_sorter.
#[local] Existing Instance strict_mapping.
#[local] Instance text_jsonb : Jsonb := {| json_object := λ _, "{}"; jsonb_merge := λ _ b, b |}.
#[local] Instance brace_documents : Documents :=
  {| json_list := λ _, "[]"; json_valid := λ s, HasPrefix s "{"; package_names := λ _, None |}.

(** A cipher that appends the data it authenticates. *)
#[local] Instance plain_aead : Aead := {|
  Seal := λ _ plain data, data +:+ "|" +:+ plain;
  Open := λ _ sealed data, if HasPrefix sealed (data +:+ "|") then Some (TrimPrefix sealed (data +:+ "|")) else None;
|}.

(** ** A job *)

Definition commit : string := "4f2a9c0b1d3e5f60718293a4b5c6d7e8f9012345".

(** Every program succeeds, except for [syft], which is not installed. *)
Definition healthy (argv : list string) : string * option error :=
  match argv with
  | "syft" :: _ => ("", Some (Plain "executable file not found"))
  | _ => ("{}", None)
  end.

Definition with_registry (enabled : bool) : BuilderConfig :=
  {| WorkspaceDir := "/work"; BuildKitAddr := ""; DockerCLI := "";
     ECR := {| ecr_Enabled := enabled; ecr_Region := "eu-west-1"; ecr_Registry := "registry"; RepositoryPrefix := "" |};
     Cache := {| cache_Enabled := false; RegistryRef := ""; InlineCache := false |};
     TagLatest := false; BuilderVersion := "1" |}.

Definition some_repository : GitRepository :=
  GitRepository.mk "g1" "p" "o" ProviderGitHub "https://github.com/o/app" "" "main" false "" "" "" None 0 0 None.

Definition some_variable : Variable_ := Variable_.mk "v1" "o" "p" "PORT" "sealed" "production" false 1 "u" 0 0 None.

(** A deployment with its project and repository. *)
Definition queued (w : host) (vars : list Variable_) : builddb host :=
  mkBuildDb (tables_of (Create "d1" "e1" some_deployment 10 (empty_db w, []))) [] [] [] [] [some_repository] vars ∅ [].

Definition go_host (answers : list string → string * option error) : host :=
  {| ids := 0; disk := {[ "/work/d1" := {[ "go.mod" := File "module app" ]} ]}; temporary := [];
     answers := answers; refused_writes := 100 |}.

Definition job : Payload :=
  {| OrgID := "o"; ProjectID := "p"; DeploymentID := "d1"; DomainID := ""; UserID := ""; CorrelationID := "";
     Metadata := "" |}.

Definition build (enabled : bool) (answers : list string → string * option error) (vars : list Variable_)
    : result error unit * (builddb host * faults) :=
  Run (with_registry enabled) "w1" 0%nat job "j1" (queued (go_host answers) vars, []).

Definition outcome (r : result error unit * (builddb host * faults)) : option string * list (string * string) :=
  (match r.1 with Ok _ => None | Err e => Some (ErrorString e) end,
   (λ d, (Deployment.Status d, Deployment.ImageTag d)) <$> deployments (tables r.2.1)).

Definition programs_run (r : result error unit * (builddb host * faults)) : list (list string) :=
  omap (λ c, match c with CRun argv _ | CStream argv _ => Some (take 2 argv) | _ => None end) (calls r.2.1).

(** A build with a registry: the deployment is built, under the reference of its
    first tag, once every tag is pushed. *)
Example builds_and_pushes :
  outcome (build true healthy []) = (None, [(StatusBuilt, "registry/agnivo/o/app:c0ffee")])
  ∧ programs_run (build true healthy []) =
      [["git"; "clone"]; ["git"; "-C"]; ["git"; "-C"]; ["docker"; "buildx"]; ["docker"; "inspect"]; ["aws"; "ecr"];
       ["docker"; "login"]; ["aws"; "ecr"];
       ["docker"; "tag"]; ["docker"; "push"]; ["docker"; "tag"]; ["docker"; "push"]; ["docker"; "tag"]; ["docker"; "push"];
       ["docker"; "inspect"]; ["syft"; "agnivo-build:d1"]; ["docker"; "sbom"]].
Proof. vm_compute. split; reflexivity. Qed.

(** Without a registry the deployment's image is a bare tag: no image has that
    name. *)
Example local_image_is_a_tag :
  outcome (build false healthy []) = (None, [(StatusBuilt, "c0ffee")]).
Proof. vm_compute. reflexivity. Qed.

(** [docker sbom] prints a table: the artifact's column refuses it. *)
Definition prints_table (argv : list string) : string * option error :=
  match argv with
  | ["docker"; "sbom"; _] => ("NAME VERSION TYPE", None)
  | _ => healthy argv
  end.

Example sbom_table_fails_build :
  outcome (build false prints_table []) = (Some "failed_precondition: artifact persistence failed", [(StatusFailed, "app:1")]).
Proof. vm_compute. reflexivity. Qed.

(** A variable of the environment stops the build. *)
Example variable_fails_build :
  outcome (build false healthy [some_variable]) = (Some "failed_precondition: load build environment failed", [(StatusFailed, "app:1")]).
Proof. vm_compute. reflexivity. Qed.

(** A failing push leaves the deployment failed, with an image but nothing built. *)
Definition push_denied (argv : list string) : string * option error :=
  match argv with
  | [_; "push"; _] => ("denied", Some (Plain "exit status 1"))
  | _ => healthy argv
  end.

Example push_failure_fails_build : (outcome (build true push_denied [])).2 = [(StatusFailed, "app:1")].
Proof. vm_compute. reflexivity. Qed.

(** Secrets that cannot be written stay on the disk. *)
Example unwritten_secret_stays :
  let w := {| ids := 0; disk := ∅; temporary := []; answers := healthy; refused_writes := 0 |} in
  let '(r, (s, _)) := write_secrets [("TOKEN", "s3cret")] [] (queued w [], []) in
  is_ok r = false ∧ temporary (world s) = ["agnivo-build-secret-*0"].
Proof. vm_compute. split; reflexivity. Qed.

(** ** Witnesses *)

Lemma Generate_once_witness :
  BuildWorldLaws host ∧
  wp (Generate "/work/d1" (framework "go" "go1.22" "go.mod"))
    (λ g s', holds_file "/work/d1" g s' ∧ gen_Generated g = true
       ∧ ∀ fw', wp (Generate "/work/d1" fw')
           (λ g' s'', s'' = s' ∧ gen_Content g' = gen_Content g ∧ gen_Version g' = "custom" ∧ gen_Path g' = gen_Path g)
           (λ _ _, False) s')
    (λ _ _, True) (queued (go_host healthy) []).
Proof.
  split; [exact host_laws|].
  exact (Generate_once "/work/d1" (framework "go" "go1.22" "go.mod") (queued (go_host healthy) [])).
Defined.
