(* ===== verification/IdentityModel.v ===== *)
(** * Identity: data

    The rows of packages/application/identity with the tables of schema.go, what
    the identity services draw from outside (clock, identifiers, random texts,
    the rate limiter) and their state.  A JSON document is its text.  Redis holds
    only the revoked sessions, with the time each entry lives until; its commands
    fail like statements do.  Identifiers are valid UUID texts or empty. *)

From Stdlib Require Import Ascii.
From S2P Require Import Prelude GoLib Errors Postgres Sql Rbac DeployModel Rows ControlPlane.

(** ** Rows *)

Module User.
Definition StatusPending : string := "pending".
Definition StatusActive : string := "active".
Definition StatusSuspended : string := "suspended".
Definition StatusDeleted : string := "deleted".

Record t := mk {
  ID : string; Email : string; EmailVerifiedAt : option Time; PasswordHash : string; DisplayName : string;
  AvatarURL : string; Timezone : string; Locale : string; Preferences : string; Status : string;
  Metadata : string; LastLoginAt : option Time; LastActiveAt : option Time; CreatedAt : Time;
  UpdatedAt : Time; DeletedAt : option Time;
}.

Definition set_PasswordHash (x : string) (r : t) : t := mk (ID r) (Email r) (EmailVerifiedAt r) x
  (DisplayName r) (AvatarURL r) (Timezone r) (Locale r) (Preferences r) (Status r) (Metadata r) (LastLoginAt r)
  (LastActiveAt r) (CreatedAt r) (UpdatedAt r) (DeletedAt r).
Definition set_Status (x : string) (r : t) : t := mk (ID r) (Email r) (EmailVerifiedAt r) (PasswordHash r)
  (DisplayName r) (AvatarURL r) (Timezone r) (Locale r) (Preferences r) x (Metadata r) (LastLoginAt r)
  (LastActiveAt r) (CreatedAt r) (UpdatedAt r) (DeletedAt r).
Definition set_EmailVerifiedAt (x : option Time) (r : t) : t := mk (ID r) (Email r) x (PasswordHash r)
  (DisplayName r) (AvatarURL r) (Timezone r) (Locale r) (Preferences r) (Status r) (Metadata r) (LastLoginAt r)
  (LastActiveAt r) (CreatedAt r) (UpdatedAt r) (DeletedAt r).
Definition set_DisplayName (x : string) (r : t) : t := mk (ID r) (Email r) (EmailVerifiedAt r) (PasswordHash r)
  x (AvatarURL r) (Timezone r) (Locale r) (Preferences r) (Status r) (Metadata r) (LastLoginAt r)
  (LastActiveAt r) (CreatedAt r) (UpdatedAt r) (DeletedAt r).
Definition set_AvatarURL (x : string) (r : t) : t := mk (ID r) (Email r) (EmailVerifiedAt r) (PasswordHash r)
  (DisplayName r) x (Timezone r) (Locale r) (Preferences r) (Status r) (Metadata r) (LastLoginAt r)
  (LastActiveAt r) (CreatedAt r) (UpdatedAt r) (DeletedAt r).
Definition set_Timezone (x : string) (r : t) : t := mk (ID r) (Email r) (EmailVerifiedAt r) (PasswordHash r)
  (DisplayName r) (AvatarURL r) x (Locale r) (Preferences r) (Status r) (Metadata r) (LastLoginAt r)
  (LastActiveAt r) (CreatedAt r) (UpdatedAt r) (DeletedAt r).
Definition set_Locale (x : string) (r : t) : t := mk (ID r) (Email r) (EmailVerifiedAt r) (PasswordHash r)
  (DisplayName r) (AvatarURL r) (Timezone r) x (Preferences r) (Status r) (Metadata r) (LastLoginAt r)
  (LastActiveAt r) (CreatedAt r) (UpdatedAt r) (DeletedAt r).
Definition set_Preferences (x : string) (r : t) : t := mk (ID r) (Email r) (EmailVerifiedAt r) (PasswordHash r)
  (DisplayName r) (AvatarURL r) (Timezone r) (Locale r) x (Status r) (Metadata r) (LastLoginAt r)
  (LastActiveAt r) (CreatedAt r) (UpdatedAt r) (DeletedAt r).
Definition set_LastLoginAt (x : option Time) (r : t) : t := mk (ID r) (Email r) (EmailVerifiedAt r)
  (PasswordHash r) (DisplayName r) (AvatarURL r) (Timezone r) (Locale r) (Preferences r) (Status r) (Metadata r)
  x (LastActiveAt r) (CreatedAt r) (UpdatedAt r) (DeletedAt r).
Definition set_LastActiveAt (x : option Time) (r : t) : t := mk (ID r) (Email r) (EmailVerifiedAt r)
  (PasswordHash r) (DisplayName r) (AvatarURL r) (Timezone r) (Locale r) (Preferences r) (Status r) (Metadata r)
  (LastLoginAt r) x (CreatedAt r) (UpdatedAt r) (DeletedAt r).
Definition set_UpdatedAt (x : Time) (r : t) : t := mk (ID r) (Email r) (EmailVerifiedAt r) (PasswordHash r)
  (DisplayName r) (AvatarURL r) (Timezone r) (Locale r) (Preferences r) (Status r) (Metadata r) (LastLoginAt r)
  (LastActiveAt r) (CreatedAt r) x (DeletedAt r).
Definition set_DeletedAt (x : option Time) (r : t) : t := mk (ID r) (Email r) (EmailVerifiedAt r)
  (PasswordHash r) (DisplayName r) (AvatarURL r) (Timezone r) (Locale r) (Preferences r) (Status r) (Metadata r)
  (LastLoginAt r) (LastActiveAt r) (CreatedAt r) (UpdatedAt r) x.

Definition kept (u : t) : bool := match DeletedAt u with None => true | Some _ => false end.
Definition IsActive (u : t) : bool := (Status u =s? StatusActive) && kept u.
Definition CanLogin (u : t) : bool := ((Status u =s? StatusActive) || (Status u =s? StatusPending)) && kept u.
End User.
Abbreviation User := User.t.

(** A row of identity_email_tokens or identity_password_reset_tokens. *)
Module UserToken.
Record t := mk {
  ID : string; UserID : string; TokenHash : string; ExpiresAt : Time; UsedAt : option Time; CreatedAt : Time;
}.

Definition set_UsedAt (x : option Time) (r : t) : t := mk (ID r) (UserID r) (TokenHash r) (ExpiresAt r) x
  (CreatedAt r).
End UserToken.
Abbreviation UserToken := UserToken.t.

Module Organization.
Record t := mk {
  ID : string; Name : string; Slug : string; AvatarURL : string; PlanTier : string;
  BillingOwnerID : option string; Settings : string; Metadata : string; Limits : string;
  CreatedAt : Time; UpdatedAt : Time; DeletedAt : option Time;
}.

Definition set_Name (x : string) (r : t) : t := mk (ID r) x (Slug r) (AvatarURL r) (PlanTier r)
  (BillingOwnerID r) (Settings r) (Metadata r) (Limits r) (CreatedAt r) (UpdatedAt r) (DeletedAt r).
Definition set_AvatarURL (x : string) (r : t) : t := mk (ID r) (Name r) (Slug r) x (PlanTier r)
  (BillingOwnerID r) (Settings r) (Metadata r) (Limits r) (CreatedAt r) (UpdatedAt r) (DeletedAt r).
Definition set_Settings (x : string) (r : t) : t := mk (ID r) (Name r) (Slug r) (AvatarURL r) (PlanTier r)
  (BillingOwnerID r) x (Metadata r) (Limits r) (CreatedAt r) (UpdatedAt r) (DeletedAt r).
Definition set_Metadata (x : string) (r : t) : t := mk (ID r) (Name r) (Slug r) (AvatarURL r) (PlanTier r)
  (BillingOwnerID r) (Settings r) x (Limits r) (CreatedAt r) (UpdatedAt r) (DeletedAt r).
Definition set_Limits (x : string) (r : t) : t := mk (ID r) (Name r) (Slug r) (AvatarURL r) (PlanTier r)
  (BillingOwnerID r) (Settings r) (Metadata r) x (CreatedAt r) (UpdatedAt r) (DeletedAt r).
Definition set_UpdatedAt (x : Time) (r : t) : t := mk (ID r) (Name r) (Slug r) (AvatarURL r) (PlanTier r)
  (BillingOwnerID r) (Settings r) (Metadata r) (Limits r) (CreatedAt r) x (DeletedAt r).
Definition set_DeletedAt (x : option Time) (r : t) : t := mk (ID r) (Name r) (Slug r) (AvatarURL r) (PlanTier r)
  (BillingOwnerID r) (Settings r) (Metadata r) (Limits r) (CreatedAt r) (UpdatedAt r) x.
Definition kept (o : t) : bool := match DeletedAt o with None => true | Some _ => false end.
End Organization.
Abbreviation Organization := Organization.t.

Module Member.
Definition StatusActive : string := "active".
Definition StatusInvited : string := "invited".
Definition StatusRemoved : string := "removed".

Record t := mk {
  ID : string; OrgID : string; UserID : string; Role : string; Status : string; InvitedBy : option string;
  InvitedAt : option Time; JoinedAt : option Time; CreatedAt : Time; UpdatedAt : Time;
}.

Definition set_Role (x : string) (r : t) : t := mk (ID r) (OrgID r) (UserID r) x (Status r) (InvitedBy r)
  (InvitedAt r) (JoinedAt r) (CreatedAt r) (UpdatedAt r).
Definition set_Status (x : string) (r : t) : t := mk (ID r) (OrgID r) (UserID r) (Role r) x (InvitedBy r)
  (InvitedAt r) (JoinedAt r) (CreatedAt r) (UpdatedAt r).
Definition set_UpdatedAt (x : Time) (r : t) : t := mk (ID r) (OrgID r) (UserID r) (Role r) (Status r)
  (InvitedBy r) (InvitedAt r) (JoinedAt r) (CreatedAt r) x.
End Member.
Abbreviation Member := Member.t.

Module Invitation.
Record t := mk {
  ID : string; OrgID : string; Email : string; Role : string; TokenHash : string; InvitedBy : string;
  ExpiresAt : Time; AcceptedAt : option Time; RejectedAt : option Time; CreatedAt : Time;
}.

Definition set_AcceptedAt (x : option Time) (r : t) : t := mk (ID r) (OrgID r) (Email r) (Role r) (TokenHash r)
  (InvitedBy r) (ExpiresAt r) x (RejectedAt r) (CreatedAt r).
Definition set_RejectedAt (x : option Time) (r : t) : t := mk (ID r) (OrgID r) (Email r) (Role r) (TokenHash r)
  (InvitedBy r) (ExpiresAt r) (AcceptedAt r) x (CreatedAt r).
End Invitation.
Abbreviation Invitation := Invitation.t.

Module Session.
Definition DeviceBrowser : string := "browser".
Definition DeviceCLI : string := "cli".
Definition DeviceAPI : string := "api".

Record t := mk {
  ID : string; UserID : string; OrgID : option string; RefreshTokenHash : string; DeviceName : string;
  DeviceType : string; IPAddress : string; UserAgent : string; RememberMe : bool; ExpiresAt : Time;
  RevokedAt : option Time; LastUsedAt : option Time; CreatedAt : Time;
}.

Definition set_RefreshTokenHash (x : string) (r : t) : t := mk (ID r) (UserID r) (OrgID r) x (DeviceName r)
  (DeviceType r) (IPAddress r) (UserAgent r) (RememberMe r) (ExpiresAt r) (RevokedAt r) (LastUsedAt r)
  (CreatedAt r).
Definition set_LastUsedAt (x : option Time) (r : t) : t := mk (ID r) (UserID r) (OrgID r) (RefreshTokenHash r)
  (DeviceName r) (DeviceType r) (IPAddress r) (UserAgent r) (RememberMe r) (ExpiresAt r) (RevokedAt r) x
  (CreatedAt r).
Definition set_RevokedAt (x : option Time) (r : t) : t := mk (ID r) (UserID r) (OrgID r) (RefreshTokenHash r)
  (DeviceName r) (DeviceType r) (IPAddress r) (UserAgent r) (RememberMe r) (ExpiresAt r) x (LastUsedAt r)
  (CreatedAt r).
End Session.
Abbreviation Session := Session.t.

Module APIKey.
Record t := mk {
  ID : string; OrgID : string; Name : string; Prefix : string; KeyHash : string; Scopes : list string;
  ExpiresAt : option Time; DisabledAt : option Time; LastUsedAt : option Time; LastUsedIP : string;
  CreatedBy : string; CreatedAt : Time; UpdatedAt : Time;
}.

Definition set_KeyHash (x : string) (r : t) : t := mk (ID r) (OrgID r) (Name r) (Prefix r) x (Scopes r)
  (ExpiresAt r) (DisabledAt r) (LastUsedAt r) (LastUsedIP r) (CreatedBy r) (CreatedAt r) (UpdatedAt r).
Definition set_DisabledAt (x : option Time) (r : t) : t := mk (ID r) (OrgID r) (Name r) (Prefix r) (KeyHash r)
  (Scopes r) (ExpiresAt r) x (LastUsedAt r) (LastUsedIP r) (CreatedBy r) (CreatedAt r) (UpdatedAt r).
Definition set_LastUsedAt (x : option Time) (r : t) : t := mk (ID r) (OrgID r) (Name r) (Prefix r) (KeyHash r)
  (Scopes r) (ExpiresAt r) (DisabledAt r) x (LastUsedIP r) (CreatedBy r) (CreatedAt r) (UpdatedAt r).
Definition set_LastUsedIP (x : string) (r : t) : t := mk (ID r) (OrgID r) (Name r) (Prefix r) (KeyHash r)
  (Scopes r) (ExpiresAt r) (DisabledAt r) (LastUsedAt r) x (CreatedBy r) (CreatedAt r) (UpdatedAt r).
Definition set_UpdatedAt (x : Time) (r : t) : t := mk (ID r) (OrgID r) (Name r) (Prefix r) (KeyHash r)
  (Scopes r) (ExpiresAt r) (DisabledAt r) (LastUsedAt r) (LastUsedIP r) (CreatedBy r) (CreatedAt r) x.
End APIKey.
Abbreviation APIKey := APIKey.t.

(** A personal access token. *)
Module Token.
Record t := mk {
  ID : string; UserID : string; OrgID : option string; Name : string; Prefix : string; TokenHash : string;
  Scopes : list string; ExpiresAt : option Time; RevokedAt : option Time; LastUsedAt : option Time;
  Metadata : string; CreatedAt : Time; UpdatedAt : Time;
}.

Definition set_TokenHash (x : string) (r : t) : t := mk (ID r) (UserID r) (OrgID r) (Name r) (Prefix r) x
  (Scopes r) (ExpiresAt r) (RevokedAt r) (LastUsedAt r) (Metadata r) (CreatedAt r) (UpdatedAt r).
Definition set_RevokedAt (x : option Time) (r : t) : t := mk (ID r) (UserID r) (OrgID r) (Name r) (Prefix r)
  (TokenHash r) (Scopes r) (ExpiresAt r) x (LastUsedAt r) (Metadata r) (CreatedAt r) (UpdatedAt r).
Definition set_LastUsedAt (x : option Time) (r : t) : t := mk (ID r) (UserID r) (OrgID r) (Name r) (Prefix r)
  (TokenHash r) (Scopes r) (ExpiresAt r) (RevokedAt r) x (Metadata r) (CreatedAt r) (UpdatedAt r).
Definition set_UpdatedAt (x : Time) (r : t) : t := mk (ID r) (UserID r) (OrgID r) (Name r) (Prefix r)
  (TokenHash r) (Scopes r) (ExpiresAt r) (RevokedAt r) (LastUsedAt r) (Metadata r) (CreatedAt r) x.
End Token.
Abbreviation Token := Token.t.

(** ** The world outside

    [idx.Token] and [idx.Hex] of a number of bytes, salts of [crypto/rand], and
    the answer of the rate limiter ([Err] when Redis fails). *)
Class IdentityWorld (W : Type) := {
  identity_environment :: Environment W;
  random_token : Z → W → string * W;
  random_hex : Z → W → string * W;
  random_salt : Z → W → result error string * W;
  allow_login : string → W → result error bool * W;
}.

(** Time does not go back while random values are drawn. *)
Class IdentityClock (W : Type) `{IW : IdentityWorld W} := {
  identity_clock :: ClockLaws W;
  token_later n w : instant w ≤ instant (random_token n w).2;
  hex_later n w : instant w ≤ instant (random_hex n w).2;
}.

(** The server's answer to a statement that compares a UUID column with a
    parameter it has typed as text ([id <> $2] after [$2 = '']): [None] if it
    runs the statement.  Postgres has no such operator and reports 42883. *)
Class ServerTyping := { uuid_against_text : option error }.

Definition postgres_typing : ServerTyping :=
  {| uuid_against_text := Some (PgError "42883" "operator does not exist: uuid <> text") |}.

(** ** The state *)

Record iddb (W : Type) := mkId {
  id_world : W;
  users : list User;
  email_tokens : list UserToken;
  reset_tokens : list UserToken;
  orgs : list Organization;
  members : list Member;
  invitations : list Invitation;
  sessions : list Session;
  api_keys : list APIKey;
  pats : list Token;
  id_audit : list Entry;
  revoked : gmap string Time;
}.
Arguments mkId {W}.
Arguments id_world {W}.
Arguments users {W}.
Arguments email_tokens {W}.
Arguments reset_tokens {W}.
Arguments orgs {W}.
Arguments members {W}.
Arguments invitations {W}.
Arguments sessions {W}.
Arguments api_keys {W}.
Arguments pats {W}.
Arguments id_audit {W}.
Arguments revoked {W}.

Section lenses.
Context {W : Type}.
Implicit Types (s : iddb W).

Definition set_id_world (x : W) s : iddb W :=
  mkId x (users s) (email_tokens s) (reset_tokens s) (orgs s) (members s) (invitations s) (sessions s)
    (api_keys s) (pats s) (id_audit s) (revoked s).

Definition set_users (x : list User) s : iddb W :=
  mkId (id_world s) x (email_tokens s) (reset_tokens s) (orgs s) (members s) (invitations s) (sessions s)
    (api_keys s) (pats s) (id_audit s) (revoked s).

Definition set_email_tokens (x : list UserToken) s : iddb W :=
  mkId (id_world s) (users s) x (reset_tokens s) (orgs s) (members s) (invitations s) (sessions s) (api_keys
    s) (pats s) (id_audit s) (revoked s).

Definition set_reset_tokens (x : list UserToken) s : iddb W :=
  mkId (id_world s) (users s) (email_tokens s) x (orgs s) (members s) (invitations s) (sessions s) (api_keys
    s) (pats s) (id_audit s) (revoked s).

Definition set_orgs (x : list Organization) s : iddb W :=
  mkId (id_world s) (users s) (email_tokens s) (reset_tokens s) x (members s) (invitations s) (sessions s)
    (api_keys s) (pats s) (id_audit s) (revoked s).

Definition set_members (x : list Member) s : iddb W :=
  mkId (id_world s) (users s) (email_tokens s) (reset_tokens s) (orgs s) x (invitations s) (sessions s)
    (api_keys s) (pats s) (id_audit s) (revoked s).

Definition set_invitations (x : list Invitation) s : iddb W :=
  mkId (id_world s) (users s) (email_tokens s) (reset_tokens s) (orgs s) (members s) x (sessions s)
    (api_keys s) (pats s) (id_audit s) (revoked s).

Definition set_sessions (x : list Session) s : iddb W :=
  mkId (id_world s) (users s) (email_tokens s) (reset_tokens s) (orgs s) (members s) (invitations s) x
    (api_keys s) (pats s) (id_audit s) (revoked s).

Definition set_api_keys (x : list APIKey) s : iddb W :=
  mkId (id_world s) (users s) (email_tokens s) (reset_tokens s) (orgs s) (members s) (invitations s)
    (sessions s) x (pats s) (id_audit s) (revoked s).

Definition set_pats (x : list Token) s : iddb W :=
  mkId (id_world s) (users s) (email_tokens s) (reset_tokens s) (orgs s) (members s) (invitations s)
    (sessions s) (api_keys s) x (id_audit s) (revoked s).

Definition set_id_audit (x : list Entry) s : iddb W :=
  mkId (id_world s) (users s) (email_tokens s) (reset_tokens s) (orgs s) (members s) (invitations s)
    (sessions s) (api_keys s) (pats s) x (revoked s).

Definition set_revoked (x : gmap string Time) s : iddb W :=
  mkId (id_world s) (users s) (email_tokens s) (reset_tokens s) (orgs s) (members s) (invitations s)
    (sessions s) (api_keys s) (pats s) (id_audit s) x.

Definition id_world_l : Lens (iddb W) W.
Proof. refine {| view := id_world; put := set_id_world |}; by first [intros ? []|intros []]. Defined.
Definition users_l : Lens (iddb W) (list User).
Proof. refine {| view := users; put := set_users |}; by first [intros ? []|intros []]. Defined.
Definition email_tokens_l : Lens (iddb W) (list UserToken).
Proof. refine {| view := email_tokens; put := set_email_tokens |}; by first [intros ? []|intros []]. Defined.
Definition reset_tokens_l : Lens (iddb W) (list UserToken).
Proof. refine {| view := reset_tokens; put := set_reset_tokens |}; by first [intros ? []|intros []]. Defined.
Definition orgs_l : Lens (iddb W) (list Organization).
Proof. refine {| view := orgs; put := set_orgs |}; by first [intros ? []|intros []]. Defined.
Definition members_l : Lens (iddb W) (list Member).
Proof. refine {| view := members; put := set_members |}; by first [intros ? []|intros []]. Defined.
Definition invitations_l : Lens (iddb W) (list Invitation).
Proof. refine {| view := invitations; put := set_invitations |}; by first [intros ? []|intros []]. Defined.
Definition sessions_l : Lens (iddb W) (list Session).
Proof. refine {| view := sessions; put := set_sessions |}; by first [intros ? []|intros []]. Defined.
Definition api_keys_l : Lens (iddb W) (list APIKey).
Proof. refine {| view := api_keys; put := set_api_keys |}; by first [intros ? []|intros []]. Defined.
Definition pats_l : Lens (iddb W) (list Token).
Proof. refine {| view := pats; put := set_pats |}; by first [intros ? []|intros []]. Defined.
Definition id_audit_l : Lens (iddb W) (list Entry).
Proof. refine {| view := id_audit; put := set_id_audit |}; by first [intros ? []|intros []]. Defined.
Definition revoked_l : Lens (iddb W) (gmap string Time).
Proof. refine {| view := revoked; put := set_revoked |}; by first [intros ? []|intros []]. Defined.

Context `{IW : IdentityWorld W}.

Definition now_ : db (iddb W) Time := draw id_world_l read_clock.
Definition new_uuid_ : db (iddb W) string := draw id_world_l fresh_id.

(** A command of Redis. *)
Definition redis_command {A} (f : gmap string Time → A * gmap string Time) : db (iddb W) A :=
  stmt revoked_l (λ _ r, let '(a, r) := f r in (Ok a, r)).
End lenses.

(** * Tokens (packages/application/identity/tokencrypto, identity/jwt, apikey.SplitKey)

    SHA-256 and the JWT library are classes: a digest is any function of the
    text, and the library decides whether a token is well formed, signed with
    RS256 and whose claims it carries ([jwt_verify]); the checks of times are
    those of golang-jwt v5 with a leeway.  Dates in claims are whole seconds. *)

(** ** Opaque tokens (tokencrypto/tokens.go) *)

Class Digest := { sha256_hex : string → string }.

Section tokencrypto.
Context {W : Type} `{IW : IdentityWorld W} `{Dg : Digest}.

Definition Hash (raw : string) : string := sha256_hex raw.

Definition Generate (n : Z) : db (iddb W) (string * string) :=
  raw ← draw id_world_l (random_token n); mret (raw, Hash raw).

Definition APIKeyPrefix : db (iddb W) string :=
  h ← draw id_world_l (random_hex 4); mret ("agn_" +:+ h).

Definition FormatAPIKey (prefix secret : string) : string := prefix +:+ "_" +:+ secret.

Definition ConstantTimeEqual (a b : string) : bool := a =s? b.
End tokencrypto.

(** ** The parts of a key (apikey/service.go) *)

(** [strings.LastIndex] of a text of one byte *)
Fixpoint last_index (s : string) (c : ascii) : option nat :=
  match s with
  | EmptyString => None
  | String a s =>
      match last_index s c with
      | Some n => Some (S n)
      | None => if bool_decide (a = c) then Some O else None
      end
  end.

Definition SplitKey (raw : string) : result error (string * string) :=
  let raw := TrimSpace raw in
  match last_index raw "_" with
  | Some i =>
      if ((i =? 0) || (String.length raw - 1 <=? i))%nat
      then Err (Platform (InvalidArgument "malformed api key"))
      else Ok (take_bytes i raw, drop_bytes (i + 1) raw)
  | None => Err (Platform (InvalidArgument "malformed api key"))
  end.

(** ** Access tokens (jwt/tokens.go) *)

Module Claims.
Record t := mk {
  Issuer : string; Audience : list string; Subject : string; IssuedAt : Z; NotBefore : Z; ExpiresAt : Z;
  ID : string; UserID : string; SessionID : string; OrgID : string;
}.
End Claims.
Abbreviation Claims := Claims.t.

(** Signing and checking a token with the keys of the configuration. *)
Class JwtLibrary := {
  jwt_sign : Claims → result error string;
  jwt_verify : string → result error Claims;
}.

(** What is signed verifies, with its claims. *)
Class JwtLaws `{J : JwtLibrary} : Prop := {
  verify_sign c tok : jwt_sign c = Ok tok → jwt_verify tok = Ok c;
}.

Module JwtConfig.
Record t := mk { Issuer : string; Audience : string; AccessTTL : Duration; ClockSkew : Duration }.
End JwtConfig.

Definition NewManager (c : JwtConfig.t) : JwtConfig.t :=
  JwtConfig.mk (JwtConfig.Issuer c) (JwtConfig.Audience c)
    (if JwtConfig.AccessTTL c <=? 0 then 15 * Minute else JwtConfig.AccessTTL c)
    (if JwtConfig.ClockSkew c <=? 0 then 30 * Second else JwtConfig.ClockSkew c).

(** [jwtlib.NewNumericDate] *)
Definition NumericDate (t : Time) : Z := t / Second.

Section jwt.
Context {W : Type} `{IW : IdentityWorld W} `{J : JwtLibrary} (cfg : JwtConfig.t).

Definition access_claims (now : Time) (jti userID sessionID orgID : string) : Claims :=
  {| Claims.Issuer := JwtConfig.Issuer cfg; Claims.Audience := [JwtConfig.Audience cfg]; Claims.Subject := userID;
     Claims.IssuedAt := NumericDate now; Claims.NotBefore := NumericDate (now - JwtConfig.ClockSkew cfg);
     Claims.ExpiresAt := NumericDate (now + JwtConfig.AccessTTL cfg); Claims.ID := jti;
     Claims.UserID := userID; Claims.SessionID := sessionID; Claims.OrgID := orgID |}.

Definition IssueAccessToken (userID sessionID orgID : string) : db (iddb W) (string * Time) :=
  now ← now_;
  jti ← draw id_world_l (random_hex 16);
  match jwt_sign (access_claims now jti userID sessionID orgID) with
  | Err e => fail (wrap_with CodeInternal "jwt: sign token" e)
  | Ok tok => mret (tok, now + JwtConfig.AccessTTL cfg)
  end.

(** The library's validation of the times of the claims. *)
Definition times_valid (now : Time) (c : Claims) : bool :=
  (now <? Claims.ExpiresAt c * Second + JwtConfig.ClockSkew cfg)
  && (Claims.NotBefore c * Second - JwtConfig.ClockSkew cfg <=? now).

Definition token_expired : error := Plain "token has invalid claims".

Definition validate (now : Time) (tok : string) : result error Claims :=
  match jwt_verify tok with
  | Err e => Err (wrap_with CodeUnauthenticated "invalid access token" e)
  | Ok c =>
      if negb (times_valid now c) then Err (wrap_with CodeUnauthenticated "invalid access token" token_expired)
      else if negb (JwtConfig.Issuer cfg =s? "") && negb (Claims.Issuer c =s? JwtConfig.Issuer cfg)
      then Err (Platform (Unauthenticated "invalid token issuer"))
      else Ok c
  end.

Definition ValidateAccessToken (tok : string) : db (iddb W) Claims :=
  now ← now_; of_result (validate now tok).
End jwt.
