(* ===== verification/Slug.v ===== *)
(** * Slugs (packages/platform/strx)

    The model reads ASCII: letters and digits are those of ASCII, and a rune
    beyond it is taken to be a letter that has no upper case (its bytes count as
    letters), so the theorems are about names of such runes. *)

From Stdlib Require Import Ascii.
From S2P Require Import Prelude GoLib.

Definition alphanumeric (a : ascii) : bool :=
  code_in 65 90 a || code_in 97 122 a || code_in 48 57 a || code_in 128 255 a.

(** The loop of [Slugify]; [empty] says that nothing has been written. *)
Fixpoint slug_loop (prevHyphen empty : bool) (s : string) : string :=
  match s with
  | EmptyString => ""
  | String a s =>
      if alphanumeric a then String a (slug_loop false false s)
      else if negb prevHyphen && negb empty then String "-" (slug_loop true false s)
      else slug_loop prevHyphen empty s
  end.

(** [strings.Trim(s, "-")] *)
Fixpoint trim_hyphens_left (s : string) : string :=
  match s with String a r => if bool_decide (a = "-"%char) then trim_hyphens_left r else s | EmptyString => "" end.

Fixpoint only_hyphens (s : string) : bool :=
  match s with EmptyString => true | String a s => bool_decide (a = "-"%char) && only_hyphens s end.

Fixpoint trim_hyphens_right (s : string) : string :=
  match s with
  | EmptyString => ""
  | String a r => if only_hyphens s then "" else String a (trim_hyphens_right r)
  end.

Definition Slugify (s : string) : string :=
  trim_hyphens_right (trim_hyphens_left (slug_loop false true (ToLower s))).

Definition IsBlank (s : string) : bool := TrimSpace s =s? "".

Fixpoint Coalesce (vals : list string) : string :=
  match vals with [] => "" | v :: vals => if negb (IsBlank v) then v else Coalesce vals end.

(** ** The shape of slugs

    Runs of lower-case letters and digits, with one hyphen between two runs. *)

Definition slug_char (a : ascii) : bool := alphanumeric a && negb (code_in 65 90 a).

(** [expect] is false at the start and after a hyphen: a run must follow. *)
Fixpoint is_slug (expect : bool) (s : string) : bool :=
  match s with
  | EmptyString => expect
  | String a s => if slug_char a then is_slug true s else bool_decide (a = "-"%char) && expect && is_slug false s
  end.

Definition slug (s : string) : bool := (s =s? "") || is_slug false s.

(** ** Lemmas *)

Lemma slug_char_spec a : slug_char a = true → alphanumeric a = true ∧ a ≠ "-"%char ∧ lower a = a.
Proof. destruct a as [[] [] [] [] [] [] [] []]; vm_compute; intuition congruence. Qed.

Lemma alphanumeric_lower a : alphanumeric (lower a) = true → slug_char (lower a) = true.
Proof. by destruct a as [[] [] [] [] [] [] [] []]. Qed.

Lemma trim_right_empty s : trim_hyphens_right s = "" ↔ only_hyphens s = true.
Proof.
  destruct s as [|a s]; cbn; [done|]. by destruct (bool_decide (a = "-"%char) && only_hyphens s).
Qed.

(** What remains of the loop's output, by the state it was started in. *)
Lemma slug_loop_shape s :
  is_slug true (trim_hyphens_right (slug_loop false false (ToLower s))) = true
  ∧ slug (trim_hyphens_right (slug_loop true false (ToLower s))) = true
  ∧ slug (trim_hyphens_right (slug_loop false true (ToLower s))) = true.
Proof.
  induction s as [|a s (IH1 & IH2 & IH3)]; [done|]. cbn [ToLower slug_loop].
  destruct (alphanumeric (lower a)) eqn:Ha; cbn [negb andb].
  - apply alphanumeric_lower in Ha. destruct (slug_char_spec _ Ha) as (_ & Hh & _). cbn [trim_hyphens_right only_hyphens].
    rewrite bool_decide_eq_false_2 by done. cbn [andb]. unfold slug. cbn [String.eqb orb is_slug]. by rewrite Ha, IH1.
  - split; [|done]. cbn [trim_hyphens_right only_hyphens]. rewrite bool_decide_eq_true_2 by done. cbn [andb].
    destruct (only_hyphens _) eqn:Ho; [done|]. cbn [is_slug]. change (slug_char "-") with false. cbn [andb].
    rewrite bool_decide_eq_true_2 by done. cbn [andb]. unfold slug in IH2. apply orb_true_iff in IH2 as [H%String.eqb_eq|H]; [|done].
    apply trim_right_empty in H. congruence.
Qed.

Lemma slug_loop_head s : trim_hyphens_left (slug_loop false true (ToLower s)) = slug_loop false true (ToLower s).
Proof.
  induction s as [|a s IH]; [done|]. cbn [ToLower slug_loop].
  destruct (alphanumeric (lower a)) eqn:Ha; cbn [negb andb]; [|done].
  apply alphanumeric_lower in Ha. destruct (slug_char_spec _ Ha) as (_ & Hh & _). cbn.
  by rewrite bool_decide_eq_false_2.
Qed.

(** A slug goes through each step as it is. *)
Lemma slug_fixed s e : is_slug e s = true →
  ToLower s = s ∧ (∀ prev empty, (e = true → prev = false ∧ empty = false) → slug_loop prev empty s = s)
  ∧ trim_hyphens_right s = s ∧ (e = false → only_hyphens s = false ∧ trim_hyphens_left s = s).
Proof.
  revert e. induction s as [|a s IH]; intros e He; [by destruct e|]. cbn [is_slug] in He.
  destruct (slug_char a) eqn:Ha.
  - destruct (IH true He) as (Hl & Hloop & Ht & _). destruct (slug_char_spec a Ha) as (Han & Hh & Hlow).
    cbn [ToLower slug_loop trim_hyphens_right trim_hyphens_left only_hyphens].
    rewrite Hlow, Hl, Han, Ht, bool_decide_eq_false_2 by done. split; [done|]. split; [intros; f_equal; by apply Hloop|done].
  - apply andb_true_iff in He as [[Hh ->]%andb_true_iff He]. apply bool_decide_eq_true in Hh as ->.
    destruct (IH false He) as (Hl & Hloop & Ht & Hf). destruct (Hf eq_refl) as [Ho _].
    cbn [ToLower slug_loop trim_hyphens_right only_hyphens]. rewrite Hl, Ht, Ho. change (lower "-") with "-"%char.
    change (alphanumeric "-") with false. rewrite andb_false_r. split; [done|]. split; [|done].
    intros prev empty Hpe. destruct (Hpe eq_refl) as [-> ->]. cbn [negb andb]. f_equal. by apply Hloop.
Qed.

(** The slug of any text is empty or runs of lower-case letters and digits
    joined by single hyphens, and the texts [Slugify] leaves alone are exactly
    those. *)
Theorem Slugify_slugs s : slug (Slugify s) = true ∧ (Slugify s = s ↔ slug s = true).
Proof.
  assert (∀ s, slug (Slugify s) = true) as Hs by (intros x; unfold Slugify; rewrite slug_loop_head; apply slug_loop_shape).
  split; [done|]. split; [intros <-; apply Hs|]. unfold slug. intros [->%String.eqb_eq|H]%orb_true_iff; [done|].
  destruct (slug_fixed s false H) as (Hl & Hloop & Ht & Hf). destruct (Hf eq_refl) as [_ Hleft].
  unfold Slugify. by rewrite Hl, Hloop, Hleft, Ht.
Qed.
