(* ===== verification/IdentityStore.v ===== *)
(** * The repositories of identity

    One definition per method of the repositories of user, organization, member,
    session, apikey and pat, and of session.RevocationStore; users and
    organizations go through the generic repository.  Keys and references are
    those of packages/application/identity/schema.go. *)

From S2P Require Import Prelude GoLib Errors Postgres Sql Rbac DeployModel Rows Repository ControlPlane IdentityModel.

Section store.
Context {W : Type} `{IW : IdentityWorld W} `{D : Driver} `{So : Sorter} `{Dg : Digest} `{ST : ServerTyping}.

Definition is_user (s : iddb W) (id : string) : bool := existsb (λ u, User.ID u =s? id) (users s).
Definition is_org (s : iddb W) (id : string) : bool := existsb (λ o, Organization.ID o =s? id) (orgs s).
Definition is_org_or_null (s : iddb W) (id : option string) : bool := match id with Some id => is_org s id | None => true end.

(** UUID parameters of which some may be NULL. *)
Definition given (id : option string) : list string := match id with Some id => [id] | None => [] end.

(** ** Users (user/repository.go, user/tokens.go) *)

Definition users_table : Table (iddb W) User := {|
  row_id := User.ID; deleted_at := Some User.DeletedAt; bury now := User.set_DeletedAt (Some now);
  version := None; bump u := u;
  conflicts a b := User.kept a && User.kept b && (ToLower (User.Email a) =s? ToLower (User.Email b));
  referenced _ _ := true;
|}.

Definition normalized (email : string) : string := ToLower (TrimSpace email).

Definition User_Create (email passwordHash displayName : string) : db (iddb W) User :=
  now ← now_;
  id ← new_uuid_;
  translate "user: create" (Insert users_table users_l
    {| User.ID := id; User.Email := normalized email; User.EmailVerifiedAt := None;
       User.PasswordHash := passwordHash; User.DisplayName := displayName; User.AvatarURL := "";
       User.Timezone := "UTC"; User.Locale := "en"; User.Preferences := "{}"; User.Status := User.StatusPending;
       User.Metadata := "{}"; User.LastLoginAt := None; User.LastActiveAt := None; User.CreatedAt := now;
       User.UpdatedAt := now; User.DeletedAt := None |}).

Definition User_GetByID (id : string) : db (iddb W) User :=
  translate "user: get by id" (GetByID users_table users_l id).

Definition GetByEmail (email : string) : db (iddb W) User :=
  translate "user: get by email" (stmt users_l (λ _ t,
    (exactly_one (take 1 (select (λ u, (ToLower (User.Email u) =s? normalized email) && User.kept u) t)), t))).

Definition update_user (message id : string) (f : Time → User → User) : db (iddb W) User :=
  now ← now_;
  translate message (Update users_table users_l id (λ u, User.set_UpdatedAt now (f now u))).

Definition unless_empty {R} (set : string → R → R) (x : string) (r : R) : R := if x =s? "" then r else set x r.

Definition User_UpdateProfile (id displayName avatarURL timezone locale preferences : string) : db (iddb W) User :=
  update_user "user: update profile" id (λ _ u,
    unless_empty User.set_Preferences preferences (unless_empty User.set_Locale locale
      (unless_empty User.set_Timezone timezone (unless_empty User.set_AvatarURL avatarURL
        (unless_empty User.set_DisplayName displayName u))))).

Definition SetPassword (id hash : string) : db (iddb W) unit :=
  done_ (update_user "user: set password" id (λ _, User.set_PasswordHash hash)).

Definition Activate (id : string) : db (iddb W) unit :=
  done_ (update_user "user: activate" id (λ now u, User.set_EmailVerifiedAt (Some now) (User.set_Status User.StatusActive u))).

Definition User_Suspend (id : string) : db (iddb W) unit :=
  done_ (update_user "user: suspend" id (λ _, User.set_Status User.StatusSuspended)).

Definition User_SoftDelete (id : string) : db (iddb W) unit :=
  now ← now_;
  _ ← translate "user: delete" (SoftDelete users_table users_l id now);
  done_ (update_user "user: delete" id (λ _, User.set_Status User.StatusDeleted)).

Definition RecordLogin (id : string) : db (iddb W) unit :=
  done_ (update_user "user: record login" id (λ now u, User.set_LastActiveAt (Some now) (User.set_LastLoginAt (Some now) u))).

Definition ExistsEmail (email : string) : db (iddb W) bool :=
  Exists_ users_table users_l (λ u, User.Email u =s? normalized email).

Definition create_token (l : Lens (iddb W) (list UserToken)) (message userID hash : string) (expiresAt : Time)
    : db (iddb W) unit :=
  id ← new_uuid_;
  now ← now_;
  done_ (translate message (stmt l (λ s, with_uuids [userID] (insert_checked UserToken.ID (λ _ _, false)
    (is_user s userID) (UserToken.mk id userID hash expiresAt None now))))).

Definition CreateEmailToken := create_token email_tokens_l "user: create email token".
Definition CreatePasswordResetToken := create_token reset_tokens_l "user: create password reset token".

Definition usable_token (hash : string) (now : Time) (t : UserToken) : bool :=
  (UserToken.TokenHash t =s? hash) && match UserToken.UsedAt t with None => true | Some _ => false end
  && (now <? UserToken.ExpiresAt t).

Definition consume (hash : string) (now : Time) : list UserToken → result error UserToken * list UserToken :=
  update_returning (usable_token hash now) (UserToken.set_UsedAt (Some now)).

Definition ConsumeEmailToken (hash : string) : db (iddb W) string :=
  now ← now_;
  t ← translate "user: consume email token" (stmt email_tokens_l (λ _, consume hash now));
  mret (UserToken.UserID t).

Definition ConsumePasswordResetToken (hash : string) : db (iddb W) string :=
  now ← now_;
  t ← on_error (λ _, Platform (Unauthenticated "invalid or expired reset token"))
        (stmt reset_tokens_l (λ _, consume hash now));
  mret (UserToken.UserID t).

(** ** Organizations (organization/repository.go) *)

Definition orgs_table : Table (iddb W) Organization := {|
  row_id := Organization.ID; deleted_at := Some Organization.DeletedAt;
  bury now := Organization.set_DeletedAt (Some now); version := None; bump o := o;
  conflicts a b := Organization.kept a && Organization.kept b && (Organization.Slug a =s? Organization.Slug b);
  referenced s o := match Organization.BillingOwnerID o with Some u => is_user s u | None => true end;
|}.

Definition Org_Create (name slug ownerID : string) : db (iddb W) Organization :=
  now ← now_;
  id ← new_uuid_;
  translate "org: create" (if ownerID =s? "" then fail invalid_uuid else Insert orgs_table orgs_l
    {| Organization.ID := id; Organization.Name := name; Organization.Slug := slug; Organization.AvatarURL := "";
       Organization.PlanTier := "free"; Organization.BillingOwnerID := Some ownerID; Organization.Settings := "{}";
       Organization.Metadata := "{}"; Organization.Limits := "{}"; Organization.CreatedAt := now;
       Organization.UpdatedAt := now; Organization.DeletedAt := None |}).

Definition Org_GetByID (id : string) : db (iddb W) Organization :=
  translate "org: get" (GetByID orgs_table orgs_l id).

Definition GetBySlug (slug : string) : db (iddb W) Organization :=
  list ← translate "org: get by slug" (Find orgs_table orgs_l (λ o, Organization.Slug o =s? slug) None);
  match list with o :: _ => mret o | [] => fail_with (NotFound "organization not found") end.

Definition Org_Update (id : string) (f : Organization → Organization) : db (iddb W) Organization :=
  now ← now_;
  translate "org: update" (Update orgs_table orgs_l id (λ o, Organization.set_UpdatedAt now (f o))).

Definition Org_SoftDelete (id : string) : db (iddb W) unit :=
  now ← now_; done_ (translate "org: delete" (SoftDelete orgs_table orgs_l id now)).

(** ** Members and invitations (member/repository.go) *)

Definition in_org (orgID userID : string) (m : Member) : bool :=
  (Member.OrgID m =s? orgID) && (Member.UserID m =s? userID).
Definition active_in (orgID userID : string) (m : Member) : bool :=
  in_org orgID userID m && (Member.Status m =s? Member.StatusActive).

Definition ListForUser (userID : string) : db (iddb W) (list Organization) :=
  translate "org: list for user" (stmt orgs_l (λ s, with_uuids [userID] (λ t,
    (Ok (sort_slice (λ x y, String.ltb (Organization.Name x) (Organization.Name y))
      (select Organization.kept t ≫= λ o, (λ _, o) <$> select (active_in (Organization.ID o) userID) (members s))), t)))).

Definition insert_member (s : iddb W) (m : Member) : list Member → result error Member * list Member :=
  insert_checked Member.ID (λ a b, in_org (Member.OrgID a) (Member.UserID a) b)
    (is_org s (Member.OrgID m) && is_user s (Member.UserID m)) m.

Definition AddOwner (orgID userID : string) : db (iddb W) Member :=
  now ← now_;
  id ← new_uuid_;
  stmt members_l (λ s, with_uuids [orgID; userID]
    (insert_member s (Member.mk id orgID userID RoleOwner Member.StatusActive None None (Some now) now now))).

Definition GetActive (orgID userID : string) : db (iddb W) Member :=
  translate "member: get" (stmt members_l (λ _, with_uuids [orgID; userID] (select_row (active_in orgID userID)))).

Definition Members_ListByOrg (orgID : string) : db (iddb W) (list Member) :=
  translate "member: list" (stmt members_l (λ _, with_uuids [orgID] (λ t,
    (Ok (sort_slice (λ x y, match Member.JoinedAt x, Member.JoinedAt y with
                            | Some a, Some b => a <? b | Some _, None => true | _, _ => false end)
      (select (λ m, (Member.OrgID m =s? orgID) && (Member.Status m =s? Member.StatusActive)) t)), t)))).

(** The UPDATE of an active member. *)
Definition change_member (message orgID userID : string) (f : Member → Member) : db (iddb W) unit :=
  now ← now_;
  n ← translate message (stmt members_l (λ _, with_uuids [orgID; userID]
        (update_rows (active_in orgID userID) (λ m, Member.set_UpdatedAt now (f m)))));
  found "member not found" n.

Definition Members_UpdateRole (orgID userID role : string) : db (iddb W) unit :=
  change_member "member: update role" orgID userID (Member.set_Role role).

Definition Members_Remove (orgID userID : string) : db (iddb W) unit :=
  change_member "member: remove" orgID userID (Member.set_Status Member.StatusRemoved).

Definition CreateInvitation (orgID email role tokenHash invitedBy : string) (expiresAt : Time) : db (iddb W) Invitation :=
  id ← new_uuid_;
  now ← now_;
  translate "member: create invitation" (stmt invitations_l (λ s, with_uuids [orgID; invitedBy]
    (insert_checked Invitation.ID (λ _ _, false) (is_org s orgID && is_user s invitedBy)
      (Invitation.mk id orgID email role tokenHash invitedBy expiresAt None None now)))).

(** [ON CONFLICT (org_id, user_id) DO UPDATE] *)
Definition upsert_member (s : iddb W) (m : Member) (t : list Member) : result error Member * list Member :=
  let p := in_org (Member.OrgID m) (Member.UserID m) in
  let f old := Member.set_UpdatedAt (Member.UpdatedAt m)
                 (Member.set_Status Member.StatusActive (Member.set_Role (Member.Role m) old)) in
  match select p t with
  | old :: _ => (Ok (f old), update_where p f t)
  | [] => insert_member s m t
  end.

Definition AcceptInvitation (inv : Invitation) (userID : string) : db (iddb W) Member :=
  Transact_in id_world_l (
    now ← now_;
    n ← translate "member: accept invitation" (stmt invitations_l (λ _, with_uuids [Invitation.ID inv]
          (update_rows (λ i, (Invitation.ID i =s? Invitation.ID inv)
                             && match Invitation.AcceptedAt i with None => true | Some _ => false end)
             (Invitation.set_AcceptedAt (Some now)))));
    _ ← (if n =? 0 then fail_with (Conflict "invitation already used") else mret tt);
    id ← new_uuid_;
    translate "member: accept invitation" (stmt members_l (λ s,
      with_uuids [Invitation.OrgID inv; userID; Invitation.InvitedBy inv] (upsert_member s
        (Member.mk id (Invitation.OrgID inv) userID (Invitation.Role inv) Member.StatusActive
           (Some (Invitation.InvitedBy inv)) (Some now) (Some now) now now))))).

Definition pending (now : Time) (i : Invitation) : bool :=
  match Invitation.AcceptedAt i, Invitation.RejectedAt i with None, None => true | _, _ => false end
  && (now <? Invitation.ExpiresAt i).

Definition GetInvitationByTokenHash (hash : string) : db (iddb W) Invitation :=
  now ← now_;
  translate "member: get invitation" (stmt invitations_l (λ _,
    select_row (λ i, (Invitation.TokenHash i =s? hash) && pending now i))).

Definition RejectInvitation (invID : string) : db (iddb W) unit :=
  now ← now_;
  n ← translate "member: reject invitation" (stmt invitations_l (λ _, with_uuids [invID]
        (update_rows (λ i, (Invitation.ID i =s? invID)
           && match Invitation.AcceptedAt i, Invitation.RejectedAt i with None, None => true | _, _ => false end)
           (Invitation.set_RejectedAt (Some now)))));
  found "invitation not found" n.

Definition ListPendingInvitations (orgID : string) : db (iddb W) (list Invitation) :=
  now ← now_;
  translate "member: list invitations" (stmt invitations_l (λ _, with_uuids [orgID] (λ t,
    (Ok (sort_slice (λ x y, Invitation.CreatedAt y <? Invitation.CreatedAt x)
      (select (λ i, (Invitation.OrgID i =s? orgID) && pending now i) t)), t)))).

(** ** Sessions (session/repository.go, session/revocation.go) *)

Definition unrevoked (x : Session) : bool := match Session.RevokedAt x with None => true | Some _ => false end.

(** The unique index over the hashes of unrevoked sessions. *)
Definition same_refresh (a b : Session) : bool :=
  unrevoked a && unrevoked b && (Session.RefreshTokenHash a =s? Session.RefreshTokenHash b).

Definition Session_Create (userID : string) (orgID : option string) (refreshHash deviceName deviceType ip ua : string)
    (remember : bool) (expiresAt : Time) : db (iddb W) Session :=
  id ← new_uuid_;
  now ← now_;
  stmt sessions_l (λ s, with_uuids (userID :: given orgID)
    (insert_checked Session.ID same_refresh (is_user s userID && is_org_or_null s orgID)
      (Session.mk id userID orgID refreshHash deviceName deviceType ip ua remember expiresAt None None now))).

Definition live_session (now : Time) (x : Session) : bool := unrevoked x && (now <? Session.ExpiresAt x).

Definition GetByRefreshHash (hash : string) : db (iddb W) Session :=
  now ← now_;
  translate "session: get" (stmt sessions_l (λ _,
    select_row (λ x, (Session.RefreshTokenHash x =s? hash) && live_session now x))).

(** The new hash must be new among the unrevoked sessions. *)
Definition rotate (id newHash : string) (now : Time) (t : list Session) : result error Z * list Session :=
  let p x := (Session.ID x =s? id) && unrevoked x in
  let f x := Session.set_LastUsedAt (Some now) (Session.set_RefreshTokenHash newHash x) in
  if existsb (λ x, existsb (same_refresh (f x)) (delete_where p t)) (select p t) then (Err duplicate_key, t)
  else update_rows p f t.

Definition RotateRefresh (sessionID newHash : string) : db (iddb W) unit :=
  now ← now_;
  n ← translate "session: rotate" (stmt sessions_l (λ _, with_uuids [sessionID] (rotate sessionID newHash now)));
  found "session not found" n.

Definition Session_Revoke (sessionID userID : string) : db (iddb W) unit :=
  now ← now_;
  n ← translate "session: revoke" (stmt sessions_l (λ _, with_uuids [sessionID; userID]
        (update_rows (λ x, (Session.ID x =s? sessionID) && (Session.UserID x =s? userID) && unrevoked x)
           (Session.set_RevokedAt (Some now)))));
  found "session not found" n.

(** The statement compares the UUID column with the text of [$2]. *)
Definition Repository_RevokeAll (userID exceptID : string) : db (iddb W) Z :=
  now ← now_;
  translate "session: revoke all" (stmt sessions_l (λ _ t,
    match uuid_against_text with
    | Some e => (Err e, t)
    | None => with_uuids [userID] (update_rows (λ x, (Session.UserID x =s? userID) && unrevoked x
                && ((exceptID =s? "") || negb (Session.ID x =s? exceptID))) (Session.set_RevokedAt (Some now))) t
    end)).

Definition Sessions_ListByUser (userID : string) : db (iddb W) (list Session) :=
  now ← now_;
  translate "session: list" (stmt sessions_l (λ _, with_uuids [userID] (λ t,
    (Ok (sort_slice (λ x y, Session.CreatedAt y <? Session.CreatedAt x)
      (select (λ x, (Session.UserID x =s? userID) && live_session now x) t)), t)))).

(** [redis] says whether there is a Redis. *)
Definition keySession (sessionID : string) : string := "identity:revoke:session:" +:+ sessionID.

Definition put_until (key : string) (exp : Time) : db (iddb W) unit :=
  t ← now_;
  let ttl := if exp - t <=? 0 then Minute else exp - t in
  now ← now_;
  on_error (wrap_with CodeUnavailable "redis: set") (redis_command (λ r, (tt, <[key := now + ttl]> r))).

Definition RevokeSession (redis : bool) (sessionID : string) (exp : Time) : db (iddb W) unit :=
  if redis then put_until (keySession sessionID) exp else mret tt.

Definition IsSessionRevoked (redis : bool) (sessionID : string) : db (iddb W) bool :=
  if negb redis || (sessionID =s? "") then mret false
  else
    now ← now_;
    on_error (wrap_with CodeUnavailable "redis: get") (redis_command (λ r,
      (match r !! keySession sessionID with Some until => now <? until | None => false end, r))).

Definition RevokeAccessJTI (redis : bool) (jti : string) (exp : Time) : db (iddb W) unit :=
  if redis then put_until ("identity:revoke:jti:" +:+ jti) exp else mret tt.

(** ** API keys (apikey/repository.go) *)

(** A key as the statements return it: without its hash. *)
Definition key_shown (k : APIKey) : APIKey := APIKey.set_KeyHash "" k.

Definition APIKeys_Create (orgID name : string) (scopes : list string) (expiresAt : option Time) (createdBy : string)
    : db (iddb W) (APIKey * string) :=
  prefix ← APIKeyPrefix;
  '(secret, hash) ← Generate 32;
  now ← now_;
  id ← new_uuid_;
  k ← translate "apikey: create" (stmt api_keys_l (λ s, with_uuids [orgID; createdBy]
        (insert_checked APIKey.ID (λ a b, APIKey.Prefix a =s? APIKey.Prefix b) (is_org s orgID && is_user s createdBy)
          (APIKey.mk id orgID name prefix hash scopes expiresAt None None "" createdBy now now))));
  mret (key_shown k, FormatAPIKey prefix secret).

Definition in_force (expires : option Time) (now : Time) : bool :=
  match expires with Some e => now <? e | None => true end.

Definition live_key (now : Time) (k : APIKey) : bool :=
  match APIKey.DisabledAt k with None => true | Some _ => false end && in_force (APIKey.ExpiresAt k) now.

Definition APIKeys_GetByPrefix (prefix : string) : db (iddb W) APIKey :=
  now ← now_;
  translate "apikey: get" (stmt api_keys_l (λ _,
    select_row (λ k, (APIKey.Prefix k =s? prefix) && live_key now k))).

Definition APIKeys_ListByOrg (orgID : string) : db (iddb W) (list APIKey) :=
  translate "apikey: list" (stmt api_keys_l (λ _, with_uuids [orgID] (λ t,
    (Ok (key_shown <$> sort_slice (λ x y, APIKey.CreatedAt y <? APIKey.CreatedAt x)
      (select (λ k, APIKey.OrgID k =s? orgID) t)), t)))).

Definition key_of (orgID keyID : string) (k : APIKey) : bool := (APIKey.ID k =s? keyID) && (APIKey.OrgID k =s? orgID).
Definition enabled_key_of (orgID keyID : string) (k : APIKey) : bool :=
  key_of orgID keyID k && match APIKey.DisabledAt k with None => true | Some _ => false end.

Definition APIKeys_Rotate (orgID keyID : string) : db (iddb W) (APIKey * string) :=
  '(secret, hash) ← Generate 32;
  now ← now_;
  k ← translate "apikey: rotate" (stmt api_keys_l (λ _, with_uuids [keyID; orgID]
        (update_returning (enabled_key_of orgID keyID)
           (λ k, APIKey.set_UpdatedAt now (APIKey.set_KeyHash hash k)))));
  mret (key_shown k, FormatAPIKey (APIKey.Prefix k) secret).

Definition APIKeys_Disable (orgID keyID : string) : db (iddb W) unit :=
  now ← now_;
  n ← translate "apikey: disable" (stmt api_keys_l (λ _, with_uuids [keyID; orgID]
        (update_rows (enabled_key_of orgID keyID)
           (λ k, APIKey.set_UpdatedAt now (APIKey.set_DisabledAt (Some now) k)))));
  found "api key not found" n.

Definition APIKeys_Delete (orgID keyID : string) : db (iddb W) unit :=
  n ← translate "apikey: delete" (stmt api_keys_l (λ _, with_uuids [keyID; orgID] (λ t,
        (Ok (matched (key_of orgID keyID) t), delete_where (key_of orgID keyID) t))));
  found "api key not found" n.

Definition APIKeys_RecordUsage (keyID ip : string) : db (iddb W) unit :=
  now ← now_;
  done_ (translate "apikey: record usage" (stmt api_keys_l (λ _, with_uuids [keyID]
    (update_rows (λ k, APIKey.ID k =s? keyID)
       (λ k, APIKey.set_UpdatedAt now (APIKey.set_LastUsedIP ip (APIKey.set_LastUsedAt (Some now) k))))))).

Definition APIKey_VerifySecret (k : APIKey) (secret : string) : bool := ConstantTimeEqual (APIKey.KeyHash k) (Hash secret).

(** ** Personal access tokens (pat/repository.go) *)

Definition token_shown (t : Token) : Token := Token.set_TokenHash "" t.

Definition PATs_Create (userID : string) (orgID : option string) (name : string) (scopes : list string)
    (expiresAt : option Time) (metadata : option string) : db (iddb W) (Token * string) :=
  h ← draw id_world_l (random_hex 4);
  let prefix := "pat_" +:+ h in
  '(secret, hash) ← Generate 32;
  now ← now_;
  id ← new_uuid_;
  t ← translate "pat: create" (stmt pats_l (λ s, with_uuids (userID :: given orgID)
        (insert_checked Token.ID (λ a b, Token.Prefix a =s? Token.Prefix b) (is_user s userID && is_org_or_null s orgID)
          (Token.mk id userID orgID name prefix hash scopes expiresAt None None (default "{}" metadata) now now))));
  mret (token_shown t, FormatAPIKey prefix secret).

Definition unrevoked_token (t : Token) : bool := match Token.RevokedAt t with None => true | Some _ => false end.

Definition PATs_GetByPrefix (prefix : string) : db (iddb W) Token :=
  now ← now_;
  translate "pat: get" (stmt pats_l (λ _,
    select_row (λ t, (Token.Prefix t =s? prefix) && unrevoked_token t && in_force (Token.ExpiresAt t) now))).

Definition PATs_ListByUser (userID : string) : db (iddb W) (list Token) :=
  translate "pat: list" (stmt pats_l (λ _, with_uuids [userID] (λ t,
    (Ok (token_shown <$> sort_slice (λ x y, Token.CreatedAt y <? Token.CreatedAt x)
      (select (λ t, Token.UserID t =s? userID) t)), t)))).

Definition token_of (userID tokenID : string) (t : Token) : bool :=
  (Token.ID t =s? tokenID) && (Token.UserID t =s? userID) && unrevoked_token t.

Definition PATs_Revoke (userID tokenID : string) : db (iddb W) unit :=
  now ← now_;
  n ← translate "pat: revoke" (stmt pats_l (λ _, with_uuids [tokenID; userID]
        (update_rows (token_of userID tokenID) (λ t, Token.set_UpdatedAt now (Token.set_RevokedAt (Some now) t)))));
  found "token not found" n.

Definition PATs_Rotate (userID tokenID : string) : db (iddb W) (Token * string) :=
  '(secret, hash) ← Generate 32;
  now ← now_;
  t ← translate "pat: rotate" (stmt pats_l (λ _, with_uuids [tokenID; userID]
        (update_returning (token_of userID tokenID) (λ t, Token.set_UpdatedAt now (Token.set_TokenHash hash t)))));
  mret (token_shown t, FormatAPIKey (Token.Prefix t) secret).

Definition PATs_RecordUsage (tokenID : string) : db (iddb W) unit :=
  now ← now_;
  done_ (translate "pat: record usage" (stmt pats_l (λ _, with_uuids [tokenID]
    (update_rows (λ t, Token.ID t =s? tokenID) (λ t, Token.set_UpdatedAt now (Token.set_LastUsedAt (Some now) t)))))).

Definition PAT_VerifySecret (t : Token) (secret : string) : bool := ConstantTimeEqual (Token.TokenHash t) (Hash secret).

(** ** The audit log *)

Definition Record_ (c : Caller) (e : Entry) : db (iddb W) unit :=
  id ← new_uuid_; now ← now_; zoom id_audit_l (Logger_Record c id now e).
End store.
