(* ===== verification/IdentityService.v ===== *)
(** * The services of identity

    One definition per method of the services auth, user, organization, member,
    apikey and session of packages/application/identity.  [c] is the request
    context, [ip] and [ua] what the handlers pass of the client. *)

From S2P Require Import Prelude GoLib Errors Postgres Sql Rbac DeployModel Rows Repository ControlPlane Password IdentityModel Slug IdentityStore.

(** ** The audit log's actions (audit/logger.go) *)

Definition ActionLogin : string := "auth.login".
Definition ActionLogout : string := "auth.logout".
Definition ActionRegister : string := "auth.register".
Definition ActionPasswordReset : string := "auth.password_reset".
Definition ActionPasswordChange : string := "auth.password_change".
Definition ActionOrgCreate : string := "org.create".
Definition ActionOrgUpdate : string := "org.update".
Definition ActionOrgDelete : string := "org.delete".
Definition ActionMemberInvite : string := "member.invite".
Definition ActionMemberRemove : string := "member.remove".
Definition ActionMemberRoleChange : string := "member.role_change".
Definition ActionAPIKeyCreate : string := "apikey.create".
Definition ActionAPIKeyRotate : string := "apikey.rotate".
Definition ActionAPIKeyDelete : string := "apikey.delete".
Definition ActionSessionRevoke : string := "session.revoke".
Definition ActionTokenRevoke : string := "token.revoke".

Definition entry_of (userID orgID : option string) (action resourceType resourceID metadata ip ua : string) : Entry :=
  {| Entry.ID := ""; Entry.OrgID := orgID; Entry.UserID := userID; Entry.Action := action;
     Entry.ResourceType := resourceType; Entry.ResourceID := resourceID; Entry.Metadata := metadata;
     Entry.IPAddress := ip; Entry.UserAgent := ua; Entry.RequestID := ""; Entry.CorrelationID := ""; Entry.CreatedAt := 0 |}.

(** ** Requests and results *)

Record TokenPair := { AccessToken : string; RefreshToken : string; ExpiresAt : Time; TokenType : string }.

Record RegisterInput := { reg_Email : string; reg_Password : string; reg_DisplayName : string; reg_OrgName : string }.
Record LoginInput := {
  login_Email : string; login_Password : string; login_RememberMe : bool; login_DeviceName : string; login_OrgID : string;
}.
Record ResetPasswordInput := { reset_Token : string; reset_NewPassword : string }.
Record ChangePasswordInput := { CurrentPassword : string; NewPassword : string }.
Record UpdateProfileInput := {
  prof_DisplayName : option string; prof_AvatarURL : option string; prof_Timezone : option string;
  prof_Locale : option string; prof_Preferences : option string;
}.
Record CreateOrgInput := { org_Name : string; org_Slug : string }.
Record UpdateOrgInput := {
  upd_Name : option string; upd_AvatarURL : option string; upd_Settings : option string;
  upd_Metadata : option string; upd_Limits : option string;
}.
Record InviteInput := { inv_Email : string; inv_Role : string }.
Record CreateKeyInput := { key_Name : string; key_Scopes : list string; key_ExpiresAt : option Time }.

Module AuthConfig.
Record t := mk { redis : bool; refreshTTL : Duration; jwt : JwtConfig.t; hasher : Hasher }.
End AuthConfig.

(** [NewService], from the configured lifetime. *)
Definition NewAuthService (redis : bool) (refreshTTL : Duration) (jwt : JwtConfig.t) (h : Hasher) : AuthConfig.t :=
  AuthConfig.mk redis (if refreshTTL <=? 0 then 30 * 24 * Hour else refreshTTL) (NewManager jwt) h.

Definition NormalizeSlug (s : string) : string := Slugify s.

Definition zero_user : User := User.mk "" "" None "" "" "" "" "" "" "" "" None None 0 0 None.

Section services.
Context {W : Type} `{IW : IdentityWorld W} `{D : Driver} `{So : Sorter} `{Dg : Digest} `{ST : ServerTyping}.
Context `{J : JwtLibrary} `{Ar : Argon2}.
Implicit Types (c : Caller) (ip ua : string).

(** ** Authentication (auth/service.go) *)

Section auth.
Context (cfg : AuthConfig.t).

Definition rateLimitLogin (ip : string) : db (iddb W) unit :=
  if negb (AuthConfig.redis cfg) || (ip =s? "") then mret tt
  else
    r ← draw id_world_l (allow_login ("identity:login:" +:+ ip));
    allowed ← of_result r;
    if allowed : bool then mret tt else fail_with (WithRetryable (RateLimited "too many attempts") true).

Definition hash_password (password : string) : db (iddb W) string :=
  salt ← draw id_world_l (random_salt (Params.SaltLength (Hasher.params (AuthConfig.hasher cfg))));
  of_result (Password.Hash (AuthConfig.hasher cfg) password salt).

(** Two calls of [Verify] are enough. *)
Definition verify_password (password encoded : string) : bool :=
  match Verify 2 (AuthConfig.hasher cfg) password encoded with Some b => b | None => false end.

Definition Register c (i : RegisterInput) ip ua : db (iddb W) User :=
  _ ← rateLimitLogin ip;
  taken ← ExistsEmail (reg_Email i);
  if taken : bool then fail_with (InvalidArgument "registration failed")
  else
    hash ← hash_password (reg_Password i);
    u ← Transact_in id_world_l (
      u ← User_Create (reg_Email i) hash (reg_DisplayName i);
      _ ← Activate (User.ID u);
      _ ← (if negb (reg_OrgName i =s? "")
           then o ← Org_Create (reg_OrgName i) (NormalizeSlug (reg_OrgName i)) (User.ID u);
                _ ← AddOwner (Organization.ID o) (User.ID u); mret tt
           else mret tt);
      mret u);
    _ ← ignore (Record_ c (entry_of (Some (User.ID u)) None ActionRegister "" "" "" ip ua));
    r ← attempt (User_GetByID (User.ID u));
    mret (match r with Ok u => u | Err _ => zero_user end).

Definition issueTokens c (userID : string) (orgID : option string) (deviceType deviceName ip ua : string) (remember : bool)
    : db (iddb W) TokenPair :=
  '(refreshRaw, refreshHash) ← Generate 32;
  let ttl := if remember then AuthConfig.refreshTTL cfg else 24 * Hour in
  now ← now_;
  sess ← Session_Create userID orgID refreshHash deviceName deviceType ip ua remember (now + ttl);
  '(access, exp) ← IssueAccessToken (AuthConfig.jwt cfg) userID (Session.ID sess) (default "" orgID);
  _ ← ignore (RecordLogin userID);
  _ ← ignore (Record_ c (entry_of (Some userID) None ActionLogin "" "" "" ip ua));
  mret {| AccessToken := access; RefreshToken := refreshRaw; ExpiresAt := exp; TokenType := "Bearer" |}.

Definition invalid_credentials : Error := Unauthenticated "invalid credentials".

Definition Login c (i : LoginInput) ip ua : db (iddb W) TokenPair :=
  _ ← rateLimitLogin ip;
  r ← attempt (GetByEmail (login_Email i));
  match r with
  | Err _ => fail_with invalid_credentials
  | Ok u =>
      if negb (verify_password (login_Password i) (User.PasswordHash u)) then fail_with invalid_credentials
      else if User.Status u =s? User.StatusSuspended then fail_with (PermissionDenied "account suspended")
      else if negb (User.CanLogin u) then fail_with invalid_credentials
      else
        orgID ← (if negb (login_OrgID i =s? "")
                 then _ ← on_error (λ _, Platform (PermissionDenied "not a member of organization"))
                            (GetActive (login_OrgID i) (User.ID u));
                      mret (Some (login_OrgID i))
                 else mret None);
        issueTokens c (User.ID u) orgID Session.DeviceBrowser (login_DeviceName i) ip ua (login_RememberMe i)
  end.

Definition Refresh c (refreshToken : string) ip ua : db (iddb W) TokenPair :=
  sess ← on_error (λ _, Platform (Unauthenticated "invalid refresh token")) (GetByRefreshHash (Hash refreshToken));
  revoked ← on_error (λ _, Platform (Unauthenticated "session revoked"))
              (IsSessionRevoked (AuthConfig.redis cfg) (Session.ID sess));
  if revoked : bool then fail_with (Unauthenticated "session revoked")
  else
    '(newRaw, newHash) ← Generate 32;
    _ ← RotateRefresh (Session.ID sess) newHash;
    '(access, exp) ← IssueAccessToken (AuthConfig.jwt cfg) (Session.UserID sess) (Session.ID sess)
                       (default "" (Session.OrgID sess));
    _ ← ignore (Record_ c (entry_of (Some (Session.UserID sess)) None "auth.refresh" "" "" "" ip ua));
    mret {| AccessToken := access; RefreshToken := newRaw; ExpiresAt := exp; TokenType := "Bearer" |}.

Definition Logout c (refreshToken : string) ip ua : db (iddb W) unit :=
  r ← attempt (GetByRefreshHash (Hash refreshToken));
  match r with
  | Err _ => mret tt
  | Ok sess =>
      _ ← Session_Revoke (Session.ID sess) (Session.UserID sess);
      _ ← ignore (RevokeSession (AuthConfig.redis cfg) (Session.ID sess) (Session.ExpiresAt sess));
      Record_ c (entry_of (Some (Session.UserID sess)) None ActionLogout "" "" "" ip ua)
  end.

Definition Auth_LogoutAll c (userID exceptSessionID : string) ip ua : db (iddb W) unit :=
  _ ← Repository_RevokeAll userID exceptSessionID;
  Record_ c (entry_of (Some userID) None ActionLogout "" "" "{all_devices:true}" ip ua).

Definition RequestPasswordReset c (email : string) ip ua : db (iddb W) string :=
  r ← attempt (GetByEmail email);
  match r with
  | Err _ => mret ""
  | Ok u =>
      '(raw, hash) ← Generate 32;
      now ← now_;
      _ ← CreatePasswordResetToken (User.ID u) hash (now + Hour);
      _ ← ignore (Record_ c (entry_of (Some (User.ID u)) None ActionPasswordReset "" "" "" ip ua));
      mret raw
  end.

Definition ResetPassword c (i : ResetPasswordInput) ip ua : db (iddb W) unit :=
  userID ← on_error (λ _, Platform (Unauthenticated "invalid or expired reset token"))
             (ConsumePasswordResetToken (Hash (reset_Token i)));
  pwHash ← hash_password (reset_NewPassword i);
  _ ← SetPassword userID pwHash;
  _ ← ignore (Repository_RevokeAll userID "");
  Record_ c (entry_of (Some userID) None ActionPasswordReset "" "" "" ip ua).

(** The context key it reads is one that nothing sets. *)
Definition tenantSessionID c : string := "".

Definition ChangePassword c (userID : string) (i : ChangePasswordInput) ip ua : db (iddb W) unit :=
  u ← User_GetByID userID;
  if negb (verify_password (CurrentPassword i) (User.PasswordHash u))
  then fail_with (Unauthenticated "invalid current password")
  else
    pwHash ← hash_password (NewPassword i);
    _ ← SetPassword userID pwHash;
    _ ← ignore (Repository_RevokeAll userID (tenantSessionID c));
    Record_ c (entry_of (Some userID) None ActionPasswordChange "" "" "" ip ua).

Definition VerifyEmail c (token ip ua : string) : db (iddb W) unit :=
  userID ← on_error (λ _, Platform (Unauthenticated "invalid or expired verification token"))
             (ConsumeEmailToken (Hash token));
  _ ← Activate userID;
  Record_ c (entry_of (Some userID) None "auth.email_verify" "" "" "" ip ua).

Definition CreateEmailVerificationToken (userID : string) : db (iddb W) string :=
  '(raw, hash) ← Generate 32;
  now ← now_;
  _ ← CreateEmailToken userID hash (now + 24 * Hour);
  mret raw.
End auth.

(** ** Users (user/service.go) *)

Definition UpdateProfile c (userID : string) (i : UpdateProfileInput) ip ua : db (iddb W) User :=
  u ← User_UpdateProfile userID (default "" (prof_DisplayName i)) (default "" (prof_AvatarURL i))
        (default "" (prof_Timezone i)) (default "" (prof_Locale i)) (default "" (prof_Preferences i));
  _ ← ignore (Record_ c (entry_of (Some userID) None "user.profile_update" "" "" "" ip ua));
  mret u.

Definition Users_Get (userID : string) : db (iddb W) User := User_GetByID userID.

Definition Suspend c (targetID ip ua : string) : db (iddb W) unit :=
  _ ← User_Suspend targetID;
  ignore (Record_ c (entry_of (Some (Caller.UserID c)) None "user.suspend" "user" targetID "" ip ua)).

Definition Users_Delete c (userID ip ua : string) : db (iddb W) unit :=
  _ ← User_SoftDelete userID;
  Record_ c (entry_of (Some userID) None "user.delete" "" "" "" ip ua).

(** What the API shows of a user. *)
Record PublicUser := {
  pub_id : string; pub_email : string; pub_display_name : string; pub_avatar_url : string; pub_timezone : string;
  pub_locale : string; pub_status : string; pub_email_verified : bool; pub_last_login_at : option Time; pub_created_at : Time;
}.

Definition Public (u : User) : PublicUser :=
  {| pub_id := User.ID u; pub_email := User.Email u; pub_display_name := User.DisplayName u;
     pub_avatar_url := User.AvatarURL u; pub_timezone := User.Timezone u; pub_locale := User.Locale u;
     pub_status := User.Status u;
     pub_email_verified := match User.EmailVerifiedAt u with Some _ => true | None => false end;
     pub_last_login_at := User.LastLoginAt u; pub_created_at := User.CreatedAt u |}.

(** ** Organizations (organization/service.go) *)

(** [tenant.AssertOrgMatch] and [rbac.RequirePermission] *)
Definition guard c (orgID : string) (perm : Permission) : db (iddb W) unit :=
  _ ← refuse (AssertOrgMatch c orgID);
  refuse (RequirePermission (Caller.MemberRole c) perm).

Definition Orgs_Create c (userID : string) (i : CreateOrgInput) ip ua : db (iddb W) Organization :=
  let slug := if org_Slug i =s? "" then NormalizeSlug (org_Name i) else NormalizeSlug (org_Slug i) in
  o ← Org_Create (org_Name i) slug userID;
  _ ← AddOwner (Organization.ID o) userID;
  _ ← ignore (Record_ c (entry_of (Some userID) (Some (Organization.ID o)) ActionOrgCreate "" "" "" ip ua));
  mret o.

Definition set_some {A R} (set : A → R → R) (x : option A) (r : R) : R := match x with Some x => set x r | None => r end.

Definition no_change (i : UpdateOrgInput) : bool :=
  match upd_Name i, upd_AvatarURL i, upd_Settings i, upd_Metadata i, upd_Limits i with
  | None, None, None, None, None => true
  | _, _, _, _, _ => false
  end.

Definition Orgs_Update c (orgID : string) (i : UpdateOrgInput) ip ua : db (iddb W) Organization :=
  _ ← guard c orgID PermOrgWrite;
  if no_change i then Org_GetByID orgID
  else
    o ← Org_Update orgID (λ o, set_some Organization.set_Limits (upd_Limits i)
          (set_some Organization.set_Metadata (upd_Metadata i) (set_some Organization.set_Settings (upd_Settings i)
            (set_some Organization.set_AvatarURL (upd_AvatarURL i) (set_some Organization.set_Name (upd_Name i) o)))));
    _ ← ignore (Record_ c (entry_of (Some (Caller.UserID c)) (Some orgID) ActionOrgUpdate "" "" "" ip ua));
    mret o.

Definition Orgs_Get c (orgID : string) : db (iddb W) Organization :=
  _ ← guard c orgID PermOrgRead; Org_GetByID orgID.

Definition Orgs_List (userID : string) : db (iddb W) (list Organization) := ListForUser userID.

Definition Orgs_Delete c (orgID ip ua : string) : db (iddb W) unit :=
  _ ← refuse (AssertOrgMatch c orgID);
  if negb (Caller.MemberRole c =s? RoleOwner) then fail_with (PermissionDenied "only owners can delete organizations")
  else
    _ ← Org_SoftDelete orgID;
    Record_ c (entry_of (Some (Caller.UserID c)) (Some orgID) ActionOrgDelete "" "" "" ip ua).

(** ** Members (member/service.go) *)

Definition Invite c (orgID invitedBy : string) (i : InviteInput) ip ua : db (iddb W) (Invitation * string) :=
  _ ← guard c orgID PermMemberInvite;
  if negb (CanManageRole (Caller.MemberRole c) (inv_Role i)) then fail_with (PermissionDenied "cannot assign this role")
  else
    '(raw, hash) ← Generate 32;
    now ← now_;
    inv ← CreateInvitation orgID (ToLower (inv_Email i)) (inv_Role i) hash invitedBy (now + 7 * 24 * Hour);
    _ ← ignore (Record_ c (entry_of (Some invitedBy) (Some orgID) ActionMemberInvite "" "" "" ip ua));
    mret (inv, raw).

Definition Accept c (userID token ip ua : string) : db (iddb W) Member :=
  inv ← on_error (λ _, Platform (Unauthenticated "invalid or expired invitation")) (GetInvitationByTokenHash (Hash token));
  m ← AcceptInvitation inv userID;
  _ ← ignore (Record_ c (entry_of (Some userID) (Some (Invitation.OrgID inv)) "member.accept" "" "" "" ip ua));
  mret m.

Definition Reject c (token ip ua : string) : db (iddb W) unit :=
  inv ← on_error (λ _, Platform (Unauthenticated "invalid or expired invitation")) (GetInvitationByTokenHash (Hash token));
  _ ← RejectInvitation (Invitation.ID inv);
  Record_ c (entry_of None (Some (Invitation.OrgID inv)) "member.reject" "" "" "" ip ua).

Definition Remove c (orgID targetUserID actorID ip ua : string) : db (iddb W) unit :=
  _ ← guard c orgID PermMemberRemove;
  target ← GetActive orgID targetUserID;
  if Member.Role target =s? RoleOwner then fail_with (PermissionDenied "cannot remove organization owner")
  else if negb (CanManageRole (Caller.MemberRole c) (Member.Role target)) then fail_with (PermissionDenied "insufficient permissions")
  else
    _ ← Members_Remove orgID targetUserID;
    let meta := "{" +:+ quote +:+ "target_user_id" +:+ quote +:+ ":" +:+ quote +:+ targetUserID +:+ quote +:+ "}" in
    ignore (Record_ c (entry_of (Some actorID) (Some orgID) ActionMemberRemove "" "" meta ip ua)).

Definition UpdateRole c (orgID targetUserID actorID role ip ua : string) : db (iddb W) unit :=
  _ ← guard c orgID PermMemberManage;
  if negb (CanManageRole (Caller.MemberRole c) role) then fail_with (PermissionDenied "cannot assign this role")
  else
    target ← GetActive orgID targetUserID;
    if (Member.Role target =s? RoleOwner) || (role =s? RoleOwner)
    then fail_with (PermissionDenied "use transfer ownership to change owner")
    else
      _ ← Members_UpdateRole orgID targetUserID role;
      ignore (Record_ c (entry_of (Some actorID) (Some orgID) ActionMemberRoleChange "" "" "" ip ua)).

Definition TransferOwnership c (orgID newOwnerID currentOwnerID ip ua : string) : db (iddb W) unit :=
  _ ← refuse (AssertOrgMatch c orgID);
  if negb (Caller.MemberRole c =s? RoleOwner) then fail_with (PermissionDenied "only owners can transfer ownership")
  else
    _ ← GetActive orgID newOwnerID;
    _ ← Transact_in id_world_l (
      _ ← Members_UpdateRole orgID currentOwnerID RoleAdmin;
      Members_UpdateRole orgID newOwnerID RoleOwner);
    Record_ c (entry_of (Some currentOwnerID) (Some orgID) "member.transfer_ownership" "" "" "" ip ua).

Definition Members_List c (orgID : string) : db (iddb W) (list Member) :=
  _ ← guard c orgID PermMemberRead; Members_ListByOrg orgID.

Definition ListInvitations c (orgID : string) : db (iddb W) (list Invitation) :=
  _ ← guard c orgID PermMemberRead; ListPendingInvitations orgID.

(** ** API keys (apikey/service.go) *)

Definition Keys_Create c (orgID userID : string) (i : CreateKeyInput) ip ua : db (iddb W) (APIKey * string) :=
  _ ← guard c orgID PermAPIKeyManage;
  res ← APIKeys_Create orgID (key_Name i) (key_Scopes i) (key_ExpiresAt i) userID;
  _ ← ignore (Record_ c (entry_of (Some userID) (Some orgID) ActionAPIKeyCreate "api_key" (APIKey.ID res.1) "" ip ua));
  mret res.

Definition Keys_List c (orgID : string) : db (iddb W) (list APIKey) :=
  _ ← guard c orgID PermAPIKeyRead; APIKeys_ListByOrg orgID.

Definition Keys_Rotate c (orgID keyID userID ip ua : string) : db (iddb W) (APIKey * string) :=
  _ ← guard c orgID PermAPIKeyManage;
  res ← APIKeys_Rotate orgID keyID;
  _ ← ignore (Record_ c (entry_of (Some userID) (Some orgID) ActionAPIKeyRotate "api_key" keyID "" ip ua));
  mret res.

Definition Keys_Disable c (orgID keyID userID ip ua : string) : db (iddb W) unit :=
  _ ← guard c orgID PermAPIKeyManage;
  _ ← APIKeys_Disable orgID keyID;
  Record_ c (entry_of (Some userID) (Some orgID) "apikey.disable" "api_key" keyID "" ip ua).

Definition Keys_Delete c (orgID keyID userID ip ua : string) : db (iddb W) unit :=
  _ ← guard c orgID PermAPIKeyManage;
  _ ← APIKeys_Delete orgID keyID;
  Record_ c (entry_of (Some userID) (Some orgID) ActionAPIKeyDelete "api_key" keyID "" ip ua).

Definition invalid_key : Error := Unauthenticated "invalid api key".

Definition Keys_Authenticate (rawKey ip : string) : db (iddb W) APIKey :=
  '(prefix, secret) ← of_result (match SplitKey rawKey with Ok p => Ok p | Err _ => Err (Platform invalid_key) end);
  k ← on_error (λ _, Platform invalid_key) (APIKeys_GetByPrefix prefix);
  if negb (APIKey_VerifySecret k secret) then fail_with invalid_key
  else _ ← ignore (APIKeys_RecordUsage (APIKey.ID k) ip); mret k.

(** ** Sessions (session/service.go) *)

Definition getOwnedSession (userID sessionID : string) : db (iddb W) Session :=
  sessions ← Sessions_ListByUser userID;
  match select (λ x, Session.ID x =s? sessionID) sessions with
  | x :: _ => mret x
  | [] => fail_with (NotFound "session not found")
  end.

Definition Sessions_List (userID : string) : db (iddb W) (list Session) := Sessions_ListByUser userID.

Definition Sessions_Revoke (redis : bool) c (userID sessionID ip ua : string) : db (iddb W) unit :=
  sess ← getOwnedSession userID sessionID;
  _ ← Session_Revoke sessionID userID;
  _ ← ignore (RevokeSession redis sessionID (Session.ExpiresAt sess));
  Record_ c (entry_of (Some userID) None ActionSessionRevoke "session" sessionID "" ip ua).

Definition Sessions_RevokeAll c (userID exceptSessionID ip ua : string) : db (iddb W) Z :=
  n ← Repository_RevokeAll userID exceptSessionID;
  _ ← ignore (Record_ c (entry_of (Some userID) None ActionSessionRevoke "" "" "" ip ua));
  mret n.
End services.
