(* ===== verification/Access.v ===== *)
(** * Identity over HTTP (packages/application/identity/http; httpx/request.go)

    The middleware, the handlers and the route table.  chi has chosen the route:
    a request carries its method, the pattern that matched and the parameters of
    the path.  What encoding/json and the validator make of a body is a class
    ([Decoder]).  A handler returns the status and the payload of its answer;
    [serve] turns an error into the answer of [dto.Error].  An empty value of a
    context is an absent one. *)

From Stdlib Require Import Ascii.
From S2P Require Import Prelude GoLib Errors Postgres Sql Rbac DeployModel Rows Repository ControlPlane Password IdentityModel Slug IdentityStore IdentityService.

(** ** Requests *)

Module Request.
Record t := mk {
  Method : string; Pattern : string; params : gmap string string;
  headers : gmap string string; RemoteAddr : string; body : string;
  query : gmap string string;
}.
End Request.
Abbreviation Request := Request.t.

Definition Header (r : Request) (key : string) : string := default "" (Request.headers r !! key).

Definition RequirePathParam (r : Request) (key : string) : result error string :=
  let v := default "" (Request.params r !! key) in
  if v =s? "" then Err (Platform (InvalidArgument ("missing path parameter " +:+ quote +:+ key +:+ quote))) else Ok v.

Definition QueryString (r : Request) (key : string) : string := default "" (Request.query r !! key).

(** [strconv.Atoi]: an optional sign and decimal digits. *)
Fixpoint decimal (n : Z) (s : string) : option Z :=
  match s with
  | EmptyString => Some n
  | String a s => if digit a then decimal (10 * n + Z.of_nat (nat_of_ascii a) - 48) s else None
  end.

Definition Atoi (s : string) : option Z :=
  let n := match s with
           | EmptyString => None
           | String "-" (String _ _ as s) => Z.opp <$> decimal 0 s
           | String "+" (String _ _ as s) => decimal 0 s
           | _ => decimal 0 s
           end in
  n ← n; if bool_decide (int64_min ≤ n ≤ int64_max) then Some n else None.

Definition QueryInt (r : Request) (key : string) : option Z := Atoi (QueryString r key).

Definition QueryBool (r : Request) (key : string) : bool * bool :=
  let s := ToLower (QueryString r key) in
  if (s =s? "true") || (s =s? "1") || (s =s? "yes") then (true, true)
  else if (s =s? "false") || (s =s? "0") || (s =s? "no") then (false, true)
  else (false, false).

Definition ClientIP (r : Request) : string :=
  let xff := Header r "X-Forwarded-For" in
  let xri := Header r "X-Real-IP" in
  if negb (xff =s? "") then
    match index xff "," with Some i => TrimSpace (take_bytes i xff) | None => TrimSpace xff end
  else if negb (xri =s? "") then TrimSpace xri
  else
    let host := Request.RemoteAddr r in
    match last_index host ":" with Some i => take_bytes i host | None => host end.

(** The context of a request (tenant/context.go). *)
Module Ctx.
Record t := mk { caller : Caller; SessionID : string; AuthMethod : string }.
Definition with_caller (f : Caller → Caller) (x : t) : t := mk (f (caller x)) (SessionID x) (AuthMethod x).
End Ctx.
Abbreviation Ctx := Ctx.t.

Definition AuthJWT : string := "jwt".
Definition AuthAPIKey : string := "api_key".
Definition AuthPAT : string := "pat".

Definition WithUser (userID : string) : Ctx → Ctx := Ctx.with_caller (λ c,
  Caller.mk userID (Caller.OrgID c) (Caller.MemberRole c) (Caller.RequestID c) (Caller.CorrelationID c)).
Definition WithOrg (orgID : string) : Ctx → Ctx := Ctx.with_caller (λ c,
  Caller.mk (Caller.UserID c) orgID (Caller.MemberRole c) (Caller.RequestID c) (Caller.CorrelationID c)).
Definition WithMemberRole (role : string) : Ctx → Ctx := Ctx.with_caller (λ c,
  Caller.mk (Caller.UserID c) (Caller.OrgID c) role (Caller.RequestID c) (Caller.CorrelationID c)).
Definition WithSession (sessionID : string) (x : Ctx) : Ctx := Ctx.mk (Ctx.caller x) sessionID (Ctx.AuthMethod x).
Definition WithAuthMethod (m : string) (x : Ctx) : Ctx := Ctx.mk (Ctx.caller x) (Ctx.SessionID x) m.

(** ** Answers (platform/dto) *)

Inductive Payload :=
  | UserData (u : PublicUser)
  | TokenData (p : TokenPair)
  | OrgData (o : Organization)
  | OrgList (l : list Organization)
  | MemberData (m : Member)
  | MemberList (l : list Member)
  | InvitationData (inv : Invitation) (token : string)
  | KeyData (k : APIKey) (raw : string)
  | KeyList (l : list APIKey)
  | SessionList (l : list Session).

Record AnswerOf (P : Type) := { answer_status : Z; answer_data : option P }.
Arguments answer_status {P}.
Arguments answer_data {P}.
Abbreviation Answer := (AnswerOf Payload).

Definition OK {P} (p : P) : AnswerOf P := {| answer_status := 200; answer_data := Some p |}.
Definition Created {P} (p : P) : AnswerOf P := {| answer_status := 201; answer_data := Some p |}.
Definition NoContent {P} : AnswerOf P := {| answer_status := 204; answer_data := None |}.

Inductive ResponseOf (P : Type) :=
  | Success (a : AnswerOf P)
  | Failure (status : Z) (code message : string).
Arguments Success {P}.
Arguments Failure {P}.
Abbreviation Response := (ResponseOf Payload).

Definition dto_Error {P} (err : error) : option (ResponseOf P) :=
  (λ e, Failure (HTTPStatus e) (code e) (message e)) <$> From (Some err).

(** What runs for a request, of the routes of a module; [None] where no route
    matches. *)
Definition dispatch {S P} (routes : list (string * string * (Ctx → Request → db S (AnswerOf P)))) (x : Ctx) (r : Request)
    (st : S * faults) : option (ResponseOf P) * (S * faults) :=
  match filter (λ '(m, p, h), m = Request.Method r ∧ p = Request.Pattern r) routes with
  | [] => (None, st)
  | (_, _, h) :: _ =>
      match h x r st with
      | (Ok a, st') => (Some (Success a), st')
      | (Err e, st') => (dto_Error e, st')
      end
  end.

(** [dto.DecodeValidate] for the body of one operation. *)
Class Decoder (A : Type) := DecodeValidate : string → result error A.

Record RefreshBody := { body_RefreshToken : string }.
Record VerifyEmailInput := { verify_Token : string }.
Record RequestPasswordResetInput := { request_Email : string }.
Record AcceptInput := { accept_Token : string }.
Record UpdateRoleInput := { new_Role : string }.

Section access.
Context {W : Type} `{IW : IdentityWorld W} `{D : Driver} `{So : Sorter} `{Dg : Digest} `{ST : ServerTyping}.
Context `{J : JwtLibrary} `{Ar : Argon2} (cfg : AuthConfig.t).

Definition Handler : Type := Ctx → Request → db (iddb W) Answer.

(** ** Middleware *)

Definition authenticateJWT (x : Ctx) (tok : string) : db (iddb W) Ctx :=
  claims ← ValidateAccessToken (AuthConfig.jwt cfg) tok;
  revoked ← on_error (λ _, Platform (Unauthenticated "session revoked"))
              (IsSessionRevoked (AuthConfig.redis cfg) (Claims.SessionID claims));
  if revoked : bool then fail_with (Unauthenticated "session revoked")
  else
    let x := WithAuthMethod AuthJWT (WithSession (Claims.SessionID claims) (WithUser (Claims.UserID claims) x)) in
    if negb (Claims.OrgID claims =s? "") then
      r ← attempt (GetActive (Claims.OrgID claims) (Claims.UserID claims));
      let x := WithOrg (Claims.OrgID claims) x in
      mret (match r with Ok m => WithMemberRole (Member.Role m) x | Err _ => x end)
    else mret x.

Definition invalid_token : Error := Unauthenticated "invalid token".

Definition authenticateToken (x : Ctx) (r : Request) (raw : string) : db (iddb W) Ctx :=
  if HasPrefix raw "agn_" then
    k ← Keys_Authenticate raw (ClientIP r);
    mret (WithAuthMethod AuthAPIKey (WithUser (APIKey.CreatedBy k) (WithOrg (APIKey.OrgID k) x)))
  else if HasPrefix raw "pat_" then
    '(prefix, secret) ← on_error (λ _, Platform invalid_token) (of_result (SplitKey raw));
    t ← on_error (λ _, Platform invalid_token) (PATs_GetByPrefix prefix);
    if negb (PAT_VerifySecret t secret) then fail_with invalid_token
    else
      _ ← ignore (PATs_RecordUsage (Token.ID t));
      let x := WithAuthMethod AuthPAT (WithUser (Token.UserID t) x) in
      mret (match Token.OrgID t with Some o => WithOrg o x | None => x end)
  else fail_with (Unauthenticated "unsupported token type").

(** The middleware wraps the handlers of any module whose state has the tables of
    identity at [l]. *)
Section middleware.
Context {S A : Type} (l : Lens S (iddb W)).
#[local] Abbreviation handler := (Ctx → Request → db S A).

Definition Authenticate (next : handler) : handler := λ x r,
  let authHeader := Header r "Authorization" in
  if HasPrefix authHeader "Bearer " then
    let token := TrimPrefix authHeader "Bearer " in
    if HasPrefix token "agn_" || HasPrefix token "pat_"
    then x ← zoom l (authenticateToken x r token); next x r
    else x ← zoom l (authenticateJWT x token); next x r
  else next x r.

Definition RequireAuth (next : handler) : handler := λ x r,
  if Caller.UserID (Ctx.caller x) =s? "" then fail_with (Unauthenticated "authentication required") else next x r.

Definition OrgContext (next : handler) : handler := λ x r,
  orgID ← of_result (RequirePathParam r "orgID");
  userID ← of_result (RequireUser (Ctx.caller x));
  mem ← on_error (λ _, Platform (PermissionDenied "not a member of this organization"))
          (zoom l (GetActive orgID userID));
  next (WithMemberRole (Member.Role mem) (WithOrg orgID x)) r.

Definition PermissionRequired (perm : Permission) (next : handler) : handler := λ x r,
  _ ← refuse (RequirePermission (Caller.MemberRole (Ctx.caller x)) perm); next x r.

Definition permitted (perm : option Permission) (h : handler) : handler :=
  match perm with Some p => PermissionRequired p h | None => h end.
End middleware.

(** The state of the identity module on its own. *)
Definition self : Lens (iddb W) (iddb W).
Proof. by refine {| view s := s; put i s := i |}. Defined.

(** The origins the loop of [CSRFProtection] collects before a star. *)
Fixpoint allowed_origins (l : list string) : bool * list string :=
  match l with
  | [] => (false, [])
  | o :: l => if o =s? "*" then (true, []) else let '(all, allowed) := allowed_origins l in (all, o :: allowed)
  end.

Definition CSRFProtection (allowedOrigins : list string) (next : Handler) : Handler := λ x r,
  let '(allowAll, allowed) := allowed_origins allowedOrigins in
  if (Request.Method r =s? "GET") || (Request.Method r =s? "HEAD") || (Request.Method r =s? "OPTIONS") then next x r
  else if allowAll then next x r
  else
    let origin := or_else (Header r "Origin") (Header r "Referer") in
    if origin =s? "" then next x r
    else if negb (existsb (String.eqb origin) allowed)
    then fail_with (PermissionDenied "CSRF validation failed: origin not allowed")
    else next x r.

(** ** Handlers *)

Context `{DRegister : Decoder RegisterInput} `{DLogin : Decoder LoginInput} `{DRefresh : Decoder RefreshBody}.
Context `{DVerify : Decoder VerifyEmailInput} `{DRequest : Decoder RequestPasswordResetInput}.
Context `{DReset : Decoder ResetPasswordInput} `{DChange : Decoder ChangePasswordInput}.
Context `{DProfile : Decoder UpdateProfileInput} `{DOrg : Decoder CreateOrgInput} `{DUpdate : Decoder UpdateOrgInput}.
Context `{DInvite : Decoder InviteInput} `{DAccept : Decoder AcceptInput} `{DRole : Decoder UpdateRoleInput}.
Context `{DKey : Decoder CreateKeyInput}.

Definition decode_body A `{Decoder A} (r : Request) : db (iddb W) A := of_result (DecodeValidate (Request.body r)).
Definition user_of (x : Ctx) : db (iddb W) string := of_result (RequireUser (Ctx.caller x)).
Definition param (r : Request) (key : string) : db (iddb W) string := of_result (RequirePathParam r key).
Definition user_agent (r : Request) : string := Header r "User-Agent".

Definition handle_Register : Handler := λ x r,
  i ← decode_body RegisterInput r;
  u ← Register cfg (Ctx.caller x) i (ClientIP r) (user_agent r);
  mret (Created (UserData (Public u))).

Definition handle_Login : Handler := λ x r,
  i ← decode_body LoginInput r;
  p ← Login cfg (Ctx.caller x) i (ClientIP r) (user_agent r);
  mret (OK (TokenData p)).

Definition handle_Refresh : Handler := λ x r,
  i ← decode_body RefreshBody r;
  p ← Refresh cfg (Ctx.caller x) (body_RefreshToken i) (ClientIP r) (user_agent r);
  mret (OK (TokenData p)).

Definition handle_Logout : Handler := λ x r,
  i ← decode_body RefreshBody r;
  _ ← Logout cfg (Ctx.caller x) (body_RefreshToken i) (ClientIP r) (user_agent r);
  mret NoContent.

Definition handle_VerifyEmail : Handler := λ x r,
  i ← decode_body VerifyEmailInput r;
  _ ← VerifyEmail (Ctx.caller x) (verify_Token i) (ClientIP r) (user_agent r);
  mret NoContent.

Definition handle_RequestPasswordReset : Handler := λ x r,
  i ← decode_body RequestPasswordResetInput r;
  _ ← ignore (RequestPasswordReset (Ctx.caller x) (request_Email i) (ClientIP r) (user_agent r));
  mret NoContent.

Definition handle_ResetPassword : Handler := λ x r,
  i ← decode_body ResetPasswordInput r;
  _ ← ResetPassword cfg (Ctx.caller x) i (ClientIP r) (user_agent r);
  mret NoContent.

Definition handle_ChangePassword : Handler := λ x r,
  userID ← user_of x;
  i ← decode_body ChangePasswordInput r;
  _ ← ChangePassword cfg (Ctx.caller x) userID i (ClientIP r) (user_agent r);
  mret NoContent.

Definition handle_Me : Handler := λ x r,
  userID ← user_of x;
  u ← Users_Get userID;
  mret (OK (UserData (Public u))).

Definition handle_UpdateProfile : Handler := λ x r,
  userID ← user_of x;
  i ← decode_body UpdateProfileInput r;
  u ← UpdateProfile (Ctx.caller x) userID i (ClientIP r) (user_agent r);
  mret (OK (UserData (Public u))).

Definition handle_CreateOrg : Handler := λ x r,
  userID ← user_of x;
  i ← decode_body CreateOrgInput r;
  o ← Orgs_Create (Ctx.caller x) userID i (ClientIP r) (user_agent r);
  mret (Created (OrgData o)).

Definition handle_ListOrgs : Handler := λ x r,
  userID ← user_of x;
  l ← Orgs_List userID;
  mret (OK (OrgList l)).

Definition handle_GetOrg : Handler := λ x r,
  orgID ← param r "orgID";
  o ← Orgs_Get (Ctx.caller x) orgID;
  mret (OK (OrgData o)).

Definition handle_UpdateOrg : Handler := λ x r,
  orgID ← param r "orgID";
  i ← decode_body UpdateOrgInput r;
  o ← Orgs_Update (Ctx.caller x) orgID i (ClientIP r) (user_agent r);
  mret (OK (OrgData o)).

Definition handle_DeleteOrg : Handler := λ x r,
  orgID ← param r "orgID";
  _ ← Orgs_Delete (Ctx.caller x) orgID (ClientIP r) (user_agent r);
  mret NoContent.

Definition handle_ListMembers : Handler := λ x r,
  orgID ← param r "orgID";
  l ← Members_List (Ctx.caller x) orgID;
  mret (OK (MemberList l)).

Definition handle_InviteMember : Handler := λ x r,
  orgID ← param r "orgID";
  userID ← user_of x;
  i ← decode_body InviteInput r;
  _ ← of_result (ParseRole (inv_Role i));
  res ← Invite (Ctx.caller x) orgID userID i (ClientIP r) (user_agent r);
  mret (Created (InvitationData res.1 res.2)).

Definition handle_AcceptInvitation : Handler := λ x r,
  userID ← user_of x;
  i ← decode_body AcceptInput r;
  m ← Accept (Ctx.caller x) userID (accept_Token i) (ClientIP r) (user_agent r);
  mret (OK (MemberData m)).

Definition handle_RemoveMember : Handler := λ x r,
  orgID ← param r "orgID";
  targetID ← param r "userID";
  actorID ← user_of x;
  _ ← Remove (Ctx.caller x) orgID targetID actorID (ClientIP r) (user_agent r);
  mret NoContent.

Definition handle_UpdateMemberRole : Handler := λ x r,
  orgID ← param r "orgID";
  targetID ← param r "userID";
  actorID ← user_of x;
  i ← decode_body UpdateRoleInput r;
  _ ← UpdateRole (Ctx.caller x) orgID targetID actorID (new_Role i) (ClientIP r) (user_agent r);
  mret NoContent.

Definition handle_ListAPIKeys : Handler := λ x r,
  orgID ← param r "orgID";
  l ← Keys_List (Ctx.caller x) orgID;
  mret (OK (KeyList l)).

Definition handle_CreateAPIKey : Handler := λ x r,
  orgID ← param r "orgID";
  userID ← user_of x;
  i ← decode_body CreateKeyInput r;
  res ← Keys_Create (Ctx.caller x) orgID userID i (ClientIP r) (user_agent r);
  mret (Created (KeyData res.1 res.2)).

Definition handle_RotateAPIKey : Handler := λ x r,
  orgID ← param r "orgID";
  keyID ← param r "keyID";
  userID ← user_of x;
  res ← Keys_Rotate (Ctx.caller x) orgID keyID userID (ClientIP r) (user_agent r);
  mret (OK (KeyData res.1 res.2)).

Definition handle_DeleteAPIKey : Handler := λ x r,
  orgID ← param r "orgID";
  keyID ← param r "keyID";
  userID ← user_of x;
  _ ← Keys_Delete (Ctx.caller x) orgID keyID userID (ClientIP r) (user_agent r);
  mret NoContent.

Definition handle_ListSessions : Handler := λ x r,
  userID ← user_of x;
  l ← Sessions_List userID;
  mret (OK (SessionList l)).

Definition handle_RevokeSession : Handler := λ x r,
  userID ← user_of x;
  sessionID ← param r "sessionID";
  _ ← Sessions_Revoke (AuthConfig.redis cfg) (Ctx.caller x) userID sessionID (ClientIP r) (user_agent r);
  mret NoContent.

Definition handle_LogoutAll : Handler := λ x r,
  userID ← user_of x;
  _ ← Sessions_RevokeAll (Ctx.caller x) userID (Ctx.SessionID x) (ClientIP r) (user_agent r);
  mret NoContent.

(** ** Routes (router.go) *)

Definition public : list (string * string * Handler) :=
  [("POST", "/auth/register", handle_Register);
   ("POST", "/auth/login", handle_Login);
   ("POST", "/auth/refresh", handle_Refresh);
   ("POST", "/auth/logout", handle_Logout);
   ("POST", "/auth/verify-email", handle_VerifyEmail);
   ("POST", "/auth/password-reset", handle_RequestPasswordReset);
   ("POST", "/auth/password-reset/confirm", handle_ResetPassword)].

(** The groups behind [Authenticate] and [RequireAuth]. *)
Definition personal : list (string * string * Handler) :=
  [("GET", "/auth/me", handle_Me);
   ("PATCH", "/auth/me", handle_UpdateProfile);
   ("POST", "/auth/change-password", handle_ChangePassword);
   ("POST", "/auth/invitations/accept", handle_AcceptInvitation);
   ("GET", "/auth/sessions", handle_ListSessions);
   ("DELETE", "/auth/sessions/{sessionID}", handle_RevokeSession);
   ("POST", "/auth/logout-all", handle_LogoutAll);
   ("POST", "/orgs/", handle_CreateOrg);
   ("GET", "/orgs/", handle_ListOrgs)].

(** The routes under /orgs/{orgID}, with the permission of [RequirePermission]
    where the route has one. *)
Definition scoped : list (string * string * option Permission * Handler) :=
  [("GET", "/orgs/{orgID}/", None, handle_GetOrg);
   ("PATCH", "/orgs/{orgID}/", Some PermOrgWrite, handle_UpdateOrg);
   ("DELETE", "/orgs/{orgID}/", Some PermOrgDelete, handle_DeleteOrg);
   ("GET", "/orgs/{orgID}/members/", Some PermMemberRead, handle_ListMembers);
   ("POST", "/orgs/{orgID}/members/", Some PermMemberInvite, handle_InviteMember);
   ("DELETE", "/orgs/{orgID}/members/{userID}", Some PermMemberRemove, handle_RemoveMember);
   ("PATCH", "/orgs/{orgID}/members/{userID}", Some PermMemberManage, handle_UpdateMemberRole);
   ("GET", "/orgs/{orgID}/api-keys/", Some PermAPIKeyRead, handle_ListAPIKeys);
   ("POST", "/orgs/{orgID}/api-keys/", Some PermAPIKeyManage, handle_CreateAPIKey);
   ("POST", "/orgs/{orgID}/api-keys/{keyID}/rotate", Some PermAPIKeyManage, handle_RotateAPIKey);
   ("DELETE", "/orgs/{orgID}/api-keys/{keyID}", Some PermAPIKeyManage, handle_DeleteAPIKey)].

(** What runs for a route: its middleware and its handler. *)
Definition Mount : list (string * string * Handler) :=
  public
  ++ ((λ '(m, p, h), (m, p, Authenticate self (RequireAuth h))) <$> personal)
  ++ ((λ '(m, p, perm, h), (m, p, Authenticate self (RequireAuth (OrgContext self (permitted perm h))))) <$> scoped).

(** The request's answer; [None] where no route of the module matches. *)
Definition serve : Ctx → Request → iddb W * faults → option Response * (iddb W * faults) := dispatch Mount.
End access.
