(* ===== verification/IdentityFacts.v ===== *)
(** * Identity: what holds of the services *)

From S2P Require Import Prelude GoLib Errors Postgres Sql Rbac DeployModel Rows Repository ControlPlane Password IdentityModel Slug IdentityStore IdentityService Access.

(** ** Automation

    A predicate that looks at some tables only is kept by the statements on the
    others and by the readings of the world: conversion decides it. *)

Ltac id_keep :=
  cbn beta iota zeta;
  lazymatch goal with
  | |- preserves _ (mbind _ _) => apply preserves_bind; [|intros ?]
  | |- preserves _ (mret _) => apply preserves_ret
  | |- preserves _ (fail _) => apply preserves_fail
  | |- preserves _ (fail_with _) => apply preserves_fail_with
  | |- preserves _ (of_result _) => apply preserves_of_result
  | |- preserves _ (attempt _) => apply preserves_attempt
  | |- preserves _ (ignore _) => apply preserves_ignore
  | |- preserves _ (translate _ _) => apply preserves_translate
  | |- preserves _ (on_error _ _) => apply preserves_on_error
  | |- preserves _ (Transact_in _ _) => apply preserves_Transact_in; [by intros ???|]
  | |- preserves _ (draw _ _) => apply preserves_draw; by intros ???
  | |- preserves _ now_ => apply preserves_draw; by intros ???
  | |- preserves _ new_uuid_ => apply preserves_draw; by intros ???
  | |- preserves _ (refuse ?e) => destruct e; cbn [refuse]
  | |- preserves _ (zoom _ _) => apply preserves_zoom; intros ?
  | |- preserves _ (if ?b then _ else _) => destruct b
  | |- preserves _ (match ?x with _ => _ end) => destruct x
  | |- preserves _ (stmt _ _) => apply preserves_stmt; let s := fresh "s" in let H := fresh "H" in intros s H; exact H
  end.

(** What a statement's function leaves of the rows [q]. *)
Section keeps.
Context {R : Type} (q : R → bool).

Definition spares {A} (f : list R → result error A * list R) : Prop := ∀ t, select q (f t).2 = select q t.

Lemma spares_read {A} (g : list R → result error A) : spares (λ t, (g t, t)).
Proof. by intros t. Qed.
Lemma spares_select_row p : spares (select_row p).
Proof. intros t. unfold select_row. by destruct (select p t). Qed.
Lemma spares_with_uuids {A} ids (f : list R → result error A * list R) : spares f → spares (with_uuids ids f).
Proof. intros H t. unfold with_uuids. destruct (forallb _ ids); [apply H|done]. Qed.
Lemma spares_update_rows p f : (∀ r, p r = true → q r = false ∧ q (f r) = false) → spares (update_rows p f).
Proof. intros H t. by apply select_update_outside. Qed.
Lemma spares_update_returning p f :
  (∀ r, p r = true → q r = false ∧ q (f r) = false) → spares (update_returning p f).
Proof. intros H t. unfold update_returning. destruct (select p t); [done|]. by apply select_update_outside. Qed.
Lemma spares_insert_checked id_of clash refs row : q row = false → spares (insert_checked id_of clash refs row).
Proof.
  intros H t. unfold insert_checked. destruct (existsb _ t), refs; try done. cbn [snd]. rewrite select_app.
  rewrite (select_none q [row]); [by rewrite app_nil_r|]. by intros r ->%list_elem_of_singleton.
Qed.
Lemma spares_delete {A} p (r : list R → A) :
  (∀ r, p r = true → q r = false) → spares (λ t, (Ok (r t), delete_where p t)).
Proof.
  intros H t. cbn [snd]. unfold select, delete_where. rewrite list_filter_filter. apply list_filter_iff. intros x.
  split; [tauto|]. intros Hq. split; [done|]. destruct (p x) eqn:E; [|done]. apply H in E. congruence.
Qed.
Lemma spares_update_one {S} (T : Table S R) s p f :
  (∀ r, p r = true → q r = false ∧ q (f r) = false) → spares (update_one T s p f).
Proof.
  intros H t. unfold update_one, returning.
  destruct (existsb _ _); [done|]. destruct (forallb _ _); [|done]. by apply select_update_outside.
Qed.
End keeps.

(** ** Tenants

    The rows of an organization. *)

Definition org_rows (o : string) {W} (s : iddb W) : list Organization * list Member * list Invitation * list APIKey :=
  (select (λ x, Organization.ID x =s? o) (orgs s), select (λ m, Member.OrgID m =s? o) (members s),
   select (λ i, Invitation.OrgID i =s? o) (invitations s), select (λ k, APIKey.OrgID k =s? o) (api_keys s)).

(** The same but for the traces of the uses of API keys. *)
Definition key_but_use (k : APIKey) : APIKey :=
  APIKey.set_UpdatedAt 0 (APIKey.set_LastUsedIP "" (APIKey.set_LastUsedAt None k)).

Definition org_rows_but_use (o : string) {W} (s : iddb W) : list Organization * list Member * list Invitation * list APIKey :=
  let '(a, m, i, k) := org_rows o s in (a, m, i, key_but_use <$> k).

Section tenants.
Context {W : Type} `{IW : IdentityWorld W} `{D : Driver} `{So : Sorter} `{Dg : Digest} `{ST : ServerTyping}.
Context (o : string) (rows : list Organization * list Member * list Invitation * list APIKey).

#[local] Abbreviation mine := (λ s : iddb W, org_rows o s = rows).

Lemma mine_orgs {A} (f : iddb W → list Organization → result error A * list Organization) :
  (∀ s, spares (λ x, Organization.ID x =s? o) (f s)) → preserves mine (stmt orgs_l f).
Proof. intros H. apply preserves_stmt. intros s <-. unfold org_rows. cbn [put view orgs_l members_l invitations_l api_keys_l orgs members invitations api_keys set_orgs set_members set_invitations set_api_keys]. by rewrite H. Qed.
Lemma mine_members {A} (f : iddb W → list Member → result error A * list Member) :
  (∀ s, spares (λ x, Member.OrgID x =s? o) (f s)) → preserves mine (stmt members_l f).
Proof. intros H. apply preserves_stmt. intros s <-. unfold org_rows. cbn [put view orgs_l members_l invitations_l api_keys_l orgs members invitations api_keys set_orgs set_members set_invitations set_api_keys]. by rewrite H. Qed.
Lemma mine_invitations {A} (f : iddb W → list Invitation → result error A * list Invitation) :
  (∀ s, spares (λ x, Invitation.OrgID x =s? o) (f s)) → preserves mine (stmt invitations_l f).
Proof. intros H. apply preserves_stmt. intros s <-. unfold org_rows. cbn [put view orgs_l members_l invitations_l api_keys_l orgs members invitations api_keys set_orgs set_members set_invitations set_api_keys]. by rewrite H. Qed.
Lemma mine_api_keys {A} (f : iddb W → list APIKey → result error A * list APIKey) :
  (∀ s, spares (λ x, APIKey.OrgID x =s? o) (f s)) → preserves mine (stmt api_keys_l f).
Proof. intros H. apply preserves_stmt. intros s <-. unfold org_rows. cbn [put view orgs_l members_l invitations_l api_keys_l orgs members invitations api_keys set_orgs set_members set_invitations set_api_keys]. by rewrite H. Qed.
End tenants.

Ltac spare :=
  first [apply spares_read | apply spares_select_row | apply spares_with_uuids; spare
        | apply spares_update_rows | apply spares_update_returning | apply spares_insert_checked
        | apply spares_delete | apply spares_update_one].

Ltac isolate :=
  repeat first
    [ id_keep
    | progress (cbn beta iota zeta)
    | apply mine_orgs; intros ?; spare
    | apply mine_members; intros ?; spare
    | apply mine_invitations; intros ?; spare
    | apply mine_api_keys; intros ?; spare ].

(** A row that is updated belongs to another organization, before and after. *)
Ltac elsewhere :=
  intros; unfold active_in, in_org, enabled_key_of, key_of, is_row in *; cbn in *;
  repeat match goal with
  | H : _ && _ = true |- _ => apply andb_true_iff in H as [? ?]
  | H : (_ =s? _) = true |- _ => apply String.eqb_eq in H; subst
  | |- _ ∧ _ => split
  | |- (_ =s? _) = false => apply String.eqb_neq
  end; try done; try congruence.

Lemma set_some_key {A R K} (key : R → K) (set : A → R → R) (x : option A) r :
  (∀ a r, key (set a r) = key r) → key (set_some set x r) = key r.
Proof. intros H. destruct x; [apply H|done]. Qed.

Create HintDb tenant.

Lemma preserves_known {S A B} (I : S → Prop) (a : A) (k : A → db S B) :
  preserves I (k a) → preserves I (of_result (Ok a) ≫= k).
Proof. done. Qed.

Section scoped.
Context {W : Type} `{IW : IdentityWorld W} `{D : Driver} `{So : Sorter} `{Dg : Digest} `{ST : ServerTyping}.
Context (o : string) (rows : list Organization * list Member * list Invitation * list APIKey).
Context (orgID : string) (Hne : orgID ≠ o).
Implicit Types (c : Caller) (ip ua : string).

#[local] Abbreviation mine := (λ s : iddb W, org_rows o s = rows).

Lemma mine_Record c e : preserves mine (Record_ c e).
Proof. unfold Record_, Logger_Record. isolate. apply preserves_query. by intros s H. Qed.

Lemma mine_guard c perm : preserves mine (guard c orgID perm).
Proof. unfold guard. isolate. Qed.

#[local] Hint Resolve mine_Record mine_guard : tenant.

Lemma mine_Orgs_Get c : preserves mine (Orgs_Get c orgID).
Proof. unfold Orgs_Get, Org_GetByID, GetByID, get_by_id. isolate; auto with tenant. Qed.

Lemma mine_Orgs_Update c i ip ua : preserves mine (Orgs_Update c orgID i ip ua).
Proof.
  unfold Orgs_Update, Org_GetByID, Org_Update, GetByID, get_by_id, Update. isolate; auto with tenant.
  elsewhere. by rewrite !(set_some_key Organization.ID).
Qed.

Lemma mine_Orgs_Delete c ip ua : preserves mine (Orgs_Delete c orgID ip ua).
Proof.
  unfold Orgs_Delete, Org_SoftDelete, SoftDelete, done_. isolate; auto with tenant.
  elsewhere.
Qed.

Lemma mine_Members_List c : preserves mine (Members_List c orgID).
Proof. unfold Members_List, Members_ListByOrg. isolate; auto with tenant. Qed.

Lemma mine_Invite c by_ i ip ua : preserves mine (Invite c orgID by_ i ip ua).
Proof. unfold Invite, Generate, CreateInvitation. isolate; auto with tenant. by apply String.eqb_neq. Qed.

Lemma mine_Remove c target actor ip ua : preserves mine (Remove c orgID target actor ip ua).
Proof. unfold Remove, GetActive, Members_Remove, change_member, found. isolate; auto with tenant; elsewhere. Qed.

Lemma mine_UpdateRole c target actor role ip ua : preserves mine (UpdateRole c orgID target actor role ip ua).
Proof. unfold UpdateRole, GetActive, Members_UpdateRole, change_member, found. isolate; auto with tenant; elsewhere. Qed.

Lemma mine_Keys_List c : preserves mine (Keys_List c orgID).
Proof. unfold Keys_List, APIKeys_ListByOrg. isolate; auto with tenant. Qed.

Lemma mine_Keys_Create c user i ip ua : preserves mine (Keys_Create c orgID user i ip ua).
Proof.
  unfold Keys_Create, APIKeys_Create, APIKeyPrefix, Generate. isolate; auto with tenant. by apply String.eqb_neq.
Qed.

Lemma mine_Keys_Rotate c key user ip ua : preserves mine (Keys_Rotate c orgID key user ip ua).
Proof. unfold Keys_Rotate, APIKeys_Rotate, Generate. isolate; auto with tenant; elsewhere. Qed.

Lemma mine_Keys_Delete c key user ip ua : preserves mine (Keys_Delete c orgID key user ip ua).
Proof. unfold Keys_Delete, APIKeys_Delete, found. isolate; auto with tenant; elsewhere. Qed.
End scoped.

Section routes.
Context {W : Type} `{IW : IdentityWorld W} `{D : Driver} `{So : Sorter} `{Dg : Digest} `{ST : ServerTyping}.
Context `{DUpdate : Decoder UpdateOrgInput} `{DInvite : Decoder InviteInput} `{DRole : Decoder UpdateRoleInput}.
Context `{DKey : Decoder CreateKeyInput}.

(** A handler of a route of one organization leaves the rows of every other. *)
Lemma handlers_isolated o rows (m p : string) perm (h : Handler) x r :
  (m, p, perm, h) ∈ scoped → RequirePathParam r "orgID" ≠ Ok o →
  preserves (λ s : iddb W, org_rows o s = rows) (h x r).
Proof.
  intros Hh Ho. unfold scoped in Hh.
  repeat (apply elem_of_cons in Hh as [[= -> -> -> ->]|Hh]); [..|by apply elem_of_nil in Hh];
    (destruct (RequirePathParam r "orgID") as [o'|e] eqn:E;
     [assert (o' ≠ o) as Hne by congruence | ]).
  all: unfold handle_GetOrg, handle_UpdateOrg, handle_DeleteOrg, handle_ListMembers, handle_InviteMember,
    handle_RemoveMember, handle_UpdateMemberRole, handle_ListAPIKeys, handle_CreateAPIKey, handle_RotateAPIKey,
    handle_DeleteAPIKey, param, user_of, decode_body; rewrite E.
  all: try (by intros s fs H).
  all: apply preserves_known; repeat id_keep.
  all: auto using mine_Orgs_Get, mine_Orgs_Update, mine_Orgs_Delete, mine_Members_List, mine_Invite, mine_Remove,
    mine_UpdateRole, mine_Keys_List, mine_Keys_Create, mine_Keys_Rotate, mine_Keys_Delete.
Qed.
End routes.

(** ** Authentication and authorization *)

Definition bearer (r : Request) : option string :=
  let a := Header r "Authorization" in
  if HasPrefix a "Bearer " then Some (TrimPrefix a "Bearer ") else None.

(** Something that expires, or never does, has not expired at [t]. *)
Definition unexpired (expires : option Time) (t : Time) : Prop := ∀ e, expires = Some e → t < e.

(** The users a token stands for in a request that comes in the state [s] and is
    authenticated by the state [s1]: those of an access token valid at a moment
    in between and whose session has no revocation in Redis but one that has
    lapsed since, and those of an API key or a personal access token of [s] in
    force when the request came. *)
Inductive stands_for {W} `{IW : IdentityWorld W} `{CL : !ClockLaws W} `{Dg : Digest} `{J : JwtLibrary}
    (cfg : AuthConfig.t) (s s1 : iddb W) (tok : string) : string → Prop :=
  | by_access_token now c :
      instant (id_world s) ≤ now ≤ instant (id_world s1) →
      validate (AuthConfig.jwt cfg) now tok = Ok c →
      (AuthConfig.redis cfg = true → Claims.SessionID c ≠ "" →
       ∀ until, revoked s !! keySession (Claims.SessionID c) = Some until → until ≤ instant (id_world s1)) →
      stands_for cfg s s1 tok (Claims.UserID c)
  | by_api_key k secret :
      SplitKey tok = Ok (APIKey.Prefix k, secret) → k ∈ api_keys s → APIKey.DisabledAt k = None →
      unexpired (APIKey.ExpiresAt k) (instant (id_world s)) →
      APIKey.KeyHash k = Hash secret → stands_for cfg s s1 tok (APIKey.CreatedBy k)
  | by_personal_token t secret :
      SplitKey tok = Ok (Token.Prefix t, secret) → t ∈ pats s → Token.RevokedAt t = None →
      unexpired (Token.ExpiresAt t) (instant (id_world s)) → Token.TokenHash t = Hash secret →
      stands_for cfg s s1 tok (Token.UserID t).

(** The request may act in the organization of its path under [perm], and is
    handled in the context [x]. *)
Definition authorised {W} `{IW : IdentityWorld W} `{CL : !ClockLaws W} `{Dg : Digest} `{J : JwtLibrary}
    (cfg : AuthConfig.t) (s s1 : iddb W) (r : Request) (perm : option Permission) (x : Ctx) : Prop :=
  ∃ tok m, RequirePathParam r "orgID" = Ok (Caller.OrgID (Ctx.caller x)) ∧ bearer r = Some tok ∧
    stands_for cfg s s1 tok (Caller.UserID (Ctx.caller x)) ∧
    m ∈ members s ∧ Member.OrgID m = Caller.OrgID (Ctx.caller x) ∧ Member.UserID m = Caller.UserID (Ctx.caller x) ∧
    Member.Status m = Member.StatusActive ∧
    Caller.MemberRole (Ctx.caller x) = Member.Role m ∧
    match perm with Some p => HasPermission (Member.Role m) p = true | None => True end.

(** A personal access token but for the traces of its uses. *)
Definition token_but_use (t : Token) : Token := Token.set_UpdatedAt 0 (Token.set_LastUsedAt None t).

(** What authentication leaves: all but the world and the traces of uses. *)
Definition same_accounts {W} (s s' : iddb W) : Prop :=
  users s' = users s ∧ orgs s' = orgs s ∧ members s' = members s ∧ invitations s' = invitations s
  ∧ sessions s' = sessions s ∧ email_tokens s' = email_tokens s ∧ reset_tokens s' = reset_tokens s
  ∧ revoked s' = revoked s ∧ id_audit s' = id_audit s
  ∧ key_but_use <$> api_keys s' = key_but_use <$> api_keys s
  ∧ token_but_use <$> pats s' = token_but_use <$> pats s.

Ltac id_step :=
  cbn beta iota;
  lazymatch goal with
  | |- wp now_ _ _ _ => apply wp_draw; intros ??
  | |- wp new_uuid_ _ _ _ => apply wp_draw; intros ??
  | |- wp (draw _ _) _ _ _ => apply wp_draw; intros ??
  | |- wp (stmt _ _) _ _ _ => apply wp_stmt; cbn beta
  | |- wp (zoom _ _) _ _ _ => apply wp_zoom
  | |- _ => wp_step
  end.

(** Reading a row. *)
Lemma wp_select {S R} (l : Lens S (list R)) ids p (Q : R → S → Prop) E s :
  (∀ e, E e s) → (∀ r, r ∈ view l s → p r = true → Q r s) → wp (stmt l (λ _, with_uuids ids (select_row p))) Q E s.
Proof.
  intros He HQ. apply wp_stmt; [done|]. apply wp_with_uuids; [by rewrite put_view|]. intros _.
  apply select_row_elim; intros; rewrite put_view; auto.
Qed.

Lemma wp_select_row {S R} (l : Lens S (list R)) p (Q : R → S → Prop) E s :
  (∀ e, E e s) → (∀ r, r ∈ view l s → p r = true → Q r s) → wp (stmt l (λ _, select_row p)) Q E s.
Proof.
  intros He HQ. apply wp_stmt; [done|]. apply select_row_elim; intros; rewrite put_view; auto.
Qed.

(** A statement on the outcome of two steps, after the first. *)
Lemma outcome_bind {S A B} (m : db S A) (k : A → db S B) (P : result error B * (S * faults) → Prop) s :
  wp m (λ a s', ∀ fs, P (k a (s', fs))) (λ e s', ∀ fs, P (Err e, (s', fs))) s → ∀ fs, P ((m ≫= k) (s, fs)).
Proof.
  intros H fs. specialize (H fs). unfold mbind, db_bind. by destruct (m (s, fs)) as [[a|e] [s' fs']].
Qed.

(** Marking the use of rows leaves them but for the marks. *)
Lemma marked_but_use {R} (erase mark : R → R) p (t : list R) :
  (∀ r, erase (mark r) = erase r) → erase <$> update_where p mark t = erase <$> t.
Proof.
  intros H. unfold update_where. rewrite <- list_fmap_compose. apply list_fmap_ext. intros i r _. cbn.
  destruct (p r); [apply H|done].
Qed.

Section authorisation.
Context {W : Type} `{IW : IdentityWorld W} `{CL : !ClockLaws W} `{D : Driver} `{So : Sorter} `{Dg : Digest}.
Context `{ST : ServerTyping} `{J : JwtLibrary} `{Ar : Argon2} (cfg : AuthConfig.t).
Implicit Types (s : iddb W) (r : Request) (x : Ctx).

Lemma wp_GetActive o u (Q : Member → iddb W → Prop) E s :
  (∀ e, E e s) → (∀ m, m ∈ members s → active_in o u m = true → Q m s) → wp (GetActive o u) Q E s.
Proof. intros He HQ. unfold GetActive. id_step. by apply wp_select. Qed.

Lemma wp_now (Q : Time → iddb W → Prop) E s :
  (∀ t w, instant (id_world s) ≤ t ≤ instant w → Q t (set_id_world w s)) → wp now_ Q E s.
Proof. intros H. by apply wp_read_clock. Qed.

(** What is in force was in force before. *)
Lemma in_force_before expires now now' : now ≤ now' → in_force expires now' = true → unexpired expires now.
Proof. intros Hn H e ->. cbn in H. rewrite Z.ltb_lt in H. lia. Qed.

Lemma live_key_before now now' k :
  now ≤ now' → live_key now' k = true → APIKey.DisabledAt k = None ∧ unexpired (APIKey.ExpiresAt k) now.
Proof.
  unfold live_key. rewrite andb_true_iff. intros Hn [Hd Hf]. split; [by destruct (APIKey.DisabledAt k)|].
  by eapply in_force_before.
Qed.

Lemma unrevoked_token_spec t : unrevoked_token t = true → Token.RevokedAt t = None.
Proof. unfold unrevoked_token. by destruct (Token.RevokedAt t). Qed.

(** The state [s'] comes after [s], and authentication may have led to it. *)
Definition leads_to s s' : Prop := same_accounts s s' ∧ instant (id_world s) ≤ instant (id_world s').

Lemma leads_to_refl s : leads_to s s.
Proof. by repeat split. Qed.
Lemma leads_to_trans s s1 s2 : leads_to s s1 → leads_to s1 s2 → leads_to s s2.
Proof. unfold leads_to, same_accounts. intros. destruct_and!. repeat split; try congruence; lia. Qed.
Lemma leads_to_world s w : instant (id_world s) ≤ instant w → leads_to s (set_id_world w s).
Proof. by repeat split. Qed.

(** Authentication goes on from a state it has led to. *)
Lemma stands_for_later s s1 s2 tok u :
  instant (id_world s1) ≤ instant (id_world s2) → stands_for cfg s s1 tok u → stands_for cfg s s2 tok u.
Proof.
  intros Hi []; [|by eapply by_api_key|by eapply by_personal_token].
  eapply by_access_token; [|done|]; [lia|]. intros. etrans; eauto.
Qed.

Lemma wp_IsSessionRevoked redis sid s :
  wp (IsSessionRevoked redis sid)
    (λ b s', leads_to s s' ∧ (b = false → redis = true → sid ≠ "" →
       ∀ until, revoked s !! keySession sid = Some until → until ≤ instant (id_world s')))
    (λ _, leads_to s) s.
Proof.
  unfold IsSessionRevoked. destruct redis, (String.eqb_spec sid ""); cbn [negb orb];
    try (by id_step; split; [apply leads_to_refl|]).
  id_step. apply wp_now. intros now w Hnow. id_step. unfold redis_command. id_step; [by intros; apply leads_to_world; lia|].
  cbn beta iota. split; [by repeat split; cbn; lia|]. intros Hb _ _ until Hu. cbn in Hb |- *. rewrite Hu in Hb.
  bool_to_prop. lia.
Qed.

Lemma wp_authenticateJWT x tok s :
  wp (authenticateJWT cfg x tok)
    (λ x' s', leads_to s s' ∧ stands_for cfg s s' tok (Caller.UserID (Ctx.caller x'))) (λ _, leads_to s) s.
Proof.
  unfold authenticateJWT. id_step. unfold ValidateAccessToken. id_step. apply wp_now. intros now w Hnow. id_step.
  assert (leads_to s (set_id_world w s)) as Hw by (apply leads_to_world; lia).
  destruct (validate _ now tok) as [c|e] eqn:Hv; [|done].
  id_step. id_step.
  eapply wp_mono; [apply wp_IsSessionRevoked|cbn beta|cbn beta; intros e s' H; by eapply leads_to_trans].
  intros [|] s' [Hs Hr]; cbn beta iota; [id_step; by eapply leads_to_trans|].
  assert (leads_to s s') as Hs' by (by eapply leads_to_trans).
  assert (stands_for cfg s s' tok (Claims.UserID c)) as Hst.
  { eapply by_access_token; [|done|by auto]. destruct Hs as [_ Hs]. cbn in Hs. lia. }
  destruct (negb _); [|by id_step]. do 2 id_step.
  apply wp_GetActive; [intros e|intros m _ _]; by id_step.
Qed.

Lemma leads_to_used k ip now w s :
  instant (id_world s) ≤ instant w →
  leads_to s (put api_keys_l (update_where (λ k', APIKey.ID k' =s? APIKey.ID k) (λ k', APIKey.set_UpdatedAt now
    (APIKey.set_LastUsedIP ip (APIKey.set_LastUsedAt (Some now) k'))) (api_keys s)) (set_id_world w s)).
Proof. intros H. repeat split; [|done]. by apply marked_but_use. Qed.

Lemma leads_to_used_token t now w s :
  instant (id_world s) ≤ instant w →
  leads_to s (put pats_l (update_where (λ t', Token.ID t' =s? Token.ID t) (λ t', Token.set_UpdatedAt now
    (Token.set_LastUsedAt (Some now) t')) (pats s)) (set_id_world w s)).
Proof. intros H. repeat split; [|done]. by apply marked_but_use. Qed.

Lemma wp_Keys_Authenticate raw ip s :
  wp (Keys_Authenticate raw ip)
    (λ k s', leads_to s s' ∧ stands_for cfg s s' raw (APIKey.CreatedBy k)) (λ _, leads_to s) s.
Proof.
  unfold Keys_Authenticate. do 2 id_step.
  destruct (SplitKey raw) as [[prefix secret]|e] eqn:Hk; [|apply leads_to_refl].
  do 2 id_step. unfold APIKeys_GetByPrefix. id_step. apply wp_now. intros now w Hnow. id_step.
  apply wp_select_row; [by intros; apply leads_to_world; lia|].
  intros k Hin Hp. bool_to_prop. subst.
  destruct (APIKey_VerifySecret k secret) eqn:Hv; cbn [negb]; [|id_step; apply leads_to_world; lia].
  apply String.eqb_eq in Hv. do 2 id_step. unfold APIKeys_RecordUsage, done_. id_step.
  apply wp_now. intros now' w' Hnow'. cbn in Hnow'. do 2 id_step.
  assert (∀ s', stands_for cfg s s' raw (APIKey.CreatedBy k)) as Hst.
  { intros s'. destruct (live_key_before (instant (id_world s)) now k) as [? ?]; [lia|done|].
    by eapply by_api_key. }
  id_step; [intros e|apply wp_with_uuids; [|intros _]; cbn [update_rows]]; repeat id_step;
    (split; [|apply Hst]); try (apply (leads_to_world s w'); lia). apply (leads_to_used _ _ _ w' s). lia.
Qed.

Lemma wp_authenticateToken x r tok s :
  wp (authenticateToken x r tok)
    (λ x' s', leads_to s s' ∧ stands_for cfg s s' tok (Caller.UserID (Ctx.caller x'))) (λ _, leads_to s) s.
Proof.
  unfold authenticateToken. destruct (HasPrefix tok "agn_").
  { id_step. eapply wp_mono; [apply wp_Keys_Authenticate|cbn beta|done]. intros k s' H. by id_step. }
  destruct (HasPrefix tok "pat_"); [|id_step; apply leads_to_refl].
  do 3 id_step. destruct (SplitKey tok) as [[prefix secret]|e] eqn:Hk; [|apply leads_to_refl].
  do 2 id_step. unfold PATs_GetByPrefix. id_step. apply wp_now. intros now w Hnow. id_step.
  apply wp_select_row; [by intros; apply leads_to_world; lia|].
  intros t Hin Hp. bool_to_prop. subst.
  destruct (PAT_VerifySecret t secret) eqn:Hv; cbn [negb]; [|id_step; apply leads_to_world; lia].
  apply String.eqb_eq in Hv. do 2 id_step. unfold PATs_RecordUsage, done_. id_step.
  apply wp_now. intros now' w' Hnow'. cbn in Hnow'. do 2 id_step.
  assert (∀ s', stands_for cfg s s' tok (Token.UserID t)) as Hst.
  { intros s'. eapply by_personal_token; try done; [by apply unrevoked_token_spec|].
    by eapply in_force_before; [|eassumption]; lia. }
  id_step; [intros e|apply wp_with_uuids; [|intros _]; cbn [update_rows]]; repeat id_step;
    destruct (Token.OrgID t); (split; [|apply Hst]); try (apply (leads_to_world s w'); lia);
    apply (leads_to_used_token _ _ w' s); lia.
Qed.

(** The middleware of a module whose state has the tables of identity at [l]:
    the request is turned away, with nothing changed but what authentication
    changes, or the handler is run from the state authentication leaves. *)
Context {S A : Type} (l : Lens S (iddb W)).

Inductive gated (t : S) r perm (h : Ctx → Request → db S A) : result error A * (S * faults) → Prop :=
  | turned_away e s fs : leads_to (view l t) s → gated t r perm h (Err e, (put l s t, fs))
  | let_in x s fs :
      leads_to (view l t) s → authorised cfg (view l t) s r perm x → gated t r perm h (h x r (put l s t, fs)).

Lemma gated_inner (t : S) s x r perm (h : Ctx → Request → db S A) :
  leads_to (view l t) s →
  (Caller.UserID (Ctx.caller x) = "" ∨
   ∃ tok, bearer r = Some tok ∧ stands_for cfg (view l t) s tok (Caller.UserID (Ctx.caller x))) →
  ∀ fs, gated t r perm h (RequireAuth (OrgContext l (permitted perm h)) x r (put l s t, fs)).
Proof.
  intros Hs Hu. unfold RequireAuth.
  destruct (String.eqb_spec (Caller.UserID (Ctx.caller x)) "") as [E|E]; [intros fs; by apply turned_away|].
  destruct Hu as [|(tok & Hb & Hst)]; [done|]. unfold OrgContext. apply outcome_bind. id_step.
  destruct (RequirePathParam r "orgID") as [o|e] eqn:Ho; [|intros fs; by apply turned_away].
  apply outcome_bind. id_step. unfold RequireUser. rewrite (proj2 (String.eqb_neq _ _) E).
  apply outcome_bind. do 2 id_step.
  apply wp_GetActive; [intros e fs; rewrite put_view; by apply turned_away|]. rewrite put_view, view_put.
  intros m Hm Ha.
  set (x' := WithMemberRole (Member.Role m) (WithOrg o x)).
  assert (match perm with Some p => HasPermission (Member.Role m) p = true | None => True end →
          authorised cfg (view l t) s r perm x') as Hok.
  { intros Hp. exists tok, m. destruct Hs as [(_ & _ & <- & _) _].
    unfold active_in, in_org in Ha. bool_to_prop. by repeat split. }
  destruct perm as [p|]; cbn [permitted]; [|intros fs; by apply let_in, Hok].
  unfold PermissionRequired. apply outcome_bind. cbn [Ctx.caller].
  destruct (RequirePermission _ p) as [e|] eqn:Hp; cbn [refuse]; id_step; intros fs; [by apply turned_away|].
  apply let_in; [done|]. by apply Hok, RequirePermission_spec.
Qed.

Lemma gated_route perm (h : Ctx → Request → db S A) x r (t : S) :
  Caller.UserID (Ctx.caller x) = "" →
  ∀ fs, gated t r perm h (Authenticate cfg l (RequireAuth (OrgContext l (permitted perm h))) x r (t, fs)).
Proof.
  intros Hx. unfold Authenticate.
  destruct (HasPrefix (Header r "Authorization") "Bearer ") eqn:Hb.
  - assert (bearer r = Some (TrimPrefix (Header r "Authorization") "Bearer ")) as Hbr by (unfold bearer; by rewrite Hb).
    destruct (_ || _); apply outcome_bind; id_step;
      (eapply wp_mono; [first [apply wp_authenticateToken|apply wp_authenticateJWT]| |]; cbn beta).
    all: try (intros e s' H fs; by apply turned_away). all: intros x' s' [? ?]; apply gated_inner; eauto.
  - pose proof (gated_inner t (view l t) x r perm h) as H. rewrite put_view in H.
    apply H; [apply leads_to_refl|by left].
Qed.
End authorisation.

Section served.
Context {W : Type} `{IW : IdentityWorld W} `{CL : !ClockLaws W} `{D : Driver} `{So : Sorter} `{Dg : Digest}.
Context `{ST : ServerTyping} `{J : JwtLibrary} `{Ar : Argon2} (cfg : AuthConfig.t).
Context `{DRegister : Decoder RegisterInput} `{DLogin : Decoder LoginInput} `{DRefresh : Decoder RefreshBody}.
Context `{DVerify : Decoder VerifyEmailInput} `{DRequest : Decoder RequestPasswordResetInput}.
Context `{DReset : Decoder ResetPasswordInput} `{DChange : Decoder ChangePasswordInput}.
Context `{DProfile : Decoder UpdateProfileInput} `{DOrg : Decoder CreateOrgInput} `{DUpdate : Decoder UpdateOrgInput}.
Context `{DInvite : Decoder InviteInput} `{DAccept : Decoder AcceptInput} `{DRole : Decoder UpdateRoleInput}.
Context `{DKey : Decoder CreateKeyInput}.

(** What [dispatch] does with the route it has found. *)
Definition answered {S P} (m : db S (AnswerOf P)) (st : S * faults) : option (ResponseOf P) * (S * faults) :=
  match m st with (Ok a, st') => (Some (Success a), st') | (Err e, st') => (dto_Error e, st') end.

(** The answers to a request that is turned away. *)
Definition is_failure {P} (a : option (ResponseOf P)) : Prop :=
  match a with Some (Failure _ _ _) => True | _ => False end.

Lemma dto_Error_failure {P} e : is_failure (dto_Error (P := P) e).
Proof. unfold dto_Error, From. by destruct (As e). Qed.

Lemma serve_scoped x r perm h :
  (Request.Method r, Request.Pattern r, perm, h) ∈ scoped →
  serve cfg x r = answered (Authenticate cfg self (RequireAuth (OrgContext self (permitted perm h))) x r).
Proof.
  destruct r as [m p ps hs ra b qs]; cbn [Request.Method Request.Pattern]. intros Hh. unfold scoped in Hh.
  repeat (apply elem_of_cons in Hh as [[= -> -> -> ->]|Hh]); [..|by apply elem_of_nil in Hh]; reflexivity.
Qed.

(** What comes of a request behind the middleware. *)
Lemma answered_gated {S P} (l : Lens S (iddb W)) (t : S) r perm (h : Ctx → Request → db S (AnswerOf P)) m fs :
  gated cfg l t r perm h (m (t, fs)) →
  ∃ s1 fs1, leads_to (view l t) s1 ∧
    ((is_failure (answered m (t, fs)).1 ∧ (answered m (t, fs)).2 = (put l s1 t, fs1)) ∨
     ∃ x', authorised cfg (view l t) s1 r perm x' ∧ answered m (t, fs) = answered (h x' r) (put l s1 t, fs1)).
Proof.
  unfold answered. intros H. inversion H as [e s1 fs1 Hl|x' s1 fs1 Hl Ha E]; exists s1, fs1; (split; [exact Hl|]).
  - left. split; [apply dto_Error_failure|done].
  - right. by exists x'.
Qed.


Lemma same_accounts_rows o (s s' : iddb W) : same_accounts s s' → org_rows_but_use o s' = org_rows_but_use o s.
Proof.
  intros (_ & Ho & Hm & Hi & _ & _ & _ & _ & _ & Hk & _). unfold org_rows_but_use, org_rows. rewrite Ho, Hm, Hi. f_equal.
  assert (∀ l, key_but_use <$> select (λ k, APIKey.OrgID k =s? o) l
             = select (λ k, APIKey.OrgID k =s? o) (key_but_use <$> l)) as Hf.
  { induction l as [|k l IH]; [done|]. rewrite fmap_cons. unfold select in *. rewrite !filter_cons.
    change (APIKey.OrgID (key_but_use k)) with (APIKey.OrgID k). rewrite <- IH. by case_match. }
  by rewrite !Hf, Hk.
Qed.

(** C20: A request to a route of one organization, the authentication included,
    leaves the organizations, members and invitations of every other
    organization as they are, and their API keys but for the traces of a use,
    whatever it carries and whatever statements fail. *)
Theorem scoped_isolated o x r perm h (s : iddb W) fs :
  (Request.Method r, Request.Pattern r, perm, h) ∈ scoped → Caller.UserID (Ctx.caller x) = "" →
  RequirePathParam r "orgID" ≠ Ok o →
  org_rows_but_use o (serve cfg x r (s, fs)).2.1 = org_rows_but_use o s.
Proof.
  intros Hh Hx Ho. rewrite (serve_scoped _ _ _ _ Hh).
  destruct (answered_gated self s r perm h _ fs (gated_route cfg self perm h x r s Hx fs))
    as (s1 & fs1 & [Hs _] & [[_ H]|(x' & _ & H)]); rewrite H; [by apply same_accounts_rows|].
  pose proof (handlers_isolated o (org_rows o s1) _ _ _ _ x' r Hh Ho s1 fs1 eq_refl) as Hk. cbn beta in Hk.
  rewrite <- (same_accounts_rows o s s1) by done. unfold org_rows_but_use. rewrite <- Hk. cbn [put self].
  unfold answered, tables_of. by destruct (h x' r (s1, fs1)) as [[a|e] [s2 fs2]].
Qed.
End served.
