(* ===== verification/IdentityInvariants.v ===== *)
(** * Identity: invariants of members and sessions *)

From S2P Require Import Prelude GoLib Errors Postgres Sql Rbac DeployModel Rows Repository ControlPlane Password IdentityModel Slug IdentityStore IdentityService Access IdentityFacts.

(** ** Owners

    One row per organization and user, and an active owner. *)

Definition member_key (m : Member) : string * string := (Member.OrgID m, Member.UserID m).

Definition active_owner (o : string) (m : Member) : Prop :=
  Member.OrgID m = o ∧ Member.Role m = RoleOwner ∧ Member.Status m = Member.StatusActive.

Definition owned (o : string) (t : list Member) : Prop :=
  NoDup (member_key <$> t) ∧ Exists (active_owner o) t.

Lemma owned_update o p f t :
  (∀ m, member_key (f m) = member_key m) → (∀ m, m ∈ t → p m = true → active_owner o m → active_owner o (f m)) →
  owned o t → owned o (update_where p f t).
Proof.
  intros Hk Hf [Hn He]. split.
  - rewrite (map_key_update_where member_key); [done|]. intros. apply Hk.
  - apply Exists_exists in He as (m & Hm & Ho). apply Exists_exists.
    exists (if p m then f m else m). split; [apply elem_of_update_where; eauto|]. destruct (p m) eqn:E; auto.
Qed.

Lemma owned_snoc o t m : owned o t → member_key m ∉ member_key <$> t → owned o (t ++ [m]).
Proof.
  intros [Hn He] Hm. split; [|apply Exists_app; by left]. rewrite fmap_app. apply NoDup_app.
  split; [done|]. split; [|apply NoDup_singleton]. by intros k Hk ->%list_elem_of_singleton.
Qed.

Lemma owned_insert o id_of refs m t :
  owned o t → owned o (insert_checked id_of (λ a b, in_org (Member.OrgID a) (Member.UserID a) b) refs m t).2.
Proof.
  intros H. unfold insert_checked. destruct (existsb _ t) eqn:E; [done|]. destruct refs; [|done]. cbn.
  apply owned_snoc; [done|]. intros (m' & Hk & Hm')%list_elem_of_fmap. apply not_true_iff_false in E. apply E.
  apply existsb_exists. exists m'. split; [by apply list_elem_of_In|]. apply orb_true_iff. right.
  unfold in_org. injection Hk as -> ->. by rewrite !String.eqb_refl.
Qed.

(** Down to the statements. *)
Ltac id_open :=
  unfold Sessions_RevokeAll, Sessions_Revoke, Sessions_List, getOwnedSession, Keys_Delete, Keys_Rotate, Keys_List,
    Keys_Create, Members_List, Invite, Orgs_Delete, Orgs_List, Orgs_Get, Orgs_Update, Users_Get, UpdateProfile,
    VerifyEmail, ChangePassword, ResetPassword, RequestPasswordReset, Logout, Refresh, Login, issueTokens, guard,
    rateLimitLogin, hash_password, IssueAccessToken in *;
  unfold APIKeys_Create, APIKeys_Rotate, APIKeys_Delete, APIKeys_ListByOrg, APIKeys_GetByPrefix, APIKeys_RecordUsage,
    PATs_GetByPrefix, PATs_RecordUsage, APIKeyPrefix, Generate, IsSessionRevoked, RevokeSession, put_until,
    redis_command, Sessions_ListByUser, Repository_RevokeAll, Session_Revoke, RotateRefresh, GetByRefreshHash,
    Session_Create, ListPendingInvitations, GetInvitationByTokenHash, CreateInvitation, Members_ListByOrg, GetActive,
    ListForUser, Org_SoftDelete, Org_Update, Org_GetByID, Org_Create, ConsumePasswordResetToken, ConsumeEmailToken,
    CreatePasswordResetToken, CreateEmailToken, create_token, ExistsEmail, RecordLogin, Activate, SetPassword,
    User_UpdateProfile, update_user, GetByEmail, User_GetByID, User_Create, done_ in *;
  unfold found, GetByID, get_by_id, Find, Exists_, Insert, Update, SoftDelete in *.

(** Statements that only read keep everything. *)
Lemma preserves_stmt_read {S T A} (I : S → Prop) (l : Lens S T) (f : S → T → result error A * T) :
  (∀ s t, (f s t).2 = t) → preserves I (stmt l f).
Proof. intros H. apply preserves_stmt. intros s Hs. by rewrite H, put_view. Qed.

Lemma with_uuids_reads {T A} ids (f : T → result error A * T) t : (f t).2 = t → (with_uuids ids f t).2 = t.
Proof. intros H. unfold with_uuids. by destruct (forallb _ ids). Qed.

Lemma select_row_reads {R} (p : R → bool) t : (select_row p t).2 = t.
Proof. unfold select_row. by destruct (select p t). Qed.

Ltac id_read :=
  apply preserves_stmt_read; intros ??;
  first [apply with_uuids_reads; first [apply select_row_reads | done] | apply select_row_reads | done].

Section owners.
Context {W : Type} `{IW : IdentityWorld W} `{D : Driver} `{So : Sorter} `{Dg : Digest} `{ST : ServerTyping}.
Context `{J : JwtLibrary} `{Ar : Argon2} (cfg : AuthConfig.t) (P : list Member → Prop).
Implicit Types (c : Caller) (ip ua : string).

#[local] Abbreviation about := (λ s : iddb W, P (members s)).

Lemma about_Record c e : preserves about (Record_ c e).
Proof. unfold Record_, Logger_Record. repeat id_keep. by apply preserves_query. Qed.
End owners.

(** Operations that never write a member. *)
Ltac members_quiet := id_open; repeat first [id_keep | id_read]; try apply about_Record.

Section quiet.
Context {W : Type} `{IW : IdentityWorld W} `{D : Driver} `{So : Sorter} `{Dg : Digest} `{ST : ServerTyping}.
Context `{J : JwtLibrary} `{Ar : Argon2} (cfg : AuthConfig.t) (P : list Member → Prop).
Implicit Types (c : Caller) (ip ua : string).

#[local] Abbreviation about := (λ s : iddb W, P (members s)).

Lemma about_Register c i ip ua :
  (∀ o u, preserves about (AddOwner o u)) → preserves about (Register cfg c i ip ua).
Proof. intros H. unfold Register. members_quiet; apply H. Qed.
Lemma about_Orgs_Create c u i ip ua :
  (∀ o u, preserves about (AddOwner o u)) → preserves about (Orgs_Create c u i ip ua).
Proof. intros H. unfold Orgs_Create. members_quiet; apply H. Qed.
Lemma about_Login c i ip ua : preserves about (Login cfg c i ip ua).
Proof. members_quiet. Qed.
Lemma about_Refresh c t ip ua : preserves about (Refresh cfg c t ip ua).
Proof. members_quiet. Qed.
Lemma about_Logout c t ip ua : preserves about (Logout cfg c t ip ua).
Proof. members_quiet. Qed.
Lemma about_VerifyEmail c t ip ua : preserves about (VerifyEmail c t ip ua).
Proof. members_quiet. Qed.
Lemma about_RequestPasswordReset c e ip ua : preserves about (RequestPasswordReset c e ip ua).
Proof. members_quiet. Qed.
Lemma about_ResetPassword c i ip ua : preserves about (ResetPassword cfg c i ip ua).
Proof. members_quiet. Qed.
Lemma about_ChangePassword c u i ip ua : preserves about (ChangePassword cfg c u i ip ua).
Proof. members_quiet. Qed.
Lemma about_UpdateProfile c u i ip ua : preserves about (UpdateProfile c u i ip ua).
Proof. members_quiet. Qed.
Lemma about_Users_Get u : preserves about (Users_Get u).
Proof. members_quiet. Qed.
Lemma about_Sessions_List u : preserves about (Sessions_List u).
Proof. members_quiet. Qed.
Lemma about_Sessions_Revoke redis c u x ip ua : preserves about (Sessions_Revoke redis c u x ip ua).
Proof. members_quiet. Qed.
Lemma about_Sessions_RevokeAll c u x ip ua : preserves about (Sessions_RevokeAll c u x ip ua).
Proof. members_quiet. Qed.
Lemma about_Orgs_List u : preserves about (Orgs_List u).
Proof. members_quiet. Qed.
Lemma about_Orgs_Get c o : preserves about (Orgs_Get c o).
Proof. members_quiet. Qed.
Lemma about_Orgs_Update c o i ip ua : preserves about (Orgs_Update c o i ip ua).
Proof. members_quiet. Qed.
Lemma about_Orgs_Delete c o ip ua : preserves about (Orgs_Delete c o ip ua).
Proof. members_quiet. Qed.
Lemma about_Members_List c o : preserves about (Members_List c o).
Proof. members_quiet. Qed.
Lemma about_Invite c o u i ip ua : preserves about (Invite c o u i ip ua).
Proof. members_quiet. Qed.
Lemma about_Keys_List c o : preserves about (Keys_List c o).
Proof. members_quiet. Qed.
Lemma about_Keys_Create c o u i ip ua : preserves about (Keys_Create c o u i ip ua).
Proof. members_quiet. Qed.
Lemma about_Keys_Rotate c o k u ip ua : preserves about (Keys_Rotate c o k u ip ua).
Proof. members_quiet. Qed.
Lemma about_Keys_Delete c o k u ip ua : preserves about (Keys_Delete c o k u ip ua).
Proof. members_quiet. Qed.
Lemma about_authenticate x r tok :
  preserves about (authenticateToken x r tok) ∧ preserves about (authenticateJWT cfg x tok).
Proof. split; unfold authenticateToken, authenticateJWT, Keys_Authenticate, ValidateAccessToken; members_quiet. Qed.
End quiet.

#[export] Hint Resolve about_Login about_Refresh about_Logout about_VerifyEmail about_RequestPasswordReset
  about_ResetPassword about_ChangePassword about_UpdateProfile about_Users_Get about_Sessions_List
  about_Sessions_Revoke about_Sessions_RevokeAll about_Orgs_List about_Orgs_Get about_Orgs_Update about_Orgs_Delete
  about_Members_List about_Invite about_Keys_List about_Keys_Create about_Keys_Rotate about_Keys_Delete : tenant.

Section owner.
Context {W : Type} `{IW : IdentityWorld W} `{D : Driver} `{So : Sorter} `{Dg : Digest} `{ST : ServerTyping}.
Context (o : string).
Implicit Types (c : Caller) (ip ua : string) (s : iddb W).

#[local] Abbreviation kept := (λ s : iddb W, owned o (members s)).

Lemma owner_AddOwner org u : preserves kept (AddOwner org u).
Proof.
  unfold AddOwner. repeat id_keep. apply preserves_stmt. intros s H. cbn. unfold with_uuids.
  destruct (forallb _ _); [|exact H]. by apply owned_insert.
Qed.

(** The rows an UPDATE of members leaves. *)
Definition changed org u (f : Member → Member) (t t' : list Member) : Prop :=
  ∃ now, t' = update_where (active_in org u) (λ m, Member.set_UpdatedAt now (f m)) t.

Lemma wp_change_member message org u f s (Q : unit → iddb W → Prop) (E : error → iddb W → Prop) :
  (∀ e s', members s' = members s ∨ changed org u f (members s) (members s') → E e s') →
  (∀ s', changed org u f (members s) (members s') → Q tt s') →
  wp (change_member message org u f) Q E s.
Proof.
  intros HE HQ. unfold change_member. do 4 id_step. apply wp_stmt; [intros e; apply HE; by left|].
  apply wp_with_uuids; [apply HE; by left|]. intros _. cbn.
  unfold found. destruct (_ =? 0); id_step; [apply HE; right|apply HQ]; by exists a.
Qed.

(** The active member that was found is the only row that changes. *)
Lemma owned_changed org u f t t' m :
  (∀ m, member_key (f m) = member_key m) → owned o t → m ∈ t → active_in org u m = true →
  (active_owner o m → ∀ now, active_owner o (Member.set_UpdatedAt now (f m))) → changed org u f t t' → owned o t'.
Proof.
  intros Hk Ho Hm Ha Hf [now ->]. apply owned_update; [by intros m'; rewrite <- (Hk m')| |done].
  intros m' Hm' Ha' Hown. assert (m' = m) as ->; [|by apply Hf].
  apply (NoDup_key_eq member_key t); [apply Ho|done..|].
  unfold active_in, in_org in Ha, Ha'. bool_to_prop. unfold member_key. congruence.
Qed.

Lemma changed_elsewhere org u f t t' : org ≠ o → (∀ m, member_key (f m) = member_key m) →
  changed org u f t t' → owned o t → owned o t'.
Proof.
  intros Hne Hk [now ->] Ho. apply owned_update; [by intros m'; rewrite <- (Hk m')| |done].
  intros m' _ Ha (E & _). unfold active_in, in_org in Ha. bool_to_prop. congruence.
Qed.

Lemma kept_guard c org perm : preserves kept (guard c org perm).
Proof. unfold guard. repeat id_keep. Qed.

Lemma owner_Remove c org target actor ip ua : preserves kept (Remove c org target actor ip ua).
Proof.
  apply preserves_bind; [apply kept_guard|intros _]. apply preserves_wp. intros s Hs. id_step.
  apply wp_GetActive; [done|]. intros m Hm Ha. destruct (String.eqb_spec (Member.Role m) RoleOwner) as [|Hr]; [by id_step|].
  destruct (negb _); [by id_step|]. id_step.
  assert (∀ t', changed org target (Member.set_Status Member.StatusRemoved) (members s) t' → owned o t') as Hc.
  { intros t'. apply (owned_changed _ _ _ _ _ m); try done. by intros (_ & ? & _). }
  apply wp_change_member; [intros e s' [->|H]; auto|]. intros s' H%Hc. cbn zeta.
  apply (wp_preserves kept); [|exact H]. apply preserves_ignore. apply (about_Record (owned o)).
Qed.

Lemma owner_UpdateRole c org target actor role ip ua : preserves kept (UpdateRole c org target actor role ip ua).
Proof.
  apply preserves_bind; [apply kept_guard|intros _]. apply preserves_wp. intros s Hs.
  destruct (negb _); [by id_step|]. id_step. apply wp_GetActive; [done|]. intros m Hm Ha.
  destruct (String.eqb_spec (Member.Role m) RoleOwner) as [|Hr]; [cbn [orb]; by id_step|].
  destruct (String.eqb_spec role RoleOwner) as [|Hr']; [cbn [orb]; by id_step|]. cbn [orb]. id_step.
  assert (∀ t', changed org target (Member.set_Role role) (members s) t' → owned o t') as Hc.
  { intros t'. apply (owned_changed _ _ _ _ _ m); try done. by intros (_ & ? & _). }
  apply wp_change_member; [intros e s' [->|H]; auto|]. intros s' H%Hc.
  apply (wp_preserves kept); [|exact H]. apply preserves_ignore. apply (about_Record (owned o)).
Qed.

Lemma owner_TransferOwnership c org new current ip ua : preserves kept (TransferOwnership c org new current ip ua).
Proof.
  apply preserves_bind; [repeat id_keep|intros _]. apply preserves_wp. intros s Hs.
  destruct (negb _); [by id_step|]. id_step. apply wp_GetActive; [done|]. intros m Hm Ha. id_step.
  apply wp_Transact_in; [by intros|]. id_step. apply wp_change_member; [done|]. intros s1 H1.
  apply wp_change_member; [done|]. intros s2 H2. apply (wp_preserves kept); [apply (about_Record (owned o))|].
  destruct (decide (org = o)) as [->|Hne]; [|by eapply (changed_elsewhere _ _ _ _ _ Hne); [|exact H2|eapply (changed_elsewhere _ _ _ _ _ Hne); [|exact H1|exact Hs]]].
  destruct H1 as [t1 H1], H2 as [t2 H2]. destruct Hs as [Hn _]. rewrite H2, H1. split.
  { rewrite !(map_key_update_where member_key); done. }
  apply Exists_exists. set (m1 := if active_in o current m then Member.set_UpdatedAt t1 (Member.set_Role RoleAdmin m) else m).
  assert (active_in o new m1 = true) as Ha1 by (unfold m1; destruct (active_in o current m); exact Ha).
  exists (Member.set_UpdatedAt t2 (Member.set_Role RoleOwner m1)). split.
  - apply elem_of_update_where. exists m1. rewrite Ha1. split; [|done]. apply elem_of_update_where. by exists m.
  - unfold active_in, in_org in Ha1. bool_to_prop. done.
Qed.
End owner.

Section mounted.
Context {W : Type} `{IW : IdentityWorld W} `{D : Driver} `{So : Sorter} `{Dg : Digest} `{ST : ServerTyping}.
Context `{J : JwtLibrary} `{Ar : Argon2} (cfg : AuthConfig.t).
Context `{DRegister : Decoder RegisterInput} `{DLogin : Decoder LoginInput} `{DRefresh : Decoder RefreshBody}.
Context `{DVerify : Decoder VerifyEmailInput} `{DRequest : Decoder RequestPasswordResetInput}.
Context `{DReset : Decoder ResetPasswordInput} `{DChange : Decoder ChangePasswordInput}.
Context `{DProfile : Decoder UpdateProfileInput} `{DOrg : Decoder CreateOrgInput} `{DUpdate : Decoder UpdateOrgInput}.
Context `{DInvite : Decoder InviteInput} `{DAccept : Decoder AcceptInput} `{DRole : Decoder UpdateRoleInput}.
Context `{DKey : Decoder CreateKeyInput}.

(** The middleware keeps what the handler keeps. *)
Lemma about_middleware (P : list Member → Prop) perm (h : Handler (W := W)) x r :
  (∀ x r, preserves (λ s, P (members s)) (h x r)) →
  preserves (λ s, P (members s)) (Authenticate cfg self (RequireAuth h) x r)
  ∧ preserves (λ s, P (members s)) (Authenticate cfg self (RequireAuth (OrgContext self (permitted perm h))) x r).
Proof.
  intros Hh. assert (∀ tok x, preserves (λ s : iddb W, P (members s)) (authenticateToken x r tok)) as Ht
    by (intros; by apply (about_authenticate cfg)).
  assert (∀ tok x, preserves (λ s : iddb W, P (members s)) (authenticateJWT cfg x tok)) as Hj
    by (intros; by apply about_authenticate).
  split; [|destruct perm]; unfold Authenticate, RequireAuth, OrgContext, permitted, PermissionRequired, GetActive;
    repeat first [apply Ht | apply Hj | apply Hh | id_keep | id_read].
Qed.

Lemma owner_public o m p (h : Handler (W := W)) x r :
  (m, p, h) ∈ public cfg → preserves (λ s, owned o (members s)) (h x r).
Proof.
  intros Hh. pose proof (owner_AddOwner (W := W) o) as Hadd. unfold public in Hh.
  repeat (apply elem_of_cons in Hh as [[= -> -> ->]|Hh]); [..|by apply elem_of_nil in Hh];
    unfold handle_Register, handle_Login, handle_Refresh, handle_Logout, handle_VerifyEmail,
      handle_RequestPasswordReset, handle_ResetPassword, decode_body; repeat id_keep;
    first [by auto with tenant | by apply (about_Register cfg (owned o))].
Qed.

Lemma owner_personal o m p (h : Handler (W := W)) x r :
  (m, p, h) ∈ personal cfg → p ≠ "/auth/invitations/accept" → preserves (λ s, owned o (members s)) (h x r).
Proof.
  intros Hh Hp. pose proof (owner_AddOwner (W := W) o) as Hadd. unfold personal in Hh.
  repeat (apply elem_of_cons in Hh as [[= -> -> ->]|Hh]); [..|by apply elem_of_nil in Hh]; try done;
    unfold handle_Me, handle_UpdateProfile, handle_ChangePassword, handle_ListSessions, handle_RevokeSession,
      handle_LogoutAll, handle_CreateOrg, handle_ListOrgs, user_of, param, decode_body; repeat id_keep;
    first [by auto with tenant | by apply (about_Orgs_Create (owned o))].
Qed.

Lemma owner_scoped o m p perm (h : Handler (W := W)) x r :
  (m, p, perm, h) ∈ scoped → preserves (λ s, owned o (members s)) (h x r).
Proof.
  intros Hh. unfold scoped in Hh.
  repeat (apply elem_of_cons in Hh as [[= -> -> -> ->]|Hh]); [..|by apply elem_of_nil in Hh];
    unfold handle_GetOrg, handle_UpdateOrg, handle_DeleteOrg, handle_ListMembers, handle_InviteMember,
    handle_RemoveMember, handle_UpdateMemberRole, handle_ListAPIKeys, handle_CreateAPIKey, handle_RotateAPIKey,
    handle_DeleteAPIKey, param, user_of, decode_body; repeat id_keep;
    auto using owner_Remove, owner_UpdateRole with tenant.
Qed.

(** C6: No request removes the last owner of an organization: while the members
    table has one row for each organization and user and the organization an
    active owner, both stay so through every route but the acceptance of
    invitations, and through a transfer of the ownership, whatever statements
    fail. *)
Theorem owner_kept o :
  (∀ m p (h : Handler (W := W)) x r, (m, p, h) ∈ Mount cfg → p ≠ "/auth/invitations/accept" →
     preserves (λ s, owned o (members s)) (h x r))
  ∧ ∀ c org new current ip ua,
     preserves (λ s : iddb W, owned o (members s)) (TransferOwnership c org new current ip ua).
Proof.
  split; [|intros; apply owner_TransferOwnership]. intros m p h x r Hh Hp.
  pose proof (owner_AddOwner (W := W) o) as Hadd. unfold Mount in Hh.
  apply elem_of_app in Hh as [Hh|[Hh|Hh]%elem_of_app].
  - by apply (owner_public o m p).
  - apply list_elem_of_fmap in Hh as ([[m' p'] h'] & [= -> -> ->] & Hh).
    apply (about_middleware (owned o) None). intros. by apply (owner_personal o m' p').
  - apply list_elem_of_fmap in Hh as ([[[m' p'] perm] h'] & [= -> -> ->] & Hh).
    apply (about_middleware (owned o) perm). intros. by apply (owner_scoped o m' p' perm).
Qed.
End mounted.

(** ** Refresh tokens

    Sessions have different identifiers, and unrevoked ones different hashes. *)

Definition distinct_sessions (t : list Session) : Prop :=
  NoDup (Session.ID <$> t) ∧ NoDup (Session.RefreshTokenHash <$> select unrevoked t).

Lemma select_cons {R} (p : R → bool) x t : select p (x :: t) = if p x then x :: select p t else select p t.
Proof. unfold select. rewrite filter_cons. by destruct (p x). Qed.

Lemma select_unrevoked_rotate id h now t :
  NoDup (Session.ID <$> t) → (∀ x, x ∈ t → unrevoked x = true → Session.ID x ≠ id → Session.RefreshTokenHash x ≠ h) →
  NoDup (Session.RefreshTokenHash <$> select unrevoked t) →
  NoDup (Session.RefreshTokenHash <$> select unrevoked
    (update_where (λ x, (Session.ID x =s? id) && unrevoked x)
       (λ x, Session.set_LastUsedAt (Some now) (Session.set_RefreshTokenHash h x)) t)).
Proof.
  induction t as [|x t IH]; [done|]. cbn [fmap list_fmap]. rewrite update_where_cons, !select_cons.
  intros [Hx Hn]%NoDup_cons Hh Hd.
  assert (NoDup (Session.RefreshTokenHash <$> select unrevoked t)) as Hd'
    by (destruct (unrevoked x); [by apply NoDup_cons in Hd as []|done]).
  specialize (IH Hn ltac:(intros; apply Hh; [by right|done..]) Hd').
  destruct (String.eqb_spec (Session.ID x) id) as [E|Hne]; [subst id|]; cbn [andb].
  - rewrite (update_where_none _ _ t) in *.
    2,3: intros y Hy; apply andb_false_iff; left; apply String.eqb_neq; intros Hyid; apply Hx;
         apply list_elem_of_fmap; by exists y.
    destruct (unrevoked x) eqn:Hu; [|by rewrite Hu]. 
    change (unrevoked (Session.set_LastUsedAt _ _)) with (unrevoked x). rewrite Hu. cbn [fmap list_fmap]. apply NoDup_cons.
    split; [|done]. intros (y & Hy & [Hyu Hyt]%elem_of_select)%list_elem_of_fmap. cbn in Hy.
    apply (Hh y); [by right|done| |done]. intros Hyid. apply Hx. apply list_elem_of_fmap. by exists y.
  - destruct (unrevoked x) eqn:Hu; [|done]. cbn [fmap list_fmap] in *. apply NoDup_cons in Hd as [Hd _].
    apply NoDup_cons. split; [|done].
    intros (y & Hy & [Hyu (z & Hz & ->)%elem_of_update_where]%elem_of_select)%list_elem_of_fmap.
    destruct ((Session.ID z =s? id) && unrevoked z) eqn:Ez; cbn in Hy.
    + apply (Hh x); [by left|done..|congruence].
    + apply Hd. rewrite Hy. apply list_elem_of_fmap. exists z. split; [done|]. by apply elem_of_select.
Qed.

Lemma rotate_distinct id h now t : distinct_sessions t → distinct_sessions (rotate id h now t).2.
Proof.
  intros [Hn Hd]. unfold rotate. destruct (existsb _ _) eqn:E; [done|]. cbn [snd update_rows].
  set (p := λ x, (Session.ID x =s? id) && unrevoked x) in *.
  destruct (select p t) as [|x0 l] eqn:Es.
  { rewrite update_where_none; [done|]. intros y Hy. destruct (p y) eqn:Ey; [|done].
    assert (y ∈ select p t) as Hs by (by apply elem_of_select). rewrite Es in Hs. by apply elem_of_nil in Hs. }
  assert (x0 ∈ select p t) as [Hp0 Hx0]%elem_of_select by (rewrite Es; by left).
  split; [by rewrite (map_key_update_where Session.ID)|].
  apply select_unrevoked_rotate; [done| |done]. intros y Hy Hu Hid Hh.
  apply not_true_iff_false in E. apply E. apply existsb_exists. exists x0. split; [by left|].
  apply existsb_exists. exists y. split.
  - apply list_elem_of_In, elem_of_delete_where. unfold p. split; [|done].
    apply andb_false_iff. left. by apply String.eqb_neq.
  - unfold p in Hp0. bool_to_prop. unfold same_refresh. cbn.
    change (unrevoked (Session.set_LastUsedAt _ _)) with (unrevoked x0). rewrite H0, Hu, Hh. apply String.eqb_refl.
Qed.

Lemma one_with_hash t x y :
  distinct_sessions t → x ∈ t → y ∈ t → unrevoked x = true → unrevoked y = true →
  Session.RefreshTokenHash x = Session.RefreshTokenHash y → x = y.
Proof.
  intros [_ Hd] Hx Hy Hux Huy He.
  by apply (NoDup_key_eq Session.RefreshTokenHash (select unrevoked t)); try apply elem_of_select.
Qed.

Lemma unrevoked_spec x : unrevoked x = true ↔ Session.RevokedAt x = None.
Proof. unfold unrevoked. by destruct (Session.RevokedAt x). Qed.

Lemma rotate_replaces id h now t x n t' :
  distinct_sessions t → x ∈ t → Session.ID x = id → Session.RevokedAt x = None → rotate id h now t = (Ok n, t') →
  (∃ y, y ∈ t' ∧ Session.RevokedAt y = None ∧ Session.RefreshTokenHash y = h) ∧
  (h ≠ Session.RefreshTokenHash x → ∀ y, y ∈ t' → Session.RevokedAt y = None → Session.RefreshTokenHash y ≠ Session.RefreshTokenHash x).
Proof.
  intros Hd Hx Hid Hu%unrevoked_spec. setoid_rewrite <- unrevoked_spec. unfold rotate. destruct (existsb _ _); [done|]. intros [= _ <-].
  assert (((Session.ID x =s? id) && unrevoked x) = true) as Hp by (by rewrite Hu, Hid, String.eqb_refl). split.
  - eexists. split; [apply elem_of_update_where; exists x; split; [done|reflexivity]|]. rewrite Hp. done.
  - intros Hh y (z & Hz & ->)%elem_of_update_where.
    destruct ((Session.ID z =s? id) && unrevoked z) eqn:Ez; [done|]. intros Hzu He.
    assert (z = x) as -> by (by apply (one_with_hash t)). congruence.
Qed.

Section refresh.
Context {W : Type} `{IW : IdentityWorld W} `{IC : !IdentityClock W} `{D : Driver} `{So : Sorter} `{Dg : Digest} `{J : JwtLibrary}.
Context (cfg : AuthConfig.t).
Implicit Types (s : iddb W).

(** The moment [k] has come. *)
Definition since (k : Time) s : Prop := k ≤ instant (id_world s).

Lemma since_draw {A} k (op : W → A * W) : (∀ w, instant w ≤ instant (op w).2) → preserves (since k) (draw id_world_l op).
Proof.
  intros H s fs Hk. unfold draw, tables_of, since in *. specialize (H (id_world s)). cbn [view id_world_l].
  destruct (op (id_world s)) as [a w]. cbn in *. lia.
Qed.
Lemma since_now k : preserves (since k) now_.
Proof. apply since_draw. intros w. pose proof (read_between w). lia. Qed.
Lemma since_uuid k : preserves (since k) new_uuid_.
Proof. apply since_draw, fresh_later. Qed.
Lemma since_token k n : preserves (since k) (draw id_world_l (random_token n)).
Proof. apply since_draw, token_later. Qed.
Lemma since_hex k n : preserves (since k) (draw id_world_l (random_hex n)).
Proof. apply since_draw, hex_later. Qed.

(** What follows the check of the revocations. *)
Lemma since_renewal k c x tok ip ua :
  preserves (since k)
    ('(newRaw, newHash) ← Generate 32;
     _ ← RotateRefresh (Session.ID x) newHash;
     '(access, exp) ← IssueAccessToken (AuthConfig.jwt cfg) (Session.UserID x) (Session.ID x) (default "" (Session.OrgID x));
     _ ← ignore (Record_ c (entry_of (Some (Session.UserID x)) None "auth.refresh" "" "" "" ip ua));
     mret {| AccessToken := access; RefreshToken := newRaw; ExpiresAt := exp; TokenType := tok |}).
Proof.
  unfold Generate, RotateRefresh, IssueAccessToken, Record_, Logger_Record, found.
  repeat first [apply since_now | apply since_uuid | apply since_token | apply since_hex
               | apply preserves_query; by intros ? | id_keep].
Qed.

(** C21: A refresh replaces the session's token: when it succeeds, the token
    presented was that of an unrevoked session that had not expired when the
    request came and whose revocation in Redis, where there is a Redis and it had
    one, has lapsed by now; an unrevoked session now has the new token, and,
    unless the two hash alike, no unrevoked session has the old one.
    Identifiers and hashes of sessions stay distinct whatever fails. *)
Theorem Refresh_rotates c tok ip ua s :
  distinct_sessions (sessions s) →
  wp (Refresh cfg c tok ip ua)
    (λ p s', distinct_sessions (sessions s')
       ∧ (∃ x, x ∈ sessions s ∧ Session.RefreshTokenHash x = Hash tok ∧ Session.RevokedAt x = None
            ∧ instant (id_world s) < Session.ExpiresAt x
            ∧ (AuthConfig.redis cfg = true → Session.ID x ≠ "" →
               ∀ until, revoked s !! keySession (Session.ID x) = Some until → until ≤ instant (id_world s')))
       ∧ (∃ x, x ∈ sessions s' ∧ Session.RevokedAt x = None ∧ Session.RefreshTokenHash x = Hash (RefreshToken p))
       ∧ (Hash (RefreshToken p) ≠ Hash tok →
          ∀ x, x ∈ sessions s' → Session.RevokedAt x = None → Session.RefreshTokenHash x ≠ Hash tok))
    (λ _ s', distinct_sessions (sessions s')) s.
Proof.
  intros Hd. unfold Refresh. id_step. id_step. unfold GetByRefreshHash. id_step. apply wp_now. intros a w Ha. id_step.
  apply wp_select_row; [done|]. intros x Hx Hp. bool_to_prop.
  assert (unrevoked x = true ∧ instant (id_world s) < Session.ExpiresAt x) as [Hun Hlive].
  { unfold live_session in *. bool_to_prop. split; [done|lia]. }
  id_step. id_step. eapply wp_mono; [apply wp_IsSessionRevoked|cbn beta|cbn beta].
  2:{ intros e s' [Hs _]. destruct Hs as (_&_&_&_&->&_). done. }
  intros [|] s' [[(_&_&_&_&Hs&_) _] Hrev]; [by id_step; rewrite Hs|]. specialize (Hrev eq_refl).
  eapply (wp_knowing (since (instant (id_world s')))); [apply since_renewal|unfold since; lia|].
  unfold Generate. do 3 id_step. id_step.
  unfold RotateRefresh. do 5 id_step.
  assert (distinct_sessions (sessions (put id_world_l w1 (put id_world_l w0 s')))) as Hd' by (cbn; by rewrite Hs).
  apply wp_stmt; [done|]. apply wp_with_uuids; [exact Hd'|]. intros _.
  pose proof (rotate_distinct (Session.ID x) (Hash a0) a1 _ Hd') as Hdt. cbn [view sessions_l].
  destruct (rotate _ _ _ _) as [[n|e] t'] eqn:Hrot; [cbn [snd] in Hdt|exact Hdt].
  destruct (rotate_replaces (Session.ID x) (Hash a0) a1 (sessions s) x n t') as [Hnew Hold]; try done.
  { by apply unrevoked_spec. } { rewrite <- Hrot. cbn. by rewrite Hs. }
  unfold found. destruct (n =? 0); id_step; [exact Hdt|].
  unfold IssueAccessToken. do 5 id_step. destruct (jwt_sign _) as [tk|e]; id_step; [|exact Hdt]. do 2 id_step.
  eapply wp_mono; [apply (wp_preserves (λ s, sessions s = t')); [|done]|cbn beta|cbn beta].
  { unfold Record_, Logger_Record. repeat id_keep. by apply preserves_query. }
  all: intros ? s2 Hs2; id_step; intros Hk; rewrite Hs2; rewrite H in Hold; split; [done|]; (split; [|done]).
  all: exists x; split; [done|]; split; [done|]; split; [by apply unrevoked_spec|]; split; [done|]; intros Hredis Hid until Hu.
  all: unfold since in Hk; etrans; [eapply Hrev; eauto|exact Hk].
Qed.
End refresh.
