(* ===== verification/AuthFacts.v ===== *)
(** * Identity: logins, resets, revocations, keys and access tokens *)

From Stdlib Require Import Ascii.
From S2P Require Import Prelude GoLib Errors Postgres Sql Rbac DeployModel Rows Repository ControlPlane Password IdentityModel Slug IdentityStore IdentityService Access IdentityFacts IdentityInvariants.

Section facts.
Context {W : Type} `{IW : IdentityWorld W} `{CL : !ClockLaws W} `{D : Driver} `{So : Sorter} `{Dg : Digest}.
Context `{ST : ServerTyping} `{J : JwtLibrary} `{Ar : Argon2} (cfg : AuthConfig.t).
Implicit Types (c : Caller) (ip ua : string) (s : iddb W).

(** ** Login *)

(** What is logged and recorded besides leaves the sessions. *)
Lemma sessions_Record t c e : preserves (λ s : iddb W, sessions s = t) (Record_ c e).
Proof. unfold Record_, Logger_Record. repeat id_keep. by apply preserves_query. Qed.

Lemma wp_issueTokens c u org device name ip ua remember s (Q : TokenPair → iddb W → Prop) :
  (∀ p x s' claims, sessions s' = sessions s ++ [x] → Session.UserID x = u → Session.OrgID x = org →
     Session.RefreshTokenHash x = Hash (RefreshToken p) → jwt_sign claims = Ok (AccessToken p) →
     Claims.UserID claims = u → Claims.SessionID claims = Session.ID x → Claims.OrgID claims = default "" org → Q p s') →
  wp (issueTokens cfg c u org device name ip ua remember) Q (λ _ _, True) s.
Proof.
  intros HQ. unfold issueTokens, Generate. do 6 id_step. unfold Session_Create. do 5 id_step.
  apply wp_stmt; [done|]. apply wp_with_uuids; [done|]. intros _. unfold insert_checked.
  destruct (existsb _ _); [done|]. destruct (is_user _ _ && _); [|done].
  unfold IssueAccessToken. do 5 id_step. destruct (jwt_sign _) as [tk|e] eqn:Hsign; id_step; [|done]. do 2 id_step.
  match goal with |- wp _ _ _ ?s1 => set (t := sessions s1) end. eapply wp_mono; [apply (wp_preserves (λ s, sessions s = t)); [|reflexivity]|cbn beta|cbn beta].
  { unfold RecordLogin, update_user, done_, Update. repeat id_keep. }
  all: intros ? s1 Hs1; do 2 id_step.
  all: eapply wp_mono; [apply (wp_preserves (λ s, sessions s = t)); [apply sessions_Record|exact Hs1]|cbn beta|cbn beta].
  all: intros ? s2 Hs2; id_step; eapply HQ; [exact Hs2|done..].
Qed.

Lemma wp_rateLimitLogin ip s :
  wp (rateLimitLogin cfg ip) (λ _ s', ∃ w, s' = put id_world_l w s) (λ _ _, True) s.
Proof.
  unfold rateLimitLogin. destruct (_ || _); [id_step; exists (view id_world_l s); by rewrite put_view|].
  do 3 id_step. destruct a as [[|]|e]; [..|done]; id_step; [by exists w|done].
Qed.

Definition login_by (i : LoginInput) s (u : User) : Prop :=
  u ∈ users s ∧ ToLower (User.Email u) = normalized (login_Email i) ∧ User.CanLogin u = true
  ∧ verify_password cfg (login_Password i) (User.PasswordHash u) = true
  ∧ (login_OrgID i ≠ "" → ∃ m, m ∈ members s ∧ active_in (login_OrgID i) (User.ID u) m = true).

(** C18: A login succeeds only for a user with the address, whose status allows
    it and who has not been deleted, with a password that verifies against the
    stored hash and an active membership in the organization asked for; it adds
    one session of that user, which holds the hash of the refresh token, and the
    access token is signed for the user, the session and the organization. *)
Theorem Login_sound c i ip ua s :
  wp (Login cfg c i ip ua)
    (λ p s', ∃ u x claims, login_by i s u ∧ sessions s' = sessions s ++ [x]
       ∧ Session.UserID x = User.ID u ∧ Session.RefreshTokenHash x = Hash (RefreshToken p)
       ∧ jwt_sign claims = Ok (AccessToken p) ∧ Claims.UserID claims = User.ID u
       ∧ Claims.SessionID claims = Session.ID x ∧ Claims.OrgID claims = login_OrgID i)
    (λ _ _, True) s.
Proof.
  unfold Login. id_step. eapply wp_mono; [apply wp_rateLimitLogin|cbn beta|done]. intros _ s0 [w ->].
  id_step. id_step. unfold GetByEmail. id_step. apply wp_stmt; [by intros; id_step|].
  destruct (exactly_one _) as [u|e] eqn:Hu; [|by id_step]. rewrite put_view.
  assert (u ∈ users s ∧ ToLower (User.Email u) = normalized (login_Email i)) as [Hin Hmail].
  { destruct (take 1 _) as [|u' [|]] eqn:Ht; try done. injection Hu as ->.
    assert (u ∈ take 1 (select (λ u, (ToLower (User.Email u) =s? normalized (login_Email i)) && User.kept u)
              (view users_l (put id_world_l w s)))) as Hm by (rewrite Ht; by left).
    apply elem_of_take in Hm as (k & Hk & _). apply list_elem_of_lookup_2, elem_of_select in Hk as [Hp ?].
    bool_to_prop. done. }
  destruct (verify_password _ _ _) eqn:Hv; cbn [negb]; [|by id_step].
  destruct (_ =s? User.StatusSuspended); [by id_step|].
  destruct (User.CanLogin u) eqn:Hc; cbn [negb]; [|by id_step].
  destruct (String.eqb_spec (login_OrgID i) "") as [Ho|Ho]; cbn [negb].
  - do 2 id_step. apply wp_issueTokens. intros p x s' claims. rewrite Ho. intros. exists u, x, claims.
    split; [|done]. by repeat split.
  - do 3 id_step. apply wp_GetActive; [done|]. intros m Hm Ha. id_step. apply wp_issueTokens.
    intros p x s' claims. intros. exists u, x, claims. split; [|done]. repeat split; try done. intros _. by exists m.
Qed.
(** ** Password resets *)

Definition spent (hash : string) (t : list UserToken) : Prop :=
  ∀ x, x ∈ t → UserToken.TokenHash x = hash → UserToken.UsedAt x ≠ None.

Lemma consume_spends hash now t x t' :
  NoDup (UserToken.TokenHash <$> t) → consume hash now t = (Ok x, t') →
  spent hash t' ∧ ∃ y, y ∈ t ∧ usable_token hash now y = true ∧ UserToken.UserID x = UserToken.UserID y.
Proof.
  intros Hn. unfold consume, update_returning. destruct (select _ t) as [|y l] eqn:E; [done|]. intros [= <- <-].
  assert (y ∈ select (usable_token hash now) t) as [Hu Hy]%elem_of_select by (rewrite E; by left).
  split; [|by exists y]. intros z (y' & Hy' & ->)%elem_of_update_where Hz.
  destruct (usable_token hash now y') eqn:Hu'; [done|]. assert (y' = y) as ->; [|congruence].
  apply (NoDup_key_eq UserToken.TokenHash t); [done..|]. unfold usable_token in Hu. bool_to_prop. congruence.
Qed.

Lemma consume_spent hash now t : spent hash t → consume hash now t = (Err ErrNoRows, t).
Proof.
  intros Hs. unfold consume, update_returning. rewrite select_none; [done|]. intros x Hx.
  unfold usable_token. destruct (String.eqb_spec (UserToken.TokenHash x) hash) as [Hh|]; [|done].
  specialize (Hs x Hx Hh). by destruct (UserToken.UsedAt x).
Qed.

Lemma wp_hash_password p s (Q : string → iddb W → Prop) (E : error → iddb W → Prop) :
  (∀ e w, E e (put id_world_l w s)) →
  (∀ salt h w, Password.Hash (AuthConfig.hasher cfg) p salt = Ok h → Q h (put id_world_l w s)) →
  wp (hash_password cfg p) Q E s.
Proof.
  intros HE HQ. unfold hash_password. do 3 id_step. destruct (Password.Hash _ p a) as [h|e] eqn:Hh; [by eapply HQ|apply HE].
Qed.

Lemma accounts_Record U t c e : preserves (λ s : iddb W, users s = U ∧ reset_tokens s = t) (Record_ c e).
Proof. unfold Record_, Logger_Record. repeat id_keep. by apply preserves_query. Qed.

Lemma accounts_RevokeAll U t u x : preserves (λ s : iddb W, users s = U ∧ reset_tokens s = t) (Repository_RevokeAll u x).
Proof. unfold Repository_RevokeAll. repeat id_keep. Qed.

Lemma update_one_elim {S R} (T : Table S R) (s : S) p f t (P : result error R * list R → Prop) :
  (∀ e t', P (Err e, t')) → (∀ r, P (Ok r, update_where p f t)) → P (update_one T s p f t).
Proof.
  intros He Ho. unfold update_one, returning. destruct (existsb _ _); [apply He|].
  destruct (forallb _ _); [|apply He]. destruct (exactly_one _); auto.
Qed.

(** A token is refused before anything is done. *)
Definition refused c i ip ua s : Prop :=
  wp (ResetPassword cfg c i ip ua) (λ _ _, False) (λ _ s', ∃ w, s' = put id_world_l w s) s.

Lemma spent_refused c i ip ua s : spent (Hash (reset_Token i)) (reset_tokens s) → refused c i ip ua s.
Proof.
  intros Hs. unfold refused, ResetPassword. id_step. id_step. unfold ConsumePasswordResetToken. do 4 id_step.
  apply wp_stmt; [intros; by exists w|]. cbn [view reset_tokens_l]. rewrite consume_spent by done. exists w.
  exact (put_view reset_tokens_l (put id_world_l w s)).
Qed.

(** ** Deletion

    The deletion marks the row, and then looks for an unmarked one. *)

Lemma User_SoftDelete_fails id s : wp (User_SoftDelete id) (λ _ _, False) (λ _ _, True) s.
Proof.
  unfold User_SoftDelete, SoftDelete. cbn [deleted_at users_table]. do 5 id_step. apply wp_stmt; [done|].
  apply wp_with_uuids; [done|]. intros _. unfold done_, update_user, Update. do 5 id_step.
  apply wp_stmt; [done|]. apply wp_with_uuids; [done|]. intros _. unfold update_one, returning. cbn [view put users_l id_world_l users set_users set_id_world].
  rewrite select_after_bury; [done|done|]. intros u _. unfold live. cbn. apply andb_false_r.
Qed.

(** ** Revoking every session *)

Lemma RevokeAll_refused e u x T :
  uuid_against_text = Some e →
  preserves (λ s : iddb W, sessions s = T) (Repository_RevokeAll u x) ∧
  ∀ s, wp (Repository_RevokeAll u x) (λ _ _, False) (λ _ s', sessions s' = sessions s) s.
Proof.
  intros He. split.
  - unfold Repository_RevokeAll. rewrite He. repeat first [id_keep | id_read].
  - intros s. unfold Repository_RevokeAll. do 3 id_step. apply wp_stmt; [done|]. by rewrite He.
Qed.

(** Logging out everywhere and revoking sessions after a change of the
    password work exactly where the server compares a UUID with a text.  Where
    it reports an error (as Postgres does), the logouts never succeed, and they,
    a password reset and a password change leave every session as it was; where
    it does not, a success revokes all sessions of the user but the excepted
    one, and no other. *)
Theorem RevokeAll_by_typing u except :
  match uuid_against_text with
  | Some _ =>
      (∀ c ip ua s, wp (Sessions_RevokeAll c u except ip ua) (λ _ _, False) (λ _ s', sessions s' = sessions s) s
                    ∧ wp (Auth_LogoutAll c u except ip ua) (λ _ _, False) (λ _ s', sessions s' = sessions s) s)
      ∧ ∀ T c reset change ip ua,
          preserves (λ s : iddb W, sessions s = T) (ResetPassword cfg c reset ip ua)
          ∧ preserves (λ s : iddb W, sessions s = T) (ChangePassword cfg c u change ip ua)
  | None =>
      ∀ s, wp (Repository_RevokeAll u except)
        (λ n s', ∃ now, sessions s' = (λ x, if (Session.UserID x =s? u) && unrevoked x
                                               && ((except =s? "") || negb (Session.ID x =s? except))
                                            then Session.set_RevokedAt (Some now) x else x) <$> sessions s
           ∧ ∀ x, x ∈ sessions s' → Session.UserID x = u → unrevoked x = true → Session.ID x = except)
        (λ _ s', sessions s' = sessions s) s
  end.
Proof.
  destruct uuid_against_text as [e|] eqn:He.
  - assert (∀ x y T, preserves (λ s : iddb W, sessions s = T) (Repository_RevokeAll x y)) as Hp
      by (intros; by apply (RevokeAll_refused e)).
    split.
    + intros c ip ua s. split; unfold Sessions_RevokeAll, Auth_LogoutAll; id_step;
        (eapply wp_mono; [apply (RevokeAll_refused e u except (sessions s) He)|done|done]).
    + intros T c reset change ip ua.
      split; unfold ResetPassword, ChangePassword, hash_password, SetPassword, update_user, done_, Update,
        ConsumePasswordResetToken, User_GetByID, GetByID, get_by_id; repeat first [apply Hp | id_keep | id_read];
        apply sessions_Record.
  - intros s. unfold Repository_RevokeAll. do 3 id_step. apply wp_stmt; [done|]. rewrite He.
    apply wp_with_uuids; [done|]. intros _. exists a. split; [done|].
    intros x (y & Hy & ->)%elem_of_update_where Hu Hr.
    destruct ((Session.UserID y =s? u) && unrevoked y && _) eqn:Ep; [by destruct y|].
    rewrite Hu, Hr, String.eqb_refl in Ep. cbn in Ep. bool_to_prop. done.
Qed.
End facts.

(** ** Access tokens *)

Lemma NumericDate_bounds t : NumericDate t * Second ≤ t < NumericDate t * Second + Second.
Proof.
  unfold NumericDate. assert (0 < Second) by (unfold Second; lia).
  pose proof (Z.div_mod t Second ltac:(lia)). pose proof (Z.mod_pos_bound t Second ltac:(lia)). lia.
Qed.

(** C35: The token issued for a user, a session and an organization is accepted
    with exactly those claims from its issue (less twice the clock skew) until a
    second before its expiry plus the skew, and refused from the expiry plus the
    skew on. *)
Theorem access_token_window {W} `{IW : IdentityWorld W} `{JL : JwtLaws} (cfg : JwtConfig.t) u sid org (s : iddb W) :
  wp (IssueAccessToken cfg u sid org)
    (λ '(tok, exp) _, ∃ c issued, exp = issued + JwtConfig.AccessTTL cfg
       ∧ Claims.UserID c = u ∧ Claims.Subject c = u ∧ Claims.SessionID c = sid ∧ Claims.OrgID c = org
       ∧ (∀ now, issued - 2 * JwtConfig.ClockSkew cfg ≤ now < exp + JwtConfig.ClockSkew cfg - Second →
            validate cfg now tok = Ok c)
       ∧ ∀ now, exp + JwtConfig.ClockSkew cfg ≤ now →
            validate cfg now tok = Err (wrap_with CodeUnauthenticated "invalid access token" token_expired))
    (λ _ _, True) s.
Proof.
  unfold IssueAccessToken. do 4 id_step. destruct (jwt_sign _) as [tok|e] eqn:Hs; id_step; [|done].
  exists (access_claims cfg a a0 u sid org), a. split; [done|]. do 4 (split; [done|]).
  unfold validate. rewrite (verify_sign _ _ Hs). unfold times_valid, access_claims; cbn [Claims.ExpiresAt Claims.NotBefore Claims.Issuer].
  pose proof (NumericDate_bounds (a - JwtConfig.ClockSkew cfg)). pose proof (NumericDate_bounds (a + JwtConfig.AccessTTL cfg)).
  rewrite String.eqb_refl, andb_false_r. split; intros now Hnow.
  - rewrite (proj2 (Z.ltb_lt _ _)), (proj2 (Z.leb_le _ _)) by lia. done.
  - rewrite (proj2 (Z.ltb_ge _ _)) by lia. done.
Qed.

(** ** Keys *)

#[local] Arguments String.append !_ _ /.

Definition no_underscore : string → bool := all_bytes (λ a, negb (bool_decide (a = "_"%char))).

Definition no_space : string → bool := all_bytes (λ a, negb (is_space a)).

Lemma trim_no_space s : no_space s = true → TrimSpace s = s.
Proof.
  unfold no_space, TrimSpace. intros H. assert (trim_left s = s) as ->.
  { destruct s as [|a s]; [done|]. cbn in H. bool_to_prop. cbn. by rewrite H. }
  induction s as [|a s IH]; [done|]. cbn in H. bool_to_prop. cbn. rewrite H. cbn. by rewrite IH.
Qed.

Lemma last_index_app s r c :
  last_index (s +:+ r) c =
    match last_index r c with Some n => Some (String.length s + n)%nat | None => last_index s c end.
Proof.
  induction s as [|a s IH]; cbn; [by destruct (last_index r c)|]. rewrite IH. by destruct (last_index r c).
Qed.

Lemma last_index_underscore s : last_index s "_" = None ↔ no_underscore s = true.
Proof.
  unfold no_underscore. induction s as [|a s IH]; [done|]. cbn. rewrite andb_true_iff, <- IH.
  destruct (last_index s "_"); [split; [done|by intros [_ ?]]|]. case_bool_decide; split; try done; by intros [].
Qed.

Lemma length_drop_bytes n s : String.length (drop_bytes n s) = (String.length s - n)%nat.
Proof. revert s. induction n as [|n IH]; intros [|a s]; cbn; [done..|apply IH]. Qed.

(** A key made of a prefix and a secret is split into them again exactly
    when the secret has no underscore; the secrets are texts of base64url, which
    has it. *)
Theorem SplitKey_FormatAPIKey prefix secret :
  prefix ≠ "" → secret ≠ "" → no_space prefix = true → no_space secret = true →
  SplitKey (FormatAPIKey prefix secret) = Ok (prefix, secret) ↔ no_underscore secret = true.
Proof.
  intros Hp Hs Hsp Hss. unfold SplitKey, FormatAPIKey.
  rewrite trim_no_space by (unfold no_space in *; by rewrite !all_bytes_app, Hsp, Hss).
  rewrite (last_index_app prefix), (last_index_app "_"). change (last_index "_" "_") with (Some O).
  rewrite !length_app_s. assert (String.length prefix ≠ 0)%nat by (by destruct prefix).
  assert (String.length secret ≠ 0)%nat by (by destruct secret). rewrite <- last_index_underscore.
  change (String.length "_") with 1%nat. destruct (last_index secret "_") as [n|].
  - split; [|done]. destruct (_ || _)%nat; [done|]. intros [= _ Hd].
    apply (f_equal String.length) in Hd. rewrite length_drop_bytes, !length_app_s in Hd. cbn in Hd. lia.
  - split; [done|intros _]. rewrite Nat.add_0_r. rewrite orb_false_intro; [|by apply Nat.eqb_neq|apply Nat.leb_gt; lia].
    rewrite take_bytes_app by done. f_equal. f_equal. rewrite <- app_assoc_s. apply drop_bytes_app.
    rewrite length_app_s. cbn. lia.
Qed.
