(* ===== verification/IdentitySim.v ===== *)
(** * Identity: a simulated installation

    A world that counts its readings, a digest, a signature and a key derivation
    that are easy to compute; the theorems on identity applied to it. *)

From Stdlib Require Import Ascii.
From stdpp Require Import pretty.
From S2P Require Import Prelude GoLib Errors Postgres Sql Rbac DeployModel Rows Repository ControlPlane Password IdentityModel Slug IdentityStore IdentityService Access IdentityFacts IdentityInvariants AuthFacts.

(** ** The world: the time, and the number of values drawn *)

Definition sim_world : Type := Z * Z.

Definition drawn (label : string) (w : sim_world) : string * sim_world := (label +:+ pretty w.2, (w.1, w.2 + 1)).

#[local] Instance sim_clock : Environment sim_world := {|
  read_clock w := (w.1, (w.1 + Second, w.2));
  fresh_id := drawn "id-";
|}.

#[local] Instance sim_identity : IdentityWorld sim_world := {|
  random_token _ := drawn "token";
  random_hex _ := drawn "hex";
  random_salt _ w := (Ok "abcd", w);
  allow_login _ w := (Ok true, w);
|}.

(** Readings are seconds apart. *)
#[local] Instance sim_clock_laws : ClockLaws sim_world.
Proof. by refine {| instant := fst |}; intros [t n]; cbn; unfold Second; lia. Defined.

#[local] Instance sim_identity_clock : IdentityClock sim_world.
Proof. by refine {| identity_clock := sim_clock_laws |}; intros ? [t n]; cbn; lia. Defined.

#[local] Instance sim_digest : Digest := {| sha256_hex s := "digest of " +:+ s |}.
#[local] Existing Instance toy_argon.
#[local] Existing Instance insertion_sorter.
#[local] Existing Instance strict_driver.
#[local] Existing Instance postgres_typing.

(** Tokens are the digits of the claims. *)
Definition claims_tuple (c : Claims) :=
  (Claims.Issuer c, Claims.Audience c, Claims.Subject c, Claims.IssuedAt c, Claims.NotBefore c, Claims.ExpiresAt c,
   (Claims.ID c, Claims.UserID c, Claims.SessionID c, Claims.OrgID c)).

Fixpoint digits (p : positive) : string :=
  match p with xH => "" | xO p => String "0" (digits p) | xI p => String "1" (digits p) end.

Fixpoint undigits (s : string) : positive :=
  match s with EmptyString => xH | String a s => if bool_decide (a = "1"%char) then xI (undigits s) else xO (undigits s) end.

Lemma undigits_digits p : undigits (digits p) = p.
Proof. induction p as [p IH|p IH|]; cbn; by rewrite ?IH. Qed.

#[local] Instance sim_jwt : JwtLibrary := {|
  jwt_sign c := Ok (digits (countable.encode (claims_tuple c)));
  jwt_verify tok :=
    match (countable.decode (undigits tok) : option (string * list string * string * Z * Z * Z * (string * string * string * string))) with
    | Some (iss, aud, sub, iat, nbf, exp, (jti, u, x, o)) => Ok (Claims.mk iss aud sub iat nbf exp jti u x o)
    | None => Err (Plain "token is malformed")
    end;
|}.

#[local] Instance sim_laws : JwtLaws (J := sim_jwt).
Proof.
  constructor. intros c tok [= <-]. cbn [jwt_verify sim_jwt]. rewrite undigits_digits, decode_encode. by destruct c.
Qed.

(** ** The installation *)

Definition sim_params : Params.t := Params.mk 8 1 1 4 5.
Definition sim_config : AuthConfig.t :=
  NewAuthService true 0 (JwtConfig.mk "agnivo" "api" 0 0)
    (Hasher.mk sim_params (hash_with sim_params "dummy-timing-obfuscation-password" "pqrs")).

Definition empty_db : iddb sim_world := mkId (0, 0) [] [] [] [] [] [] [] [] [] [] ∅.
Definition guest : Caller := Caller.mk "" "" "" "req" "cor".

Definition state_after {A} (m : db (iddb sim_world) A) (s : iddb sim_world) : iddb sim_world := tables_of (m (s, [])).

(** Ada has registered with an organization and logged in. *)
Definition registered : iddb sim_world :=
  state_after (Register sim_config guest
    {| reg_Email := "Ada@Example.org"; reg_Password := "secret"; reg_DisplayName := "Ada"; reg_OrgName := "Acme Corp" |} "" "")
    empty_db.

Definition ada_login : LoginInput :=
  {| login_Email := "ada@example.org"; login_Password := "secret"; login_RememberMe := false; login_DeviceName := "laptop";
     login_OrgID := "" |}.

Definition logged_in := Login sim_config guest ada_login "" "" (registered, []).
Definition running : iddb sim_world := tables_of logged_in.
Definition tokens : TokenPair := match logged_in.1 with Ok p => p | Err _ => {| AccessToken := ""; RefreshToken := ""; ExpiresAt := 0; TokenType := "" |} end.

(** Bodies are empty here. *)
#[local] Instance no_body A : Decoder A := λ _, Err (Platform (InvalidArgument "request body is empty")).

Definition nobody : Ctx := Ctx.mk guest "" "".

Definition request (method pattern : string) (params : list (string * string)) (token : string) : Request :=
  Request.mk method pattern (list_to_map params) {[ "Authorization" := "Bearer " +:+ token ]} "10.0.0.1:1234" "" ∅.

Definition get_acme (token : string) : Request := request "GET" "/orgs/{orgID}/" [("orgID", "id-1")] token.

(** ** The theorems applied *)


(** Bob has an organization of his own with an API key, and Ada has a key of
    hers. *)
Definition bob_registered : iddb sim_world :=
  state_after (Register sim_config guest
    {| reg_Email := "bob@example.org"; reg_Password := "hidden"; reg_DisplayName := "Bob"; reg_OrgName := "Beta" |} "" "")
    running.
Definition ci_key : CreateKeyInput := {| key_Name := "ci"; key_Scopes := []; key_ExpiresAt := None |}.
Definition bob_key := Keys_Create (Caller.mk "id-8" "id-9" RoleOwner "" "") "id-9" "id-8" ci_key "" "" (bob_registered, []).
Definition bob_token : string := match bob_key.1 with Ok (_, t) => t | Err _ => "" end.
Definition ada_key :=
  Keys_Create (Caller.mk "id-0" "id-1" RoleOwner "" "") "id-1" "id-0" ci_key "" "" (tables_of bob_key, []).
Definition two_orgs : iddb sim_world := tables_of ada_key.
Definition delete_key (token : string) : Request :=
  request "DELETE" "/orgs/{orgID}/api-keys/{keyID}" [("orgID", "id-1"); ("keyID", "id-18")] token.

(** Bob's key, used on Ada's organization, is marked as used; Ada's deletion of her
    key leaves it alone. *)
Lemma scoped_isolated_witness :
  let bobs := (serve sim_config nobody (delete_key bob_token) (two_orgs, [])).2.1 in
  let adas := (serve sim_config nobody (delete_key (AccessToken tokens)) (two_orgs, [])).2.1 in
  org_rows_but_use "id-9" bobs = org_rows_but_use "id-9" two_orgs
  ∧ org_rows_but_use "id-9" adas = org_rows_but_use "id-9" two_orgs
  ∧ APIKey.LastUsedAt <$> api_keys bobs = [Some (20 * Second); None] ∧ APIKey.ID <$> api_keys adas = ["id-14"]
  ∧ length (org_rows_but_use "id-9" two_orgs).2 = 1%nat.
Proof.
  assert (∀ token, org_rows_but_use "id-9" (serve sim_config nobody (delete_key token) (two_orgs, [])).2.1
                   = org_rows_but_use "id-9" two_orgs) as H.
  { intros token. apply (scoped_isolated sim_config "id-9" nobody (delete_key token) (Some PermAPIKeyManage)
      handle_DeleteAPIKey two_orgs []); [by do 10 right; left|done|vm_compute; congruence]. }
  split; [apply H|]. split; [apply H|]. vm_compute. by repeat split.
Defined.

Lemma owner_kept_witness :
  owned "id-1" (members running) ∧
  owned "id-1" (members (state_after
    (TransferOwnership (Caller.mk "id-0" "id-1" RoleOwner "" "") "id-1" "id-0" "id-0" "" "") running)).
Proof.
  assert (owned "id-1" (members running)) as H.
  { split; [apply (bool_decide_unpack _); vm_compute; exact I|]. vm_compute. left. by repeat split. }
  split; [exact H|]. by apply (owner_kept sim_config "id-1").
Defined.

Lemma Refresh_rotates_witness :
  match Refresh sim_config guest (RefreshToken tokens) "" "" (running, []) with
  | (Ok p, (s', _)) => RefreshToken p = "token8" ∧ ∀ x, x ∈ sessions s' → Session.RevokedAt x = None → Session.RefreshTokenHash x ≠ "digest of token4"
  | (Err _, _) => False
  end.
Proof.
  assert (distinct_sessions (sessions running)) as Hd.
  { split; apply (bool_decide_unpack _); vm_compute; exact I. }
  pose proof (Refresh_rotates sim_config guest (RefreshToken tokens) "" "" running Hd []) as H.
  assert (match (Refresh sim_config guest (RefreshToken tokens) "" "" (running, [])).1 with
          | Ok p => RefreshToken p =s? "token8" | Err _ => false end = true) as E by (vm_compute; reflexivity).
  destruct (Refresh _ _ _ _ _ _) as [[p|e] [s' fs]]; [|done]. cbn [fst] in E. apply String.eqb_eq in E.
  split; [exact E|]. destruct H as (_ & _ & _ & H). apply H. rewrite E. vm_compute. congruence.
Defined.

Lemma Login_sound_witness :
  match Login sim_config guest ada_login "" "" (registered, []) with
  | (Ok p, (s', _)) => ∃ u x claims, login_by sim_config ada_login registered u ∧ sessions s' = sessions registered ++ [x]
       ∧ jwt_sign claims = Ok (AccessToken p) ∧ Claims.SessionID claims = Session.ID x
  | (Err _, _) => False
  end.
Proof.
  pose proof (Login_sound sim_config guest ada_login "" "" registered []) as H.
  assert (is_ok (Login sim_config guest ada_login "" "" (registered, [])).1 = true) as E by (vm_compute; reflexivity).
  destruct (Login _ _ _ _ _ _) as [[p|e] [s' fs]]; [|done].
  destruct H as (u & x & claims & Hl & Hs & _ & _ & Hj & _ & Hx & _).
  exists u, x, claims. exact (conj Hl (conj Hs (conj Hj Hx))).
Defined.

(** Ada has asked for a reset. *)
Definition asked : iddb sim_world := state_after (RequestPasswordReset guest "ada@example.org" "" "") running.
Definition reset_with (token : string) : ResetPasswordInput := {| reset_Token := token; reset_NewPassword := "changed" |}.


(** On Postgres the reset has revoked nothing. *)
Lemma RevokeAll_by_typing_witness :
  sessions (state_after (ResetPassword sim_config guest (reset_with "token8") "" "") asked) = sessions running
  ∧ length (sessions running) = 1%nat.
Proof.
  split; [|vm_compute; reflexivity].
  pose proof (RevokeAll_by_typing (W := sim_world) sim_config "id-0" "") as [_ H].
  destruct (H (sessions running) guest (reset_with "token8") {| CurrentPassword := ""; NewPassword := "" |} "" "") as [Hr _].
  apply Hr. vm_compute. reflexivity.
Defined.

Lemma access_token_window_witness :
  match IssueAccessToken (AuthConfig.jwt sim_config) "id-0" "id-5" "" (empty_db, []) with
  | (Ok (tok, exp), _) =>
      exp = 15 * Minute ∧ is_ok (validate (AuthConfig.jwt sim_config) (10 * Minute) tok) = true
      ∧ is_ok (validate (AuthConfig.jwt sim_config) (16 * Minute) tok) = false
  | (Err _, _) => False
  end.
Proof.
  pose proof (access_token_window (AuthConfig.jwt sim_config) "id-0" "id-5" "" empty_db []) as H.
  assert (match (IssueAccessToken (AuthConfig.jwt sim_config) "id-0" "id-5" "" (empty_db, [])).1 with
          | Ok (_, exp) => exp =? 15 * Minute | Err _ => false end = true) as E by (vm_compute; reflexivity).
  destruct (IssueAccessToken _ _ _ _ _) as [[[tok exp]|e] [s' fs]]; [|done]. cbn [fst] in E. apply Z.eqb_eq in E as ->.
  destruct H as (c & issued & Hi & _ & _ & _ & _ & Hin & Hout). split; [done|].
  change (JwtConfig.AccessTTL (AuthConfig.jwt sim_config)) with (15 * Minute) in Hi.
  change (JwtConfig.ClockSkew (AuthConfig.jwt sim_config)) with (30 * Second) in *.
  unfold Minute, Second in *. rewrite Hin, Hout by lia. done.
Defined.

Lemma SplitKey_FormatAPIKey_witness :
  SplitKey "agn_1a2b3c4d_c2VjcmV0" = Ok ("agn_1a2b3c4d", "c2VjcmV0")
  ∧ SplitKey "agn_1a2b3c4d_c2V_cmV0" = Ok ("agn_1a2b3c4d_c2V", "cmV0").
Proof.
  split; [|vm_compute; reflexivity]. by apply (SplitKey_FormatAPIKey "agn_1a2b3c4d" "c2VjcmV0").
Defined.

(** Ada invites a viewer and accepts the invitation herself: her organization
    has no owner left. *)
Definition ada : Caller := Caller.mk "id-0" "id-1" RoleOwner "" "".
Definition invited : iddb sim_world :=
  state_after (Invite ada "id-1" "id-0" {| inv_Email := "bob@example.org"; inv_Role := RoleViewer |} "" "") running.

Lemma accepting_demotes_the_owner :
  Member.Role <$> members invited = [RoleOwner]
  ∧ Member.Role <$> members (state_after (Accept ada "id-0" "token8" "" "") invited) = [RoleViewer].
Proof. split; vm_compute; reflexivity. Qed.
