(* ===== verification/CpStore.v ===== *)
(** * The control plane's resources: data

    The rows behind packages/application/controlplane/project, envvar, secret,
    domain, gitrepo and webhook with the tables of schema.go, and their state:
    [base] is the database of the deployment service (ControlPlane.v, which has
    the projects, the jobs and the audit log), to which the other tables are
    added.  A sealed blob and a JSON document are texts; a nil blob is empty, a
    nil document [None].  Identifiers are valid UUID texts or empty. *)

From S2P Require Import Prelude GoLib Errors Postgres Sql Rbac DeployModel Rows Repository Outside ControlPlane Password BuildModel BuildStore Slug.

(** ** Rows *)

(** What an UPDATE sets of a project. *)
Module ProjectRow.
Definition set_OrgID (x : string) (r : Project) : Project := Project.mk (Project.ID r) x (Project.Name r)
  (Project.Slug r) (Project.Description r) (Project.RepoURL r) (Project.RepoProvider r) (Project.Branch r)
  (Project.DefaultRuntime r) (Project.Framework r) (Project.BuildMethod r) (Project.Region r)
  (Project.SleepConfig r) (Project.Visibility r) (Project.Status r) (Project.Labels r) (Project.Tags r)
  (Project.Metadata r) (Project.CreatedBy r) (Project.CreatedAt r) (Project.UpdatedAt r) (Project.ArchivedAt r)
  (Project.DeletedAt r).
Definition set_Name (x : string) (r : Project) : Project := Project.mk (Project.ID r) (Project.OrgID r) x
  (Project.Slug r) (Project.Description r) (Project.RepoURL r) (Project.RepoProvider r) (Project.Branch r)
  (Project.DefaultRuntime r) (Project.Framework r) (Project.BuildMethod r) (Project.Region r)
  (Project.SleepConfig r) (Project.Visibility r) (Project.Status r) (Project.Labels r) (Project.Tags r)
  (Project.Metadata r) (Project.CreatedBy r) (Project.CreatedAt r) (Project.UpdatedAt r) (Project.ArchivedAt r)
  (Project.DeletedAt r).
Definition set_Slug (x : string) (r : Project) : Project := Project.mk (Project.ID r) (Project.OrgID r)
  (Project.Name r) x (Project.Description r) (Project.RepoURL r) (Project.RepoProvider r) (Project.Branch r)
  (Project.DefaultRuntime r) (Project.Framework r) (Project.BuildMethod r) (Project.Region r)
  (Project.SleepConfig r) (Project.Visibility r) (Project.Status r) (Project.Labels r) (Project.Tags r)
  (Project.Metadata r) (Project.CreatedBy r) (Project.CreatedAt r) (Project.UpdatedAt r) (Project.ArchivedAt r)
  (Project.DeletedAt r).
Definition set_Description (x : string) (r : Project) : Project := Project.mk (Project.ID r) (Project.OrgID r)
  (Project.Name r) (Project.Slug r) x (Project.RepoURL r) (Project.RepoProvider r) (Project.Branch r)
  (Project.DefaultRuntime r) (Project.Framework r) (Project.BuildMethod r) (Project.Region r)
  (Project.SleepConfig r) (Project.Visibility r) (Project.Status r) (Project.Labels r) (Project.Tags r)
  (Project.Metadata r) (Project.CreatedBy r) (Project.CreatedAt r) (Project.UpdatedAt r) (Project.ArchivedAt r)
  (Project.DeletedAt r).
Definition set_Branch (x : string) (r : Project) : Project := Project.mk (Project.ID r) (Project.OrgID r)
  (Project.Name r) (Project.Slug r) (Project.Description r) (Project.RepoURL r) (Project.RepoProvider r) x
  (Project.DefaultRuntime r) (Project.Framework r) (Project.BuildMethod r) (Project.Region r)
  (Project.SleepConfig r) (Project.Visibility r) (Project.Status r) (Project.Labels r) (Project.Tags r)
  (Project.Metadata r) (Project.CreatedBy r) (Project.CreatedAt r) (Project.UpdatedAt r) (Project.ArchivedAt r)
  (Project.DeletedAt r).
Definition set_DefaultRuntime (x : string) (r : Project) : Project := Project.mk (Project.ID r) (Project.OrgID
  r) (Project.Name r) (Project.Slug r) (Project.Description r) (Project.RepoURL r) (Project.RepoProvider r)
  (Project.Branch r) x (Project.Framework r) (Project.BuildMethod r) (Project.Region r) (Project.SleepConfig r)
  (Project.Visibility r) (Project.Status r) (Project.Labels r) (Project.Tags r) (Project.Metadata r)
  (Project.CreatedBy r) (Project.CreatedAt r) (Project.UpdatedAt r) (Project.ArchivedAt r) (Project.DeletedAt
  r).
Definition set_Framework (x : string) (r : Project) : Project := Project.mk (Project.ID r) (Project.OrgID r)
  (Project.Name r) (Project.Slug r) (Project.Description r) (Project.RepoURL r) (Project.RepoProvider r)
  (Project.Branch r) (Project.DefaultRuntime r) x (Project.BuildMethod r) (Project.Region r)
  (Project.SleepConfig r) (Project.Visibility r) (Project.Status r) (Project.Labels r) (Project.Tags r)
  (Project.Metadata r) (Project.CreatedBy r) (Project.CreatedAt r) (Project.UpdatedAt r) (Project.ArchivedAt r)
  (Project.DeletedAt r).
Definition set_BuildMethod (x : string) (r : Project) : Project := Project.mk (Project.ID r) (Project.OrgID r)
  (Project.Name r) (Project.Slug r) (Project.Description r) (Project.RepoURL r) (Project.RepoProvider r)
  (Project.Branch r) (Project.DefaultRuntime r) (Project.Framework r) x (Project.Region r) (Project.SleepConfig
  r) (Project.Visibility r) (Project.Status r) (Project.Labels r) (Project.Tags r) (Project.Metadata r)
  (Project.CreatedBy r) (Project.CreatedAt r) (Project.UpdatedAt r) (Project.ArchivedAt r) (Project.DeletedAt
  r).
Definition set_Region (x : string) (r : Project) : Project := Project.mk (Project.ID r) (Project.OrgID r)
  (Project.Name r) (Project.Slug r) (Project.Description r) (Project.RepoURL r) (Project.RepoProvider r)
  (Project.Branch r) (Project.DefaultRuntime r) (Project.Framework r) (Project.BuildMethod r) x
  (Project.SleepConfig r) (Project.Visibility r) (Project.Status r) (Project.Labels r) (Project.Tags r)
  (Project.Metadata r) (Project.CreatedBy r) (Project.CreatedAt r) (Project.UpdatedAt r) (Project.ArchivedAt r)
  (Project.DeletedAt r).
Definition set_SleepConfig (x : string) (r : Project) : Project := Project.mk (Project.ID r) (Project.OrgID r)
  (Project.Name r) (Project.Slug r) (Project.Description r) (Project.RepoURL r) (Project.RepoProvider r)
  (Project.Branch r) (Project.DefaultRuntime r) (Project.Framework r) (Project.BuildMethod r) (Project.Region r)
  x (Project.Visibility r) (Project.Status r) (Project.Labels r) (Project.Tags r) (Project.Metadata r)
  (Project.CreatedBy r) (Project.CreatedAt r) (Project.UpdatedAt r) (Project.ArchivedAt r) (Project.DeletedAt
  r).
Definition set_Visibility (x : string) (r : Project) : Project := Project.mk (Project.ID r) (Project.OrgID r)
  (Project.Name r) (Project.Slug r) (Project.Description r) (Project.RepoURL r) (Project.RepoProvider r)
  (Project.Branch r) (Project.DefaultRuntime r) (Project.Framework r) (Project.BuildMethod r) (Project.Region r)
  (Project.SleepConfig r) x (Project.Status r) (Project.Labels r) (Project.Tags r) (Project.Metadata r)
  (Project.CreatedBy r) (Project.CreatedAt r) (Project.UpdatedAt r) (Project.ArchivedAt r) (Project.DeletedAt
  r).
Definition set_Status (x : string) (r : Project) : Project := Project.mk (Project.ID r) (Project.OrgID r)
  (Project.Name r) (Project.Slug r) (Project.Description r) (Project.RepoURL r) (Project.RepoProvider r)
  (Project.Branch r) (Project.DefaultRuntime r) (Project.Framework r) (Project.BuildMethod r) (Project.Region r)
  (Project.SleepConfig r) (Project.Visibility r) x (Project.Labels r) (Project.Tags r) (Project.Metadata r)
  (Project.CreatedBy r) (Project.CreatedAt r) (Project.UpdatedAt r) (Project.ArchivedAt r) (Project.DeletedAt
  r).
Definition set_Labels (x : string) (r : Project) : Project := Project.mk (Project.ID r) (Project.OrgID r)
  (Project.Name r) (Project.Slug r) (Project.Description r) (Project.RepoURL r) (Project.RepoProvider r)
  (Project.Branch r) (Project.DefaultRuntime r) (Project.Framework r) (Project.BuildMethod r) (Project.Region r)
  (Project.SleepConfig r) (Project.Visibility r) (Project.Status r) x (Project.Tags r) (Project.Metadata r)
  (Project.CreatedBy r) (Project.CreatedAt r) (Project.UpdatedAt r) (Project.ArchivedAt r) (Project.DeletedAt
  r).
Definition set_Tags (x : list string) (r : Project) : Project := Project.mk (Project.ID r) (Project.OrgID r)
  (Project.Name r) (Project.Slug r) (Project.Description r) (Project.RepoURL r) (Project.RepoProvider r)
  (Project.Branch r) (Project.DefaultRuntime r) (Project.Framework r) (Project.BuildMethod r) (Project.Region r)
  (Project.SleepConfig r) (Project.Visibility r) (Project.Status r) (Project.Labels r) x (Project.Metadata r)
  (Project.CreatedBy r) (Project.CreatedAt r) (Project.UpdatedAt r) (Project.ArchivedAt r) (Project.DeletedAt
  r).
Definition set_Metadata (x : string) (r : Project) : Project := Project.mk (Project.ID r) (Project.OrgID r)
  (Project.Name r) (Project.Slug r) (Project.Description r) (Project.RepoURL r) (Project.RepoProvider r)
  (Project.Branch r) (Project.DefaultRuntime r) (Project.Framework r) (Project.BuildMethod r) (Project.Region r)
  (Project.SleepConfig r) (Project.Visibility r) (Project.Status r) (Project.Labels r) (Project.Tags r) x
  (Project.CreatedBy r) (Project.CreatedAt r) (Project.UpdatedAt r) (Project.ArchivedAt r) (Project.DeletedAt
  r).
Definition set_UpdatedAt (x : Time) (r : Project) : Project := Project.mk (Project.ID r) (Project.OrgID r)
  (Project.Name r) (Project.Slug r) (Project.Description r) (Project.RepoURL r) (Project.RepoProvider r)
  (Project.Branch r) (Project.DefaultRuntime r) (Project.Framework r) (Project.BuildMethod r) (Project.Region r)
  (Project.SleepConfig r) (Project.Visibility r) (Project.Status r) (Project.Labels r) (Project.Tags r)
  (Project.Metadata r) (Project.CreatedBy r) (Project.CreatedAt r) x (Project.ArchivedAt r) (Project.DeletedAt
  r).
Definition set_ArchivedAt (x : option Time) (r : Project) : Project := Project.mk (Project.ID r) (Project.OrgID
  r) (Project.Name r) (Project.Slug r) (Project.Description r) (Project.RepoURL r) (Project.RepoProvider r)
  (Project.Branch r) (Project.DefaultRuntime r) (Project.Framework r) (Project.BuildMethod r) (Project.Region r)
  (Project.SleepConfig r) (Project.Visibility r) (Project.Status r) (Project.Labels r) (Project.Tags r)
  (Project.Metadata r) (Project.CreatedBy r) (Project.CreatedAt r) (Project.UpdatedAt r) x (Project.DeletedAt
  r).
Definition set_DeletedAt (x : option Time) (r : Project) : Project := Project.mk (Project.ID r) (Project.OrgID
  r) (Project.Name r) (Project.Slug r) (Project.Description r) (Project.RepoURL r) (Project.RepoProvider r)
  (Project.Branch r) (Project.DefaultRuntime r) (Project.Framework r) (Project.BuildMethod r) (Project.Region r)
  (Project.SleepConfig r) (Project.Visibility r) (Project.Status r) (Project.Labels r) (Project.Tags r)
  (Project.Metadata r) (Project.CreatedBy r) (Project.CreatedAt r) (Project.UpdatedAt r) (Project.ArchivedAt r)
  x.
End ProjectRow.

Module VariableRow.
Definition set_ValueEnc (x : string) (r : Variable_) : Variable_ := Variable_.mk (Variable_.ID r)
  (Variable_.OrgID r) (Variable_.ProjectID r) (Variable_.Key r) x (Variable_.Environment r) (Variable_.IsSecret
  r) (Variable_.Version r) (Variable_.CreatedBy r) (Variable_.CreatedAt r) (Variable_.UpdatedAt r)
  (Variable_.DeletedAt r).
Definition set_Version (x : Z) (r : Variable_) : Variable_ := Variable_.mk (Variable_.ID r) (Variable_.OrgID r)
  (Variable_.ProjectID r) (Variable_.Key r) (Variable_.ValueEnc r) (Variable_.Environment r) (Variable_.IsSecret
  r) x (Variable_.CreatedBy r) (Variable_.CreatedAt r) (Variable_.UpdatedAt r) (Variable_.DeletedAt r).
Definition set_UpdatedAt (x : Time) (r : Variable_) : Variable_ := Variable_.mk (Variable_.ID r)
  (Variable_.OrgID r) (Variable_.ProjectID r) (Variable_.Key r) (Variable_.ValueEnc r) (Variable_.Environment r)
  (Variable_.IsSecret r) (Variable_.Version r) (Variable_.CreatedBy r) (Variable_.CreatedAt r) x
  (Variable_.DeletedAt r).
Definition set_DeletedAt (x : option Time) (r : Variable_) : Variable_ := Variable_.mk (Variable_.ID r)
  (Variable_.OrgID r) (Variable_.ProjectID r) (Variable_.Key r) (Variable_.ValueEnc r) (Variable_.Environment r)
  (Variable_.IsSecret r) (Variable_.Version r) (Variable_.CreatedBy r) (Variable_.CreatedAt r)
  (Variable_.UpdatedAt r) x.
End VariableRow.

Module RepositoryRow.
Definition set_DefaultBranch (x : string) (r : GitRepository) : GitRepository := GitRepository.mk
  (GitRepository.ID r) (GitRepository.ProjectID r) (GitRepository.OrgID r) (GitRepository.Provider r)
  (GitRepository.RepoURL r) (GitRepository.CloneURL r) x (GitRepository.IsPrivate r)
  (GitRepository.AccessTokenEnc r) (GitRepository.DeployKeyEnc r) (GitRepository.WebhookSecret r)
  (GitRepository.Metadata r) (GitRepository.ConnectedAt r) (GitRepository.UpdatedAt r)
  (GitRepository.DisconnectedAt r).
Definition set_CloneURL (x : string) (r : GitRepository) : GitRepository := GitRepository.mk (GitRepository.ID
  r) (GitRepository.ProjectID r) (GitRepository.OrgID r) (GitRepository.Provider r) (GitRepository.RepoURL r) x
  (GitRepository.DefaultBranch r) (GitRepository.IsPrivate r) (GitRepository.AccessTokenEnc r)
  (GitRepository.DeployKeyEnc r) (GitRepository.WebhookSecret r) (GitRepository.Metadata r)
  (GitRepository.ConnectedAt r) (GitRepository.UpdatedAt r) (GitRepository.DisconnectedAt r).
Definition set_IsPrivate (x : bool) (r : GitRepository) : GitRepository := GitRepository.mk (GitRepository.ID r)
  (GitRepository.ProjectID r) (GitRepository.OrgID r) (GitRepository.Provider r) (GitRepository.RepoURL r)
  (GitRepository.CloneURL r) (GitRepository.DefaultBranch r) x (GitRepository.AccessTokenEnc r)
  (GitRepository.DeployKeyEnc r) (GitRepository.WebhookSecret r) (GitRepository.Metadata r)
  (GitRepository.ConnectedAt r) (GitRepository.UpdatedAt r) (GitRepository.DisconnectedAt r).
Definition set_AccessTokenEnc (x : string) (r : GitRepository) : GitRepository := GitRepository.mk
  (GitRepository.ID r) (GitRepository.ProjectID r) (GitRepository.OrgID r) (GitRepository.Provider r)
  (GitRepository.RepoURL r) (GitRepository.CloneURL r) (GitRepository.DefaultBranch r) (GitRepository.IsPrivate
  r) x (GitRepository.DeployKeyEnc r) (GitRepository.WebhookSecret r) (GitRepository.Metadata r)
  (GitRepository.ConnectedAt r) (GitRepository.UpdatedAt r) (GitRepository.DisconnectedAt r).
Definition set_DeployKeyEnc (x : string) (r : GitRepository) : GitRepository := GitRepository.mk
  (GitRepository.ID r) (GitRepository.ProjectID r) (GitRepository.OrgID r) (GitRepository.Provider r)
  (GitRepository.RepoURL r) (GitRepository.CloneURL r) (GitRepository.DefaultBranch r) (GitRepository.IsPrivate
  r) (GitRepository.AccessTokenEnc r) x (GitRepository.WebhookSecret r) (GitRepository.Metadata r)
  (GitRepository.ConnectedAt r) (GitRepository.UpdatedAt r) (GitRepository.DisconnectedAt r).
Definition set_WebhookSecret (x : string) (r : GitRepository) : GitRepository := GitRepository.mk
  (GitRepository.ID r) (GitRepository.ProjectID r) (GitRepository.OrgID r) (GitRepository.Provider r)
  (GitRepository.RepoURL r) (GitRepository.CloneURL r) (GitRepository.DefaultBranch r) (GitRepository.IsPrivate
  r) (GitRepository.AccessTokenEnc r) (GitRepository.DeployKeyEnc r) x (GitRepository.Metadata r)
  (GitRepository.ConnectedAt r) (GitRepository.UpdatedAt r) (GitRepository.DisconnectedAt r).
Definition set_UpdatedAt (x : Time) (r : GitRepository) : GitRepository := GitRepository.mk (GitRepository.ID r)
  (GitRepository.ProjectID r) (GitRepository.OrgID r) (GitRepository.Provider r) (GitRepository.RepoURL r)
  (GitRepository.CloneURL r) (GitRepository.DefaultBranch r) (GitRepository.IsPrivate r)
  (GitRepository.AccessTokenEnc r) (GitRepository.DeployKeyEnc r) (GitRepository.WebhookSecret r)
  (GitRepository.Metadata r) (GitRepository.ConnectedAt r) x (GitRepository.DisconnectedAt r).
Definition set_DisconnectedAt (x : option Time) (r : GitRepository) : GitRepository := GitRepository.mk
  (GitRepository.ID r) (GitRepository.ProjectID r) (GitRepository.OrgID r) (GitRepository.Provider r)
  (GitRepository.RepoURL r) (GitRepository.CloneURL r) (GitRepository.DefaultBranch r) (GitRepository.IsPrivate
  r) (GitRepository.AccessTokenEnc r) (GitRepository.DeployKeyEnc r) (GitRepository.WebhookSecret r)
  (GitRepository.Metadata r) (GitRepository.ConnectedAt r) (GitRepository.UpdatedAt r) x.
End RepositoryRow.

(** A row of controlplane_env_var_versions ([OwnerID] is env_var_id) or of
    controlplane_secret_versions ([OwnerID] is secret_id). *)
Module VersionRow.
Record t := mk {
  ID : string; OwnerID : string; Version : Z; ValueEnc : string; ChangedBy : string; CreatedAt : Time;
}.
End VersionRow.
Abbreviation VersionRow := VersionRow.t.

Module Secret.
Record t := mk {
  ID : string; OrgID : string; ProjectID : string; Name : string; ValueEnc : string; Environment : string;
  Version : Z; DisabledAt : option Time; Metadata : option string; CreatedBy : string; CreatedAt : Time;
  UpdatedAt : Time; DeletedAt : option Time;
}.

Definition set_ValueEnc (x : string) (r : t) : t := mk (ID r) (OrgID r) (ProjectID r) (Name r) x (Environment r)
  (Version r) (DisabledAt r) (Metadata r) (CreatedBy r) (CreatedAt r) (UpdatedAt r) (DeletedAt r).
Definition set_Version (x : Z) (r : t) : t := mk (ID r) (OrgID r) (ProjectID r) (Name r) (ValueEnc r)
  (Environment r) x (DisabledAt r) (Metadata r) (CreatedBy r) (CreatedAt r) (UpdatedAt r) (DeletedAt r).
Definition set_DisabledAt (x : option Time) (r : t) : t := mk (ID r) (OrgID r) (ProjectID r) (Name r) (ValueEnc
  r) (Environment r) (Version r) x (Metadata r) (CreatedBy r) (CreatedAt r) (UpdatedAt r) (DeletedAt r).
Definition set_UpdatedAt (x : Time) (r : t) : t := mk (ID r) (OrgID r) (ProjectID r) (Name r) (ValueEnc r)
  (Environment r) (Version r) (DisabledAt r) (Metadata r) (CreatedBy r) (CreatedAt r) x (DeletedAt r).
Definition set_DeletedAt (x : option Time) (r : t) : t := mk (ID r) (OrgID r) (ProjectID r) (Name r) (ValueEnc
  r) (Environment r) (Version r) (DisabledAt r) (Metadata r) (CreatedBy r) (CreatedAt r) (UpdatedAt r) x.
End Secret.
Abbreviation Secret := Secret.t.

Module Domain.
Definition TypePlatform : string := "platform".
Definition TypeCustom : string := "custom".
Definition TypeWildcard : string := "wildcard".
Definition TypePreview : string := "preview".

Record t := mk {
  ID : string; OrgID : string; ProjectID : string; Hostname : string; DomainType : string; IsPrimary : bool;
  IsPreview : bool; VerificationStatus : string; SSLStatus : string; RedirectTo : string; Metadata : string;
  CreatedAt : Time; UpdatedAt : Time; DeletedAt : option Time;
}.

Definition set_IsPrimary (x : bool) (r : t) : t := mk (ID r) (OrgID r) (ProjectID r) (Hostname r) (DomainType r)
  x (IsPreview r) (VerificationStatus r) (SSLStatus r) (RedirectTo r) (Metadata r) (CreatedAt r) (UpdatedAt r)
  (DeletedAt r).
Definition set_UpdatedAt (x : Time) (r : t) : t := mk (ID r) (OrgID r) (ProjectID r) (Hostname r) (DomainType r)
  (IsPrimary r) (IsPreview r) (VerificationStatus r) (SSLStatus r) (RedirectTo r) (Metadata r) (CreatedAt r) x
  (DeletedAt r).
Definition set_DeletedAt (x : option Time) (r : t) : t := mk (ID r) (OrgID r) (ProjectID r) (Hostname r)
  (DomainType r) (IsPrimary r) (IsPreview r) (VerificationStatus r) (SSLStatus r) (RedirectTo r) (Metadata r)
  (CreatedAt r) (UpdatedAt r) x.
End Domain.
Abbreviation Domain := Domain.t.

Module Delivery.
Record t := mk {
  ID : string; Provider : string; DeliveryID : string; EventType : string; ProjectID : option string;
  PayloadHash : string; ReceivedAt : Time; ProcessedAt : option Time;
}.
End Delivery.
Abbreviation Delivery := Delivery.t.

(** ** The world: clock and identifiers, the nonces of the vault ([io.ReadFull] of
    the random source may fail) and the tokens of idx *)

Class CpWorld (W : Type) := {
  cp_clock :: Clock W;
  read_nonce : W → result error string * W;
  read_token : Z → W → string * W;
}.

(** ** The state *)

Record cpdb (W : Type) := mkCp {
  base : control W;
  variables : list Variable_;
  variable_versions : list VersionRow;
  secrets : list Secret;
  secret_versions : list VersionRow;
  domains : list Domain;
  repositories : list GitRepository;
  deliveries : list Delivery;
}.
Arguments mkCp {W}.
Arguments base {W}.
Arguments variables {W}.
Arguments variable_versions {W}.
Arguments secrets {W}.
Arguments secret_versions {W}.
Arguments domains {W}.
Arguments repositories {W}.
Arguments deliveries {W}.

Section lenses.
Context {W : Type}.
Implicit Types s : cpdb W.

Definition set_base (x : control W) s : cpdb W := mkCp x (variables s) (variable_versions s) (secrets s)
  (secret_versions s) (domains s) (repositories s) (deliveries s).
Definition set_variables (x : list Variable_) s : cpdb W := mkCp (base s) x (variable_versions s) (secrets s)
  (secret_versions s) (domains s) (repositories s) (deliveries s).
Definition set_variable_versions (x : list VersionRow) s : cpdb W := mkCp (base s) (variables s) x (secrets s)
  (secret_versions s) (domains s) (repositories s) (deliveries s).
Definition set_secrets (x : list Secret) s : cpdb W := mkCp (base s) (variables s) (variable_versions s) x
  (secret_versions s) (domains s) (repositories s) (deliveries s).
Definition set_secret_versions (x : list VersionRow) s : cpdb W := mkCp (base s) (variables s)
  (variable_versions s) (secrets s) x (domains s) (repositories s) (deliveries s).
Definition set_domains (x : list Domain) s : cpdb W := mkCp (base s) (variables s) (variable_versions s)
  (secrets s) (secret_versions s) x (repositories s) (deliveries s).
Definition set_repositories (x : list GitRepository) s : cpdb W := mkCp (base s) (variables s)
  (variable_versions s) (secrets s) (secret_versions s) (domains s) x (deliveries s).
Definition set_deliveries (x : list Delivery) s : cpdb W := mkCp (base s) (variables s) (variable_versions s)
  (secrets s) (secret_versions s) (domains s) (repositories s) x.

(** The projects and the world are parts of [base]. *)
Definition with_rows (r : deploydb W) s : cpdb W :=
  set_base (mkControl r (jobs (base s)) (audit_log (base s)) (published (base s))) s.
Definition set_projects (x : list Project) s : cpdb W :=
  let r := rows (base s) in
  with_rows (mkDb (deployments r) (timeline r) (artifacts r) x (executions r) (transitions r) (containers r)
    (health_checks r) (devents r) (active r) (outside r) (DeployModel.trace r)) s.
Definition set_world_of (w : W) s : cpdb W := with_rows (DeployModel.set_world w (DeployModel.trace (rows (base s))) (rows (base s))) s.

Definition base_l : Lens (cpdb W) (control W).
Proof. refine {| view := base; put := set_base |}; by first [intros ? []|intros []]. Defined.
Definition variables_l : Lens (cpdb W) (list Variable_).
Proof. refine {| view := variables; put := set_variables |}; by first [intros ? []|intros []]. Defined.
Definition variable_versions_l : Lens (cpdb W) (list VersionRow).
Proof. refine {| view := variable_versions; put := set_variable_versions |}; by first [intros ? []|intros []]. Defined.
Definition secrets_l : Lens (cpdb W) (list Secret).
Proof. refine {| view := secrets; put := set_secrets |}; by first [intros ? []|intros []]. Defined.
Definition secret_versions_l : Lens (cpdb W) (list VersionRow).
Proof. refine {| view := secret_versions; put := set_secret_versions |}; by first [intros ? []|intros []]. Defined.
Definition domains_l : Lens (cpdb W) (list Domain).
Proof. refine {| view := domains; put := set_domains |}; by first [intros ? []|intros []]. Defined.
Definition repositories_l : Lens (cpdb W) (list GitRepository).
Proof. refine {| view := repositories; put := set_repositories |}; by first [intros ? []|intros []]. Defined.
Definition deliveries_l : Lens (cpdb W) (list Delivery).
Proof. refine {| view := deliveries; put := set_deliveries |}; by first [intros ? []|intros []]. Defined.
Definition projects_l : Lens (cpdb W) (list Project).
Proof. refine {| view s := projects (rows (base s)); put := set_projects |}; by first [intros ? []|intros [[[]]]]. Defined.
Definition cp_world_l : Lens (cpdb W) W.
Proof. refine {| view s := outside (rows (base s)); put := set_world_of |}; by first [intros ? []|intros [[[]]]]. Defined.

Definition on_base {A} : db (control W) A → db (cpdb W) A := zoom base_l.

Context `{CW : CpWorld W} `{Ae : Aead}.

Definition now_ : db (cpdb W) Time := draw cp_world_l (λ w, (now_of w, w)).
Definition new_id_ : db (cpdb W) string := draw cp_world_l new_uuid.
(** [idx.Token] *)
Definition token_ (n : Z) : db (cpdb W) string := draw cp_world_l (read_token n).

(** ** The vault (controlplane/crypto over platform/cryptox) *)

Definition Vault_Encrypt (plaintext aad : string) : db (cpdb W) string :=
  r ← draw cp_world_l read_nonce;
  match r with
  | Ok nonce => mret (Encrypt nonce plaintext aad)
  | Err e => fail (wrap_with CodeInternal "cryptox: generate nonce" e)
  end.
End lenses.

(** * The control plane's repositories

    One definition per method of the repositories of project, envvar, secret and
    domain and of gitrepo.Store; projects go through the generic repository.
    Keys and references are those of controlplane/schema.go.  [now()] is one
    reading per statement or transaction; columns of type INT do not overflow. *)

Definition unset (t : option Time) : bool := match t with None => true | Some _ => false end.

Section store.
Context {W : Type} `{CW : CpWorld W} `{D : Driver} `{So : Sorter} `{RM : RowMapping}.

Definition is_project (s : cpdb W) (id : string) : bool := existsb (λ p, Project.ID p =s? id) (projects (rows (base s))).

(** ** Projects (project/repository.go) *)

Definition VisibilityPrivate : string := "private".
Definition VisibilityPublic : string := "public".

Definition same_slug (a b : Project) : bool :=
  Project.kept a && Project.kept b && (Project.OrgID a =s? Project.OrgID b) && (Project.Slug a =s? Project.Slug b).

Definition projects_table : Table (cpdb W) Project := {|
  row_id := Project.ID; deleted_at := Some Project.DeletedAt; bury now := ProjectRow.set_DeletedAt (Some now);
  version := None; bump p := p; conflicts := same_slug; referenced _ _ := true;
|}.

Definition NormalizeSlug (s : string) : string := Slugify s.

(** The row [Create] inserts. *)
Definition new_project (fresh : string) (now : Time) (p : Project) : Project :=
  Project.mk (or_else (Project.ID p) fresh) (Project.OrgID p) (Project.Name p) (Project.Slug p) (Project.Description p)
    (Project.RepoURL p) (Project.RepoProvider p) (or_else (Project.Branch p) "main") (Project.DefaultRuntime p)
    (Project.Framework p) (Project.BuildMethod p) (Project.Region p) (or_else (Project.SleepConfig p) "{}")
    (or_else (Project.Visibility p) VisibilityPrivate) (or_else (Project.Status p) Project.StatusActive)
    (or_else (Project.Labels p) "[]") (Project.Tags p) (or_else (Project.Metadata p) "{}") (Project.CreatedBy p)
    now now None None.

Definition Projects_Create (p : Project) : db (cpdb W) Project :=
  now ← now_;
  id ← (if Project.ID p =s? "" then new_id_ else mret (Project.ID p));
  translate "project: create" (uuid_args "repository: insert" [Project.OrgID p; Project.CreatedBy p]
    (Repository.Insert projects_table projects_l (new_project id now p))).

Definition first_project (l : list Project) : db (cpdb W) Project :=
  match l with p :: _ => mret p | [] => fail_with (NotFound "project not found") end.

Definition Projects_GetByID (orgID id : string) : db (cpdb W) Project :=
  l ← translate "project: get" (uuid_args "repository: find" [id; orgID]
        (Repository.Find projects_table projects_l (λ p, (Project.ID p =s? id) && (Project.OrgID p =s? orgID)) None));
  first_project l.

Definition Projects_GetBySlug (orgID slug : string) : db (cpdb W) Project :=
  l ← translate "project: get by slug" (uuid_args "repository: find" [orgID]
        (Repository.Find projects_table projects_l (λ p, (Project.OrgID p =s? orgID) && (Project.Slug p =s? slug)) None));
  first_project l.

Definition Projects_ListByOrg (orgID : string) (includeArchived : bool) : db (cpdb W) (list Project) :=
  translate "project: list" (stmt projects_l (λ _, with_uuids [orgID] (λ t,
    (Ok (sort_slice (λ x y, String.ltb (Project.Name x) (Project.Name y))
      (select (λ p, (Project.OrgID p =s? orgID) && Project.kept p
                    && (includeArchived || (Project.Status p =s? Project.StatusActive))) t)), t)))).

(** [ids] are the UUIDs among the new values. *)
Definition Projects_Update (orgID id : string) (ids : list string) (f : Project → Project) : db (cpdb W) Project :=
  _ ← Projects_GetByID orgID id;
  now ← now_;
  translate "project: update" (uuid_args "repository: update" ids
    (Repository.Update projects_table projects_l id (λ p, ProjectRow.set_UpdatedAt now (f p)))).

Definition Projects_Archive (orgID id : string) : db (cpdb W) Project :=
  now ← now_;
  Projects_Update orgID id [] (λ p, ProjectRow.set_ArchivedAt (Some now) (ProjectRow.set_Status Project.StatusArchived p)).

Definition Projects_Restore (orgID id : string) : db (cpdb W) Project :=
  Projects_Update orgID id [] (λ p, ProjectRow.set_ArchivedAt None (ProjectRow.set_Status Project.StatusActive p)).

Definition Projects_SoftDelete (orgID id : string) : db (cpdb W) unit :=
  _ ← Projects_GetByID orgID id;
  deleted ← now_;
  _ ← translate "project: delete" (Repository.SoftDelete projects_table projects_l id deleted);
  now ← now_;
  done_ (translate "project: delete" (Repository.Update projects_table projects_l id
    (λ p, ProjectRow.set_UpdatedAt now (ProjectRow.set_Status Project.StatusDeleted p)))).

Definition Projects_Transfer (id fromOrg toOrg : string) : db (cpdb W) Project :=
  _ ← Projects_GetByID fromOrg id;
  Projects_Update fromOrg id [toOrg] (ProjectRow.set_OrgID toOrg).

Definition with_slug (orgID slug exceptID : string) (p : Project) : bool :=
  (Project.OrgID p =s? orgID) && (Project.Slug p =s? slug) && ((exceptID =s? "") || negb (Project.ID p =s? exceptID)).

Definition SlugExists (orgID slug exceptID : string) : db (cpdb W) bool :=
  n ← translate "project: slug exists" (uuid_args "repository: count" [orgID]
        (Repository.Count projects_table projects_l (with_slug orgID slug exceptID)));
  mret (0 <? n).

(** ** The versions of variables and secrets *)

Definition insert_version (l : Lens (cpdb W) (list VersionRow)) (owners : cpdb W → list string)
    (message ownerID userID value : string) (version : Z) (now : Time) : db (cpdb W) unit :=
  id ← new_id_;
  done_ (translate message (stmt l (λ s, with_uuids [ownerID; userID]
    (insert_checked VersionRow.ID (λ _ _, false) (existsb (String.eqb ownerID) (owners s))
      (VersionRow.mk id ownerID version value userID now))))).

(** ** Environment variables (envvar/service.go) *)

Definition same_variable (a b : Variable_) : bool :=
  unset (Variable_.DeletedAt a) && unset (Variable_.DeletedAt b)
  && (Variable_.ProjectID a =s? Variable_.ProjectID b) && (Variable_.Environment a =s? Variable_.Environment b)
  && (Variable_.Key a =s? Variable_.Key b).

Definition variable_of (orgID projectID id : string) (v : Variable_) : bool :=
  (Variable_.ID v =s? id) && (Variable_.OrgID v =s? orgID) && (Variable_.ProjectID v =s? projectID)
  && unset (Variable_.DeletedAt v).

Definition Variables_Get (orgID projectID id : string) : db (cpdb W) Variable_ :=
  translate "envvar: scan" (stmt variables_l (λ _, with_uuids [id; orgID; projectID]
    (select_row (variable_of orgID projectID id)))).

Definition Variables_Create (v : Variable_) : db (cpdb W) Variable_ :=
  now ← now_;
  _ ← translate "envvar: create" (stmt variables_l (λ s,
        with_uuids [Variable_.ID v; Variable_.OrgID v; Variable_.ProjectID v; Variable_.CreatedBy v]
        (insert_checked Variable_.ID same_variable (is_project s (Variable_.ProjectID v))
          (Variable_.mk (Variable_.ID v) (Variable_.OrgID v) (Variable_.ProjectID v) (Variable_.Key v)
             (Variable_.ValueEnc v) (Variable_.Environment v) (Variable_.IsSecret v) 1 (Variable_.CreatedBy v)
             now now None))));
  Variables_Get (Variable_.OrgID v) (Variable_.ProjectID v) (Variable_.ID v).

(** [CollectRows] by name, with a column [value_enc] that has no field. *)
Definition collect_without_value {R} (rows : list R) : db (cpdb W) (list R) :=
  match rows, unmatched_column "value_enc" with
  | _ :: _, Some e => fail e
  | _, _ => mret rows
  end.

Definition Variables_List (orgID projectID env : string) : db (cpdb W) (list Variable_) :=
  rows ← translate "envvar: list" (stmt variables_l (λ _, with_uuids [orgID; projectID] (λ t,
           (Ok (sort_slice (λ x y, String.ltb (Variable_.Key x) (Variable_.Key y))
             (select (in_scope orgID projectID env) t)), t))));
  collect_without_value (without_value <$> rows).

Definition variable_row (id : string) (v : Variable_) : bool := Variable_.ID v =s? id.

Definition UpdateValue (id enc userID : string) : db (cpdb W) Variable_ :=
  _ ← Transact_in cp_world_l (
    now ← now_;
    v ← translate "envvar: scan" (stmt variables_l (λ _, with_uuids [id]
          (select_row (λ v, variable_row id v && unset (Variable_.DeletedAt v)))));
    _ ← insert_version variable_versions_l (λ s, Variable_.ID <$> variables s) "envvar: version" id userID
          (Variable_.ValueEnc v) (Variable_.Version v) now;
    translate "envvar: update" (stmt variables_l (λ _, with_uuids [id] (update_rows (variable_row id) (λ r,
      VariableRow.set_UpdatedAt now (VariableRow.set_Version (Variable_.Version v + 1)
        (VariableRow.set_ValueEnc enc r)))))));
  translate "envvar: scan" (stmt variables_l (λ _, with_uuids [id] (select_row (variable_row id)))).

Definition Variables_Delete (orgID projectID id : string) : db (cpdb W) unit :=
  now ← now_;
  n ← translate "envvar: delete" (stmt variables_l (λ _, with_uuids [id; orgID; projectID]
        (update_rows (variable_of orgID projectID id)
          (λ v, VariableRow.set_UpdatedAt now (VariableRow.set_DeletedAt (Some now) v)))));
  found "environment variable not found" n.

(** ** Secrets (secret/service.go) *)

Definition same_secret (a b : Secret) : bool :=
  unset (Secret.DeletedAt a) && unset (Secret.DeletedAt b) && (Secret.ProjectID a =s? Secret.ProjectID b)
  && (Secret.Environment a =s? Secret.Environment b) && (Secret.Name a =s? Secret.Name b).

Definition secret_of (orgID projectID id : string) (x : Secret) : bool :=
  (Secret.ID x =s? id) && (Secret.OrgID x =s? orgID) && (Secret.ProjectID x =s? projectID)
  && unset (Secret.DeletedAt x).

Definition Secrets_Get (orgID projectID id : string) : db (cpdb W) Secret :=
  translate "secret: scan" (stmt secrets_l (λ _, with_uuids [id; orgID; projectID]
    (select_row (secret_of orgID projectID id)))).

Definition Secrets_Create (x : Secret) : db (cpdb W) Secret :=
  now ← now_;
  _ ← translate "secret: create" (stmt secrets_l (λ s,
        with_uuids [Secret.ID x; Secret.OrgID x; Secret.ProjectID x; Secret.CreatedBy x]
        (insert_checked Secret.ID same_secret (is_project s (Secret.ProjectID x))
          (Secret.mk (Secret.ID x) (Secret.OrgID x) (Secret.ProjectID x) (Secret.Name x) (Secret.ValueEnc x)
             (Secret.Environment x) 1 None (Some (default "{}" (Secret.Metadata x))) (Secret.CreatedBy x) now now None))));
  Secrets_Get (Secret.OrgID x) (Secret.ProjectID x) (Secret.ID x).

Definition Secrets_List (orgID projectID : string) : db (cpdb W) (list Secret) :=
  rows ← translate "secret: list" (stmt secrets_l (λ _, with_uuids [orgID; projectID] (λ t,
           (Ok (sort_slice (λ x y, String.ltb (Secret.Name x) (Secret.Name y))
             (select (λ x, (Secret.OrgID x =s? orgID) && (Secret.ProjectID x =s? projectID)
                           && unset (Secret.DeletedAt x)) t)), t))));
  collect_without_value (Secret.set_ValueEnc "" <$> rows).

Definition secret_row (id : string) (x : Secret) : bool := Secret.ID x =s? id.

Definition Secrets_Rotate (id enc userID : string) : db (cpdb W) Secret :=
  _ ← Transact_in cp_world_l (
    now ← now_;
    x ← translate "secret: scan" (stmt secrets_l (λ _, with_uuids [id]
          (select_row (λ x, secret_row id x && unset (Secret.DeletedAt x)))));
    _ ← insert_version secret_versions_l (λ s, Secret.ID <$> secrets s) "secret: version" id userID
          (Secret.ValueEnc x) (Secret.Version x) now;
    translate "secret: rotate" (stmt secrets_l (λ _, with_uuids [id] (update_rows (secret_row id) (λ r,
      Secret.set_DisabledAt None (Secret.set_UpdatedAt now (Secret.set_Version (Secret.Version x + 1)
        (Secret.set_ValueEnc enc r))))))));
  translate "secret: scan" (stmt secrets_l (λ _, with_uuids [id] (select_row (secret_row id)))).

Definition change_secret (message orgID projectID id : string) (f : Time → Secret → Secret) : db (cpdb W) unit :=
  now ← now_;
  n ← translate message (stmt secrets_l (λ _, with_uuids [id; orgID; projectID]
        (update_rows (secret_of orgID projectID id) (λ x, Secret.set_UpdatedAt now (f now x)))));
  found "secret not found" n.

Definition Secrets_Disable (orgID projectID id : string) : db (cpdb W) unit :=
  change_secret "secret: disable" orgID projectID id (λ now, Secret.set_DisabledAt (Some now)).

Definition Secrets_Delete (orgID projectID id : string) : db (cpdb W) unit :=
  change_secret "secret: delete" orgID projectID id (λ now, Secret.set_DeletedAt (Some now)).

(** ** Domains (domain/service.go) *)

Definition same_hostname (a b : Domain) : bool :=
  unset (Domain.DeletedAt a) && unset (Domain.DeletedAt b) && (Domain.Hostname a =s? Domain.Hostname b).

Definition Domains_Create (d : Domain) : db (cpdb W) Domain :=
  now ← now_;
  _ ← (if Domain.IsPrimary d
       then ignore (stmt domains_l (λ _, with_uuids [Domain.ProjectID d]
              (update_rows (λ x, (Domain.ProjectID x =s? Domain.ProjectID d) && unset (Domain.DeletedAt x))
                 (λ x, Domain.set_UpdatedAt now (Domain.set_IsPrimary false x)))))
       else mret tt);
  translate "domain: scan" (stmt domains_l (λ s, with_uuids [Domain.ID d; Domain.OrgID d; Domain.ProjectID d]
    (insert_checked Domain.ID same_hostname (is_project s (Domain.ProjectID d))
      (Domain.mk (Domain.ID d) (Domain.OrgID d) (Domain.ProjectID d) (Domain.Hostname d) (Domain.DomainType d)
         (Domain.IsPrimary d) (Domain.IsPreview d) (Domain.VerificationStatus d) (Domain.SSLStatus d)
         (Domain.RedirectTo d) (Domain.Metadata d) now now None)))).

Definition domain_in (orgID projectID : string) (d : Domain) : bool :=
  (Domain.OrgID d =s? orgID) && (Domain.ProjectID d =s? projectID) && unset (Domain.DeletedAt d).

Definition Domains_List (orgID projectID : string) : db (cpdb W) (list Domain) :=
  translate "domain: list" (stmt domains_l (λ _, with_uuids [orgID; projectID] (λ t,
    (Ok (sort_slice (λ x y, String.ltb (Domain.Hostname x) (Domain.Hostname y)) (select (domain_in orgID projectID) t)), t)))).

Definition Domains_Delete (orgID projectID id : string) : db (cpdb W) unit :=
  now ← now_;
  n ← translate "domain: delete" (stmt domains_l (λ _, with_uuids [id; orgID; projectID]
        (update_rows (λ d, (Domain.ID d =s? id) && domain_in orgID projectID d)
          (λ d, Domain.set_UpdatedAt now (Domain.set_DeletedAt (Some now) d)))));
  found "domain not found" n.

(** ** Git repositories (gitrepo/service.go) *)

Definition same_project (a b : GitRepository) : bool :=
  unset (GitRepository.DisconnectedAt a) && unset (GitRepository.DisconnectedAt b)
  && (GitRepository.ProjectID a =s? GitRepository.ProjectID b).

(** The columns [scanRepoPublic] reads. *)
Definition public_columns (r : GitRepository) : GitRepository :=
  RepositoryRow.set_AccessTokenEnc "" (RepositoryRow.set_DeployKeyEnc "" (RepositoryRow.set_WebhookSecret "" r)).

Definition GetByProject (orgID projectID : string) : db (cpdb W) GitRepository :=
  r ← translate "gitrepo: get" (stmt repositories_l (λ _, with_uuids [projectID; orgID]
        (select_row (connected orgID projectID))));
  mret (public_columns r).

Definition Store_Connect (r : GitRepository) : db (cpdb W) GitRepository :=
  now ← now_;
  _ ← Transact_in cp_world_l (
    start ← now_;
    _ ← translate "gitrepo: disconnect existing" (stmt repositories_l (λ _, with_uuids [GitRepository.ProjectID r]
          (update_rows (λ x, (GitRepository.ProjectID x =s? GitRepository.ProjectID r)
                             && unset (GitRepository.DisconnectedAt x)) (RepositoryRow.set_DisconnectedAt (Some start)))));
    stmt repositories_l (λ s, with_uuids [GitRepository.ID r; GitRepository.ProjectID r; GitRepository.OrgID r]
      (insert_checked GitRepository.ID same_project (is_project s (GitRepository.ProjectID r))
        (GitRepository.mk (GitRepository.ID r) (GitRepository.ProjectID r) (GitRepository.OrgID r)
           (GitRepository.Provider r) (GitRepository.RepoURL r) (GitRepository.CloneURL r)
           (GitRepository.DefaultBranch r) (GitRepository.IsPrivate r) (GitRepository.AccessTokenEnc r)
           (GitRepository.DeployKeyEnc r) (GitRepository.WebhookSecret r) (Some "{}") now now None))));
  GetByProject (GitRepository.OrgID r) (GitRepository.ProjectID r).

Definition GetByWebhookSecret (secret : string) : db (cpdb W) GitRepository :=
  r ← translate "gitrepo: get by secret" (stmt repositories_l (λ _, select_row (λ r,
        (GitRepository.WebhookSecret r =s? secret) && unset (GitRepository.DisconnectedAt r))));
  mret (RepositoryRow.set_AccessTokenEnc "" (RepositoryRow.set_DeployKeyEnc "" r)).

Definition Store_Disconnect (id : string) : db (cpdb W) unit :=
  now ← now_;
  n ← translate "gitrepo: disconnect" (stmt repositories_l (λ _, with_uuids [id]
        (update_rows (λ r, (GitRepository.ID r =s? id) && unset (GitRepository.DisconnectedAt r))
          (λ r, RepositoryRow.set_UpdatedAt now (RepositoryRow.set_DisconnectedAt (Some now) r)))));
  found "repository not found" n.

Definition repository_row (id : string) (r : GitRepository) : bool := GitRepository.ID r =s? id.

(** One of the statements of [Update]: its error is dropped. *)
Definition set_column {A} (id : string) (set : A → GitRepository → GitRepository) (v : option A) : db (cpdb W) unit :=
  match v with
  | Some v =>
      now ← now_;
      ignore (stmt repositories_l (λ _, with_uuids [id]
        (update_rows (repository_row id) (λ r, RepositoryRow.set_UpdatedAt now (set v r)))))
  | None => mret tt
  end.

Definition Store_Update (id : string) (branch url : option string) (priv : option bool) (tok : option string)
    : db (cpdb W) GitRepository :=
  _ ← set_column id RepositoryRow.set_DefaultBranch branch;
  _ ← set_column id RepositoryRow.set_CloneURL url;
  _ ← set_column id RepositoryRow.set_IsPrivate priv;
  _ ← set_column id RepositoryRow.set_AccessTokenEnc tok;
  r ← translate "gitrepo: get" (stmt repositories_l (λ _, with_uuids [id] (select_row (repository_row id))));
  mret (public_columns r).
End store.
