(* ===== verification/CpService.v ===== *)
(** * The control plane's services

    project.Service, envvar.Service, secret.Service, domain.Service and
    gitrepo.Service: a guard, the repository, the audit log and the event bus in
    the order of the code.  Inputs have been decoded and validated.  Updates of
    a map of values are functions on rows. *)

From stdpp Require Import pretty.
From S2P Require Import Prelude GoLib Errors Postgres Sql Jobs Rbac DeployModel Rows Repository Outside ControlPlane Password BuildModel BuildStore Slug CpStore.

(** ** Events (cpevents/publisher.go) *)

Definition ProjectCreated : string := "project.created".
Definition ProjectUpdated : string := "project.updated".
Definition ProjectDeleted : string := "project.deleted".
Definition ProjectArchived : string := "project.archived".
Definition RepositoryConnected : string := "repository.connected".
Definition RepositoryDisconnected : string := "repository.disconnected".
Definition SecretUpdated : string := "secret.updated".
Definition EnvironmentUpdated : string := "environment.updated".
Definition DomainAdded : string := "domain.added".
Definition DomainRemoved : string := "domain.removed".
Definition WebhookReceived : string := "webhook.received".

(** ** Inputs *)

Record ProjectInput := {
  pi_Name : string; pi_Slug : string; pi_Description : string; pi_RepoURL : string; pi_RepoProvider : string;
  pi_Branch : string; pi_DefaultRuntime : string; pi_Framework : string; pi_BuildMethod : string;
  pi_Region : string; pi_Visibility : string; pi_Tags : list string;
}.

Record ProjectUpdate := {
  pu_Name : option string; pu_Description : option string; pu_Branch : option string;
  pu_DefaultRuntime : option string; pu_Framework : option string; pu_BuildMethod : option string;
  pu_Region : option string; pu_Visibility : option string; pu_Tags : option (list string);
  pu_Labels : option string; pu_Metadata : option string; pu_SleepConfig : option string;
}.

Record VariableInput := { vi_Key : string; vi_Value : string; vi_Environment : string; vi_IsSecret : bool }.
Record SecretInput := { si_Name : string; si_Value : string; si_Environment : string; si_Metadata : option string }.
Record DomainInput := {
  di_Hostname : string; di_DomainType : string; di_IsPrimary : bool; di_IsPreview : bool; di_RedirectTo : string;
}.
Record ConnectInput := {
  ci_Provider : string; ci_RepoURL : string; ci_CloneURL : string; ci_DefaultBranch : string; ci_IsPrivate : bool;
  ci_AccessToken : string; ci_DeployKey : string;
}.
Record RepositoryUpdate := {
  ru_DefaultBranch : option string; ru_CloneURL : option string; ru_IsPrivate : option bool;
  ru_AccessToken : option string;
}.

(** ** Views *)

Module VariableView.
Record t := mk { ID : string; Key : string; Value : string; Environment : string; IsSecret : bool; Version : Z }.
End VariableView.
Abbreviation VariableView := VariableView.t.

Module SecretView.
Record t := mk {
  ID : string; Name : string; Environment : string; Version : Z; Disabled : bool; Metadata : option string;
  CreatedAt : Time;
}.
End SecretView.
Abbreviation SecretView := SecretView.t.

Definition variable_view (v : Variable_) (value : string) (masked : bool) : VariableView :=
  VariableView.mk (Variable_.ID v) (Variable_.Key v) (if masked then "********" else value) (Variable_.Environment v)
    (Variable_.IsSecret v) (Variable_.Version v).

Definition secret_view (x : Secret) : SecretView :=
  SecretView.mk (Secret.ID x) (Secret.Name x) (Secret.Environment x) (Secret.Version x)
    (negb (unset (Secret.DisabledAt x))) (Secret.Metadata x) (Secret.CreatedAt x).

(** [vals[k] = *v] when [v] is given *)
Definition assign {A R} (set : A → R → R) (v : option A) (r : R) : R :=
  match v with Some x => set x r | None => r end.
Definition given_ {A} (v : option A) : bool := match v with Some _ => true | None => false end.

Section services.
Context {W : Type} `{CW : CpWorld W} `{D : Driver} `{So : Sorter} `{RM : RowMapping} `{J : Jsonb} `{Ae : Aead}.

Definition allow (c : Caller) (orgID : string) (perm : Permission) : db (cpdb W) unit := on_base (require c orgID perm).

Definition audit (c : Caller) (userID orgID action resourceType resourceID ip ua : string) : db (cpdb W) unit :=
  on_base (ignore (record_entry c
    {| Entry.ID := ""; Entry.OrgID := Some orgID; Entry.UserID := Some userID; Entry.Action := action;
       Entry.ResourceType := resourceType; Entry.ResourceID := resourceID; Entry.Metadata := "";
       Entry.IPAddress := ip; Entry.UserAgent := ua; Entry.RequestID := ""; Entry.CorrelationID := "";
       Entry.CreatedAt := 0 |})).

Definition publish (name orgID projectID aggregateID actorID correlationID : string) : db (cpdb W) unit :=
  on_base (PublishAsync name (EventMeta.mk orgID projectID aggregateID actorID correlationID)).

(** ** Projects (project/service.go) *)

(** [region] is the service's default. *)
Definition NewService (defaultRegion : string) : string := or_else defaultRegion "us-east-1".

Definition project_audit (c : Caller) (userID orgID action resourceID ip ua : string) : db (cpdb W) unit :=
  audit c userID orgID action "project" resourceID ip ua.

Definition slug_taken : Error := AlreadyExists "project slug already taken".

(** The project [Create] hands to the repository. *)
Definition requested_project (region orgID userID slug : string) (i : ProjectInput) : Project :=
  Project.mk "" orgID (pi_Name i) slug (pi_Description i) (pi_RepoURL i) (pi_RepoProvider i) (pi_Branch i)
    (pi_DefaultRuntime i) (pi_Framework i) (or_else (pi_BuildMethod i) "dockerfile") (or_else (pi_Region i) region) ""
    (pi_Visibility i) "" "" (pi_Tags i) "" userID 0 0 None None.

Definition Project_Create (region : string) (c : Caller) (orgID userID : string) (i : ProjectInput) (ip ua : string)
    : db (cpdb W) Project :=
  _ ← allow c orgID PermProjectWrite;
  let slug := if pi_Slug i =s? "" then NormalizeSlug (pi_Name i) else NormalizeSlug (pi_Slug i) in
  exists_ ← SlugExists orgID slug "";
  if exists_ : bool then fail_with slug_taken
  else
    p ← Projects_Create (requested_project region orgID userID slug i);
    _ ← project_audit c userID orgID "project.create" (Project.ID p) ip ua;
    _ ← publish ProjectCreated orgID (Project.ID p) (Project.ID p) userID (Caller.CorrelationID c);
    mret p.

Definition changes (i : ProjectUpdate) (p : Project) : Project :=
  assign ProjectRow.set_SleepConfig (pu_SleepConfig i) (assign ProjectRow.set_Metadata (pu_Metadata i)
    (assign ProjectRow.set_Labels (pu_Labels i) (assign ProjectRow.set_Tags (pu_Tags i)
      (assign ProjectRow.set_Visibility (pu_Visibility i) (assign ProjectRow.set_Region (pu_Region i)
        (assign ProjectRow.set_BuildMethod (pu_BuildMethod i) (assign ProjectRow.set_Framework (pu_Framework i)
          (assign ProjectRow.set_DefaultRuntime (pu_DefaultRuntime i) (assign ProjectRow.set_Branch (pu_Branch i)
            (assign ProjectRow.set_Description (pu_Description i) (assign ProjectRow.set_Name (pu_Name i) p))))))))))).

Definition no_changes (i : ProjectUpdate) : bool :=
  negb (given_ (pu_Name i) || given_ (pu_Description i) || given_ (pu_Branch i) || given_ (pu_DefaultRuntime i)
        || given_ (pu_Framework i) || given_ (pu_BuildMethod i) || given_ (pu_Region i) || given_ (pu_Visibility i)
        || given_ (pu_Tags i) || given_ (pu_Labels i) || given_ (pu_Metadata i) || given_ (pu_SleepConfig i)).

Definition Project_Update (c : Caller) (orgID projectID userID : string) (i : ProjectUpdate) (ip ua : string)
    : db (cpdb W) Project :=
  _ ← allow c orgID PermProjectWrite;
  if no_changes i then Projects_GetByID orgID projectID
  else
    p ← Projects_Update orgID projectID [] (changes i);
    _ ← project_audit c userID orgID "project.update" projectID ip ua;
    _ ← publish ProjectUpdated orgID projectID projectID userID "";
    mret p.

Definition Project_Rename (c : Caller) (orgID projectID userID name slug ip ua : string) : db (cpdb W) Project :=
  _ ← allow c orgID PermProjectWrite;
  f ← (if slug =s? "" then mret (ProjectRow.set_Name name)
       else
         let slug := NormalizeSlug slug in
         exists_ ← SlugExists orgID slug projectID;
         if exists_ : bool then fail_with slug_taken
         else mret (λ p, ProjectRow.set_Slug slug (ProjectRow.set_Name name p)));
  p ← Projects_Update orgID projectID [] f;
  _ ← project_audit c userID orgID "project.rename" projectID ip ua;
  mret p.

Definition Project_Get (c : Caller) (orgID projectID : string) : db (cpdb W) Project :=
  _ ← allow c orgID PermProjectRead; Projects_GetByID orgID projectID.

Definition Project_List (c : Caller) (orgID : string) (includeArchived : bool) : db (cpdb W) (list Project) :=
  _ ← allow c orgID PermProjectRead; Projects_ListByOrg orgID includeArchived.

Definition Project_Archive (c : Caller) (orgID projectID userID ip ua : string) : db (cpdb W) Project :=
  _ ← allow c orgID PermProjectWrite;
  p ← Projects_Archive orgID projectID;
  _ ← project_audit c userID orgID "project.archive" projectID ip ua;
  _ ← publish ProjectArchived orgID projectID projectID userID "";
  mret p.

Definition Project_Restore (c : Caller) (orgID projectID userID ip ua : string) : db (cpdb W) Project :=
  _ ← allow c orgID PermProjectWrite;
  p ← Projects_Restore orgID projectID;
  _ ← project_audit c userID orgID "project.restore" projectID ip ua;
  mret p.

Definition Project_Delete (c : Caller) (orgID projectID userID ip ua : string) : db (cpdb W) unit :=
  _ ← allow c orgID PermProjectWrite;
  _ ← Projects_SoftDelete orgID projectID;
  _ ← project_audit c userID orgID "project.delete" projectID ip ua;
  publish ProjectDeleted orgID projectID projectID userID "".

Definition Project_Transfer (c : Caller) (fromOrg toOrg projectID userID ip ua : string) : db (cpdb W) Project :=
  _ ← allow c fromOrg PermProjectWrite;
  p ← Projects_Transfer projectID fromOrg toOrg;
  _ ← project_audit c userID fromOrg "project.transfer" projectID ip ua;
  mret p.

(** The loop of [Duplicate], from its [i]-th round; [None] when [fuel] rounds
    have found nothing. *)
Definition candidate (slug : string) (i : nat) : string :=
  match i with O => slug | S _ => slug +:+ "-" +:+ pretty i end.

Fixpoint free_slug (fuel : nat) (orgID slug : string) (i : nat) : db (cpdb W) (option string) :=
  match fuel with
  | O => mret None
  | S fuel =>
      exists_ ← SlugExists orgID (candidate slug i) "";
      if exists_ : bool then free_slug fuel orgID slug (S i) else mret (Some (candidate slug i))
  end.

(** One round for every project and one more. *)
Definition search_slug (orgID slug : string) : db (cpdb W) (option string) := λ st,
  free_slug (S (length (projects (rows (base st.1))))) orgID slug 0 st.

Definition duplicate_of (src : Project) (id name slug userID : string) : Project :=
  Project.mk id (Project.OrgID src) name slug (Project.Description src) (Project.RepoURL src) (Project.RepoProvider src)
    (Project.Branch src) (Project.DefaultRuntime src) (Project.Framework src) (Project.BuildMethod src)
    (Project.Region src) (Project.SleepConfig src) (Project.Visibility src) Project.StatusActive (Project.Labels src)
    (Project.Tags src) (Project.Metadata src) userID (Project.CreatedAt src) (Project.UpdatedAt src) None None.

Definition Project_Duplicate (c : Caller) (orgID projectID userID newName ip ua : string) : db (cpdb W) (option Project) :=
  _ ← allow c orgID PermProjectWrite;
  src ← Projects_GetByID orgID projectID;
  let newName := or_else newName (Project.Name src +:+ " Copy") in
  slug ← search_slug orgID (NormalizeSlug newName);
  match slug with
  | None => mret None
  | Some slug =>
      id ← new_id_;
      p ← Projects_Create (duplicate_of src id newName slug userID);
      _ ← project_audit c userID orgID "project.duplicate" (Project.ID p) ip ua;
      mret (Some p)
  end.

(** ** Environment variables (envvar/service.go) *)

Definition variable_record (c : Caller) (userID orgID projectID varID ip ua : string) : db (cpdb W) unit :=
  _ ← audit c userID orgID "env.update" "env_var" varID ip ua;
  publish EnvironmentUpdated orgID projectID varID userID (Caller.CorrelationID c).

Definition Variable_Create (c : Caller) (orgID projectID userID : string) (i : VariableInput) (ip ua : string)
    : db (cpdb W) VariableView :=
  _ ← allow c orgID PermProjectWrite;
  enc ← Vault_Encrypt (vi_Value i) (AAD orgID projectID);
  id ← new_id_;
  v ← Variables_Create (Variable_.mk id orgID projectID (vi_Key i) enc (vi_Environment i) (vi_IsSecret i) 0 userID 0 0 None);
  _ ← variable_record c userID orgID projectID (Variable_.ID v) ip ua;
  mret (variable_view v (vi_Value i) false).

Definition Variable_Update (c : Caller) (orgID projectID varID userID value ip ua : string) : db (cpdb W) VariableView :=
  _ ← allow c orgID PermProjectWrite;
  v ← Variables_Get orgID projectID varID;
  enc ← Vault_Encrypt value (AAD orgID projectID);
  v ← UpdateValue (Variable_.ID v) enc userID;
  _ ← variable_record c userID orgID projectID (Variable_.ID v) ip ua;
  mret (variable_view v value false).

Definition Variable_Delete (c : Caller) (orgID projectID varID userID ip ua : string) : db (cpdb W) unit :=
  _ ← allow c orgID PermProjectWrite;
  _ ← Variables_Delete orgID projectID varID;
  variable_record c userID orgID projectID varID ip ua.

(** An entry of the list; a value that does not open is left out. *)
Definition listed (orgID projectID : string) (v : Variable_) : VariableView :=
  let val := if Variable_.IsSecret v then "********"
             else match Decrypt (Variable_.ValueEnc v) (AAD orgID projectID) with Ok plain => plain | Err _ => "" end in
  variable_view v val (Variable_.IsSecret v).

Definition Variable_List (c : Caller) (orgID projectID env : string) : db (cpdb W) (list VariableView) :=
  _ ← allow c orgID PermProjectRead;
  vars ← Variables_List orgID projectID env;
  mret (listed orgID projectID <$> vars).

Fixpoint Import_ (c : Caller) (orgID projectID userID : string) (items : list VariableInput) (ip ua : string)
    : db (cpdb W) (list VariableView) :=
  match items with
  | [] => mret []
  | i :: items =>
      v ← Variable_Create c orgID projectID userID i ip ua;
      out ← Import_ c orgID projectID userID items ip ua;
      mret (v :: out)
  end.

(** ** Secrets (secret/service.go) *)

Definition secret_record (c : Caller) (userID orgID projectID secretID ip ua : string) : db (cpdb W) unit :=
  _ ← audit c userID orgID "secret.update" "secret" secretID ip ua;
  publish SecretUpdated orgID projectID secretID userID (Caller.CorrelationID c).

Definition Secret_Create (c : Caller) (orgID projectID userID : string) (i : SecretInput) (ip ua : string)
    : db (cpdb W) SecretView :=
  _ ← allow c orgID PermProjectWrite;
  enc ← Vault_Encrypt (si_Value i) (AAD orgID projectID);
  id ← new_id_;
  x ← Secrets_Create (Secret.mk id orgID projectID (si_Name i) enc (si_Environment i) 0 None (si_Metadata i) userID 0 0 None);
  _ ← secret_record c userID orgID projectID (Secret.ID x) ip ua;
  mret (secret_view x).

Definition Secret_Rotate (c : Caller) (orgID projectID secretID userID newValue ip ua : string) : db (cpdb W) SecretView :=
  _ ← allow c orgID PermProjectWrite;
  x ← Secrets_Get orgID projectID secretID;
  enc ← Vault_Encrypt newValue (AAD orgID projectID);
  x ← Secrets_Rotate (Secret.ID x) enc userID;
  _ ← secret_record c userID orgID projectID (Secret.ID x) ip ua;
  mret (secret_view x).

Definition Secret_Disable (c : Caller) (orgID projectID secretID userID ip ua : string) : db (cpdb W) unit :=
  _ ← allow c orgID PermProjectWrite;
  _ ← Secrets_Disable orgID projectID secretID;
  secret_record c userID orgID projectID secretID ip ua.

Definition Secret_Delete (c : Caller) (orgID projectID secretID : string) : db (cpdb W) unit :=
  _ ← allow c orgID PermProjectWrite;
  Secrets_Delete orgID projectID secretID.

Definition Secret_List (c : Caller) (orgID projectID : string) : db (cpdb W) (list SecretView) :=
  _ ← allow c orgID PermProjectRead;
  l ← Secrets_List orgID projectID;
  mret (secret_view <$> l).

(** ** Domains (domain/service.go) *)

Definition domain_payload (orgID projectID domainID userID : string) : Payload :=
  {| OrgID := orgID; ProjectID := projectID; DeploymentID := ""; DomainID := domainID; UserID := userID;
     CorrelationID := ""; Metadata := "" |}.

Definition Domain_Create (c : Caller) (orgID projectID userID : string) (i : DomainInput) (ip ua : string)
    : db (cpdb W) Domain :=
  _ ← allow c orgID PermProjectWrite;
  id ← new_id_;
  d ← Domains_Create (Domain.mk id orgID projectID (di_Hostname i) (or_else (di_DomainType i) Domain.TypeCustom)
        (di_IsPrimary i) (di_IsPreview i) "pending" "pending" (di_RedirectTo i) "{}" 0 0 None);
  let payload := domain_payload orgID projectID (Domain.ID d) userID in
  _ ← ignore (on_base (enqueue (λ id now, EnqueueDomainVerify id now payload)));
  _ ← ignore (on_base (enqueue (λ id now, EnqueueSSLRequest id now payload)));
  _ ← audit c userID orgID "domain.add" "domain" (Domain.ID d) ip ua;
  _ ← publish DomainAdded orgID projectID (Domain.ID d) userID (Caller.CorrelationID c);
  mret d.

Definition Domain_List (c : Caller) (orgID projectID : string) : db (cpdb W) (list Domain) :=
  _ ← allow c orgID PermProjectRead; Domains_List orgID projectID.

Definition Domain_Delete (c : Caller) (orgID projectID domainID userID ip ua : string) : db (cpdb W) unit :=
  _ ← allow c orgID PermProjectWrite;
  _ ← Domains_Delete orgID projectID domainID;
  _ ← audit c userID orgID "domain.remove" "domain" domainID ip ua;
  publish DomainRemoved orgID projectID domainID userID (Caller.CorrelationID c).

(** ** Git repositories (gitrepo/service.go) *)

Definition seal_given (text aad : string) : db (cpdb W) string :=
  if text =s? "" then mret "" else Vault_Encrypt text aad.

Definition Connect (c : Caller) (orgID projectID userID : string) (i : ConnectInput) (ip ua : string)
    : db (cpdb W) GitRepository :=
  _ ← allow c orgID PermProjectWrite;
  tokenEnc ← seal_given (ci_AccessToken i) (AAD orgID projectID);
  keyEnc ← seal_given (ci_DeployKey i) (AAD orgID projectID);
  webhookSecret ← token_ 32;
  id ← new_id_;
  repo ← Store_Connect (GitRepository.mk id projectID orgID (ci_Provider i) (ci_RepoURL i) (ci_CloneURL i)
           (or_else (ci_DefaultBranch i) "main") (ci_IsPrivate i) tokenEnc keyEnc webhookSecret None 0 0 None);
  let repo := RepositoryRow.set_WebhookSecret "" repo in
  _ ← audit c userID orgID "repository.connect" "repository" (GitRepository.ID repo) ip ua;
  _ ← publish RepositoryConnected orgID projectID (GitRepository.ID repo) userID (Caller.CorrelationID c);
  mret repo.

Definition Repository_Get (c : Caller) (orgID projectID : string) : db (cpdb W) GitRepository :=
  _ ← allow c orgID PermProjectRead; GetByProject orgID projectID.

Definition Disconnect (c : Caller) (orgID projectID userID ip ua : string) : db (cpdb W) unit :=
  _ ← allow c orgID PermProjectWrite;
  repo ← GetByProject orgID projectID;
  _ ← Store_Disconnect (GitRepository.ID repo);
  _ ← audit c userID orgID "repository.disconnect" "repository" (GitRepository.ID repo) ip ua;
  publish RepositoryDisconnected orgID projectID (GitRepository.ID repo) userID "".

Definition Repository_Update (c : Caller) (orgID projectID userID : string) (i : RepositoryUpdate) (ip ua : string)
    : db (cpdb W) GitRepository :=
  _ ← allow c orgID PermProjectWrite;
  repo ← GetByProject orgID projectID;
  _ ← now_;
  tok ← (match ru_AccessToken i with
         | Some t => if t =s? "" then mret None else enc ← Vault_Encrypt t (AAD orgID projectID); mret (Some enc)
         | None => mret None
         end);
  out ← Store_Update (GitRepository.ID repo) (ru_DefaultBranch i) (ru_CloneURL i) (ru_IsPrivate i) tok;
  _ ← audit c userID orgID "repository.update" "repository" (GitRepository.ID repo) ip ua;
  mret out.

Definition FindByWebhookSecret (secret : string) : db (cpdb W) GitRepository := GetByWebhookSecret secret.
End services.
