(* ===== verification/Webhook.v ===== *)
(** * Webhooks (packages/application/controlplane/webhook/service.go)

    A push of a Git provider: the signature, the record of the delivery, the
    provider's payload, the repository it names and the deployment.  What
    encoding/json makes of a payload and HMAC-SHA-256 are a class; the caller is
    what the request's context has, which behind the routes of apps/api is no
    user and no organization. *)

From Stdlib Require Import Ascii.
From S2P Require Import Prelude GoLib Errors Postgres Sql Rbac DeployModel Rows Outside ControlPlane DeployService BuildModel IdentityModel Access CpStore CpService.

(** ** Payloads *)

Record GitHubPayload := {
  gh_Ref : string; gh_After : string; gh_Deleted : bool; gh_FullName : string; gh_CloneURL : string;
  gh_HeadID : string; gh_HeadMessage : string; gh_AuthorName : string; gh_AuthorEmail : string;
}.

Record GitLabCommit := { gl_ID : string; gl_Message : string; gl_AuthorName : string }.
Record GitLabPayload := {
  gl_ObjectKind : string; gl_Ref : string; gl_After : string; gl_GitHTTPURL : string; gl_Commits : list GitLabCommit;
}.

Record BitbucketChange := { bb_Name : string; bb_Hash : string; bb_Message : string; bb_AuthorRaw : string }.
Record BitbucketPayload := { bb_Changes : list BitbucketChange; bb_Href : string }.

(** [json.Unmarshal] of a body, [None] for an error, and [hmacSHA256]. *)
Class WebhookWorld := {
  parse_github : string → option GitHubPayload;
  parse_gitlab : string → option GitLabPayload;
  parse_bitbucket : string → option BitbucketPayload;
  hmacSHA256 : string → string → string;
}.

Record WebhookSecrets := { GitHub : string; GitLab : string; Bitbucket : string }.

(** ** LIKE, on bytes: percent and underscore, with the backslash as escape *)

Fixpoint like (p : string) : string → bool :=
  match p with
  | EmptyString => λ s, s =s? ""
  | String a p =>
      if bool_decide (a = "%"%char) then
        fix any (s : string) : bool := like p s || match s with String _ s => any s | EmptyString => false end
      else if bool_decide (a = "_"%char) then λ s, match s with String _ s => like p s | EmptyString => false end
      else if bool_decide (a = "\"%char) then
        match p with
        | String b q => λ s, match s with String c s => bool_decide (b = c) && like q s | EmptyString => false end
        | EmptyString => λ _, false
        end
      else λ s, match s with String c s => bool_decide (a = c) && like p s | EmptyString => false end
  end.

Section webhook.
Context {W : Type} `{CW : CpWorld W} `{D : Driver} `{So : Sorter} `{J : Jsonb} `{Dg : Digest} `{WW : WebhookWorld}.
Context (secrets : WebhookSecrets).

(** [io.LimitReader] of a mebibyte *)
Definition limited (body : string) : string :=
  if Z.of_nat (String.length body) <=? 1048576 then body else take_bytes (Z.to_nat 1048576) body.

Definition verify (provider : string) (r : Request) (body : string) : option Error :=
  let provider := ToLower provider in
  if provider =s? "github" then
    let sig := Header r "X-Hub-Signature-256" in
    if (sig =s? "") || (GitHub secrets =s? "") then None
    else if negb (sig =s? "sha256=" +:+ hmacSHA256 (GitHub secrets) body)
    then Some (Unauthenticated "invalid github signature") else None
  else if provider =s? "gitlab" then
    if negb (GitLab secrets =s? "") && negb (Header r "X-Gitlab-Token" =s? GitLab secrets)
    then Some (Unauthenticated "invalid gitlab token") else None
  else if provider =s? "bitbucket" then
    if negb (Bitbucket secrets =s? "") && (Header r "X-Hook-UUID" =s? "")
       && negb (QueryString r "secret" =s? Bitbucket secrets)
    then Some (Unauthenticated "invalid bitbucket secret") else None
  else None.

Definition errDuplicate : Error := AlreadyExists "duplicate webhook delivery".

(** The unique index over the deliveries of a provider. *)
Definition same_delivery (a b : Delivery) : bool :=
  (Delivery.Provider a =s? Delivery.Provider b) && (Delivery.DeliveryID a =s? Delivery.DeliveryID b).

Definition recordDelivery (provider deliveryID eventType payloadHash : string) : db (cpdb W) unit :=
  id ← new_id_;
  now ← now_;
  on_error (λ e, if IsUniqueViolation e then Platform errDuplicate else e)
    (done_ (translate "webhook: record delivery" (stmt deliveries_l (λ _,
      insert_checked Delivery.ID same_delivery true
        (Delivery.mk id provider deliveryID eventType None payloadHash now None))))).

Definition names (url : string) (r : GitRepository) : bool :=
  unset (GitRepository.DisconnectedAt r)
  && ((GitRepository.RepoURL r =s? url) || (GitRepository.CloneURL r =s? url) || like (url +:+ "%") (GitRepository.RepoURL r)).

Definition findRepoByURL (url : string) : db (cpdb W) GitRepository :=
  r ← translate "webhook: find repo" (stmt repositories_l (λ _, select_row (names url)));
  mret (public_columns r).

Definition triggerDeploy (c : Caller) (repoURL : string) (i : DeployInput) : db (cpdb W) unit :=
  found ← attempt (findRepoByURL repoURL);
  match found with
  | Err _ => mret tt
  | Ok repo =>
      d ← on_base (DeployFromWebhook c (GitRepository.OrgID repo) (GitRepository.ProjectID repo) i);
      publish WebhookReceived (GitRepository.OrgID repo) (GitRepository.ProjectID repo) (Deployment.ID d) ""
        (Caller.CorrelationID c)
  end.

Definition branch_of (ref : string) : string := TrimPrefix ref "refs/heads/".

Definition handleGitHub (c : Caller) (r : Request) (body : string) : db (cpdb W) unit :=
  let event := Header r "X-GitHub-Event" in
  if negb (event =s? "push") && negb (event =s? "release") && negb (event =s? "create") then mret tt
  else match parse_github body with
  | None => fail_with (InvalidArgument "invalid github payload")
  | Some p =>
      if gh_Deleted p then mret tt
      else triggerDeploy c (gh_CloneURL p)
        {| DeployInput.CommitSHA := or_else (gh_After p) (gh_HeadID p); DeployInput.CommitMessage := gh_HeadMessage p;
           DeployInput.Branch := branch_of (gh_Ref p); DeployInput.Author := gh_AuthorName p;
           DeployInput.Environment := "" |}
  end.

Definition handleGitLab (c : Caller) (body : string) : db (cpdb W) unit :=
  match parse_gitlab body with
  | None => fail_with (InvalidArgument "invalid gitlab payload")
  | Some p =>
      if negb (gl_ObjectKind p =s? "push") then mret tt
      else
        let '(sha, msg, author) :=
          match last (gl_Commits p) with
          | Some l => (or_else (gl_After p) (gl_ID l), gl_Message l, gl_AuthorName l)
          | None => (gl_After p, "", "")
          end in
        triggerDeploy c (gl_GitHTTPURL p)
          {| DeployInput.CommitSHA := sha; DeployInput.CommitMessage := msg;
             DeployInput.Branch := branch_of (gl_Ref p); DeployInput.Author := author; DeployInput.Environment := "" |}
  end.

Definition handleBitbucket (c : Caller) (body : string) : db (cpdb W) unit :=
  match parse_bitbucket body with
  | None => fail_with (InvalidArgument "invalid bitbucket payload")
  | Some p =>
      match bb_Changes p with
      | [] => mret tt
      | ch :: _ =>
          triggerDeploy c (bb_Href p)
            {| DeployInput.CommitSHA := bb_Hash ch; DeployInput.CommitMessage := bb_Message ch;
               DeployInput.Branch := bb_Name ch; DeployInput.Author := bb_AuthorRaw ch; DeployInput.Environment := "" |}
      end
  end.

(** The identifier a delivery comes with, or a new one. *)
Definition header_id (r : Request) : string :=
  or_else (Header r "X-GitHub-Delivery") (or_else (Header r "X-Gitlab-Event-UUID") (Header r "X-Request-UUID")).

Definition delivery_id (r : Request) : db (cpdb W) string :=
  let id := header_id r in if id =s? "" then new_id_ else mret id.

(** What follows the record of a delivery. *)
Definition process (c : Caller) (provider : string) (r : Request) (body : string) : db (cpdb W) unit :=
  let p := ToLower provider in
  if p =s? "github" then handleGitHub c r body
  else if p =s? "gitlab" then handleGitLab c body
  else if p =s? "bitbucket" then handleBitbucket c body
  else fail_with (InvalidArgument "unsupported webhook provider").

(** [read] is what [io.ReadAll] makes of the body, [None] for an error. *)
Definition Handle (c : Caller) (provider : string) (r : Request) (read : option string) : db (cpdb W) unit :=
  match read with
  | None => fail_with (InvalidArgument "failed to read webhook body")
  | Some body =>
      let body := limited body in
      deliveryID ← delivery_id r;
      _ ← refuse (Platform <$> verify provider r body);
      recorded ← attempt (recordDelivery provider deliveryID (Header r "X-GitHub-Event") (sha256_hex body));
      match recorded with
      | Err e => if Is e (Platform errDuplicate) then mret tt else fail e
      | Ok _ => process c provider r body
      end
  end.
End webhook.
