(* ===== verification/CpAccess.v ===== *)
(** * The control plane over HTTP (packages/application/controlplane/http; apps/api/internal/routes/webhooks)

    The handlers and the route table, behind the middleware of identity.  The
    state of the API process is [system]: the tables of identity and those of
    the control plane.  Most handlers drop the errors of the path parameters and
    of [RequireUser] and go on with empty texts. *)

From S2P Require Import Prelude GoLib Errors Postgres Sql Rbac DeployModel Rows Repository Outside ControlPlane DeployService Password BuildModel BuildStore IdentityModel IdentityStore IdentityService Access CpStore CpService Webhook.

(** ** The state of the API *)

Record system (W V : Type) := mkSystem { identity : iddb W; control_plane : cpdb V }.
Arguments mkSystem {W V}.
Arguments identity {W V}.
Arguments control_plane {W V}.

Definition identity_l {W V} : Lens (system W V) (iddb W).
Proof. refine {| view := identity; put i s := mkSystem i (control_plane s) |}; by first [intros ? []|intros []]. Defined.
Definition control_plane_l {W V} : Lens (system W V) (cpdb V).
Proof. refine {| view := control_plane; put c s := mkSystem (identity s) c |}; by first [intros ? []|intros []]. Defined.

(** ** Answers and bodies *)

Inductive CpData :=
  | ProjectData (p : Project)
  | ProjectList (l : list Project)
  | DeploymentData (d : Deployment)
  | DeploymentList (l : list Deployment)
  | EventList (l : list Event)
  | RepositoryData (r : GitRepository)
  | VariableData (v : VariableView)
  | VariableList (l : list VariableView)
  | SecretData (x : SecretView)
  | SecretList (l : list SecretView)
  | DomainData (d : Domain)
  | DomainList (l : list Domain).

Record DuplicateBody := { dup_Name : string }.
Record RollbackBody := { rb_DeploymentID : string }.
Record VariableUpdate := { vu_Value : string }.
Record RotateBody := { rot_Value : string }.

Section access.
Context {W V : Type} `{IW : IdentityWorld W} `{CW : CpWorld V} `{D : Driver} `{So : Sorter} `{Dg : Digest}.
Context `{JL : JwtLibrary} `{RM : RowMapping} `{J : Jsonb} `{Ae : Aead} `{WW : WebhookWorld}.
Context (cfg : AuthConfig.t) (region : string) (secrets : WebhookSecrets).
Context `{DProject : Decoder ProjectInput} `{DProjectUpdate : Decoder ProjectUpdate} `{DDuplicate : Decoder DuplicateBody}.
Context `{DDeploy : Decoder DeployInput} `{DRollback : Decoder RollbackBody} `{DConnect : Decoder ConnectInput}.
Context `{DRepository : Decoder RepositoryUpdate} `{DVariable : Decoder VariableInput}.
Context `{DVariableUpdate : Decoder VariableUpdate} `{DSecret : Decoder SecretInput} `{DRotate : Decoder RotateBody}.
Context `{DDomain : Decoder DomainInput}.

Definition CpHandler : Type := Ctx → Request → db (cpdb V) (AnswerOf CpData).

Definition cp_decode A `{Decoder A} (r : Request) : db (cpdb V) A := of_result (DecodeValidate (Request.body r)).

(** A path parameter, and the user, with the error returned or dropped. *)
Definition must_param (r : Request) (key : string) : db (cpdb V) string := of_result (RequirePathParam r key).
Definition path (r : Request) (key : string) : string :=
  match RequirePathParam r key with Ok v => v | Err _ => "" end.
Definition must_user (x : Ctx) : db (cpdb V) string := of_result (RequireUser (Ctx.caller x)).
Definition current_user (x : Ctx) : string := match RequireUser (Ctx.caller x) with Ok u => u | Err _ => "" end.
Definition ua (r : Request) : string := Header r "User-Agent".

(** ** Handlers (handlers.go) *)

Definition ListProjects : CpHandler := λ x r,
  org ← must_param r "orgID";
  l ← Project_List (Ctx.caller x) org (QueryBool r "include_archived").1;
  mret (OK (ProjectList l)).

Definition CreateProject : CpHandler := λ x r,
  org ← must_param r "orgID";
  userID ← must_user x;
  i ← cp_decode ProjectInput r;
  p ← Project_Create region (Ctx.caller x) org userID i (ClientIP r) (ua r);
  mret (Created (ProjectData p)).

Definition GetProject : CpHandler := λ x r,
  org ← must_param r "orgID";
  pid ← must_param r "projectID";
  p ← Project_Get (Ctx.caller x) org pid;
  mret (OK (ProjectData p)).

Definition UpdateProject : CpHandler := λ x r,
  org ← must_param r "orgID";
  pid ← must_param r "projectID";
  i ← cp_decode ProjectUpdate r;
  p ← Project_Update (Ctx.caller x) org pid (current_user x) i (ClientIP r) (ua r);
  mret (OK (ProjectData p)).

Definition DeleteProject : CpHandler := λ x r,
  org ← must_param r "orgID";
  pid ← must_param r "projectID";
  _ ← Project_Delete (Ctx.caller x) org pid (current_user x) (ClientIP r) (ua r);
  mret NoContent.

Definition ArchiveProject : CpHandler := λ x r,
  p ← Project_Archive (Ctx.caller x) (path r "orgID") (path r "projectID") (current_user x) (ClientIP r) (ua r);
  mret (OK (ProjectData p)).

Definition RestoreProject : CpHandler := λ x r,
  p ← Project_Restore (Ctx.caller x) (path r "orgID") (path r "projectID") (current_user x) (ClientIP r) (ua r);
  mret (OK (ProjectData p)).

(** [search_slug] always finds a slug ([search_slug_ends] in CpFacts.v). *)
Definition DuplicateProject : CpHandler := λ x r,
  i ← cp_decode DuplicateBody r;
  p ← Project_Duplicate (Ctx.caller x) (path r "orgID") (path r "projectID") (current_user x) (dup_Name i) (ClientIP r)
        (ua r);
  mret (match p with Some p => Created (ProjectData p) | None => NoContent end).

Definition handle_Deploy : CpHandler := λ x r,
  i ← cp_decode DeployInput r;
  d ← on_base (Deploy (Ctx.caller x) (path r "orgID") (path r "projectID") (current_user x) i (ClientIP r) (ua r));
  mret (Created (DeploymentData d)).

Definition handle_Rollback : CpHandler := λ x r,
  i ← cp_decode RollbackBody r;
  d ← on_base (Rollback (Ctx.caller x) (path r "orgID") (path r "projectID") (rb_DeploymentID i) (current_user x)
        (ClientIP r) (ua r));
  mret (Created (DeploymentData d)).

Definition ListDeployments : CpHandler := λ x r,
  l ← on_base (ListHistory (Ctx.caller x) (path r "orgID") (path r "projectID") (default 50 (QueryInt r "limit")));
  mret (OK (DeploymentList l)).

Definition GetDeployment : CpHandler := λ x r,
  depID ← must_param r "deploymentID";
  d ← on_base (Get (Ctx.caller x) (path r "orgID") depID);
  mret (OK (DeploymentData d)).

Definition GetLatestDeployment : CpHandler := λ x r,
  d ← on_base (Service_GetLatest (Ctx.caller x) (path r "orgID") (path r "projectID"));
  mret (OK (DeploymentData d)).

Definition DeploymentTimeline : CpHandler := λ x r,
  l ← on_base (Timeline (Ctx.caller x) (path r "orgID") (path r "deploymentID"));
  mret (OK (EventList l)).

Definition CancelDeployment : CpHandler := λ x r,
  d ← on_base (Cancel (Ctx.caller x) (path r "orgID") (path r "deploymentID") (current_user x) (ClientIP r) (ua r));
  mret (OK (DeploymentData d)).

Definition ConnectRepository : CpHandler := λ x r,
  i ← cp_decode ConnectInput r;
  repo ← Connect (Ctx.caller x) (path r "orgID") (path r "projectID") (current_user x) i (ClientIP r) (ua r);
  mret (Created (RepositoryData repo)).

Definition GetRepository : CpHandler := λ x r,
  repo ← Repository_Get (Ctx.caller x) (path r "orgID") (path r "projectID");
  mret (OK (RepositoryData repo)).

Definition UpdateRepository : CpHandler := λ x r,
  i ← cp_decode RepositoryUpdate r;
  repo ← Repository_Update (Ctx.caller x) (path r "orgID") (path r "projectID") (current_user x) i (ClientIP r) (ua r);
  mret (OK (RepositoryData repo)).

Definition DisconnectRepository : CpHandler := λ x r,
  _ ← Disconnect (Ctx.caller x) (path r "orgID") (path r "projectID") (current_user x) (ClientIP r) (ua r);
  mret NoContent.

Definition ListEnv : CpHandler := λ x r,
  l ← Variable_List (Ctx.caller x) (path r "orgID") (path r "projectID") (QueryString r "environment");
  mret (OK (VariableList l)).

Definition CreateEnv : CpHandler := λ x r,
  i ← cp_decode VariableInput r;
  v ← Variable_Create (Ctx.caller x) (path r "orgID") (path r "projectID") (current_user x) i (ClientIP r) (ua r);
  mret (Created (VariableData v)).

Definition UpdateEnv : CpHandler := λ x r,
  i ← cp_decode VariableUpdate r;
  v ← Variable_Update (Ctx.caller x) (path r "orgID") (path r "projectID") (path r "envID") (current_user x) (vu_Value i)
        (ClientIP r) (ua r);
  mret (OK (VariableData v)).

Definition DeleteEnv : CpHandler := λ x r,
  _ ← Variable_Delete (Ctx.caller x) (path r "orgID") (path r "projectID") (path r "envID") (current_user x) (ClientIP r)
        (ua r);
  mret NoContent.

Definition ListSecrets : CpHandler := λ x r,
  l ← Secret_List (Ctx.caller x) (path r "orgID") (path r "projectID");
  mret (OK (SecretList l)).

Definition CreateSecret : CpHandler := λ x r,
  i ← cp_decode SecretInput r;
  v ← Secret_Create (Ctx.caller x) (path r "orgID") (path r "projectID") (current_user x) i (ClientIP r) (ua r);
  mret (Created (SecretData v)).

Definition RotateSecret : CpHandler := λ x r,
  i ← cp_decode RotateBody r;
  v ← Secret_Rotate (Ctx.caller x) (path r "orgID") (path r "projectID") (path r "secretID") (current_user x)
        (rot_Value i) (ClientIP r) (ua r);
  mret (OK (SecretData v)).

Definition DeleteSecret : CpHandler := λ x r,
  _ ← Secret_Delete (Ctx.caller x) (path r "orgID") (path r "projectID") (path r "secretID");
  mret NoContent.

Definition ListDomains : CpHandler := λ x r,
  l ← Domain_List (Ctx.caller x) (path r "orgID") (path r "projectID");
  mret (OK (DomainList l)).

Definition CreateDomain : CpHandler := λ x r,
  i ← cp_decode DomainInput r;
  d ← Domain_Create (Ctx.caller x) (path r "orgID") (path r "projectID") (current_user x) i (ClientIP r) (ua r);
  mret (Created (DomainData d)).

Definition DeleteDomain : CpHandler := λ x r,
  _ ← Domain_Delete (Ctx.caller x) (path r "orgID") (path r "projectID") (path r "domainID") (current_user x)
        (ClientIP r) (ua r);
  mret NoContent.

Definition PauseProject : CpHandler := λ x r,
  _ ← on_base (Pause (Ctx.caller x) (path r "orgID") (path r "projectID") (current_user x) (ClientIP r) (ua r));
  mret NoContent.

Definition ResumeProject : CpHandler := λ x r,
  _ ← on_base (Resume (Ctx.caller x) (path r "orgID") (path r "projectID") (current_user x) (ClientIP r) (ua r));
  mret NoContent.

Definition RestartProject : CpHandler := λ x r,
  _ ← on_base (Restart (Ctx.caller x) (path r "orgID") (path r "projectID") (current_user x) (ClientIP r) (ua r));
  mret NoContent.

(** ** Routes (router.go) *)

Definition cp_scoped : list (string * string * Permission * CpHandler) :=
  [("GET", "/orgs/{orgID}/projects", PermProjectRead, ListProjects);
   ("POST", "/orgs/{orgID}/projects", PermProjectWrite, CreateProject);
   ("GET", "/orgs/{orgID}/projects/{projectID}/", PermProjectRead, GetProject);
   ("PATCH", "/orgs/{orgID}/projects/{projectID}/", PermProjectWrite, UpdateProject);
   ("DELETE", "/orgs/{orgID}/projects/{projectID}/", PermProjectWrite, DeleteProject);
   ("POST", "/orgs/{orgID}/projects/{projectID}/archive", PermProjectWrite, ArchiveProject);
   ("POST", "/orgs/{orgID}/projects/{projectID}/restore", PermProjectWrite, RestoreProject);
   ("POST", "/orgs/{orgID}/projects/{projectID}/duplicate", PermProjectWrite, DuplicateProject);
   ("POST", "/orgs/{orgID}/projects/{projectID}/pause", PermDeployWrite, PauseProject);
   ("POST", "/orgs/{orgID}/projects/{projectID}/resume", PermDeployWrite, ResumeProject);
   ("POST", "/orgs/{orgID}/projects/{projectID}/restart", PermDeployWrite, RestartProject);
   ("POST", "/orgs/{orgID}/projects/{projectID}/deploy", PermDeployWrite, handle_Deploy);
   ("POST", "/orgs/{orgID}/projects/{projectID}/rollback", PermDeployWrite, handle_Rollback);
   ("GET", "/orgs/{orgID}/projects/{projectID}/deployments", PermDeployRead, ListDeployments);
   ("GET", "/orgs/{orgID}/projects/{projectID}/deployments/latest", PermDeployRead, GetLatestDeployment);
   ("GET", "/orgs/{orgID}/projects/{projectID}/repository", PermProjectRead, GetRepository);
   ("POST", "/orgs/{orgID}/projects/{projectID}/repository", PermProjectWrite, ConnectRepository);
   ("PATCH", "/orgs/{orgID}/projects/{projectID}/repository", PermProjectWrite, UpdateRepository);
   ("DELETE", "/orgs/{orgID}/projects/{projectID}/repository", PermProjectWrite, DisconnectRepository);
   ("GET", "/orgs/{orgID}/projects/{projectID}/env", PermProjectRead, ListEnv);
   ("POST", "/orgs/{orgID}/projects/{projectID}/env", PermProjectWrite, CreateEnv);
   ("PATCH", "/orgs/{orgID}/projects/{projectID}/env/{envID}", PermProjectWrite, UpdateEnv);
   ("DELETE", "/orgs/{orgID}/projects/{projectID}/env/{envID}", PermProjectWrite, DeleteEnv);
   ("GET", "/orgs/{orgID}/projects/{projectID}/secrets", PermProjectRead, ListSecrets);
   ("POST", "/orgs/{orgID}/projects/{projectID}/secrets", PermProjectWrite, CreateSecret);
   ("POST", "/orgs/{orgID}/projects/{projectID}/secrets/{secretID}/rotate", PermProjectWrite, RotateSecret);
   ("DELETE", "/orgs/{orgID}/projects/{projectID}/secrets/{secretID}", PermProjectWrite, DeleteSecret);
   ("GET", "/orgs/{orgID}/projects/{projectID}/domains", PermProjectRead, ListDomains);
   ("POST", "/orgs/{orgID}/projects/{projectID}/domains", PermProjectWrite, CreateDomain);
   ("DELETE", "/orgs/{orgID}/projects/{projectID}/domains/{domainID}", PermProjectWrite, DeleteDomain);
   ("GET", "/orgs/{orgID}/deployments/{deploymentID}", PermDeployRead, GetDeployment);
   ("GET", "/orgs/{orgID}/deployments/{deploymentID}/timeline", PermDeployRead, DeploymentTimeline);
   ("POST", "/orgs/{orgID}/deployments/{deploymentID}/cancel", PermDeployWrite, CancelDeployment)].

(** A handler of the control plane in the API process. *)
Definition in_system (h : CpHandler) : Ctx → Request → db (system W V) (AnswerOf CpData) :=
  λ x r, zoom control_plane_l (h x r).

Definition cp_Mount : list (string * string * (Ctx → Request → db (system W V) (AnswerOf CpData))) :=
  (λ '(m, p, perm, h), (m, p, Authenticate cfg identity_l (RequireAuth (OrgContext identity_l
    (permitted (Some perm) (in_system h)))))) <$> cp_scoped.

Definition cp_serve : Ctx → Request → system W V * faults → option (ResponseOf CpData) * (system W V * faults) :=
  dispatch cp_Mount.

(** The webhook routes (apps/api): no middleware of identity. *)
Definition NewRouter (read : option string) : list (string * string * (Ctx → Request → db (cpdb V) (AnswerOf CpData))) :=
  (λ p, ("POST", "/" +:+ p, λ x r,
     _ ← Handle secrets (Ctx.caller x) p r read; mret {| answer_status := 202; answer_data := None |}))
  <$> ["github"; "gitlab"; "bitbucket"].
End access.
