(* ===== verification/CpFacts.v ===== *)
(** * The control plane's services: what holds of them

    Routes, the search of a free slug, the deletion of projects and webhooks. *)

From stdpp Require Import pretty.
From S2P Require Import Prelude GoLib Errors Postgres Sql Rbac DeployModel Rows Repository Outside ControlPlane DeployService DeployRequests Password BuildModel BuildStore IdentityModel Slug IdentityStore IdentityService Access IdentityFacts CpStore CpService Webhook CpAccess.

(** ** Automation *)

Ltac cp_step :=
  cbn beta iota;
  lazymatch goal with
  | |- wp CpStore.now_ _ _ _ => apply wp_draw; intros ??
  | |- wp CpStore.new_id_ _ _ _ => apply wp_draw; intros ??
  | |- wp (CpStore.token_ _) _ _ _ => apply wp_draw; intros ??
  | |- wp (on_base _) _ _ _ => apply wp_zoom
  | |- _ => id_step
  end.

(** What a statement with UUID parameters does, it does or fails with an error
    of its own. *)
Lemma wp_uuid_args `{D : Driver} {S A} message ids (m : db S A) (Q : A → S → Prop) E s :
  (∀ e, E e s) → wp m Q E s → wp (uuid_args message ids m) Q E s.
Proof.
  intros He Hm. unfold uuid_args. destruct (forallb _ ids); [done|]. apply wp_translate. by apply wp_query.
Qed.

Lemma projects_set_world {W} (w : W) s : projects (rows (base (set_world_of w s))) = projects (rows (base s)).
Proof. done. Qed.
Lemma projects_set {W} x (s : cpdb W) : projects (rows (base (set_projects x s))) = x.
Proof. done. Qed.

(** ** Authorization *)

Section served.
Context {W V : Type} `{IW : IdentityWorld W} `{CL : !ClockLaws W} `{CW : CpWorld V} `{D : Driver} `{So : Sorter}.
Context `{Dg : Digest} `{JL : JwtLibrary} `{RM : RowMapping} `{J : Jsonb} `{Ae : Aead}.
Context (cfg : AuthConfig.t) (region : string).
Context `{DProject : Decoder ProjectInput} `{DProjectUpdate : Decoder ProjectUpdate} `{DDuplicate : Decoder DuplicateBody}.
Context `{DDeploy : Decoder DeployInput} `{DRollback : Decoder RollbackBody} `{DConnect : Decoder ConnectInput}.
Context `{DRepository : Decoder RepositoryUpdate} `{DVariable : Decoder VariableInput}.
Context `{DVariableUpdate : Decoder VariableUpdate} `{DSecret : Decoder SecretInput} `{DRotate : Decoder RotateBody}.
Context `{DDomain : Decoder DomainInput}.

Lemma cp_serve_scoped x r perm (h : CpHandler (V := V)) :
  (Request.Method r, Request.Pattern r, perm, h) ∈ cp_scoped region →
  cp_serve cfg region x r = answered (Authenticate cfg (W := W) identity_l (RequireAuth (OrgContext identity_l
    (permitted (Some perm) (in_system h)))) x r).
Proof.
  destruct r as [m p ps hs ra b qs]; cbn [Request.Method Request.Pattern]. intros Hh. unfold cp_scoped in Hh.
  repeat (apply elem_of_cons in Hh as [[= -> -> -> ->]|Hh]); [..|by apply elem_of_nil in Hh]; reflexivity.
Qed.

End served.

(** ** The search of a free slug *)

Lemma string_app_inj (a b c : string) : a +:+ b = a +:+ c → b = c.
Proof. induction a as [|x a IH]; [done|]. cbn. by intros [= ?%IH]. Qed.

Lemma candidate_inj slug i j : candidate slug i = candidate slug j → i = j.
Proof.
  assert (∀ n, slug ≠ slug +:+ "-" +:+ pretty (S n)) as H0.
  { intros n H. apply (f_equal String.length) in H. rewrite !length_app_s in H. cbn in H. lia. }
  destruct i as [|i], j as [|j]; cbn [candidate]; [done| | |].
  - intros H. by apply H0 in H.
  - intros H. by apply eq_sym, H0 in H.
  - intros H%string_app_inj%string_app_inj. by apply (inj pretty) in H.
Qed.

Section slugs.
Context {W : Type} `{CW : CpWorld W} `{D : Driver} `{So : Sorter}.
Implicit Types (s : cpdb W) (orgID slug : string).

(** A live project of the organization has the slug. *)
Definition taken orgID slug s : Prop :=
  ∃ p, p ∈ projects (rows (base s)) ∧ Project.kept p = true ∧ Project.OrgID p = orgID ∧ Project.Slug p = slug.

Lemma wp_SlugExists orgID slug s :
  wp (SlugExists orgID slug "") (λ b s', s' = s ∧ if b : bool then taken orgID slug s else ¬ taken orgID slug s)
    (λ _ s', s' = s) s.
Proof.
  unfold SlugExists. do 2 cp_step. apply wp_uuid_args; [done|]. unfold Count. cp_step. apply wp_stmt; [done|].
  cbn beta iota. cp_step. rewrite put_view. split; [done|]. cbn [view projects_l].
  set (p := λ r, _). set (t := projects _).
  assert (∀ r, p r = true ↔ Project.kept r = true ∧ Project.OrgID r = orgID ∧ Project.Slug r = slug) as Hp.
  { intros r. unfold p, with_slug, live, Project.kept. cbn. rewrite !andb_true_iff, !String.eqb_eq. naive_solver. }
  destruct (Z.ltb_spec 0 (matched p t)) as [H|H].
  - destruct (matched_some p t) as (r & Hr & Hm); [lia|]. exists r. by apply Hp in Hm as (? & ? & ?).
  - pose proof (matched_nonneg p t). intros (r & Hr & H1 & H2 & H3).
    assert (p r = false) as E by (apply (proj1 (matched_zero p t)); [lia|done]).
    assert (p r = true) by (by apply Hp). congruence.
Qed.

(** Fewer candidates are taken than there are projects. *)
Lemma taken_bound orgID slug s n :
  (∀ i, (i < n)%nat → taken orgID (candidate slug i) s) → (n ≤ length (projects (rows (base s))))%nat.
Proof.
  intros H. rewrite <- (length_seq n 0), <- (length_fmap (candidate slug)),
    <- (length_fmap Project.Slug (projects (rows (base s)))).
  apply submseteq_length, NoDup_submseteq.
  - apply NoDup_fmap_2; [|apply NoDup_seq]. intros i j. apply candidate_inj.
  - intros c (i & -> & Hi)%list_elem_of_fmap. apply elem_of_seq in Hi.
    destruct (H i) as (p & Hp & _ & _ & <-); [lia|]. apply list_elem_of_fmap. by exists p.
Qed.

Lemma wp_free_slug fuel orgID slug i s :
  (∀ j, (j < i)%nat → taken orgID (candidate slug j) s) →
  (length (projects (rows (base s))) < fuel + i)%nat →
  wp (free_slug fuel orgID slug i)
    (λ r s', s' = s ∧ ∃ n, r = Some (candidate slug n) ∧ ¬ taken orgID (candidate slug n) s
                           ∧ ∀ j, (j < n)%nat → taken orgID (candidate slug j) s) (λ _ s', s' = s) s.
Proof.
  revert i. induction fuel as [|fuel IH]; intros i Ht Hf; cbn [free_slug].
  - pose proof (taken_bound orgID slug s i Ht). lia.
  - cp_step. eapply wp_mono; [apply wp_SlugExists| |done]. cbn beta. intros [|] s' [-> Hb].
    + apply IH; [|lia]. intros j Hj. destruct (decide (j = i)) as [->|]; [done|]. apply Ht. lia.
    + cp_step. eauto.
Qed.

Lemma wp_search_slug orgID slug s :
  wp (search_slug orgID slug)
    (λ r s', s' = s ∧ ∃ n, r = Some (candidate slug n) ∧ ¬ taken orgID (candidate slug n) s
                           ∧ ∀ j, (j < n)%nat → taken orgID (candidate slug j) s) (λ _ s', s' = s) s.
Proof. intros fs. apply wp_free_slug; [|cbn [fst]; lia]. intros j Hj. lia. Qed.

(** C31: the unbounded loop that looks for the slug of a duplicated project ends:
    with one round for every project and one more, it gives the first of the
    slug, the slug with -1, with -2 and so on that no live project of the
    organization has, or a failure of the database; it changes nothing. *)
Theorem search_slug_ends orgID slug s fs :
  match search_slug orgID slug (s, fs) with
  | (Ok r, (s', _)) => s' = s ∧ ∃ n, r = Some (candidate slug n) ∧ ¬ taken orgID (candidate slug n) s
                                     ∧ ∀ j, (j < n)%nat → taken orgID (candidate slug j) s
  | (Err _, (s', _)) => s' = s
  end.
Proof. pose proof (wp_search_slug orgID slug s fs) as H. by destruct (search_slug _ _ _) as [[r|e] [s' fs']]. Qed.

(** ** The deletion of projects *)

Lemma Projects_SoftDelete_fails orgID id s : wp (Projects_SoftDelete orgID id) (λ _ _, False) (λ _ _, True) s.
Proof.
  unfold Projects_SoftDelete, Projects_GetByID. do 3 cp_step. apply wp_uuid_args; [done|]. unfold Find. cp_step.
  apply wp_stmt; [done|]. cbn beta iota. destruct (ordered _ _) as [|p l]; cbn [first_project]; [by cp_step|].
  cp_step. unfold SoftDelete. cbn [deleted_at projects_table]. do 5 cp_step. apply wp_stmt; [done|].
  apply wp_with_uuids; [done|]. intros _. unfold done_, Update. do 5 cp_step.
  apply wp_stmt; [done|]. apply wp_with_uuids; [done|]. intros _. unfold update_one, returning.
  cbn [view put projects_l cp_world_l]. rewrite !projects_set_world, projects_set.
  rewrite select_after_bury; [done|done|]. intros u _. unfold live. cbn. apply andb_false_r.
Qed.
End slugs.

(** ** Webhooks *)

Section webhooks.
Context {W : Type} `{CW : CpWorld W} `{D : Driver} `{So : Sorter} `{J : Jsonb} `{Dg : Digest} `{WW : WebhookWorld}.
Context (secrets : WebhookSecrets).
Implicit Types (s : cpdb W) (c : Caller) (r : Request).

(** All but the deliveries, the clock and the identifiers. *)
Definition unmoved s s' : Prop :=
  deployments (rows (base s')) = deployments (rows (base s)) ∧ jobs (base s') = jobs (base s)
  ∧ audit_log (base s') = audit_log (base s) ∧ published (base s') = published (base s)
  ∧ variables s' = variables s ∧ CpStore.secrets s' = CpStore.secrets s ∧ domains s' = domains s
  ∧ repositories s' = repositories s.

Lemma unmoved_trans s s1 s2 : unmoved s s1 → unmoved s1 s2 → unmoved s s2.
Proof. unfold unmoved. intros. destruct_and!. repeat split; congruence. Qed.

(** Nothing is changed but the tables [T] of deliveries. *)
Definition still s (m : db (cpdb W) unit) : Prop :=
  wp m (λ _ s', unmoved s s' ∧ deliveries s' = deliveries s) (λ _ s', unmoved s s' ∧ deliveries s' = deliveries s) s.

Lemma still_triggerDeploy c url i s : still s (triggerDeploy c url i).
Proof.
  unfold still, triggerDeploy, findRepoByURL. do 4 cp_step. apply wp_stmt; [by repeat split|].
  apply select_row_elim; [intros e|intros repo _ _]; cbn beta iota.
  - cp_step. by repeat split.
  - do 3 cp_step. intros fs. cbn [view base_l].
    match goal with |- context [DeployFromWebhook ?c ?o ?p ?i ?st] => pose proof (webhook_never_deploys c o p i st.1 st.2) as H end.
    cbn [fst snd] in H. destruct (DeployFromWebhook _ _ _ _ _) as [[d|e] [b' fs']]; [by destruct H|].
    cbn in H |- *. destruct H as (_ & ? & ? & ? & ?). by repeat split.
Qed.

Lemma still_process c provider r body s : still s (process c provider r body).
Proof.
  unfold process, handleGitHub, handleGitLab, handleBitbucket.
  repeat (case_match; try apply still_triggerDeploy); try (apply wp_ret; by repeat split); apply wp_fail_with; by repeat split.
Qed.

(** At most the delivery has been recorded. *)
Definition at_most_recorded provider r (read : option string) s s' : Prop :=
  unmoved s s' ∧
  (deliveries s' = deliveries s
   ∨ ∃ body d, read = Some body ∧ verify secrets provider r (limited body) = None
       ∧ deliveries s' = deliveries s ++ [d] ∧ Delivery.Provider d = provider
       ∧ (header_id r ≠ "" → Delivery.DeliveryID d = header_id r)
       ∧ Delivery.PayloadHash d = sha256_hex (limited body)
       ∧ ∀ d', d' ∈ deliveries s → Delivery.Provider d' = provider → Delivery.DeliveryID d' ≠ Delivery.DeliveryID d).

Lemma wp_recordDelivery provider id event hash s :
  wp (recordDelivery provider id event hash)
    (λ _ s', unmoved s s' ∧ ∃ d, deliveries s' = deliveries s ++ [d] ∧ Delivery.Provider d = provider
       ∧ Delivery.DeliveryID d = id ∧ Delivery.PayloadHash d = hash
       ∧ ∀ d', d' ∈ deliveries s → Delivery.Provider d' = provider → Delivery.DeliveryID d' ≠ id)
    (λ _ s', unmoved s s' ∧ deliveries s' = deliveries s) s.
Proof.
  unfold recordDelivery, done_. do 7 cp_step. apply wp_stmt; [by repeat split|]. unfold insert_checked.
  destruct (existsb _ _) eqn:E; cbn beta iota; [by repeat split|]. cp_step. split; [by repeat split|].
  eexists. split; [reflexivity|]. repeat split. intros d' Hd Hp He. apply not_true_iff_false in E. apply E.
  apply existsb_exists. exists d'. split; [by apply list_elem_of_In|]. unfold same_delivery. cbn.
  rewrite Hp, He, !String.eqb_refl. by rewrite orb_true_r.
Qed.

(** A webhook changes nothing but the table of deliveries, whatever its
    payload: no deployment, job, event or entry of the audit log comes of it, as
    the deployments of a webhook name no user.  It adds at most one delivery, only
    once the provider's check has accepted the body, with the digest of the body
    and the identifier of the header, and never a second one of a provider and an
    identifier. *)
Theorem Handle_records_only c provider r read s :
  wp (Handle secrets c provider r read)
    (λ _ s', at_most_recorded provider r read s s') (λ _ s', at_most_recorded provider r read s s') s.
Proof.
  unfold Handle. destruct read as [body|]; [|cp_step; split; [by repeat split|by left]]. cp_step.
  assert (wp (delivery_id r) (λ id s', unmoved s s' ∧ deliveries s' = deliveries s ∧ (header_id r ≠ "" → id = header_id r))
    (λ _ _, False) s) as Hid.
  { unfold delivery_id. destruct (String.eqb_spec (header_id r) ""); cp_step; by repeat split. }
  eapply wp_mono; [exact Hid| |done]. cbn beta. intros id s1 (H1 & Hd1 & Hh). cp_step.
  destruct (verify _ _ _ _) as [e|] eqn:Hv; cbn [refuse fmap option_fmap option_map]; cp_step; [by split; [|left]|].
  do 2 cp_step. eapply wp_mono; [apply wp_recordDelivery| |]; cbn beta.
  - intros _ s2 (H2 & d & Hd & Hp & Hi & Hs & Hf).
    eapply wp_mono; [apply still_process|..]; cbn beta; intros ? s3 [H3 Hd3];
      (split; [eauto using unmoved_trans|]; right; exists body, d; rewrite Hd3, Hd, Hd1, Hi;
       repeat split; [done|done|done|done|]; intros d'; rewrite <- Hd1; apply Hf).
  - intros e s2 [H2 Hd2]. assert (at_most_recorded provider r (Some body) s s2) as Hq
      by (split; [by eapply unmoved_trans|]; left; congruence).
    destruct (Is e _); by cp_step.
Qed.
End webhooks.
