(* ===== verification/CpHistory.v ===== *)
(** * The history of variables and secrets

    What UpdateValue and Rotate do, over an interface both kinds of rows
    implement ([Versioned]): the new value is sealed for its project, the old one
    goes to the table of versions under its number, and through every request
    the versions of a row are the numbers from 1 on. *)

From S2P Require Import Prelude GoLib Errors Postgres Sql Rbac DeployModel Rows Repository Outside ControlPlane DeployService Password BuildModel BuildStore IdentityModel Slug IdentityStore IdentityService Access IdentityFacts IdentityInvariants CpStore CpService Webhook CpAccess CpFacts.

(** ** Rows with versions *)

Class Versioned (R : Type) := {
  v_id : R → string;
  v_version : R → Z;
  v_value : R → string;
  v_scope : R → string * string;
}.

#[export] Instance versioned_variable : Versioned Variable_ :=
  {| v_id := Variable_.ID; v_version := Variable_.Version; v_value := Variable_.ValueEnc;
     v_scope v := (Variable_.OrgID v, Variable_.ProjectID v) |}.
#[export] Instance versioned_secret : Versioned Secret :=
  {| v_id := Secret.ID; v_version := Secret.Version; v_value := Secret.ValueEnc;
     v_scope x := (Secret.OrgID x, Secret.ProjectID x) |}.

Section versioned.
Context {R : Type} `{Ve : Versioned R}.
Implicit Types (t : list R) (vs : list VersionRow) (r x : R).

(** The versions recorded for a row, in the order of their numbers. *)
Definition versions_of (id : string) vs : list VersionRow := select (λ v, VersionRow.OwnerID v =s? id) vs.

(** Every row has the versions before its own, each once and in order. *)
Record history t vs : Prop := {
  hi_keys : NoDup (v_id <$> t);
  hi_owners : ∀ v, v ∈ vs → VersionRow.OwnerID v ∈ v_id <$> t;
  hi_complete : ∀ r, r ∈ t → 1 ≤ v_version r ∧ VersionRow.Version <$> versions_of (v_id r) vs = seqZ 1 (v_version r - 1);
}.

(** A row [x] gets the value [enc]; what it had becomes a version. *)
Definition bumped (id enc userID : string) t t' vs vs' : Prop :=
  ∃ x f vid now, x ∈ t ∧ v_id x = id
    ∧ vs' = vs ++ [VersionRow.mk vid id (v_version x) (v_value x) userID now]
    ∧ t' = update_where (λ r, v_id r =s? id) f t
    ∧ ∀ r, v_id (f r) = v_id r ∧ v_version (f r) = v_version x + 1 ∧ v_value (f r) = enc ∧ v_scope (f r) = v_scope r.

Lemma history_snoc t vs r : history t vs → (∀ x, x ∈ t → v_id x ≠ v_id r) → v_version r = 1 → history (t ++ [r]) vs.
Proof.
  intros [Hk Ho Hc] Hn Hv. assert (v_id r ∉ v_id <$> t) as Hr
    by (intros (x & E & Hx)%list_elem_of_fmap; by apply (Hn x Hx)).
  split.
  - rewrite fmap_app. apply NoDup_app. split; [done|]. split; [|apply NoDup_singleton].
    by intros k Hk' ->%list_elem_of_singleton.
  - intros v Hv'. rewrite fmap_app. apply elem_of_app. left. auto.
  - intros x [Hx | ->%list_elem_of_singleton]%elem_of_app; [auto|]. rewrite Hv. split; [lia|].
    unfold versions_of. rewrite select_none; [done|]. intros v Hv'%Ho. apply String.eqb_neq. intros E. by rewrite E in Hv'.
Qed.

Lemma history_update t vs p f :
  (∀ r, v_id (f r) = v_id r ∧ v_version (f r) = v_version r) → history t vs → history (update_where p f t) vs.
Proof.
  intros Hf [Hk Ho Hc]. assert (v_id <$> update_where p f t = v_id <$> t) as E
    by (apply (map_key_update_where v_id); intros; apply Hf).
  split; [by rewrite E|intros v Hv; rewrite E; auto|].
  intros r' (r & Hr & ->)%elem_of_update_where. destruct (p r); [|auto]. destruct (Hf r) as [-> ->]. auto.
Qed.

Lemma history_bumped id enc userID t t' vs vs' :
  bumped id enc userID t t' vs vs' → history t vs → history t' vs'.
Proof.
  intros (x & f & vid & now & Hx & Hid & -> & -> & Hf) [Hk Ho Hc].
  assert (v_id <$> update_where (λ r, v_id r =s? id) f t = v_id <$> t) as E
    by (apply (map_key_update_where v_id); intros; apply Hf).
  split; [by rewrite E| |].
  - intros v [Hv | ->%list_elem_of_singleton]%elem_of_app; rewrite E; [auto|]. apply list_elem_of_fmap. by exists x.
  - intros r' (r & Hr & ->)%elem_of_update_where. unfold versions_of. rewrite select_app, fmap_app.
    destruct (String.eqb_spec (v_id r) id) as [Er|Er].
    + destruct (Hf r) as (-> & -> & _). destruct (Hc x Hx) as [Hp Hv]. split; [lia|].
      rewrite Er, <- Hid. unfold versions_of in Hv. rewrite Hv. unfold select at 1. rewrite filter_cons_True by (cbn; rewrite Hid; by apply String.eqb_refl).
      replace (v_version x + 1 - 1) with (v_version x - 1 + 1) by lia. rewrite seqZ_app by lia. f_equal. symmetry. rewrite seqZ_cons by lia. rewrite seqZ_nil by lia. cbn. f_equal. lia.
    + rewrite (select_none _ [_]); [rewrite app_nil_r; by apply Hc|]. intros v ->%list_elem_of_singleton. cbn.
      apply String.eqb_neq. congruence.
Qed.

End versioned.

(** ** UpdateValue and Rotate *)

Section operations.
Context {W : Type} `{CW : CpWorld W} `{D : Driver} `{So : Sorter} `{RM : RowMapping} `{J : Jsonb} `{Ae : Aead}.
Implicit Types (s : cpdb W) (c : Caller).

Definition same_variables s s' : Prop := variables s' = variables s ∧ variable_versions s' = variable_versions s.
Definition same_secrets s s' : Prop := CpStore.secrets s' = CpStore.secrets s ∧ secret_versions s' = secret_versions s.

Definition variable_bumped id enc userID s s' : Prop :=
  bumped id enc userID (variables s) (variables s') (variable_versions s) (variable_versions s').
Definition secret_bumped id enc userID s s' : Prop :=
  bumped id enc userID (CpStore.secrets s) (CpStore.secrets s') (secret_versions s) (secret_versions s').

(** A statement on rows with an identifier that is read back. *)
Lemma wp_read_row {R} (l : Lens (cpdb W) (list R)) ids p message (Q : R → cpdb W → Prop) E s :
  (∀ e, E e s) → (∀ r, r ∈ view l s → p r = true → Q r s) →
  wp (translate message (stmt l (λ _, with_uuids ids (select_row p)))) Q E s.
Proof. intros He HQ. apply wp_translate. by apply wp_select. Qed.

Lemma wp_insert_version l owners message id userID value v now Q E s :
  (∀ w e, E e (put cp_world_l w s)) →
  (∀ w vid e, E e (put l (view l (put cp_world_l w s)) (put cp_world_l w s)) ∧
     Q tt (put l (view l (put cp_world_l w s) ++ [VersionRow.mk vid id v value userID now]) (put cp_world_l w s))) →
  wp (insert_version l owners message id userID value v now) Q E s.
Proof.
  intros He HQ. unfold insert_version, done_. do 4 cp_step. apply wp_stmt; [intros e; apply He|].
  apply wp_with_uuids; [by apply (HQ _ "")|]. intros _. unfold insert_checked.
  destruct (existsb _ (view _ _)); [by apply (HQ _ "")|]. destruct (existsb _ _); [|by apply (HQ _ "")]. cp_step.
  by apply (HQ _ _ (Plain "")).
Qed.

Lemma wp_UpdateValue id enc userID s :
  wp (UpdateValue id enc userID)
    (λ v s', variable_bumped id enc userID s s' ∧ v ∈ variables s' ∧ Variable_.ID v = id)
    (λ _ s', same_variables s s' ∨ variable_bumped id enc userID s s') s.
Proof.
  unfold UpdateValue. cp_step.
  apply (wp_Transact_in cp_world_l _ (λ _ s1, wp _ _ _ s1)); [by intros; left|].
  do 3 cp_step. apply wp_read_row; [done|]. intros x Hx Hp. bool_to_prop. cp_step.
  apply wp_insert_version; [done|]. intros w1 vid e1. split; [done|]. cp_step. apply wp_stmt; [done|].
  apply wp_with_uuids; [done|]. intros _. cbn [update_rows].
  match goal with |- wp _ _ _ ?s1 => assert (variable_bumped id enc userID s s1) as Hb end.
  { exists x. do 3 eexists. split; [exact Hx|]. split; [by apply String.eqb_eq|]. split; [reflexivity|].
    split; [reflexivity|]. done. }
  apply wp_read_row; [by right|]. intros v Hv E%String.eqb_eq. done.
Qed.

Lemma wp_Secrets_Rotate id enc userID s :
  wp (Secrets_Rotate id enc userID)
    (λ v s', secret_bumped id enc userID s s' ∧ v ∈ CpStore.secrets s' ∧ Secret.ID v = id)
    (λ _ s', same_secrets s s' ∨ secret_bumped id enc userID s s') s.
Proof.
  unfold Secrets_Rotate. cp_step.
  apply (wp_Transact_in cp_world_l _ (λ _ s1, wp _ _ _ s1)); [by intros; left|].
  do 3 cp_step. apply wp_read_row; [done|]. intros x Hx Hp. bool_to_prop. cp_step.
  apply wp_insert_version; [done|]. intros w1 vid e1. split; [done|]. cp_step. apply wp_stmt; [done|].
  apply wp_with_uuids; [done|]. intros _. cbn [update_rows].
  match goal with |- wp _ _ _ ?s1 => assert (secret_bumped id enc userID s s1) as Hb end.
  { exists x. do 3 eexists. split; [exact Hx|]. split; [by apply String.eqb_eq|]. split; [reflexivity|].
    split; [reflexivity|]. done. }
  apply wp_read_row; [by right|]. intros v Hv E%String.eqb_eq. done.
Qed.
End operations.

(** ** Automation *)

Lemma preserves_on_base {W A} (I : cpdb W → Prop) (m : db (control W) A) :
  (∀ b s, I s → I (set_base b s)) → preserves I (on_base m).
Proof.
  intros H s fs Hs. unfold tables_of, on_base, zoom. destruct (m _) as [r [b fs']]. by apply H.
Qed.

Lemma preserves_uuid_args `{D : Driver} {S A} (I : S → Prop) message ids (m : db S A) :
  preserves I m → preserves I (uuid_args message ids m).
Proof.
  intros H. unfold uuid_args. destruct (forallb _ _); [done|]. apply preserves_translate, preserves_query. by intros.
Qed.

Lemma preserves_search_slug {W} `{CW : CpWorld W} `{D : Driver} `{So : Sorter} (I : cpdb W → Prop) orgID slug :
  preserves I (search_slug orgID slug).
Proof.
  apply preserves_wp. intros s Hs. eapply wp_mono; [apply wp_search_slug|..]; cbn beta.
  - by intros ? s' [-> _].
  - by intros ? s' ->.
Qed.

(** A predicate that does not look at [base] nor at the tables of a statement. *)
Ltac cp_keep :=
  cbn beta iota zeta;
  lazymatch goal with
  | |- preserves _ CpStore.now_ => apply preserves_draw; by intros ???
  | |- preserves _ CpStore.new_id_ => apply preserves_draw; by intros ???
  | |- preserves _ (CpStore.token_ _) => apply preserves_draw; by intros ???
  | |- preserves _ (Vault_Encrypt _ _) => unfold Vault_Encrypt
  | |- preserves _ (on_base _) => apply preserves_on_base; by intros ???
  | |- preserves _ (search_slug _ _) => apply preserves_search_slug
  | |- preserves _ (uuid_args _ _ _) => apply preserves_uuid_args
  | |- preserves _ (done_ _) => unfold done_
  | |- preserves _ (found _ _) => unfold found
  | |- preserves _ (collect_without_value _) => unfold collect_without_value
  | |- _ => id_keep
  end.

Ltac cp_keeps := repeat first [cp_keep | id_read].

(** The services of projects, domains and repositories, down to statements. *)
Ltac cp_open :=
  unfold Project_List, Project_Create, Project_Get, Project_Update, Project_Rename, Project_Archive, Project_Restore,
    Project_Delete, Project_Duplicate, Domain_Create, Domain_List, Domain_Delete, Connect, Repository_Get, Disconnect,
    Repository_Update, seal_given,
    Projects_Archive, Projects_Restore, Projects_Update, Projects_SoftDelete, Projects_Create, Projects_ListByOrg,
    Projects_GetByID, first_project, SlugExists, Domains_Create, Domains_List, Domains_Delete, Store_Connect,
    Store_Disconnect, Store_Update, set_column, GetByProject, project_audit, audit, publish, allow,
    Repository.Insert, Repository.Update, Repository.Find, Repository.Count, Repository.SoftDelete;
  cbn [deleted_at projects_table].

(** ** Every request keeps the histories *)

Section requests.
Context {V : Type} `{CW : CpWorld V} `{D : Driver} `{So : Sorter} `{RM : RowMapping} `{J : Jsonb} `{Ae : Aead}.
Implicit Types (s : cpdb V) (c : Caller).

Definition histories s : Prop :=
  history (variables s) (variable_versions s) ∧ history (CpStore.secrets s) (secret_versions s).

Lemma spare_insert {R} (Q : list R → Prop) id_of clash refs row t :
  Q t → ((∀ r, r ∈ t → id_of r ≠ id_of row) → Q (t ++ [row])) → Q (insert_checked id_of clash refs row t).2.
Proof.
  intros Ht Hr. unfold insert_checked. destruct (existsb _ t) eqn:E; [done|]. destruct refs; [|done].
  apply Hr. intros r Hin Hid. apply not_true_iff_false in E. apply E, existsb_exists. exists r.
  split; [by apply list_elem_of_In|]. by rewrite Hid, String.eqb_refl.
Qed.

Lemma with_uuids_keeps {R A} (Q : list R → Prop) ids (f : list R → result error A * list R) t :
  Q t → Q (f t).2 → Q (with_uuids ids f t).2.
Proof. unfold with_uuids. by destruct (forallb _ _). Qed.

Lemma histories_variables_insert ids clash refs row :
  v_version row = 1 →
  preserves histories (stmt variables_l (λ s, with_uuids ids (insert_checked Variable_.ID clash (refs s) row))).
Proof.
  intros Hv. apply preserves_stmt. intros s [H1 H2]. split; [|exact H2]. cbn.
  apply (with_uuids_keeps (λ t, history t _)); [done|]. apply (spare_insert (λ t, history t _)); [done|].
  intros Hr. by apply history_snoc.
Qed.

Lemma histories_secrets_insert ids clash refs row :
  v_version row = 1 →
  preserves histories (stmt secrets_l (λ s, with_uuids ids (insert_checked Secret.ID clash (refs s) row))).
Proof.
  intros Hv. apply preserves_stmt. intros s [H1 H2]. split; [exact H1|]. cbn.
  apply (with_uuids_keeps (λ t, history t _)); [done|]. apply (spare_insert (λ t, history t _)); [done|].
  intros Hr. by apply history_snoc.
Qed.

Lemma histories_variables_update ids p f :
  (∀ r, v_id (f r) = v_id r ∧ v_version (f r) = v_version r) →
  preserves histories (stmt variables_l (λ _, with_uuids ids (update_rows p f))).
Proof.
  intros Hf. apply preserves_stmt. intros s [H1 H2]. split; [|exact H2]. cbn.
  apply (with_uuids_keeps (λ t, history t _)); [done|]. by apply history_update.
Qed.

Lemma histories_secrets_update ids p f :
  (∀ r, v_id (f r) = v_id r ∧ v_version (f r) = v_version r) →
  preserves histories (stmt secrets_l (λ _, with_uuids ids (update_rows p f))).
Proof.
  intros Hf. apply preserves_stmt. intros s [H1 H2]. split; [exact H1|]. cbn.
  apply (with_uuids_keeps (λ t, history t _)); [done|]. by apply history_update.
Qed.

Lemma histories_UpdateValue id enc userID : preserves histories (UpdateValue id enc userID).
Proof.
  apply preserves_wp. intros s [H1 H2].
  assert (preserves (λ s, history (CpStore.secrets s) (secret_versions s)) (UpdateValue id enc userID)) as Hp.
  { unfold UpdateValue, insert_version. cp_keeps. }
  eapply wp_mono; [apply wp_and; [apply wp_UpdateValue|by apply (wp_preserves _ _ _ Hp)]|..]; cbn beta.
  - intros v s' [(Hb & _) H2']. split; [by eapply history_bumped|done].
  - intros e s' [[[E1 E2]|Hb] H2']; (split; [|done]); [by rewrite E1, E2|by eapply history_bumped].
Qed.

Lemma histories_Secrets_Rotate id enc userID : preserves histories (Secrets_Rotate id enc userID).
Proof.
  apply preserves_wp. intros s [H1 H2].
  assert (preserves (λ s, history (variables s) (variable_versions s)) (Secrets_Rotate id enc userID)) as Hp.
  { unfold Secrets_Rotate, insert_version. cp_keeps. }
  eapply wp_mono; [apply wp_and; [apply wp_Secrets_Rotate|by apply (wp_preserves _ _ _ Hp)]|..]; cbn beta.
  - intros v s' [(Hb & _) H1']. split; [done|by eapply history_bumped].
  - intros e s' [[[E1 E2]|Hb] H1']; (split; [done|]); [by rewrite E1, E2|by eapply history_bumped].
Qed.

#[local] Hint Resolve histories_UpdateValue histories_Secrets_Rotate : tenant.

Lemma histories_Variable_Create c o p u i ip ua : preserves histories (Variable_Create c o p u i ip ua).
Proof.
  unfold Variable_Create, Variables_Create, Variables_Get, variable_record, audit, publish, allow.
  cp_keeps. by apply histories_variables_insert.
Qed.

Lemma histories_Variable_Update c o p v u x ip ua : preserves histories (Variable_Update c o p v u x ip ua).
Proof. unfold Variable_Update, Variables_Get, variable_record, audit, publish, allow. cp_keeps. auto with tenant. Qed.

Lemma histories_Variable_Delete c o p v u ip ua : preserves histories (Variable_Delete c o p v u ip ua).
Proof.
  unfold Variable_Delete, Variables_Delete, variable_record, audit, publish, allow.
  cp_keeps. by apply histories_variables_update.
Qed.

Lemma histories_Import c o p u items ip ua : preserves histories (Import_ c o p u items ip ua).
Proof. induction items; cbn [Import_]; cp_keeps; auto using histories_Variable_Create. Qed.

Lemma histories_Secret_Create c o p u i ip ua : preserves histories (Secret_Create c o p u i ip ua).
Proof.
  unfold Secret_Create, Secrets_Create, Secrets_Get, secret_record, audit, publish, allow.
  cp_keeps. by apply histories_secrets_insert.
Qed.

Lemma histories_Secret_Rotate c o p v u x ip ua : preserves histories (Secret_Rotate c o p v u x ip ua).
Proof. unfold Secret_Rotate, Secrets_Get, secret_record, audit, publish, allow. cp_keeps. auto with tenant. Qed.

Lemma histories_change_secret message o p v f :
  (∀ now r, v_id (f now r) = v_id r ∧ v_version (f now r) = v_version r) →
  preserves histories (change_secret message o p v f).
Proof. intros Hf. unfold change_secret. cp_keeps. apply histories_secrets_update. intros r. apply Hf. Qed.

Lemma histories_Secret_Disable c o p v u ip ua : preserves histories (Secret_Disable c o p v u ip ua).
Proof. unfold Secret_Disable, Secrets_Disable, secret_record, audit, publish, allow. cp_keeps. by apply histories_change_secret. Qed.

Lemma histories_Secret_Delete c o p v : preserves histories (Secret_Delete c o p v).
Proof. unfold Secret_Delete, Secrets_Delete, allow. cp_keeps. by apply histories_change_secret. Qed.

Context (region : string).
Context `{DProject : Decoder ProjectInput} `{DProjectUpdate : Decoder ProjectUpdate} `{DDuplicate : Decoder DuplicateBody}.
Context `{DDeploy : Decoder DeployInput} `{DRollback : Decoder RollbackBody} `{DConnect : Decoder ConnectInput}.
Context `{DRepository : Decoder RepositoryUpdate} `{DVariable : Decoder VariableInput}.
Context `{DVariableUpdate : Decoder VariableUpdate} `{DSecret : Decoder SecretInput} `{DRotate : Decoder RotateBody}.
Context `{DDomain : Decoder DomainInput}.

(** C9: through every request of the control plane the versions of a variable or a
    secret are complete: a row at version [n] has the versions 1 to [n - 1],
    each once and in this order, and no version is without its row. *)
Theorem history_complete m p perm (h : CpHandler (V := V)) x r :
  (m, p, perm, h) ∈ cp_scoped region → preserves histories (h x r).
Proof.
  intros Hh. unfold cp_scoped in Hh.
  repeat (apply elem_of_cons in Hh as [[= -> -> -> ->]|Hh]); [..|by apply elem_of_nil in Hh].
  all: unfold ListProjects, CreateProject, GetProject, UpdateProject, DeleteProject, ArchiveProject, RestoreProject,
    DuplicateProject, handle_Deploy, handle_Rollback, ListDeployments, GetDeployment, GetLatestDeployment,
    DeploymentTimeline, CancelDeployment, ConnectRepository, GetRepository, UpdateRepository, DisconnectRepository,
    ListEnv, CreateEnv, UpdateEnv, DeleteEnv, ListSecrets, CreateSecret, RotateSecret, DeleteSecret, ListDomains,
    CreateDomain, DeleteDomain, PauseProject, ResumeProject, RestartProject, must_param, must_user, cp_decode;
    cp_open; cp_keeps.
  all: try first [apply histories_Variable_Create | apply histories_Variable_Update | apply histories_Variable_Delete
    | apply histories_Secret_Create | apply histories_Secret_Rotate | apply histories_Secret_Delete].
  all: unfold Variable_List, Variables_List, Secret_List, Secrets_List, allow; cp_keeps.
Qed.
End requests.

(** ** Values are sealed for their project *)

Section seals.
Context {W : Type} `{CW : CpWorld W} `{D : Driver} `{So : Sorter} `{RM : RowMapping} `{J : Jsonb} `{Ae : Aead} `{L : !AeadLaws}.
Context (nonces : ∀ (w w' : W) n, read_nonce w = (Ok n, w') → String.length n = NonceSize).
Implicit Types (s : cpdb W) (c : Caller).

(** The text opens for one project only. *)
Definition sealed_for (aad value enc : string) : Prop :=
  Decrypt enc aad = Ok value ∧ ∀ aad', aad' ≠ aad → is_ok (Decrypt enc aad') = false.

Lemma wp_Vault_Encrypt value aad s :
  wp (Vault_Encrypt value aad) (λ enc s', ∃ w, s' = put cp_world_l w s ∧ sealed_for aad value enc)
    (λ _ s', ∃ w, s' = put cp_world_l w s) s.
Proof using nonces L.
  intros fs. unfold Vault_Encrypt, draw, mbind, db_bind. cbn [fst snd].
  destruct (read_nonce (view cp_world_l s)) as [[n|e] w] eqn:E; cbn; [|by exists w].
  exists w. split; [done|]. apply nonces in E. split; [by apply Decrypt_Encrypt|]. intros aad'. by apply Decrypt_Encrypt.
Qed.

Lemma wp_allow c orgID perm Q E s : (∀ e, E e s) → (allowed c orgID perm → Q tt s) → wp (allow c orgID perm) Q E s.
Proof.
  intros He HQ. unfold allow. cp_step. eapply wp_mono; [apply require_allowed|..]; cbn beta.
  - intros [] b [-> Ha]. rewrite put_view. auto.
  - intros e b [-> _]. by rewrite put_view.
Qed.

Lemma recorded_variables (P : cpdb W → Prop) c u o p v ip ua s :
  (∀ b s, P s → P (set_base b s)) → P s → wp (variable_record c u o p v ip ua) (λ _, P) (λ _, P) s.
Proof.
  intros HP. apply wp_preserves. unfold variable_record, audit, publish. cp_keep; by apply preserves_on_base.
Qed.

Lemma recorded_secrets (P : cpdb W → Prop) c u o p v ip ua s :
  (∀ b s, P s → P (set_base b s)) → P s → wp (secret_record c u o p v ip ua) (λ _, P) (λ _, P) s.
Proof.
  intros HP. apply wp_preserves. unfold secret_record, audit, publish. cp_keep; by apply preserves_on_base.
Qed.

Definition variable_resealed id aad value userID s s' : Prop :=
  ∃ enc, variable_bumped id enc userID s s' ∧ sealed_for aad value enc.
Definition secret_resealed id aad value userID s s' : Prop :=
  ∃ enc, secret_bumped id enc userID s s' ∧ sealed_for aad value enc.

(** C19: a caller with the permission to write who updates a variable leaves the
    given value sealed under it, readable with the identifiers of its
    organization and project and with no other, at the next version, while the
    value it had becomes a version of its own; an update that fails has changed
    no variable, or has failed after all of this. *)
Theorem Variable_Update_seals c orgID projectID varID userID value ip ua s :
  wp (Variable_Update c orgID projectID varID userID value ip ua)
    (λ v s', allowed c orgID PermProjectWrite ∧ variable_resealed varID (AAD orgID projectID) value userID s s'
             ∧ VariableView.ID v = varID ∧ VariableView.Value v = value)
    (λ _ s', same_variables s s' ∨ variable_resealed varID (AAD orgID projectID) value userID s s') s.
Proof using nonces L.
  unfold Variable_Update. cp_step. apply wp_allow; [by left|]. intros Ha. cp_step. unfold Variables_Get.
  apply wp_read_row; [by left|]. intros v0 _ Hv. unfold variable_of in Hv. bool_to_prop. subst. cp_step.
  eapply wp_mono; [apply wp_Vault_Encrypt| |intros e s' [w ->]; by left]. cbn beta. intros enc s1 (w & -> & Hs). cp_step.
  eapply wp_mono; [apply wp_UpdateValue|..]; cbn beta.
  - intros v s2 (Hb & _ & Hid). cp_step.
    assert (variable_resealed (Variable_.ID v0) (AAD (Variable_.OrgID v0) (Variable_.ProjectID v0)) value userID s s2) as Hr by by exists enc.
    eapply wp_mono; [eapply recorded_variables; [|exact Hr]; by intros|..]; cbn beta.
    + intros _ s3 H3. by cp_step.
    + auto.
  - intros e s2 [?|Hb]; [by left|right; by exists enc].
Qed.

Lemma Secret_Rotate_seals c orgID projectID secretID userID value ip ua s :
  wp (Secret_Rotate c orgID projectID secretID userID value ip ua)
    (λ v s', allowed c orgID PermProjectWrite ∧ secret_resealed secretID (AAD orgID projectID) value userID s s'
             ∧ SecretView.ID v = secretID)
    (λ _ s', same_secrets s s' ∨ secret_resealed secretID (AAD orgID projectID) value userID s s') s.
Proof using nonces L.
  unfold Secret_Rotate. cp_step. apply wp_allow; [by left|]. intros Ha. cp_step. unfold Secrets_Get.
  apply wp_read_row; [by left|]. intros v0 _ Hv. unfold secret_of in Hv. bool_to_prop. subst. cp_step.
  eapply wp_mono; [apply wp_Vault_Encrypt| |intros e s' [w ->]; by left]. cbn beta. intros enc s1 (w & -> & Hs). cp_step.
  eapply wp_mono; [apply wp_Secrets_Rotate|..]; cbn beta.
  - intros v s2 (Hb & _ & Hid). cp_step.
    assert (secret_resealed (Secret.ID v0) (AAD (Secret.OrgID v0) (Secret.ProjectID v0)) value userID s s2) as Hr by by exists enc.
    eapply wp_mono; [eapply recorded_secrets; [|exact Hr]; by intros|..]; cbn beta.
    + intros _ s3 H3. by cp_step.
    + auto.
  - intros e s2 [?|Hb]; [by left|right; by exists enc].
Qed.
End seals.
