(* ===== verification/CpTenants.v ===== *)
(** * The control plane's tenants

    A request to one organization leaves the rows of the others alone.  The code
    never asks whether the project of the path belongs to the organization of
    the path: making a domain primary and connecting a repository change the
    domains and repositories of that project, whoever owns them, and those are
    the only ones. *)

From S2P Require Import Prelude GoLib Errors Postgres Sql Jobs Rbac DeployModel Rows Repository DeploymentRepo Outside ControlPlane DeployService DeployRequests Password BuildModel BuildStore IdentityModel Slug IdentityStore IdentityService Access IdentityFacts IdentityInvariants CpStore CpService Webhook CpAccess CpFacts CpHistory.

(** ** Tables with a key *)

Section part.
Context {R : Type} (id_of : R → string) (q : R → bool) (T : list R).

(** The rows [q] of a table are [T]. *)
Definition part (t : list R) : Prop := NoDup (id_of <$> t) ∧ select q t = T.

Lemma part_insert clash refs row t : q row = false → part t → part (insert_checked id_of clash refs row t).2.
Proof.
  intros Hq [Hk HT]. apply spare_insert; [done|]. intros Hn. split.
  - rewrite fmap_app. apply NoDup_app. split; [done|]. split; [|apply NoDup_singleton].
    intros k (x & -> & Hx)%list_elem_of_fmap Ek%list_elem_of_singleton. by apply (Hn x Hx).
  - rewrite select_app, HT, select_none; [by rewrite app_nil_r|]. by intros r ->%list_elem_of_singleton.
Qed.

Lemma part_update p f t :
  (∀ r, id_of (f r) = id_of r) → (∀ r, r ∈ t → p r = true → q r = false ∧ q (f r) = false) →
  part t → part (update_where p f t).
Proof.
  intros Hid Hf [Hk HT]. split; [rewrite (map_key_update_where id_of); [done|intros; apply Hid]|].
  rewrite <- HT. clear HT Hk. unfold select, update_where. induction t as [|x t IH]; [done|].
  rewrite fmap_cons, !filter_cons, IH by (intros r Hr; apply Hf; by right). destruct (p x) eqn:E; [|done].
  destruct (Hf x) as [H1 H2]; [by left|done|]. rewrite !decide_False by congruence. done.
Qed.

(** A row of the key that is not of [q] is the only row of the key. *)
Lemma part_key t x : part t → x ∈ t → q x = false → ∀ r, r ∈ t → id_of r = id_of x → q r = false.
Proof. intros [Hk _] Hx Hq r Hr E. by rewrite (NoDup_key_eq id_of t r x). Qed.

Lemma part_with_uuids {A} ids (f : list R → result error A * list R) t :
  part t → part (f t).2 → part (with_uuids ids f t).2.
Proof. apply with_uuids_keeps. Qed.
End part.

(** ** The rows of an organization *)

Section tenants.
Context {V : Type} `{CW : CpWorld V} `{D : Driver} `{So : Sorter} `{RM : RowMapping} `{J : Jsonb} `{Ae : Aead}.
Context (o pid : string).
Implicit Types (s : cpdb V) (c : Caller) (b : control V).

Definition own_project (p : Project) : bool := Project.OrgID p =s? o.
Definition own_deployment (d : Deployment) : bool := Deployment.OrgID d =s? o.
Definition own_variable (v : Variable_) : bool := Variable_.OrgID v =s? o.
Definition own_secret (x : Secret) : bool := Secret.OrgID x =s? o.
(** But for those of the project [pid]. *)
Definition own_domain (d : Domain) : bool := (Domain.OrgID d =s? o) && negb (Domain.ProjectID d =s? pid).
Definition own_repository (r : GitRepository) : bool :=
  (GitRepository.OrgID r =s? o) && negb (GitRepository.ProjectID r =s? pid).

Definition base_part (TP : list Project) (TD : list Deployment) b : Prop :=
  part Project.ID own_project TP (projects (rows b)) ∧ select own_deployment (deployments (rows b)) = TD.

Context (TP : list Project) (TD : list Deployment) (TV : list Variable_) (TS : list Secret) (TM : list Domain).
Context (TR : list GitRepository).

(** The keys are unique, and the rows of [o] are these. *)
Definition cp_rows s : Prop :=
  base_part TP TD (base s) ∧ part Variable_.ID own_variable TV (variables s)
  ∧ part Secret.ID own_secret TS (CpStore.secrets s) ∧ part Domain.ID own_domain TM (domains s)
  ∧ part GitRepository.ID own_repository TR (repositories s).

(** *** Statements *)

Lemma rows_variables {A} (f : cpdb V → list Variable_ → result error A * list Variable_) :
  (∀ s t, part Variable_.ID own_variable TV t → part Variable_.ID own_variable TV (f s t).2) →
  preserves cp_rows (stmt variables_l f).
Proof. intros Hf. apply preserves_stmt. intros s (? & ? & ? & ? & ?). split_and!; try done; by apply Hf. Qed.

Lemma rows_secrets {A} (f : cpdb V → list Secret → result error A * list Secret) :
  (∀ s t, part Secret.ID own_secret TS t → part Secret.ID own_secret TS (f s t).2) →
  preserves cp_rows (stmt secrets_l f).
Proof. intros Hf. apply preserves_stmt. intros s (? & ? & ? & ? & ?). split_and!; try done; by apply Hf. Qed.

Lemma rows_domains {A} (f : cpdb V → list Domain → result error A * list Domain) :
  (∀ s t, part Domain.ID own_domain TM t → part Domain.ID own_domain TM (f s t).2) →
  preserves cp_rows (stmt domains_l f).
Proof. intros Hf. apply preserves_stmt. intros s (? & ? & ? & ? & ?). split_and!; try done; by apply Hf. Qed.

Lemma rows_repositories {A} (f : cpdb V → list GitRepository → result error A * list GitRepository) :
  (∀ s t, part GitRepository.ID own_repository TR t → part GitRepository.ID own_repository TR (f s t).2) →
  preserves cp_rows (stmt repositories_l f).
Proof. intros Hf. apply preserves_stmt. intros s (? & ? & ? & ? & ?). split_and!; try done; by apply Hf. Qed.

Lemma rows_on_base {A} (m : db (control V) A) : preserves (base_part TP TD) m → preserves cp_rows (on_base m).
Proof.
  intros Hm s fs (Hb & ? & ? & ? & ?). specialize (Hm (base s) fs Hb). unfold tables_of, on_base, zoom in *.
  cbn [view base_l]. destruct (m _) as [r [b fs']]. by split_and!.
Qed.

(** *** The base *)

Lemma base_ask {A} (op : V → A * V) log (t : control V) :
  preserves (λ r, base_part TP TD (put rows_lens r t)) (ask op log).
Proof. intros r fs H. unfold tables_of, ask. destruct (op _) as [a w]. exact H. Qed.

Lemma base_with_id {A} (m : string → Time → db (control V) A) :
  (∀ id now, preserves (base_part TP TD) (m id now)) → preserves (base_part TP TD) (with_id m).
Proof.
  intros Hm. unfold with_id. apply preserves_bind; [apply preserves_zoom, base_ask|]. intros id.
  apply preserves_bind; [apply preserves_zoom, base_ask|]. intros now. apply Hm.
Qed.

Lemma base_record_entry c e : preserves (base_part TP TD) (record_entry c e).
Proof. apply base_with_id. intros id now. apply preserves_zoom. intros t s fs H. exact H. Qed.

Lemma base_enqueue m : preserves (base_part TP TD) (enqueue m).
Proof. apply base_with_id. intros id now. apply preserves_zoom. intros t s fs H. exact H. Qed.

Lemma base_PublishAsync name meta : preserves (base_part TP TD) (PublishAsync name meta).
Proof. intros b fs H. exact H. Qed.

Lemma base_require c orgID perm : preserves (base_part TP TD) (require c orgID perm).
Proof.
  apply preserves_wp. intros b H. eapply wp_mono; [apply require_allowed|..]; cbn beta; by intros ? b' [-> _].
Qed.

Lemma base_serves c orgID perm A (m : db (control V) A) :
  orgID ≠ o → serves c orgID perm A m → preserves (base_part TP TD) m.
Proof.
  intros Hne Hs. apply preserves_wp. intros b [HP HD].
  assert (∀ b', confined orgID b b' → base_part TP TD b') as H.
  { intros b' [[Hf _ Hr] _ _ _]. split.
    - replace (projects (rows b')) with (projects (rows b)); [done|]. by apply (f_equal projects) in Hr.
    - rewrite <- HD. transitivity (select own_deployment (select (λ d, negb (DeployRequests.owned orgID d)) (deployments (rows b')))).
      + rewrite select_select. apply select_ext. intros d _. unfold own_deployment, DeployRequests.owned.
        destruct (String.eqb_spec (Deployment.OrgID d) o) as [->|]; [|done]. by rewrite (proj2 (String.eqb_neq _ _)).
      + rewrite Hf, select_select. apply select_ext. intros d _. unfold own_deployment, DeployRequests.owned.
        destruct (String.eqb_spec (Deployment.OrgID d) o) as [->|]; [|done]. by rewrite (proj2 (String.eqb_neq _ _)). }
  eapply wp_mono; [apply (wp_preserves _ _ _ (confined_serves c orgID perm A m b Hs)), confined_refl|..]; cbn beta; auto.
Qed.

(** *** Projects *)

Lemma rows_set_projects s t :
  cp_rows s → part Project.ID own_project TP t → cp_rows (put projects_l t s).
Proof. intros ([] & ? & ? & ? & ?) Ht. by split_and!. Qed.

Lemma wp_Projects_GetByID orgID id Q E s :
  (∀ e, E e s) → (∀ p, p ∈ projects (rows (base s)) → Project.ID p = id → Project.OrgID p = orgID → Q p s) →
  wp (Projects_GetByID orgID id) Q E s.
Proof.
  intros He HQ. unfold Projects_GetByID. do 2 cp_step. apply wp_uuid_args; [done|]. unfold Find. cp_step.
  apply wp_stmt; [done|]. cbn beta iota. rewrite put_view. cbn [ordered].
  destruct (select _ _) as [|p l] eqn:E1; cbn [first_project]; cp_step; [done|].
  match type of E1 with ?l0 = _ => assert (p ∈ l0) as [Hp Hin]%elem_of_select by (rewrite E1; by left) end.
  bool_to_prop. by apply HQ.
Qed.

(** The change of a project the caller has read. *)
Lemma wp_project_change id p message (f : Project → Project) s :
  cp_rows s → p ∈ projects (rows (base s)) → Project.ID p = id → Project.OrgID p ≠ o →
  (∀ r, Project.ID (f r) = Project.ID r ∧ Project.OrgID (f r) = Project.OrgID r) →
  wp (translate message (stmt projects_l (λ s, with_uuids [id]
    (update_one projects_table s (λ r, is_row (projects_table (W := V)) id r && live (projects_table (W := V)) r) f))))
    (λ _ s', cp_rows s') (λ _ s', cp_rows s') s.
Proof.
  intros Hs Hp Hid Ho Hf. apply wp_translate, wp_stmt; [done|].
  apply wp_with_uuids; [rewrite put_view; by intros|]. intros _. cbn beta.
  assert (part Project.ID own_project TP (update_where (λ r, is_row (projects_table (W := V)) id r && live (projects_table (W := V)) r) f
    (view projects_l s))) as Hu.
  { destruct Hs as ([HP _] & _). apply part_update; [intros; apply Hf| |done]. intros r Hr Hq. unfold is_row in Hq. cbn in Hq. bool_to_prop.
    assert (own_project r = false) as E.
    { apply (part_key Project.ID own_project TP _ p HP Hp); [by apply String.eqb_neq|done|]. congruence. }
    split; [done|]. unfold own_project in *. by rewrite (proj2 (Hf r)). }
  unfold update_one, returning.
  destruct (existsb _ _); [rewrite put_view; done|]. destruct (forallb _ _); [|rewrite put_view; done].
  destruct (exactly_one _); by apply rows_set_projects.
Qed.

Lemma preserves_project_insert row :
  Project.OrgID row ≠ o → preserves cp_rows (Repository.Insert projects_table projects_l row).
Proof.
  intros Ho. unfold Repository.Insert. apply preserves_translate, preserves_stmt. intros s Hs. unfold insert.
  destruct (existsb _ _) eqn:E; [exact Hs|]. cbn [referenced projects_table snd].
  apply rows_set_projects; [done|]. destruct Hs as ([[Hk HT] _] & _). split.
  - rewrite fmap_app. apply NoDup_app. split; [done|]. split; [|apply NoDup_singleton].
    intros k (x & -> & Hx)%list_elem_of_fmap Ek%list_elem_of_singleton. apply not_true_iff_false in E. apply E.
    apply existsb_exists. exists x. split; [by apply list_elem_of_In|]. unfold is_row. cbn. by rewrite Ek, String.eqb_refl.
  - cbn [view projects_l]. rewrite select_app, HT, select_none; [by rewrite app_nil_r|].
    intros r ->%list_elem_of_singleton. by apply String.eqb_neq.
Qed.

(** *** Services *)

Ltac base_keep :=
  first [apply base_require | apply base_PublishAsync | apply base_enqueue | apply base_record_entry
        | apply preserves_ignore; base_keep].

Ltac own_keep :=
  cbn beta iota zeta;
  lazymatch goal with
  | |- preserves _ (on_base _) => apply rows_on_base; base_keep
  | |- preserves _ (insert_version _ _ _ _ _ _ _ _) => unfold insert_version
  | |- _ => first [cp_keep | id_read]
  end.

Section scoped.
Context (orgID : string) (Hne : orgID ≠ o).

Lemma rows_Projects_Update id ids (f : Project → Project) :
  (∀ r, Project.ID (f r) = Project.ID r ∧ Project.OrgID (f r) = Project.OrgID r) →
  preserves cp_rows (Projects_Update orgID id ids f).
Proof.
  intros Hf. apply preserves_wp. intros s Hs. unfold Projects_Update. cp_step.
  apply wp_Projects_GetByID; [done|]. intros p Hp Hid Ho. do 3 cp_step. apply wp_uuid_args; [done|].
  unfold Repository.Update. eapply wp_project_change; [done|exact Hp|done|congruence|exact Hf].
Qed.

Lemma rows_Projects_SoftDelete id : preserves cp_rows (Projects_SoftDelete orgID id).
Proof.
  apply preserves_wp. intros s Hs. unfold Projects_SoftDelete. cp_step.
  apply wp_Projects_GetByID; [done|]. intros p Hp Hid Ho. unfold SoftDelete. cbn [deleted_at projects_table]. do 5 cp_step.
  apply wp_stmt; [done|]. apply wp_with_uuids; [by rewrite put_view|]. intros _. unfold done_, Repository.Update. do 4 cp_step.
  set (t := update_where _ _ _).
  assert (cp_rows (put projects_l t (put cp_world_l w s))) as H1.
  { apply rows_set_projects; [done|]. destruct Hs as ([HP _] & _). apply part_update; [done| |done]. intros r Hr Hq.
    unfold is_row in Hq. cbn in Hq. bool_to_prop.
    assert (own_project r = false) as E; [|by split].
    apply (part_key Project.ID own_project TP _ p HP Hp); [apply String.eqb_neq; congruence|done|congruence]. }
  assert (∃ p', p' ∈ t ∧ Project.ID p' = id ∧ Project.OrgID p' ≠ o) as (p' & Hp' & Hid' & Ho').
  { eexists. split; [apply elem_of_update_where; by exists p|]. destruct (_ && _); cbn; split; congruence. }
  eapply wp_mono; [eapply (wp_project_change id p'); [exact H1|exact Hp'|done|done|done]|..]; cbn beta; [|done].
  intros _ s' H. by cp_step.
Qed.

Lemma rows_Projects_Create p : Project.OrgID p ≠ o → preserves cp_rows (Projects_Create p).
Proof. intros Ho. unfold Projects_Create. repeat own_keep. by apply preserves_project_insert. Qed.

#[local] Hint Resolve rows_Projects_Update rows_Projects_SoftDelete rows_Projects_Create : tenant.

Ltac own_keeps := repeat own_keep; auto with tenant.

Lemma rows_Project_Get c id : preserves cp_rows (Project_Get c orgID id).
Proof. unfold Project_Get; cp_open; own_keeps. Qed.

Lemma rows_Project_List c all : preserves cp_rows (Project_List c orgID all).
Proof. unfold Project_List; cp_open; own_keeps. Qed.

Lemma rows_Project_Create region c u i ip ua : preserves cp_rows (Project_Create region c orgID u i ip ua).
Proof. unfold Project_Create, SlugExists, Repository.Count, project_audit, audit, publish, allow. own_keeps. Qed.

Lemma assign_keeps {A} (set : A → Project → Project) v (g : Project → string) r :
  (∀ x r, g (set x r) = g r) → g (assign set v r) = g r.
Proof. intros H. by destruct v; cbn. Qed.

Lemma changes_keep i r : Project.ID (changes i r) = Project.ID r ∧ Project.OrgID (changes i r) = Project.OrgID r.
Proof. unfold changes. split; by rewrite !assign_keeps. Qed.
#[local] Hint Resolve changes_keep : tenant.

Lemma rows_Project_Update c id u i ip ua : preserves cp_rows (Project_Update c orgID id u i ip ua).
Proof.
  unfold Project_Update, project_audit, audit, publish, allow. own_keeps.
  unfold Projects_GetByID, first_project, Repository.Find. own_keeps.
Qed.

(** A value with a property, from a computation that keeps the rows. *)
Lemma preserves_bind_with {S A B} (I : S → Prop) (P : A → Prop) (m : db S A) (k : A → db S B) :
  (∀ t : S, I t → wp m (λ a t', I t' ∧ P a) (λ _, I) t) → (∀ a, P a → preserves I (k a)) → preserves I (m ≫= k).
Proof.
  intros Hm Hk. apply preserves_wp. intros t Ht. apply wp_bind. eapply wp_mono; [by apply Hm| |done]. cbn beta.
  intros a t' [H1 H2]. apply wp_preserves; [by apply Hk|done].
Qed.

Lemma rows_SlugExists slug except : preserves cp_rows (SlugExists orgID slug except).
Proof. unfold SlugExists, Repository.Count. own_keeps. Qed.

Lemma rows_Project_Rename c id u name slug ip ua : preserves cp_rows (Project_Rename c orgID id u name slug ip ua).
Proof.
  unfold Project_Rename, project_audit, audit, publish, allow. own_keep; [own_keeps|].
  apply (preserves_bind_with _ (λ f, ∀ r, Project.ID (f r) = Project.ID r ∧ Project.OrgID (f r) = Project.OrgID r)).
  - intros s Hs. destruct (slug =s? ""); [by cp_step|]. cp_step.
    eapply wp_mono; [apply (wp_preserves _ _ _ (rows_SlugExists _ _) Hs)|..]; cbn beta; [|done].
    intros [] s' H; by cp_step.
  - intros f Hf. own_keeps.
Qed.

Lemma rows_Project_Archive c id u ip ua : preserves cp_rows (Project_Archive c orgID id u ip ua).
Proof. unfold Project_Archive, Projects_Archive, project_audit, audit, publish, allow. own_keeps. Qed.

Lemma rows_Project_Restore c id u ip ua : preserves cp_rows (Project_Restore c orgID id u ip ua).
Proof. unfold Project_Restore, Projects_Restore, project_audit, audit, publish, allow. own_keeps. Qed.

Lemma rows_Project_Delete c id u ip ua : preserves cp_rows (Project_Delete c orgID id u ip ua).
Proof. unfold Project_Delete, project_audit, audit, publish, allow. own_keeps. Qed.

Lemma rows_Project_Duplicate c id u name ip ua : preserves cp_rows (Project_Duplicate c orgID id u name ip ua).
Proof.
  unfold Project_Duplicate, project_audit, audit, publish, allow. own_keep; [own_keeps|].
  apply (preserves_bind_with _ (λ p, Project.OrgID p ≠ o)).
  - intros s Hs. apply wp_Projects_GetByID; [done|]. intros p _ _ Hp. split; [done|congruence].
  - intros p Hp. own_keeps.
Qed.

(** *** Variables and secrets *)

Lemma foreign_variable v : Variable_.OrgID v = orgID → own_variable v = false.
Proof. intros E. apply String.eqb_neq. congruence. Qed.
Lemma foreign_secret x : Secret.OrgID x = orgID → own_secret x = false.
Proof. intros E. apply String.eqb_neq. congruence. Qed.

Lemma rows_Variable_Create c p u i ip ua : preserves cp_rows (Variable_Create c orgID p u i ip ua).
Proof.
  unfold Variable_Create, Variables_Create, Variables_Get, variable_record, audit, publish, allow. repeat own_keep.
  apply rows_variables. intros s t Ht. apply part_with_uuids; [done|]. apply part_insert; [|done]. by apply foreign_variable.
Qed.

Lemma rows_Variable_Delete c p v u ip ua : preserves cp_rows (Variable_Delete c orgID p v u ip ua).
Proof.
  unfold Variable_Delete, Variables_Delete, variable_record, audit, publish, allow. repeat own_keep.
  apply rows_variables. intros s t Ht. apply part_with_uuids; [done|]. apply part_update; [done| |done].
  intros r _ Hr. unfold variable_of in Hr. bool_to_prop. by split; apply foreign_variable.
Qed.

Lemma rows_Secret_Create c p u i ip ua : preserves cp_rows (Secret_Create c orgID p u i ip ua).
Proof.
  unfold Secret_Create, Secrets_Create, Secrets_Get, secret_record, audit, publish, allow. repeat own_keep.
  apply rows_secrets. intros s t Ht. apply part_with_uuids; [done|]. apply part_insert; [|done]. by apply foreign_secret.
Qed.

Lemma rows_Secret_Delete c p x : preserves cp_rows (Secret_Delete c orgID p x).
Proof.
  unfold Secret_Delete, Secrets_Delete, change_secret, allow. repeat own_keep.
  apply rows_secrets. intros s t Ht. apply part_with_uuids; [done|]. apply part_update; [done| |done].
  intros r _ Hr. unfold secret_of in Hr. bool_to_prop. by split; apply foreign_secret.
Qed.

(** A row that gets a new value stays in its organization. *)
Lemma part_bumped {R} `{Versioned R} (q : R → bool) T id enc u (t t' : list R) vs vs' x :
  (∀ r r', v_scope r = v_scope r' → q r = q r') → x ∈ t → v_id x = id → q x = false →
  bumped id enc u t t' vs vs' → part v_id q T t → part v_id q T t'.
Proof.
  intros Hq Hx Hid Hf (y & f & vid & now & _ & _ & _ & -> & Hv) Ht. apply part_update; [intros; apply Hv| |done].
  intros r Hr E%String.eqb_eq. assert (q r = false) as Er by (eapply part_key; [exact Ht|exact Hx|done|done|congruence]).
  split; [done|]. rewrite <- Er. apply Hq, Hv.
Qed.

Lemma rows_UpdateValue id enc u x s :
  cp_rows s → x ∈ variables s → Variable_.ID x = id → own_variable x = false →
  wp (UpdateValue id enc u) (λ _, cp_rows) (λ _, cp_rows) s.
Proof.
  intros (H1 & H2 & H3 & H4 & H5) Hx Hid Hf.
  assert (∀ s', variable_bumped id enc u s s' → part Variable_.ID own_variable TV (variables s')) as Hb.
  { intros s' Hb. refine (part_bumped own_variable TV id enc u _ _ _ _ x _ Hx Hid Hf Hb H2).
    intros r r' [= E _]. unfold own_variable. by rewrite E. }
  assert (preserves (λ s, base_part TP TD (base s) ∧ part Secret.ID own_secret TS (CpStore.secrets s)
    ∧ part Domain.ID own_domain TM (domains s) ∧ part GitRepository.ID own_repository TR (repositories s))
    (UpdateValue id enc u)) as Hp by (unfold UpdateValue, insert_version; cp_keeps).
  eapply wp_mono; [apply wp_and; [apply wp_UpdateValue|apply (wp_preserves _ _ _ Hp); split_and!; done]|..]; cbn beta.
  - intros v s' [(Hv & _) (? & ? & ? & ?)]. split_and!; auto.
  - intros e s' [[[E _]|Hv] (? & ? & ? & ?)]; split_and!; auto. by rewrite E.
Qed.

Lemma rows_Secrets_Rotate id enc u x s :
  cp_rows s → x ∈ CpStore.secrets s → Secret.ID x = id → own_secret x = false →
  wp (Secrets_Rotate id enc u) (λ _, cp_rows) (λ _, cp_rows) s.
Proof.
  intros (H1 & H2 & H3 & H4 & H5) Hx Hid Hf.
  assert (∀ s', secret_bumped id enc u s s' → part Secret.ID own_secret TS (CpStore.secrets s')) as Hb.
  { intros s' Hb. refine (part_bumped own_secret TS id enc u _ _ _ _ x _ Hx Hid Hf Hb H3).
    intros r r' [= E _]. unfold own_secret. by rewrite E. }
  assert (preserves (λ s, base_part TP TD (base s) ∧ part Variable_.ID own_variable TV (variables s)
    ∧ part Domain.ID own_domain TM (domains s) ∧ part GitRepository.ID own_repository TR (repositories s))
    (Secrets_Rotate id enc u)) as Hp by (unfold Secrets_Rotate, insert_version; cp_keeps).
  eapply wp_mono; [apply wp_and; [apply wp_Secrets_Rotate|apply (wp_preserves _ _ _ Hp); split_and!; done]|..]; cbn beta.
  - intros v s' [(Hv & _) (? & ? & ? & ?)]. split_and!; auto.
  - intros e s' [[[E _]|Hv] (? & ? & ? & ?)]; split_and!; auto. by rewrite E.
Qed.

(** Encryption reads the world only. *)
Lemma wp_sealing value aad (P : cpdb V → Prop) s :
  (∀ w, P (put cp_world_l w s)) → wp (Vault_Encrypt value aad) (λ _, P) (λ _, P) s.
Proof.
  intros HP. unfold Vault_Encrypt. cp_step. apply wp_draw. intros r w. destruct r; cp_step; apply HP.
Qed.

Lemma rows_Variable_Update c p v u x ip ua : preserves cp_rows (Variable_Update c orgID p v u x ip ua).
Proof.
  unfold Variable_Update. own_keep; [unfold allow; own_keeps|]. apply preserves_wp. intros s Hs. cp_step.
  unfold Variables_Get. apply wp_read_row; [done|]. intros y Hy Hv. unfold variable_of in Hv. bool_to_prop. cp_step.
  eapply wp_mono; [apply (wp_sealing _ _ (λ s', cp_rows s' ∧ variables s' = variables s)); done|..]; cbn beta;
    [|by intros e s' []].
  intros enc s1 [Hs1 E1]. cp_step. eapply wp_mono; [apply (rows_UpdateValue _ _ _ y)|..]; cbn beta; [done|by rewrite E1|done| |..].
  - by apply foreign_variable.
  - intros z s2 Hs2. apply wp_preserves; [|exact Hs2]. unfold variable_record, audit, publish. own_keeps.
  - done.
Qed.

Lemma rows_Secret_Rotate c p v u x ip ua : preserves cp_rows (Secret_Rotate c orgID p v u x ip ua).
Proof.
  unfold Secret_Rotate. own_keep; [unfold allow; own_keeps|]. apply preserves_wp. intros s Hs. cp_step.
  unfold Secrets_Get. apply wp_read_row; [done|]. intros y Hy Hv. unfold secret_of in Hv. bool_to_prop. cp_step.
  eapply wp_mono; [apply (wp_sealing _ _ (λ s', cp_rows s' ∧ CpStore.secrets s' = CpStore.secrets s)); done|..]; cbn beta;
    [|by intros e s' []].
  intros enc s1 [Hs1 E1]. cp_step. eapply wp_mono; [apply (rows_Secrets_Rotate _ _ _ y)|..]; cbn beta; [done|by rewrite E1|done| |..].
  - by apply foreign_secret.
  - intros z s2 Hs2. apply wp_preserves; [|exact Hs2]. unfold secret_record, audit, publish. own_keeps.
  - done.
Qed.

Lemma rows_Variable_List c p env : preserves cp_rows (Variable_List c orgID p env).
Proof. unfold Variable_List, Variables_List, allow. own_keeps. Qed.

Lemma rows_Secret_List c p : preserves cp_rows (Secret_List c orgID p).
Proof. unfold Secret_List, Secrets_List, allow. own_keeps. Qed.

(** *** Domains and repositories of the project [pid] *)

Lemma foreign_domain d : Domain.OrgID d = orgID ∨ Domain.ProjectID d = pid → own_domain d = false.
Proof.
  unfold own_domain. intros [E|E].
  - rewrite (proj2 (String.eqb_neq _ _)); [done|congruence].
  - by rewrite E, String.eqb_refl, andb_false_r.
Qed.
Lemma foreign_repository r : GitRepository.OrgID r = orgID ∨ GitRepository.ProjectID r = pid → own_repository r = false.
Proof.
  unfold own_repository. intros [E|E].
  - rewrite (proj2 (String.eqb_neq _ _)); [done|congruence].
  - by rewrite E, String.eqb_refl, andb_false_r.
Qed.

Lemma rows_Domain_Create c u i ip ua : preserves cp_rows (Domain_Create c orgID pid u i ip ua).
Proof.
  unfold Domain_Create, Domains_Create, audit, publish, allow. repeat own_keep.
  all: apply rows_domains; intros s t Ht; apply part_with_uuids; [done|].
  - apply part_update; [done| |done]. intros r _ Hr. bool_to_prop. split; apply foreign_domain; by right.
  - apply part_insert; [|done]. apply foreign_domain. by left.
Qed.

Lemma rows_Domain_List c p : preserves cp_rows (Domain_List c orgID p).
Proof. unfold Domain_List, Domains_List, allow. own_keeps. Qed.

Lemma rows_Domain_Delete c p d u ip ua : preserves cp_rows (Domain_Delete c orgID p d u ip ua).
Proof.
  unfold Domain_Delete, Domains_Delete, audit, publish, allow. repeat own_keep.
  apply rows_domains. intros s t Ht. apply part_with_uuids; [done|]. apply part_update; [done| |done].
  intros r _ Hr. unfold domain_in in Hr. bool_to_prop. split; apply foreign_domain; by left.
Qed.

Lemma wp_GetByProject p Q E s :
  (∀ e, E e s) → (∀ r, r ∈ repositories s → GitRepository.OrgID r = orgID → Q (public_columns r) s) →
  wp (GetByProject orgID p) Q E s.
Proof.
  intros He HQ. unfold GetByProject. cp_step. apply wp_read_row; [done|]. intros r Hr Hc. unfold connected in Hc.
  bool_to_prop. cp_step. auto.
Qed.

Lemma rows_Store_Connect r :
  GitRepository.OrgID r = orgID → GitRepository.ProjectID r = pid → preserves cp_rows (Store_Connect r).
Proof.
  intros Ho Hp. unfold Store_Connect, GetByProject. repeat own_keep.
  all: apply rows_repositories; intros s t Ht; apply part_with_uuids; [done|].
  - apply part_update; [done| |done]. intros x _ Hx. bool_to_prop. split; apply foreign_repository; right; cbn; congruence.
  - apply part_insert; [|done]. apply foreign_repository. by left.
Qed.

Lemma rows_Connect c u i ip ua : preserves cp_rows (Connect c orgID pid u i ip ua).
Proof. unfold Connect, seal_given, audit, publish, allow. repeat own_keep. by apply rows_Store_Connect. Qed.

(** A repository the caller has read. *)
Definition held (id : string) s : Prop :=
  cp_rows s ∧ ∃ x, x ∈ repositories s ∧ GitRepository.ID x = id ∧ own_repository x = false.

Lemma held_repository_update id p f :
  (∀ r, p r = true → GitRepository.ID r = id) →
  (∀ r, GitRepository.ID (f r) = GitRepository.ID r ∧ own_repository (f r) = own_repository r) →
  preserves (held id) (stmt repositories_l (λ _, with_uuids [id] (update_rows p f))).
Proof.
  intros Hp Hf. apply preserves_stmt. intros s [Hs (x & Hx & Hid & Hq)]. unfold with_uuids.
  destruct (forallb _ _); cbn [snd update_rows].
  - destruct Hs as (H1 & H2 & H3 & H4 & H5). split.
    + split_and!; try done. apply part_update; [intros; apply Hf| |done]. intros r Hr E.
      assert (own_repository r = false) as Er.
      { eapply (part_key GitRepository.ID); [exact H5|exact Hx|done|done|]. by rewrite Hid, Hp. }
      split; [done|]. by rewrite (proj2 (Hf r)).
    + eexists. split; [apply elem_of_update_where; by exists x|]. destruct (p x); [|done]. destruct (Hf x). split; congruence.
  - rewrite put_view. split; [done|]. by exists x.
Qed.

Lemma held_Store_Disconnect id : preserves (held id) (Store_Disconnect id).
Proof.
  unfold Store_Disconnect. repeat cp_keep. apply held_repository_update; [|done]. intros r Hr. by bool_to_prop.
Qed.

Lemma held_Store_Update id branch url priv tok : preserves (held id) (Store_Update id branch url priv tok).
Proof.
  unfold Store_Update, set_column, repository_row. cp_keeps; (apply held_repository_update; [|done]); intros r Hr; by bool_to_prop.
Qed.

Lemma wp_held {A} id (m : db (cpdb V) A) s : preserves (held id) m → held id s → wp m (λ _, cp_rows) (λ _, cp_rows) s.
Proof. intros Hm Hs. eapply wp_mono; [by apply (wp_preserves _ _ _ Hm)|..]; cbn beta; by intros ? s' []. Qed.

Lemma rows_Disconnect c p u ip ua : preserves cp_rows (Disconnect c orgID p u ip ua).
Proof.
  unfold Disconnect. own_keep; [unfold allow; own_keeps|]. apply preserves_wp. intros s Hs. cp_step.
  apply wp_GetByProject; [done|]. intros r Hr Ho. cp_step.
  eapply wp_mono; [eapply wp_held; [apply held_Store_Disconnect|]| |done]; cbn beta.
  - split; [done|]. exists r. split; [done|]. split; [done|]. apply foreign_repository. by left.
  - intros [] s1 H1. apply wp_preserves; [|done]. unfold audit, publish. own_keeps.
Qed.

Lemma rows_Repository_Update c p u i ip ua : preserves cp_rows (Repository_Update c orgID p u i ip ua).
Proof.
  unfold Repository_Update. own_keep; [unfold allow; own_keeps|]. apply preserves_wp. intros s Hs. cp_step.
  apply wp_GetByProject; [done|]. intros r Hr Ho.
  assert (held (GitRepository.ID (public_columns r)) s) as Hh.
  { split; [done|]. exists r. split; [done|]. split; [done|]. apply foreign_repository. by left. }
  set (id := GitRepository.ID (public_columns r)) in *. clearbody id. do 3 cp_step.
  assert (held id (put cp_world_l w s)) as H1 by done.
  assert (∀ t s2, held id s2 → wp (out ← Store_Update id (ru_DefaultBranch i) (ru_CloneURL i) (ru_IsPrivate i) t;
    _ ← audit c u orgID "repository.update" "repository" id ip ua; mret out) (λ _, cp_rows) (λ _, cp_rows) s2) as Hup.
  { intros t s2 H2. cp_step. eapply wp_mono; [eapply wp_held; [apply held_Store_Update|exact H2]| |done]; cbn beta.
    intros out s3 H3. apply wp_preserves; [|done]. unfold audit. own_keeps. }
  destruct (ru_AccessToken i) as [tok|]; [destruct (tok =s? "")|]; cp_step; [by apply Hup| |by apply Hup].
  eapply wp_mono; [apply (wp_sealing _ _ (held id)); done|..]; cbn beta; [|by intros e s2 []].
  intros enc s2 H2. cp_step. by apply Hup.
Qed.

Lemma rows_Repository_Get c p : preserves cp_rows (Repository_Get c orgID p).
Proof. unfold Repository_Get, GetByProject, allow. own_keeps. Qed.
End scoped.
End tenants.

(** ** The routes *)

Section routes.
Context {V : Type} `{CW : CpWorld V} `{D : Driver} `{So : Sorter} `{RM : RowMapping} `{J : Jsonb} `{Ae : Aead}.
Context (region : string).
Context `{DProject : Decoder ProjectInput} `{DProjectUpdate : Decoder ProjectUpdate} `{DDuplicate : Decoder DuplicateBody}.
Context `{DDeploy : Decoder DeployInput} `{DRollback : Decoder RollbackBody} `{DConnect : Decoder ConnectInput}.
Context `{DRepository : Decoder RepositoryUpdate} `{DVariable : Decoder VariableInput}.
Context `{DVariableUpdate : Decoder VariableUpdate} `{DSecret : Decoder SecretInput} `{DRotate : Decoder RotateBody}.
Context `{DDomain : Decoder DomainInput}.

(** The lemma of a service, by its name. *)
Ltac served_by H := eapply rows_on_base, base_serves; [eassumption|apply H].

Ltac service_rows :=
  lazymatch goal with
  | |- preserves _ (on_base (Deploy _ _ _ _ _ _ _)) => served_by s_deploy
  | |- preserves _ (on_base (Rollback _ _ _ _ _ _ _)) => served_by s_rollback
  | |- preserves _ (on_base (Cancel _ _ _ _ _ _)) => served_by s_cancel
  | |- preserves _ (on_base (Restart _ _ _ _ _ _)) => served_by s_restart
  | |- preserves _ (on_base (Pause _ _ _ _ _ _)) => served_by s_pause
  | |- preserves _ (on_base (Resume _ _ _ _ _ _)) => served_by s_resume
  | |- preserves _ (on_base (Get _ _ _)) => served_by s_get
  | |- preserves _ (on_base (Service_GetLatest _ _ _)) => served_by s_latest
  | |- preserves _ (on_base (ListHistory _ _ _ _)) => served_by s_history
  | |- preserves _ (on_base (Timeline _ _ _)) => served_by s_timeline
  | |- preserves _ (Project_Get _ _ _) => apply rows_Project_Get
  | |- preserves _ (Project_List _ _ _) => apply rows_Project_List
  | |- preserves _ (Project_Create _ _ _ _ _ _ _) => apply rows_Project_Create
  | |- preserves _ (Project_Update _ _ _ _ _ _ _) => apply rows_Project_Update
  | |- preserves _ (Project_Archive _ _ _ _ _ _) => apply rows_Project_Archive
  | |- preserves _ (Project_Restore _ _ _ _ _ _) => apply rows_Project_Restore
  | |- preserves _ (Project_Delete _ _ _ _ _ _) => apply rows_Project_Delete
  | |- preserves _ (Project_Duplicate _ _ _ _ _ _ _) => apply rows_Project_Duplicate
  | |- preserves _ (Connect _ _ _ _ _ _ _) => apply rows_Connect
  | |- preserves _ (Repository_Get _ _ _) => apply rows_Repository_Get
  | |- preserves _ (Repository_Update _ _ _ _ _ _ _) => apply rows_Repository_Update
  | |- preserves _ (Disconnect _ _ _ _ _ _) => apply rows_Disconnect
  | |- preserves _ (Variable_List _ _ _ _) => apply rows_Variable_List
  | |- preserves _ (Secret_List _ _ _) => apply rows_Secret_List
  | |- preserves _ (Variable_Create _ _ _ _ _ _ _) => apply rows_Variable_Create
  | |- preserves _ (Variable_Update _ _ _ _ _ _ _ _) => apply rows_Variable_Update
  | |- preserves _ (Variable_Delete _ _ _ _ _ _ _) => apply rows_Variable_Delete
  | |- preserves _ (Secret_Create _ _ _ _ _ _ _) => apply rows_Secret_Create
  | |- preserves _ (Secret_Rotate _ _ _ _ _ _ _ _) => apply rows_Secret_Rotate
  | |- preserves _ (Secret_Delete _ _ _ _) => apply rows_Secret_Delete
  | |- preserves _ (Domain_List _ _ _) => apply rows_Domain_List
  | |- preserves _ (Domain_Create _ _ _ _ _ _ _) => apply rows_Domain_Create
  | |- preserves _ (Domain_Delete _ _ _ _ _ _ _) => apply rows_Domain_Delete
  end.

(** C8: a request for an organization changes no row of another: its projects,
    deployments, variables and secrets, and its domains and repositories of all
    projects but the one named in the path, stay as they are (domains and
    repositories of that project do not: [cp_isolated_witness] in CpSim.v). *)
Theorem cp_isolated o TP TD TV TS TM TR m p perm (h : CpHandler (V := V)) x r :
  (m, p, perm, h) ∈ cp_scoped region → path r "orgID" ≠ o →
  preserves (cp_rows o (path r "projectID") TP TD TV TS TM TR) (h x r).
Proof.
  intros Hh Hne. unfold cp_scoped in Hh.
  assert (∀ o', RequirePathParam r "orgID" = Ok o' → o' ≠ o) as Hne'
    by (intros o' E; unfold path in Hne; by rewrite E in Hne).
  repeat (apply elem_of_cons in Hh as [[= -> -> -> ->]|Hh]); [..|by apply elem_of_nil in Hh].
  all: unfold ListProjects, CreateProject, GetProject, UpdateProject, DeleteProject, ArchiveProject, RestoreProject,
    DuplicateProject, handle_Deploy, handle_Rollback, ListDeployments, GetDeployment, GetLatestDeployment,
    DeploymentTimeline, CancelDeployment, ConnectRepository, GetRepository, UpdateRepository, DisconnectRepository,
    ListEnv, CreateEnv, UpdateEnv, DeleteEnv, ListSecrets, CreateSecret, RotateSecret, DeleteSecret, ListDomains,
    CreateDomain, DeleteDomain, PauseProject, ResumeProject, RestartProject, must_param, must_user, cp_decode.
  all: try (destruct (RequirePathParam r "orgID") as [o'|e] eqn:Eo; [apply preserves_known; specialize (Hne' _ eq_refl)|by intros s fs H]).
  all: repeat (cbn beta iota; lazymatch goal with
    | |- preserves _ (mret _) => apply preserves_ret
    | |- preserves _ (of_result _) => apply preserves_of_result
    | |- preserves _ (_ ≫= _) => apply preserves_bind; [|intros ?]
    end).
  all: by service_rows.
Qed.
End routes.
