(* ===== verification/CpSim.v ===== *)
(** * The control plane: a simulated installation

    A world that counts, a cipher that notes what it sealed and for whom, JSON
    bodies with one possible content; requests of the member registered in
    IdentitySim.v, pushes of a provider, and the theorems on the control plane
    applied to them. *)

From Stdlib Require Import Ascii.
From stdpp Require Import pretty.
From S2P Require Import Prelude GoLib Errors Postgres Sql Rbac DeployModel Rows Repository DeploymentFacts Outside ControlPlane DeployService Password BuildModel BuildStore IdentityModel Slug IdentityStore IdentityService Access IdentityFacts IdentityInvariants AuthFacts IdentitySim CpStore CpService Webhook CpAccess CpFacts CpHistory CpTenants.

#[local] Existing Instance sim_clock.
#[local] Existing Instance sim_clock_laws.
#[local] Existing Instance sim_identity.
#[local] Existing Instance sim_digest.
#[local] Existing Instance sim_jwt.
#[local] Existing Instance insertion_sorter.
#[local] Existing Instance strict_driver.
#[local] Existing Instance strict_mapping.

(** ** The cipher

    A sealed text starts with the length of the data it is bound to, in unary. *)

Fixpoint unary (n : nat) : string := match n with O => "." | S n => String "1" (unary n) end.

Fixpoint count (s : string) : nat * string :=
  match s with
  | EmptyString => (O, s)
  | String a r => if bool_decide (a = "1"%char) then let '(n, r) := count r in (S n, r) else (O, r)
  end.

Lemma count_unary n s : count (unary n +:+ s) = (n, s).
Proof.
  induction n as [|n IH]; [done|]. cbn [unary]. change (count (String "1" (unary n +:+ s)) = (S n, s)). cbn [count].
  by rewrite bool_decide_eq_true_2, IH.
Qed.

#[local] Instance sim_aead : Aead := {|
  Seal _ plain data := unary (String.length data) +:+ data +:+ plain;
  Open _ sealed data :=
    let '(n, r) := count sealed in if take_bytes n r =s? data then Some (drop_bytes n r) else None;
|}.

#[local] Instance sim_aead_laws : AeadLaws.
Proof.
  constructor; intros; cbn [Seal Open sim_aead]; rewrite count_unary, take_bytes_app by done.
  - by rewrite String.eqb_refl, drop_bytes_app.
  - rewrite (proj2 (String.eqb_neq _ _)); [done|congruence].
Qed.

(** ** The world: a counter *)

#[local] Instance sim_cp_clock : Clock nat := {| now_of := Z.of_nat; new_uuid n := ("cp-" +:+ pretty n, S n) |}.

#[local] Instance sim_cp : CpWorld nat := {|
  read_nonce n := (Ok "nonce-of-12b", S n);
  read_token _ n := ("token" +:+ pretty n, S n);
|}.

Lemma sim_nonces (w w' : nat) n : read_nonce w = (Ok n, w') → String.length n = NonceSize.
Proof. by intros [= <- _]. Qed.

#[local] Instance sim_json : Jsonb := {| json_object _ := "{}"; jsonb_merge _ b := b |}.

(** Every body is the push of one commit to [body]. *)
#[local] Instance sim_webhooks : WebhookWorld := {|
  parse_github body := Some {| gh_Ref := "refs/heads/main"; gh_After := "c0ffee"; gh_Deleted := false; gh_FullName := "";
    gh_CloneURL := body; gh_HeadID := ""; gh_HeadMessage := ""; gh_AuthorName := ""; gh_AuthorEmail := "" |};
  parse_gitlab _ := None;
  parse_bitbucket _ := None;
  hmacSHA256 key body := key +:+ body;
|}.

(** ** Bodies *)

#[local] Instance decode_project : Decoder ProjectInput := λ name, Ok {|
  pi_Name := name; pi_Slug := ""; pi_Description := ""; pi_RepoURL := ""; pi_RepoProvider := ""; pi_Branch := "";
  pi_DefaultRuntime := ""; pi_Framework := ""; pi_BuildMethod := ""; pi_Region := ""; pi_Visibility := ""; pi_Tags := [] |}.
#[local] Instance decode_duplicate : Decoder DuplicateBody := λ name, Ok {| dup_Name := name |}.
#[local] Instance decode_variable : Decoder VariableInput := λ value, Ok {|
  vi_Key := "PORT"; vi_Value := value; vi_Environment := "production"; vi_IsSecret := false |}.
#[local] Instance decode_value : Decoder VariableUpdate := λ value, Ok {| vu_Value := value |}.
#[local] Instance decode_domain : Decoder DomainInput := λ host, Ok {|
  di_Hostname := host; di_DomainType := ""; di_IsPrimary := true; di_IsPreview := false; di_RedirectTo := "" |}.
#[local] Instance decode_repository : Decoder ConnectInput := λ url, Ok {|
  ci_Provider := "github"; ci_RepoURL := url; ci_CloneURL := url; ci_DefaultBranch := ""; ci_IsPrivate := false;
  ci_AccessToken := ""; ci_DeployKey := "" |}.
#[local] Instance no_other_body A : Decoder A | 100 := λ _, Err (Platform (InvalidArgument "request body is empty")).

(** ** The installation: Ada's organization [id-1], and a project of nobody's *)

Definition other_project : Project := ProjectRow.set_OrgID "other" some_project.

Definition empty_cp : cpdb nat :=
  mkCp (mkControl (mkDb [] [] [] [other_project] [] [] [] [] [] ∅ 0%nat []) [] [] []) [] [] [] [] [] [] [].

Definition start : system sim_world nat := mkSystem running empty_cp.

Definition call (method pattern org project body token : string) : Request :=
  Request.mk method ("/orgs/{orgID}/projects" +:+ pattern)
    (list_to_map [("orgID", org); ("projectID", project); ("envID", "cp-3")])
    {[ "Authorization" := "Bearer " +:+ token ]} "10.0.0.1:1234" body ∅.

Definition serves (r : Request) (s : system sim_world nat) := cp_serve sim_config "eu-west-1" nobody r (s, []).

(** A request of Ada's. *)
Definition ada_call (method pattern project body : string) : Request :=
  call method pattern "id-1" project body (AccessToken tokens).

(** The handlers behind the middleware, called by Ada. *)
Definition ada_ctx : Ctx := Ctx.mk ada "" "".
Definition handled (h : CpHandler (V := nat)) (r : Request) (s : cpdb nat) : cpdb nat := tables_of (h ada_ctx r (s, [])).
Definition answered_ok (h : CpHandler (V := nat)) (r : Request) (s : cpdb nat) : bool := is_ok (h ada_ctx r (s, [])).1.

Definition with_project : cpdb nat := handled (CreateProject "eu-west-1") (ada_call "POST" "" "" "My App") empty_cp.
Definition set_port : Request := ada_call "POST" "/{projectID}/env" "cp-0" "8080".
Definition with_variable : cpdb nat := handled CreateEnv set_port with_project.
Definition change_port : Request := ada_call "PATCH" "/{projectID}/env/{envID}" "cp-0" "9090".

Definition status_of {A} (r : option (ResponseOf CpData) * A) : Z :=
  match r.1 with Some (Success a) => answer_status a | Some (Failure n _ _) => n | None => 0 end.

(** ** The theorems applied *)

Definition succeeded (a : option (ResponseOf CpData)) : bool := match a with Some (Success _) => true | _ => false end.


Lemma history_complete_witness :
  histories (handled UpdateEnv change_port with_variable)
  ∧ (λ v, (VersionRow.Version v, Decrypt (VersionRow.ValueEnc v) (AAD "id-1" "cp-0")))
      <$> variable_versions (handled UpdateEnv change_port with_variable) = [(1, Ok "8080")].
Proof.
  split; [|vm_compute; reflexivity].
  assert (histories empty_cp) as H0 by (split; (split; [constructor|intros ? []%elem_of_nil..])).
  assert (∀ m p perm h r s, (m, p, perm, h) ∈ cp_scoped "eu-west-1" → histories s → histories (handled h r s)) as Hk.
  { intros m p perm h r s Hh Hs. by apply (history_complete "eu-west-1" m p perm h ada_ctx r Hh). }
  apply (Hk "PATCH" "/orgs/{orgID}/projects/{projectID}/env/{envID}" PermProjectWrite); [by do 21 right; left|].
  apply (Hk "POST" "/orgs/{orgID}/projects/{projectID}/env" PermProjectWrite); [by do 20 right; left|].
  apply (Hk "POST" "/orgs/{orgID}/projects" PermProjectWrite); [by right; left|exact H0].
Defined.

Lemma Variable_Update_seals_witness :
  match Variable_Update ada "id-1" "cp-0" "cp-3" "id-0" "9090" "" "" (with_variable, []) with
  | (Ok v, (s', _)) => VariableView.Value v = "9090"
      ∧ variable_resealed "cp-3" (AAD "id-1" "cp-0") "9090" "id-0" with_variable s'
  | (Err _, _) => False
  end.
Proof.
  pose proof (Variable_Update_seals sim_nonces ada "id-1" "cp-0" "cp-3" "id-0" "9090" "" "" with_variable []) as H.
  assert (is_ok (Variable_Update ada "id-1" "cp-0" "cp-3" "id-0" "9090" "" "" (with_variable, [])).1 = true) as E
    by (vm_compute; reflexivity).
  revert H E. generalize (Variable_Update ada "id-1" "cp-0" "cp-3" "id-0" "9090" "" "" (with_variable, [])).
  intros [[v|e] [s' fs]] H E; [|discriminate E]. destruct H as (_ & Hr & _ & Hv). exact (conj Hv Hr).
Defined.

(** Ada's requests with the identifier of a project that is not hers. *)
Definition foreign_domain_ : Domain :=
  Domain.mk "dom" "other" "p" "app.example.org" "custom" true false "verified" "issued" "" "{}" 0 0 None.
Definition foreign_repo : GitRepository :=
  GitRepository.mk "repo" "p" "other" ProviderGitHub "https://git/x" "" "main" false "" "" "" None 0 0 None.
Definition busy : cpdb nat := set_domains [foreign_domain_] (set_repositories [foreign_repo] empty_cp).

(** The other organization keeps what the theorem says; its domain in that
    project is no longer primary, and its repository is disconnected. *)
Lemma cp_isolated_witness :
  (let s := handled CreateDomain (ada_call "POST" "/{projectID}/domains" "p" "mine.example.org") busy in
   cp_rows "other" "p" [other_project] [] [] [] [] [] s
   ∧ Domain.IsPrimary <$> domains s = [false; true])
  ∧ (let s := handled ConnectRepository (ada_call "POST" "/{projectID}/repository" "p" "https://git/y") busy in
     cp_rows "other" "p" [other_project] [] [] [] [] [] s
     ∧ (λ r, unset (GitRepository.DisconnectedAt r)) <$> repositories s = [false; true]).
Proof.
  assert (cp_rows "other" "p" [other_project] [] [] [] [] [] busy) as H.
  { repeat split; try (apply (bool_decide_unpack _); vm_compute; exact I). }
  assert (∀ m p perm h r, (m, p, perm, h) ∈ cp_scoped "eu-west-1" → path r "orgID" ≠ "other" → path r "projectID" = "p" →
    cp_rows "other" "p" [other_project] [] [] [] [] [] (handled h r busy)) as Hk.
  { intros m p perm h r Hh Ho Hp.
    pose proof (cp_isolated "eu-west-1" "other" [other_project] [] [] [] [] [] m p perm h ada_ctx r Hh Ho) as K.
    rewrite Hp in K. exact (K busy [] H). }
  split; (split; [|vm_compute; reflexivity]).
  - apply (Hk "POST" "/orgs/{orgID}/projects/{projectID}/domains" PermProjectWrite);
      [by do 28 right; left|vm_compute; discriminate|vm_compute; reflexivity].
  - apply (Hk "POST" "/orgs/{orgID}/projects/{projectID}/repository" PermProjectWrite);
      [by do 16 right; left|vm_compute; discriminate|vm_compute; reflexivity].
Defined.

(** ** What the handlers do *)

(** The variables of a project can be listed as long as there is none. *)
Example variables_cannot_be_listed :
  answered_ok ListEnv (ada_call "GET" "/{projectID}/env" "cp-0" "") with_project = true
  ∧ answered_ok ListEnv (ada_call "GET" "/{projectID}/env" "cp-0" "") with_variable = false.
Proof. vm_compute. split; reflexivity. Qed.

(** The deletion of a project is answered with an error, once the row has been
    deleted: its status remains, and there is no event. *)
Example deletion_answers_an_error :
  let r := ada_call "DELETE" "/{projectID}/" "cp-0" "" in
  answered_ok DeleteProject r with_project = false
  ∧ (λ p, (Project.Status p, Project.kept p)) <$> projects (rows (base (handled DeleteProject r with_project)))
    = [(Project.Status other_project, true); (Project.StatusActive, false)].
Proof. vm_compute. split; reflexivity. Qed.

(** Two copies of a project. *)
Example copies_are_numbered :
  Project.Slug <$> projects (rows (base (handled DuplicateProject (ada_call "POST" "/{projectID}/duplicate" "cp-0" "My App")
    (handled DuplicateProject (ada_call "POST" "/{projectID}/duplicate" "cp-0" "My App") with_project))))
  = ["app"; "my-app"; "my-app-1"; "my-app-2"].
Proof. vm_compute. reflexivity. Qed.

(** A push for a connected repository: an error, and success when it is
    delivered again; nothing has been deployed. *)
Definition hooks : WebhookSecrets := {| GitHub := "s"; GitLab := ""; Bitbucket := "" |}.
Definition push (signature : list (string * string)) (body : string) (s : cpdb nat) :=
  Handle hooks guest "github"
    (Request.mk "POST" "/github" ∅ (list_to_map ([("X-GitHub-Event", "push"); ("X-GitHub-Delivery", "d-1")] ++ signature))
       "10.0.0.1:1234" "" ∅) (Some body) (s, []).

Example push_fails_then_succeeds :
  let first := push [("X-Hub-Signature-256", "sha256=shttps://git/x")] "https://git/x" busy in
  let again := push [("X-Hub-Signature-256", "sha256=shttps://git/x")] "https://git/x" (tables_of first) in
  is_ok first.1 = false ∧ is_ok again.1 = true ∧ deployments (rows (base (tables_of again))) = []
  ∧ length (deliveries (tables_of again)) = 1%nat.
Proof. vm_compute. repeat split; reflexivity. Qed.

(** A wrong signature is refused, none at all is not; the empty address names
    the repository of whom it may concern. *)
Example unsigned_pushes_pass :
  length (deliveries (tables_of (push [("X-Hub-Signature-256", "sha256=0")] "" busy))) = 0%nat
  ∧ length (deliveries (tables_of (push [] "" busy))) = 1%nat
  ∧ names "" foreign_repo = true ∧ names "%" foreign_repo = true ∧ names "https://git/y" foreign_repo = false.
Proof. vm_compute. repeat split; reflexivity. Qed.

(** A domain that cannot be added takes the primary domain of its project
    nonetheless. *)
Example refused_domain_unsets_primary :
  let r := ada_call "POST" "/{projectID}/domains" "p" "app.example.org" in
  answered_ok CreateDomain r busy = false ∧ Domain.IsPrimary <$> domains (handled CreateDomain r busy) = [false].
Proof. vm_compute. split; reflexivity. Qed.
