(* ===== verification/AgentModel.v ===== *)
(** * The runtime agent: data, tables and the Docker client
    (packages/application/runtimeagent/model, schema.go, store, events, docker)

    The Docker engine is the class [AgentWorld], an operation per call of the
    SDK; it is part of the state.  An error the agent returns may be a nil
    [*errors.Error] inside a non-nil [error] ([Nil_ptr]): [errors.Wrap] returns
    a pointer, and [return errors.Wrap(err, ..)] in a function of type [error]
    converts it.  Metrics and log output are left out. *)

From stdpp Require Import pretty.
From S2P Require Import Prelude GoLib Errors Postgres Sql Rbac DeployModel Rows Repository Outside ControlPlane Password IdentityModel Slug IdentityStore IdentityService Access Placement.

(** ** Errors as values of the interface *)

(** A value of type [error] that is not the nil interface. *)
Inductive err_value := Nil_ptr | Value (e : error).

(** [return p] of a [*errors.Error] as [error]. *)
Definition of_pointer {A} (p : option Error) : result err_value A :=
  Err (match p with Some e => Value (Platform e) | None => Nil_ptr end).

Definition go_bind {S A B} (m : db S (result err_value A)) (k : A → db S (result err_value B))
    : db S (result err_value B) :=
  r ← m; match r with Ok a => k a | Err f => mret (Err f) end.
Notation "x ←? m ; k" := (go_bind m (λ x, k)) (at level 20, m at level 100, k at level 200, right associativity) : go_scope.

(** The error of a statement as a value. *)
Definition checked {S A} (m : db S A) : db S (result err_value A) :=
  r ← attempt m; mret (match r with Ok a => Ok a | Err e => Err (Value e) end).

Definition returns {S A} (a : A) : db S (result err_value A) := mret (Ok a).
Definition fails {S A} (e : error) : db S (result err_value A) := mret (Err (Value e)).

(** ** Data (model.go) *)

Abbreviation ContainerStatus := string (only parsing).
Definition StatusCreated : ContainerStatus := "created".
Definition StatusPreparing : ContainerStatus := "preparing".
Definition StatusStarting : ContainerStatus := "starting".
Definition StatusRunning : ContainerStatus := "running".
Definition StatusStopping : ContainerStatus := "stopping".
Definition StatusStopped : ContainerStatus := "stopped".
Definition StatusRestarting : ContainerStatus := "restarting".
Definition StatusPaused : ContainerStatus := "paused".
Definition StatusFailed : ContainerStatus := "failed".
Definition StatusDeleted : ContainerStatus := "deleted".

Module ContainerRecord.
Record t := mk {
  ID : string; ContainerID : string; DeploymentID : string; Name : string; Image : string;
  Status : ContainerStatus; HostPort : Z; ContainerPort : Z; RestartCount : Z; OOMKilled : bool;
  CorrelationID : string; Metadata : option string; CreatedAt : Time; StartedAt : option Time;
  StoppedAt : option Time; UpdatedAt : Time
}.
Definition zero : t := mk "" "" "" "" "" "" 0 0 0 false "" None 0 None None 0.
End ContainerRecord.
Abbreviation ContainerRecord := ContainerRecord.t.

Module CreateRequest.
Record t := mk {
  DeploymentID : string; Image : string; Env : gmap string string; Secrets : gmap string string;
  Labels : gmap string string; Port : Z; HostPort : Z; Network : string; CorrelationID : string
}.
End CreateRequest.
Abbreviation CreateRequest := CreateRequest.t.

Module AgentInfo.
Record t := mk { ID : string; Name : string; Host : string; Port : Z; Image : string; Status : ContainerStatus }.
End AgentInfo.
Abbreviation AgentInfo := AgentInfo.t.

Module HealthReport.
Record t := mk {
  ContainerID : string; Healthy : bool; CPUPercent : f64; MemoryMB : Z; Restarts : Z; OOMKilled : bool; Message : string
}.
End HealthReport.
Abbreviation HealthReport := HealthReport.t.

Module LogLine.
Record t := mk { ContainerID : string; Stream : string; Line : string; CorrelationID : string; Timestamp : Time }.
End LogLine.
Abbreviation LogLine := LogLine.t.

(** [config.RuntimeAgent] *)
Module AgentConfig.
Record t := mk {
  InternalPort : Z; SchedulerURL : string; AdvertiseHost : string; AdvertisePort : Z; Region : string;
  AvailabilityZone : string; InstanceType : string; DockerNetwork : string; MaxContainers : Z; CPUCores : f64;
  MemoryMB : Z; DiskGB : Z; GPUCount : Z; RestartMaxAttempts : Z; Version : string
}.
End AgentConfig.
Abbreviation AgentConfig := AgentConfig.t.

(** ** Events (events/publisher.go) *)

Definition ContainerCreated : string := "runtime.container_created".
Definition ContainerStarted : string := "runtime.container_started".
Definition ContainerStopped : string := "runtime.container_stopped".
Definition ContainerRestarted : string := "runtime.container_restarted".
Definition ContainerDeleted : string := "runtime.container_deleted".
Definition HealthUpdated : string := "runtime.health_updated".
Definition MetricsCollected : string := "runtime.metrics_collected".
Definition ImagePulled : string := "runtime.image_pulled".
Definition ImageDeleted : string := "runtime.image_deleted".
Definition HeartbeatSent : string := "runtime.heartbeat_sent".

Module EventMeta.
Record t := mk { EventID : string; ContainerID : string; DeploymentID : string; CorrelationID : string; ServerID : string }.
End EventMeta.
Abbreviation EventMeta := EventMeta.t.
Definition meta0 : EventMeta := EventMeta.mk "" "" "" "" "".

(** The values the agent publishes with its events. *)
Inductive EventData :=
  | NoData
  | ImageData (image : string)
  | CountData (key : string) (n : Z)
  | ReportData (r : HealthReport)
  | TotalsData (cpu : f64) (mem containers : Z).

(** ** Tables (schema.go) *)

Module Transition.
Record t := mk { ID : string; ContainerID : string; From : string; To : string; Message : string; CreatedAt : Time }.
End Transition.
Module HealthCheck.
Record t := mk {
  ID : string; ContainerID : string; CheckType : string; Success : bool; CPUPercent : f64; MemoryMB : Z;
  Message : string; CreatedAt : Time
}.
End HealthCheck.
Module EventRow.
Record t := mk {
  ID : string; EventType : string; ContainerID : string; DeploymentID : string; CorrelationID : string;
  Metadata : EventData; CreatedAt : Time
}.
End EventRow.
Module LogRow.
Record t := mk { ID : string; line : LogLine }.
End LogRow.

(** The agent's database, its bus and the engine it drives. *)
Record agentdb (W : Type) := mkAgent {
  rt_containers : list ContainerRecord; rt_transitions : list Transition.t; rt_checks : list HealthCheck.t;
  rt_events : list EventRow.t; rt_logs : list LogRow.t; rt_bus : list (string * EventMeta * EventData); rt_world : W
}.
Arguments mkAgent {W}.
Arguments rt_containers {W}.
Arguments rt_transitions {W}.
Arguments rt_checks {W}.
Arguments rt_events {W}.
Arguments rt_logs {W}.
Arguments rt_bus {W}.
Arguments rt_world {W}.

Section lenses.
Context {W : Type}.
Implicit Types s : agentdb W.

Definition rt_containers_l : Lens (agentdb W) (list ContainerRecord).
Proof. refine {| view := rt_containers;
  put x s := mkAgent x (rt_transitions s) (rt_checks s) (rt_events s) (rt_logs s) (rt_bus s) (rt_world s) |};
  by first [intros ? []|intros []]. Defined.
Definition rt_transitions_l : Lens (agentdb W) (list Transition.t).
Proof. refine {| view := rt_transitions;
  put x s := mkAgent (rt_containers s) x (rt_checks s) (rt_events s) (rt_logs s) (rt_bus s) (rt_world s) |};
  by first [intros ? []|intros []]. Defined.
Definition rt_checks_l : Lens (agentdb W) (list HealthCheck.t).
Proof. refine {| view := rt_checks;
  put x s := mkAgent (rt_containers s) (rt_transitions s) x (rt_events s) (rt_logs s) (rt_bus s) (rt_world s) |};
  by first [intros ? []|intros []]. Defined.
Definition rt_events_l : Lens (agentdb W) (list EventRow.t).
Proof. refine {| view := rt_events;
  put x s := mkAgent (rt_containers s) (rt_transitions s) (rt_checks s) x (rt_logs s) (rt_bus s) (rt_world s) |};
  by first [intros ? []|intros []]. Defined.
Definition rt_logs_l : Lens (agentdb W) (list LogRow.t).
Proof. refine {| view := rt_logs;
  put x s := mkAgent (rt_containers s) (rt_transitions s) (rt_checks s) (rt_events s) x (rt_bus s) (rt_world s) |};
  by first [intros ? []|intros []]. Defined.
Definition rt_bus_l : Lens (agentdb W) (list (string * EventMeta * EventData)).
Proof. refine {| view := rt_bus;
  put x s := mkAgent (rt_containers s) (rt_transitions s) (rt_checks s) (rt_events s) (rt_logs s) x (rt_world s) |};
  by first [intros ? []|intros []]. Defined.
Definition rt_world_l : Lens (agentdb W) W.
Proof. refine {| view := rt_world;
  put x s := mkAgent (rt_containers s) (rt_transitions s) (rt_checks s) (rt_events s) (rt_logs s) (rt_bus s) x |};
  by first [intros ? []|intros []]. Defined.
End lenses.

(** ** The Docker engine *)

(** What [ContainerCreate] is asked for. *)
Record CreateSpec := {
  spec_Image : string; spec_Env : list string; spec_Labels : gmap string string; spec_Exposed : string;
  spec_Binding : option (string * string); spec_RestartPolicy : string; spec_Network : string; spec_Name : string;
}.

(** What the client reads of an inspection: [insp_Ports] are the host ports of
    each port's bindings, in the order the range visits the ports. *)
Record Inspected := {
  insp_ID : string; insp_Name : string; insp_Image : string; insp_Status : string; insp_Ports : list (list string);
}.

(** An entry of the list of containers; the engine gives every container a
    name. *)
Record Listed := { list_ID : string; list_Name0 : string; list_Image : string; list_State : string; list_Labels : gmap string string }.

(** Calls of the SDK, the request of the heartbeat and the order of a range over
    a map.  [ContainerStats] gives memory usage and total CPU usage as
    encoding/json leaves them for the first frame read, two [uint64]. *)
Class AgentWorld (W : Type) := {
  agent_env :: Environment W;
  range_map : gmap string string → W → list (string * string) * W;
  NetworkInspect : string → W → option error * W;
  NetworkCreate : string → string → W → option error * W;
  ImagePull : string → W → option error * W;
  ContainerCreate : CreateSpec → W → result error string * W;
  ContainerStart : string → W → option error * W;
  ContainerStop : string → Z → W → option error * W;
  ContainerRemove : string → W → option error * W;
  ContainerRestart : string → Z → W → option error * W;
  ContainerInspect : string → W → result error Inspected * W;
  ContainerStats : string → W → result error (Z * Z) * W;
  ContainerLogs : string → string → W → result error string * W;
  ImagesPrune : W → result error Z * W;
  ContainerList : W → result error (list Listed) * W;
  ServerVersion : W → result error (string * string) * W;
  PostHeartbeat : string → HeartbeatPayload → W → option error * W;
  range_map_perm m w : (range_map m w).1 ≡ₚ map_to_list m;
  stats_range id w u t : (ContainerStats id w).1 = Ok (u, t) → 0 ≤ u < 2 ^ 64 ∧ 0 ≤ t < 2 ^ 64;
}.

(** ** The Docker client (docker/client.go) *)

Module DockerClient.
Record t := mk { network : string; host : string }.
End DockerClient.
Abbreviation DockerClient := DockerClient.t.

(** [NewClient], past the construction of the SDK's client. *)
Definition NewClient (cfg : AgentConfig) : DockerClient :=
  DockerClient.mk (or_else (AgentConfig.DockerNetwork cfg) "agnivo") (or_else (AgentConfig.AdvertiseHost cfg) "127.0.0.1").

Definition containerName (deploymentID : string) : string :=
  "agnivo-" +:+ (if (12 <? String.length deploymentID)%nat then take_bytes 12 deploymentID else deploymentID).

Definition mapDockerStatus (s : string) : ContainerStatus :=
  let l := ToLower s in
  if l =s? "running" then StatusRunning
  else if l =s? "created" then StatusCreated
  else if l =s? "paused" then StatusPaused
  else if l =s? "restarting" then StatusRestarting
  else if (l =s? "removing") || (l =s? "dead") || (l =s? "exited") then StatusStopped
  else s.

Definition stripDockerLogHeader (s : string) : string :=
  if (8 <? String.length s)%nat then drop_bytes 8 s else s.

(** The line feed, which separates the lines of a log. *)
Definition lf : Ascii.ascii := Ascii.ascii_of_nat 10.

(** [int(timeout.Seconds())] with the client's default. *)
Definition stop_seconds (timeout : Duration) : Z :=
  let secs := int64_of_f64 (Seconds timeout) in if secs <? 1 then 10 else secs.

(** The last port of which a binding has a number: [break] leaves one range. *)
Fixpoint first_port (bindings : list string) : option Z :=
  match bindings with
  | [] => None
  | b :: l => match Atoi b with Some p => Some p | None => first_port l end
  end.

Definition inspected_port (ports : list (list string)) : Z :=
  foldl (λ port bindings, default port (first_port bindings)) 0 ports.

(** What the statements of the repository set of a container. *)
Module ContainerRow.
(** The [DO UPDATE] of the upsert. *)
Definition renew (rec r : ContainerRecord) (now : Time) : ContainerRecord :=
  ContainerRecord.mk (ContainerRecord.ID r) (ContainerRecord.ContainerID r) (ContainerRecord.DeploymentID r)
    (ContainerRecord.Name r) (ContainerRecord.Image r) (ContainerRecord.Status rec) (ContainerRecord.HostPort rec)
    (ContainerRecord.ContainerPort r) (ContainerRecord.RestartCount rec) (ContainerRecord.OOMKilled rec)
    (ContainerRecord.CorrelationID r) (ContainerRecord.Metadata r) (ContainerRecord.CreatedAt r)
    (ContainerRecord.StartedAt r) (ContainerRecord.StoppedAt r) now.
(** The row of the insert. *)
Definition inserted (rec : ContainerRecord) (id : string) (now : Time) : ContainerRecord :=
  ContainerRecord.mk id (ContainerRecord.ContainerID rec) (ContainerRecord.DeploymentID rec) (ContainerRecord.Name rec)
    (ContainerRecord.Image rec) (ContainerRecord.Status rec) (ContainerRecord.HostPort rec)
    (ContainerRecord.ContainerPort rec) (ContainerRecord.RestartCount rec) (ContainerRecord.OOMKilled rec)
    (ContainerRecord.CorrelationID rec) (Some (default "{}" (ContainerRecord.Metadata rec))) now None None now.
(** The UPDATE of the status. *)
Definition moved (to : ContainerStatus) (now : Time) (r : ContainerRecord) : ContainerRecord :=
  ContainerRecord.mk (ContainerRecord.ID r) (ContainerRecord.ContainerID r) (ContainerRecord.DeploymentID r)
    (ContainerRecord.Name r) (ContainerRecord.Image r) to (ContainerRecord.HostPort r) (ContainerRecord.ContainerPort r)
    (ContainerRecord.RestartCount r) (ContainerRecord.OOMKilled r) (ContainerRecord.CorrelationID r)
    (ContainerRecord.Metadata r) (ContainerRecord.CreatedAt r)
    (if to =s? "running" then Some (default now (ContainerRecord.StartedAt r)) else ContainerRecord.StartedAt r)
    (if (to =s? "stopped") || (to =s? "deleted") || (to =s? "failed") then Some now else ContainerRecord.StoppedAt r) now.
End ContainerRow.

Section client.
Context {W : Type} `{AW : AgentWorld W} `{D : Driver} (c : DockerClient).

Definition engine {A} (op : W → A * W) : db (agentdb W) A := draw rt_world_l op.

Definition EnsureNetwork : db (agentdb W) (result err_value unit) :=
  err ← engine (NetworkInspect (DockerClient.network c));
  match err with
  | None => returns tt
  | Some _ =>
      err ← engine (NetworkCreate (DockerClient.network c) "bridge");
      mret (of_pointer (Wrap err CodeFailedPrecond "runtime: create network"))
  end.

Definition PullImage (ref : string) : db (agentdb W) (result err_value unit) :=
  err ← engine (ImagePull ref);
  mret (match err with
        | Some _ => of_pointer (Wrap err CodeFailedPrecond "runtime: pull image")
        | None => Ok tt
        end).

Definition pair_text (kv : string * string) : string := kv.1 +:+ "=" +:+ kv.2.

Definition CreateContainer (req : CreateRequest) : db (agentdb W) (result err_value AgentInfo) :=
  if CreateRequest.Image req =s? "" then fails (Platform (New CodeInvalidArgument "runtime: empty image"))
  else
    let name := containerName (CreateRequest.DeploymentID req) in
    let port := if CreateRequest.Port req <=? 0 then 8080 else CreateRequest.Port req in
    let exposed := pretty port +:+ "/tcp" in
    env ← engine (range_map (CreateRequest.Env req));
    secrets ← engine (range_map (CreateRequest.Secrets req));
    created ← engine (ContainerCreate {|
      spec_Image := CreateRequest.Image req; spec_Env := (pair_text <$> env) ++ (pair_text <$> secrets);
      spec_Labels := CreateRequest.Labels req ∪ {[ "agnivo.deployment_id" := CreateRequest.DeploymentID req ]};
      spec_Exposed := exposed;
      spec_Binding := if 0 <? CreateRequest.HostPort req then Some (exposed, pretty (CreateRequest.HostPort req)) else None;
      spec_RestartPolicy := "unless-stopped";
      spec_Network := or_else (CreateRequest.Network req) (DockerClient.network c); spec_Name := name |});
    mret (match created with
          | Err e => of_pointer (Wrap (Some e) CodeFailedPrecond "runtime: create container")
          | Ok id => Ok (AgentInfo.mk id name (DockerClient.host c) (CreateRequest.HostPort req) (CreateRequest.Image req)
                           StatusCreated)
          end).

Definition StartContainer (id : string) : db (agentdb W) (result err_value unit) :=
  err ← engine (ContainerStart id);
  mret (of_pointer (Wrap err CodeFailedPrecond "runtime: start container")).

Definition StopContainer (id : string) (timeout : Duration) : db (agentdb W) (result err_value unit) :=
  err ← engine (ContainerStop id (stop_seconds timeout));
  mret (of_pointer (Wrap err CodeFailedPrecond "runtime: stop container")).

Definition RemoveContainer (id : string) : db (agentdb W) (result err_value unit) :=
  err ← engine (ContainerRemove id);
  mret (of_pointer (Wrap err CodeFailedPrecond "runtime: remove container")).

Definition RestartContainer (id : string) (timeout : Duration) : db (agentdb W) (result err_value unit) :=
  err ← engine (ContainerRestart id (stop_seconds timeout));
  mret (of_pointer (Wrap err CodeFailedPrecond "runtime: restart container")).

Definition InspectContainer (id : string) : db (agentdb W) (result err_value AgentInfo) :=
  r ← engine (ContainerInspect id);
  mret (match r with
        | Err e => of_pointer (Wrap (Some e) CodeNotFound "runtime: inspect container")
        | Ok i => Ok (AgentInfo.mk (insp_ID i) (insp_Name i) (DockerClient.host c) (inspected_port (insp_Ports i))
                        (insp_Image i) (mapDockerStatus (insp_Status i)))
        end).

(** [cpuPercent], [memoryMB] and the error. *)
Definition Stats (id : string) : db (agentdb W) (result err_value (f64 * Z)) :=
  r ← engine (ContainerStats id);
  mret (match r with
        | Err e => Err (Value e)
        | Ok (usage, total) =>
            Ok (if 0 <? total then fdiv (f64_of_Z total) (f64_of_Z 10000000) else f0, usage / (1024 * 1024))
        end).

Definition StreamLogs (id : string) (tail : Z) : db (agentdb W) (result err_value (list string)) :=
  r ← engine (ContainerLogs id (pretty (if tail <=? 0 then 100 else tail)));
  mret (match r with
        | Err e => Err (Value e)
        | Ok raw => Ok (filter (λ l, l ≠ "") ((λ l, TrimSpace (stripDockerLogHeader l)) <$> Split raw lf))
        end).

Definition PruneImages : db (agentdb W) (result err_value Z) :=
  r ← engine ImagesPrune; mret (match r with Ok n => Ok n | Err e => Err (Value e) end).

Definition managed (l : Listed) : bool :=
  match list_Labels l !! "agnivo.deployment_id" with
  | Some _ => true
  | None => HasPrefix (list_Name0 l) "/agnivo-"
  end.

Definition ListManagedContainers : db (agentdb W) (result err_value (list AgentInfo)) :=
  r ← engine ContainerList;
  mret (match r with
        | Err e => Err (Value e)
        | Ok l => Ok ((λ l, AgentInfo.mk (list_ID l) (TrimPrefix (list_Name0 l) "/") "" 0 (list_Image l)
                              (mapDockerStatus (list_State l))) <$> filter (λ l, managed l = true) l)
        end).

(** The version and the kernel's; the caller drops the error. *)
Definition Version : db (agentdb W) (string * string) :=
  r ← engine ServerVersion; mret (match r with Ok v => v | Err _ => ("", "") end).

(** ** The repository (store/repository.go) *)

Definition rt_now : db (agentdb W) Time := engine read_clock.
Definition rt_id : db (agentdb W) string := engine fresh_id.

(** An INT parameter. *)
Definition int4 (z : Z) : bool := (- 2 ^ 31 <=? z) && (z <? 2 ^ 31).
Definition out_of_int4 : error := Plain "value is out of range for int4".

Definition for_container (id : string) (r : ContainerRecord) : bool := ContainerRecord.ContainerID r =s? id.

Definition upsert_container (rec : ContainerRecord) (now : Time) (t : list ContainerRecord)
    : result error unit * list ContainerRecord :=
  if negb (int4 (ContainerRecord.HostPort rec) && int4 (ContainerRecord.ContainerPort rec)
           && int4 (ContainerRecord.RestartCount rec)) then (Err out_of_int4, t)
  else if matched (for_container (ContainerRecord.ContainerID rec)) t =? 0 then
    if matched (λ r, ContainerRecord.ID r =s? ContainerRecord.ID rec) t =? 0
    then (Ok tt, t ++ [ContainerRow.inserted rec (ContainerRecord.ID rec) now]) else (Err duplicate_key, t)
  else (Ok tt, update_where (for_container (ContainerRecord.ContainerID rec)) (λ r, ContainerRow.renew rec r now) t).

(** [rec] with the identifier it is given when it has none. *)
Definition with_record_id (id : string) (rec : ContainerRecord) : ContainerRecord :=
  ContainerRecord.mk (or_else (ContainerRecord.ID rec) id) (ContainerRecord.ContainerID rec)
    (ContainerRecord.DeploymentID rec) (ContainerRecord.Name rec) (ContainerRecord.Image rec) (ContainerRecord.Status rec)
    (ContainerRecord.HostPort rec) (ContainerRecord.ContainerPort rec) (ContainerRecord.RestartCount rec)
    (ContainerRecord.OOMKilled rec) (ContainerRecord.CorrelationID rec) (ContainerRecord.Metadata rec)
    (ContainerRecord.CreatedAt rec) (ContainerRecord.StartedAt rec) (ContainerRecord.StoppedAt rec)
    (ContainerRecord.UpdatedAt rec).

Definition UpsertContainer (rec : ContainerRecord) : db (agentdb W) unit :=
  id ← (if ContainerRecord.ID rec =s? "" then rt_id else mret "");
  now ← rt_now;
  translate "runtime: upsert container" (stmt rt_containers_l (λ _, upsert_container (with_record_id id rec) now)).

Definition SetStatus (id : string) (from to : ContainerStatus) (message : string) : db (agentdb W) unit :=
  Transact_in rt_world_l (
    now ← rt_now;
    _ ← translate "runtime: set status"
          (stmt rt_containers_l (λ _, update_rows (for_container id) (ContainerRow.moved to now)));
    tid ← rt_id;
    done_ (translate "runtime: transition"
      (stmt rt_transitions_l (λ _, insert_row Transition.ID (Transition.mk tid id from to message now))))).

Definition GetByContainerID (id : string) : db (agentdb W) ContainerRecord :=
  translate "runtime: get container" (stmt rt_containers_l (λ _, select_row (for_container id))).

Definition not_deleted (r : ContainerRecord) : bool :=
  negb ((ContainerRecord.Status r =s? "deleted") || (ContainerRecord.Status r =s? "failed")).

Context `{So : Sorter}.

Definition newest_first (a b : ContainerRecord) : bool := ContainerRecord.CreatedAt b <? ContainerRecord.CreatedAt a.

Definition ListActive : db (agentdb W) (list ContainerRecord) :=
  translate "runtime: list containers"
    (stmt rt_containers_l (λ _ t, (Ok (sort_slice newest_first (select not_deleted t)), t))).

Definition RecordHealth (id checkType : string) (success : bool) (cpu : f64) (mem : Z) (message : string)
    : db (agentdb W) unit :=
  hid ← rt_id;
  now ← rt_now;
  done_ (translate "runtime: record health"
    (stmt rt_checks_l (λ _, insert_row HealthCheck.ID (HealthCheck.mk hid id checkType success cpu mem message now)))).

Definition AppendLog (id stream line correlationID : string) : db (agentdb W) unit :=
  lid ← rt_id;
  now ← rt_now;
  done_ (translate "runtime: append log"
    (stmt rt_logs_l (λ _, insert_row LogRow.ID (LogRow.mk lid (LogLine.mk id stream line correlationID now))))).

Definition ListLogs (id : string) (limit : Z) : db (agentdb W) (list LogLine) :=
  translate "runtime: list logs" (stmt rt_logs_l (λ _ t,
    (limit_rows (if limit <=? 0 then 100 else limit)
       (sort_slice (λ a b, LogLine.Timestamp b <? LogLine.Timestamp a)
          (select (λ l, LogLine.ContainerID l =s? id) (LogRow.line <$> t))), t))).

Definition counted (r : ContainerRecord) : bool :=
  (ContainerRecord.Status r =s? "running") || (ContainerRecord.Status r =s? "starting")
  || (ContainerRecord.Status r =s? "restarting").

Definition CountActive : db (agentdb W) Z :=
  translate "runtime: count active" (stmt rt_containers_l (λ _ t, (Ok (matched counted t), t))).

(** ** The publisher *)

(** [Insert] of the event repository. *)
Definition InsertEvent (eventType : string) (meta : EventMeta) (data : EventData) : db (agentdb W) unit :=
  now ← rt_now;
  done_ (translate "runtime events: insert" (stmt rt_events_l (λ _, insert_row EventRow.ID
    (EventRow.mk (EventMeta.EventID meta) eventType (EventMeta.ContainerID meta) (EventMeta.DeploymentID meta)
       (EventMeta.CorrelationID meta) data now)))).

Definition emit (ev : string * EventMeta * EventData) : db (agentdb W) unit := λ '(s, fs),
  (Ok tt, (put rt_bus_l (rt_bus s ++ [ev]) s, fs)).

(** The row, then the bus, which has no subscriber. *)
Definition Publish (eventType : string) (meta : EventMeta) (data : EventData) : db (agentdb W) unit :=
  id ← (if EventMeta.EventID meta =s? "" then rt_id else mret (EventMeta.EventID meta));
  let meta := EventMeta.mk id (EventMeta.ContainerID meta) (EventMeta.DeploymentID meta) (EventMeta.CorrelationID meta)
                (EventMeta.ServerID meta) in
  _ ← InsertEvent eventType meta data;
  emit (eventType, meta, data).
End client.
