(* ===== verification/Agent.v ===== *)
(** * The runtime agent: operations
    (packages/application/runtimeagent/executor, health, recovery, heartbeat, http)

    The lifecycle of containers, the three background loops and the internal HTTP
    API.  A round of a loop is a computation; [rounds] runs [n] of them. *)

From stdpp Require Import pretty.
From S2P Require Import Prelude GoLib Errors Postgres Sql Rbac DeployModel Rows Repository Outside ControlPlane Password IdentityModel Slug IdentityStore IdentityService Access Placement AgentModel.

(** The middleware of internal servers (platform/httpx/middleware/auth.go). *)
Record InternalAuth := { InternalServiceToken : string; production : bool }.

(** [None]: the request is passed on. *)
Definition InternalServiceAuth (a : InternalAuth) (r : Request) : option error :=
  if negb (InternalServiceToken a =s? "") then
    let auth := Header r "Authorization" in
    if negb (HasPrefix auth "Bearer ") then Some (Platform (Unauthenticated "missing bearer token"))
    else if negb (TrimPrefix auth "Bearer " =s? InternalServiceToken a)
    then Some (Platform (Unauthenticated "invalid bearer token"))
    else None
  else if production a then Some (Platform (Unauthenticated "internal service token not configured"))
  else None.

(** What [Recovery] answers for a panic of the handler. *)
Definition recovered {P} : ResponseOf P := Failure 500 "internal_error" "an unexpected error occurred".

(** [dto.Error] of a value of type [error]: [From] gives the nil pointer back,
    whose code it then reads. *)
Definition answer_error {P} (f : err_value) : ResponseOf P :=
  match f with
  | Nil_ptr => recovered
  | Value e => default recovered (dto_Error e)
  end.

Inductive AgentPayload :=
  | InfoData (i : AgentInfo)
  | RecordData (l : list ContainerRecord)
  | HealthData (h : HealthReport)
  | LogData (l : list LogLine)
  | StatusData (status : string)
  | DiagnosticsData (active : Z) (status : string).

Section agent.
Context {W : Type} `{AW : AgentWorld W} `{D : Driver} `{So : Sorter} (cfg : AgentConfig) (c : DockerClient).

#[local] Abbreviation agent := (db (agentdb W)).

(** ** The lifecycle (executor/lifecycle.go) *)

Definition container_meta (id deploymentID correlationID : string) : EventMeta :=
  EventMeta.mk "" id deploymentID correlationID "".

Definition Create (req : CreateRequest) : agent (result err_value AgentInfo) :=
  _ ←? EnsureNetwork c;
  _ ←? PullImage (CreateRequest.Image req);
  _ ← ignore (Publish ImagePulled (container_meta "" (CreateRequest.DeploymentID req) (CreateRequest.CorrelationID req))
                (ImageData (CreateRequest.Image req)));
  info ←? CreateContainer c req;
  _ ← ignore (UpsertContainer (ContainerRecord.mk "" (AgentInfo.ID info) (CreateRequest.DeploymentID req)
        (AgentInfo.Name info) (CreateRequest.Image req) StatusCreated (CreateRequest.HostPort req) (CreateRequest.Port req)
        0 false (CreateRequest.CorrelationID req) None 0 None None 0));
  _ ← ignore (SetStatus (AgentInfo.ID info) "" StatusCreated "container created");
  _ ← ignore (Publish ContainerCreated
        (container_meta (AgentInfo.ID info) (CreateRequest.DeploymentID req) (CreateRequest.CorrelationID req)) NoData);
  returns info.

(** [rec, _ := l.store.GetByContainerID(ctx, containerID)] *)
Definition record_or_zero (id : string) : agent ContainerRecord :=
  r ← attempt (GetByContainerID id); mret (match r with Ok rec => rec | Err _ => ContainerRecord.zero end).

Definition Start (id correlationID : string) : agent (result err_value unit) :=
  rec ← record_or_zero id;
  _ ←? StartContainer id;
  _ ← ignore (SetStatus id (ContainerRecord.Status rec) StatusRunning "container started");
  _ ← ignore (Publish ContainerStarted (container_meta id (ContainerRecord.DeploymentID rec) correlationID) NoData);
  returns tt.

Definition Stop (id : string) (timeout : Duration) (correlationID : string) : agent (result err_value unit) :=
  rec ← record_or_zero id;
  _ ← ignore (SetStatus id (ContainerRecord.Status rec) StatusStopping "stopping");
  _ ←? StopContainer id timeout;
  _ ← ignore (SetStatus id StatusStopping StatusStopped "stopped");
  _ ← ignore (Publish ContainerStopped (container_meta id (ContainerRecord.DeploymentID rec) correlationID) NoData);
  returns tt.

Definition Remove (id correlationID : string) : agent (result err_value unit) :=
  rec ← record_or_zero id;
  _ ← StopContainer id (10 * Second);
  _ ←? RemoveContainer id;
  _ ← ignore (SetStatus id (ContainerRecord.Status rec) StatusDeleted "removed");
  _ ← ignore (Publish ContainerDeleted (container_meta id (ContainerRecord.DeploymentID rec) correlationID) NoData);
  returns tt.

Definition Restart (id correlationID : string) : agent (result err_value unit) :=
  rec ←? checked (GetByContainerID id);
  if (0 <? AgentConfig.RestartMaxAttempts cfg) && (AgentConfig.RestartMaxAttempts cfg <=? ContainerRecord.RestartCount rec)
  then fails (Platform (New CodeFailedPrecond "runtime: restart limit exceeded"))
  else
    _ ← ignore (SetStatus id (ContainerRecord.Status rec) StatusRestarting "restarting");
    _ ←? RestartContainer id (10 * Second);
    _ ← ignore (SetStatus id StatusRestarting StatusRunning "restarted");
    _ ← ignore (Publish ContainerRestarted (container_meta id (ContainerRecord.DeploymentID rec) correlationID)
                  (CountData "restart_count" (wrap64 (ContainerRecord.RestartCount rec + 1))));
    returns tt.

Definition GC : agent (result err_value Z) :=
  n ←? PruneImages;
  _ ← (if 0 <? n then ignore (Publish ImageDeleted meta0 (CountData "count" n)) else mret tt);
  returns n.

(** ** Health (health/monitor.go) *)

Definition f95 : f64 := f64_of_Z 95.

(** [mem] is in MB, the bound in bytes. *)
Definition healthy (cpu : f64) (mem : Z) : bool :=
  (cpu <? f95)%f64 && (mem <? wrap64 (AgentConfig.MemoryMB cfg * 1024 * 1024)).

(** The loop over the containers, with the totals so far. *)
Fixpoint check_each (l : list ContainerRecord) (cpus : f64) (mems : Z) : agent (f64 * Z) :=
  match l with
  | [] => mret (cpus, mems)
  | r :: l =>
      if negb (ContainerRecord.Status r =s? StatusRunning) then check_each l cpus mems
      else
        stats ← Stats (ContainerRecord.ContainerID r);
        match stats with
        | Err _ =>
            _ ← ignore (RecordHealth (ContainerRecord.ContainerID r) "liveness" false f0 0 "stats unavailable");
            check_each l cpus mems
        | Ok (cpu, mem) =>
            let ok := healthy cpu mem in
            _ ← ignore (RecordHealth (ContainerRecord.ContainerID r) "readiness" ok cpu mem "ok");
            _ ← ignore (Publish HealthUpdated
                  (container_meta (ContainerRecord.ContainerID r) (ContainerRecord.DeploymentID r) "")
                  (ReportData (HealthReport.mk (ContainerRecord.ContainerID r) ok cpu mem (ContainerRecord.RestartCount r)
                     (ContainerRecord.OOMKilled r) "")));
            check_each l (fadd cpus cpu) (wrap64 (mems + mem))
        end
  end.

Definition checkAll : agent unit :=
  r ← attempt ListActive;
  match r with
  | Err _ => mret tt
  | Ok containers =>
      '(cpus, mems) ← check_each containers f0 0;
      ignore (Publish MetricsCollected meta0 (TotalsData cpus mems (Z.of_nat (length containers))))
  end.

Definition Report (id : string) : agent (result err_value HealthReport) :=
  rec ←? checked (GetByContainerID id);
  stats ← Stats id;
  let '(cpu, mem) := match stats with Ok s => s | Err _ => (f0, 0) end in
  returns (HealthReport.mk id (ContainerRecord.Status rec =s? StatusRunning) cpu mem (ContainerRecord.RestartCount rec)
             (ContainerRecord.OOMKilled rec) "").

(** ** Recovery (recovery/reconciler.go) *)

Fixpoint mark_missing (known : list string) (l : list ContainerRecord) : agent unit :=
  match l with
  | [] => mret tt
  | r :: l =>
      _ ← (if negb (existsb (String.eqb (ContainerRecord.ContainerID r)) known)
              && (ContainerRecord.Status r =s? StatusRunning)
           then ignore (SetStatus (ContainerRecord.ContainerID r) (ContainerRecord.Status r) StatusFailed "container missing")
           else mret tt);
      mark_missing known l
  end.

Definition reconcile : agent unit :=
  managed ← ListManagedContainers;
  match managed with
  | Err _ => mret tt
  | Ok managed =>
      records ← attempt ListActive;
      mark_missing (AgentInfo.ID <$> managed) (match records with Ok l => l | Err _ => [] end)
  end.

(** [n] ticks of a loop. *)
Fixpoint rounds (n : nat) (round : agent unit) : agent unit :=
  match n with O => mret tt | S n => _ ← round; rounds n round end.

Definition ignore_value {A} (m : agent (result err_value A)) : agent unit := _ ← m; mret tt.

(** [Run] of the reconciler: the collector runs between two reconciliations. *)
Definition Recovery_Run (n : nat) : agent unit := _ ← reconcile; rounds n (_ ← ignore_value GC; reconcile).
Definition Monitor_Run (n : nat) : agent unit := _ ← checkAll; rounds n checkAll.

(** ** Heartbeats (heartbeat/sender.go) *)

(** The node's name, GOARCH, GOOS and the JSON of the labels. *)
Context (nodeID goarch goos : string) (labels_json : gmap string string → string).

Definition agentURL : string :=
  "http://" +:+ or_else (AgentConfig.AdvertiseHost cfg) "127.0.0.1" +:+ ":"
  +:+ pretty (if AgentConfig.AdvertisePort cfg <=? 0 then AgentConfig.InternalPort cfg else AgentConfig.AdvertisePort cfg).

Definition heartbeat (dockerVer kernelVer : string) (count : Z) : HeartbeatPayload :=
  HeartbeatPayload.mk nodeID nodeID (or_else (AgentConfig.AdvertiseHost cfg) "127.0.0.1") agentURL
    (AgentConfig.Region cfg) (AgentConfig.AvailabilityZone cfg) (AgentConfig.InstanceType cfg) goarch goos kernelVer
    dockerVer (AgentConfig.CPUCores cfg) (AgentConfig.MemoryMB cfg) (AgentConfig.DiskGB cfg) (AgentConfig.GPUCount cfg)
    (AgentConfig.MaxContainers cfg) count HealthHealthy
    (labels_json {[ "agnivo.runtime_version" := AgentConfig.Version cfg ]}) "null".

(** The status of the answer is not read. *)
Definition Send : agent (result err_value unit) :=
  if AgentConfig.SchedulerURL cfg =s? "" then returns tt
  else
    '(dockerVer, kernelVer) ← Version;
    count ← attempt CountActive;
    let count := match count with Ok n => n | Err _ => 0 end in
    err ← engine (PostHeartbeat (AgentConfig.SchedulerURL cfg +:+ "/internal/v1/heartbeat")
                    (heartbeat dockerVer kernelVer count));
    match err with
    | Some e => mret (Err (Value e))
    | None =>
        _ ← ignore (Publish HeartbeatSent (EventMeta.mk "" "" "" "" nodeID) (CountData "containers" count));
        returns tt
    end.

Definition Heartbeat_Run (n : nat) : agent unit := _ ← ignore_value Send; rounds n (ignore_value Send).

(** ** Handlers (http/handlers.go) *)

Context `{DCreate : Decoder CreateRequest}.

Definition AgentHandler : Type := Request → agent (result err_value (AnswerOf AgentPayload)).

(** [id, _ := httpx.RequirePathParam(r, "containerID")] *)
Definition container_id (r : Request) : string :=
  match RequirePathParam r "containerID" with Ok v => v | Err _ => "" end.

Definition handle_CreateContainer : AgentHandler := λ r,
  req ←? checked (of_result (DecodeValidate (Request.body r)));
  info ←? Create req;
  returns (OK (InfoData info)).

Definition handle_StartContainer : AgentHandler := λ r,
  _ ←? Start (container_id r) (QueryString r "correlation_id");
  returns (OK (StatusData "started")).

Definition stop_timeout (r : Request) : Duration :=
  wrap64 (default 10 (Atoi (QueryString r "timeout")) * Second).

Definition handle_StopContainer : AgentHandler := λ r,
  _ ←? Stop (container_id r) (stop_timeout r) (QueryString r "correlation_id");
  returns (OK (StatusData "stopped")).

Definition handle_RestartContainer : AgentHandler := λ r,
  _ ←? Restart (container_id r) (QueryString r "correlation_id");
  returns (OK (StatusData "restarted")).

Definition handle_DeleteContainer : AgentHandler := λ r,
  _ ←? Remove (container_id r) (QueryString r "correlation_id");
  returns (OK (StatusData "deleted")).

Definition handle_GetContainer : AgentHandler := λ r,
  info ←? InspectContainer c (container_id r);
  returns (OK (InfoData info)).

Definition handle_ListContainers : AgentHandler := λ r,
  l ←? checked ListActive;
  returns (OK (RecordData l)).

Definition handle_ContainerHealth : AgentHandler := λ r,
  h ←? Report (container_id r);
  returns (OK (HealthData h)).

Definition handle_ContainerLogs : AgentHandler := λ r,
  l ←? checked (ListLogs (container_id r) (default 100 (QueryInt r "limit")));
  returns (OK (LogData l)).

Definition handle_Diagnostics : AgentHandler := λ r,
  count ← attempt CountActive;
  returns (OK (DiagnosticsData (match count with Ok n => n | Err _ => 0 end) "ok")).

Definition handle_status (s : string) : AgentHandler := λ r, returns (OK (StatusData s)).
Definition handle_Health : AgentHandler := handle_status "ok".
Definition handle_Ready : AgentHandler := handle_status "ready".
Definition handle_Live : AgentHandler := handle_status "live".

Definition agent_routes : list (string * string * AgentHandler) :=
  let p := "/internal/v1/runtime" in
  [("GET", p +:+ "/health", handle_Health);
   ("GET", p +:+ "/ready", handle_Ready);
   ("GET", p +:+ "/live", handle_Live);
   ("GET", p +:+ "/containers", handle_ListContainers);
   ("POST", p +:+ "/containers", handle_CreateContainer);
   ("GET", p +:+ "/containers/{containerID}", handle_GetContainer);
   ("POST", p +:+ "/containers/{containerID}/start", handle_StartContainer);
   ("POST", p +:+ "/containers/{containerID}/stop", handle_StopContainer);
   ("POST", p +:+ "/containers/{containerID}/restart", handle_RestartContainer);
   ("DELETE", p +:+ "/containers/{containerID}", handle_DeleteContainer);
   ("GET", p +:+ "/containers/{containerID}/health", handle_ContainerHealth);
   ("GET", p +:+ "/containers/{containerID}/logs", handle_ContainerLogs);
   ("GET", p +:+ "/diagnostics", handle_Diagnostics)].

Definition agent_answer (r : Request) (h : AgentHandler) : agent (ResponseOf AgentPayload) :=
  a ← h r; mret (match a with Ok a => Success a | Err f => answer_error f end).

(** A request at the internal server; [None] where no route matches. *)
Definition agent_serve (auth : InternalAuth) (r : Request) : agent (option (ResponseOf AgentPayload)) :=
  match InternalServiceAuth auth r with
  | Some e => mret (Some (answer_error (Value e)))
  | None =>
      match filter (λ '(m, p, h), m = Request.Method r ∧ p = Request.Pattern r) agent_routes with
      | [] => mret None
      | (_, _, h) :: _ => a ← agent_answer r h; mret (Some a)
      end
  end.
End agent.
