(* ===== verification/Internal.v ===== *)
(** * The internal HTTP APIs of scheduler, deployer and builder
    (packages/application/scheduler/http, deploy/http, build/http)

    All three stand behind the internal server of bootstrap/app.go.  A handler gives
    the payload of an answer or an error, as in Access.v; a request draws one
    identifier and reads the clock once. *)

From stdpp Require Import pretty.
From S2P Require Import Prelude GoLib Errors Postgres Sql Jobs Rbac DeployModel Rows Repository Outside DeployStore ControlPlane Password IdentityModel Slug IdentityStore IdentityService Access Placement SchedEngine Scheduler AgentModel Agent BuildModel BuildStore BuildTools BuildPipeline.

Abbreviation InternalHandler S P := (string → Time → Request → db S (AnswerOf P)).
Abbreviation InternalRoutes S P := (list (string * string * InternalHandler S P)).

Section server.
Context {S P : Type}.

(** A request at an internal server; [None] where no route matches. *)
Definition internal_serve (routes : InternalRoutes S P) (auth : InternalAuth) (id : string) (now : Time) (r : Request)
    : db S (option (ResponseOf P)) :=
  match InternalServiceAuth auth r with
  | Some e => mret (Some (default recovered (dto_Error e)))
  | None =>
      match filter (λ '(meth, p, _), meth = Request.Method r ∧ p = Request.Pattern r) routes with
      | [] => mret None
      | (_, _, h) :: _ =>
          a ← attempt (h id now r);
          mret (Some (match a with Ok a => Success a | Err e => default recovered (dto_Error e) end))
      end
  end.

(** What a request does to the tables, a handler of the table does, or nothing. *)
Lemma internal_serve_tables routes auth id now r s fs :
  tables_of (internal_serve routes auth id now r (s, fs)) = s
  ∨ ∃ m p h, (m, p, h) ∈ routes ∧ Request.Pattern r = p
      ∧ tables_of (internal_serve routes auth id now r (s, fs)) = tables_of (h id now r (s, fs)).
Proof.
  unfold internal_serve. destruct (InternalServiceAuth auth r); [by left|].
  destruct (filter _ routes) as [|[[m p] h] l] eqn:E; [by left|right]. exists m, p, h.
  assert ((m, p, h) ∈ filter (λ '(meth, p, _), meth = Request.Method r ∧ p = Request.Pattern r) routes) as Hin
    by (rewrite E; by left).
  apply list_elem_of_filter in Hin as [[_ Hp] Hin]. split_and!; [done|done|].
  unfold mbind, db_bind, attempt, mret, db_ret, tables_of. by destruct (h id now r (s, fs)) as [[a|e] st].
Qed.

(** Whatever a server keeps when every handler keeps it. *)
Lemma internal_serve_preserves (I : S → Prop) routes auth id now r :
  (∀ m p h, (m, p, h) ∈ routes → preserves I (h id now r)) → preserves I (internal_serve routes auth id now r).
Proof.
  intros H s fs Hs. destruct (internal_serve_tables routes auth id now r s fs) as [->|(m & p & h & Hin & _ & ->)]; [done|].
  by apply (H m p h Hin).
Qed.
End server.

(** ** The scheduler (scheduler/http/handlers.go) *)

Module SchedulerApi.
Module reserveRequest.
Record t := mk {
  OrgID : string; ProjectID : string; DeploymentID : string; PortMin : Z; PortMax : Z; Region : string;
  Algorithm : string; CorrelationID : string; CPUMillicores : Z; MemoryMB : Z;
}.
End reserveRequest.
Abbreviation reserveRequest := reserveRequest.t.

Record releaseRequest := {
  rel_OrgID : string; rel_ProjectID : string; rel_DeploymentID : string; rel_CorrelationID : string;
}.

Definition placement_request (correlationID : string) (q : reserveRequest) : PlacementRequest :=
  PlacementRequest.mk (reserveRequest.OrgID q) (reserveRequest.ProjectID q) (reserveRequest.DeploymentID q)
    (reserveRequest.Region q) "" (reserveRequest.CPUMillicores q) (reserveRequest.MemoryMB q)
    (reserveRequest.PortMin q) (reserveRequest.PortMax q) false (reserveRequest.Algorithm q) ∅ correlationID.

Inductive Payload :=
  | PlacementData (p : PlacementResult)
  | Released
  | ServerData (s : Server)
  | CapacityData (c : capacity)
  | ServerList (l : list Server)
  | Status (s : string).

Section scheduler_api.
Context `{D : Driver} `{So : Sorter} (cfg : SchedConfig).
(** Here the class is [json.NewDecoder(..).Decode]: no validator runs. *)
Context `{D1 : Decoder reserveRequest} `{D2 : Decoder releaseRequest} `{D3 : Decoder HeartbeatPayload}.

#[local] Abbreviation Handler := (InternalHandler sched Payload).

Definition handle_Reserve : Handler := λ id now r,
  req ← of_result (DecodeValidate (Request.body r));
  result ← Reserve cfg id (placement_request (reserveRequest.CorrelationID req) req) now;
  mret (OK (PlacementData result)).

Definition handle_Release : Handler := λ id now r,
  req ← of_result (DecodeValidate (Request.body r));
  _ ← Release (rel_OrgID req) (rel_ProjectID req) (rel_DeploymentID req) (rel_CorrelationID req) now;
  mret (OK Released).

Definition handle_Placement : Handler := λ id now r,
  req ← of_result (DecodeValidate (Request.body r));
  result ← Simulate cfg (placement_request "" req);
  mret (OK (PlacementData result)).

Definition handle_Heartbeat : Handler := λ id now r,
  hb ← of_result (DecodeValidate (Request.body r));
  srv ← RegisterHeartbeat id hb now;
  mret (OK (ServerData srv)).

Definition handle_Capacity : Handler := λ id now r,
  c ← CapacitySummary; mret (OK (CapacityData c)).

Definition handle_ListServers : Handler := λ id now r,
  l ← ListHealthyServers (QueryString r "region"); mret (OK (ServerList l)).

Definition handle_status (s : string) : Handler := λ id now r, mret (OK (Status s)).

Definition handle_MetricsSummary : Handler := handle_Capacity.

Definition scheduler_routes : InternalRoutes sched Payload :=
  let p := "/internal/v1" in
  [("POST", p +:+ "/reserve", handle_Reserve);
   ("POST", p +:+ "/release", handle_Release);
   ("POST", p +:+ "/placement", handle_Placement);
   ("POST", p +:+ "/heartbeat", handle_Heartbeat);
   ("GET", p +:+ "/capacity", handle_Capacity);
   ("GET", p +:+ "/servers", handle_ListServers);
   ("GET", p +:+ "/health", handle_status "ok");
   ("GET", p +:+ "/ready", handle_status "ready");
   ("GET", p +:+ "/live", handle_status "live");
   ("GET", p +:+ "/metrics/summary", handle_MetricsSummary)].

Definition scheduler_serve := internal_serve scheduler_routes.

(** The module: requests, and rounds of the reconciler. *)
Inductive api_op := Serve (auth : InternalAuth) (r : Request) | Round.

Definition run_api (o : api_op) (id : string) (now : Time) : db sched unit :=
  match o with
  | Serve auth r => ignore (scheduler_serve auth id now r)
  | Round => ignore (Reconcile cfg now)
  end.

(** What a request to reserve asks for; other requests ask for nothing. *)
Definition asks_for (r : Request) : option PlacementRequest :=
  if Request.Pattern r =s? "/internal/v1/reserve" then
    match DecodeValidate (A := reserveRequest) (Request.body r) with
    | Ok q => Some (placement_request (reserveRequest.CorrelationID q) q)
    | Err _ => None
    end
  else None.

Lemma tables_of_then {S A B} (m : db S A) (f : A → B) st : tables_of ((a ← m; mret (f a)) st) = tables_of (m st).
Proof. unfold mbind, db_bind, tables_of. by destruct (m st) as [[a|e] st']. Qed.

Lemma tables_of_decoded {S A B} (x : result error A) (k : A → db S B) st :
  tables_of ((of_result x ≫= k) st) = match x with Ok a => tables_of (k a st) | Err _ => st.1 end.
Proof. by destruct x. Qed.

Lemma reads_Capacity st fs : tables_of (CapacitySummary (st, fs)) = st.
Proof. apply (wp_tables (λ s, s = st)). unfold CapacitySummary. wp_step. by wp_step. Qed.

Lemma reads_ListHealthyServers region st fs : tables_of (ListHealthyServers region (st, fs)) = st.
Proof. apply (wp_tables (λ s, s = st)), wp_ListHealthyServers; naive_solver. Qed.

Lemma reads_Simulate req st fs : tables_of (Simulate cfg req (st, fs)) = st.
Proof.
  apply (wp_tables (λ s, s = st)). unfold Simulate. wp_step. apply wp_ListHealthyServers; [done|]. intros l _.
  destruct (Select _ _ _ _) as [[srv port]|]; by wp_step.
Qed.

(** A handler leaves the tables alone or does one operation of the engine. *)
Lemma handler_acts m p h id now r st fs :
  (m, p, h) ∈ scheduler_routes → Request.Pattern r = p →
  tables_of (h id now r (st, fs)) = st
  ∨ ∃ op, tables_of (h id now r (st, fs)) = tables_of (run_sched cfg op now (st, fs))
      ∧ match op with
        | SReserve fresh req => fresh = id ∧ asks_for r = Some req
        | SHeartbeat _ _ | SRelease _ _ _ _ => True
        | _ => False
        end.
Proof.
  intros Hin Hp. unfold scheduler_routes in Hin. rewrite !elem_of_cons in Hin.
  destruct Hin as [E|[E|[E|[E|[E|[E|[E|[E|[E|[E|E]]]]]]]]]]; [injection E as -> -> ->..|by apply elem_of_nil in E].
  - unfold handle_Reserve. rewrite tables_of_decoded. unfold asks_for. rewrite Hp. simpl.
    destruct (DecodeValidate (Request.body r)) as [req|e]; [right|by left].
    rewrite tables_of_then. exists (SReserve id (placement_request (reserveRequest.CorrelationID req) req)).
    split; [|done]. simpl. by rewrite tables_of_ignore.
  - unfold handle_Release. rewrite tables_of_decoded. destruct (DecodeValidate _) as [req|e]; [right|by left].
    rewrite tables_of_then. eexists (SRelease _ _ _ _). split; [|done]. simpl. by rewrite tables_of_ignore.
  - unfold handle_Placement. rewrite tables_of_decoded. destruct (DecodeValidate _) as [req|e]; left; [|done].
    rewrite tables_of_then. apply reads_Simulate.
  - unfold handle_Heartbeat. rewrite tables_of_decoded. destruct (DecodeValidate _) as [hb|e]; [right|by left].
    rewrite tables_of_then. exists (SHeartbeat id hb). split; [|done]. simpl. by rewrite tables_of_ignore.
  - left. unfold handle_Capacity. rewrite tables_of_then. apply reads_Capacity.
  - left. unfold handle_ListServers. rewrite tables_of_then. apply reads_ListHealthyServers.
  - by left.
  - by left.
  - by left.
  - left. unfold handle_MetricsSummary, handle_Capacity. rewrite tables_of_then. apply reads_Capacity.
Qed.

(** One request or round, at any time and with any failures of statements, whose
    reservation is allowed as Scheduler.v says. *)
Inductive api_step : sched → sched → Prop :=
| api_step_op o id now st fs :
    (∀ auth r req, o = Serve auth r → asks_for r = Some req → allowed cfg (SReserve id req) st fs) →
    api_step st (tables_of (run_api o id now (st, fs))).

(** Over its API, too, the scheduler's books balance.  After any requests, with or
    without a token, with bodies that decode or not, and any rounds of the
    reconciler, the reserved memory of every server is the sum of its active
    reservations; a request does what one operation of the engine does, or nothing. *)
Theorem api_accounting st :
  0 ≤ DefaultMemoryMB cfg →
  rtc api_step {| servers := []; reservations := []; sevents := [] |} st → acc_ok st.
Proof.
  intros Hd. assert (acc_ok {| servers := []; reservations := []; sevents := [] |}) as H0
    by (split; simpl; try constructor; intros x Hx; by apply elem_of_nil in Hx).
  revert H0. generalize {| servers := []; reservations := []; sevents := [] |}. intros st0 H0 Hr. revert H0.
  induction Hr as [|st0 st1 st2 Hs _ IH]; [done|]. intros Hok. apply IH. clear IH.
  destruct Hs as [[auth r|] id now st1 fs Ha]; simpl; rewrite tables_of_ignore.
  - unfold scheduler_serve. destruct (internal_serve_tables scheduler_routes auth id now r st1 fs) as [->|(m & p & h & Hin & Hp & E)]; [done|].
    rewrite E. destruct (handler_acts m p h id now r st1 fs Hin Hp) as [->|(op & -> & Hop)]; [done|].
    apply run_sched_acc; [done| |done]. destruct op as [| fresh req | | |]; try done. destruct Hop as [-> Hop].
    by apply (Ha auth r req).
  - pose proof (run_sched_acc cfg SReconcile now st1 fs Hd I Hok) as H. simpl in H. by rewrite tables_of_ignore in H.
Qed.
End scheduler_api.

(** *** A server that reports and a reservation *)

Section run.
#[local] Instance decode_reserve : Decoder reserveRequest := λ body,
  if body =s? "" then Err (Sentinel "EOF")
  else Ok (reserveRequest.mk "o1" "p1" body 20000 20010 "" "" "" 250 512).
#[local] Instance decode_release : Decoder releaseRequest := λ _, Err (Sentinel "EOF").
#[local] Instance decode_heartbeat : Decoder HeartbeatPayload := λ _, Ok some_heartbeat.

Definition no_token : InternalAuth := {| InternalServiceToken := ""; production := false |}.

Definition post (path body : string) : Request :=
  Request.mk "POST" ("/internal/v1" +:+ path) ∅ ∅ "10.0.0.9:4000" body ∅.

Definition empty : sched := {| servers := []; reservations := []; sevents := [] |}.

Definition after (r : Request) (id : string) (now : Time) (st : sched) : sched :=
  tables_of (run_api (D := lenient_driver) some_sched_cfg (Serve no_token r) id now (st, [])).

Definition reported : sched := after (post "/heartbeat" "{}") "s1" 10 empty.
Definition reserved : sched := after (post "/reserve" "d1") "r1" 11 reported.

Lemma api_accounting_witness : acc_ok reserved ∧ (Server.ReservedMemoryMB <$> servers reserved) = [512].
Proof.
  split; [|vm_compute; reflexivity]. apply (api_accounting (D := lenient_driver) some_sched_cfg); [vm_compute; discriminate|].
  eapply rtc_l; [apply (api_step_op some_sched_cfg (Serve no_token (post "/heartbeat" "{}")) "s1" 10)|].
  { intros auth r req [= <- <-]. by vm_compute. }
  apply rtc_once. apply (api_step_op some_sched_cfg (Serve no_token (post "/reserve" "d1")) "r1" 11).
  intros auth r req [= <- <-] _. split; [by intros e fs'|]. intros x Hx. vm_compute in Hx. by apply elem_of_nil in Hx.
Defined.

(** A body that is no JSON is an internal error to the caller. *)
Example malformed_body_is_500 :
  (scheduler_serve (D := lenient_driver) some_sched_cfg no_token "r1" 11 (post "/reserve" "") (empty, [])).1
  = Ok (Some (Failure 500 "internal" "internal error")).
Proof. vm_compute. reflexivity. Qed.
End run.
End SchedulerApi.

(** ** The deployer (deploy/http/handlers.go)

    The queue is in the same database; the registry of running deployments is that of
    this process. *)

Module DeployerApi.
Inductive Payload :=
  | ExecutionData (e : Execution)
  | Phases (l : list PhaseTransition)
  | HealthChecks (l : list HealthRecord)
  | Cancelled (cancelled : bool) (deploymentID : string)
  | Summary (m : gmap ExecutionStatus Z)
  | Active (deployments : Z)
  | QueueData (l : list (JobStatus * Z))
  | Status (s : string).

Section deployer_api.
Context {W : Type} `{Wo : World W} `{D : Driver} `{So : Sorter}.

#[local] Abbreviation state := (list Job * deploydb W)%type.
#[local] Abbreviation Handler := (InternalHandler state Payload).

Definition jobs_l : Lens state (list Job).
Proof. refine {| view := fst; put q s := (q, s.2) |}; by intros; repeat match goal with x : _ * _ |- _ => destruct x end. Defined.
Definition deploy_l : Lens state (deploydb W).
Proof. refine {| view := snd; put x s := (s.1, x) |}; by intros; repeat match goal with x : _ * _ |- _ => destruct x end. Defined.

Definition handle_status (s : string) : Handler := λ id now r, mret (OK (Status s)).

Definition handle_GetDeployment : Handler := λ id now r,
  depID ← of_result (RequirePathParam r "deploymentID");
  e ← zoom deploy_l (DeployStore.GetByDeployment depID);
  mret (OK (ExecutionData e)).

(** [v, _ := httpx.RequirePathParam(..)] *)
Definition param (r : Request) : string := match RequirePathParam r "deploymentID" with Ok v => v | Err _ => "" end.

Definition handle_GetPhases : Handler := λ id now r,
  l ← zoom deploy_l (ListPhaseTransitions (param r)); mret (OK (Phases l)).

Definition handle_GetHealth : Handler := λ id now r,
  l ← zoom deploy_l (ListHealth (param r) (default 50 (QueryInt r "limit"))); mret (OK (HealthChecks l)).

Definition handle_CancelDeployment : Handler := λ id now r,
  depID ← of_result (RequirePathParam r "deploymentID");
  ok ← zoom deploy_l (Cancel depID);
  mret (OK (Cancelled ok depID)).

Definition handle_MetricsSummary : Handler := λ id now r,
  m ← zoom deploy_l DeployStore.Stats; mret (OK (Summary m)).

Definition handle_WorkerStats : Handler := λ id now r,
  n ← zoom deploy_l Outside.ActiveCount; mret (OK (Active n)).

Definition handle_QueueStats : Handler := λ id now r,
  l ← zoom jobs_l (Jobs.Stats QueueDeployments); mret (OK (QueueData l)).

Definition deployer_routes : InternalRoutes state Payload :=
  let p := "/internal/v1/deployer" in
  [("GET", p +:+ "/health", handle_status "ok");
   ("GET", p +:+ "/ready", handle_status "ready");
   ("GET", p +:+ "/live", handle_status "live");
   ("GET", p +:+ "/status", handle_status "ok");
   ("GET", p +:+ "/deployments/{deploymentID}", handle_GetDeployment);
   ("GET", p +:+ "/deployments/{deploymentID}/phases", handle_GetPhases);
   ("GET", p +:+ "/deployments/{deploymentID}/health", handle_GetHealth);
   ("POST", p +:+ "/deployments/{deploymentID}/cancel", handle_CancelDeployment);
   ("GET", p +:+ "/metrics/summary", handle_MetricsSummary);
   ("GET", p +:+ "/workers", handle_WorkerStats);
   ("GET", p +:+ "/queue", handle_QueueStats)].

Definition deployer_serve := internal_serve deployer_routes.

(** What differs from [s] in what lies outside the database only. *)
Definition tables_kept (s s' : state) : Prop :=
  s'.1 = s.1 ∧ ∃ w, s'.2 = DeployModel.set_world w (trace s.2) s.2.

Lemma deployer_kept s : tables_kept s s.
Proof. split; [done|]. exists (outside s.2). by destruct s as [? []]. Qed.

Lemma kept_Cancel dep s : wp (zoom deploy_l (Cancel dep)) (λ _, tables_kept s) (λ _, tables_kept s) s.
Proof.
  apply wp_zoom. intros fs. unfold Cancel. simpl. destruct (DeployModel.active s.2 !! dep) as [c|].
  - split; [done|]. by eexists.
  - destruct s. apply deployer_kept.
Qed.

(** No request to the deployer changes a table or the registry: cancelling only ends
    a context. *)
Theorem deployer_api_reads auth id now r s fs : tables_kept s (tables_of (deployer_serve auth id now r (s, fs))).
Proof.
  destruct s as [q d].
  unfold deployer_serve. destruct (internal_serve_tables deployer_routes auth id now r (q, d) fs) as [->|(m & p & h & Hin & _ & ->)].
  { apply deployer_kept. }
  unfold deployer_routes in Hin. rewrite !elem_of_cons in Hin. pose proof (deployer_kept (q, d)) as H0.
  destruct Hin as [E|[E|[E|[E|[E|[E|[E|[E|[E|[E|[E|E]]]]]]]]]]]; [injection E as _ _ ->..|by apply elem_of_nil in E].
  1-4: done.
  all: apply (wp_tables (tables_kept (q, d))).
  - unfold handle_GetDeployment, DeployStore.GetByDeployment. wp_step. wp_step. destruct (RequirePathParam _ _); [|done].
    wp_step. apply wp_zoom. do 2 wp_step; [done|]. case_match; simpl; [by wp_step|done].
  - unfold handle_GetPhases, ListPhaseTransitions. wp_step. apply wp_zoom. do 2 wp_step; [done|]. by wp_step.
  - unfold handle_GetHealth, ListHealth. wp_step. apply wp_zoom. do 2 wp_step; [done|]. by wp_step.
  - unfold handle_CancelDeployment. wp_step. wp_step. destruct (RequirePathParam _ _); [|done]. wp_step.
    eapply wp_mono; [apply kept_Cancel| |done]. intros b s' H. by wp_step.
  - unfold handle_MetricsSummary, DeployStore.Stats. wp_step. apply wp_zoom. do 2 wp_step; [done|]. by wp_step.
  - unfold handle_WorkerStats. wp_step. apply wp_zoom. intros fs'. unfold Outside.ActiveCount. simpl. by wp_step.
  - unfold handle_QueueStats, Jobs.Stats. wp_step. apply wp_zoom. do 2 wp_step; [done|]. by wp_step.
Qed.
End deployer_api.
End DeployerApi.

(** ** The builder (build/http/handlers.go) *)

Module BuilderApi.
Inductive Payload :=
  | BuildData (b : Build)
  | Logs (l : list LogEntry)
  | Cancelled (cancelled : bool) (deploymentID : string)
  | Active (builds : Z)
  | QueueData (l : list (JobStatus * Z))
  | Status (s : string).

Section builder_api.
Context {W : Type} `{BW : BuildWorld W} `{D : Driver} `{So : Sorter} `{Do : Documents} `{RM : RowMapping}.

#[local] Abbreviation state := (list Job * builddb W)%type.
#[local] Abbreviation Handler := (InternalHandler state Payload).

Definition jobs_l : Lens state (list Job).
Proof. refine {| view := fst; put q s := (q, s.2) |}; by intros; repeat match goal with x : _ * _ |- _ => destruct x end. Defined.
Definition build_l : Lens state (builddb W).
Proof. refine {| view := snd; put x s := (s.1, x) |}; by intros; repeat match goal with x : _ * _ |- _ => destruct x end. Defined.

Definition handle_Status : Handler := λ id now r, mret (OK (Status "ok")).

Definition handle_GetBuild : Handler := λ id now r,
  depID ← of_result (RequirePathParam r "deploymentID");
  b ← zoom build_l (BuildStore.GetByDeployment depID);
  mret (OK (BuildData b)).

Definition handle_GetLogs : Handler := λ id now r,
  depID ← of_result (RequirePathParam r "deploymentID");
  b ← zoom build_l (BuildStore.GetByDeployment depID);
  l ← zoom build_l (ListByBuild (Build.ID b) (default 200 (QueryInt r "limit")));
  mret (OK (Logs l)).

Definition handle_CancelBuild : Handler := λ id now r,
  depID ← of_result (RequirePathParam r "deploymentID");
  ok ← zoom build_l (CancelBuild depID);
  mret (OK (Cancelled ok depID)).

Definition handle_WorkerStats : Handler := λ id now r,
  n ← zoom build_l BuildPipeline.ActiveCount; mret (OK (Active n)).

Definition handle_QueueStats : Handler := λ id now r,
  l ← zoom jobs_l (Jobs.Stats QueueBuilds); mret (OK (QueueData l)).

Definition builder_routes : InternalRoutes state Payload :=
  let p := "/internal/v1/builder" in
  [("GET", p +:+ "/status", handle_Status);
   ("GET", p +:+ "/builds/{deploymentID}", handle_GetBuild);
   ("GET", p +:+ "/builds/{deploymentID}/logs", handle_GetLogs);
   ("POST", p +:+ "/builds/{deploymentID}/cancel", handle_CancelBuild);
   ("GET", p +:+ "/workers", handle_WorkerStats);
   ("GET", p +:+ "/queue", handle_QueueStats)].

Definition builder_serve := internal_serve builder_routes.

Definition tables_kept (s s' : state) : Prop :=
  s'.1 = s.1 ∧ ∃ w, s'.2 = BuildModel.set_world w s.2.

Lemma builder_kept s : tables_kept s s.
Proof. split; [done|]. exists (outside (tables s.2)). destruct s as [q [[] ]]. done. Qed.

Lemma kept_CancelBuild dep s : wp (zoom build_l (CancelBuild dep)) (λ _, tables_kept s) (λ _, tables_kept s) s.
Proof.
  apply wp_zoom. intros fs. unfold CancelBuild. simpl. destruct (cancels s.2 !! dep) as [c|].
  - split; [done|]. by eexists.
  - destruct s. apply builder_kept.
Qed.

Lemma wp_GetByDeployment dep (Q : Build → state → Prop) E s :
  (∀ e, E e s) → (∀ b, Q b s) → wp (zoom build_l (BuildStore.GetByDeployment dep)) Q E s.
Proof.
  intros HE HQ. destruct s as [q d]. apply wp_zoom. unfold BuildStore.GetByDeployment, first_build.
  wp_step. apply wp_stmt; [intros e; apply HE|].
  destruct (uuids_ok [dep]); [destruct (select _ _)|]; destruct d; [apply HE|apply HQ|apply HE].
Qed.

Lemma wp_ListByBuild build limit (Q : list LogEntry → state → Prop) E s :
  (∀ e, E e s) → (∀ l, Q l s) → wp (zoom build_l (ListByBuild build limit)) Q E s.
Proof.
  intros HE HQ. destruct s as [q d]. apply wp_zoom. unfold ListByBuild.
  wp_step. apply wp_stmt; [intros e; apply HE|]. destruct (uuids_ok [build]); destruct d; [apply HQ|apply HE].
Qed.

(** No request to the builder changes a table or the registry. *)
Theorem builder_api_reads auth id now r s fs : tables_kept s (tables_of (builder_serve auth id now r (s, fs))).
Proof.
  unfold builder_serve. pose proof (builder_kept s) as H0.
  destruct (internal_serve_tables builder_routes auth id now r s fs) as [->|(m & p & h & Hin & _ & ->)]; [done|].
  unfold builder_routes in Hin. rewrite !elem_of_cons in Hin.
  destruct Hin as [E|[E|[E|[E|[E|[E|E]]]]]]; [injection E as _ _ ->..|by apply elem_of_nil in E]; [done|..].
  all: apply (wp_tables (tables_kept s)).
  - unfold handle_GetBuild. do 2 wp_step. destruct (RequirePathParam _ _); [|done]. wp_step.
    apply wp_GetByDeployment; [done|]. intros b. by wp_step.
  - unfold handle_GetLogs. do 2 wp_step. destruct (RequirePathParam _ _); [|done]. wp_step.
    apply wp_GetByDeployment; [done|]. intros b. wp_step. apply wp_ListByBuild; [done|]. intros l. by wp_step.
  - unfold handle_CancelBuild. do 2 wp_step. destruct (RequirePathParam _ _); [|done]. wp_step.
    eapply wp_mono; [apply kept_CancelBuild| |done]. intros b s' H. by wp_step.
  - unfold handle_WorkerStats. wp_step. destruct s as [q d]. apply wp_zoom. intros fs'. simpl. by wp_step.
  - unfold handle_QueueStats, Jobs.Stats. wp_step. destruct s as [q d]. apply wp_zoom. do 2 wp_step; [done|]. by wp_step.
Qed.
End builder_api.
End BuilderApi.
