(* ===== verification/AgentDriver.v ===== *)
(** * The deployer's runtime drivers (packages/application/deploy/runtime)

    [RuntimeDriver] is the interface [Driver]; [NewAgentDriver] chooses between
    the Docker CLI and the HTTP API of a runtime agent.  Running a command, HTTP
    transport and JSON are the class [DriverWorld].  [linked_world] connects the
    deployer to the agent of Agent.v. *)

From Stdlib Require Import Ascii.
From stdpp Require Import pretty.
From S2P Require Import Prelude GoLib Errors Postgres Sql Rbac DeployModel Rows Repository Outside ControlPlane Password IdentityModel Slug IdentityStore IdentityService Access Placement AgentModel Agent.

(** ** The interface *)

Record RuntimeDriver (W : Type) := {
  driver_Create : string → RuntimeConfig → W → result error ContainerInfo * W;
  driver_Start : string → W → option error * W;
  driver_Stop : string → Duration → W → option error * W;
  driver_Remove : string → W → option error * W;
  driver_Inspect : string → W → result error ContainerInfo * W;
}.
Arguments driver_Create {W}.
Arguments driver_Start {W}.
Arguments driver_Stop {W}.
Arguments driver_Remove {W}.
Arguments driver_Inspect {W}.

(** [http.NewRequest] fails, [Do] fails, or a status and the body read. *)
Inductive http_reply := Bad_url (e : error) | No_reply (e : error) | Replied (status : Z) (raw : string).

(** Commands with their combined output, requests (method, URL, body), and the
    order of a range over a map. *)
Class DriverWorld (W : Type) := {
  run_cli : string → list string → W → (string * option error) * W;
  http_do : string → string → string → W → http_reply * W;
  driver_range : gmap string string → W → list (string * string) * W;
}.

(** encoding/json: the body of a creation, the field data of an envelope (empty
    when absent) and a container's description read over another one. *)
Class DriverJson := {
  create_json : string → RuntimeConfig → string;
  envelope_data : string → result error string;
  info_json : string → ContainerInfo → result error ContainerInfo;
}.

Definition no_container : ContainerInfo := ContainerInfo.mk "" "" "" 0 "" "".

(** [trimOut] and [truncate] *)
Definition truncate200 (s : string) : string := if (200 <? String.length s)%nat then take_bytes 200 s else s.

Fixpoint trimSlash (s : string) : string :=
  match s with
  | EmptyString => EmptyString
  | String a t =>
      let t := trimSlash t in
      if (t =s? "") && Ascii.eqb a "/"%char then EmptyString else String a t
  end.

(** [strings.Fields] *)
Fixpoint fields_from (word s : string) : list string :=
  match s with
  | EmptyString => if word =s? "" then [] else [word]
  | String a s =>
      if is_space a then (if word =s? "" then fields_from "" s else word :: fields_from "" s)
      else fields_from (word +:+ String a "") s
  end.
Definition Fields (s : string) : list string := fields_from "" s.

Section drivers.
Context {W : Type} `{DW : DriverWorld W} `{DJ : DriverJson}.

Definition wrapped (message : string) (e : error) : error := wrap_with CodeFailedPrecond message e.

(** ** The Docker CLI (docker.go) *)

Record DockerDriver := { docker_cli : string; docker_network : string }.

Definition NewDockerDriver (cli network : string) : DockerDriver :=
  {| docker_cli := or_else cli "docker"; docker_network := or_else network "bridge" |}.

Definition flag_pairs (flag : string) (l : list (string * string)) : list string :=
  l ≫= λ kv, [flag; kv.1 +:+ "=" +:+ kv.2].

Definition create_args (d : DockerDriver) (deploymentID : string) (cfg : RuntimeConfig)
    (labels env secrets : list (string * string)) : list string :=
  let port := if RuntimeConfig.Port cfg <=? 0 then 8080 else RuntimeConfig.Port cfg in
  ["create"; "--name"; containerName deploymentID; "--label"; "agnivo.deployment_id=" +:+ deploymentID]
  ++ flag_pairs "--label" labels ++ flag_pairs "-e" env ++ flag_pairs "-e" secrets
  ++ (if 0 <? RuntimeConfig.HostPort cfg
      then ["-p"; pretty (RuntimeConfig.HostPort cfg) +:+ ":" +:+ pretty port] else [])
  ++ (if negb (RuntimeConfig.Network cfg =s? "") then ["--network"; RuntimeConfig.Network cfg]
      else if negb (docker_network d =s? "") then ["--network"; docker_network d] else [])
  ++ [RuntimeConfig.Image cfg].

Definition docker_Create (d : DockerDriver) (deploymentID : string) (cfg : RuntimeConfig) (w : W)
    : result error ContainerInfo * W :=
  let '(labels, w) := driver_range (RuntimeConfig.Labels cfg) w in
  let '(env, w) := driver_range (RuntimeConfig.Env cfg) w in
  let '(secrets, w) := driver_range (RuntimeConfig.Secrets cfg) w in
  match run_cli (docker_cli d) (create_args d deploymentID cfg labels env secrets) w with
  | ((_, Some e), w) => (Err (wrapped "runtime: create container" e), w)
  | ((out, None), w) =>
      (Ok (ContainerInfo.mk (TrimSpace out) (containerName deploymentID) "" (RuntimeConfig.HostPort cfg)
             (RuntimeConfig.Image cfg) "created"), w)
  end.

Definition docker_command (d : DockerDriver) (what : string) (args : list string) (w : W) : option error * W :=
  let '((out, err), w) := run_cli (docker_cli d) args w in
  (wrapped (what +:+ truncate200 out) <$> err, w).

Definition docker_Start (d : DockerDriver) (id : string) : W → option error * W :=
  docker_command d "runtime: start: " ["start"; id].
Definition docker_Stop (d : DockerDriver) (id : string) (timeout : Duration) : W → option error * W :=
  docker_command d "runtime: stop: " ["stop"; "-t"; pretty (stop_seconds timeout); id].
Definition docker_Remove (d : DockerDriver) (id : string) : W → option error * W :=
  docker_command d "runtime: remove: " ["rm"; "-f"; id].

Definition docker_Inspect (d : DockerDriver) (id : string) (w : W) : result error ContainerInfo * W :=
  match run_cli (docker_cli d) ["inspect"; "--format"; "{{.Id}} {{.State.Status}}"; id] w with
  | ((_, Some e), w) => (Err (wrap_with CodeNotFound "runtime: inspect" e), w)
  | ((out, None), w) =>
      let '(i, st) := match Fields (TrimSpace out) with
                      | [] => (id, "unknown")
                      | [i] => (i, "unknown")
                      | i :: st :: _ => (i, st)
                      end in
      (Ok (ContainerInfo.mk i "" "" 0 "" st), w)
  end.

Definition docker_driver (d : DockerDriver) : RuntimeDriver W := {|
  driver_Create := docker_Create d; driver_Start := docker_Start d; driver_Stop := docker_Stop d;
  driver_Remove := docker_Remove d; driver_Inspect := docker_Inspect d;
|}.

(** ** The agent's API (agent_client.go) *)

(** The agent the annotation names; only a creation asks for it. *)
Definition resolveBase (baseURL : string) (cfg : RuntimeConfig) : string :=
  let u := default "" (RuntimeConfig.Annotations cfg !! "agnivo.agent_url") in
  if negb (u =s? "") then trimSlash u else baseURL.

Definition refusal (raw : string) : error := Platform (New CodeFailedPrecond ("runtime agent: " +:+ truncate200 raw)).
Definition no_reply (e : error) : error := wrap_with CodeUnavailable "runtime agent: request" e.

Definition doOK (r : http_reply) : option error :=
  match r with
  | Bad_url e => Some e
  | No_reply e => Some (no_reply e)
  | Replied status raw => if 400 <=? status then Some (refusal raw) else None
  end.

Definition doContainer (r : http_reply) : result error ContainerInfo :=
  match r with
  | Bad_url e => Err e
  | No_reply e => Err (no_reply e)
  | Replied status raw =>
      if 400 <=? status then Err (refusal raw)
      else match envelope_data raw with
      | Err e => Err (wrapped "runtime agent: decode" e)
      | Ok data =>
          match (if data =s? "" then Ok no_container else info_json data no_container) with
          | Err e => Err (wrapped "runtime agent: decode data" e)
          | Ok info =>
              if ContainerInfo.ID info =s? ""
              then match info_json raw info with
                   | Err e => Err (wrapped "runtime agent: decode direct" e)
                   | Ok info => Ok info
                   end
              else Ok info
          end
      end
  end.

Definition containers_url (base : string) : string := base +:+ "/internal/v1/runtime/containers".
Definition container_url (base id : string) : string := containers_url base +:+ "/" +:+ id.

Definition agent_request {A} (read : http_reply → A) (method url body : string) (w : W) : A * W :=
  let '(r, w) := http_do method url body w in (read r, w).

Definition agent_Create (base deploymentID : string) (cfg : RuntimeConfig) : W → result error ContainerInfo * W :=
  agent_request doContainer "POST" (containers_url (resolveBase base cfg)) (create_json deploymentID cfg).
Definition agent_Start (base id : string) : W → option error * W :=
  agent_request doOK "POST" (container_url base id +:+ "/start") "".
Definition agent_Stop (base id : string) (timeout : Duration) : W → option error * W :=
  agent_request doOK "POST" (container_url base id +:+ "/stop?timeout=" +:+ pretty (int64_of_f64 (Seconds timeout))) "".
Definition agent_Remove (base id : string) : W → option error * W :=
  agent_request doOK "DELETE" (container_url base id) "".
Definition agent_Inspect (base id : string) : W → result error ContainerInfo * W :=
  agent_request doContainer "GET" (container_url base id) "".

Definition agent_driver (base : string) : RuntimeDriver W := {|
  driver_Create := agent_Create base; driver_Start := agent_Start base; driver_Stop := agent_Stop base;
  driver_Remove := agent_Remove base; driver_Inspect := agent_Inspect base;
|}.

(** An [AgentDriver] made here always has an agent. *)
Definition NewAgentDriver (RuntimeAgentURL cli network : string) : RuntimeDriver W :=
  if RuntimeAgentURL =s? "" then docker_driver (NewDockerDriver cli network)
  else agent_driver (trimSlash RuntimeAgentURL).
End drivers.

(** ** A deployer and its agent

    The world of the deployer [U] without a container runtime of its own, and an
    agent with its database.  [parse] is the request the agent's server makes of
    a method, a URL and a body, with the pattern chi matched; [render] the body
    of an answer; [lost] says which requests the network loses. *)
Section linked.
Context {U V : Type} `{Wo : World U} `{AW : AgentWorld V} `{D : Driver} `{So : Sorter}.
Context `{DJ : DriverJson} `{DCreate : Decoder CreateRequest}.
Context (cfg : AgentConfig) (auth : InternalAuth).
Context (parse : string → string → string → Request) (render : ResponseOf AgentPayload → string).
Context (lost : string → U → option error * U).

Definition linked : Type := U * (agentdb V * faults).

Definition status_of {P} (r : ResponseOf P) : Z :=
  match r with Success a => answer_status a | Failure status _ _ => status end.

Definition deliver (method url body : string) (w : linked) : http_reply * linked :=
  let '(u, st) := w in
  match lost url u with
  | (Some e, u) => (No_reply e, (u, st))
  | (None, u) =>
      let '(r, st) := agent_serve cfg (NewClient cfg) auth (parse method url body) st in
      (match r with
       | Ok (Some resp) => Replied (status_of resp) (render resp)
       | Ok None => Replied 404 "404 page not found"
       | Err e => No_reply e
       end, (u, st))
  end.

#[export] Instance linked_driver : DriverWorld linked := {|
  run_cli _ _ w := ((EmptyString, Some (Plain "exec: not found")), w);
  http_do := deliver;
  driver_range m w := (map_to_list m, w);
|}.

Definition on_deployer {A} (op : U → A * U) (w : linked) : A * linked := let '(a, u) := op w.1 in (a, (u, w.2)).

(** The deployer with the runtime driver of the configured agent. *)
#[export] Program Instance linked_world (RuntimeAgentURL : string) : World linked := {|
  world_clock := {| now_of w := now_of w.1; new_uuid := on_deployer new_uuid |};
  pause d w := (pause d w.1, w.2);
  new_context p := on_deployer (new_context p);
  cancel_context x w := (cancel_context x w.1, w.2);
  context_err x w := context_err x w.1;
  post_reserve x o p d lo hi := on_deployer (post_reserve x o p d lo hi);
  post_release x o p d := on_deployer (post_release x o p d);
  pull_image x i g := on_deployer (pull_image x i g);
  load_config x o p e := on_deployer (load_config x o p e);
  create_container _ := driver_Create (NewAgentDriver RuntimeAgentURL "" "");
  start_container _ := driver_Start (NewAgentDriver RuntimeAgentURL "" "");
  stop_container _ := driver_Stop (NewAgentDriver RuntimeAgentURL "" "");
  remove_container _ := driver_Remove (NewAgentDriver RuntimeAgentURL "" "");
  dial x h p := on_deployer (dial x h p);
  http_get x h p u := on_deployer (http_get x h p u);
|}.
Next Obligation. intros url d [u st]. apply pause_lasts. Qed.
Next Obligation.
  intros url x h p [u st]. pose proof (dial_time x h p u). unfold on_deployer. cbn. by destruct (dial x h p u).
Qed.
Next Obligation.
  intros url x h p g [u st]. pose proof (http_get_time x h p g u). unfold on_deployer. cbn. by destruct (http_get x h p g u).
Qed.
End linked.
