(* ===== verification/AgentFacts.v ===== *)
(** * The runtime agent: what holds of it

    The Docker client converts the pointer [errors.Wrap] returns on success too,
    so that starting, stopping, restarting and removing a container always
    reports an error.  What follows for the agent's API, its tables and loops,
    and for a deployer that uses it. *)

From stdpp Require Import pretty.
From S2P Require Import Prelude GoLib Errors Postgres Sql Rbac DeployModel Rows Repository Outside DeployStore Health Pipeline PipelineTrace Deploy ControlPlane Password IdentityModel Slug IdentityStore IdentityService Access Placement AgentModel Agent AgentDriver.

(** ** Go values *)

Section go.
Context {S : Type}.
Implicit Types s : S.

Lemma wp_go_bind {A B} (m : db S (result err_value A)) (k : A → db S (result err_value B)) Q E s :
  wp m (λ r s, match r with Ok a => wp (k a) Q E s | Err f => Q (Err f) s end) E s → wp (go_bind m k) Q E s.
Proof.
  intros H. unfold go_bind. wp_step. eapply wp_mono; [exact H| |done]. cbn beta. intros [a|f] s' Hk; [done|by wp_step].
Qed.

Lemma wp_checked {A} (m : db S A) Q E s :
  wp m (λ a, Q (Ok a)) (λ e, Q (Err (Value e))) s → wp (checked m) Q E s.
Proof.
  intros H. unfold checked. do 2 wp_step. eapply wp_mono; [exact H|..]; cbn beta; intros; by wp_step.
Qed.
End go.

Ltac ag_step :=
  cbn beta iota;
  lazymatch goal with
  | |- wp (go_bind _ _) _ _ _ => apply wp_go_bind
  | |- wp (checked _) _ _ _ => apply wp_checked
  | |- wp (returns _) _ _ _ => apply wp_ret
  | |- wp (fails _) _ _ _ => apply wp_ret
  | |- wp (done_ _) _ _ _ => unfold done_
  | |- _ => wp_step
  end.

Lemma Forall_snoc' {A} (P : A → Prop) l x : Forall P l → P x → Forall P (l ++ [x]).
Proof. intros. apply Forall_app. split; [done|]. by apply Forall_singleton. Qed.

(** ** The containers of an agent *)

Definition idle_status (st : string) : Prop := st = StatusCreated ∨ st = StatusStopping ∨ st = StatusRestarting.

Definition idle (r : ContainerRecord) : Prop :=
  idle_status (ContainerRecord.Status r) ∧ ContainerRecord.StartedAt r = None ∧ ContainerRecord.StoppedAt r = None
  ∧ ContainerRecord.RestartCount r = 0.

Definition harmless (ty : string) : Prop :=
  ty ∈ [ImagePulled; ContainerCreated; ImageDeleted; MetricsCollected; HeartbeatSent].

Section agent.
Context {W : Type} `{AW : AgentWorld W} `{D : Driver} `{So : Sorter} (cfg : AgentConfig) (c : DockerClient).
Context (nodeID goarch goos : string) (labels_json : gmap string string → string) `{DCreate : Decoder CreateRequest}.
Implicit Types s : agentdb W.

(** No container ever counted as started or stopped, and nothing recorded of
    one's health. *)
Record stuck s : Prop := {
  stuck_idle : Forall idle (rt_containers s);
  stuck_unique : NoDup (ContainerRecord.ContainerID <$> rt_containers s);
  stuck_transitions : Forall (λ t, idle_status (Transition.To t)) (rt_transitions s);
  stuck_checks : rt_checks s = [];
  stuck_events : Forall (λ e, harmless (EventRow.EventType e)) (rt_events s);
  stuck_bus : Forall (λ e, harmless e.1.1) (rt_bus s);
}.

#[local] Abbreviation agent := (db (agentdb W)).
#[local] Abbreviation kept m s := (wp m (λ _, stuck) (λ _, stuck) s).

Lemma stuck_world w s : stuck s → stuck (put rt_world_l w s).
Proof. by intros []. Qed.

Lemma kept_engine {A} (op : W → A * W) s : stuck s → kept (engine op) s.
Proof. intros H. apply wp_draw. intros a w. by apply stuck_world. Qed.

Lemma stuck_put_containers t s :
  stuck s → Forall idle t → NoDup (ContainerRecord.ContainerID <$> t) → stuck (put rt_containers_l t s).
Proof. by intros [] ? ?. Qed.

Lemma idle_moved to now x : idle_status to → idle x → idle (ContainerRow.moved to now x).
Proof.
  intros Ht (H1 & H2 & H3 & H4). unfold idle, ContainerRow.moved. cbn.
  destruct Ht as [->|[->| ->]]; cbn; (split; [|done]); unfold idle_status; auto.
Qed.

Lemma kept_SetStatus id from to message s : idle_status to → stuck s → kept (SetStatus id from to message) s.
Proof.
  intros Ht Hs. unfold SetStatus. apply wp_Transact_in; [intros _ w; by apply stuck_world|].
  apply (wp_mono _ (λ _, stuck) _ (λ _, stuck)); [|done|done]. ag_step. eapply wp_mono; [by apply kept_engine| |done].
  cbn beta. intros now s1 H1. do 2 ag_step. apply wp_stmt; [done|]. unfold update_rows. cbn beta iota.
  ag_step. assert (stuck (put rt_containers_l
    (update_where (for_container id) (ContainerRow.moved to now) (rt_containers s1)) s1)) as H1'.
  { destruct H1. apply stuck_put_containers; [done|..].
    + apply Forall_update_where; [|done]. intros. by apply idle_moved.
    + by rewrite map_key_update_where. }
  eapply wp_mono; [by apply kept_engine| |done].
  cbn beta. intros tid s2 H2. do 3 ag_step. apply wp_stmt; [done|].
  apply insert_row_elim; [intros e; by rewrite put_view|]. intros _. cbn beta iota. ag_step.
  destruct H2. split; try done. by apply Forall_snoc'.
Qed.

Lemma kept_emit ev s : harmless ev.1.1 → stuck s → kept (emit ev) s.
Proof. intros He [] fs. cbn. split; try done. by apply Forall_snoc'. Qed.

Lemma kept_Publish ty meta data s : harmless ty → stuck s → kept (Publish ty meta data) s.
Proof.
  intros Ht Hs. unfold Publish. ag_step.
  apply (wp_mono _ (λ _, stuck) _ (λ _, stuck)); [destruct (_ =s? ""); [by apply kept_engine|by ag_step]| |done]. cbn beta. intros id s1 H1.
  ag_step. unfold InsertEvent. ag_step. eapply wp_mono; [by apply kept_engine| |done]. cbn beta. intros now s2 H2.
  do 3 ag_step. apply wp_stmt; [done|]. apply insert_row_elim; [intros e; by rewrite put_view|]. intros _.
  cbn beta iota. ag_step. apply kept_emit; [done|]. destruct H2. split; try done. by apply Forall_snoc'.
Qed.

Lemma kept_UpsertContainer rec s :
  idle_status (ContainerRecord.Status rec) → ContainerRecord.RestartCount rec = 0 → stuck s → kept (UpsertContainer rec) s.
Proof.
  intros Hst Hr Hs. unfold UpsertContainer. ag_step.
  apply (wp_mono _ (λ _, stuck) _ (λ _, stuck)); [destruct (_ =s? ""); [by apply kept_engine|by ag_step]| |done]. cbn beta. intros id s1 H1.
  ag_step. eapply wp_mono; [by apply kept_engine| |done]. cbn beta. intros now s2 H2. ag_step.
  apply wp_stmt; [done|]. unfold upsert_container.
  cbn [view rt_containers_l]. destruct H2.
  destruct (negb _); [by apply stuck_put_containers|].
  destruct (Z.eqb_spec (matched (for_container (ContainerRecord.ContainerID (with_record_id id rec))) (rt_containers s2)) 0) as [E|E];
    [destruct (_ =? 0); [|by apply stuck_put_containers]|]; cbn beta iota; apply stuck_put_containers; try done.
  - by apply Forall_snoc'.
  - rewrite fmap_app. apply NoDup_app. split; [done|split; [|apply NoDup_singleton]].
    intros x (y & -> & Hy)%list_elem_of_fmap Hx%list_elem_of_singleton.
    apply (proj1 (matched_zero _ _) E) in Hy. unfold for_container in Hy. cbn in Hx, Hy.
    by rewrite Hx, String.eqb_refl in Hy.
  - apply Forall_update_where; [|done]. by intros x _ _ (? & ? & ? & ?).
  - by rewrite map_key_update_where.
Qed.

Lemma kept_ignore {A} (m : agent A) (Q : unit → agentdb W → Prop) E s :
  kept m s → (∀ s', stuck s' → Q tt s') → wp (ignore m) Q E s.
Proof. intros Hm HQ. ag_step. eapply wp_mono; [exact Hm|..]; cbn beta; auto. Qed.

(** What the engine and the marking of a container do not break. *)
Record tolerant (I : agentdb W → Prop) : Prop := {
  tolerant_world w s : I s → I (put rt_world_l w s);
  tolerant_status id from to message s :
    idle_status to → I s → wp (SetStatus id from to message) (λ _, I) (λ _, I) s;
}.

Lemma tolerant_stuck : tolerant stuck.
Proof. split; [apply stuck_world|]. intros. by apply kept_SetStatus. Qed.

Lemma tolerant_any : tolerant (λ _, True).
Proof. split; [done|]. intros id from to message s _ _ fs. by destruct (SetStatus _ _ _ _ _) as [[] []]. Qed.

Lemma wp_record_or_zero id s (Q : ContainerRecord → agentdb W → Prop) E :
  (∀ x, Q x s) → wp (record_or_zero id) Q E s.
Proof.
  intros HQ. unfold record_or_zero, GetByContainerID. do 3 ag_step. apply wp_stmt; [intros; by ag_step|].
  apply select_row_elim; intros; cbn beta iota; ag_step; rewrite put_view; auto.
Qed.

Section refusals.
Context (I : agentdb W → Prop) (HI : tolerant I).

(** [return errors.Wrap(..)] is an error whatever Docker answered. *)
Definition refused {A} (m : agent (result err_value A)) : Prop :=
  ∀ s, I s → wp m (λ r s', I s' ∧ match r with Ok _ => False | Err _ => True end) (λ _ _, False) s.

Lemma refused_pointer {A} (op : W → option error * W) code message :
  refused (err ← engine op; mret (of_pointer (A := A) (Wrap err code message))).
Proof.
  intros s Hs. ag_step. apply wp_draw. intros err w. ag_step. split; [by apply (tolerant_world _ HI)|]. by destruct err.
Qed.

Lemma refused_go {A B} (m : agent (result err_value A)) (k : A → agent (result err_value B)) :
  refused m → refused (go_bind m k).
Proof.
  intros Hm s Hs. ag_step. eapply wp_mono; [by apply Hm| |done]. cbn beta. by intros [a|f] s' [? ?].
Qed.

(** After a computation that keeps the invariant and does not fail. *)
Lemma refused_after {A B} (m : agent A) (k : A → agent (result err_value B)) :
  (∀ s, I s → wp m (λ _, I) (λ _ _, False) s) → (∀ a, refused (k a)) → refused (m ≫= k).
Proof.
  intros Hm Hk s Hs. ag_step. eapply wp_mono; [by apply Hm| |done]. cbn beta. intros a s' H'. by apply Hk.
Qed.

(** After the marking of a container. *)
Lemma refused_marked {B} id from to message (k : unit → agent (result err_value B)) :
  idle_status to → (∀ a, refused (k a)) → refused (ignore (SetStatus id from to message) ≫= k).
Proof.
  intros Ht. apply refused_after. intros s Hs. ag_step. by eapply wp_mono; [by apply (tolerant_status _ HI)|..].
Qed.

(** None of the operations that change a container succeeds. *)
Lemma Start_refused id corr : refused (Start id corr).
Proof.
  apply refused_after; [intros s Hs; by apply wp_record_or_zero|]. intros rec. apply refused_go, refused_pointer.
Qed.

Lemma Stop_refused id timeout corr : refused (Stop id timeout corr).
Proof.
  apply refused_after; [intros s Hs; by apply wp_record_or_zero|]. intros rec.
  apply refused_marked; [unfold idle_status; auto|]. intros _. apply refused_go, refused_pointer.
Qed.

Lemma Remove_refused id corr : refused (Remove id corr).
Proof.
  apply refused_after; [intros s Hs; by apply wp_record_or_zero|]. intros rec.
  apply refused_after; [|intros _; apply refused_go, refused_pointer]. intros s Hs.
  eapply wp_mono; [by apply refused_pointer| |done]. cbn beta. tauto.
Qed.

Lemma Restart_refused id corr : refused (Restart cfg id corr).
Proof.
  intros s Hs. unfold Restart. do 2 ag_step. unfold GetByContainerID. ag_step.
  apply wp_stmt; [done|]. apply select_row_elim; intros; cbn beta iota; [by rewrite put_view|].
  rewrite put_view. destruct (_ && _); [by ag_step|].
  refine (refused_marked _ _ _ _ _ _ _ s Hs); [by right; right|]. intros _. apply refused_go, refused_pointer.
Qed.
End refusals.

(** ** What the other operations keep *)

Lemma kept_refused {A} (m : agent (result err_value A)) s : refused stuck m → stuck s → kept m s.
Proof. intros Hm Hs. eapply wp_mono; [by apply Hm|..]; cbn beta; tauto. Qed.

Lemma kept_EnsureNetwork s : stuck s → kept (EnsureNetwork c) s.
Proof.
  intros Hs. unfold EnsureNetwork. ag_step. eapply wp_mono; [by apply kept_engine| |done]. cbn beta. intros [e|] s1 H1.
  - ag_step. eapply wp_mono; [by apply kept_engine| |done]. cbn beta. intros err s2 H2. by ag_step.
  - by ag_step.
Qed.

Lemma kept_reading {A B} (op : W → A * W) (f : A → B) s : stuck s → kept (a ← engine op; mret (f a)) s.
Proof.
  intros Hs. ag_step. eapply wp_mono; [by apply kept_engine| |done]. cbn beta. intros a s1 H1. by ag_step.
Qed.

Lemma wp_CreateContainer req (Q : result err_value AgentInfo → agentdb W → Prop) E s :
  stuck s → (∀ r s', stuck s' → Q r s') → wp (CreateContainer c req) Q E s.
Proof.
  intros Hs HQ. unfold CreateContainer. destruct (_ =s? ""); [ag_step; auto|].
  do 3 (ag_step; eapply wp_draw; intros ? ?; cbn beta iota). ag_step. apply HQ. by repeat apply stuck_world.
Qed.

Lemma kept_Create req s : stuck s → kept (Create c req) s.
Proof.
  intros Hs. unfold Create. ag_step. eapply wp_mono; [by apply kept_EnsureNetwork| |done]. cbn beta. intros [[]|f] s1 H1; [|done].
  ag_step. eapply wp_mono; [by apply kept_reading| |done]. cbn beta. intros [[]|f] s2 H2; [|done].
  ag_step. apply kept_ignore; [apply kept_Publish; [unfold harmless; set_solver|done]|]. intros s3 H3.
  ag_step. apply wp_CreateContainer; [done|]. intros [info|f] s4 H4; [|done].
  ag_step. apply kept_ignore; [by apply kept_UpsertContainer; [left| |]|]. intros s5 H5.
  ag_step. apply kept_ignore; [by apply kept_SetStatus; [left|]|]. intros s6 H6.
  ag_step. apply kept_ignore; [apply kept_Publish; [unfold harmless; set_solver|done]|]. intros s7 H7. by ag_step.
Qed.

Lemma kept_GC s : stuck s → kept GC s.
Proof.
  intros Hs. unfold GC. ag_step. eapply wp_mono; [by apply kept_reading| |done]. cbn beta. intros [n|f] s1 H1; [|done].
  ag_step. apply (wp_mono _ (λ _, stuck) _ (λ _, stuck)); [|intros; by ag_step|done].
  destruct (0 <? n); [|by ag_step]. apply kept_ignore; [|done]. apply kept_Publish; [unfold harmless; set_solver|done].
Qed.

Lemma wp_ListActive (Q : list ContainerRecord → agentdb W → Prop) E s :
  (∀ e, E e s) → (Forall idle (rt_containers s) → ∀ l, Forall idle l → Q l s) → stuck s → wp ListActive Q E s.
Proof.
  intros He HQ Hs. unfold ListActive. ag_step. apply wp_stmt; [done|]. cbn beta iota. rewrite put_view.
  pose proof (stuck_idle _ Hs) as Hi. apply HQ; [done|]. apply Forall_sort_slice, Forall_forall.
  intros x [_ Hx]%elem_of_select. by eapply Forall_forall in Hx.
Qed.

Lemma idle_not_running x : idle x → (ContainerRecord.Status x =s? StatusRunning) = false.
Proof. by intros [[->|[->| ->]] _]. Qed.

Lemma check_each_idle l cpus mems : Forall idle l → check_each cfg l cpus mems = mret (cpus, mems).
Proof. induction 1 as [|x l Hx _ IH]; cbn [check_each]; [done|]. by rewrite idle_not_running. Qed.

Lemma kept_checkAll s : stuck s → kept (checkAll cfg) s.
Proof.
  intros Hs. unfold checkAll. do 2 ag_step. apply wp_ListActive; [intros e; by ag_step| |done]. intros _ l Hl.
  cbn beta iota. ag_step. rewrite check_each_idle by done. ag_step. apply kept_ignore; [|done].
  apply kept_Publish; [unfold harmless; set_solver|done].
Qed.

Lemma wp_mark_missing known l s (Q : unit → agentdb W → Prop) E :
  Forall idle l → Q tt s → wp (mark_missing known l) Q E s.
Proof.
  intros Hl HQ. induction Hl as [|x l Hx _ IH]; cbn [mark_missing]; [by ag_step|].
  rewrite idle_not_running, andb_false_r by done. by do 2 ag_step.
Qed.

Lemma kept_reconcile s : stuck s → kept reconcile s.
Proof.
  intros Hs. unfold reconcile. ag_step. eapply wp_mono; [by apply kept_reading| |done]. cbn beta.
  intros [l|f] s1 H1; [|by ag_step]. do 2 ag_step.
  apply wp_ListActive; [intros e| |done]; intros; cbn beta iota; by apply wp_mark_missing.
Qed.

Lemma wp_CountActive (Q : Z → agentdb W → Prop) E s :
  (∀ e, E e s) → Q (matched (λ x, ContainerRecord.Status x =s? StatusRestarting) (rt_containers s)) s → stuck s →
  wp CountActive Q E s.
Proof.
  intros He HQ Hs. unfold CountActive. ag_step. apply wp_stmt; [done|]. cbn beta iota. rewrite put_view.
  cbn [view rt_containers_l]. replace (matched counted (rt_containers s))
    with (matched (λ x, ContainerRecord.Status x =s? StatusRestarting) (rt_containers s)); [done|].
  unfold matched. do 2 f_equal. apply select_ext. intros x Hx. pose proof (stuck_idle _ Hs) as Hi.
  eapply Forall_forall in Hi; [|done]. by destruct Hi as [[Hi|[Hi|Hi]] _]; unfold counted; rewrite Hi.
Qed.

Lemma kept_Send s : stuck s → kept (Send cfg nodeID goarch goos labels_json) s.
Proof.
  intros Hs. unfold Send. destruct (_ =s? ""); [by ag_step|]. ag_step.
  eapply wp_mono; [by apply kept_reading| |done]. cbn beta. intros [v k] s1 H1. do 2 ag_step.
  assert (∀ n : result error Z, kept (let count := match n with Ok n => n | Err _ => 0 end in
    (err ← engine (PostHeartbeat (AgentConfig.SchedulerURL cfg +:+ "/internal/v1/heartbeat")
                    (heartbeat cfg nodeID goarch goos labels_json v k count));
    match err return agent (result err_value unit) with
    | Some e => mret (Err (Value e))
    | None => _ ← ignore (Publish HeartbeatSent (EventMeta.mk "" "" "" "" nodeID) (CountData "containers" count)); returns tt
    end)) s1) as Hrest.
  { intros n. cbv zeta. ag_step. eapply wp_mono; [by apply kept_engine| |done]. cbn beta. intros [e|] s2 H2; [by ag_step|].
    ag_step. apply kept_ignore; [apply kept_Publish; [unfold harmless; set_solver|done]|]. intros. by ag_step. }
  apply wp_CountActive; [intros e; apply (Hrest (Err e))|exact (Hrest (Ok _))|done].
Qed.

(** ** Requests *)

Lemma kept_then {A B} (m : agent (result err_value A)) (k : A → agent (result err_value B)) s :
  kept m s → (∀ a s', stuck s' → kept (k a) s') → kept (go_bind m k) s.
Proof. intros Hm Hk. ag_step. eapply wp_mono; [exact Hm| |done]. cbn beta. intros [a|f] s'; auto. Qed.

Lemma kept_checked {A} (m : agent A) s : kept m s → kept (checked m) s.
Proof. intros Hm. by ag_step. Qed.

Lemma kept_returns {A} (a : A) s : stuck s → kept (returns a) s.
Proof. intros. by ag_step. Qed.

Lemma kept_then_returns {A B} (m : agent (result err_value A)) (f : A → B) s :
  kept m s → kept (go_bind m (λ a, returns (f a))) s.
Proof. intros. apply kept_then; [done|]. intros. by apply kept_returns. Qed.

Lemma kept_select id s : stuck s → kept (GetByContainerID id) s.
Proof.
  intros. unfold GetByContainerID. ag_step. apply wp_stmt; [done|].
  apply select_row_elim; intros; cbn beta iota; by rewrite put_view.
Qed.

Lemma kept_Report id s : stuck s → kept (Report id) s.
Proof.
  intros Hs. unfold Report. apply kept_then; [by apply kept_checked, kept_select|]. intros rec s1 H1. ag_step.
  eapply wp_mono; [by apply kept_reading| |done]. cbn beta. intros [[cpu mem]|f] s2 H2; by ag_step.
Qed.

Lemma kept_ListLogs id limit s : stuck s → kept (ListLogs id limit) s.
Proof.
  intros. unfold ListLogs. ag_step. apply wp_stmt; [done|]. unfold limit_rows.
  destruct (_ <? 0); cbn beta iota; by rewrite put_view.
Qed.

(** The routes of the operations that change a container. *)
Definition changing : list (string * string) :=
  [("POST", "/internal/v1/runtime/containers/{containerID}/start");
   ("POST", "/internal/v1/runtime/containers/{containerID}/stop");
   ("POST", "/internal/v1/runtime/containers/{containerID}/restart");
   ("DELETE", "/internal/v1/runtime/containers/{containerID}")].

Lemma kept_list r s : stuck s → kept (handle_ListContainers r) s.
Proof. intros. apply kept_then_returns, kept_checked. by apply wp_ListActive. Qed.

Lemma kept_diagnostics r s : stuck s → kept (handle_Diagnostics r) s.
Proof. intros. unfold handle_Diagnostics. do 2 ag_step. by apply wp_CountActive; intros; try ag_step. Qed.

Lemma kept_creation r s : stuck s → kept (handle_CreateContainer c r) s.
Proof.
  intros. apply kept_then; [apply kept_checked; ag_step; by destruct (DecodeValidate _)|].
  intros req s1 H1. by apply kept_then_returns, kept_Create.
Qed.

Lemma routes_kept m p h : (m, p, h) ∈ agent_routes cfg c → ∀ r s, stuck s → kept (h r) s.
Proof.
  intros Hh r s Hs. unfold agent_routes in Hh. pose proof tolerant_stuck as Ht.
  repeat (apply elem_of_cons in Hh as [[= _ _ ->]|Hh]); [..|by apply elem_of_nil in Hh].
  1-3: by apply kept_returns.
  - by apply kept_list.
  - by apply kept_creation.
  - by apply kept_then_returns, kept_reading.
  - by apply kept_refused; [apply refused_go, Start_refused|].
  - by apply kept_refused; [apply refused_go, Stop_refused|].
  - by apply kept_refused; [apply refused_go, Restart_refused|].
  - by apply kept_refused; [apply refused_go, Remove_refused|].
  - by apply kept_then_returns, kept_Report.
  - by apply kept_then_returns, kept_checked, kept_ListLogs.
  - by apply kept_diagnostics.
Qed.

Lemma changing_refused I m p h :
  tolerant I → (m, p, h) ∈ agent_routes cfg c → (m, p) ∈ changing → ∀ r, refused I (h r).
Proof.
  intros Ht Hh Hc r. unfold agent_routes in Hh. cbn [String.append] in Hh. unfold changing in Hc.
  repeat (apply elem_of_cons in Hc as [[= -> ->]|Hc]); [..|by apply elem_of_nil in Hc];
    repeat (apply elem_of_cons in Hh as [Heq|Hh];
      [first [discriminate Heq|injection Heq as ->; apply refused_go;
         auto using Start_refused, Stop_refused, Restart_refused, Remove_refused]|]);
    by apply elem_of_nil in Hh.
Qed.

(** The status an answer has when the agent reports an error. *)
Definition failed (resp : ResponseOf AgentPayload) : Prop :=
  match resp with Success _ => False | Failure status _ _ => 400 ≤ status end.

Lemma answer_error_failed f : failed (answer_error f).
Proof.
  destruct f as [|e]; [cbn; lia|]. unfold answer_error, dto_Error, From. destruct (As e); cbn; apply HTTPStatus_bounds.
Qed.

(** The handler that runs for a request. *)
Lemma agent_serve_elim auth r (P : agent (option (ResponseOf AgentPayload)) → Prop) :
  (∀ e, P (mret (Some (answer_error (Value e))))) →
  ((Request.Method r, Request.Pattern r) ∉ changing → P (mret None)) →
  (∀ h, (Request.Method r, Request.Pattern r, h) ∈ agent_routes cfg c → P (a ← agent_answer r h; mret (Some a))) →
  P (agent_serve cfg c auth r).
Proof.
  intros He Hn Hh. unfold agent_serve. destruct (InternalServiceAuth auth r) as [e|]; [done|].
  destruct (filter _ _) as [|[[m p] h] l] eqn:E.
  - apply Hn. intros Hc. destruct r as [m p ps hs ra bd qs]. cbn [Request.Method Request.Pattern] in Hc. unfold changing in Hc.
    repeat (apply elem_of_cons in Hc as [[= -> ->]|Hc]; [discriminate E|]). by apply elem_of_nil in Hc.
  - assert ((m, p, h) ∈ (m, p, h) :: l) as Hin by left. rewrite <- E in Hin.
    apply list_elem_of_filter in Hin as [[-> ->] Hin]. by apply Hh.
Qed.

Lemma kept_agent_serve auth r s : stuck s → kept (agent_serve cfg c auth r) s.
Proof.
  intros Hs. apply agent_serve_elim; [intros; by wp_step|intros; by wp_step|]. intros h Hh. unfold agent_answer.
  do 2 wp_step. eapply wp_mono; [by eapply routes_kept| |done]. cbn beta. intros a s' H'. by do 2 wp_step.
Qed.

(** A changing request is answered with an error, whatever the tables. *)
Lemma wp_changing auth r s :
  (Request.Method r, Request.Pattern r) ∈ changing →
  wp (agent_serve cfg c auth r) (λ o _, match o with Some resp => failed resp | None => False end) (λ _ _, False) s.
Proof.
  intros Hc. apply agent_serve_elim; [intros; wp_step; apply answer_error_failed|done|]. intros h Hh. unfold agent_answer.
  do 2 wp_step. eapply wp_mono; [by eapply changing_refused; [apply tolerant_any|..]| |done]. cbn beta.
  intros [a|f] s' [_ ?]; [done|]. do 2 wp_step. apply answer_error_failed.
Qed.

(** ** The agent at work *)

(** A request, a tick of one of the loops, and the engine going its own way;
    [fs] are the failures of statements. *)
Inductive agent_step (auth : InternalAuth) : agentdb W → agentdb W → Prop :=
  | step_request r s fs : agent_step auth s (tables_of (agent_serve cfg c auth r (s, fs)))
  | step_health s fs : agent_step auth s (tables_of (checkAll cfg (s, fs)))
  | step_recovery s fs : agent_step auth s (tables_of (reconcile (s, fs)))
  | step_collection s fs : agent_step auth s (tables_of (GC (s, fs)))
  | step_heartbeat s fs : agent_step auth s (tables_of (Send cfg nodeID goarch goos labels_json (s, fs)))
  | step_engine s w : agent_step auth s (put rt_world_l w s).

Lemma stuck_step auth s s' : agent_step auth s s' → stuck s → stuck s'.
Proof.
  intros [r s0 fs|s0 fs|s0 fs|s0 fs|s0 fs|s0 w] Hs; [..|by apply stuck_world]; apply wp_tables.
  - by apply kept_agent_serve.
  - by apply kept_checkAll.
  - by apply kept_reconcile.
  - by apply kept_GC.
  - by apply kept_Send.
Qed.

(** C11: whatever requests, ticks of its loops, answers of Docker and failures of
    statements an agent with an empty database sees, none of its containers is
    ever recorded as running, stopped, failed or deleted, none has a start or stop
    time or a restart counted, no health check is ever stored, and each request to
    start, stop, restart or delete a container is answered with an error. *)
Theorem agent_never_starts auth w s r fs :
  rtc (agent_step auth) (mkAgent [] [] [] [] [] [] w) s →
  stuck s
  ∧ ((Request.Method r, Request.Pattern r) ∈ changing →
     match agent_serve cfg c auth r (s, fs) with (Ok (Some resp), _) => failed resp | _ => False end).
Proof.
  intros Hr. split.
  - remember (mkAgent _ _ _ _ _ _ w) as s0 eqn:E. assert (stuck s0) as H0 by (subst; by repeat constructor).
    clear E. induction Hr; [done|]. apply IHHr. by eapply stuck_step.
  - intros Hc. pose proof (wp_changing auth r s Hc fs) as H. by destruct (agent_serve _ _ _ _ _) as [[[resp|]|e] [s' fs']].
Qed.
End agent.

(** ** A deployer that uses the agent *)

(** Stages of a pipeline run that do not succeed. *)
Section pipeline.
Context {W : Type} `{Wo : World W} `{D : Driver} `{So : Sorter} `{J : Jsonb} (dcfg : Config).

Definition hopeless {A} (m : db (deploydb W) A) : Prop := ∀ st, wp m (λ _ _, False) (λ _ _, True) st.

Lemma hopeless_bind {A B} (m : db (deploydb W) A) (k : A → db (deploydb W) B) :
  (∀ a, hopeless (k a)) → hopeless (m ≫= k).
Proof.
  intros Hk st. wp_step. intros fs. destruct (m (st, fs)) as [[a|e] [st' fs']]; [by apply Hk|done].
Qed.

Lemma hopeless_first {A B} (m : db (deploydb W) A) (k : A → db (deploydb W) B) : hopeless m → hopeless (m ≫= k).
Proof. intros Hm st. wp_step. by eapply wp_mono; [apply Hm|..]. Qed.

Lemma hopeless_deferred {A} f (m : db (deploydb W) A) : hopeless m → hopeless (deferred f m).
Proof. intros Hm st. apply wp_deferred; [by intros ? ? ?|by intros ? ? ?|apply Hm]. Qed.

Lemma hopeless_or_fail {A} p e start reason (m : db (deploydb W) A) : hopeless m → hopeless (or_fail p e start reason m).
Proof.
  intros Hm st. apply wp_or_fail. eapply wp_mono; [apply Hm|done|]. cbn beta. intros err st' _.
  by exists (trace st').
Qed.

(** A driver that cannot start a container. *)
Context (Hstart : ∀ c id w, is_Some (start_container c id w).1).

Lemma hopeless_Rolling c sctx : hopeless (Rolling_Deploy c sctx).
Proof.
  unfold Rolling_Deploy. apply hopeless_bind. intros container st. do 2 wp_step. unfold drv_Start, ask_error.
  wp_step. apply wp_ask. intros err w E. destruct (Hstart c (ContainerInfo.ID container) (outside st)) as [e He].
  rewrite E in He. cbn in He. subst err. do 3 wp_step. intros fs.
  destruct (drv_Remove _ _ _) as [[[]|e'] [st' fs']]; by wp_step.
Qed.

Lemma hopeless_Deploy ex c sctx : hopeless (Deploy ex c sctx).
Proof. destruct ex; apply hopeless_Rolling. Qed.

Lemma hopeless_run parent p jobID rb : hopeless (run dcfg parent p jobID rb).
Proof.
  unfold run. do 2 (apply hopeless_bind; intros ?). apply hopeless_deferred, hopeless_bind. intros _.
  apply hopeless_deferred, hopeless_bind. intros j. unfold execute. cbv zeta. do 5 (apply hopeless_bind; intros ?).
  apply hopeless_deferred. unfold prepare. cbv zeta. do 9 (apply hopeless_bind; intros ?).
  unfold launch. apply hopeless_first, hopeless_or_fail, hopeless_Deploy.
Qed.
End pipeline.

Section linked.
Context {U V : Type} `{Wo : World U} `{AW : AgentWorld V} `{D : Driver} `{So : Sorter} `{J : Jsonb}.
Context `{DJ : DriverJson} `{DCreate : Decoder CreateRequest}.
Context (cfg : AgentConfig) (auth : InternalAuth).
Context (parse : string → string → string → Request) (render : ResponseOf AgentPayload → string).
Context (lost : string → U → option error * U) (dcfg : Config).

(** What net/http and chi make of a request: the method is the one sent, and a
    path that goes on behind "/containers/" is not taken for the pattern of the
    collection. *)
Hypothesis parse_method : ∀ m url body, Request.Method (parse m url body) = m.
Context (url : string) (Hurl : url ≠ "").
Hypothesis parse_member : ∀ m id body,
  Request.Pattern (parse m (container_url (trimSlash url) id) body) ≠ containers_url "".

#[local] Existing Instance linked_driver.

(** Of the routes with the method POST those of a container are refused. *)
Lemma post_member r :
  Request.Method r = "POST" → Request.Pattern r ≠ containers_url "" →
  (Request.Method r, Request.Pattern r) ∈ changing
  ∨ filter (λ '(m, p, h), m = Request.Method r ∧ p = Request.Pattern r) (agent_routes cfg (NewClient cfg)) = [].
Proof.
  intros Hm Hp. destruct (filter _ _) as [|[[m p] h] l] eqn:E; [by right|left].
  assert ((m, p, h) ∈ (m, p, h) :: l) as Hin by left. rewrite <- E in Hin. apply list_elem_of_filter in Hin as [[-> ->] Hin].
  unfold agent_routes in Hin. unfold changing. rewrite Hm in *.
  repeat (apply elem_of_cons in Hin as [Heq|Hin];
    [first [discriminate Heq|injection Heq as Hr _; first [by rewrite Hr in Hp|rewrite Hr; set_solver]]|]).
  by apply elem_of_nil in Hin.
Qed.

#[local] Existing Instance linked_world.
#[local] Abbreviation linked := (linked (U := U) (V := V)).

Lemma deliver_start m rest body (w : linked) r w' :
  m = "POST" → deliver cfg auth parse render lost m (container_url (trimSlash url) rest) body w = (r, w') → is_Some (doOK r).
Proof.
  intros -> E. destruct w as [u [s fs]]. unfold deliver in E. destruct (lost _ u) as [[e|] u']; [by simplify_eq|].
  set (rq := parse _ _ _) in *.
  destruct (post_member rq) as [Hc|Hn]; [apply parse_method|apply parse_member|..].
  - pose proof (wp_changing cfg (NewClient cfg) auth rq s Hc fs) as H.
    destruct (agent_serve _ _ _ _ _) as [[[resp|]|e] [s' fs']]; [|done..]. simplify_eq. destruct resp as [|status code msg]; [done|].
    cbn in H |- *. apply Z.leb_le in H as ->. by eexists.
  - unfold agent_serve in E. rewrite Hn in E. destruct (InternalServiceAuth auth rq) as [e|].
    + pose proof (answer_error_failed (Value e)) as H.
      destruct (answer_error (P := AgentPayload) (Value e)) as [|status code msg]; [done|].
      cbn in E, H. simplify_eq. cbn. apply Z.leb_le in H as ->. by eexists.
    + cbn in E. simplify_eq. by eexists.
Qed.

Lemma linked_start (c : ctx) id (w : linked) : is_Some (start_container (World := linked_world cfg auth parse render lost url) c id w).1.
Proof.
  cbn. unfold NewAgentDriver. rewrite (proj2 (String.eqb_neq url "") Hurl). cbn. unfold agent_Start, agent_request. cbn.
  replace (container_url (trimSlash url) id +:+ "/start") with (container_url (trimSlash url) (id +:+ "/start"))
    by (unfold container_url; by rewrite !app_assoc_s).
  destruct (deliver _ _ _ _ _ _ _ _ w) as [r w'] eqn:E. by apply deliver_start in E.
Qed.

(** C10: a deployer whose runtime is the agent never completes a deployment,
    whatever the agent's configuration and token, the network, Docker, the other
    services and the failures of statements of both databases: the agent answers
    the start of every container with an error. *)
Theorem agent_deployments_fail parent p jobID rb (st : deploydb linked) fs :
  is_ok (run (Wo := linked_world cfg auth parse render lost url) dcfg parent p jobID rb (st, fs)).1 = false.
Proof.
  pose proof (hopeless_run (Wo := linked_world cfg auth parse render lost url) dcfg linked_start parent p jobID rb st fs) as H.
  by destruct (run _ _ _ _ _ _) as [[[]|e] [st' fs']].
Qed.
End linked.
