(* ===== verification/AgentSim.v ===== *)
(** * The runtime agent: a simulated installation

    A Docker engine on which everything works, an agent, and a deployer that
    uses it; witnesses of the theorems of AgentFacts.v, and runs. *)

From stdpp Require Import pretty.
From S2P Require Import Prelude GoLib Errors Postgres Sql Rbac DeployModel Rows Repository Outside DeployStore Health Pipeline PipelineTrace Deploy ControlPlane Password IdentityModel Slug IdentityStore IdentityService Access Placement AgentModel Agent AgentDriver AgentFacts.

(** The engine: a counter for identifiers, whether the network is there, and the
    state of each container. *)
Record docker_sim := { ds_ids : nat; ds_network : bool; ds_containers : gmap string string }.

Definition ds_set (id state : string) (w : docker_sim) : docker_sim :=
  {| ds_ids := ds_ids w; ds_network := ds_network w; ds_containers := <[id := state]> (ds_containers w) |}.
Definition ds_next (w : docker_sim) : docker_sim :=
  {| ds_ids := S (ds_ids w); ds_network := ds_network w; ds_containers := ds_containers w |}.
Definition missing : error := Plain "No such container".

Definition ds_change (id : string) (f : docker_sim → docker_sim) (w : docker_sim) : option error * docker_sim :=
  match ds_containers w !! id with Some _ => (None, f w) | None => (Some missing, w) end.

#[export] Program Instance docker_sim_world : AgentWorld docker_sim := {|
  agent_env := {| read_clock w := (Z.of_nat (ds_ids w), w); fresh_id w := ("id" +:+ pretty (ds_ids w), ds_next w) |};
  range_map m w := (map_to_list m, w);
  NetworkInspect _ w := (if ds_network w then None else Some (Plain "network not found"), w);
  NetworkCreate _ _ w := (None, {| ds_ids := ds_ids w; ds_network := true; ds_containers := ds_containers w |});
  ImagePull _ w := (None, w);
  ContainerCreate spec w := let id := "c" +:+ pretty (ds_ids w) in (Ok id, ds_next (ds_set id "created" w));
  ContainerStart id w := ds_change id (ds_set id "running") w;
  ContainerStop id _ w := ds_change id (ds_set id "exited") w;
  ContainerRemove id w :=
    ds_change id (λ w, {| ds_ids := ds_ids w; ds_network := ds_network w; ds_containers := delete id (ds_containers w) |}) w;
  ContainerRestart id _ w := ds_change id (ds_set id "running") w;
  ContainerInspect id w :=
    (match ds_containers w !! id with
     | Some st => Ok {| insp_ID := id; insp_Name := id; insp_Image := "app:1"; insp_Status := st; insp_Ports := [["30000"]] |}
     | None => Err missing
     end, w);
  ContainerStats id w := (Ok (104857600, 20000000), w);
  ContainerLogs _ _ w := (Ok "", w);
  ImagesPrune w := (Ok 0, w);
  ContainerList w :=
    (Ok ((λ '(id, st), {| list_ID := id; list_Name0 := "/agnivo-" +:+ id; list_Image := "app:1"; list_State := st;
                          list_Labels := ∅ |}) <$> map_to_list (ds_containers w)), w);
  ServerVersion w := (Ok ("27.0", "6.8"), w);
  PostHeartbeat _ _ w := (None, w);
|}.
Next Obligation. done. Qed.
Next Obligation. by intros id w u t [= <- <-]. Qed.

#[local] Existing Instance strict_driver.
#[local] Existing Instance insertion_sorter.

Definition agent_cfg : AgentConfig :=
  AgentConfig.mk 9103 "http://scheduler" "10.0.0.2" 9103 "eu" "eu-1" "small" "agnivo" 10 (f64_of_Z 4) 4096 100 0 5 "1.0".

Definition create_app : CreateRequest := CreateRequest.mk "d1" "app:1" ∅ ∅ ∅ 8080 30000 "" "corr".

#[local] Instance decode_app : Decoder CreateRequest := λ body,
  if body =s? "app" then Ok create_app else Err (Plain "unexpected EOF").

Definition no_auth : InternalAuth := {| InternalServiceToken := ""; production := false |}.

Definition agent_request (method suffix id body : string) : Request :=
  Request.mk method ("/internal/v1/runtime" +:+ suffix) {[ "containerID" := id ]} ∅ "10.0.0.9:1" body ∅.

Definition fresh_agent : agentdb docker_sim :=
  mkAgent [] [] [] [] [] [] {| ds_ids := 0; ds_network := true; ds_containers := ∅ |}.

Definition ask_agent (r : Request) (s : agentdb docker_sim) : result error (option (ResponseOf AgentPayload)) * agentdb docker_sim :=
  let '(a, (s, _)) := agent_serve agent_cfg (NewClient agent_cfg) no_auth r (s, []) in (a, s).

Definition created : agentdb docker_sim :=
  tables_of (agent_serve agent_cfg (NewClient agent_cfg) no_auth (agent_request "POST" "/containers" "" "app") (fresh_agent, [])).
Definition app_id : string := default "" (head (ContainerRecord.ContainerID <$> rt_containers created)).
Definition start_app : Request := agent_request "POST" "/containers/{containerID}/start" app_id "".

(** Docker starts the container; the agent answers 500 and its row says created. *)
Example started_yet_500 :
  let '(a, s) := ask_agent start_app created in
  app_id = "c1"
  ∧ a = Ok (Some (Failure 500 "internal_error" "an unexpected error occurred"))
  ∧ ContainerRecord.Status <$> rt_containers s = ["created"]
  ∧ ds_containers (rt_world s) !! app_id = Some "running".
Proof. vm_compute. done. Qed.

(** The first creation on an engine without the network makes the network and
    fails; the second one succeeds. *)
Example first_creation_fails :
  let s0 := mkAgent [] [] [] [] [] [] {| ds_ids := 0; ds_network := false; ds_containers := ∅ |} in
  let r := agent_request "POST" "/containers" "" "app" in
  let '(a1, s1) := ask_agent r s0 in
  let '(a2, s2) := ask_agent r s1 in
  a1 = Ok (Some recovered) ∧ ds_network (rt_world s1) = true ∧ length (rt_containers s1) = 0%nat
  ∧ length (rt_containers s2) = 1%nat ∧ match a2 with Ok (Some (Success _)) => True | _ => False end.
Proof. vm_compute. done. Qed.

Lemma agent_never_starts_witness :
  stuck created
  ∧ match agent_serve agent_cfg (NewClient agent_cfg) no_auth start_app (created, []) with
    | (Ok (Some resp), _) => failed resp
    | _ => False
    end.
Proof.
  destruct (agent_never_starts agent_cfg (NewClient agent_cfg) "n1" "amd64" "linux" (λ _, "{}") no_auth
              (rt_world fresh_agent) created start_app []) as [H1 H2]; [apply rtc_once, step_request|].
  split; [exact H1|]. apply H2. unfold changing. apply elem_of_cons. by left.
Defined.

(** Without an Authorization header a token, or production without one, shuts the
    API; no client of the repository sends the header. *)
Example token_shuts_api :
  let a := {| InternalServiceToken := "secret"; production := true |} in
  (agent_serve agent_cfg (NewClient agent_cfg) a start_app (created, [])).1
    = Ok (Some (Failure 401 "unauthenticated" "missing bearer token")).
Proof. vm_compute. done. Qed.

(** ** A deployer and the agent *)

#[local] Instance sim_json : DriverJson := {|
  create_json _ _ := "app";
  envelope_data raw := Ok raw;
  info_json raw info := Ok (ContainerInfo.mk raw "app" "" 30000 "app:1" "created");
|}.

Definition agent_at : string := "http://agent".

Definition suffix_is (suf s : string) : bool :=
  (drop_bytes (String.length s - String.length suf) s =s? suf).

(** net/http and chi, for the URLs of the client. *)
Definition sim_parse (method url body : string) : Request :=
  let base := containers_url agent_at in
  let rest := drop_bytes (String.length base + 1) url in
  let cut suf := take_bytes (String.length rest - String.length suf) rest in
  let request suffix id := Request.mk method ("/internal/v1/runtime" +:+ suffix) {[ "containerID" := id ]} ∅ "" body ∅ in
  if url =s? base then request "/containers" ""
  else if suffix_is "/start" rest then request "/containers/{containerID}/start" (cut "/start")
  else if (method =s? "POST") then request "/containers/{containerID}/stop" (take_bytes (default 0%nat (index rest "/")) rest)
  else request "/containers/{containerID}" rest.

Definition sim_render (r : ResponseOf AgentPayload) : string :=
  match r with Success {| answer_data := Some (InfoData i) |} => AgentInfo.ID i | _ => "{}" end.

Definition sim_lost (_ : string) (u : sim) : option error * sim := (None, u).

#[local] Instance text_jsonb' : Jsonb := {| json_object := λ _, "{}"; jsonb_merge := λ a b, if b =s? "{}" then a else b |}.

Definition deployer_db : deploydb (linked (U := sim) (V := docker_sim)) :=
  let db := built_db StatusBuilt [200; 200; 200] in
  mkDb (deployments db) (timeline db) (artifacts db) (projects db) (executions db) (transitions db) (containers db)
    (health_checks db) (devents db) (active db) (outside db, (fresh_agent, [])) (trace db).

#[local] Abbreviation agent_world :=
  (linked_world (U := sim) (V := docker_sim) agent_cfg no_auth sim_parse sim_render sim_lost agent_at).

Lemma container_not_collection id : container_url (trimSlash agent_at) id ≠ containers_url agent_at.
Proof.
  intros H. apply (f_equal String.length) in H. unfold container_url in H. rewrite !length_app_s in H.
  change (trimSlash agent_at) with agent_at in H. cbn in H. lia.
Qed.

Lemma agent_deployments_fail_witness :
  is_ok (run (Wo := agent_world) some_config 0 some_payload "j1" false (deployer_db, [])).1 = false.
Proof.
  apply (agent_deployments_fail agent_cfg no_auth sim_parse sim_render sim_lost some_config).
  - intros m url body. unfold sim_parse. repeat case_match; done.
  - discriminate.
  - intros m id body. unfold sim_parse. destruct (String.eqb_spec (container_url (trimSlash agent_at) id) (containers_url agent_at)) as [E|_];
      [by apply container_not_collection in E|]. repeat case_match; discriminate.
Defined.

(** The run creates the container, Docker starts it, the agent reports an error,
    and the deployer has it removed and the deployment failed. *)
Example agent_run :
  let st := tables_of (run (Wo := agent_world) some_config 0 some_payload "j1" false (deployer_db, [])) in
  Deployment.Status <$> deployments st = [StatusFailed]
  ∧ match trace st with
    | [RReserve _ _; RPull _ true; RCreate _ _ (Some "c1"); RStart "c1" false; RRemove "c1" false; RRelease _] => True
    | _ => False
    end.
Proof. vm_compute. done. Qed.
