(* ===== verification/EdgeNet.v ===== *)
(** * The edge: addresses, middleware and live streaming
    (packages/application/proxy/middleware and streaming, cache/redis/ratelimit.go)

    IP addresses and networks as [net] parses them; the middleware as functions
    of the request; the two rate limiters; and the streaming hub as a state
    machine whose steps are what its goroutines do between two points where they
    can be interrupted.  Go's header maps are keyed by canonical names. *)

From Stdlib Require Import Ascii SpecFloat.
From S2P Require Import Prelude GoLib Errors Postgres Sql Rbac DeployModel Rows Repository ControlPlane Password IdentityModel Slug IdentityStore IdentityService Access.

(** ** Addresses ([net.ParseIP], [net.ParseCIDR], [net.SplitHostPort]) *)

(** The sixteen bytes of an address. *)
Abbreviation IP := (list Z).

Definition v4_prefix : list Z := replicate 10 0 ++ [255; 255].

Definition v4_field (s : string) : option Z :=
  match s with
  | EmptyString => None
  | String a rest =>
      if bool_decide (a = "0"%char) && negb (rest =s? "") then None
      else n ← decimal 0 s; if (String.length s <=? 3)%nat && (n <=? 255) then Some n else None
  end.

Definition v4_bytes (s : string) : option (list Z) :=
  match Split s "." with
  | [_; _; _; _] as l => mapM v4_field l
  | _ => None
  end.

Definition hex_digit (a : ascii) : option Z :=
  let n := Z.of_nat (nat_of_ascii a) in
  if digit a then Some (n - 48)
  else if code_in 97 102 a then Some (n - 87)
  else if code_in 65 70 a then Some (n - 55)
  else None.

Fixpoint hex_value (n : Z) (s : string) : option Z :=
  match s with
  | EmptyString => Some n
  | String a s => d ← hex_digit a; hex_value (16 * n + d) s
  end.

(** The two bytes of a group. *)
Definition v6_group (s : string) : option (list Z) :=
  if (s =s? "") || (4 <? String.length s)%nat then None
  else n ← hex_value 0 s; Some [n / 256; n mod 256].

(** Groups; the last may be a dotted address. *)
Fixpoint v6_groups (dotted : bool) (l : list string) : option (list Z) :=
  match l with
  | [] => Some []
  | [s] => if dotted && Contains s "." then v4_bytes s else v6_group s
  | s :: l => g ← v6_group s; gs ← v6_groups dotted l; Some (g ++ gs)
  end.

Definition v6_part (dotted : bool) (s : string) : option (list Z) :=
  if s =s? "" then Some [] else v6_groups dotted (Split s ":").

Definition v6_bytes (s : string) : option (list Z) :=
  match index s "::" with
  | None => l ← v6_part true s; if (length l =? 16)%nat then Some l else None
  | Some i =>
      l ← v6_part false (take_bytes i s);
      r ← v6_part true (drop_bytes (i + 2) s);
      if (length l + length r <=? 14)%nat then Some (l ++ replicate (16 - length l - length r) 0 ++ r) else None
  end.

(** The first dot or colon decides. *)
Definition dotted_first (s : string) : bool :=
  match index s ".", index s ":" with
  | Some i, Some j => (i <? j)%nat
  | Some _, None => true
  | None, _ => false
  end.

Definition ParseIP (s : string) : option IP :=
  if dotted_first s then b ← v4_bytes s; Some (v4_prefix ++ b)
  else if Contains s ":" then v6_bytes s
  else None.

Definition To4 (ip : IP) : option (list Z) :=
  if bool_decide (take 12 ip = v4_prefix) then Some (drop 12 ip) else None.

Record IPNet := { net_bytes : list Z; net_bits : Z }.

Definition mask_byte (bits : Z) : Z :=
  if 8 <=? bits then 255 else if bits <=? 0 then 0 else 256 - 2 ^ (8 - bits).

Fixpoint mask (bits : Z) (l : list Z) : list Z :=
  match l with [] => [] | b :: l => Z.land b (mask_byte bits) :: mask (bits - 8) l end.

(** The network of an address and a length; a network of mapped addresses is
    compared as one of four bytes. *)
Definition ParseCIDR (s : string) : option IPNet :=
  i ← index s "/";
  let addr := take_bytes i s in let m := drop_bytes (i + 1) s in
  ip ← ParseIP addr;
  n ← (if m =s? "" then None else decimal 0 m);
  if dotted_first addr then
    if n <=? 32 then Some {| net_bytes := mask n (drop 12 ip); net_bits := n |} else None
  else if n <=? 128 then
    match To4 (mask n ip) with
    | Some b => Some {| net_bytes := b; net_bits := n - 96 |}
    | None => Some {| net_bytes := mask n ip; net_bits := n |}
    end
  else None.

Definition net_Contains (n : IPNet) (ip : IP) : bool :=
  let b := default ip (To4 ip) in
  (length b =? length (net_bytes n))%nat && bool_decide (mask (net_bits n) b = mask (net_bits n) (net_bytes n)).

(** The host, [""] for an error. *)
Definition SplitHostPort (s : string) : string :=
  match last_index s ":" with
  | None => ""
  | Some i =>
      match s with
      | String a rest =>
          if bool_decide (a = "["%char) then
            match index rest "]" with
            | Some e =>
                let host := take_bytes e rest in
                if (e + 2 =? i)%nat && negb (Contains host "[")
                   && negb (Contains (drop_bytes (e + 1) rest) "[") && negb (Contains (drop_bytes (e + 1) rest) "]")
                then host else ""
            | None => ""
            end
          else
            let host := take_bytes i s in
            if Contains host ":" || Contains s "[" || Contains s "]" then "" else host
      | EmptyString => ""
      end
  end.

(** ** Middleware (edge.go) *)

Definition realIPHeaders : list string := ["CF-Connecting-IP"; "X-Real-IP"; "X-Forwarded-For"].

Definition private_networks : list string :=
  ["127.0.0.0/8"; "::1/128"; "10.0.0.0/8"; "172.16.0.0/12"; "192.168.0.0/16"].

Definition parseCIDRs (cidrs : list string) : list IPNet :=
  omap ParseCIDR cidrs ++ omap ParseCIDR private_networks.

Definition isTrusted (ip : IP) (trusted : list IPNet) : bool := existsb (λ n, net_Contains n ip) trusted.

Definition leftmost (val : string) : string :=
  TrimSpace (match index val "," with Some i => take_bytes i val | None => val end).

Fixpoint header_ip (r : Request) (hdrs : list string) : option string :=
  match hdrs with
  | [] => None
  | h :: hdrs =>
      let ip := leftmost (Header r h) in
      if negb (Header r h =s? "") && bool_decide (is_Some (ParseIP ip)) then Some ip else header_ip r hdrs
  end.

(** The address [RealIP] stores in the context, if it stores one. *)
Definition RealIP (trustedCIDRs : list string) (r : Request) : option string :=
  ip ← ParseIP (SplitHostPort (Request.RemoteAddr r));
  if isTrusted ip (parseCIDRs trustedCIDRs) then header_ip r realIPHeaders else None.

Abbreviation response_headers := (gmap string string).

Definition EdgeSecurityHeaders (h : response_headers) : response_headers :=
  <["Permissions-Policy" := "geolocation=(), microphone=(), camera=()"]>
  (<["Strict-Transport-Security" := "max-age=31536000; includeSubDomains"]>
  (<["X-XSS-Protection" := "0"]>
  (<["Referrer-Policy" := "strict-origin-when-cross-origin"]>
  (<["X-Frame-Options" := "SAMEORIGIN"]>
  (<["X-Content-Type-Options" := "nosniff"]> h))))).

Definition set_headers (f : gmap string string → gmap string string) (r : Request) : Request :=
  Request.mk (Request.Method r) (Request.Pattern r) (Request.params r) (f (Request.headers r))
    (Request.RemoteAddr r) (Request.body r) (Request.query r).

(** [fresh] is the identifier drawn when the request has none. *)
Definition EdgeRequestID (fresh : string) (r : Request) (h : response_headers) : Request * response_headers :=
  let id := if Header r "X-Request-ID" =s? "" then fresh else Header r "X-Request-ID" in
  let corrID := if Header r "X-Correlation-ID" =s? "" then id else Header r "X-Correlation-ID" in
  let set m := <["X-Correlation-ID" := corrID]> (<["X-Request-ID" := id]> m) in
  (set_headers set r, set h).

(** [EqualFold] and [ToLower] on ASCII. *)
Definition isWebSocketUpgrade (r : Request) : bool :=
  (ToLower (Header r "Upgrade") =s? "websocket") && Contains (ToLower (Header r "Connection")) "upgrade".

Definition WebSocketUpgrade (r : Request) (h : response_headers) : response_headers :=
  if isWebSocketUpgrade r then <["Upgrade" := "websocket"]> (<["Connection" := "Upgrade"]> h) else h.

Definition StreamingSupport (h : response_headers) : response_headers := <["X-Accel-Buffering" := "no"]> h.

(** Whose requests are counted: the address of the context, or the peer. *)
Definition limited_by (clientIP : option string) (r : Request) : string :=
  match clientIP with Some ip => ip | None => SplitHostPort (Request.RemoteAddr r) end.

Record inMemoryBucket := { bucket_count : Z; resetAt : Time }.

(** One request of [InMemoryRateLimit]: is it passed on, and the buckets after. *)
Definition InMemoryRateLimit (limit : Z) (window : Duration) (ip : string) (now : Time)
    (buckets : gmap string inMemoryBucket) : bool * gmap string inMemoryBucket :=
  let fresh := {| bucket_count := 0; resetAt := Add now window |} in
  let b := match buckets !! ip with
           | Some b => if After now (resetAt b) then fresh else b
           | None => fresh
           end in
  let count := bucket_count b + 1 in
  (count <=? limit, <[ip := {| bucket_count := count; resetAt := resetAt b |}]> buckets).

(** ** The token bucket (cache/redis/ratelimit.go)

    The script runs atomically in Redis; Lua's numbers are doubles, and a number
    survives the hash it is stored in.  The clock is the caller's, in
    milliseconds; the expiry of idle keys is in the server's time. *)

Record token_bucket := { tb_tokens : f64; tb_ts : Z }.

Definition fmin (x y : f64) : f64 := if fltb y x then y else x.
Definition fmax (x y : f64) : f64 := if fltb x y then y else x.

(** [math.min(capacity, tokens + elapsed * rate)] of the stored state, if any. *)
Definition refilled (capacity : Z) (rate : f64) (now : Z) (state : option token_bucket) : f64 :=
  let '(tokens, ts) := match state with
                       | Some b => (tb_tokens b, tb_ts b)
                       | None => (f64_of_Z capacity, now)
                       end in
  let elapsed := fdiv (fmax f0 (f64_of_Z (now - ts))) f1000 in
  fmin (f64_of_Z capacity) (fadd tokens (fmul elapsed rate)).

Definition tokenBucketScript (capacity : Z) (rate : f64) (now requested : Z) (state : option token_bucket)
    : bool * token_bucket :=
  let tokens := refilled capacity rate now state in
  if fleb (f64_of_Z requested) tokens
  then (true, {| tb_tokens := fsub tokens (f64_of_Z requested); tb_ts := now |})
  else (false, {| tb_tokens := tokens; tb_ts := now |}).

(** [RateLimit]: the answer of Redis, or its failure; the window is not used. *)
Definition RateLimit (limit : Z) (ip : string) (now : Z) (failed : bool) (store : gmap string token_bucket)
    : bool * gmap string token_bucket :=
  if failed then (true, store)
  else
    let key := "ratelimit:edge:" +:+ ip in
    let '(allowed, b) := tokenBucketScript limit (f64_of_Z limit) now 1 (store !! key) in
    (allowed, <[key := b]> store).

(** ** The streaming hub (streaming/hub.go) *)

Module StreamMessage.
Record t := mk {
  ID : string; Channel : string; EventType : string; OrgID : string; ProjectID : string;
  DeploymentID : string; CorrelationID : string; Payload : string; Timestamp : Time
}.
End StreamMessage.
Abbreviation StreamMessage := StreamMessage.t.

(** What encoding/json makes of a message. *)
Class MessageJson := {
  message_json : StreamMessage → string;
  message_of_json : string → option StreamMessage;
}.

Definition channelProxy : string := "proxy:events".
Definition channelDeployment : string := "proxy:deployment:".
Definition channelProject : string := "proxy:project:".
Definition channelOrg : string := "proxy:org:".
Definition channelBroadcast : string := "proxy:broadcast".

Definition ChannelForDeployment (id : string) : string := channelDeployment +:+ id.
Definition ChannelForProject (id : string) : string := channelProject +:+ id.
Definition ChannelForOrg (id : string) : string := channelOrg +:+ id.

Definition channelForMessage (m : StreamMessage) : string :=
  if negb (StreamMessage.DeploymentID m =s? "") then channelDeployment +:+ StreamMessage.DeploymentID m
  else if negb (StreamMessage.ProjectID m =s? "") then channelProject +:+ StreamMessage.ProjectID m
  else if negb (StreamMessage.OrgID m =s? "") then channelOrg +:+ StreamMessage.OrgID m
  else channelProxy.

(** A subscriber, and the capacity of its channel. *)
Record Subscriber := { sub_id : string; sub_channel : string; sub_cap : nat }.

#[export] Instance Subscriber_eq_dec : EqDecision Subscriber.
Proof. solve_decision. Defined.

(** [wire] is what Redis still has to deliver; [buffers] are the Go channels by
    subscriber; [dispatching] and [pinging] what the loops of [dispatch] and of
    [Heartbeat] have left to send.  While [pinging] is [Some], the read lock is
    held.  [entering]: calls of [Subscribe] that have appended their subscriber
    and released the lock, and still have to raise the counter.  [leaving]: a
    call of [Unsubscribe] has removed and closed its subscriber and, the lock
    still held, has to lower it.  [publishing]: calls of [Publish] whose message
    is sent and not yet counted.  [crashed]: a goroutine has sent on a closed
    channel. *)
Record hub := mkHub {
  subs : gmap string (list Subscriber);
  activeConns : Z;
  totalPublished : Z;
  wire : list (string * string);
  buffers : gmap string (list StreamMessage);
  closed : gset string;
  dispatching : option (StreamMessage * list Subscriber);
  pinging : option (list (string * Subscriber));
  entering : nat;
  leaving : bool;
  publishing : nat;
  crashed : bool;
}.

Definition NewHub : hub := mkHub ∅ 0 0 [] ∅ ∅ None None 0 false 0 false.

Definition set_subs (x : gmap string (list Subscriber)) (h : hub) : hub :=
  mkHub x (activeConns h) (totalPublished h) (wire h) (buffers h) (closed h) (dispatching h) (pinging h)
    (entering h) (leaving h) (publishing h) (crashed h).
Definition add_conns (n : Z) (h : hub) : hub :=
  mkHub (subs h) (wrap64 (activeConns h + n)) (totalPublished h) (wire h) (buffers h) (closed h) (dispatching
    h) (pinging h) (entering h) (leaving h) (publishing h) (crashed h).
Definition add_published (n : Z) (h : hub) : hub :=
  mkHub (subs h) (activeConns h) (wrap64 (totalPublished h + n)) (wire h) (buffers h) (closed h) (dispatching
    h) (pinging h) (entering h) (leaving h) (publishing h) (crashed h).
Definition set_wire (x : list (string * string)) (h : hub) : hub :=
  mkHub (subs h) (activeConns h) (totalPublished h) x (buffers h) (closed h) (dispatching h) (pinging h)
    (entering h) (leaving h) (publishing h) (crashed h).
Definition set_buffers (x : gmap string (list StreamMessage)) (h : hub) : hub :=
  mkHub (subs h) (activeConns h) (totalPublished h) (wire h) x (closed h) (dispatching h) (pinging h)
    (entering h) (leaving h) (publishing h) (crashed h).
Definition close_sub (id : string) (h : hub) : hub :=
  mkHub (subs h) (activeConns h) (totalPublished h) (wire h) (buffers h) ({[id]} ∪ closed h) (dispatching h)
    (pinging h) (entering h) (leaving h) (publishing h) (crashed h).
Definition set_dispatching (x : option (StreamMessage * list Subscriber)) (h : hub) : hub :=
  mkHub (subs h) (activeConns h) (totalPublished h) (wire h) (buffers h) (closed h) x (pinging h) (entering h)
    (leaving h) (publishing h) (crashed h).
Definition set_pinging (x : option (list (string * Subscriber))) (h : hub) : hub :=
  mkHub (subs h) (activeConns h) (totalPublished h) (wire h) (buffers h) (closed h) (dispatching h) x
    (entering h) (leaving h) (publishing h) (crashed h).
Definition set_entering (x : nat) (h : hub) : hub :=
  mkHub (subs h) (activeConns h) (totalPublished h) (wire h) (buffers h) (closed h) (dispatching h) (pinging
    h) x (leaving h) (publishing h) (crashed h).
Definition set_leaving (x : bool) (h : hub) : hub :=
  mkHub (subs h) (activeConns h) (totalPublished h) (wire h) (buffers h) (closed h) (dispatching h) (pinging
    h) (entering h) x (publishing h) (crashed h).
Definition set_publishing (x : nat) (h : hub) : hub :=
  mkHub (subs h) (activeConns h) (totalPublished h) (wire h) (buffers h) (closed h) (dispatching h) (pinging
    h) (entering h) (leaving h) x (crashed h).
Definition crash (h : hub) : hub :=
  mkHub (subs h) (activeConns h) (totalPublished h) (wire h) (buffers h) (closed h) (dispatching h) (pinging
    h) (entering h) (leaving h) (publishing h) true.

Definition on_channel (ch : string) (h : hub) : list Subscriber := default [] (subs h !! ch).
Definition buffer (id : string) (h : hub) : list StreamMessage := default [] (buffers h !! id).

(** [select { case sub.ch <- msg: default: }] *)
Definition try_send (s : Subscriber) (m : StreamMessage) (h : hub) : hub :=
  if bool_decide (sub_id s ∈ closed h) then crash h
  else if (length (buffer (sub_id s) h) <? sub_cap s)%nat
  then set_buffers (<[sub_id s := buffer (sub_id s) h ++ [m]]> (buffers h)) h
  else h.

(** [id] is drawn and the list appended to, under the lock; the counter is raised
    after the lock is released. *)
Definition Subscribe (id channel : string) (bufSize : Z) (h : hub) : hub :=
  let s := {| sub_id := id; sub_channel := channel; sub_cap := if bufSize <=? 0 then 64 else Z.to_nat bufSize |} in
  set_entering (S (entering h)) (set_subs (<[channel := on_channel channel h ++ [s]]> (subs h)) h).
Definition count_subscriber (h : hub) : hub := set_entering (pred (entering h)) (add_conns 1 h).

(** [append(list[:i], list[i+1:]...)] of the first subscriber with the id. *)
Fixpoint remove_first (id : string) (l : list Subscriber) : option (list Subscriber) :=
  match l with
  | [] => None
  | s :: l => if sub_id s =s? id then Some l else cons s <$> remove_first id l
  end.

(** Under the lock: the subscriber is removed and its channel closed, then the
    counter lowered. *)
Definition Unsubscribe (s : Subscriber) (h : hub) : hub :=
  match remove_first (sub_id s) (on_channel (sub_channel s) h) with
  | Some l => set_leaving true (close_sub (sub_id s) (set_subs (<[sub_channel s := l]> (subs h)) h))
  | None => h
  end.
Definition uncount_subscriber (h : hub) : hub := set_leaving false (add_conns (-1) h).

Record ConnectionStats := { SSEConnections : Z; WebSocketConnections : Z; ActiveSubscriptions : Z }.

Definition all_subs (h : hub) : list (string * Subscriber) :=
  '(ch, l) ← map_to_list (subs h); pair ch <$> l.

(** The lists are counted in [h1], under the read lock; the counter is read
    later, in [h2]. *)
Definition Stats (h1 h2 : hub) : ConnectionStats :=
  {| SSEConnections := activeConns h2; WebSocketConnections := 0;
     ActiveSubscriptions := Z.of_nat (length (all_subs h1)) |}.

(** What [Run] subscribes to. *)
Definition run_channels : list string := [channelProxy; channelBroadcast].

Definition with_channel (ch : string) (m : StreamMessage) : StreamMessage :=
  StreamMessage.mk (StreamMessage.ID m) ch (StreamMessage.EventType m) (StreamMessage.OrgID m) (StreamMessage.ProjectID m)
    (StreamMessage.DeploymentID m) (StreamMessage.CorrelationID m) (StreamMessage.Payload m) (StreamMessage.Timestamp m).
Definition stamped (id : string) (now : Time) (m : StreamMessage) : StreamMessage :=
  StreamMessage.mk (if StreamMessage.ID m =s? "" then id else StreamMessage.ID m) (StreamMessage.Channel m)
    (StreamMessage.EventType m) (StreamMessage.OrgID m) (StreamMessage.ProjectID m)
    (StreamMessage.DeploymentID m) (StreamMessage.CorrelationID m) (StreamMessage.Payload m) now.
Definition ping (id : string) (now : Time) : StreamMessage :=
  StreamMessage.mk id channelBroadcast "ping" "" "" "" "" "" now.

Section streaming.
Context `{MJ : MessageJson}.

(** The message is sent; it is counted after Redis has answered. *)
Definition Publish (id : string) (now : Time) (m : StreamMessage) (h : hub) : hub :=
  let m := stamped id now m in
  set_publishing (S (publishing h)) (set_wire (wire h ++ [(channelForMessage m, message_json m)]) h).
Definition count_published (h : hub) : hub := set_publishing (pred (publishing h)) (add_published 1 h).

(** What [dispatch] takes a copy of. *)
Definition recipients (ch : string) (h : hub) : list Subscriber := on_channel ch h ++ on_channel channelBroadcast h.

(** Whether the lock is free for a writer and for a reader. *)
Definition unlocked (h : hub) : Prop := pinging h = None ∧ leaving h = false.
Definition readable (h : hub) : Prop := leaving h = false.

(** The steps of the goroutines, in any order: what a goroutine does without
    giving way to the others under the lock, or one operation on a counter, on a
    channel or on Redis. *)
Inductive hub_step : hub → hub → Prop :=
| hub_subscribe id ch n h :
    unlocked h → id ∉ closed h → (∀ c s, (c, s) ∈ all_subs h → sub_id s ≠ id) →
    hub_step h (Subscribe id ch n h)
| hub_subscribed h : (0 < entering h)%nat → hub_step h (count_subscriber h)
| hub_unsubscribe s h : unlocked h → hub_step h (Unsubscribe s h)
| hub_unsubscribed h : leaving h = true → hub_step h (uncount_subscriber h)
| hub_publish id now m h : hub_step h (Publish id now m h)
| hub_published h : (0 < publishing h)%nat → hub_step h (count_published h)
| hub_lose w1 x w2 h : wire h = w1 ++ x :: w2 → hub_step h (set_wire (w1 ++ w2) h)
| hub_malformed w1 ch raw w2 h :
    wire h = w1 ++ (ch, raw) :: w2 → dispatching h = None → ch ∈ run_channels → message_of_json raw = None →
    hub_step h (set_wire (w1 ++ w2) h)
| hub_dispatch w1 ch raw w2 m h :
    wire h = w1 ++ (ch, raw) :: w2 → dispatching h = None → readable h → ch ∈ run_channels →
    message_of_json raw = Some m →
    hub_step h (set_dispatching (Some (m, recipients ch h)) (set_wire (w1 ++ w2) h))
| hub_send m s l h :
    dispatching h = Some (m, s :: l) → hub_step h (set_dispatching (Some (m, l)) (try_send s m h))
| hub_sent m h : dispatching h = Some (m, []) → hub_step h (set_dispatching None h)
| hub_heartbeat l h :
    pinging h = None → readable h → l ≡ₚ all_subs h → hub_step h (set_pinging (Some l) h)
| hub_ping id now ch s l h :
    pinging h = Some ((ch, s) :: l) →
    hub_step h (set_pinging (Some l) (try_send s (with_channel ch (ping id now)) h))
| hub_pinged h : pinging h = Some [] → hub_step h (set_pinging None h)
| hub_receive id m l h :
    buffers h !! id = Some (m :: l) → hub_step h (set_buffers (<[id := l]> (buffers h)) h).
End streaming.

(** ** The in-process limiter *)

(** The requests of a run that are passed on, with their addresses and times. *)
Fixpoint admitted (limit : Z) (window : Duration) (l : list (string * Time)) (buckets : gmap string inMemoryBucket)
    : list (string * Time) :=
  match l with
  | [] => []
  | (ip, now) :: l =>
      let '(ok, buckets) := InMemoryRateLimit limit window ip now buckets in
      (if ok then cons (ip, now) else id) (admitted limit window l buckets)
  end.

Definition of_ip (ip : string) (l : list (string * Time)) : Z := matched (λ x, x.1 =s? ip) l.

Lemma of_ip_cons ip ip' now l : of_ip ip ((ip', now) :: l) = (if ip' =s? ip then 1 else 0) + of_ip ip l.
Proof.
  unfold of_ip, matched, select. rewrite filter_cons. simpl.
  destruct (ip' =s? ip); [rewrite decide_True by done|rewrite decide_False by done]; simpl; lia.
Qed.

Section limiter.
Context (limit : Z) (window : Duration) (ip : string) (t0 : Time).

(** What the bucket of the address still lets through before it is replaced. *)
Definition allowance (b : option inMemoryBucket) : Z :=
  match b with Some b => Z.max 0 (limit - bucket_count b) | None => 0 end.

Definition counted (buckets : gmap string inMemoryBucket) : Prop :=
  ∀ b, buckets !! ip = Some b → 0 ≤ bucket_count b.

(** No bucket of the address that lives past the window is replaced in it. *)
Lemma admitted_current l buckets b :
  buckets !! ip = Some b → t0 + window ≤ resetAt b → Forall (λ x, x.2 ≤ t0 + window) l →
  of_ip ip (admitted limit window l buckets) ≤ allowance (buckets !! ip).
Proof.
  revert buckets b. induction l as [|[ip' now] l IH]; intros buckets b Hb Hr Hl.
  - rewrite Hb. unfold of_ip, matched. simpl. lia.
  - apply Forall_cons in Hl as [Hnow Hl]. simpl in Hnow. cbn [admitted].
    destruct (InMemoryRateLimit limit window ip' now buckets) as [pass bs] eqn:E.
    unfold InMemoryRateLimit in E. injection E as Epass Ebs.
    destruct (String.eqb_spec ip' ip) as [->|Hne].
    + rewrite Hb in *. assert (After now (resetAt b) = false) as Ha
        by (unfold After; apply Z.ltb_ge; lia).
      rewrite Ha in *. subst bs. specialize (IH (<[ip := {| bucket_count := bucket_count b + 1; resetAt := resetAt b |}]> buckets) _
        (lookup_insert_eq _ _ _) Hr Hl).
      rewrite lookup_insert_eq in IH. simpl in *. destruct pass; bool_to_prop; unfold id in *.
      * rewrite of_ip_cons, String.eqb_refl. lia.
      * lia.
    + assert (bs !! ip = Some b) as Hb' by (subst bs; by rewrite lookup_insert_ne).
      specialize (IH _ _ Hb' Hr Hl). rewrite Hb' in IH. rewrite Hb.
      destruct pass; unfold id in *; [rewrite of_ip_cons; apply String.eqb_neq in Hne; rewrite Hne|]; simpl in *; lia.
Qed.

Lemma admitted_window l buckets :
  counted buckets → Forall (λ x, t0 ≤ x.2 ≤ t0 + window) l →
  of_ip ip (admitted limit window l buckets) ≤ allowance (buckets !! ip) + Z.max 0 limit.
Proof.
  revert buckets. induction l as [|[ip' now] l IH]; intros buckets Hc Hl.
  - unfold of_ip, matched, allowance. simpl. case_match; lia.
  - pose proof Hl as [Hnow Hl']%Forall_cons. simpl in Hnow. cbn [admitted].
    destruct (InMemoryRateLimit limit window ip' now buckets) as [pass bs] eqn:E.
    unfold InMemoryRateLimit in E. injection E as Epass Ebs.
    destruct (String.eqb_spec ip' ip) as [->|Hne].
    + set (old := buckets !! ip) in *.
      assert (0 ≤ allowance old) as H0 by (unfold allowance; case_match; lia).
      destruct (match old with Some b => negb (After now (resetAt b)) | None => false end) eqn:Ekeep.
      * destruct old as [b|] eqn:Eold; [|done]. apply negb_true_iff in Ekeep. rewrite Ekeep in *. subst bs.
        pose proof (Hc b Eold) as Hb.
        assert (counted (<[ip:={| bucket_count := bucket_count b + 1; resetAt := resetAt b |}]> buckets)) as Hc'
          by (intros b'; rewrite lookup_insert_eq; intros [= <-]; simpl; lia).
        specialize (IH _ Hc' Hl'). rewrite lookup_insert_eq in IH. simpl in *.
        destruct pass; bool_to_prop; unfold id in *; [rewrite of_ip_cons, String.eqb_refl|]; lia.
      * assert (bs !! ip = Some {| bucket_count := 1; resetAt := Add now window |} ∧ pass = (1 <=? limit)) as [Hbs ->].
        { destruct old as [b|]; [apply negb_false_iff in Ekeep; rewrite Ekeep in *|]; subst; by rewrite lookup_insert_eq. }
        assert (Forall (λ x, x.2 ≤ t0 + window) l) as Hle by (eapply Forall_impl; [exact Hl'|simpl; lia]).
        pose proof (admitted_current l bs _ Hbs ltac:(simpl; unfold Add; lia) Hle) as Hcur.
        rewrite Hbs in Hcur. simpl in Hcur.
        destruct (1 <=? limit) eqn:El; bool_to_prop; unfold id; [rewrite of_ip_cons, String.eqb_refl|]; lia.
    + assert (bs !! ip = buckets !! ip) as Hb' by (subst bs; by rewrite lookup_insert_ne).
      assert (counted bs) as Hc' by (intros b; rewrite Hb'; apply Hc).
      specialize (IH _ Hc' Hl'). rewrite Hb' in IH.
      destruct pass; unfold id in *; [rewrite of_ip_cons; apply String.eqb_neq in Hne; rewrite Hne|]; simpl in *; lia.
Qed.
End limiter.

Lemma counted_run limit window l buckets ip :
  counted ip buckets →
  counted ip (foldl (λ bs x, (InMemoryRateLimit limit window x.1 x.2 bs).2) buckets l).
Proof.
  revert buckets. induction l as [|[ip' now] l IH]; intros bs Hc; [done|]. apply IH. simpl.
  intros b. destruct (decide (ip' = ip)) as [->|Hne].
  - rewrite lookup_insert_eq. intros [= <-]. simpl.
    destruct (bs !! ip) as [b|] eqn:E; [|simpl; lia]. pose proof (Hc b E). by case_match; simpl; lia.
  - rewrite lookup_insert_ne by done. apply Hc.
Qed.

(** The in-process limiter bounds what an address gets through.  After any
    earlier requests, of any addresses, at most twice [limit] requests of one
    address are passed on in a stretch of time as long as the window, whatever
    other addresses do. *)
Theorem InMemoryRateLimit_bound (limit : Z) (window : Duration) (past l : list (string * Time)) (ip : string) (t0 : Time) :
  Forall (λ x, t0 ≤ x.2 ≤ t0 + window) l →
  let buckets := foldl (λ bs x, (InMemoryRateLimit limit window x.1 x.2 bs).2) ∅ past in
  of_ip ip (admitted limit window l buckets) ≤ 2 * Z.max 0 limit.
Proof.
  intros Hl buckets. assert (counted ip buckets) as Hc by (apply counted_run; by intros b).
  pose proof (admitted_window limit window ip t0 l buckets Hc Hl) as H.
  assert (allowance limit (buckets !! ip) ≤ Z.max 0 limit); [|lia].
  unfold allowance. case_match eqn:E; [specialize (Hc _ E)|]; lia.
Qed.

(** The bound is met around the end of a bucket. *)
Lemma InMemoryRateLimit_bound_witness :
  of_ip "a" (admitted 2 10 [("a", 10); ("a", 10); ("a", 11); ("a", 12); ("a", 13)]
    (foldl (λ bs x, (InMemoryRateLimit 2 10 x.1 x.2 bs).2) ∅ [("b", 0)])) ≤ 4
  ∧ of_ip "a" (admitted 2 10 [("a", 10); ("a", 11); ("a", 11); ("a", 12); ("a", 13)]
      {["a" := {| bucket_count := 1; resetAt := 10 |}]}) = 3.
Proof.
  split; [|vm_compute; reflexivity].
  apply (InMemoryRateLimit_bound 2 10 [("b", 0)] _ "a" 10). repeat (constructor; [simpl; lia|]). constructor.
Defined.

(** ** Examples *)

Definition asks (peer : string) (headers : gmap string string) : Request :=
  Request.mk "GET" "/" ∅ headers peer "" ∅.

Example real_ip_behind_loopback :
  RealIP [] (asks "127.0.0.1:54321" {["X-Forwarded-For" := "203.0.113.10"]}) = Some "203.0.113.10"
  ∧ RealIP [] (asks "203.0.113.9:1" {["X-Forwarded-For" := "198.51.100.1"]}) = None
  ∧ RealIP ["203.0.113.0/24"] (asks "203.0.113.9:1" {["X-Real-IP" := "2001:db8::1"]}) = Some "2001:db8::1"
  ∧ RealIP [] (asks "[::1]:80" {["X-Real-IP" := "no address"]}) = None.
Proof. vm_compute. done. Qed.

(** A peer on a private network names the address it is limited by. *)
Example private_peers_choose_their_address :
  limited_by (RealIP ["203.0.113.0/24"] (asks "10.1.2.3:1" {["X-Forwarded-For" := "1.1.1.1, 10.9.9.9"]}))
    (asks "10.1.2.3:1" ∅) = "1.1.1.1".
Proof. vm_compute. done. Qed.

(** Two processes whose clocks are a second apart are never limited: each turn
    of the one behind sets the bucket's time back. *)
Fixpoint alternate (n : nat) (store : gmap string token_bucket) : list bool :=
  match n with
  | O => []
  | S n =>
      let '(a, store) := RateLimit 2 "x" 5000 false store in
      let '(b, store) := RateLimit 2 "x" 4000 false store in
      a :: b :: alternate n store
  end.

Example skewed_clocks_refill : alternate 20 ∅ = replicate 40 true.
Proof. vm_compute. done. Qed.

Example one_clock_limits :
  (RateLimit 2 "x" 5000 false (RateLimit 2 "x" 5000 false (RateLimit 2 "x" 5000 false ∅).2).2).1 = false.
Proof. vm_compute. done. Qed.

(** ** The hub is sound between its goroutines *)

Section hub.
Context `{MJ : MessageJson}.
Implicit Types (h : hub) (s : Subscriber).

Definition subscribers h : Z := Z.of_nat (length (all_subs h)).

Record hub_ok h : Prop := {
  ok_conns : activeConns h = wrap64 (subscribers h - Z.of_nat (entering h) + Z.b2z (leaving h));
  ok_ids : NoDup ((λ x, sub_id x.2) <$> all_subs h);
  ok_channels c s : (c, s) ∈ all_subs h → sub_channel s = c;
  ok_open c s : (c, s) ∈ all_subs h → sub_id s ∉ closed h;
  ok_room c s : (c, s) ∈ all_subs h → (length (buffer (sub_id s) h) ≤ sub_cap s)%nat;
  ok_pinging l x : pinging h = Some l → x ∈ l → x ∈ all_subs h;
  ok_dispatching m l s : dispatching h = Some (m, l) → s ∈ l →
    (sub_channel s, s) ∈ all_subs h ∨ sub_id s ∈ closed h;
  ok_buffers id : buffer id h ≠ [] → id ∈ ((λ x, sub_id x.2) <$> all_subs h) ∨ id ∈ closed h;
}.

Lemma wrap64_add_l a b : wrap64 (wrap64 a + b) = wrap64 (a + b).
Proof.
  unfold wrap64. f_equal. replace ((a + 2 ^ 63) mod 2 ^ 64 - 2 ^ 63 + b + 2 ^ 63) with ((a + 2 ^ 63) mod 2 ^ 64 + b) by lia.
  rewrite Z.add_mod_idemp_l by lia. f_equal. lia.
Qed.

Definition subs_list (m : gmap string (list Subscriber)) : list (string * Subscriber) :=
  '(ch, l) ← map_to_list m; pair ch <$> l.

Lemma elem_of_subs_list m c s : (c, s) ∈ subs_list m ↔ ∃ l, m !! c = Some l ∧ s ∈ l.
Proof.
  unfold subs_list. rewrite list_elem_of_bind. split.
  - intros ([ch l] & H & Hm%elem_of_map_to_list). apply list_elem_of_fmap in H as (s' & [= -> ->] & Hs). by exists l.
  - intros (l & Hl & Hs). exists (c, l). split; [by apply list_elem_of_fmap_2|by apply elem_of_map_to_list].
Qed.

(** The subscribers of one channel, and the others. *)
Lemma subs_list_split m ch :
  subs_list m ≡ₚ (pair ch <$> default [] (m !! ch)) ++ subs_list (delete ch m).
Proof.
  unfold subs_list. destruct (m !! ch) as [l|] eqn:E; simpl.
  - rewrite <- (map_to_list_delete m ch l E). done.
  - by rewrite delete_id.
Qed.

Lemma subs_list_insert m ch l :
  subs_list (<[ch := l]> m) ≡ₚ (pair ch <$> l) ++ subs_list (delete ch m).
Proof.
  rewrite (subs_list_split _ ch), lookup_insert_eq. simpl. by rewrite delete_insert_eq.
Qed.

Lemma remove_first_Some id l l' :
  remove_first id l = Some l' → ∃ s, sub_id s = id ∧ l ≡ₚ s :: l'.
Proof.
  revert l'. induction l as [|s l IH]; intros l' H; simpl in H; [done|].
  destruct (String.eqb_spec (sub_id s) id) as [E|E]; [injection H as <-; by exists s|].
  destruct (remove_first id l) as [l1|] eqn:E1; [|done]. injection H as <-.
  destruct (IH l1 eq_refl) as (s' & Hs & Hp). exists s'. split; [done|]. rewrite Hp. apply Permutation_swap.
Qed.

Lemma length_insert_buffer i (b : list StreamMessage) h j :
  buffer j (set_buffers (<[i := b]> (buffers h)) h) = if decide (i = j) then b else buffer j h.
Proof.
  unfold buffer. simpl. case_decide as H; [subst; by rewrite lookup_insert_eq|by rewrite lookup_insert_ne].
Qed.

(** Everything but the buffers and [crashed] is kept by a send. *)
Lemma try_send_cases s m h :
  (try_send s m h = crash h ∧ sub_id s ∈ closed h)
  ∨ ((sub_id s ∉ closed h)
     ∧ (try_send s m h = h
        ∨ ((length (buffer (sub_id s) h) < sub_cap s)%nat
           ∧ try_send s m h = set_buffers (<[sub_id s := buffer (sub_id s) h ++ [m]]> (buffers h)) h))).
Proof.
  unfold try_send. case_bool_decide; [by left|right]. split; [done|].
  destruct (_ <? _)%nat eqn:E; [right; apply Nat.ltb_lt in E|left]; done.
Qed.

Lemma ok_same_id h c1 s1 c2 s2 :
  hub_ok h → (c1, s1) ∈ all_subs h → (c2, s2) ∈ all_subs h → sub_id s1 = sub_id s2 → s1 = s2.
Proof.
  intros Hok H1 H2 E.
  pose proof (NoDup_key_eq (λ x, sub_id x.2) (all_subs h) (c1, s1) (c2, s2) (ok_ids h Hok) H1 H2 E). congruence.
Qed.

Lemma hub_ok_send s m h :
  hub_ok h → ((sub_channel s, s) ∈ all_subs h ∨ sub_id s ∈ closed h) → hub_ok (try_send s m h).
Proof.
  intros Hok Hs. destruct (try_send_cases s m h) as [[-> _]|[Ho [->|[Hlen ->]]]]; [by destruct Hok; split|done|].
  destruct Hs as [Hs|Hs]; [|done]. pose proof Hok as [H1 H2 H3 H4 H5 H6 H7 H8]. split; try done.
  - intros c s' Hs'. rewrite length_insert_buffer. case_decide as E; [|by apply (H5 c)].
    rewrite <- (ok_same_id h _ _ _ _ Hok Hs Hs' E), length_app. simpl. lia.
  - intros id. rewrite length_insert_buffer. case_decide as E; [|apply H8]. intros _. left. subst.
    by apply (list_elem_of_fmap_2 (λ x, sub_id x.2) _ (sub_channel s, s)).
Qed.

Lemma hub_ok_subscribe id ch n h :
  hub_ok h → id ∉ closed h → (∀ c s, (c, s) ∈ all_subs h → sub_id s ≠ id) → hub_ok (Subscribe id ch n h).
Proof.
  intros Hok Hc Hf. pose proof Hok as [H1 H2 H3 H4 H5 H6 H7 H8].
  set (s := {| sub_id := id; sub_channel := ch; sub_cap := if n <=? 0 then 64 else Z.to_nat n |}).
  assert (all_subs (Subscribe id ch n h) ≡ₚ (ch, s) :: all_subs h) as Hp.
  { change (subs_list (<[ch := on_channel ch h ++ [s]]> (subs h)) ≡ₚ (ch, s) :: subs_list (subs h)).
    rewrite subs_list_insert, (subs_list_split (subs h) ch), fmap_app. unfold on_channel. simpl.
    rewrite <- app_assoc. symmetry. apply Permutation_middle. }
  assert (id ∉ (λ x, sub_id x.2) <$> all_subs h) as Hn.
  { intros ([c s'] & E & Hin)%list_elem_of_fmap. by apply (Hf c s'). }
  assert (buffer id h = []) as Hb.
  { destruct (buffer id h) eqn:E; [done|]. destruct (H8 id) as [?|?]; [by rewrite E|done|done]. }
  split.
  - unfold subscribers in *. rewrite Hp. cbn [Subscribe activeConns set_entering set_subs entering leaving length].
    rewrite H1. f_equal. lia.
  - rewrite Hp. by apply NoDup_cons.
  - intros c s'. rewrite Hp. intros [[= -> ->]|H]%elem_of_cons; [done|by apply H3].
  - intros c s'. rewrite Hp. intros [[= -> ->]|H]%elem_of_cons; [done|by apply (H4 c)].
  - intros c s'. rewrite Hp. intros [[= -> ->]|H]%elem_of_cons; [|by apply (H5 c)].
    change (length (buffer id h) ≤ sub_cap s)%nat. rewrite Hb. simpl. lia.
  - intros l x Hl Hx. rewrite Hp. apply elem_of_cons. right. by apply (H6 l).
  - intros m l s' Hl Hs'. rewrite Hp. destruct (H7 m l s' Hl Hs') as [?|?]; [left|by right].
    apply elem_of_cons. by right.
  - intros i Hi. rewrite Hp. destruct (H8 i Hi) as [?|?]; [left|by right]. apply elem_of_cons. by right.
Qed.

(** The lock is free: no heartbeat is under way and nobody else leaves. *)
Lemma hub_ok_unsubscribe s h : hub_ok h → unlocked h → hub_ok (Unsubscribe s h).
Proof.
  intros Hok [Hping Hleave]. unfold Unsubscribe.
  destruct (remove_first (sub_id s) (on_channel (sub_channel s) h)) as [l|] eqn:E; [|done].
  apply remove_first_Some in E as (s0 & Eid & Hl). pose proof Hok as [H1 H2 H3 H4 H5 H6 H7 H8].
  set (ch := sub_channel s) in *.
  set (h' := set_leaving true (close_sub (sub_id s) (set_subs (<[ch := l]> (subs h)) h))).
  assert (all_subs h ≡ₚ (ch, s0) :: all_subs h') as Hp.
  { change (subs_list (subs h) ≡ₚ (ch, s0) :: subs_list (<[ch := l]> (subs h))).
    rewrite subs_list_insert, (subs_list_split (subs h) ch). fold (on_channel ch h). by rewrite Hl. }
  assert (∀ x, x ∈ all_subs h' → x ∈ all_subs h ∧ sub_id x.2 ≠ sub_id s) as Hsub.
  { intros x Hx. rewrite Hp. split; [apply elem_of_cons; by right|]. rewrite Hp in H2. simpl in H2.
    apply NoDup_cons in H2 as [Hn _]. rewrite Eid in Hn. intros E. apply Hn. rewrite <- E.
    by apply (list_elem_of_fmap_2 (λ x, sub_id x.2)). }
  assert (∀ x, x ∈ all_subs h → x ∈ all_subs h' ∨ sub_id x.2 ∈ closed h') as Hback.
  { intros x. rewrite Hp. intros [->|Hx]%elem_of_cons; [right|by left]. simpl. rewrite Eid. set_solver. }
  split.
  - change (activeConns h = wrap64 (subscribers h' - Z.of_nat (entering h) + 1)). rewrite H1, Hleave.
    unfold subscribers. rewrite Hp. f_equal. cbn [length Z.b2z]. lia.
  - rewrite Hp in H2. simpl in H2. by apply NoDup_cons in H2 as [_ H2].
  - intros c x [Hx _]%Hsub. by apply H3.
  - intros c x [Hx Hne]%Hsub. simpl in *. specialize (H4 c x Hx). set_solver.
  - intros c x [Hx _]%Hsub. by apply (H5 c).
  - intros l' x Hl'. change (pinging h = Some l') in Hl'. congruence.
  - intros m l' x Hl' Hx. destruct (H7 m l' x Hl' Hx) as [Hin|Hin]; [by apply (Hback _ Hin)|right; simpl; set_solver].
  - intros i Hi. destruct (H8 i Hi) as [Hin|Hin]; [|right; simpl; set_solver].
    apply list_elem_of_fmap in Hin as (x & -> & Hx). destruct (Hback x Hx) as [Hin|Hin]; [left|by right].
    by apply (list_elem_of_fmap_2 (λ x, sub_id x.2)).
Qed.

Lemma recipients_subs ch h s : hub_ok h → s ∈ recipients ch h → (sub_channel s, s) ∈ all_subs h.
Proof.
  intros Hok Hs. assert (∀ c, s ∈ on_channel c h → (sub_channel s, s) ∈ all_subs h) as H.
  { intros c Hc. assert ((c, s) ∈ all_subs h) as Hin.
    { apply elem_of_subs_list. unfold on_channel in Hc. destruct (subs h !! c) as [l|] eqn:E; [by exists l|].
      by apply elem_of_nil in Hc. }
    by rewrite (ok_channels h Hok c s Hin) at 1. }
  apply elem_of_app in Hs as [Hs|Hs]; by apply H in Hs.
Qed.

Lemma hub_step_ok h h' : hub_ok h → hub_step h h' → hub_ok h'.
Proof.
  intros Hok Hstep. pose proof Hok as [H1 H2 H3 H4 H5 H6 H7 H8].
  destruct Hstep as [id ch n h Hp Hc Hf|h He|s h Hp|h Hlv|id now m h|h Hpb|w1 x w2 h Hw|w1 ch raw w2 h Hw Hd Hr Hm
    |w1 ch raw w2 m h Hw Hd Hrd Hr Hm|m s l h Hd|m h Hd|l h Hp Hrd Hl|id now ch s l h Hp|h Hp|id m l h Hb].
  - by apply hub_ok_subscribe.
  - split; try done. cbn. change (subscribers (count_subscriber h)) with (subscribers h). rewrite H1, wrap64_add_l.
    f_equal. lia.
  - by apply hub_ok_unsubscribe.
  - split; try done. cbn. change (subscribers (uncount_subscriber h)) with (subscribers h). rewrite H1, Hlv, wrap64_add_l.
    f_equal. simpl. lia.
  - by split.
  - by split.
  - by split.
  - by split.
  - split; try done. intros m' l s [= <- <-] Hs. left. by apply (recipients_subs ch h).
  - assert (hub_ok (try_send s m h)) as Hok' by (apply hub_ok_send; [done|apply (H7 m (s :: l)); [done|by left]]).
    destruct Hok' as [G1 G2 G3 G4 G5 G6 G7 G8]. split; try done.
    intros m' l' x [= <- <-] Hx. apply (G7 m (s :: l)); [|by right].
    destruct (try_send_cases s m h) as [[-> _]|[_ [->|[_ ->]]]]; done.
  - split; try done.
  - split; try done. intros l' x [= <-] Hx. by rewrite <- Hl.
  - assert ((ch, s) ∈ all_subs h) as Hs by (apply (H6 _ _ Hp); by left).
    assert (hub_ok (try_send s (with_channel ch (ping id now)) h)) as Hok'.
    { apply hub_ok_send; [done|left]. by rewrite (H3 _ _ Hs). }
    destruct Hok' as [G1 G2 G3 G4 G5 G6 G7 G8]. split; try done.
    intros l' x [= <-] Hx. apply (G6 ((ch, s) :: l)); [|by right].
    destruct (try_send_cases s (with_channel ch (ping id now)) h) as [[-> _]|[_ [->|[_ ->]]]]; done.
  - split; try done.
  - assert (buffer id h = m :: l) as Eb by (unfold buffer; by rewrite Hb).
    split; try done.
    + intros c s Hs. rewrite length_insert_buffer. case_decide as E; [|by apply (H5 c)].
      specialize (H5 c s Hs). rewrite <- E, Eb in H5. simpl in H5. lia.
    + intros i. rewrite length_insert_buffer. case_decide as E; [|apply H8]. intros _. subst. apply H8. by rewrite Eb.
Qed.

Lemma hub_ok_new : hub_ok NewHub.
Proof.
  split; [done|apply NoDup_nil_2|..]; simpl; unfold buffer; simpl; try done;
    try (intros *; by intros []%elem_of_nil).
Qed.

(** C23: the streaming hub counts its subscribers and bounds what it keeps for
    them, in every interleaving of its goroutines.  The statistics are the number of
    subscribers when the lists are counted, and, when the counter is read, the
    number of subscribers less those that have joined and are not yet counted and
    with the one, if any, that is just leaving; so both are the same once nobody
    is joining or leaving.  No two subscribers share an identifier; the buffer of
    each stays within its capacity, however slow its reader; and a goroutine can
    panic on a closed channel only in [dispatch], while it sends to a
    subscriber that has left since its copy was taken, never in a heartbeat. *)
Theorem hub_safe h h' :
  rtc hub_step NewHub h →
  (∀ h2, rtc hub_step h h2 →
     ActiveSubscriptions (Stats h h2) = subscribers h
     ∧ SSEConnections (Stats h h2) = wrap64 (subscribers h2 - Z.of_nat (entering h2) + Z.b2z (leaving h2)))
  ∧ (entering h = 0%nat → leaving h = false → SSEConnections (Stats h h) = wrap64 (ActiveSubscriptions (Stats h h)))
  ∧ NoDup ((λ x, sub_id x.2) <$> all_subs h)
  ∧ (∀ c s, (c, s) ∈ all_subs h → (length (buffer (sub_id s) h) ≤ sub_cap s)%nat)
  ∧ (hub_step h h' → crashed h = false → crashed h' = true →
     ∃ m s l, dispatching h = Some (m, s :: l) ∧ sub_id s ∈ closed h ∧ (∀ c, (c, s) ∉ all_subs h)).
Proof.
  intros Hrun. assert (∀ h1 h2, hub_ok h1 → rtc hub_step h1 h2 → hub_ok h2) as Hsteps.
  { intros h1 h2 H0 H. induction H; eauto using hub_step_ok. }
  assert (hub_ok h) as Hok by (by eapply Hsteps, Hrun; apply hub_ok_new).
  split_and!; [|intros He Hl; cbn; rewrite (ok_conns h Hok), He, Hl; f_equal; cbn; unfold subscribers; lia|apply Hok|apply Hok|].
  { intros h2 H2. split; [done|]. by apply ok_conns, (Hsteps h). }
  clear Hrun. intros Hstep. revert Hok. destruct Hstep; intros Hok Hc0 H1'; simpl in H1'; try congruence.
  - revert H1'. unfold Unsubscribe. case_match; simpl; congruence.
  - exists m, s, l. destruct (try_send_cases s m h) as [[_ Hc]|[_ [E|[_ E]]]];
      [|rewrite E in H1'; simpl in H1'; congruence..].
    split_and!; [done..|]. intros c Hs. by apply (ok_open h Hok c s).
  - destruct (try_send_cases s (with_channel ch (ping id now)) h) as [[_ Hc]|[_ [E|[_ E]]]];
      [|rewrite E in H1'; simpl in H1'; congruence..].
    exfalso. apply (ok_open h Hok ch s); [|done]. apply (ok_pinging h Hok _ _ H). by left.
Qed.
End hub.

(** ** What reaches a subscriber *)

Class MessageLaws `{MJ : MessageJson} : Prop := {
  json_ids m : ∃ m', message_of_json (message_json m) = Some m'
    ∧ StreamMessage.OrgID m' = StreamMessage.OrgID m ∧ StreamMessage.ProjectID m' = StreamMessage.ProjectID m
    ∧ StreamMessage.DeploymentID m' = StreamMessage.DeploymentID m;
}.

Definition untargeted (m : StreamMessage) : Prop :=
  StreamMessage.OrgID m = "" ∧ StreamMessage.ProjectID m = "" ∧ StreamMessage.DeploymentID m = "".

Section delivery.
Context `{ML : MessageLaws}.
Implicit Types (h : hub).

Record hub_delivery h : Prop := {
  dl_ok : hub_ok h;
  dl_wire ch raw : (ch, raw) ∈ wire h → ∃ m, raw = message_json m ∧ ch = channelForMessage m;
  dl_dispatching m l : dispatching h = Some (m, l) →
    untargeted m ∧ ∀ s, s ∈ l → sub_channel s ∈ run_channels;
  dl_buffers c s m : (c, s) ∈ all_subs h → m ∈ buffer (sub_id s) h →
    untargeted m ∧ (StreamMessage.EventType m = "ping" ∨ c ∈ run_channels);
}.

(** Of the channels [Run] reads, messages are published on one. *)
Lemma read_untargeted m : channelForMessage m ∈ run_channels → untargeted m.
Proof.
  unfold channelForMessage, untargeted, run_channels.
  destruct (StreamMessage.DeploymentID m =s? "") eqn:E1, (StreamMessage.ProjectID m =s? "") eqn:E2,
    (StreamMessage.OrgID m =s? "") eqn:E3; bool_to_prop; simpl;
    first [done | intros H; exfalso; repeat (apply elem_of_cons in H as [H|H]; [discriminate H|]);
                  by apply elem_of_nil in H].
Qed.

Lemma delivery_send s m h :
  hub_delivery h → ((sub_channel s, s) ∈ all_subs h ∨ sub_id s ∈ closed h) → untargeted m →
  (StreamMessage.EventType m = "ping" ∨ sub_channel s ∈ run_channels) → hub_delivery (try_send s m h).
Proof.
  intros [D1 D2 D3 D4] Hs Hm Hp.
  pose proof (hub_ok_send s m h D1 Hs) as Hok.
  destruct (try_send_cases s m h) as [[E _]|[Ho [E|[_ E]]]]; rewrite E in *; [by split|by split|].
  split; try done. intros c s' m' Hs'. rewrite length_insert_buffer. case_decide as Eid; [|by apply D4].
  intros [Hin|Hin]%elem_of_app; [apply (D4 c s'); [done|by rewrite <- Eid]|].
  apply list_elem_of_singleton in Hin as ->. split; [done|].
  destruct Hs as [Hs|Hs]; [|done]. rewrite <- (ok_channels h D1 c s' Hs').
  by rewrite <- (ok_same_id h _ _ _ _ D1 Hs Hs' Eid).
Qed.

Lemma hub_step_delivery h h' : hub_delivery h → hub_step h h' → hub_delivery h'.
Proof.
  intros HD Hstep. pose proof HD as [D1 D2 D3 D4]. pose proof (hub_step_ok h h' D1 Hstep) as Hok.
  destruct Hstep as [id ch n h Hp Hc Hf|h He|s h Hp|h Hlv|id now m h|h Hpb|w1 x w2 h Hw|w1 ch raw w2 h Hw Hd Hr Hm
    |w1 ch raw w2 m h Hw Hd Hrd Hr Hm|m s l h Hd|m h Hd|l h Hp Hrd Hl|id now ch s l h Hp|h Hp|id m l h Hb];
    try (by split; try done; intros ch' raw' Hin; apply D2; rewrite Hw; set_solver).
  - split; try done. intros c s m Hs Hm.
    change (m ∈ buffer (sub_id s) h) in Hm. destruct (decide (sub_id s = id)) as [E|E].
    + destruct (ok_buffers h D1 id) as [H|H]; [|apply list_elem_of_fmap in H as ([c' s'] & E' & H)|done].
      * rewrite E in Hm. intros E0. rewrite E0 in Hm. by apply elem_of_nil in Hm.
      * by destruct (Hf c' s' H).
    + apply (D4 c s); [|done]. apply elem_of_subs_list in Hs as (l & Hl & Hin).
      apply elem_of_subs_list. simpl in Hl. destruct (decide (c = ch)) as [->|Hne].
      * rewrite lookup_insert_eq in Hl. injection Hl as <-. unfold on_channel in Hin.
        apply elem_of_app in Hin as [Hin|Hin]; [|apply list_elem_of_singleton in Hin; by subst].
        destruct (subs h !! ch) as [l|]; [by exists l|by apply elem_of_nil in Hin].
      * rewrite lookup_insert_ne in Hl by done. by exists l.
  - unfold Unsubscribe in *. destruct (remove_first _ _) as [l|] eqn:E; [|done].
    split; try done. intros c x m Hx Hm. apply (D4 c x); [|exact Hm].
    apply elem_of_subs_list in Hx as (l' & Hl' & Hin). apply elem_of_subs_list. simpl in Hl'.
    destruct (decide (c = sub_channel s)) as [->|Hne].
    + rewrite lookup_insert_eq in Hl'. injection Hl' as ->. apply remove_first_Some in E as (s0 & _ & Hl).
      unfold on_channel in Hl. destruct (subs h !! sub_channel s) as [l1|].
      * exists l1. split; [done|]. simpl in Hl. rewrite Hl. apply elem_of_cons. by right.
      * simpl in Hl. by apply Permutation_nil_cons in Hl.
    + rewrite lookup_insert_ne in Hl' by done. by exists l'.
  - split; try done. intros ch raw [Hin|Hin]%elem_of_app; [by apply D2|].
    apply list_elem_of_singleton in Hin. injection Hin as -> ->. by eexists.
  - destruct (D2 ch raw) as (m0 & -> & ->); [rewrite Hw; set_solver|].
    destruct (json_ids m0) as (m' & E & Ho & Hpr & Hde). rewrite E in Hm. injection Hm as <-.
    apply read_untargeted in Hr as Hu. split; try done; [intros ch' raw' Hin; apply D2; rewrite Hw; set_solver|].
    intros m1 l [= <- <-]. split; [unfold untargeted in *; by rewrite Ho, Hpr, Hde|].
    intros s [Hs|Hs]%elem_of_app; unfold on_channel in Hs.
    + destruct (subs h !! channelForMessage m0) as [l|] eqn:El; [|by apply elem_of_nil in Hs].
      rewrite (ok_channels h D1 (channelForMessage m0) s); [done|]. apply elem_of_subs_list. by exists l.
    + destruct (subs h !! channelBroadcast) as [l|] eqn:El; [|by apply elem_of_nil in Hs].
      rewrite (ok_channels h D1 channelBroadcast s); [unfold run_channels; set_solver|].
      apply elem_of_subs_list. by exists l.
  - destruct (D3 m (s :: l) Hd) as [Hu Hch].
    assert (hub_delivery (try_send s m h)) as [G1 G2 G3 G4].
    { apply delivery_send; [done|apply (ok_dispatching h D1 m (s :: l)); [done|by left]|done|].
      right. apply Hch. by left. }
    split; try done. intros m' l' [= <- <-]. split; [done|]. intros x Hx. apply Hch. by right.
  - assert ((ch, s) ∈ all_subs h) as Hs by (apply (ok_pinging h D1 _ _ Hp); by left).
    assert (hub_delivery (try_send s (with_channel ch (ping id now)) h)) as [G1 G2 G3 G4].
    { apply delivery_send; [done| |done|by left]. left. by rewrite (ok_channels h D1 _ _ Hs). }
    by split.
  - split; try done. intros c s m' Hs. rewrite length_insert_buffer. case_decide as E; [|by apply D4].
    intros Hin. apply (D4 c s); [done|]. rewrite <- E. unfold buffer. rewrite Hb. simpl. by right.
Qed.

(** What is published for a deployment, a project or an organisation reaches
    nobody.  [Run] subscribes to two fixed channels, and the publisher sends such a
    message to a channel of its own: no subscriber, of any channel, ever has one
    in its buffer, and a subscriber of such a channel receives pings only. *)
Theorem targeted_never_delivered h c s m :
  rtc hub_step NewHub h → (c, s) ∈ all_subs h → m ∈ buffer (sub_id s) h →
  untargeted m ∧ (StreamMessage.EventType m = "ping" ∨ c ∈ run_channels).
Proof.
  intros Hrun. assert (hub_delivery h) as HD; [|apply (dl_buffers h HD)].
  assert (hub_delivery NewHub) as H0.
  { split; [apply hub_ok_new|intros *; by intros []%elem_of_nil|done|].
    intros c' s' m' H'. apply elem_of_subs_list in H' as (l & Hl & _). done. }
  induction Hrun; eauto using hub_step_delivery.
Qed.
End delivery.

(** ** A run *)

(** A text that keeps the identifiers. *)
Fixpoint escape (s : string) : string :=
  match s with EmptyString => "." | String a s => String "x" (String a (escape s)) end.

Fixpoint unescape (s : string) : option (string * string) :=
  match s with
  | String "." s => Some ("", s)
  | String "x" (String a s) => '(t, r) ← unescape s; Some (String a t, r)
  | _ => None
  end.

Lemma unescape_escape s r : unescape (escape s +:+ r) = Some (s, r).
Proof. induction s as [|a s IH]; [done|]. simpl. by rewrite IH. Qed.

Definition three_ids : MessageJson := {|
  message_json m := escape (StreamMessage.OrgID m) +:+ (escape (StreamMessage.ProjectID m)
    +:+ (escape (StreamMessage.DeploymentID m) +:+ ""));
  message_of_json s :=
    '(o, s) ← unescape s; '(p, s) ← unescape s; '(d, _) ← unescape s;
    Some (StreamMessage.mk "" "" "" o p d "" "" 0)
|}.

#[export] Instance three_ids_laws : MessageLaws (MJ := three_ids).
Proof.
  split. intros m. cbn [message_of_json message_json three_ids]. rewrite unescape_escape. cbn.
  rewrite unescape_escape. cbn. rewrite unescape_escape. cbn. eexists. repeat split.
Qed.

#[local] Existing Instance three_ids.

Definition an_event : StreamMessage := StreamMessage.mk "m" "" "proxy.route.created" "" "" "" "" "" 0.
Definition watcher : Subscriber := {| sub_id := "s1"; sub_channel := channelProxy; sub_cap := 64 |}.

(** A client leaves between the copy and the send. *)
Definition received : StreamMessage := StreamMessage.mk "" "" "" "" "" "" "" "" 0.

Definition joining : hub := Subscribe "s1" channelProxy 0 NewHub.

Definition left_behind : hub :=
  Unsubscribe watcher
    (set_dispatching (Some (received, [watcher]))
      (set_wire [] (Publish "m" 5 an_event (count_subscriber joining)))).

Lemma joining_reached : rtc hub_step NewHub joining.
Proof.
  apply rtc_once, (hub_subscribe "s1" channelProxy 0); [done|set_solver|].
  intros c s H. apply elem_of_subs_list in H as (l & Hl & _). done.
Qed.

Lemma left_behind_reached : rtc hub_step joining left_behind.
Proof.
  eapply rtc_l; [apply hub_subscribed; simpl; lia|].
  eapply rtc_l; [apply (hub_publish "m" 5 an_event)|].
  eapply rtc_l; [apply (hub_dispatch [] channelProxy (message_json an_event) [] received);
    [done|done|done|by left|vm_compute; reflexivity]|].
  apply rtc_once. by apply (hub_unsubscribe watcher).
Qed.

(** The subscriber joins: the statistics count it before the counter does.  Then it
    leaves, and the next send panics: the process ends. *)
Lemma hub_safe_witness :
  rtc hub_step NewHub left_behind
  ∧ (ActiveSubscriptions (Stats joining joining) = 1 ∧ SSEConnections (Stats joining joining) = 0)
  ∧ crashed (try_send watcher received left_behind) = true
  ∧ ∃ m s l, dispatching left_behind = Some (m, s :: l) ∧ sub_id s ∈ closed left_behind.
Proof.
  assert (rtc hub_step NewHub left_behind) as Hrun by (etrans; [apply joining_reached|apply left_behind_reached]).
  split; [exact Hrun|]. split; [vm_compute; by split|]. split; [vm_compute; reflexivity|].
  destruct (hub_safe left_behind (set_dispatching (Some (received, [])) (try_send watcher received left_behind)) Hrun)
    as (_ & _ & _ & _ & H).
  destruct (H (hub_send received watcher [] left_behind eq_refl) eq_refl ltac:(vm_compute; reflexivity)) as (m & s & l & H1 & H2 & _).
  by exists m, s, l.
Defined.

Definition deployment_watcher : Subscriber :=
  {| sub_id := "s2"; sub_channel := ChannelForDeployment "d"; sub_cap := 1 |}.

Definition pinged : hub :=
  set_pinging (Some []) (try_send deployment_watcher (with_channel (ChannelForDeployment "d") (ping "p" 7))
    (set_pinging (Some [(ChannelForDeployment "d", deployment_watcher)])
      (Subscribe "s2" (ChannelForDeployment "d") 1 NewHub))).

Lemma targeted_never_delivered_witness :
  ∃ m, buffer "s2" pinged = [m] ∧ untargeted m ∧ StreamMessage.EventType m = "ping".
Proof.
  assert (rtc hub_step NewHub pinged) as Hrun.
  { eapply rtc_l; [apply (hub_subscribe "s2" (ChannelForDeployment "d") 1); [done|set_solver|]|].
    { intros c s H. apply elem_of_subs_list in H as (l & Hl & _). done. }
    eapply rtc_l; [apply (hub_heartbeat [(ChannelForDeployment "d", deployment_watcher)]); [done|done|by vm_compute]|].
    apply rtc_once. by apply (hub_ping "p" 7 (ChannelForDeployment "d") deployment_watcher []). }
  exists (with_channel (ChannelForDeployment "d") (ping "p" 7)).
  assert (all_subs pinged = [(ChannelForDeployment "d", deployment_watcher)]) as Hs by (vm_compute; reflexivity).
  assert (buffer (sub_id deployment_watcher) pinged = [with_channel (ChannelForDeployment "d") (ping "p" 7)]) as Hb
    by (vm_compute; reflexivity).
  destruct (targeted_never_delivered pinged (ChannelForDeployment "d") deployment_watcher
    (with_channel (ChannelForDeployment "d") (ping "p" 7)) Hrun) as [H1 _].
  - rewrite Hs. by left.
  - rewrite Hb. by left.
  - split; [exact Hb|]. split; [exact H1|vm_compute; reflexivity].
Defined.
