(* ===== verification/Edge.v ===== *)
(** * The proxy manager: certificates, domains, recovery and HTTP
    (packages/application/proxy/store, cert, dns, events, recovery, http, module.go)

    The state adds to the tables of routes and previews ([px]) those of
    certificates, verifications and events, and what was handed to the in-process
    bus.  DNS is the record [Resolver] of an operation: what the servers answer while it
    runs.  The goroutine that stores the copy of an event runs where it is started:
    no operation reads that table back before it has run.  Metrics and log
    output are left out. *)

From Stdlib Require Import Ascii.
From stdpp Require Import pretty.
From S2P Require Import Prelude GoLib Errors Postgres Sql Jobs Rbac DeployModel Rows Repository Outside ControlPlane Password IdentityModel Slug IdentityStore IdentityService Access Placement AgentModel Agent ProxyStore RouteEngine PreviewManager EdgeNet.

(** ** Data (model.go) *)

Abbreviation CertStatus := string (only parsing).
Definition CertStatusPending : CertStatus := "pending".
Definition CertStatusIssuing : CertStatus := "issuing".
Definition CertStatusActive : CertStatus := "active".
Definition CertStatusRenewing : CertStatus := "renewing".
Definition CertStatusExpired : CertStatus := "expired".
Definition CertStatusRevoked : CertStatus := "revoked".
Definition CertStatusFailed : CertStatus := "failed".

Module Certificate.
Record t := mk {
  ID : string; OrgID : string; ProjectID : string; DomainID : string; Hostname : string;
  Status : CertStatus; Issuer : string; SerialNumber : string; Fingerprint : string;
  IssuedAt : option Time; ExpiresAt : option Time; RenewAfter : option Time; IsWildcard : bool;
  AcmeChallenge : string; FailureReason : string; Attempts : Z; CorrelationID : string;
  Metadata : string; CreatedAt : Time; UpdatedAt : Time
}.
End Certificate.
Abbreviation Certificate := Certificate.t.

Definition NeedsRenewal (c : Certificate) (now : Time) : bool :=
  match Certificate.RenewAfter c with None => false | Some t => After now t end.

Definition IsExpired (c : Certificate) (now : Time) : bool :=
  match Certificate.ExpiresAt c with None => false | Some t => After now t end.

Abbreviation VerifyStatus := string (only parsing).
Definition VerifyStatusPending : VerifyStatus := "pending".
Definition VerifyStatusVerified : VerifyStatus := "verified".

Module DomainVerification.
Record t := mk {
  ID : string; OrgID : string; ProjectID : string; DomainID : string; Hostname : string;
  Method : string; ChallengeValue : string; Status : VerifyStatus; Attempts : Z;
  LastAttemptAt : option Time; VerifiedAt : option Time; ExpiresAt : option Time;
  FailureReason : string; CorrelationID : string; Metadata : string; CreatedAt : Time; UpdatedAt : Time
}.
End DomainVerification.
Abbreviation DomainVerification := DomainVerification.t.

Module ProxyEvent.
Record t := mk {
  ID : string; EventType : string; OrgID : string; ProjectID : string; DeploymentID : string;
  DomainID : string; RouteID : string; CorrelationID : string; Metadata : string; CreatedAt : Time
}.
End ProxyEvent.
Abbreviation ProxyEvent := ProxyEvent.t.

Record ProxyMetrics := {
  RouteCount : Z; ActiveRoutes : Z; CertCount : Z; ActiveCerts : Z; RenewalsPending : Z;
  VerificationsPending : Z; PreviewCount : Z; m_SSEConnections : Z;
}.

Module Meta.
Record t := mk {
  OrgID : string; ProjectID : string; DeploymentID : string; DomainID : string; RouteID : string;
  CorrelationID : string
}.
End Meta.

Definition DomainVerified : string := "proxy.domain.verified".
Definition DomainVerifyFailed : string := "proxy.domain.verify_failed".
Definition ReconcileCompleted : string := "proxy.reconcile.completed".

(** ** The state *)

Record edgedb (C : Type) := mkEdge {
  px : proxy C;
  certs : list Certificate;
  verifications : list DomainVerification;
  proxy_events : list ProxyEvent;
  edge_bus : list (string * Meta.t);
}.
Arguments mkEdge {C}.
Arguments px {C}. Arguments certs {C}. Arguments verifications {C}. Arguments proxy_events {C}. Arguments edge_bus {C}.

Section lenses.
Context {C : Type}.
Implicit Types s : edgedb C.
Definition px_l : Lens (edgedb C) (proxy C).
Proof. refine {| view := px; put x s := mkEdge x (certs s) (verifications s) (proxy_events s) (edge_bus s) |};
  by first [intros ? []|intros []]. Defined.
Definition certs_l : Lens (edgedb C) (list Certificate).
Proof. refine {| view := certs; put x s := mkEdge (px s) x (verifications s) (proxy_events s) (edge_bus s) |};
  by first [intros ? []|intros []]. Defined.
Definition verifications_l : Lens (edgedb C) (list DomainVerification).
Proof. refine {| view := verifications; put x s := mkEdge (px s) (certs s) x (proxy_events s) (edge_bus s) |};
  by first [intros ? []|intros []]. Defined.
Definition proxy_events_l : Lens (edgedb C) (list ProxyEvent).
Proof. refine {| view := proxy_events; put x s := mkEdge (px s) (certs s) (verifications s) x (edge_bus s) |};
  by first [intros ? []|intros []]. Defined.
Definition edge_bus_l : Lens (edgedb C) (list (string * Meta.t)).
Proof. refine {| view := edge_bus; put x s := mkEdge (px s) (certs s) (verifications s) (proxy_events s) x |};
  by first [intros ? []|intros []]. Defined.
End lenses.

(** ** Row updates (store/repository.go) *)

Module CertRow.
Import Certificate.
Definition insert (c : t) (id : string) (now : Time) : t :=
  mk id (OrgID c) (ProjectID c) (DomainID c) (Hostname c) (Status c) (Issuer c) (SerialNumber c) (Fingerprint c)
    (IssuedAt c) (ExpiresAt c) (RenewAfter c) (IsWildcard c) (AcmeChallenge c) (FailureReason c) (Attempts c)
    (CorrelationID c) (Metadata c) now now.
(** [c] over the row [r] of the hostname. *)
Definition merge (c : t) (now : Time) (r : t) : t :=
  mk (ID r) (OrgID r) (ProjectID r) (DomainID r) (Hostname r) (Status c) (Issuer c) (SerialNumber c) (Fingerprint c)
    (IssuedAt c) (ExpiresAt c) (RenewAfter c) (IsWildcard r) (AcmeChallenge c) (FailureReason c) (Attempts c)
    (CorrelationID c) (Metadata c) (CreatedAt r) now.
Definition set_status (status reason : string) (now : Time) (r : t) : t :=
  mk (ID r) (OrgID r) (ProjectID r) (DomainID r) (Hostname r) status (Issuer r) (SerialNumber r) (Fingerprint r)
    (IssuedAt r) (ExpiresAt r) (RenewAfter r) (IsWildcard r) (AcmeChallenge r) reason (Attempts r + 1)
    (CorrelationID r) (Metadata r) (CreatedAt r) now.
Definition issued (serial fingerprint : string) (issuedAt expiresAt renewAfter now : Time) (r : t) : t :=
  mk (ID r) (OrgID r) (ProjectID r) (DomainID r) (Hostname r) CertStatusActive (Issuer r) serial fingerprint
    (Some issuedAt) (Some expiresAt) (Some renewAfter) (IsWildcard r) (AcmeChallenge r) "" (Attempts r)
    (CorrelationID r) (Metadata r) (CreatedAt r) now.
Definition due (now : Time) (c : t) : bool :=
  (Status c =s? CertStatusActive) && match RenewAfter c with Some t => t <=? now | None => false end.
Definition renew_before (a b : t) : bool :=
  match RenewAfter a, RenewAfter b with Some x, Some y => x <? y | _, _ => false end.
End CertRow.

Module VerRow.
Import DomainVerification.
Definition insert (v : t) (id : string) (now : Time) : t :=
  mk id (OrgID v) (ProjectID v) (DomainID v) (Hostname v) (Method v) (ChallengeValue v) (Status v) (Attempts v)
    (LastAttemptAt v) (VerifiedAt v) (ExpiresAt v) (FailureReason v) (CorrelationID v) (Metadata v) now now.
(** [v] over the row [r] of the domain: the hostname stays. *)
Definition merge (v : t) (now : Time) (r : t) : t :=
  mk (ID r) (OrgID r) (ProjectID r) (DomainID r) (Hostname r) (Method v) (ChallengeValue v) (Status v) (Attempts v)
    (LastAttemptAt v) (VerifiedAt v) (ExpiresAt v) (FailureReason v) (CorrelationID v) (Metadata v) (CreatedAt r) now.
Definition verified (now : Time) (r : t) : t :=
  mk (ID r) (OrgID r) (ProjectID r) (DomainID r) (Hostname r) (Method r) (ChallengeValue r) VerifyStatusVerified
    (Attempts r) (LastAttemptAt r) (Some now) (Some (Add now (90 * 24 * Hour))) "" (CorrelationID r) (Metadata r)
    (CreatedAt r) now.
Definition failed (reason : string) (now : Time) (r : t) : t :=
  mk (ID r) (OrgID r) (ProjectID r) (DomainID r) (Hostname r) (Method r) (ChallengeValue r) VerifyStatusPending
    (Attempts r + 1) (Some now) (VerifiedAt r) (ExpiresAt r) reason (CorrelationID r) (Metadata r) (CreatedAt r) now.
Definition pending (now : Time) (v : t) : bool :=
  (Status v =s? VerifyStatusPending)
  && match LastAttemptAt v with None => true | Some t => t <? now - 2 * Minute end.
Definition before : t → t → bool :=
  lex (λ a b, Attempts a <? Attempts b) (λ a b, CreatedAt a <? CreatedAt b).
End VerRow.

Definition duplicate_key : error := PgError sqlStateUniqueViolation "duplicate key".

(** [INSERT .. ON CONFLICT (key) DO UPDATE .. RETURNING]: [same] finds the row of
    the key, [with_id] one with the new identifier. *)
Definition upsert_row {R} (same with_id : R → bool) (new : R) (merge : R → R) (t : list R) : result error R * list R :=
  match select same t with
  | r :: _ => (Ok (merge r), update_where same merge t)
  | [] => if matched with_id t =? 0 then (Ok new, t ++ [new]) else (Err duplicate_key, t)
  end.

(** [SELECT .. WHERE] of at most one row. *)
Definition one_row {R} (p : R → bool) (t : list R) : result error R * list R :=
  (match select p t with r :: _ => Ok r | [] => Err ErrNoRows end, t).

Definition count_rows {R} (ps : list (R → bool)) (t : list R) : list Z * list R := ((λ p, matched p t) <$> ps, t).

Section repository.
Context `{D : Driver} `{So : Sorter} {C : Type}.

#[local] Abbreviation edge := (db (edgedb C)).

Definition on_px {A} : db (proxy C) A → edge A := zoom px_l.

(** ** Certificates *)

Definition cert_on (hostname : string) (c : Certificate) : bool := Certificate.Hostname c =s? hostname.
Definition cert_id (id : string) (c : Certificate) : bool := Certificate.ID c =s? id.

(** [fresh] is drawn when the certificate has no identifier; no metadata is [{}]. *)
Definition UpsertCertificate (fresh : string) (c : Certificate) (now : Time) : edge Certificate :=
  let id := or_else (Certificate.ID c) fresh in
  zoom certs_l (translate "proxy: scan cert" (query
    (with_uuids [id; Certificate.OrgID c; Certificate.ProjectID c; Certificate.DomainID c]
      (upsert_row (cert_on (Certificate.Hostname c)) (cert_id id) (CertRow.insert c id now) (CertRow.merge c now))))).

Definition GetCertByHostname (hostname : string) : edge Certificate :=
  zoom certs_l (translate "proxy: scan cert" (query (one_row (cert_on hostname)))).

Definition ListCertsDueForRenewal (now : Time) : edge (list Certificate) :=
  zoom certs_l (translate "proxy: list renewal certs"
    (exec (λ t, (sort_slice CertRow.renew_before (select (CertRow.due now) t), t)))).

Definition SetCertStatus (id : string) (status : CertStatus) (reason : string) (now : Time) : edge unit :=
  zoom certs_l (translate "proxy: set cert status"
    (exec (λ t, (tt, update_where (cert_id id) (CertRow.set_status status reason now) t)))).

Definition SetCertIssued (id serial fingerprint : string) (issuedAt expiresAt renewAfter now : Time) : edge unit :=
  zoom certs_l (translate "proxy: set cert issued"
    (exec (λ t, (tt, update_where (cert_id id) (CertRow.issued serial fingerprint issuedAt expiresAt renewAfter now) t)))).

(** ** Verifications *)

Definition ver_of (domainID : string) (v : DomainVerification) : bool := DomainVerification.DomainID v =s? domainID.
Definition ver_id (id : string) (v : DomainVerification) : bool := DomainVerification.ID v =s? id.

Definition UpsertVerification (fresh : string) (v : DomainVerification) (now : Time) : edge DomainVerification :=
  let id := or_else (DomainVerification.ID v) fresh in
  zoom verifications_l (translate "proxy: scan verification" (query
    (with_uuids [id; DomainVerification.OrgID v; DomainVerification.ProjectID v; DomainVerification.DomainID v]
      (upsert_row (ver_of (DomainVerification.DomainID v)) (ver_id id) (VerRow.insert v id now) (VerRow.merge v now))))).

Definition GetVerificationByDomain (domainID : string) : edge DomainVerification :=
  zoom verifications_l (translate "proxy: scan verification" (query (with_uuids [domainID] (one_row (ver_of domainID))))).

(** [ORDER BY attempts, created_at LIMIT 50] *)
Definition ListPendingVerifications (now : Time) : edge (list DomainVerification) :=
  zoom verifications_l (translate "proxy: list pending verifications"
    (exec (λ t, (take 50 (sort_slice VerRow.before (select (VerRow.pending now) t)), t)))).

Definition MarkVerified (id : string) (now : Time) : edge unit :=
  zoom verifications_l (translate "proxy: mark verified"
    (exec (λ t, (tt, update_where (ver_id id) (VerRow.verified now) t)))).

Definition MarkVerificationFailed (id reason : string) (now : Time) : edge unit :=
  zoom verifications_l (translate "proxy: mark verification failed"
    (exec (λ t, (tt, update_where (ver_id id) (VerRow.failed reason now) t)))).

(** ** Events and statistics *)

(** The columns have defaults, but the statement always gives the values. *)
Definition RecordEvent (fresh : string) (e : ProxyEvent) (now : Time) : edge unit :=
  let id := or_else (ProxyEvent.ID e) fresh in
  zoom proxy_events_l (translate "proxy: record event" (query
    (with_uuids [id; ProxyEvent.OrgID e; ProxyEvent.ProjectID e; ProxyEvent.DeploymentID e; ProxyEvent.DomainID e;
                 ProxyEvent.RouteID e]
      (λ t, if matched (λ r, ProxyEvent.ID r =s? id) t =? 0
            then (Ok tt, t ++ [ProxyEvent.mk id (ProxyEvent.EventType e) (ProxyEvent.OrgID e) (ProxyEvent.ProjectID e)
                                 (ProxyEvent.DeploymentID e) (ProxyEvent.DomainID e) (ProxyEvent.RouteID e)
                                 (ProxyEvent.CorrelationID e) (ProxyEvent.Metadata e) now])
            else (Err duplicate_key, t))))).

Definition ListEventsByDeployment (deploymentID : string) (limit : Z) : edge (list ProxyEvent) :=
  zoom proxy_events_l (translate "proxy: list events" (query (with_uuids [deploymentID] (λ t,
    (limit_rows limit (sort_slice (λ a b, ProxyEvent.CreatedAt b <? ProxyEvent.CreatedAt a)
       (select (λ e, ProxyEvent.DeploymentID e =s? deploymentID) t)), t))))).

Definition Repository_Stats (now : Time) : edge ProxyMetrics :=
  r ← on_px (translate "proxy: route stats" (exec (λ t,
        ((count_rows [live; λ r, (Route.Status r =s? RouteStatusActive) && live r] (routes t)).1, t))));
  c ← zoom certs_l (translate "proxy: cert stats" (exec
        (count_rows [λ _, true; λ c, Certificate.Status c =s? CertStatusActive; CertRow.due now])));
  v ← zoom verifications_l (translate "proxy: verify stats" (exec
        (count_rows [λ v, DomainVerification.Status v =s? VerifyStatusPending])));
  p ← on_px (translate "proxy: preview stats" (exec (λ t,
        ((count_rows [λ p, (Preview.Status p =s? PreviewStatusActive) && preview_live p] (previews t)).1, t))));
  let nth l i := default 0 (l !! i) in
  mret {| RouteCount := nth r 0%nat; ActiveRoutes := nth r 1%nat; CertCount := nth c 0%nat; ActiveCerts := nth c 1%nat;
          RenewalsPending := nth c 2%nat; VerificationsPending := nth v 0%nat; PreviewCount := nth p 0%nat;
          m_SSEConnections := 0 |}.

(** ** The publisher (events/publisher.go) *)

(** [PublishAsync]: the copy is stored whether or not the bus takes the event;
    [data] is its text. *)
Definition PublishAsync (fresh name : string) (meta : Meta.t) (ctxCorrelation data : string) (now : Time) : edge unit :=
  let corrID := or_else (Meta.CorrelationID meta) ctxCorrelation in
  let meta := Meta.mk (Meta.OrgID meta) (Meta.ProjectID meta) (Meta.DeploymentID meta) (Meta.DomainID meta)
                (Meta.RouteID meta) corrID in
  _ ← ignore (RecordEvent fresh (ProxyEvent.mk fresh name (Meta.OrgID meta) (Meta.ProjectID meta)
        (Meta.DeploymentID meta) (Meta.DomainID meta) (Meta.RouteID meta) corrID data 0) now);
  draw edge_bus_l (λ l, (tt, l ++ [(name, meta)])).

(** ** Certificates (cert/manager.go) *)

(** [time_text] is what [%v] prints for a time. *)
Context {CA : CaddyAdmin C} (renewBefore : Duration) (time_text : Time → string).

Definition renew_window : Duration := if renewBefore <=? 0 then 30 * 24 * Hour else renewBefore.

Definition requested (orgID projectID domainID hostname correlationID : string) : Certificate :=
  Certificate.mk "" orgID projectID domainID hostname CertStatusIssuing "lets_encrypt" "" "" None None None false "" ""
    0 correlationID "{}" 0 0.

Definition RequestCert (fresh orgID projectID domainID hostname correlationID : string) (now : Time) : edge Certificate :=
  if hostname =s? "" then fail_with (New CodeInvalidArgument "cert: hostname required")
  else
    cert ← UpsertCertificate fresh (requested orgID projectID domainID hostname correlationID) now;
    automated ← attempt (on_px (AutomateCert hostname));
    match automated with
    | Err err =>
        _ ← ignore (SetCertStatus (Certificate.ID cert) CertStatusFailed (ErrorString err) now);
        fail (wrap_with CodeInternal ("cert: automate " +:+ hostname) err)
    | Ok _ => mret cert
    end.

Definition RenewCert (cert : Certificate) (now : Time) : edge unit :=
  if negb (Certificate.Status cert =s? CertStatusActive) then mret tt
  else
    _ ← SetCertStatus (Certificate.ID cert) CertStatusRenewing "" now;
    on_px (AutomateCert (Certificate.Hostname cert)).

Definition Manager_RevokeCert (cert : Certificate) (now : Time) : edge unit :=
  _ ← ignore (on_px (RevokeCert (Certificate.Hostname cert)));
  SetCertStatus (Certificate.ID cert) CertStatusRevoked "revoked by operator" now.

Definition MarkIssued (hostname serial fingerprint : string) (expiresAt now : Time) : edge unit :=
  got ← attempt (GetCertByHostname hostname);
  match got with
  | Err err => if IsCode (Some err) CodeNotFound then mret tt else fail err
  | Ok cert =>
      let renewAfter := Add expiresAt (- renew_window) in
      let renewAfter := if Before renewAfter now then Add now (24 * Hour) else renewAfter in
      SetCertIssued (Certificate.ID cert) serial fingerprint now expiresAt renewAfter now
  end.

Fixpoint renew_each (l : list Certificate) (now : Time) : edge unit :=
  match l with [] => mret tt | c :: l => _ ← ignore (RenewCert c now); renew_each l now end.

Definition ReconcileRenewals (now : Time) : edge unit :=
  certs ← ListCertsDueForRenewal now; renew_each certs now.

Fixpoint expire_each (l : list Certificate) (now : Time) : edge unit :=
  match l with
  | [] => mret tt
  | c :: l =>
      _ ← (if IsExpired c now && (Certificate.Status c =s? CertStatusActive)
           then ignore (SetCertStatus (Certificate.ID c) CertStatusExpired
                  ("expired at " +:+ match Certificate.ExpiresAt c with Some t => time_text t | None => "<nil>" end) now)
           else mret tt);
      expire_each l now
  end.

Definition ReconcileExpired (now : Time) : edge unit :=
  certs ← ListCertsDueForRenewal now; expire_each certs now.
End repository.

(** ** Verification by DNS (dns/verifier.go) *)

(** What the resolver at an address answers. *)
Record Resolver := {
  LookupTXT : string → string → result error (list string);
  LookupCNAME : string → string → result error string;
  LookupHost : string → string → result error (list string);
}.

Definition MethodTXT : string := "txt".
Definition MethodCNAME : string := "cname".
Definition MethodA : string := "a".
Definition MethodAAAA : string := "aaaa".

Record VerifyResult := { Verified : bool; Reason : string }.
Definition verified : VerifyResult := {| Verified := true; Reason := "" |}.
Definition unverified (reason : string) : VerifyResult := {| Verified := false; Reason := reason |}.

Definition HasSuffix (s suffix : string) : bool :=
  (String.length suffix <=? String.length s)%nat
  && (drop_bytes (String.length s - String.length suffix) s =s? suffix).
Definition TrimSuffix (s suffix : string) : string :=
  if HasSuffix s suffix then take_bytes (String.length s - String.length suffix) s else s.

(** [None]: the slice is out of range and the goroutine panics. *)
Definition GenerateChallenge (method domainID : string) : option string :=
  let digits := keep_bytes (λ a, negb (bool_decide (a = "-"%char))) domainID in
  if (String.length digits <? 16)%nat then None
  else
    let safe := take_bytes 16 digits in
    Some (if method =s? MethodTXT then "agnivo-verify=" +:+ safe
          else if method =s? MethodCNAME then safe +:+ ".verify.agnivo.app"
          else safe).

Definition google : string := "8.8.8.8:53".

Section verifier.
Context (dns : Resolver).
Import DomainVerification.

Fixpoint txt_found (targets : list string) (challenge : string) : bool :=
  match targets with
  | [] => false
  | target :: targets =>
      match LookupTXT dns google target with
      | Err _ => txt_found targets challenge
      | Ok records =>
          existsb (λ rec, (rec =s? challenge) || Contains rec challenge) records || txt_found targets challenge
      end
  end.

(** [%q] of a text without special characters. *)
Definition verifyTXT (dv : t) : VerifyResult :=
  if txt_found [Hostname dv; "_agnivo-challenge." +:+ Hostname dv] (ChallengeValue dv) then verified
  else unverified ("TXT record " +:+ Jobs.quote (ChallengeValue dv) +:+ " not found on " +:+ Hostname dv).

Definition verifyCNAME (dv : t) : VerifyResult :=
  match LookupCNAME dns google (Hostname dv) with
  | Err err => unverified ("CNAME lookup failed: " +:+ ErrorString err)
  | Ok cname =>
      let cname := TrimSuffix (ToLower cname) "." in
      let expected := TrimSuffix (ToLower (ChallengeValue dv)) "." in
      if (cname =s? expected) || HasSuffix cname ("." +:+ expected) then verified
      else unverified ("CNAME " +:+ Jobs.quote cname +:+ " does not point to " +:+ Jobs.quote expected)
  end.

(** [%v] of a slice of strings. *)
Definition show_strings (l : list string) : string := "[" +:+ String.concat " " l +:+ "]".

Definition verifyA (dv : t) : VerifyResult :=
  match LookupHost dns google (Hostname dv) with
  | Err err => unverified ("A lookup failed: " +:+ ErrorString err)
  | Ok addrs =>
      if existsb (String.eqb (ChallengeValue dv)) addrs then verified
      else unverified ("A record for " +:+ Hostname dv +:+ " does not include " +:+ Jobs.quote (ChallengeValue dv)
                       +:+ " (got " +:+ show_strings addrs +:+ ")")
  end.

Definition verifyAAAA (dv : t) : VerifyResult :=
  match LookupHost dns google (Hostname dv) with
  | Err err => unverified ("AAAA lookup failed: " +:+ ErrorString err)
  | Ok addrs =>
      if existsb (λ addr, match ParseIP addr with
                          | Some ip => bool_decide (To4 ip = None) && (addr =s? ChallengeValue dv)
                          | None => false
                          end) addrs
      then verified
      else unverified ("AAAA record for " +:+ Hostname dv +:+ " does not include " +:+ Jobs.quote (ChallengeValue dv))
  end.

Definition Verify (dv : t) : VerifyResult :=
  if Method dv =s? MethodTXT then verifyTXT dv
  else if Method dv =s? MethodCNAME then verifyCNAME dv
  else if Method dv =s? MethodA then verifyA dv
  else if Method dv =s? MethodAAAA then verifyAAAA dv
  else unverified ("unknown method: " +:+ Method dv).

Definition public_resolvers : list string := ["8.8.8.8:53"; "1.1.1.1:53"; "9.9.9.9:53"; "208.67.222.222:53"].

Definition CheckPropagation (hostname txtValue : string) : bool :=
  let agrees raddr := match LookupTXT dns raddr hostname with
                      | Ok records => existsb (λ rec, Contains rec txtValue) records
                      | Err _ => false
                      end in
  let verified := matched agrees public_resolvers in
  Z.of_nat (length public_resolvers) / 2 + 1 <=? verified.
End verifier.

Definition ValidateDomainFormat (hostname : string) : option Error :=
  let labels := Split hostname "." in
  if hostname =s? "" then Some (New CodeInvalidArgument "hostname must not be empty")
  else if (253 <? String.length hostname)%nat then Some (New CodeInvalidArgument "hostname exceeds 253 characters")
  else if (length labels <? 2)%nat then Some (New CodeInvalidArgument "hostname must have at least one dot")
  else if existsb (λ l, (String.length l =? 0)%nat || (63 <? String.length l)%nat) labels
  then Some (New CodeInvalidArgument "each DNS label must be 1–63 characters")
  else None.

(** ** Recovery (recovery/reconciler.go) *)

(** What an operation draws: the identifiers of its rows, the correlation id of
    its context and the clock. *)
Record Draws := { new_id : string; version_id : string; ctx_correlation : string; clock : Time }.

Record createRouteRequest := {
  rr_OrgID : string; rr_ProjectID : string; rr_DeploymentID : string; rr_DomainID : string; rr_Hostname : string;
  rr_Upstream : string; rr_Kind : string; rr_TLSEnabled : bool; rr_HTTPSRedirect : bool; rr_StripPrefix : string;
  rr_TimeoutSecs : Z; rr_MaxRetries : Z; rr_CorrelationID : string;
}.
Record switchRequest := {
  sr_Hostname : string; sr_DeploymentID : string; sr_NewUpstream : string; sr_PreviousUpstream : string;
  sr_Mode : string; sr_CanaryWeight : Z; sr_CorrelationID : string;
}.
Record blueGreenRequest := { bg_Hostname : string; bg_NewUpstream : string; bg_CorrelationID : string }.
Record canaryRequest := { ca_Hostname : string; ca_CanaryUpstream : string; ca_Weight : Z; ca_CorrelationID : string }.
Record rollbackRequest := { rb_Hostname : string; rb_CorrelationID : string }.
Record createPreviewRequest := {
  pr_OrgID : string; pr_ProjectID : string; pr_DeploymentID : string; pr_Upstream : string; pr_Branch : string;
  pr_CommitSHA : string; pr_CustomHostname : string; pr_TTLSeconds : Z; pr_CorrelationID : string;
}.
Record domainJobRequest := {
  dj_OrgID : string; dj_ProjectID : string; dj_DomainID : string; dj_Hostname : string; dj_Method : string;
  dj_CorrelationID : string;
}.

Inductive EdgePayload :=
  | StatusText (s : string)
  | RouteData (r : Route)
  | RouteList (l : list Route)
  | PreviewData (p : Preview)
  | PreviewList (l : list Preview)
  | CertData (c : Certificate)
  | RenewalData (hostname status : string) (renewAfter : option Time)
  | VerificationData (v : DomainVerification)
  | StatsData (m : ProxyMetrics)
  | ConnectionData (s : ConnectionStats)
  | Queued.

Section module_.
Context `{D : Driver} `{So : Sorter} {C : Type} {CA : CaddyAdmin C} `{J : Jsonb}.
Context (m : Manager) (renewBefore : Duration) (time_text : Time → string) (host_lt : string → string → bool).

#[local] Abbreviation edge := (db (edgedb C)).

Definition meta0 : Meta.t := Meta.mk "" "" "" "" "" "".

Definition reconcileRoutes (d : Draws) : edge unit :=
  _ ← on_px (ReconcileAll host_lt);
  PublishAsync (new_id d) ReconcileCompleted meta0 (ctx_correlation d) (json_object [("subsystem", VString "routes")])
    (clock d).

(** [fresh] draws the identifier of the event of a verification. *)
Fixpoint verify_each (dns : Resolver) (fresh : string → string) (ctxCorrelation : string) (now : Time)
    (l : list DomainVerification) : edge unit :=
  match l with
  | [] => mret tt
  | v :: l =>
      let result := Verify dns v in
      _ ← (if Verified result then
             marked ← attempt (MarkVerified (DomainVerification.ID v) now);
             match marked with
             | Err _ => mret tt
             | Ok _ =>
                 PublishAsync (fresh (DomainVerification.ID v)) DomainVerified
                   (Meta.mk (DomainVerification.OrgID v) (DomainVerification.ProjectID v) ""
                      (DomainVerification.DomainID v) "" (DomainVerification.CorrelationID v)) ctxCorrelation
                   (json_object [("hostname", VString (DomainVerification.Hostname v))]) now
             end
           else
             _ ← ignore (MarkVerificationFailed (DomainVerification.ID v) (Reason result) now);
             PublishAsync (fresh (DomainVerification.ID v)) DomainVerifyFailed
               (Meta.mk (DomainVerification.OrgID v) "" "" (DomainVerification.DomainID v) "" "") ctxCorrelation
               (json_object [("hostname", VString (DomainVerification.Hostname v));
                             ("reason", VString (Reason result))]) now);
      verify_each dns fresh ctxCorrelation now l
  end.

Definition reconcileVerifications (dns : Resolver) (fresh : string → string) (d : Draws) : edge unit :=
  l ← ListPendingVerifications (clock d); verify_each dns fresh (ctx_correlation d) (clock d) l.

Definition reconcileCerts (now : Time) : edge unit :=
  _ ← ReconcileRenewals now; ReconcileExpired time_text now.

Definition reconcilePreviews (now : Time) : edge unit :=
  _ ← on_px (CleanupExpired now); mret tt.

(** One pass; the number of parts that failed. *)
Definition reconcile (dns : Resolver) (fresh : string → string) (d : Draws) : edge Z :=
  r ← attempt (reconcileRoutes d);
  v ← attempt (reconcileVerifications dns fresh d);
  c ← attempt (reconcileCerts (clock d));
  p ← attempt (reconcilePreviews (clock d));
  mret (matched (λ x, negb (is_ok x)) [r; v; c; p]).

(** [None]: a panic. *)
Definition DomainVerifyRequest (d : Draws) (orgID projectID domainID hostname method correlationID : string)
    : edge (option unit) :=
  match GenerateChallenge method domainID with
  | None => mret None
  | Some challenge =>
      _ ← UpsertVerification (new_id d)
            (DomainVerification.mk "" orgID projectID domainID hostname method challenge VerifyStatusPending 0 None None None
               "" correlationID "{}" 0 0) (clock d);
      mret (Some tt)
  end.

Definition SSLRequest (d : Draws) (orgID projectID domainID hostname correlationID : string) : edge unit :=
  _ ← RequestCert (new_id d) orgID projectID domainID hostname correlationID (clock d); mret tt.

(** ** The domain worker (module.go) *)

(** [j.Decode(&p)] *)
Context (decode_payload : string → result error ControlPlane.Payload).

Definition of_handler (a : result error (option unit)) : outcome :=
  match a with
  | Ok (Some _) => Returns None
  | Ok None => Panics "runtime error: slice bounds out of range"
  | Err e => Returns (Some e)
  end.

Definition handle_verify (d : Draws) (j : Job) : edge outcome :=
  a ← attempt (p ← of_result (decode_payload (Job.Payload j));
               DomainVerifyRequest d (ControlPlane.OrgID p) (ControlPlane.ProjectID p) (ControlPlane.DomainID p) ""
                 "txt" (ControlPlane.CorrelationID p));
  mret (of_handler a).

Definition handle_ssl (d : Draws) (j : Job) : edge outcome :=
  a ← attempt (p ← of_result (decode_payload (Job.Payload j));
               _ ← SSLRequest d (ControlPlane.OrgID p) (ControlPlane.ProjectID p) (ControlPlane.DomainID p) ""
                     (ControlPlane.CorrelationID p);
               mret (Some tt));
  mret (of_handler a).

Definition domain_handlers : gmap string (Draws → Job → edge outcome) :=
  {[TypeDomainVerify := handle_verify; TypeSSLRequest := handle_ssl]}.

(** The worker and the tables share the database. *)
Definition queue_l : Lens (list Job * edgedb C) (list Job).
Proof. refine {| view := fst; put q s := (q, s.2) |}; by intros; repeat match goal with x : _ * _ |- _ => destruct x end. Defined.
Definition tables_l : Lens (list Job * edgedb C) (edgedb C).
Proof. refine {| view := snd; put x s := (s.1, x) |}; by intros; repeat match goal with x : _ * _ |- _ => destruct x end. Defined.

(** One claimed job: its handler, then [process] with what the handler did. *)
Definition domain_process (backoff : Z → Duration) (d : Draws) (j : Job) : db (list Job * edgedb C) unit :=
  match domain_handlers !! Job.Type_ j with
  | None => zoom queue_l (process ∅ backoff j (clock d))
  | Some handler =>
      o ← zoom tables_l (handler d j);
      zoom queue_l (process {[Job.Type_ j := λ _, o]} backoff j (clock d))
  end.

(** ** HTTP (http/handlers.go) *)

Context `{D1 : Decoder createRouteRequest} `{D2 : Decoder switchRequest} `{D3 : Decoder blueGreenRequest}
  `{D4 : Decoder canaryRequest} `{D5 : Decoder rollbackRequest} `{D6 : Decoder createPreviewRequest}
  `{D7 : Decoder domainJobRequest}.

(** An answer; [None] is a panic. *)
Definition EdgeHandler : Type := Draws → Request → edge (option (AnswerOf EdgePayload)).

(** [dto.Decode] *)
Definition edge_decode A `{Decoder A} (r : Request) : edge A := of_result (DecodeValidate (Request.body r)).
Definition URLParam (r : Request) (key : string) : string := default "" (Request.params r !! key).
Definition answers (a : AnswerOf EdgePayload) : edge (option (AnswerOf EdgePayload)) := mret (Some a).

Definition handle_status (s : string) : EdgeHandler := λ d r, answers (OK (StatusText s)).

Definition handle_CreateRoute : EdgeHandler := λ d r,
  req ← edge_decode createRouteRequest r;
  rt ← on_px (RouteEngine.Create (new_id d) (version_id d) (ctx_correlation d)
         {| RouteEngine.OrgID := rr_OrgID req; RouteEngine.ProjectID := rr_ProjectID req;
            RouteEngine.DeploymentID := rr_DeploymentID req; RouteEngine.DomainID := rr_DomainID req;
            RouteEngine.Hostname := rr_Hostname req; RouteEngine.Upstream := rr_Upstream req;
            RouteEngine.Kind := rr_Kind req; RouteEngine.TLSEnabled := rr_TLSEnabled req;
            RouteEngine.HTTPSRedirect := rr_HTTPSRedirect req; RouteEngine.StripPrefix := rr_StripPrefix req;
            RouteEngine.AddHeaders := ∅; RouteEngine.TimeoutSecs := rr_TimeoutSecs req;
            RouteEngine.MaxRetries := rr_MaxRetries req; RouteEngine.CorrelationID := rr_CorrelationID req |}
         (clock d));
  answers (Access.Created (RouteData rt)).

Definition handle_GetRoute : EdgeHandler := λ d r,
  rt ← on_px (GetRouteByHostname (URLParam r "hostname")); answers (OK (RouteData rt)).

Definition handle_DeleteRoute : EdgeHandler := λ d r,
  _ ← on_px (RouteEngine.Delete (URLParam r "hostname") (clock d)); answers NoContent.

Definition handle_ListRoutes : EdgeHandler := λ d r,
  l ← on_px (ListRoutesByProject host_lt (QueryString r "org_id") (QueryString r "project_id"));
  answers (OK (RouteList l)).

Definition handle_Switch : EdgeHandler := λ d r,
  req ← edge_decode switchRequest r;
  rt ← on_px (Switch (TrafficSwitchRequest.mk "" "" (sr_DeploymentID req) (sr_Hostname req) (sr_NewUpstream req)
         (sr_PreviousUpstream req) (sr_Mode req) (sr_CanaryWeight req) (sr_CorrelationID req)) (clock d));
  answers (OK (RouteData rt)).

Definition handle_BlueGreen : EdgeHandler := λ d r,
  req ← edge_decode blueGreenRequest r;
  rt ← on_px (BlueGreen (bg_Hostname req) (bg_NewUpstream req) (bg_CorrelationID req) (clock d));
  answers (OK (RouteData rt)).

Definition handle_Canary : EdgeHandler := λ d r,
  req ← edge_decode canaryRequest r;
  rt ← on_px (Canary (ca_Hostname req) (ca_CanaryUpstream req) (ca_Weight req) (ca_CorrelationID req) (clock d));
  answers (OK (RouteData rt)).

Definition handle_Rollback : EdgeHandler := λ d r,
  req ← edge_decode rollbackRequest r;
  rt ← on_px (Rollback (rb_Hostname req) (rb_CorrelationID req) (clock d));
  answers (OK (RouteData rt)).

(** The time to live of the request is not passed on. *)
Definition handle_CreatePreview : EdgeHandler := λ d r,
  req ← edge_decode createPreviewRequest r;
  p ← on_px (CreatePreview m (new_id d)
        (PreviewInput.mk (pr_OrgID req) (pr_ProjectID req) (pr_DeploymentID req) (pr_Upstream req) (pr_Branch req)
           (pr_CommitSHA req) (pr_CustomHostname req) 0 (pr_CorrelationID req)) (clock d));
  answers (Access.Created (PreviewData p)).

Definition handle_GetPreview : EdgeHandler := λ d r,
  p ← on_px (GetPreviewByDeployment (URLParam r "deployment_id")); answers (OK (PreviewData p)).

Definition handle_DeletePreview : EdgeHandler := λ d r,
  _ ← on_px (DeletePreview (URLParam r "deployment_id") (clock d)); answers NoContent.

Definition handle_ListPreviews : EdgeHandler := λ d r,
  l ← on_px (ListActivePreviewsByProject (QueryString r "org_id") (QueryString r "project_id"));
  answers (OK (PreviewList l)).

Definition handle_GetCert : EdgeHandler := λ d r,
  c ← GetCertByHostname (URLParam r "hostname"); answers (OK (CertData c)).

(** It renews nothing. *)
Definition handle_RenewCert : EdgeHandler := λ d r,
  c ← GetCertByHostname (URLParam r "hostname");
  answers (OK (RenewalData (URLParam r "hostname") (Certificate.Status c) (Certificate.RenewAfter c))).

Definition handle_GetVerification : EdgeHandler := λ d r,
  v ← GetVerificationByDomain (URLParam r "domain_id"); answers (OK (VerificationData v)).

Definition handle_Stats : EdgeHandler := λ d r,
  s ← Repository_Stats (clock d); answers (OK (StatsData s)).

(** [h]: the hub when its lists are counted and when its counter is read. *)
Definition handle_StreamingStats (h : hub * hub) : EdgeHandler := λ d r, answers (OK (ConnectionData (Stats h.1 h.2))).

Definition handle_JobDomainVerify : EdgeHandler := λ d r,
  req ← edge_decode domainJobRequest r;
  done_ ← DomainVerifyRequest d (dj_OrgID req) (dj_ProjectID req) (dj_DomainID req) (dj_Hostname req) (dj_Method req)
            (dj_CorrelationID req);
  mret ((λ _, OK Queued) <$> done_).

Definition handle_JobSSLRequest : EdgeHandler := λ d r,
  req ← edge_decode domainJobRequest r;
  _ ← SSLRequest d (dj_OrgID req) (dj_ProjectID req) (dj_DomainID req) (dj_Hostname req) (dj_CorrelationID req);
  answers (OK Queued).

Definition proxy_routes (h : hub * hub) : list (string * string * EdgeHandler) :=
  let p := "/internal/v1/proxy" in
  [("GET", p +:+ "/health", handle_status "ok");
   ("GET", p +:+ "/ready", handle_status "ready");
   ("GET", p +:+ "/live", handle_status "live");
   ("POST", p +:+ "/routes", handle_CreateRoute);
   ("GET", p +:+ "/routes/{hostname}", handle_GetRoute);
   ("DELETE", p +:+ "/routes/{hostname}", handle_DeleteRoute);
   ("GET", p +:+ "/routes", handle_ListRoutes);
   ("POST", p +:+ "/traffic/switch", handle_Switch);
   ("POST", p +:+ "/traffic/blue-green", handle_BlueGreen);
   ("POST", p +:+ "/traffic/canary", handle_Canary);
   ("POST", p +:+ "/traffic/rollback", handle_Rollback);
   ("POST", p +:+ "/previews", handle_CreatePreview);
   ("GET", p +:+ "/previews/{deployment_id}", handle_GetPreview);
   ("DELETE", p +:+ "/previews/{deployment_id}", handle_DeletePreview);
   ("GET", p +:+ "/previews", handle_ListPreviews);
   ("GET", p +:+ "/certs/{hostname}", handle_GetCert);
   ("POST", p +:+ "/certs/{hostname}/renew", handle_RenewCert);
   ("GET", p +:+ "/domains/{domain_id}/verification", handle_GetVerification);
   ("GET", p +:+ "/stats", handle_Stats);
   ("GET", p +:+ "/streaming/stats", handle_StreamingStats h);
   ("POST", p +:+ "/jobs/domain-verify", handle_JobDomainVerify);
   ("POST", p +:+ "/jobs/ssl-request", handle_JobSSLRequest)].

Definition edge_answer (h : EdgeHandler) (d : Draws) (r : Request) : edge (ResponseOf EdgePayload) :=
  a ← attempt (h d r);
  mret (match a with
        | Ok (Some a) => Success a
        | Ok None => recovered
        | Err e => default recovered (dto_Error e)
        end).

(** A request at the internal server; [None] where no route matches. *)
Definition proxy_serve (auth : InternalAuth) (h : hub * hub) (d : Draws) (r : Request) : edge (option (ResponseOf EdgePayload)) :=
  match InternalServiceAuth auth r with
  | Some e => mret (Some (default recovered (dto_Error e)))
  | None =>
      match filter (λ '(meth, p, _), meth = Request.Method r ∧ p = Request.Pattern r) (proxy_routes h) with
      | [] => mret None
      | (_, _, handler) :: _ => a ← edge_answer handler d r; mret (Some a)
      end
  end.

(** ** The module as a state machine *)

Inductive edge_op :=
  | EdgeRequest (auth : InternalAuth) (h : hub * hub) (r : Request)
  | EdgeReconcile (dns : Resolver) (fresh : string → string)
  | EdgeJob (j : Job) (handler : Draws → Job → edge outcome).

Definition run_edge (o : edge_op) (d : Draws) : edge unit :=
  match o with
  | EdgeRequest auth h r => ignore (proxy_serve auth h d r)
  | EdgeReconcile dns fresh => ignore (reconcile dns fresh d)
  | EdgeJob j handler => ignore (handler d j)
  end.

(** Requests, passes and jobs in any order, at any time, with any answers of the
    DNS servers and any failures. *)
Inductive edge_step : edgedb C → edgedb C → Prop :=
| edge_step_op o d s fs :
    match o with EdgeJob j handler => domain_handlers !! Job.Type_ j = Some handler | _ => True end →
    edge_step s (tables_of (run_edge o d (s, fs))).
End module_.
