(* ===== verification/EdgeFacts.v ===== *)
(** * The proxy manager: what its operations keep *)

From Stdlib Require Import Ascii.
From S2P Require Import Prelude GoLib Errors Postgres Sql Jobs Rbac DeployModel Rows Repository Outside ControlPlane Password IdentityModel Slug IdentityStore IdentityService Access Placement AgentModel Agent ProxyStore RouteEngine RouteFacts PreviewManager EdgeNet Edge.

(** ** Keys that are unique among the live rows *)

Section live_keys.
Context {R K : Type} (key : R → K) (alive : R → bool).

Lemma live_keys_update p f l :
  (∀ r, key (f r) = key r) → (∀ r, alive (f r) = true → alive r = true) →
  NoDup (key <$> select alive l) → NoDup (key <$> select alive (update_where p f l)).
Proof.
  intros Hk Ha Hn. eapply sublist_NoDup; [exact Hn|]. clear Hn. unfold select. induction l as [|x l IH]; [done|].
  rewrite update_where_cons, !filter_cons. destruct (p x).
  - case_decide as H1; [rewrite decide_True by by apply Ha|case_decide].
    + rewrite !fmap_cons, Hk. by constructor.
    + rewrite fmap_cons. by constructor.
    + done.
  - case_decide; [rewrite !fmap_cons; by constructor|done].
Qed.

Lemma live_keys_insert r l :
  (∀ r', r' ∈ l → alive r' = true → key r' ≠ key r) →
  NoDup (key <$> select alive l) → NoDup (key <$> select alive (l ++ [r])).
Proof.
  intros Hn Hl. rewrite select_app, fmap_app. apply NoDup_app. split_and!; [done| |].
  - intros x (r' & -> & [Ha Hr']%elem_of_select)%list_elem_of_fmap (y & E & [_ Hy]%elem_of_select)%list_elem_of_fmap.
    apply list_elem_of_singleton in Hy as ->. by apply (Hn r').
  - unfold select. rewrite filter_cons. case_decide; [apply NoDup_singleton|apply NoDup_nil_2].
Qed.
End live_keys.

(** An upsert keeps a key unique that identifies the row it merges into. *)
Lemma upsert_row_keys {R K} (key : R → K) (same with_id : R → bool) (new : R) merge t :
  (∀ r, key (merge r) = key r) → (∀ r, key r = key new → same r = true) →
  NoDup (key <$> t) → NoDup (key <$> (upsert_row same with_id new merge t).2).
Proof.
  intros Hm Hs Hn. unfold upsert_row. destruct (select same t) as [|r l] eqn:E; simpl.
  - case_match; [|done]. simpl. rewrite fmap_app. apply NoDup_app. split_and!; [done| |apply NoDup_singleton].
    intros k (r & -> & Hr)%list_elem_of_fmap Hk%list_elem_of_singleton.
    assert (r ∈ select same t) as Hin by (apply elem_of_select; auto). rewrite E in Hin. by apply elem_of_nil in Hin.
  - by rewrite map_key_update_where.
Qed.

(** So does the primary key, which an insertion checks. *)
Lemma upsert_row_ids {R} (id_of : R → string) id (same with_id : R → bool) (new : R) merge t :
  id_of new = id → (∀ r, with_id r = (id_of r =s? id)) → (∀ r, id_of (merge r) = id_of r) →
  NoDup (id_of <$> t) → NoDup (id_of <$> (upsert_row same with_id new merge t).2).
Proof.
  intros Hnew Hid Hm Hn. unfold upsert_row. destruct (select same t) as [|r l]; simpl.
  - destruct (Z.eqb_spec (matched with_id t) 0) as [Hz|]; [|done]. simpl. rewrite fmap_app. apply NoDup_app.
    split_and!; [done| |apply NoDup_singleton].
    intros k (r & -> & Hr)%list_elem_of_fmap Hk%list_elem_of_singleton. simpl in Hk.
    pose proof (proj1 (matched_zero with_id t) Hz r Hr) as Hf. rewrite Hid, Hk, Hnew, String.eqb_refl in Hf. done.
  - by rewrite map_key_update_where.
Qed.

Lemma upsert_row_Forall {R} (P : R → Prop) (same with_id : R → bool) (new : R) merge t :
  P new → (∀ r, P (merge r)) → Forall P t → Forall P (upsert_row same with_id new merge t).2.
Proof.
  intros Hn Hm Ht. unfold upsert_row. destruct (select same t); simpl.
  - case_match; simpl; [|done]. apply Forall_app. split; [done|by constructor].
  - apply Forall_update_where; auto.
Qed.

(** ** The tables of routes and previews *)

Section proxy_tables.
Context `{D : Driver} `{So : Sorter} {C : Type} `{CA : CaddyAdmin C}.

Definition previews_ok (st : proxy C) : Prop :=
  NoDup (Preview.DeploymentID <$> select preview_live (previews st)) ∧ NoDup (Preview.ID <$> previews st).

Section leaves.
Context (I : proxy C → Prop) (Hedge : ∀ c st, I st → I (set_edge c st)).

Lemma preserves_do {A} (f : C → result error A * C) : preserves I (do_ f).
Proof. apply preserves_wp. intros st Hst. apply wp_do; intros; by apply Hedge. Qed.

(** Statements that do not write what [I] is about. *)
Context (Hroutes : ∀ l st, I st → I (set_routes l st)).

Lemma preserves_upsert_route fresh rt now : preserves I (UpsertRoute (C := C) fresh rt now).
Proof.
  apply preserves_translate, preserves_query. intros st Hst. apply wp_with_uuids; [done|intros _].
  unfold upsert_route. repeat case_match; simpl; auto.
Qed.
End leaves.
End proxy_tables.

(** One layer of a computation that has to preserve a predicate of the tables
    which does not depend on the edge server. *)
Ltac keep :=
  match goal with
  | |- preserves _ (mbind _ _) => apply preserves_bind; [|intros]
  | |- preserves _ (mret _) => apply preserves_ret
  | |- preserves _ (fail _) => apply preserves_fail
  | |- preserves _ (fail_with _) => apply preserves_fail_with
  | |- preserves _ (of_result _) => by intros ? ?
  | |- preserves _ (ignore _) => apply preserves_ignore
  | |- preserves _ (attempt _) => apply preserves_attempt
  | |- preserves _ (on_error _ _) => apply preserves_on_error
  | |- preserves _ (translate _ _) => apply preserves_translate
  | |- preserves _ (do_ _) => apply preserves_do; [first [assumption | by intros]|..]
  | |- preserves _ (exec _) => apply preserves_exec; by intros
  | |- preserves _ (query (λ _, (_, _))) => apply preserves_query; by intros
  | |- preserves _ (query (with_uuids _ (λ _, (_, _)))) =>
      apply preserves_query; intros ? ?; by apply wp_with_uuids
  | |- preserves _ match ?x with _ => _ end => destruct x
  end.

Section keeps.
Context `{D : Driver} `{So : Sorter} {C : Type} `{CA : CaddyAdmin C}.
Context (I : proxy C → Prop) (Hedge : ∀ c st, I st → I (set_edge c st)).

Lemma keep_AutomateCert h : preserves I (AutomateCert h).
Proof. unfold AutomateCert, read_automate, write_automate. repeat keep. Qed.

Lemma keep_Caddy_UpsertRoute cfg : preserves I (Caddy_UpsertRoute cfg).
Proof. unfold Caddy_UpsertRoute. repeat first [keep | by apply keep_AutomateCert]. Qed.

Lemma keep_Caddy_DeleteRoute h : preserves I (Caddy_DeleteRoute h).
Proof. unfold Caddy_DeleteRoute. repeat keep. Qed.
End keeps.

(** The route and traffic operations write routes and their history only. *)
Section route_keeps.
Context `{D : Driver} `{So : Sorter} {C : Type} `{CA : CaddyAdmin C}.
Context (I : proxy C → Prop) (Hedge : ∀ c st, I st → I (set_edge c st)).
Context (Hroutes : ∀ l st, I st → I (set_routes l st)) (Hversions : ∀ l st, I st → I (set_versions l st)).

Lemma keep_update_routes msg p f : preserves I (translate (S := proxy C) msg (update_routes p f)).
Proof. apply preserves_translate, preserves_exec. intros st Hst. by apply Hroutes. Qed.

Lemma keep_version vid rt now : preserves I (RecordRouteVersion (C := C) vid rt now).
Proof. apply preserves_translate, preserves_exec. intros st Hst. by apply Hversions. Qed.

Ltac keep_route :=
  first
    [ apply keep_update_routes | apply keep_version
    | by apply preserves_upsert_route
    | by apply keep_Caddy_UpsertRoute | by apply keep_Caddy_DeleteRoute
    | keep ].

Lemma keep_Create id vid corr inp now : preserves I (RouteEngine.Create id vid corr inp now).
Proof. unfold RouteEngine.Create, SetRouteStatus. repeat keep_route. Qed.

Lemma keep_Delete h now : preserves I (RouteEngine.Delete h now).
Proof.
  unfold RouteEngine.Delete, GetRouteByHostname, one_route, SetRouteStatus, SoftDeleteRoute. repeat keep_route.
Qed.

Lemma keep_push_all l n : preserves I (push_all l n).
Proof. revert n. induction l as [|rt l IH]; intros n; simpl; repeat keep_route. apply IH. Qed.

Lemma keep_ReconcileAll lt : preserves I (ReconcileAll lt).
Proof. unfold ReconcileAll, ListActiveRoutes. repeat first [apply keep_push_all | keep_route]. Qed.

Lemma keep_Switch req now : preserves I (Switch req now).
Proof.
  unfold Switch, GetRouteByDeployment, GetRouteByHostname, one_route, UpdateRouteTraffic. repeat keep_route.
Qed.

Lemma keep_BlueGreen h u corr now : preserves I (BlueGreen h u corr now).
Proof.
  unfold BlueGreen, GetRouteByHostname, one_route. repeat first [apply keep_Switch | keep_route].
Qed.

Lemma keep_Canary h u w corr now : preserves I (Canary h u w corr now).
Proof.
  unfold Canary, GetRouteByHostname, one_route. repeat first [apply keep_Switch | keep_route].
Qed.

Lemma keep_Rollback h corr now : preserves I (Rollback h corr now).
Proof.
  unfold Rollback, GetRouteByHostname, one_route. repeat first [apply keep_Switch | keep_route].
Qed.
End route_keeps.

(** The preview operations write previews only; an invariant of both has to
    survive the two statements they use. *)
Section preview_keeps.
Context `{D : Driver} `{So : Sorter} {C : Type} `{CA : CaddyAdmin C} (m : Manager).
Context (I : proxy C → Prop) (Hedge : ∀ c st, I st → I (set_edge c st)).
Context (Hupsert : ∀ p id now st, Preview.DeletedAt p = None → I st → I (upsert_preview p id now st).2).
Context (Hremove : ∀ id now st, I st →
  I (set_previews (update_where (λ p, Preview.ID p =s? id) (preview_removed now) (previews st)) st)).

Lemma keep_SoftDeletePreview id now : preserves I (SoftDeletePreview (C := C) id now).
Proof. apply preserves_translate, preserves_exec. intros st Hst. by apply Hremove. Qed.

Lemma keep_CreatePreview id inp now : preserves I (CreatePreview m id inp now).
Proof.
  unfold CreatePreview. repeat first [by apply keep_Caddy_UpsertRoute | by apply keep_AutomateCert | keep].
  unfold UpsertPreview. apply preserves_translate, preserves_query. intros st Hst. apply wp_with_uuids; [done|intros _].
  by apply Hupsert.
Qed.

Lemma keep_DeletePreview dep now : preserves I (DeletePreview (C := C) dep now).
Proof.
  unfold DeletePreview, GetPreviewByDeployment.
  repeat first [by apply keep_Caddy_DeleteRoute | apply keep_SoftDeletePreview | keep].
Qed.

Lemma keep_CleanupExpired now : preserves I (CleanupExpired (C := C) now).
Proof.
  unfold CleanupExpired, ListExpiredPreviews. repeat keep.
  generalize 0. induction a as [|p l IH]; intros n; simpl;
    repeat first [apply IH | by apply keep_Caddy_DeleteRoute | apply keep_SoftDeletePreview | keep].
Qed.
End preview_keeps.

Section preview_table.
Context {C : Type}.
Implicit Types st : proxy C.

Lemma previews_ok_upsert p id now st :
  Preview.DeletedAt p = None → previews_ok st → previews_ok (upsert_preview p id now st).2.
Proof.
  intros Hp [Hst Hid]. unfold previews_ok. split.
  - unfold upsert_preview in *.
    destruct (select (preview_of (Preview.DeploymentID p)) (previews st)) as [|r l] eqn:E; simpl.
    + case_match; simpl; [|done]. apply live_keys_insert; [|done]. intros r Hr Ha Hk.
      assert (r ∈ select (preview_of (Preview.DeploymentID p)) (previews st)) as Hin.
      { apply elem_of_select. split; [|done]. unfold preview_of. rewrite Ha, Hk. simpl. by rewrite String.eqb_refl. }
      rewrite E in Hin. by apply elem_of_nil in Hin.
    + by apply live_keys_update.
  - assert (previews (upsert_preview p id now st).2
      = (upsert_row (preview_of (Preview.DeploymentID p)) (λ r, Preview.ID r =s? id) (preview_insert p id now)
           (preview_merge p now) (previews st)).2) as ->.
    { unfold upsert_preview, upsert_row. by repeat case_match. }
    by apply (upsert_row_ids Preview.ID id).
Qed.

Lemma previews_ok_remove id now st :
  previews_ok st → previews_ok (set_previews (update_where (λ p, Preview.ID p =s? id) (preview_removed now) (previews st)) st).
Proof.
  intros [Hst Hid]. unfold previews_ok. simpl. split; [by apply live_keys_update|by rewrite map_key_update_where].
Qed.

Lemma routes_upsert_preview p id now st : routes (upsert_preview p id now st).2 = routes st.
Proof. unfold upsert_preview. by repeat case_match. Qed.
End preview_table.

(** ** Every operation of the module *)

Lemma preserves_of_ignore {S A} (I : S → Prop) (m : db S A) : preserves I (ignore m) → preserves I m.
Proof. intros H s fs Hs. rewrite <- tables_of_ignore. by apply H. Qed.

(** One certificate per hostname and id, and, where [strict], none that is active. *)
Definition certs_ok (strict : bool) (l : list Certificate) : Prop :=
  (NoDup (Certificate.Hostname <$> l) ∧ NoDup (Certificate.ID <$> l))
  ∧ Forall (λ c, strict = true → Certificate.Status c ≠ CertStatusActive) l.

Definition ver_keys (v : DomainVerification) : string * string * string :=
  (DomainVerification.ID v, DomainVerification.DomainID v, DomainVerification.Hostname v).

(** What the statements on verifications keep. *)
Record ver_closed (V : list DomainVerification → Prop) : Prop := {
  vc_upsert v id now t : V t → V (upsert_row (ver_of (DomainVerification.DomainID v)) (ver_id id)
                                    (VerRow.insert v id now) (VerRow.merge v now) t).2;
  vc_update p f t : (∀ r, ver_keys (f r) = ver_keys r) → V t → V (update_where p f t);
}.

Section module_.
Context `{D : Driver} `{So : Sorter} {C : Type} {CA : CaddyAdmin C} `{J : Jsonb}.
Context (m : Manager) (time_text : Time → string) (host_lt : string → string → bool).
Context (decode_payload : string → result error ControlPlane.Payload).
Context `{D1 : Decoder createRouteRequest} `{D2 : Decoder switchRequest} `{D3 : Decoder blueGreenRequest}
  `{D4 : Decoder canaryRequest} `{D5 : Decoder rollbackRequest} `{D6 : Decoder createPreviewRequest}
  `{D7 : Decoder domainJobRequest}.

Context (strict : bool).

Definition px_ok (st : proxy C) : Prop := routes_ok (routes st) ∧ previews_ok st.

(** The rows of verifications satisfy [V]. *)
Definition edge_ok (V : list DomainVerification → Prop) (s : edgedb C) : Prop :=
  px_ok (px s) ∧ certs_ok strict (certs s) ∧ V (verifications s).

Section operations.
Context (V : list DomainVerification → Prop) (HV : ver_closed V).

Lemma ok_px {A} (op : db (proxy C) A) : preserves px_ok op → preserves (edge_ok V) (on_px op).
Proof. intros H. apply preserves_zoom. intros s st fs [H1 H2]. split; [by apply H|done]. Qed.

Lemma ok_certs {A} (op : db (list Certificate) A) : preserves (certs_ok strict) op → preserves (edge_ok V) (zoom certs_l op).
Proof. intros H. apply preserves_zoom. intros s st fs (H1 & H2 & H3). split_and!; [done|by apply H|done]. Qed.

Lemma ok_verifications {A} (op : db (list DomainVerification) A) :
  preserves V op → preserves (edge_ok V) (zoom verifications_l op).
Proof. intros H. apply preserves_zoom. intros s st fs (H1 & H2 & H3). split_and!; [done..|by apply H]. Qed.

Lemma ok_events {A} (op : db (list ProxyEvent) A) : preserves (edge_ok V) (zoom proxy_events_l op).
Proof. apply preserves_zoom. by intros s st fs H. Qed.

Lemma ok_publish fresh name meta corr data now : preserves (edge_ok V) (PublishAsync (C := C) fresh name meta corr data now).
Proof.
  unfold PublishAsync. apply preserves_bind; [apply preserves_ignore, ok_events|intros _]. by intros s fs H.
Qed.

Lemma ok_UpsertCertificate fresh c now :
  Certificate.Status c ≠ CertStatusActive → preserves (edge_ok V) (UpsertCertificate (C := C) fresh c now).
Proof.
  intros Hc. apply ok_certs, preserves_translate, preserves_query. intros t Ht.
  apply wp_with_uuids; [done|intros _]. destruct Ht as [[H1 H3] H2]. split; [split|].
  - apply upsert_row_keys; [done| |done]. intros r E. unfold cert_on. rewrite E. apply String.eqb_refl.
  - by eapply upsert_row_ids.
  - by apply upsert_row_Forall.
Qed.

Lemma ok_SetCertStatus id status reason now :
  status ≠ CertStatusActive → preserves (edge_ok V) (SetCertStatus (C := C) id status reason now).
Proof.
  intros Hs. apply ok_certs, preserves_translate, preserves_exec. intros t [[H1 H3] H2]. split; simpl.
  - by rewrite !map_key_update_where.
  - by apply Forall_update_where.
Qed.

Lemma ok_UpsertVerification fresh v now : preserves (edge_ok V) (UpsertVerification (C := C) fresh v now).
Proof.
  apply ok_verifications, preserves_translate, preserves_query. intros t Ht.
  apply wp_with_uuids; [done|intros _]. by apply (vc_upsert V HV).
Qed.

Lemma ok_update_verifications msg p f :
  (∀ r, ver_keys (f r) = ver_keys r) →
  preserves (edge_ok V) (zoom (S := list DomainVerification) (@verifications_l C)
    (translate msg (exec (λ t, (tt, update_where p f t))))).
Proof.
  intros Hf. apply ok_verifications, preserves_translate, preserves_exec. intros t Ht. by apply (vc_update V HV).
Qed.

(** The operations on routes and previews. *)
Lemma px_ok_edge c (st : proxy C) : px_ok st → px_ok (set_edge c st).
Proof. done. Qed.

Lemma px_ok_upsert p id now (st : proxy C) :
  Preview.DeletedAt p = None → px_ok st → px_ok (upsert_preview p id now st).2.
Proof.
  intros Hp [H1 H2]. split; [by rewrite routes_upsert_preview|by apply previews_ok_upsert].
Qed.

Lemma px_ok_remove id now (st : proxy C) :
  px_ok st → px_ok (set_previews (update_where (λ p, Preview.ID p =s? id) (preview_removed now) (previews st)) st).
Proof. intros [H1 H2]. split; [done|by apply previews_ok_remove]. Qed.

Lemma ok_run (o : proxy_op) now : preserves ok (run_proxy o now).
Proof. apply run_proxy_preserves. Qed.

Lemma ok_Create id vid corr inp now : preserves (edge_ok V) (on_px (RouteEngine.Create id vid corr inp now)).
Proof.
  apply ok_px, preserves_and; [apply preserves_of_ignore, (ok_run (PCreate id vid corr inp))|by apply keep_Create].
Qed.

Lemma ok_Delete h now : preserves (edge_ok V) (on_px (RouteEngine.Delete h now)).
Proof. apply ok_px, preserves_and; [apply preserves_of_ignore, (ok_run (PDelete h))|by apply keep_Delete]. Qed.

Lemma ok_ReconcileAll : preserves (edge_ok V) (on_px (ReconcileAll host_lt)).
Proof.
  apply ok_px, preserves_and; [apply preserves_of_ignore, (ok_run (PReconcile host_lt) 0)|by apply keep_ReconcileAll].
Qed.

Lemma ok_Switch req now : preserves (edge_ok V) (on_px (Switch req now)).
Proof. apply ok_px, preserves_and; [apply preserves_of_ignore, (ok_run (PSwitch req))|by apply keep_Switch]. Qed.

Lemma ok_BlueGreen h u corr now : preserves (edge_ok V) (on_px (BlueGreen h u corr now)).
Proof.
  apply ok_px, preserves_and; [apply preserves_of_ignore, (ok_run (PBlueGreen h u corr))|by apply keep_BlueGreen].
Qed.

Lemma ok_Canary h u w corr now : preserves (edge_ok V) (on_px (Canary h u w corr now)).
Proof.
  apply ok_px, preserves_and; [apply preserves_of_ignore, (ok_run (PCanary h u w corr))|by apply keep_Canary].
Qed.

Lemma ok_Rollback h corr now : preserves (edge_ok V) (on_px (Rollback h corr now)).
Proof.
  apply ok_px, preserves_and; [apply preserves_of_ignore, (ok_run (PRollback h corr))|by apply keep_Rollback].
Qed.

Lemma ok_CreatePreview id inp now : preserves (edge_ok V) (on_px (CreatePreview m id inp now)).
Proof. apply ok_px, keep_CreatePreview; [apply px_ok_edge|apply px_ok_upsert]. Qed.

Lemma ok_DeletePreview dep now : preserves (edge_ok V) (on_px (DeletePreview dep now)).
Proof. apply ok_px, keep_DeletePreview; [apply px_ok_edge|apply px_ok_remove]. Qed.

Lemma ok_CleanupExpired now : preserves (edge_ok V) (on_px (CleanupExpired now)).
Proof. apply ok_px, keep_CleanupExpired; [apply px_ok_edge|apply px_ok_remove]. Qed.

Lemma ok_AutomateCert h : preserves (edge_ok V) (on_px (AutomateCert h)).
Proof. apply ok_px. apply keep_AutomateCert. apply px_ok_edge. Qed.

Lemma ok_read_certs {A} msg (f : list Certificate → A) :
  preserves (edge_ok V) (zoom (@certs_l C) (translate msg (exec (λ t, (f t, t))))).
Proof. by apply ok_certs, preserves_translate, preserves_exec. Qed.

(** ** Certificates, verification, recovery *)

Ltac edge_keep :=
  first
    [ apply ok_Create | apply ok_Delete | apply ok_ReconcileAll | apply ok_Switch | apply ok_BlueGreen
    | apply ok_Canary | apply ok_Rollback | apply ok_CreatePreview | apply ok_DeletePreview | apply ok_CleanupExpired
    | apply ok_AutomateCert | apply ok_publish | apply ok_events | apply ok_UpsertVerification
    | by apply ok_UpsertCertificate | by apply ok_SetCertStatus | by apply ok_update_verifications
    | apply ok_read_certs
    | apply ok_px; repeat keep; fail | apply ok_certs; repeat keep; fail | apply ok_verifications; repeat keep; fail
    | keep ].

Lemma ok_RequestCert fresh o p dom h corr now : preserves (edge_ok V) (RequestCert fresh o p dom h corr now).
Proof. unfold RequestCert. repeat edge_keep. Qed.

Lemma ok_renew_each l now : preserves (edge_ok V) (renew_each l now).
Proof. induction l as [|c l IH]; simpl; unfold RenewCert; repeat first [apply IH | edge_keep]. Qed.

Lemma ok_expire_each l now : preserves (edge_ok V) (expire_each (C := C) time_text l now).
Proof. induction l as [|c l IH]; simpl; repeat first [apply IH | edge_keep]. Qed.

Lemma ok_verify_each dns fresh corr now l : preserves (edge_ok V) (verify_each (C := C) dns fresh corr now l).
Proof.
  induction l as [|v l IH]; simpl; unfold MarkVerified, MarkVerificationFailed; repeat first [apply IH | edge_keep].
Qed.

Lemma ok_reconcile dns fresh d : preserves (edge_ok V) (reconcile time_text host_lt dns fresh d).
Proof.
  unfold reconcile, reconcileRoutes, reconcileVerifications, reconcileCerts, reconcilePreviews, ReconcileRenewals,
    ReconcileExpired, ListPendingVerifications, ListCertsDueForRenewal.
  repeat first [apply ok_renew_each | apply ok_expire_each | apply ok_verify_each | edge_keep].
Qed.
Lemma ok_DomainVerifyRequest d o p dom h meth corr :
  preserves (edge_ok V) (DomainVerifyRequest (C := C) d o p dom h meth corr).
Proof. unfold DomainVerifyRequest. repeat edge_keep. Qed.

Lemma ok_SSLRequest d o p dom h corr : preserves (edge_ok V) (SSLRequest d o p dom h corr).
Proof. unfold SSLRequest. repeat first [apply ok_RequestCert | edge_keep]. Qed.

Lemma ok_handler handler typ d j :
  domain_handlers decode_payload !! typ = Some handler → preserves (edge_ok V) (handler d j).
Proof.
  unfold domain_handlers. rewrite lookup_insert_Some, lookup_singleton_Some.
  intros [[_ <-]|[_ [_ <-]]]; unfold handle_verify, handle_ssl;
    repeat first [apply ok_DomainVerifyRequest | apply ok_SSLRequest | edge_keep].
Qed.

(** ** Requests *)

Lemma ok_routes h : Forall (λ '(_, _, handler), ∀ d r, preserves (edge_ok V) (handler d r)) (proxy_routes m host_lt h).
Proof.
  repeat apply Forall_cons_2; try apply Forall_nil_2; intros d r;
    unfold handle_status, handle_CreateRoute, handle_GetRoute, handle_DeleteRoute, handle_ListRoutes, handle_Switch,
      handle_BlueGreen, handle_Canary, handle_Rollback, handle_CreatePreview, handle_GetPreview, handle_DeletePreview,
      handle_ListPreviews, handle_GetCert, handle_RenewCert, handle_GetVerification, handle_Stats,
      handle_StreamingStats, handle_JobDomainVerify, handle_JobSSLRequest, edge_decode, answers, Repository_Stats,
      GetCertByHostname, GetVerificationByDomain, GetRouteByHostname, ProxyStore.one_route, ListRoutesByProject,
      GetPreviewByDeployment, ListActivePreviewsByProject, one_row;
    repeat first [apply ok_DomainVerifyRequest | apply ok_SSLRequest | edge_keep].
Qed.

Lemma ok_serve auth h d r : preserves (edge_ok V) (proxy_serve m host_lt auth h d r).
Proof.
  unfold proxy_serve. case_match; [apply preserves_ret|].
  destruct (filter _ (proxy_routes m host_lt h)) as [|[[meth p] handler] l] eqn:E; [apply preserves_ret|].
  assert ((meth, p, handler) ∈ proxy_routes m host_lt h) as Hin.
  { assert ((meth, p, handler) ∈ (meth, p, handler) :: l) as Hx by (by left).
    rewrite <- E in Hx. by apply list_elem_of_filter in Hx as [_ Hx]. }
  pose proof (ok_routes h) as Hall. rewrite Forall_forall in Hall. specialize (Hall _ Hin d r). simpl in Hall.
  unfold edge_answer. repeat keep. exact Hall.
Qed.

Lemma ok_step s s' : edge_step m time_text host_lt decode_payload s s' → edge_ok V s → edge_ok V s'.
Proof.
  intros [o d s0 fs Ho] Hs.
  assert (preserves (edge_ok V) (run_edge m time_text host_lt o d)) as Hp; [|by apply Hp].
  destruct o as [auth h r|dns fresh|j handler]; simpl; apply preserves_ignore.
  - apply ok_serve.
  - apply ok_reconcile.
  - by apply (ok_handler handler (Job.Type_ j)).
Qed.

Lemma ok_steps s s' : rtc (edge_step m time_text host_lt decode_payload) s s' → edge_ok V s → edge_ok V s'.
Proof. induction 1; eauto using ok_step. Qed.
End operations.
End module_.

(** ** Statements on verifications *)

Definition domains_ok (l : list DomainVerification) : Prop :=
  NoDup (DomainVerification.DomainID <$> l) ∧ NoDup (DomainVerification.ID <$> l).

Lemma domains_closed : ver_closed domains_ok.
Proof.
  split.
  - intros v id now t [Ht Hid]. split; [|by eapply upsert_row_ids].
    apply upsert_row_keys; [done| |done]. intros r E. unfold ver_of. simpl in E. rewrite E.
    apply String.eqb_refl.
  - intros p f t Hf [Ht Hid]. split; (rewrite map_key_update_where; [done|]; intros r; by injection (Hf r)).
Qed.

Lemma key_closed k : ver_closed (λ l, domains_ok l ∧ k ∈ (ver_keys <$> l)).
Proof.
  split.
  - intros v id now t [H1 H2]. split; [by apply (vc_upsert _ domains_closed)|].
    unfold upsert_row. destruct (select _ t) as [|r l]; simpl.
    + case_match; [|done]. simpl. rewrite fmap_app. apply elem_of_app. by left.
    + by rewrite map_key_update_where.
  - intros p f t Hf [H1 H2]. split; [by apply (vc_update _ domains_closed)|]. by rewrite map_key_update_where.
Qed.

Lemma txt_found_spec dns targets challenge :
  txt_found dns targets challenge = true →
  ∃ target records rec, target ∈ targets ∧ LookupTXT dns google target = Ok records ∧ rec ∈ records
    ∧ (rec = challenge ∨ Contains rec challenge = true).
Proof.
  induction targets as [|target targets IH]; [done|]. simpl. destruct (LookupTXT dns google target) as [records|e] eqn:E.
  - intros [(rec & Hin & H)%existsb_exists|H]%orb_true_iff.
    + exists target, records, rec. split_and!; [by left|done|by apply list_elem_of_In|].
      apply orb_true_iff in H as [H|H]; [left; by bool_to_prop|by right].
    + destruct (IH H) as (t' & rs & rec & Ht & H1 & H2 & H3). exists t', rs, rec. split_and!; [by right|done..].
  - intros H. destruct (IH H) as (t' & rs & rec & Ht & H1 & H2 & H3). exists t', rs, rec. split_and!; [by right|done..].
Qed.

Definition hex_or_dash (a : ascii) : bool := bool_decide (a = "-"%char) || bool_decide (is_Some (hex_digit a)).

Lemma index_absent p s : all_bytes p s = true → ∀ c, p c = false → index s (String c "") = None.
Proof.
  intros H c Hc. induction s as [|a s IH]; [done|]. simpl in H. apply andb_true_iff in H as [Ha Hs]. simpl.
  destruct (ascii_dec c a) as [->|]; [congruence|]. by rewrite IH.
Qed.

Lemma all_bytes_keep p q s : all_bytes p s = true → all_bytes p (keep_bytes q s) = true.
Proof.
  induction s as [|a s IH]; intros H; [done|]. simpl in *. apply andb_true_iff in H as [H1 H2].
  case_match; simpl; [by rewrite H1, IH|by apply IH].
Qed.

(** A text without dots and colons is no address. *)
Lemma ParseIP_plain s : index s "." = None → index s ":" = None → ParseIP s = None.
Proof. intros H1 H2. unfold ParseIP, dotted_first, Contains. by rewrite H1, H2. Qed.

(** ** The properties of the module *)

Section theorems.
Context `{D : Driver} `{So : Sorter} {C : Type} {CA : CaddyAdmin C} `{J : Jsonb}.
Context (m : Manager) (time_text : Time → string) (host_lt : string → string → bool).
Context (decode_payload : string → result error ControlPlane.Payload).
Context `{D1 : Decoder createRouteRequest} `{D2 : Decoder switchRequest} `{D3 : Decoder blueGreenRequest}
  `{D4 : Decoder canaryRequest} `{D5 : Decoder rollbackRequest} `{D6 : Decoder createPreviewRequest}
  `{D7 : Decoder domainJobRequest}.

#[local] Abbreviation step := (edge_step (C := C) m time_text host_lt decode_payload).

(** The keys of the tables that have unique indexes. *)
Record keys_ok (s : edgedb C) : Prop := {
  ko_routes : NoDup (Route.ID <$> routes (px s)) ∧ NoDup (Route.Hostname <$> select live (routes (px s)));
  ko_previews : NoDup (Preview.DeploymentID <$> select preview_live (previews (px s))) ∧ NoDup (Preview.ID <$> previews (px s));
  ko_certs : NoDup (Certificate.Hostname <$> certs s) ∧ NoDup (Certificate.ID <$> certs s);
  ko_domains : NoDup (DomainVerification.DomainID <$> verifications s) ∧ NoDup (DomainVerification.ID <$> verifications s);
}.

Definition inactive (s : edgedb C) : Prop := Forall (λ c, Certificate.Status c ≠ CertStatusActive) (certs s).

Lemma edge_ok_keys strict s : edge_ok strict domains_ok s ↔ keys_ok s ∧ (strict = true → inactive s).
Proof.
  unfold inactive. split.
  - intros ([[R1 R2] P] & [H1 H2] & H3). split; [by split|]. intros ->. eapply Forall_impl; [exact H2|]. auto.
  - intros [[[R1 R2] P H1 H3] H2]. split_and!; [split; [by split|done]| |done]. split; [done|].
    destruct strict; [eapply Forall_impl; [by apply H2|auto]|by apply Forall_true].
Qed.

(** C14: the proxy manager's tables stay well formed, whatever it is asked.
    After any requests to its HTTP API, jobs of the domain queue and passes of
    the reconciler, with any answers of DNS and any failures of statements and of
    Caddy: no two live routes share a hostname, no two live previews a deployment, no
    two certificates a hostname and no two verifications a domain, and the ids of
    routes, of previews, of certificates and of verifications are unique. *)
Theorem edge_invariant (s0 s : edgedb C) : keys_ok s0 → rtc step s0 s → keys_ok s.
Proof.
  intros H0 Hs. assert (edge_ok false domains_ok s0) as Hok by by apply edge_ok_keys.
  by apply (ok_steps m time_text host_lt decode_payload false _ domains_closed) in Hs as [H _]%edge_ok_keys.
Qed.

Lemma select_due_inactive (l : list Certificate) now :
  Forall (λ c, Certificate.Status c ≠ CertStatusActive) l → select (CertRow.due now) l = [].
Proof.
  intros Hl. apply select_none. intros c Hc. rewrite Forall_forall in Hl. unfold CertRow.due.
  destruct (String.eqb_spec (Certificate.Status c) CertStatusActive) as [E|]; [|done]. by destruct (Hl c Hc).
Qed.

(** No certificate ever becomes active.  A request makes it issuing, a failure
    failed, and nothing calls [MarkIssued]: after any operations no row
    is active, so renewal and expiry, which read active rows only, find
    nothing to do and write nothing. *)
Theorem certificates_never_active (s0 s : edgedb C) now fs :
  keys_ok s0 ∧ inactive s0 → rtc step s0 s →
  inactive s ∧ tables_of (reconcileCerts time_text now (s, fs)) = s.
Proof.
  intros [Hkeys H0] Hs. assert (edge_ok true domains_ok s0) as Hok by by apply edge_ok_keys.
  apply (ok_steps m time_text host_lt decode_payload true _ domains_closed) in Hs as [_ Hi]%edge_ok_keys; [|done].
  specialize (Hi eq_refl). split; [done|]. pose proof (select_due_inactive (certs s) now Hi) as Hd.
  unfold reconcileCerts, ReconcileRenewals, ReconcileExpired, ListCertsDueForRenewal.
  apply (wp_tables (λ s', s' = s)). destruct s as [p c v e b]. simpl in *.
  assert (∀ (k : list Certificate → db (edgedb C) unit),
    wp (k []) (λ _ s', s' = mkEdge p c v e b) (λ _ s', s' = mkEdge p c v e b) (mkEdge p c v e b) →
    wp (zoom certs_l (translate "proxy: list renewal certs"
          (exec (λ t, (sort_slice CertRow.renew_before (select (CertRow.due now) t), t)))) ≫= k)
      (λ _ s', s' = mkEdge p c v e b) (λ _ s', s' = mkEdge p c v e b) (mkEdge p c v e b)) as Hlist.
  { intros k Hk. wp_step. apply wp_zoom. do 2 wp_step; [done|]. rewrite Hd.
    assert (sort_slice CertRow.renew_before [] = []) as -> by (apply Permutation_nil_r, sort_slice_perm). exact Hk. }
  wp_step. apply wp_mono with (λ _ s', s' = mkEdge p c v e b) (λ _ s', s' = mkEdge p c v e b).
  - apply Hlist. by apply wp_ret.
  - intros _ s' ->. apply Hlist. by apply wp_ret.
  - done.
Qed.

(** A certificate requested through the queue is never requested.  The
    worker hands every request an empty hostname, which is refused: a job of that
    type that decodes fails, at once and without a statement on the tables of the proxy, so it
    is retried until it is dead. *)
Theorem ssl_jobs_fail backoff d (j : Job) (p : ControlPlane.Payload) (q : list Job) (s : edgedb C) fs :
  Job.Type_ j = TypeSSLRequest → decode_payload (Job.Payload j) = Ok p →
  domain_process decode_payload backoff d j ((q, s), fs)
  = zoom queue_l (ignore (Fail (Job.ID j) (Some (Platform (New CodeInvalidArgument "cert: hostname required")))
                            (backoff (Job.Attempts j)) (clock d))) ((q, s), fs).
Proof.
  intros Ht Hp. unfold domain_process, domain_handlers. rewrite Ht.
  rewrite lookup_insert_ne by done. rewrite lookup_singleton_eq.
  unfold mbind at 1, db_bind at 1, zoom at 1, handle_ssl, attempt. simpl view.
  unfold mbind, db_bind, of_result. rewrite Hp.
  set (e := Platform (New CodeInvalidArgument "cert: hostname required")).
  assert (SSLRequest d (ControlPlane.OrgID p) (ControlPlane.ProjectID p) (ControlPlane.DomainID p) ""
            (ControlPlane.CorrelationID p) (s, fs) = (Err e, (s, fs))) as -> by done.
  assert (process {[TypeSSLRequest := λ _ : Job, Returns (Some e)]} backoff j (clock d)
          = ignore (Fail (Job.ID j) (Some e) (backoff (Job.Attempts j)) (clock d))) as Hpr
    by (unfold process; by rewrite Ht, lookup_singleton_eq).
  transitivity (zoom (@queue_l C) (process {[TypeSSLRequest := λ _ : Job, Returns (Some e)]} backoff j (clock d)) (q, s, fs));
    [reflexivity|by rewrite Hpr].
Qed.

(** A verification requested through the queue looks at no hostname, for
    ever.  The worker stores the row of a new domain with an empty hostname, and a
    later request for the domain, with whatever hostname, updates the row but keeps
    that column: after any further operations the hostname is still empty. *)
Theorem queued_verification_has_no_hostname d (j : Job) (p : ControlPlane.Payload) (s s1 s2 : edgedb C) fs fs1 :
  keys_ok s ∧ inactive s → decode_payload (Job.Payload j) = Ok p →
  (∀ v, v ∈ verifications s → DomainVerification.DomainID v ≠ ControlPlane.DomainID p) →
  handle_verify decode_payload d j (s, fs) = (Ok (Returns None), (s1, fs1)) →
  rtc step s1 s2 →
  (∃ v, v ∈ verifications s2 ∧ DomainVerification.DomainID v = ControlPlane.DomainID p)
  ∧ ∀ v, v ∈ verifications s2 → DomainVerification.DomainID v = ControlPlane.DomainID p →
      DomainVerification.Hostname v = "".
Proof.
  intros [Hk0 Hi0] Hp Hnew Hrun Hs. assert (edge_ok true domains_ok s) as H0 by by apply edge_ok_keys.
  set (dom := ControlPlane.DomainID p) in *.
  assert (edge_ok true domains_ok s1) as H1.
  { pose proof (ok_handler decode_payload true _ domains_closed (handle_verify decode_payload) TypeDomainVerify d j) as Hh.
    specialize (Hh (lookup_insert_eq _ _ _) s fs H0). unfold tables_of in Hh. by rewrite Hrun in Hh. }
  assert (∃ k, k ∈ (ver_keys <$> verifications s1) ∧ k.1.2 = dom ∧ k.2 = "") as (k & Hk & Hkd & Hkh).
  { assert (wp (handle_verify decode_payload d j)
      (λ o s1, o = Returns None → ∃ k, k ∈ (ver_keys <$> verifications s1) ∧ k.1.2 = dom ∧ k.2 = "") (λ _ _, True) s) as Hwp.
    { unfold handle_verify. wp_step. wp_step. wp_step. wp_step. rewrite Hp. unfold DomainVerifyRequest.
      case_match; [|by repeat wp_step]. wp_step. unfold UpsertVerification. apply wp_zoom. wp_step. wp_step; [intros; by wp_step|].
      apply wp_with_uuids; [by wp_step|intros _]. unfold upsert_row.
      assert (select (ver_of (ControlPlane.DomainID p)) (view verifications_l s) = []) as Hsel.
      { apply select_none. intros v Hv. apply String.eqb_neq. by apply Hnew. }
      simpl in Hsel |- *. rewrite Hsel. destruct (matched _ _ =? 0); [|by wp_step].
      wp_step. wp_step. intros _. eexists. split; [apply (list_elem_of_fmap_2 ver_keys); simpl; apply elem_of_app; right; by left|].
      done. }
    specialize (Hwp fs). rewrite Hrun in Hwp. by apply Hwp. }
  assert (edge_ok true (λ l, domains_ok l ∧ k ∈ (ver_keys <$> l)) s1) as H1'.
  { destruct H1 as (? & ? & ?). by split_and!. }
  apply (ok_steps m time_text host_lt decode_payload true _ (key_closed k)) in Hs as (_ & _ & [Hn _] & Hin); [|done].
  apply list_elem_of_fmap in Hin as (v0 & -> & Hv0). simpl in *.
  split; [by exists v0|]. intros v Hv Hd.
  by rewrite (NoDup_key_eq DomainVerification.DomainID _ v v0 Hn Hv Hv0) by congruence.
Qed.
End theorems.

(** ** Verification by DNS *)

Section verification.
Context `{D : Driver} `{So : Sorter} {C : Type} {CA : CaddyAdmin C} `{J : Jsonb}.

(** Where the status of a verified row comes from. *)
Definition witnessed (dns : Resolver) (t0 : list DomainVerification) (v' : DomainVerification) : Prop :=
  DomainVerification.Status v' = VerifyStatusVerified →
  ∃ v, v ∈ t0 ∧ DomainVerification.ID v = DomainVerification.ID v'
    ∧ (DomainVerification.Status v = VerifyStatusVerified
       ∨ (DomainVerification.Status v = VerifyStatusPending ∧ Verified (Verify dns v) = true)).

Lemma witnessed_verify_each dns t0 fresh corr now l :
  (∀ v, v ∈ l → v ∈ t0 ∧ DomainVerification.Status v = VerifyStatusPending) →
  preserves (λ s : edgedb C, Forall (witnessed dns t0) (verifications s)) (verify_each dns fresh corr now l).
Proof.
  induction l as [|v l IH]; intros Hl; simpl; [apply preserves_ret|].
  destruct (Hl v ltac:(by left)) as [Hv Hpend].
  assert (∀ fresh name meta corr data now, preserves (λ s : edgedb C, Forall (witnessed dns t0) (verifications s))
            (PublishAsync fresh name meta corr data now)) as Hpub.
  { intros *. unfold PublishAsync. apply preserves_bind; [|intros _; by intros s fs H].
    apply preserves_ignore, preserves_zoom. by intros s st fs H. }
  apply preserves_bind; [|intros _; apply IH; intros x Hx; apply Hl; by right].
  destruct (Verified (Verify dns v)) eqn:E.
  - apply preserves_bind; [|intros [?|?]; [apply Hpub|apply preserves_ret]].
    apply preserves_attempt. unfold MarkVerified. apply preserves_zoom. intros s.
    apply preserves_translate, preserves_exec. intros t Ht. simpl in *. apply Forall_update_where; [|done].
    intros r _ Hid Hr _. exists v. unfold ver_id in Hid. bool_to_prop. split_and!; auto.
  - apply preserves_bind; [|intros _; apply Hpub].
    apply preserves_ignore. unfold MarkVerificationFailed. apply preserves_zoom. intros s.
    apply preserves_translate, preserves_exec. intros t Ht. simpl in *. by apply Forall_update_where.
Qed.

(** The DNS records a verification rests on, for each of its methods. *)
Inductive evidence (dns : Resolver) (v : DomainVerification) : Prop :=
  | txt_evidence target records rec :
      DomainVerification.Method v = MethodTXT →
      target ∈ [DomainVerification.Hostname v; "_agnivo-challenge." +:+ DomainVerification.Hostname v] →
      LookupTXT dns google target = Ok records → rec ∈ records →
      rec = DomainVerification.ChallengeValue v ∨ Contains rec (DomainVerification.ChallengeValue v) = true →
      evidence dns v
  | cname_evidence cname front :
      DomainVerification.Method v = MethodCNAME →
      LookupCNAME dns google (DomainVerification.Hostname v) = Ok cname →
      front = "" ∨ (∃ sub, front = sub +:+ ".") →
      TrimSuffix (ToLower cname) "." = front +:+ TrimSuffix (ToLower (DomainVerification.ChallengeValue v)) "." →
      evidence dns v
  | a_evidence addrs :
      DomainVerification.Method v = MethodA →
      LookupHost dns google (DomainVerification.Hostname v) = Ok addrs →
      DomainVerification.ChallengeValue v ∈ addrs → evidence dns v
  | aaaa_evidence addrs ip :
      DomainVerification.Method v = MethodAAAA →
      LookupHost dns google (DomainVerification.Hostname v) = Ok addrs →
      DomainVerification.ChallengeValue v ∈ addrs →
      ParseIP (DomainVerification.ChallengeValue v) = Some ip → To4 ip = None → evidence dns v.

Lemma HasSuffix_inv s suffix : HasSuffix s suffix = true → ∃ front, s = front +:+ suffix.
Proof.
  unfold HasSuffix. intros [Hl%Nat.leb_le H%String.eqb_eq]%andb_true_iff. exists (take_bytes (String.length s - String.length suffix) s).
  pattern suffix at 2. rewrite <- H. symmetry. apply take_drop_bytes.
Qed.

Lemma Verify_evidence dns v : Verified (Verify dns v) = true → evidence dns v.
Proof.
  unfold Verify. destruct (String.eqb_spec (DomainVerification.Method v) MethodTXT) as [Hm|_].
  { unfold verifyTXT. destruct (txt_found _ _ _) eqn:E; [intros _|done].
    apply txt_found_spec in E as (target & records & rec & ? & ? & ? & ?). by eapply txt_evidence. }
  destruct (String.eqb_spec (DomainVerification.Method v) MethodCNAME) as [Hm|_].
  { unfold verifyCNAME. destruct (LookupCNAME _ _ _) as [cname|e] eqn:Hl; [|done].
    destruct (_ || _) eqn:E; [intros _|done]. apply orb_true_iff in E as [E%String.eqb_eq|E].
    - eapply (cname_evidence _ _ cname ""); auto.
    - apply HasSuffix_inv in E as [sub E]. apply (cname_evidence _ _ cname (sub +:+ ".")); eauto.
      by rewrite E, app_assoc_s. }
  destruct (String.eqb_spec (DomainVerification.Method v) MethodA) as [Hm|_].
  { unfold verifyA. destruct (LookupHost _ _ _) as [addrs|e] eqn:Hl; [|done].
    destruct (existsb _ addrs) eqn:E; [intros _|done]. apply existsb_exists in E as (addr & Hin & <-%String.eqb_eq).
    eapply a_evidence; [done..|]. by apply list_elem_of_In. }
  destruct (String.eqb_spec (DomainVerification.Method v) MethodAAAA) as [Hm|_]; [|done].
  unfold verifyAAAA. destruct (LookupHost _ _ _) as [addrs|e] eqn:Hl; [|done].
  destruct (existsb _ addrs) eqn:E; [intros _|done]. apply existsb_exists in E as (addr & Hin & H).
  destruct (ParseIP addr) as [ip|] eqn:Hip; [|done]. apply andb_true_iff in H as [H4%bool_decide_eq_true ->%String.eqb_eq].
  eapply aaaa_evidence; [done..| |done|done]. by apply list_elem_of_In.
Qed.

(** C12: a domain is verified on DNS evidence only.  After a pass over the pending
    verifications, whatever statements fail, a row is verified only if it
    already was, or if it was pending and the records of its hostname contain its
    challenge: by TXT, a record of the hostname or of its challenge name that is
    or contains it; by CNAME, an alias that is it or a name below it, letters'
    case and a final dot aside; by A and AAAA, an address that is it, which for
    AAAA is an address and none of IPv4. *)
Theorem verified_by_dns dns fresh d (s : edgedb C) fs v' :
  let s' := tables_of (reconcileVerifications dns fresh d (s, fs)) in
  v' ∈ verifications s' → DomainVerification.Status v' = VerifyStatusVerified →
  ∃ v, v ∈ verifications s ∧ DomainVerification.ID v = DomainVerification.ID v'
    ∧ (DomainVerification.Status v = VerifyStatusVerified
       ∨ (DomainVerification.Status v = VerifyStatusPending ∧ evidence dns v)).
Proof.
  intros s' Hin Hv.
  assert (Forall (witnessed dns (verifications s)) (verifications s')) as Hall.
  { apply (wp_tables (λ s, Forall (witnessed dns _) (verifications s))). unfold reconcileVerifications, ListPendingVerifications.
    assert (Forall (witnessed dns (verifications s)) (verifications s)) as H0.
    { apply Forall_forall. intros v Hx Hst. exists v. auto. }
    wp_step. apply wp_zoom. do 2 wp_step; [by destruct s|].
    apply wp_preserves; [|by destruct s]. apply witnessed_verify_each. intros v Hx.
    apply (subseteq_take 50), elem_of_sort_slice, elem_of_select in Hx as [Hp Hx]. split; [done|].
    unfold VerRow.pending in Hp. by bool_to_prop. }
  rewrite Forall_forall in Hall. destruct (Hall v' Hin Hv) as (v & H1 & H2 & H3). exists v. split_and!; [done..|].
  destruct H3 as [H3|[H3 H4]]; [by left|right]. split; [done|]. by apply Verify_evidence.
Qed.

(** An address check can never pass: the challenge of these methods is a piece
    of the domain's identifier, and no address. *)
Theorem address_checks_never_pass dns (v : DomainVerification) :
  all_bytes hex_or_dash (DomainVerification.DomainID v) = true →
  DomainVerification.Method v = MethodA ∨ DomainVerification.Method v = MethodAAAA →
  GenerateChallenge (DomainVerification.Method v) (DomainVerification.DomainID v)
    = Some (DomainVerification.ChallengeValue v) →
  (∀ name addrs a, LookupHost dns google name = Ok addrs → a ∈ addrs → is_Some (ParseIP a)) →
  Verified (Verify dns v) = false.
Proof.
  intros Hid Hm Hc Hdns. assert (ParseIP (DomainVerification.ChallengeValue v) = None) as Hp.
  { assert (all_bytes hex_or_dash (DomainVerification.ChallengeValue v) = true) as Hb.
    { unfold GenerateChallenge in Hc. set (digits := keep_bytes _ _) in Hc.
      assert (all_bytes hex_or_dash (take_bytes 16 digits) = true) as Hd by (by apply all_bytes_take, all_bytes_keep).
      revert Hd Hc. generalize (take_bytes 16 digits). intros c Hd. case_match; [done|].
      destruct Hm as [-> | ->]; simpl; by intros [= <-]. }
    apply ParseIP_plain; apply (index_absent hex_or_dash _ Hb); by vm_compute. }
  unfold Verify. destruct Hm as [Hm|Hm]; rewrite Hm; simpl.
  - unfold verifyA. destruct (LookupHost dns google _) as [addrs|e] eqn:E; [|done].
    destruct (existsb _ addrs) eqn:Ex; [|done]. apply existsb_exists in Ex as (a & Ha & Ea). bool_to_prop. subst.
    destruct (Hdns _ _ _ E ltac:(by apply list_elem_of_In)) as [ip Hip]. congruence.
  - unfold verifyAAAA. destruct (LookupHost dns google _) as [addrs|e] eqn:E; [|done].
    destruct (existsb _ addrs) eqn:Ex; [|done]. apply existsb_exists in Ex as (a & Ha & Ea).
    destruct (ParseIP a) eqn:Ei; [|done]. apply andb_true_iff in Ea as [_ Ea%String.eqb_eq]. congruence.
Qed.

(** Certificates can be automated for one hostname.  Caddy's PUT creates a
    value and refuses to replace one, and the client writes the whole list with it:
    once a list exists, a request for a hostname that is not on it fails,
    whatever else fails or works, and leaves no new hostname behind. *)
Theorem second_certificate_fails (s : edgedb C) l fresh o p dom h corr now fs :
  get_automate (edge (px s)) = Some l → h ∉ l →
  let r := RequestCert fresh o p dom h corr now (s, fs) in
  is_ok r.1 = false ∧ edge (px (tables_of r)) = edge (px s).
Proof.
  intros Hl Hh. cbn zeta.
  assert (∀ s', px s' = px s →
    wp (on_px (AutomateCert h)) (λ _ _, False) (λ _ s', edge (px s') = edge (px s)) s') as Hauto.
  { intros s' Hpx. apply wp_zoom.
    apply (wp_mono _ (λ _ _, False) _ (λ _ t, edge t = edge (px s))); [|done|done].
    change (view px_l s') with (px s'). rewrite Hpx. clear Hpx. unfold AutomateCert, read_automate, write_automate.
    assert (∀ l', wp (write_automate (C := C) l') (λ _ _, False) (λ _ t, edge t = edge (px s)) (px s)) as Hput.
    { intros l'. unfold write_automate, do_. wp_step. wp_step. wp_step; [done|].
      pose proof (served_automate l' (edge (px s))) as Hs.
      destruct (put_automate l' (edge (px s))) as [c'|body]; [by destruct Hs; congruence|]. wp_step. by destruct (px s). }
    wp_step. wp_step. unfold do_ at 1. wp_step. wp_step. wp_step.
    - intros e. apply (Hput [h]).
    - rewrite Hl. wp_step. rewrite set_edge_same. cbn beta iota zeta. case_bool_decide as Hx; [done|apply Hput]. }
  assert (wp (RequestCert fresh o p dom h corr now) (λ _ _, False) (λ _ s', edge (px s') = edge (px s)) s) as Hwp.
  { unfold RequestCert. destruct (h =s? ""); [by wp_step|]. wp_step. unfold UpsertCertificate. apply wp_zoom.
    wp_step. wp_step; [by intros|]. apply wp_with_uuids; [done|intros _].
    destruct (upsert_row _ _ _ _ _) as [[c|e] t]; [|done].
    wp_step. wp_step. eapply wp_mono; [by apply Hauto|by intros ? ? []|].
    intros e s' He. cbn beta iota. wp_step. wp_step. unfold SetCertStatus. apply wp_zoom.
    do 2 wp_step; [intros; by wp_step|by wp_step]. }
  specialize (Hwp fs). unfold tables_of. by destruct (RequestCert _ _ _ _ _ _ _ _) as [[] []].
Qed.
End verification.

(** ** Witnesses *)

#[local] Existing Instance strict_driver.
#[local] Existing Instance insertion_sorter.
#[local] Instance flat_json : Jsonb := {| json_object _ := "{}"; jsonb_merge _ b := b |}.

Definition domain_id : string := "0b5e7a52-7d2f-4a0f-9d8a-0d1f6f1f5a11".

(** Bodies are hostnames. *)
#[local] Instance decode_domain : Decoder domainJobRequest := λ host, Ok
  {| dj_OrgID := "o"; dj_ProjectID := "p"; dj_DomainID := domain_id; dj_Hostname := host; dj_Method := "txt";
     dj_CorrelationID := "" |}.
#[local] Instance decode_preview : Decoder createPreviewRequest := λ branch, Ok
  {| pr_OrgID := "o"; pr_ProjectID := "p"; pr_DeploymentID := "d"; pr_Upstream := "10.0.0.1:80"; pr_Branch := branch;
     pr_CommitSHA := ""; pr_CustomHostname := ""; pr_TTLSeconds := 60; pr_CorrelationID := "" |}.
#[local] Instance decode_none {A} : Decoder A | 10 := λ _, Err (Plain "no such body").

Definition some_payload (_ : string) : result error ControlPlane.Payload := Ok
  {| ControlPlane.OrgID := "o"; ControlPlane.ProjectID := "p"; ControlPlane.DeploymentID := "";
     ControlPlane.DomainID := domain_id; ControlPlane.UserID := ""; ControlPlane.CorrelationID := "";
     ControlPlane.Metadata := "" |}.

Definition text_lt (a b : string) : bool := String.ltb a b.
Definition previewer : Manager := NewManager "" 0.
Definition show_time (t : Time) : string := "t".

Definition open_server : InternalAuth := {| InternalServiceToken := ""; production := false |}.
Definition posts (pattern body : string) : Request :=
  Request.mk "POST" ("/internal/v1/proxy" +:+ pattern) ∅ ∅ "10.0.0.9:1" body ∅.

Definition drawn (id : string) (now : Time) : Draws :=
  {| new_id := id; version_id := "v"; ctx_correlation := ""; clock := now |}.

Definition nothing : edgedb list_caddy :=
  mkEdge (mkProxy [] [] [] {| lc_routes := []; lc_automate := None |}) [] [] [] [].

Definition served_post (d : Draws) (pattern body : string) (s : edgedb list_caddy) : edgedb list_caddy :=
  tables_of (run_edge previewer show_time text_lt (EdgeRequest open_server (NewHub, NewHub) (posts pattern body)) d (s, [])).

Abbreviation sim_step := (edge_step (C := list_caddy) previewer show_time text_lt some_payload).

Lemma step_post d pattern body s : sim_step s (served_post d pattern body s).
Proof. by apply (edge_step_op _ _ _ _ (EdgeRequest open_server (NewHub, NewHub) (posts pattern body)) d s []). Qed.

Lemma nothing_ok : keys_ok nothing ∧ inactive nothing.
Proof. split; [split; try split; apply NoDup_nil_2|constructor]. Qed.

Definition with_certificate : edgedb list_caddy := served_post (drawn "c1" 5) "/jobs/ssl-request" "my-app.io" nothing.

Lemma with_certificate_reached : rtc sim_step nothing with_certificate.
Proof. apply rtc_once, step_post. Qed.

Example certificate_requested :
  (λ c, (Certificate.Hostname c, Certificate.Status c)) <$> certs with_certificate = [("my-app.io", "issuing")]
  ∧ lc_automate (edge (px with_certificate)) = Some ["my-app.io"].
Proof. vm_compute. done. Qed.

(** The second hostname is refused by Caddy. *)
Definition two_requests : edgedb list_caddy := served_post (drawn "c2" 6) "/jobs/ssl-request" "other.io" with_certificate.

Lemma edge_invariant_witness : keys_ok two_requests ∧ Certificate.Status <$> certs two_requests = ["issuing"; "failed"].
Proof.
  split; [|vm_compute; reflexivity].
  apply (edge_invariant previewer show_time text_lt some_payload nothing two_requests (proj1 nothing_ok)).
  eapply rtc_r; [apply with_certificate_reached|apply step_post].
Defined.

Lemma certificates_never_active_witness :
  inactive two_requests ∧ tables_of (reconcileCerts show_time 9 (two_requests, [])) = two_requests.
Proof.
  apply (certificates_never_active previewer show_time text_lt some_payload nothing two_requests 9 [] nothing_ok).
  eapply rtc_r; [apply with_certificate_reached|apply step_post].
Defined.

Definition ssl_job : Job :=
  Job.mk "j1" QueueDomains TypeSSLRequest "{}" 0 Jobs.StatusRunning 1 25 0 (Some 300) (Some "w") None None 0 0.

Lemma ssl_jobs_fail_witness :
  domain_process some_payload (λ _, 7) (drawn "x" 10) ssl_job (([ssl_job], nothing), [])
  = zoom queue_l (ignore (Fail "j1" (Some (Platform (New CodeInvalidArgument "cert: hostname required"))) 7 10))
      (([ssl_job], nothing), []).
Proof. by apply (ssl_jobs_fail some_payload (λ _, 7) (drawn "x" 10) ssl_job
         {| ControlPlane.OrgID := "o"; ControlPlane.ProjectID := "p"; ControlPlane.DeploymentID := "";
     ControlPlane.DomainID := domain_id; ControlPlane.UserID := ""; ControlPlane.CorrelationID := "";
     ControlPlane.Metadata := "" |}). Defined.

Definition verify_job : Job :=
  Job.mk "j2" QueueDomains TypeDomainVerify "{}" 0 Jobs.StatusRunning 1 25 0 (Some 300) (Some "w") None None 0 0.

Definition the_payload : ControlPlane.Payload :=
  {| ControlPlane.OrgID := "o"; ControlPlane.ProjectID := "p"; ControlPlane.DeploymentID := "";
     ControlPlane.DomainID := domain_id; ControlPlane.UserID := ""; ControlPlane.CorrelationID := "";
     ControlPlane.Metadata := "" |}.

Definition queued_verification : edgedb list_caddy :=
  tables_of (handle_verify some_payload (drawn "v1" 5) verify_job (nothing, [])).

Definition requested_again : edgedb list_caddy :=
  served_post (drawn "v2" 6) "/jobs/domain-verify" "my-app.io" queued_verification.

Lemma queued_verification_has_no_hostname_witness :
  DomainVerification.Hostname <$> verifications requested_again = [""]
  ∧ ∀ v, v ∈ verifications requested_again → DomainVerification.DomainID v = domain_id → DomainVerification.Hostname v = "".
Proof.
  split; [vm_compute; reflexivity|].
  apply (queued_verification_has_no_hostname previewer show_time text_lt some_payload (drawn "v1" 5) verify_job the_payload
    nothing queued_verification requested_again [] [] nothing_ok eq_refl).
  - intros v Hv. by apply elem_of_nil in Hv.
  - vm_compute. reflexivity.
  - apply rtc_once, step_post.
Defined.

(** A domain whose record is published. *)
Definition pending_row : DomainVerification :=
  DomainVerification.mk "v1" "o" "p" domain_id "my-app.io" "txt" "agnivo-verify=0b5e7a527d2f4a0f" "pending" 0 None None None
    "" "" "{}" 1 1.

Definition one_pending : edgedb list_caddy :=
  mkEdge (px nothing) [] [pending_row] [] [].

Definition records : Resolver := {|
  LookupTXT server name :=
    if name =s? "_agnivo-challenge.my-app.io" then Ok ["v=spf1 -all"; "agnivo-verify=0b5e7a527d2f4a0f"]
    else Err (Plain "no such host");
  LookupCNAME _ _ := Err (Plain "no such host");
  LookupHost _ _ := Ok ["203.0.113.7"; "2001:db8::7"];
|}.

Definition after_pass : edgedb list_caddy :=
  tables_of (reconcileVerifications records (λ id, id) (drawn "e" 100) (one_pending, [])).

Lemma verified_by_dns_witness :
  DomainVerification.Status <$> verifications after_pass = ["verified"]
  ∧ ∃ v, v ∈ verifications one_pending ∧ evidence records v.
Proof.
  split; [vm_compute; reflexivity|].
  destruct (verified_by_dns records (λ id, id) (drawn "e" 100) one_pending []
    (VerRow.verified 100 pending_row)) as (v & H1 & _ & [H2|(_ & H2)]).
  - assert (verifications after_pass = [VerRow.verified 100 pending_row]) as E by (vm_compute; reflexivity).
    unfold after_pass in E. rewrite E. by left.
  - done.
  - apply list_elem_of_singleton in H1. subst. done.
  - by exists v.
Defined.

(** The copy of the event is refused: it has no deployment and no route. *)
Example verified_event_is_not_stored :
  proxy_events after_pass = [] ∧ fst <$> edge_bus after_pass = [DomainVerified].
Proof. vm_compute. done. Qed.

Lemma second_certificate_fails_witness :
  is_ok (RequestCert "c2" "o" "p" domain_id "other.io" "" 6 (with_certificate, [])).1 = false.
Proof.
  assert (get_automate (edge (px with_certificate)) = Some ["my-app.io"]) as E by (vm_compute; reflexivity).
  apply (second_certificate_fails with_certificate ["my-app.io"] "c2" "o" "p" domain_id "other.io" "" 6 [] E).
  rewrite list_elem_of_singleton. done.
Defined.

Example address_checks_never_pass_at :
  Verified (Verify records (DomainVerification.mk "v" "o" "p" domain_id "my-app.io" "a" "0b5e7a527d2f4a0f" "pending" 0
    None None None "" "" "{}" 1 1)) = false.
Proof.
  apply address_checks_never_pass; [by vm_compute|by left|by vm_compute|].
  intros name addrs a [= <-] Ha. repeat (apply elem_of_cons in Ha as [->|Ha]; [vm_compute; by eexists|]).
  by apply elem_of_nil in Ha.
Qed.

(** A short identifier panics: the request is answered by the recovery middleware. *)
Example short_domain_panics :
  GenerateChallenge "txt" "example" = None ∧ of_handler (Ok None) = Panics "runtime error: slice bounds out of range".
Proof. done. Qed.

(** The time to live asked for is not used. *)
Example preview_ttl_is_dropped :
  Preview.ExpiresAt <$> previews (px (served_post (drawn "p1" 0) "/previews" "main" nothing)) = [Some (7 * 24 * Hour)].
Proof. vm_compute. done. Qed.
